(* ===== verification/_CoqProject ===== *)
-Q . S2P
Prelude.v
Crc32.v
Sds.v
CLib.v
Zmalloc.v
CertTime.v
Base64.v
SdsText.v
SdsEdit.v
LockFreeQueue.v
StdHeap.v
MsgQueue.v
MsgQueueSpec.v
MsgQueueFine.v
MsgQueueGet.v
Buffer.v
CowBuffer.v
ByteOrder.v
ByteBuffer.v
ByteIo.v
SigSlot.v
EventLoop.v
LoopLife.v
Socket.v
Defs.v
SignalingWorker.v
WorkerFraming.v
WorkerInv.v
WorkerReply.v
WorkerTrace.v
StringEncode.v
Logging.v
RandomString.v
Sdp.v
RtcWorker.v
RtcServer.v
CertLife.v
SignalingServer.v
System.v
SystemRun.v
Conf.v
Log.v
Slice.v
StringUtils.v
IpAddress.v
SockAddr.v
SockAddrText.v
PhysSocket.v
SocketServer.v
SocketInv.v
SelectLoop.v
SslStream.v
SslStreamInv.v
TlsSocket.v
TlsSocketInv.v
EventTracer.v
EventTracerInv.v
Numerics.v
Units.v
