(* ===== verification/Prelude.v ===== *)
(** * A verified model of xrtc_server

    xrtc_server (src/xrtc_server) is a signaling and media-control server in
    C++.  Clients send framed JSON requests over TCP; a request to push a stream
    is answered with an SDP offer.  This library models the server's own code
    (src/xrtc_server/src) and much of the vendored rtcbase library (a part of
    WebRTC), what the server calls first, and proves what makes them correct.

    ** The program and its model

    Threads and data flow: the thread of the signaling server accepts
    connections and hands each descriptor to a signaling worker, in turn
    (SignalingServer.v).  A signaling worker runs an event loop over its
    connections: it cuts the bytes of a client into packets, parses the JSON
    body, and gives the request to the RTC server (SignalingWorker.v).  The RTC
    server checks its certificate and passes the request to the RTC worker that
    the CRC-32 of the stream name selects (RtcServer.v).  The RTC worker creates
    a push stream and its SDP offer and sends the message back to the signaling
    worker it came from (RtcWorker.v, Sdp.v), which frames the answer and writes
    it to the client.  Threads exchange messages through queues (LockFreeQueue.v
    or a mutex-protected std::queue) and wake each other by integers on pipes.

    - Prelude.v: machine integers, bytes, the outcome type [res] and the state
      monad [M], its automation ([run], [safe], [keeps], [defined]).
    - Crc32.v: rtc_base/crc32.cc, crc32.h.
    - Sds.v: rtc_base/sds.cc, sds.h (the query buffers), on the block's bytes;
      SdsText.v: its formatting, quoting and splitting into arguments; SdsEdit.v:
      trimming, ranges, case, comparison, splitting, decimals.  CLib.v: what
      these use of the C library (ctype.h, strchr, memcmp, int arithmetic).
    - Zmalloc.v: rtc_base/zmalloc.cc, one step of one thread at a time.
    - CertTime.v: rtc_base/time_utils.cc, ssl_identity.cc ([TmToSeconds], ASN.1
      times, key parameters); CertLife.v: openssl_identity.cc and
      openssl_certificate.cc around them; Base64.v: base64.cc and PEM texts.
    - LockFreeQueue.v: base/lock_free_queue.h, call by call ([produce],
      [consume]) and one shared access at a time ([pstep], [cstep], [step]); the
      class [FifoQueue] is what its clients rely on and [lfq_fifo] discharges
      it.
    - EventLoop.v: base/event_loop.cpp, the events; LoopLife.v: its loops and
      the end of watchers; Socket.v: base/socket.cpp; Slice.v: rtc_base/slice.h.
    - Defs.v: base/xhead.h, base/xrtcserver_def.h.
    - SignalingWorker.v: server/tcp_connection.cpp, server/signaling_worker.cpp;
      its facts are in WorkerFraming.v (bytes to requests), WorkerInv.v (the
      invariant of every event), WorkerReply.v (answers, timeouts, destructor)
      and WorkerTrace.v (what is handed on).
    - StringEncode.v: rtc_base/string_encode.cc, rtc_base/ssl_fingerprint.cc.
    - Logging.v: rtc_base/logging.cc, logging.h: from RTC_LOG to the sinks.
    - RandomString.v: rtc_base/helpers.cc, ice/ice_credentials.cpp.
    - Sdp.v: pc/session_description.cpp, pc/codec_info.h, pc/peer_connection.cpp.
    - RtcWorker.v: stream/*.cpp, server/rtc_worker.cpp.
    - RtcServer.v: server/rtc_server.cpp, rtc_base/rtc_certificate.cc.
    - SignalingServer.v: server/signaling_server.cpp.
    - System.v, SystemRun.v: all threads together; a step is one callback of one
      thread and steps interleave in any order.
    - Conf.v: base/conf.cpp, main.cpp; Log.v: base/log.cpp.

    The rest of rtcbase that is modelled (rtc_base/), by component:

    - Message queues: MsgQueue.v (the queue of thread.cc, one critical section at
      a time), MsgQueueSpec.v (the abstract queue it refines), MsgQueueFine.v
      (the accesses that [Peek] and [Get] make without the lock, one at a time,
      with the other threads in between), MsgQueueGet.v ([Get], [Peek],
      [Dispose], ThreadManager), over StdHeap.v, the contract of the heap
      algorithms.
    - Bytes: Buffer.v (buffer.h), CowBuffer.v (copy_on_write_buffer.cc),
      ByteOrder.v, ByteBuffer.v, ByteIo.v (byte_order.h, byte_buffer.cc,
      byte_io.h), StringUtils.v (string_utils.cc, string_builder.cc).
    - Signals: SigSlot.v (sigslot.h, with slots that change the connections).
    - Addresses: IpAddress.v (ip_address.cc), SockAddr.v (socket_address.cc),
      SockAddrText.v (their texts).
    - Sockets: PhysSocket.v (the sockets of physical_socket_server.cc),
      SocketServer.v (its loop over select), SocketInv.v and SelectLoop.v (the
      invariant, operation by operation and along a run).
    - TLS: SslStream.v (openssl_stream_adapter.cc), TlsSocket.v
      (openssl_adapter.cc, openssl_session_cache.cc); SslStreamInv.v and
      TlsSocketInv.v judge what they did, event by event.
    - Tracing: EventTracer.v (event_tracer.cc), EventTracerInv.v.
    - Numbers: Numerics.v (numerics/: comparisons, casts and bounds across
      integer types), Units.v (units/unit_base.h, TimeDelta, Timestamp, 32-bit
      timestamps).

    ** How code becomes definitions

    A function of the code is a Definition of the same name.  A class is a
    Record of its fields; a method is a computation in [M S A := S -> res (A *
    S)], with [res] one of [Ret], [Abort] (the program ends, as zmalloc does
    when memory runs out), [Ub u] (undefined behaviour, named) and [OutOfFuel].
    Integers are [Z] with the wrap-around of their width written out; buffers
    are lists of bytes and every access is checked against them.

    - Objects that code shares by pointer (connections, streams, queue nodes,
      certificates) live on heaps ([gmap positive _]); [delete] removes the cell
      and a later access is [Ub UseAfterFree].
    - System calls are arguments: the result the kernel returned ([sysread],
      [syswrite], [new_conn_env], ...).  That a read returns at most the number
      of bytes asked for is a hypothesis ([read_fits]).  Effects on the world
      (bytes written, descriptors closed, messages handed on) are recorded in
      the state in order.
    - The worker checks neither the length of the body that a header announces
      nor the length of an answer.  The theorems about it therefore assume that
      no header announces 2^28 bytes or more ([event_ok]; [huge_body_overflows]
      is what happens else) and, where answers are written, that an answer fits
      in the buffer of [MAX_RES_BUF] bytes ([reply_fits]; [response_addressed]
      states both cases).
    - A non-void function that flows off its end is undefined in C++, and
      [set_rtcp_mux], [_process_rtc_msg] and [SignalingServerWorker::init] do:
      they end with [off_end], which is [Ub MissingReturn] unless the class
      [Compiler] says that the compiler lets such a function return
      ([returns_off_end]; [lenient] and [strict] are the two instances).  The
      theorems that need it say so.  Where the missing value is used
      ([_process_request]) it is [Ub MissingReturn] always; in [_create_worker]
      the value found in its place is the parameter [noret], since both outcomes
      matter.
    - [assert] is compiled out (-DNDEBUG).  RTC_LOG evaluates its arguments only
      when the severity is enabled ([log_info]).
    - libev, jsoncpp, yaml-cpp and OpenSSL are not in the sources: they are the
      classes [LibEv] (with the laws [LibEvLaws] of its manual), [JsonCpp],
      [Yaml], and arguments such as [Generate] and [CreateFromCertificate]'s
      digests; each has a concrete instance with which the witnesses compute.
      So are inet_pton and inet_ntop (the class [Inet]) and the heap algorithms
      (the class [StdHeap]).  The digest and the check of a certificate and the
      length of a TLS record (one per SSL_write) are parameters.
    - The platform is macOS: the layout of sockaddr, errno and the constants are
      its, integers are little-endian, [select] waits.  Shifts are those of C++17,
      OpenSSL is 1.1.1 (not BoringSSL), and [new T[n]] ends the process only when
      no array has [n] elements.
    - In PhysSocket.v the answers of the system calls are a script that the calls
      consume; in SslStream.v, TlsSocket.v and SelectLoop.v they come with the
      operation.  Client code that is called back (slots, handlers of events) is
      an argument that may use the object again: a run is a machine with a stack
      of what is under way.  What the client must not do is a predicate
      ([admissible], [socket_op_ok], [ssl_op_ok], [tls_op_ok], [trace_act_ok]):
      use an object after its end, mostly, but also what the code does not
      survive although nothing forbids it (a source inside the buffer itself, a
      socket deleted in its own handler, a key exported without a connection, a
      sink added twice).  The property says what is left out, and an Example
      shows what the code does there.  The signals of sigslot.h have its
      policy for a single thread; those of a socket do not allow deletion while
      they fire, as the mutex there is not recursive.
    - [wp] is the weakest precondition of a run that does not go wrong (the
      script may run out), [twp] of one that returns.
    - [std::thread] is its joinable flag; a pipe is the list of the integers in
      it.  Threads interleave at callbacks (System.v), at shared accesses in the
      lock-free queue, at critical sections in the log, and in the message queue
      at critical sections and at the accesses of [Peek] and [Get] outside them.
      Memory is sequentially consistent.

    Fuel appears in these places.  [_process_query_buffer] takes the number of
    its iterations: three suffice for every read ([framing_segmentation]) except
    in the one state where the loop does not end ([framing_loop]).  The write
    loop and the accept loop recurse on the scripts of the results of the system
    calls.  The random non-zero identifier takes a number of tries.  A walk of the
    list of log sinks takes one unit per sink that exists, enough for a list
    without repetition ([logging_refines_list]).  [sdscatvprintf] doubles its
    buffer at most 60 times, past any length a string can have; splitting and
    base64 take one unit per character ([base64_roundtrip] has totality).
    Walks over waiting messages take one unit per message; [Get] and
    [ProcessMessages] recurse on what happens during their waits.  Nine rounds
    write any variable-length number; in SigSlot.v two units disconnect and
    [2 n + 1] copy a list of [n] connections.  [sig_run], [server_run], [ssl_run]
    and [tls_run] count steps of their machines, and nothing is claimed of a
    client that calls for ever.  FlushInput and WriteAll recurse on the answers
    of the stream; lemmas say how many answers make them return.  Other loops
    are structural.

    ** What is proved

    - The whole system: [system_safe] (no interleaving of the threads touches
      memory it should not), [answers_in_order] (conservation of requests:
      answered once, in order, to the worker that asked, as long as a certificate
      can be made; [request_dropped] is the other case), [push_served] (a
      request that arrives at an idle system is answered in five callbacks, with
      the bytes of the answer).
    - A signaling worker: [worker_memory_safe] and [worker_connections] (the
      invariant), [framing_segmentation] (how the network cuts the stream does
      not matter), [framing_reject], [framing_loop], [response_addressed],
      [response_bytes_framed], [write_conn_delivers], [timeout_exact].
    - The servers: [rtc_server_safe], [dispatch_by_stream],
      [certificate_dangles], [push_answered], [dispatch_round_robin].
    - The certificate: [certificate_lifetime] (made, written, read back,
      compared with the clock and renewed, to the second),
      [TmToSeconds_calendar] (equal to a calendar counted forward).
    - The queue: [spsc_safe], [spsc_fifo] (linearisable as a queue for one
      producer and one consumer), [lfq_no_leak]; the lemma [lfq_refines_fifo]
      is about whole calls.
    - The offer: [create_offer_text], [create_offer_consistent].
    - The log: [logged_by_level] (what is in the files after a sequence of log
      statements), [logging_refines_list] (the intrusive list of sinks is a
      list).
    - Message queues: [queue_refines_agenda] (accesses of all threads in any order,
      as long as no Clear matches the message that [Peek] or [Get] has in hand;
      [cleared_while_stored] and [cleared_while_copied] are the other case),
      [get_delivers] (a message that is due comes out), [cleanup_safe].
    - Sockets: [no_stale_event] (no event reaches a socket that was closed,
      destroyed or replaced while the events were handed out).
    - TLS: [verified_before_data], [checked_before_data] (no data of
      TLS before the certificate of the peer was checked, clear text only in the
      states without TLS), [sent_in_order].
    - Signals: [sigslot_safe], [emit_delivers] (whatever the slots do).
    - Tracing: [trace_file] (the file of a session has its events, once, in
      order).
    - Bytes and texts: [buffer_growth], [cow_value_semantics],
      [sockaddr_text_roundtrip], [base64_roundtrip].

    Lemmas that are not numbered cover the rest:

    - the server: [destroy_worker_closes], [write_loop_partial],
      [accept_new_conn_cases], [signaling_server_init], [signaling_server_stop],
      [rtc_server_init], [certificate_renewal], [push_streams_leak],
      [ice_credentials_valid], [fingerprint_roundtrip], [digest_order],
      [io_event_interest], [loop_lifetime], [slice_order], [main_order];
    - strings and numbers: [sdsrange_slice], [sdstrim_ok], [sdscmp_ok],
      [sdssplitlen_join], [sdssplitargs_safe], [quoted_args_roundtrip],
      [hex_roundtrip], [pem_roundtrip], [ComputeCrc32_ref], [zmalloc_counts],
      [byte_io_roundtrip], [byte_buffer_roundtrip], [zero_on_free],
      [address_order], [netmask_prefix], [sockaddr_roundtrip];
    - integers of different types: [safe_exact] (comparisons),
      [checked_cast_exact], [saturated_cast_exact], [SafeMin_exact],
      [SafeMax_exact], [SafeClamp_exact] (with [clamp_types_ok]: there is a
      result type for any three types); time: [plus_exact], [minus_exact] (the
      arithmetic of the integers with infinities, but where the type ends),
      [fraction_roundtrip], [rounding_exact], [unwrap_true_times].

    Theorems marked C1, C2, ... are the properties, in order of importance; the
    lemma [<name>_witness] applies each at a concrete input.

    ** Not modelled

    - What only calls a library: [EventLoop]'s loop (ev_run, ev_break), the
      thread bodies around it, OpenSSL's digests, keys and X.509, its
      initialisation, JSON and YAML parsing, the resident set size of zmalloc.cc.
    - base/openssl_compat.cpp (aliases for another OpenSSL version).
    - Of the files of rtcbase above: starting and joining threads, calls from one
      thread to another ([Send], [Invoke]) and tasks in thread.cc; the branches
      for epoll, Windows and BoringSSL; floating-point numbers in numerics/ and
      units/; the macros of trace_event.h and logging.h that only pass their
      arguments on; the certificates of ssl_roots.h, which are data.
    - The rest of rtcbase (locks, networks and proxies, clocks, field trials),
      which the server does not call; the Go front end (src/signaling) and the
      screen sharing page (src/screen_share), which are other programs.
    - Weak memory: the counters of the lock-free queue are read as if by
      sequentially consistent accesses. *)

From Stdlib Require Strings.String.
From Stdlib Require Export ZArith Lia Strings.Byte Bool.
From stdpp Require Export base tactics option list gmap strings numbers relations.

#[global] Open Scope Z_scope.

Declare Scope xrtc_scope.
Delimit Scope xrtc_scope with xrtc.

(** Addresses of objects; the allocator may reuse an address after [delete]. *)
Notation loc := positive.

Create HintDb xrtc discriminated.
Create HintDb run discriminated.

(** ** Machine integers *)

(** The value of an unsigned [w]-bit variable after storing [z] in it. *)
Definition wrapU (w : Z) (z : Z) : Z := z mod 2 ^ w.

(** The value of a two's complement [w]-bit variable after storing [z]. *)
Definition wrapS (w : Z) (z : Z) : Z := (z + 2 ^ (w - 1)) mod 2 ^ w - 2 ^ (w - 1).

Notation "'u8' z" := (wrapU 8 z) (at level 10, z at level 9) : xrtc_scope.
Notation "'u16' z" := (wrapU 16 z) (at level 10, z at level 9) : xrtc_scope.
Notation "'u32' z" := (wrapU 32 z) (at level 10, z at level 9) : xrtc_scope.
Notation "'u64' z" := (wrapU 64 z) (at level 10, z at level 9) : xrtc_scope.
Notation "'i32' z" := (wrapS 32 z) (at level 10, z at level 9) : xrtc_scope.

Lemma wrapU_range w z : 0 <= w -> 0 <= wrapU w z < 2 ^ w.
Proof. intros Hw. apply Z.mod_pos_bound. apply Z.pow_pos_nonneg; lia. Qed.

Lemma wrapU_small w z : 0 <= z < 2 ^ w -> wrapU w z = z.
Proof. intros. by apply Z.mod_small. Qed.

Lemma wrapU_idemp w z : wrapU w (wrapU w z) = wrapU w z.
Proof. unfold wrapU. apply Zmod_mod. Qed.

Lemma wrapU_add_l w a b : wrapU w (wrapU w a + b) = wrapU w (a + b).
Proof. unfold wrapU. apply Zplus_mod_idemp_l. Qed.

Lemma wrapS_range w z : 0 < w -> - 2 ^ (w - 1) <= wrapS w z < 2 ^ (w - 1).
Proof.
  intros Hw. unfold wrapS.
  assert (2 ^ w = 2 * 2 ^ (w - 1)) as Hp
    by (rewrite <- Z.pow_succ_r by lia; f_equal; lia).
  pose proof (Z.mod_pos_bound (z + 2 ^ (w - 1)) (2 ^ w)).
  pose proof (Z.pow_pos_nonneg 2 (w - 1)). lia.
Qed.

Lemma wrapS_small w z : 0 < w -> - 2 ^ (w - 1) <= z < 2 ^ (w - 1) -> wrapS w z = z.
Proof.
  intros Hw Hz. unfold wrapS.
  assert (2 ^ w = 2 * 2 ^ (w - 1)) as Hp
    by (rewrite <- Z.pow_succ_r by lia; f_equal; lia).
  rewrite Z.mod_small; lia.
Qed.

Lemma wrapS_add_l w a b c : a + b = c -> wrapS w (wrapS w a + b) = wrapS w c.
Proof.
  intros <-. unfold wrapS.
  replace ((a + 2 ^ (w - 1)) mod 2 ^ w - 2 ^ (w - 1) + b + 2 ^ (w - 1))
    with ((a + 2 ^ (w - 1)) mod 2 ^ w + b) by lia.
  rewrite Zplus_mod_idemp_l. do 2 f_equal. lia.
Qed.

#[export] Hint Rewrite wrapU_idemp wrapU_add_l : xrtc.

(** The two facts below restate smallness with the bounds as numerals, so that
    [lia] discharges the side condition. *)
Lemma u32_small z : 0 <= z < 4294967296 -> wrapU 32 z = z.
Proof. intros. apply wrapU_small. lia. Qed.
Lemma u64_small z : 0 <= z < 18446744073709551616 -> wrapU 64 z = z.
Proof. intros. apply wrapU_small. lia. Qed.
Lemma i32_small z : -2147483648 <= z < 2147483648 -> wrapS 32 z = z.
Proof. intros. apply wrapS_small; lia. Qed.

Lemma u32_range z : 0 <= wrapU 32 z < 4294967296.
Proof. apply (wrapU_range 32 z). lia. Qed.
Lemma u64_range z : 0 <= wrapU 64 z < 18446744073709551616.
Proof. apply (wrapU_range 64 z). lia. Qed.
Lemma i32_range z : -2147483648 <= wrapS 32 z < 2147483648.
Proof. apply (wrapS_range 32 z). lia. Qed.

#[export] Hint Resolve u32_range u64_range i32_range : xrtc.

(** Exclusive or stays within the width of its operands. *)
Lemma lxor_range w a b :
  0 <= w -> 0 <= a < 2 ^ w -> 0 <= b < 2 ^ w -> 0 <= Z.lxor a b < 2 ^ w.
Proof.
  intros Hw Ha Hb.
  enough (Z.lxor a b = Z.lxor a b mod 2 ^ w) as -> by (apply (wrapU_range w); done).
  rewrite <- Z.land_ones, <- (Z.mod_small a (2 ^ w)), <- (Z.mod_small b (2 ^ w)) by done.
  rewrite <- !Z.land_ones by done. apply Z.bits_inj'. intros i Hi.
  repeat rewrite ?Z.lxor_spec, ?Z.land_spec.
  destruct (Z.testbit a i), (Z.testbit b i), (Z.testbit (Z.ones w) i); done.
Qed.

(** Or-ing numbers without a common bit adds them. *)
Lemma lor_disjoint v y i : 0 <= v < 2 ^ i -> 0 <= i -> Z.lor v (y * 2 ^ i) = v + y * 2 ^ i.
Proof.
  intros Hv Hi. rewrite <- Z.shiftl_mul_pow2 by done.
  enough (Z.land v (Z.shiftl y i) = 0) as Hd by (rewrite <- Z.lxor_lor, <- Z.add_nocarry_lxor by done; done).
  apply Z.bits_inj'. intros j Hj. rewrite Z.land_spec, Z.bits_0. destruct (Z.ltb_spec j i).
  - by rewrite Z.shiftl_spec_low, andb_false_r.
  - destruct (decide (v = 0)) as [->|]; [by rewrite Z.bits_0|].
    rewrite (Z.bits_above_log2 v j), andb_false_l; [done|lia|]. apply Z.log2_lt_pow2; [lia|].
    pose proof (Z.pow_le_mono_r 2 i j). lia.
Qed.

(** ** Bytes *)

#[export] Instance byte_eq_dec : EqDecision byte := Byte.byte_eq_dec.

(** The value of an [unsigned char], and the byte an integer is truncated to. *)
Definition b2z (b : byte) : Z := Z.of_N (Byte.to_N b).
Definition z2b (z : Z) : byte :=
  match Byte.of_N (Z.to_N (z mod 256)) with Some b => b | None => x00 end.

Lemma b2z_range b : 0 <= b2z b < 256.
Proof. unfold b2z. pose proof (Byte.to_N_bounded b). lia. Qed.

Lemma z2b_b2z b : z2b (b2z b) = b.
Proof.
  unfold z2b. rewrite Z.mod_small by apply b2z_range.
  unfold b2z. rewrite N2Z.id, Byte.of_to_N. done.
Qed.

Lemma b2z_z2b z : b2z (z2b z) = z mod 256.
Proof.
  unfold z2b, b2z. pose proof (Z.mod_pos_bound z 256 ltac:(lia)).
  destruct (Byte.of_N _) eqn:E.
  - apply Byte.to_of_N in E. rewrite E. lia.
  - apply Byte.of_N_None_iff in E. lia.
Qed.

Lemma b2z_z2b_small z : 0 <= z < 256 -> b2z (z2b z) = z.
Proof. intros. rewrite b2z_z2b. by apply Z.mod_small. Qed.

#[export] Instance b2z_inj : Inj (=) (=) b2z.
Proof. intros a b H. rewrite <- (z2b_b2z a), H. apply z2b_b2z. Qed.

#[export] Hint Resolve b2z_range : xrtc.
#[export] Hint Rewrite z2b_b2z : xrtc.

(** The characters of a [std::string] as bytes, and back. *)
Notation string_bytes := String.list_byte_of_string.
Notation bytes_string := String.string_of_list_byte.

Lemma string_app_assoc (a b c : string) : (a +:+ b) +:+ c = a +:+ (b +:+ c).
Proof. induction a as [|x a IH]; [done|]. change (String x ((a +:+ b) +:+ c) = String x (a +:+ (b +:+ c))). by rewrite IH. Qed.

Lemma string_app_nil_r (a : string) : a +:+ EmptyString = a.
Proof. induction a as [|x a IH]; [done|]. change (String x (a +:+ EmptyString) = String x a). by rewrite IH. Qed.

(** Little-endian reads of the header fields (the targets are arm64/x86-64). *)
Fixpoint le_of_bytes (bs : list byte) : Z :=
  match bs with
  | [] => 0
  | b :: bs => b2z b + 256 * le_of_bytes bs
  end.

Fixpoint le_to_bytes (n : nat) (z : Z) : list byte :=
  match n with
  | O => []
  | S n => z2b z :: le_to_bytes n (z / 256)
  end.

Lemma length_le_to_bytes n z : length (le_to_bytes n z) = n.
Proof. revert z. induction n; intros; simpl; auto. Qed.

Lemma le_of_bytes_range bs : 0 <= le_of_bytes bs < 256 ^ Z.of_nat (length bs).
Proof.
  induction bs as [|b bs IH]; simpl; [done|].
  rewrite Nat2Z.inj_succ, Z.pow_succ_r by lia.
  pose proof (b2z_range b). lia.
Qed.

Lemma le_of_to_bytes n z :
  0 <= z < 256 ^ Z.of_nat n -> le_of_bytes (le_to_bytes n z) = z.
Proof.
  revert z. induction n as [|n IH]; intros z Hz.
  - change (256 ^ Z.of_nat 0) with 1 in Hz. simpl. lia.
  - rewrite Nat2Z.inj_succ, Z.pow_succ_r in Hz by lia.
    cbn [le_to_bytes le_of_bytes]. rewrite b2z_z2b, IH.
    + pose proof (Z.div_mod z 256). lia.
    + split; [apply Z.div_pos; lia | apply Z.div_lt_upper_bound; lia].
Qed.

Lemma le_to_of_bytes bs : le_to_bytes (length bs) (le_of_bytes bs) = bs.
Proof.
  induction bs as [|b bs IH]; [done|]. cbn [length le_of_bytes le_to_bytes].
  pose proof (b2z_range b) as Hb. f_equal.
  - apply (inj b2z). rewrite b2z_z2b, (Z.mul_comm 256), Z.mod_add, Z.mod_small by lia. done.
  - rewrite (Z.mul_comm 256), Z.div_add, Z.div_small, Z.add_0_l by lia. done.
Qed.

(** ** Outcomes of C++ code *)

(** The ways the modelled code leaves the behaviour the language defines. *)
Inductive ub :=
  | NullDeref        (* dereference of a null pointer *)
  | UseAfterFree     (* access to a deleted object *)
  | OutOfBounds      (* access outside an array, vector or allocation *)
  | DivByZero        (* [%] by zero *)
  | MissingReturn    (* the caller uses the value of a call that returned none *)
  | SignedOverflow   (* a signed operation leaves its type *)
  | BadArgument      (* a library function is called outside its domain *)
  | Uninitialised.   (* a value is used that was never written *)

(** A run of a function: it returns, the process ends (abort, failed check,
    uncaught exception), the behaviour is undefined, or a loop is still running
    when the fuel, or the script of system call results, is used up. *)
Inductive res (A : Type) :=
  | Ret (a : A)
  | Abort
  | Ub (u : ub)
  | OutOfFuel.
Arguments Ret {A} a.
Arguments Abort {A}.
Arguments Ub {A} u.
Arguments OutOfFuel {A}.

#[export] Instance ub_eq_dec : EqDecision ub.
Proof. solve_decision. Defined.

#[export] Instance res_ret : MRet res := fun A a => Ret a.
#[export] Instance res_bind : MBind res := fun A B f r =>
  match r with Ret a => f a | Abort => Abort | Ub u => Ub u | OutOfFuel => OutOfFuel end.

(** A function with a result that reaches its end without [return] is undefined
    by the letter of the language, even when nobody uses the result; compilers
    can also be made to return an unusable value ([-fno-strict-return]).  The
    compiler is a parameter. *)
Class Compiler := { returns_off_end : bool }.
Definition lenient : Compiler := {| returns_off_end := true |}.
Definition strict : Compiler := {| returns_off_end := false |}.
Definition off_end `{Compiler} : res unit := if returns_off_end then Ret tt else Ub MissingReturn.

(** State passing over [res]: the methods of an object with state [S]. *)
Definition M (S A : Type) : Type := S -> res (A * S).
#[export] Instance M_ret {S} : MRet (M S) := fun A a s => Ret (a, s).
#[export] Instance M_bind {S} : MBind (M S) := fun A B f m s =>
  match m s with
  | Ret (a, s') => f a s'
  | Abort => Abort
  | Ub u => Ub u
  | OutOfFuel => OutOfFuel
  end.

Definition get {S} : M S S := fun s => Ret (s, s).
Definition put {S} (s : S) : M S unit := fun _ => Ret (tt, s).
Definition modify {S} (f : S -> S) : M S unit := fun s => Ret (tt, f s).
Definition ub_ {S A} (u : ub) : M S A := fun _ => Ub u.
Definition lift {S A} (r : res A) : M S A := fun s =>
  match r with
  | Ret a => Ret (a, s)
  | Abort => Abort
  | Ub u => Ub u
  | OutOfFuel => OutOfFuel
  end.

Lemma res_bind_ret {A B} (m : res A) (f : A -> res B) b :
  mbind f m = Ret b <-> exists a, m = Ret a /\ f a = Ret b.
Proof.
  destruct m as [a| |u|]; cbn; split; try done; try by intros (? & ? & _).
  - intros Hf. by exists a.
  - by intros (x & [= ->] & Hf).
Qed.

Lemma M_bind_ret {S A B} (m : M S A) (f : A -> M S B) s b s' :
  (mbind f m : M S B) s = Ret (b, s') <->
  exists a s1, m s = Ret (a, s1) /\ f a s1 = Ret (b, s').
Proof.
  unfold mbind, M_bind. destruct (m s) as [[a s1]| |u|];
    split; try done; try by intros (? & ? & ? & _).
  - intros Hf. by exists a, s1.
  - by intros (? & ? & [= -> ->] & Hf).
Qed.

(** A known first step of a program. *)
Lemma M_bind_eq {S A B} (m : M S A) (f : A -> M S B) s a s' :
  m s = Ret (a, s') -> mbind f m s = f a s'.
Proof. intros Hm. unfold mbind, M_bind. by rewrite Hm. Qed.

Lemma M_bind_get {S B} (f : S -> M S B) s : mbind f get s = f s s.
Proof. done. Qed.
Lemma M_bind_modify {S B} (g : S -> S) (f : unit -> M S B) s : mbind f (modify g) s = f tt (g s).
Proof. done. Qed.
Lemma M_bind_mret {S A B} (a : A) (f : A -> M S B) s : mbind f (mret a) s = f a s.
Proof. done. Qed.
Lemma M_bind_lift {S A B} (a : A) (r : res A) (f : A -> M S B) s :
  r = Ret a -> mbind f (lift r) s = f a s.
Proof. by intros ->. Qed.

#[export] Hint Rewrite @M_bind_get @M_bind_modify @M_bind_mret : run.

(** [step H] runs the first command of the goal's program with the equation [H]. *)
Tactic Notation "step" uconstr(H) := rewrite (M_bind_eq _ _ _ _ _ H).

(** [inv_M H] takes a successful run of a monadic program apart, one step of
    the program per hypothesis. *)
Ltac inv_M H :=
  lazymatch type of H with
  | mbind _ _ _ = Ret _ =>
      let a := fresh "a" in let s1 := fresh "s" in let H1 := fresh H in
      apply M_bind_ret in H; destruct H as (a & s1 & H1 & H); inv_M H1; inv_M H
  | mret _ _ = Ret _ => injection H as H; subst
  | modify _ _ = Ret _ => injection H as H; subst
  | put _ _ = Ret _ => injection H as H; subst
  | get _ = Ret _ => injection H as H; subst
  | ub_ _ _ = Ret _ => discriminate H
  | Ret _ = Ret _ => injection H as H; subst
  | _ => idtac
  end.

(** [run] executes the state-passing plumbing of a program on a state, leaving
    its own accesses and tests. *)
Ltac run :=
  unfold mbind, M_bind, mret, M_ret, get, put, modify, ub_, lift; cbn beta iota.

(** ** What a program keeps

    [keeps R m]: a run of [m] that returns relates its initial and final states
    by the preorder [R]. *)

Section keeps.
Context {S : Type} (R : relation S) `{!PreOrder R}.

Definition keeps {A} (m : M S A) : Prop := forall s a s', m s = Ret (a, s') -> R s s'.

Lemma keeps_ret {A} (a : A) : keeps (mret a).
Proof. intros s b s' Hr. by injection Hr as _ <-. Qed.
Lemma keeps_get : keeps get.
Proof. intros s b s' Hr. by injection Hr as _ <-. Qed.
Lemma keeps_ub {A} u : keeps (ub_ u : M S A).
Proof. by intros s b s'. Qed.
Lemma keeps_lift {A} (r : res A) : keeps (lift r).
Proof. intros s b s'. unfold lift. destruct r; try done. by intros [= _ <-]. Qed.
Lemma keeps_modify (f : S -> S) : (forall s, R s (f s)) -> keeps (modify f).
Proof. intros Hf s b s' Hr. by injection Hr as _ <-. Qed.

Lemma keeps_bind {A B} (m : M S A) (f : A -> M S B) :
  keeps m -> (forall a, keeps (f a)) -> keeps (mbind f m).
Proof.
  intros Hm Hf s b s' Hr. apply M_bind_ret in Hr as (a & s1 & H1 & H2).
  transitivity s1; [by eapply Hm|by eapply Hf].
Qed.

(** The state that was read is the current one. *)
Lemma keeps_get_bind {B} (f : S -> M S B) :
  (forall s b s', f s s = Ret (b, s') -> R s s') -> keeps (mbind f get).
Proof. intros Hf s b s' Hr. rewrite M_bind_get in Hr. by eapply Hf. Qed.
End keeps.

Create HintDb keeps.
#[export] Hint Resolve keeps_ret keeps_get keeps_ub keeps_lift : keeps.

(** Walks through a program; what is left are the accesses that change the
    state and are not in the database. *)
Ltac keeps :=
  repeat first
    [ lazymatch goal with |- forall _, _ => intro end
    | solve [eauto 2 with keeps typeclass_instances]
    | apply keeps_bind
    | lazymatch goal with
      | |- keeps _ (let '(_, _) := ?x in _) => destruct x
      | |- keeps _ (if ?x =? ?y then _ else _) => destruct (Z.eqb_spec x y); [try subst x|]
      | |- keeps _ (match ?x with _ => _ end) => destruct x
      end ].

(** ** What a run establishes

    [wp m s Q]: from [s] the program returns a result and a state of [Q], unless
    its fuel or script ends first; it neither aborts nor leaves defined
    behaviour. *)

Definition wp {S A} (m : M S A) (s : S) (Q : A -> S -> Prop) : Prop :=
  match m s with Ret (a, s') => Q a s' | OutOfFuel => True | _ => False end.

Lemma wp_bind {S A B} (m : M S A) (f : A -> M S B) s Q :
  wp m s (fun a s' => wp (f a) s' Q) -> wp (mbind f m) s Q.
Proof. unfold wp, mbind, M_bind. by destruct (m s) as [[a s']| | |]. Qed.
Lemma wp_mono {S A} (m : M S A) s (Q Q' : A -> S -> Prop) :
  wp m s Q -> (forall a s', Q a s' -> Q' a s') -> wp m s Q'.
Proof. unfold wp. destruct (m s) as [[a s']| | |]; auto. Qed.
Lemma wp_ret {S A} (a : A) (s : S) (Q : A -> S -> Prop) : Q a s -> wp (mret a) s Q.
Proof. done. Qed.
Lemma wp_get {S} (s : S) (Q : S -> S -> Prop) : Q s s -> wp get s Q.
Proof. done. Qed.
Lemma wp_modify {S} (f : S -> S) (s : S) (Q : unit -> S -> Prop) : Q tt (f s) -> wp (modify f) s Q.
Proof. done. Qed.
Lemma wp_returns {S A} (m : M S A) s Q a s' : wp m s Q -> m s = Ret (a, s') -> Q a s'.
Proof. intros Hw Hm. unfold wp in Hw. by rewrite Hm in Hw. Qed.

(** The same for programs that do return. *)
Definition twp {S A} (m : M S A) (s : S) (Q : A -> S -> Prop) : Prop :=
  exists a s', m s = Ret (a, s') /\ Q a s'.

Lemma twp_bind {S A B} (m : M S A) (f : A -> M S B) s Q :
  twp m s (fun a s' => twp (f a) s' Q) -> twp (mbind f m) s Q.
Proof. intros (a & s' & Hm & b & s2 & Hf & HQ). exists b, s2. split; [|done]. by rewrite (M_bind_eq _ _ _ _ _ Hm). Qed.
Lemma twp_mono {S A} (m : M S A) s (Q Q' : A -> S -> Prop) :
  twp m s Q -> (forall a s', Q a s' -> Q' a s') -> twp m s Q'.
Proof. intros (a & s' & Hm & HQ) H. exists a, s'. auto. Qed.
Lemma twp_ret {S A} (a : A) (s : S) (Q : A -> S -> Prop) : Q a s -> twp (mret a) s Q.
Proof. intros HQ. by exists a, s. Qed.
Lemma twp_get {S} (s : S) (Q : S -> S -> Prop) : Q s s -> twp get s Q.
Proof. intros HQ. by exists s, s. Qed.
Lemma twp_modify {S} (f : S -> S) (s : S) (Q : unit -> S -> Prop) : Q tt (f s) -> twp (modify f) s Q.
Proof. intros HQ. by exists tt, (f s). Qed.

(** ** Defined behaviour

    A run that does not leave defined behaviour; it may end the process or not
    end. *)

Definition defined {A} (r : res A) : Prop := match r with Ub _ => False | _ => True end.

Lemma defined_bind {A B} (r : res A) (f : A -> res B) :
  defined r -> (forall a, r = Ret a -> defined (f a)) -> defined (mbind f r).
Proof. destruct r; cbn; auto. Qed.

Lemma defined_M_bind {S A B} (m : M S A) (f : A -> M S B) s :
  defined (m s) -> (forall a s', m s = Ret (a, s') -> defined (f a s')) -> defined (mbind f m s).
Proof. unfold mbind, M_bind. destruct (m s) as [[]| | |]; cbn; auto. Qed.

Lemma defined_lift {S A} (r : res A) (s : S) : defined r -> defined (lift r s).
Proof. by destruct r. Qed.

(** Defined, but that a function may end without its [return]. *)
Definition tame {A} (r : res A) : Prop := match r with Ub u => u = MissingReturn | _ => True end.

Lemma defined_tame {A} (r : res A) : defined r -> tame r.
Proof. by destruct r. Qed.

Lemma tame_M_bind {S A B} (m : M S A) (f : A -> M S B) s :
  tame (m s) -> (forall a s', m s = Ret (a, s') -> tame (f a s')) -> tame (mbind f m s).
Proof. unfold mbind, M_bind. destruct (m s) as [[]| | |]; cbn; auto. Qed.

Lemma tame_lift {S A} (r : res A) (s : S) : tame r -> tame (lift r s).
Proof. by destruct r. Qed.

#[export] Hint Resolve defined_bind defined_M_bind defined_lift tame_M_bind tame_lift : xrtc.

(** ** Lists *)

(** [splice l i xs]: the array [l] after [memcpy(l + i, xs, |xs|)] (in range). *)
Definition splice {A} (l : list A) (i : nat) (xs : list A) : list A :=
  take i l ++ xs ++ drop (i + length xs) l.

Lemma length_splice {A} (l : list A) i xs :
  (i + length xs <= length l)%nat -> length (splice l i xs) = length l.
Proof. intros. unfold splice. rewrite !length_app, length_take, length_drop. lia. Qed.

Lemma take_splice {A} (l : list A) i xs :
  (i <= length l)%nat -> take i (splice l i xs) = take i l.
Proof.
  intros. unfold splice. rewrite take_app_le by (rewrite length_take; lia).
  by rewrite take_take, Nat.min_id.
Qed.

Lemma take_splice_end {A} (l : list A) i xs :
  (i <= length l)%nat -> take (i + length xs) (splice l i xs) = take i l ++ xs.
Proof.
  intros. unfold splice. rewrite app_assoc.
  rewrite take_app_le by (rewrite length_app, length_take; lia).
  apply take_ge. rewrite length_app, length_take. lia.
Qed.

(** Storing a segment and then one element after it is one store. *)
Lemma splice_snoc {A} (l : list A) i xs x j :
  (j = i + length xs)%nat -> (j < length l)%nat ->
  splice l i (xs ++ [x]) = splice (splice l i xs) j [x].
Proof.
  intros -> Hj. unfold splice at 1 2. rewrite take_splice_end by lia.
  rewrite <- !app_assoc. do 3 f_equal. unfold splice.
  rewrite length_app. simpl. rewrite drop_app_ge by (rewrite length_take; lia).
  rewrite drop_app_ge by (rewrite length_take; lia).
  rewrite drop_drop, length_take. f_equal. lia.
Qed.

(** Filters under maps. *)
Lemma filter_map_iff {A B} (P : B -> Prop) (P' : A -> Prop) `{forall x, Decision (P x)}
    `{forall x, Decision (P' x)} (f : A -> B) (l : list A) :
  (forall x, P (f x) <-> P' x) -> filter P (map f l) = map f (filter P' l).
Proof.
  intros Hf. induction l as [|x l IH]; [done|]. cbn [map]. rewrite !filter_cons, IH.
  repeat case_decide; try done; exfalso; naive_solver.
Qed.

Lemma filter_none {A} (P : A -> Prop) `{forall x, Decision (P x)} (l : list A) :
  Forall (fun x => ~ P x) l -> filter P l = [].
Proof. induction 1 as [|x l Hx _ IH]; [done|]. by rewrite filter_cons, decide_False. Qed.

(** A filter that implies another absorbs it. *)
Lemma filter_absorb {A} (P P' : A -> Prop) `{forall x, Decision (P x)} `{forall x, Decision (P' x)} (l : list A) :
  (forall x, P x -> P' x) -> filter P (filter P' l) = filter P l.
Proof.
  intros HP. induction l as [|x l IH]; [done|]. rewrite !filter_cons.
  destruct (decide (P' x)); [by rewrite filter_cons, IH|].
  rewrite decide_False by naive_solver. done.
Qed.

(** A non-empty list of known length, as its elements. *)
Lemma list_cons_length {A} n (l : list A) :
  length l = S n -> exists x l', l = x :: l' /\ length l' = n.
Proof. destruct l as [|x l']; simpl; [done|]. intros [= H]. eauto. Qed.

(** Spells out a list of known length. *)
Ltac explode H :=
  lazymatch type of H with
  | length ?l = S _ =>
      let x := fresh "b" in let l' := fresh "l" in let E := fresh "E" in
      let H' := fresh "H" in
      destruct (list_cons_length _ _ H) as (x & l' & E & H'); subst l; clear H; explode H'
  | length ?l = O => apply nil_length_inv in H; subst l
  end.

#[export] Hint Resolve Forall_app_2 Forall_take Forall_drop : xrtc.

(** Case analysis on the decisions and matches of the goal and hypotheses. *)
Ltac cases := repeat (case_decide || case_match); simplify_eq/=.
