(* ===== verification/Crc32.v ===== *)
(** * [rtc_base/crc32.cc]: the checksum that shards streams over RTC workers

    [UpdateCrc32] is table driven; [crc_bit] and [crc_ref] are the bit-serial
    reference of RFC 1952 it is proved equal to. *)

From S2P Require Import Prelude.
#[local] Open Scope Z_scope.

Definition kCrc32Polynomial : Z := 0xEDB88320.

(** One round of the inner loop of [LoadCrc32Table]. *)
Definition crc_bit (c : Z) : Z :=
  if Z.testbit c 0 then Z.lxor kCrc32Polynomial (Z.shiftr c 1) else Z.shiftr c 1.

(** [kCrc32Table], filled in by the two nested loops. *)
Definition LoadCrc32Table : list Z :=
  map (fun i => Nat.iter 8 crc_bit (Z.of_nat i)) (seq 0 256).

(** The body of the loop of [UpdateCrc32]; the index is masked to 8 bits, so
    the lookup is in range. *)
Definition crc_step (c : Z) (b : byte) : Z :=
  Z.lxor (nth (Z.to_nat (Z.land (Z.lxor c (b2z b)) 0xFF)) LoadCrc32Table 0)
         (Z.shiftr c 8).

Definition UpdateCrc32 (start : Z) (buf : list byte) : Z :=
  Z.lxor (foldl crc_step (Z.lxor start 0xFFFFFFFF) buf) 0xFFFFFFFF.

Definition ComputeCrc32 (buf : list byte) : Z := UpdateCrc32 0 buf.

(** The checksum of a [std::string]. *)
Definition ComputeCrc32_string (s : string) : Z :=
  ComputeCrc32 (String.list_byte_of_string s).

(** The reference: every byte is fed bit by bit, without a table. *)
Definition crc_ref_step (c : Z) (b : byte) : Z := Nat.iter 8 crc_bit (Z.lxor c (b2z b)).
Definition crc_ref (buf : list byte) : Z :=
  Z.lxor (foldl crc_ref_step 0xFFFFFFFF buf) 0xFFFFFFFF.

(** ** The bit step is linear over exclusive or *)

Lemma crc_bit_lxor a b : crc_bit (Z.lxor a b) = Z.lxor (crc_bit a) (crc_bit b).
Proof.
  unfold crc_bit. rewrite Z.lxor_spec, Z.shiftr_lxor.
  destruct (Z.testbit a 0), (Z.testbit b 0); simpl.
  - rewrite (Z.lxor_comm kCrc32Polynomial (Z.shiftr b 1)), Z.lxor_assoc.
    rewrite <- (Z.lxor_assoc (Z.shiftr a 1)), (Z.lxor_comm (Z.lxor _ _) kCrc32Polynomial).
    rewrite <- (Z.lxor_assoc kCrc32Polynomial kCrc32Polynomial), Z.lxor_nilpotent.
    by rewrite Z.lxor_0_l.
  - by rewrite Z.lxor_assoc.
  - rewrite (Z.lxor_comm (Z.shiftr a 1)), <- Z.lxor_assoc.
    by rewrite (Z.lxor_comm (Z.lxor _ _)), <- Z.lxor_assoc, (Z.lxor_comm (Z.shiftr a 1)).
  - done.
Qed.

Lemma iter_crc_bit_lxor n a b :
  Nat.iter n crc_bit (Z.lxor a b) = Z.lxor (Nat.iter n crc_bit a) (Nat.iter n crc_bit b).
Proof. induction n as [|n IH]; simpl; [done|]. by rewrite IH, crc_bit_lxor. Qed.

(** Low zero bits are shifted out unchanged. *)
Lemma crc_bit_shiftl y n : 0 <= n -> crc_bit (Z.shiftl y (n + 1)) = Z.shiftl y n.
Proof.
  intros Hn. unfold crc_bit. rewrite Z.shiftl_spec_low by lia.
  rewrite Z.shiftr_shiftl_l by lia. f_equal. lia.
Qed.

Lemma iter_crc_bit_shiftl n y : Nat.iter n crc_bit (Z.shiftl y (Z.of_nat n)) = y.
Proof.
  induction n as [|n IH].
  - apply Z.shiftl_0_r.
  - rewrite Nat.iter_succ_r, Nat2Z.inj_succ, <- Z.add_1_r, crc_bit_shiftl by lia.
    apply IH.
Qed.

Lemma split_low_byte x : x = Z.lxor (Z.land x 255) (Z.shiftl (Z.shiftr x 8) 8).
Proof.
  apply Z.bits_inj'. intros i Hi. change 255 with (Z.ones 8).
  rewrite Z.lxor_spec, Z.land_spec, Z.testbit_ones_nonneg by lia.
  destruct (Z.ltb_spec i 8).
  - rewrite Z.shiftl_spec_low by lia. by rewrite andb_true_r, xorb_false_r.
  - rewrite Z.shiftl_spec, Z.shiftr_spec by lia. rewrite andb_false_r, xorb_false_l.
    f_equal. lia.
Qed.

Lemma iter8_crc_bit x :
  Nat.iter 8 crc_bit x = Z.lxor (Nat.iter 8 crc_bit (Z.land x 255)) (Z.shiftr x 8).
Proof.
  rewrite (split_low_byte x) at 1. rewrite iter_crc_bit_lxor. f_equal.
  apply (iter_crc_bit_shiftl 8).
Qed.

(** ** The table *)

Lemma land_255_range x : 0 <= Z.land x 255 < 256.
Proof. change 255 with (Z.ones 8). rewrite Z.land_ones by lia. apply Z.mod_pos_bound. lia. Qed.

Lemma LoadCrc32Table_nth x :
  0 <= x < 256 -> nth (Z.to_nat x) LoadCrc32Table 0 = Nat.iter 8 crc_bit x.
Proof.
  intros Hx. unfold LoadCrc32Table.
  rewrite nth_indep with (d' := Nat.iter 8 crc_bit (Z.of_nat 0))
    by (rewrite length_map, length_seq; lia).
  rewrite (map_nth (fun i => Nat.iter 8 crc_bit (Z.of_nat i))), seq_nth by lia.
  f_equal. lia.
Qed.

Lemma byte_shiftr_8 b : Z.shiftr (b2z b) 8 = 0.
Proof. pose proof (b2z_range b). rewrite Z.shiftr_div_pow2 by lia. apply Z.div_small. lia. Qed.

Lemma crc_step_ref c b : crc_step c b = crc_ref_step c b.
Proof.
  unfold crc_step, crc_ref_step. rewrite LoadCrc32Table_nth by apply land_255_range.
  rewrite (iter8_crc_bit (Z.lxor c (b2z b))), Z.shiftr_lxor, byte_shiftr_8.
  by rewrite Z.lxor_0_r.
Qed.

Lemma foldl_crc_step_ref buf c : foldl crc_step c buf = foldl crc_ref_step c buf.
Proof. revert c. induction buf as [|b buf IH]; intros c; simpl; [done|]. by rewrite crc_step_ref. Qed.

(** ** Range *)

Lemma crc_bit_range c : 0 <= c < 2 ^ 32 -> 0 <= crc_bit c < 2 ^ 32.
Proof.
  intros Hc. unfold crc_bit.
  assert (0 <= Z.shiftr c 1 < 2 ^ 32) as Hs.
  { rewrite Z.shiftr_div_pow2 by lia. change (2 ^ 1) with 2.
    pose proof (Z.div_mod c 2 ltac:(lia)). pose proof (Z.mod_pos_bound c 2). lia. }
  destruct (Z.testbit c 0); [|done].
  apply lxor_range; unfold kCrc32Polynomial; lia.
Qed.

Lemma crc_ref_step_range c b : 0 <= c < 2 ^ 32 -> 0 <= crc_ref_step c b < 2 ^ 32.
Proof.
  intros Hc. pose proof (b2z_range b). unfold crc_ref_step.
  assert (0 <= Z.lxor c (b2z b) < 2 ^ 32) as Hx by (apply lxor_range; lia).
  revert Hx. generalize (Z.lxor c (b2z b)). generalize 8%nat.
  intros n x Hx. induction n as [|n IH]; simpl; [done|]. by apply crc_bit_range.
Qed.

Lemma foldl_crc_step_range buf c :
  0 <= c < 2 ^ 32 -> 0 <= foldl crc_step c buf < 2 ^ 32.
Proof.
  revert c. induction buf as [|b buf IH]; intros c Hc; simpl; [done|].
  apply IH. rewrite crc_step_ref. by apply crc_ref_step_range.
Qed.

(** ** Properties *)

(** The table-driven checksum of the source is, on every input, the
    bit-serial CRC-32 of RFC 1952. *)
Theorem ComputeCrc32_ref buf : ComputeCrc32 buf = crc_ref buf.
Proof. unfold ComputeCrc32, UpdateCrc32, crc_ref. by rewrite foldl_crc_step_ref. Qed.

(** [UpdateCrc32] is incremental, as crc32.h says: continuing from the
    checksum of a first buffer gives the checksum of the concatenation. *)
Theorem UpdateCrc32_app start a b :
  UpdateCrc32 start (a ++ b) = UpdateCrc32 (UpdateCrc32 start a) b.
Proof.
  unfold UpdateCrc32. rewrite foldl_app. do 2 f_equal.
  by rewrite Z.lxor_assoc, Z.lxor_nilpotent, Z.lxor_0_r.
Qed.

Lemma UpdateCrc32_range start buf :
  0 <= start < 2 ^ 32 -> 0 <= UpdateCrc32 start buf < 2 ^ 32.
Proof.
  intros Hs. unfold UpdateCrc32. apply lxor_range; [lia| |lia].
  apply foldl_crc_step_range, lxor_range; lia.
Qed.

Lemma ComputeCrc32_range buf : 0 <= ComputeCrc32 buf < 2 ^ 32.
Proof. apply UpdateCrc32_range. lia. Qed.

#[export] Hint Resolve ComputeCrc32_range : xrtc.

(** The check value of CRC-32 ("123456789"). *)
Example ComputeCrc32_check : ComputeCrc32_string "123456789" = 0xCBF43926.
Proof. vm_compute. reflexivity. Qed.
