(* ===== verification/Sds.v ===== *)
(** * [rtc_base/sds.cc]: the dynamic strings of the query buffers

    An [sds] is a heap block [{int len; int free; char buf[]}].  The model keeps
    the two [int] fields at their width, the conversions from and to [size_t],
    and the whole block after the header ([buf], including the free space and
    the terminating byte), so that every access is checked against the block.
    What a fresh block holds ([junk]) and which sizes the allocator grants
    ([malloc_ok]) are parameters; [zmalloc.cc] aborts when it grants none. *)

From S2P Require Import Prelude.
#[local] Open Scope Z_scope.
#[local] Open Scope xrtc_scope.

Record sdshdr := Sds { sds_len : Z; sds_free : Z; sds_buf : list byte }.

Definition SDS_MAX_PREALLOC : Z := 1024 * 1024.
Definition sizeof_sdshdr : Z := 8.

(** [return sh->len;] and [return sh->free;] through [size_t]. *)
Definition sdslen (s : sdshdr) : Z := u64 (sds_len s).
Definition sdsavail (s : sdshdr) : Z := u64 (sds_free s).

(** ** Memory accesses *)

(** [memcpy(b + i, xs, |xs|)] into a block. *)
Definition store (b : list byte) (i : Z) (xs : list byte) : res (list byte) :=
  if decide (0 <= i /\ i + Z.of_nat (length xs) <= Z.of_nat (length b))
  then Ret (splice b (Z.to_nat i) xs) else Ub OutOfBounds.

(** The [n] bytes at offset [i] of a block. *)
Definition load (b : list byte) (i n : Z) : res (list byte) :=
  if decide (0 <= i /\ 0 <= n /\ i + n <= Z.of_nat (length b))
  then Ret (take (Z.to_nat n) (drop (Z.to_nat i) b)) else Ub OutOfBounds.

(** [strlen]: the offset of the first zero byte. *)
Fixpoint strlen (b : list byte) : res Z :=
  match b with
  | [] => Ub OutOfBounds
  | c :: b => if decide (c = x00) then Ret 0 else n ← strlen b; Ret (n + 1)
  end.

Section sds.
Context (junk : nat -> byte) (malloc_ok : Z -> bool).

(** Bytes [m..n) of a block that was just allocated. *)
Definition fresh_bytes (m n : nat) : list byte := map junk (seq m (n - m)).

(** The part after the header of [zmalloc(n)], [zcalloc(n)] and
    [zrealloc(old, n)]; [n] counts the header. *)
Definition zmalloc_block (n : Z) : res (list byte) :=
  if negb (malloc_ok n) then Abort
  else if n <? sizeof_sdshdr then Ub OutOfBounds
  else Ret (fresh_bytes 0 (Z.to_nat (n - sizeof_sdshdr))).

Definition zcalloc_block (n : Z) : res (list byte) :=
  if negb (malloc_ok n) then Abort
  else if n <? sizeof_sdshdr then Ub OutOfBounds
  else Ret (replicate (Z.to_nat (n - sizeof_sdshdr)) x00).

Definition zrealloc_block (old : list byte) (n : Z) : res (list byte) :=
  if negb (malloc_ok n) then Abort
  else if n <? sizeof_sdshdr then Ub OutOfBounds
  else let k := Z.to_nat (n - sizeof_sdshdr) in
       Ret (take k old ++ fresh_bytes (length old) k).

Definition sdsnewlen (init : option (list byte)) (initlen : Z) : res sdshdr :=
  let size := u64 (sizeof_sdshdr + initlen + 1) in
  b ← match init with Some _ => zmalloc_block size | None => zcalloc_block size end;
  b ← match init with
      | Some p => if decide (initlen = 0) then Ret b
                  else xs ← load p 0 initlen; store b 0 xs
      | None => Ret b
      end;
  b ← store b initlen [x00];
  Ret (Sds (i32 initlen) 0 b).

Definition sdsempty : res sdshdr := sdsnewlen (Some [x00]) 0.

Definition sdsnew (init : option (list byte)) : res sdshdr :=
  initlen ← match init with None => Ret 0 | Some p => strlen p end;
  sdsnewlen init initlen.

Definition sdsdup (s : sdshdr) : res sdshdr := sdsnewlen (Some (sds_buf s)) (sdslen s).

Definition sdsupdatelen (s : sdshdr) : res sdshdr :=
  reallen ← strlen (sds_buf s);
  let reallen := i32 reallen in
  Ret (Sds reallen (i32 (sds_free s + (sds_len s - reallen))) (sds_buf s)).

Definition sdsclear (s : sdshdr) : res sdshdr :=
  b ← store (sds_buf s) 0 [x00];
  Ret (Sds 0 (i32 (sds_free s + sds_len s)) b).

Definition sdsMakeRoomFor (s : sdshdr) (addlen : Z) : res sdshdr :=
  if addlen <=? sdsavail s then Ret s
  else
    let len := sdslen s in
    let newlen := u64 (len + addlen) in
    let newlen := if newlen <? SDS_MAX_PREALLOC then u64 (newlen * 2)
                  else u64 (newlen + SDS_MAX_PREALLOC) in
    b ← zrealloc_block (sds_buf s) (u64 (sizeof_sdshdr + newlen + 1));
    Ret (Sds (sds_len s) (i32 (newlen - len)) b).

Definition sdsRemoveFreeSpace (s : sdshdr) : res sdshdr :=
  b ← zrealloc_block (sds_buf s) (u64 (sizeof_sdshdr + sds_len s + 1));
  Ret (Sds (sds_len s) 0 b).

Definition sdsAllocSize (s : sdshdr) : Z :=
  u64 (sizeof_sdshdr + sds_len s + sds_free s + 1).

(** The two [assert]s are compiled out ([-DNDEBUG] in CMakeLists.txt). *)
Definition sdsIncrLen (s : sdshdr) (incr : Z) : res sdshdr :=
  let len := i32 (sds_len s + incr) in
  b ← store (sds_buf s) len [x00];
  Ret (Sds len (i32 (sds_free s - incr)) b).

Definition sdsgrowzero (s : sdshdr) (len : Z) : res sdshdr :=
  let curlen := u64 (sds_len s) in
  if len <=? curlen then Ret s
  else
    s ← sdsMakeRoomFor s (len - curlen);
    b ← store (sds_buf s) curlen (replicate (Z.to_nat (len - curlen + 1)) x00);
    let totlen := u64 (sds_len s + sds_free s) in
    Ret (Sds (i32 len) (i32 (totlen - i32 len)) b).

Definition sdscatlen (s : sdshdr) (t : list byte) (len : Z) : res sdshdr :=
  let curlen := sdslen s in
  s ← sdsMakeRoomFor s len;
  xs ← load t 0 len;
  b ← store (sds_buf s) curlen xs;
  b ← store b (u64 (curlen + len)) [x00];
  Ret (Sds (i32 (curlen + len)) (i32 (sds_free s - len)) b).

Definition sdscat (s : sdshdr) (t : list byte) : res sdshdr :=
  n ← strlen t; sdscatlen s t n.

Definition sdscatsds (s t : sdshdr) : res sdshdr :=
  sdscatlen s (sds_buf t) (sdslen t).

Definition sdscpylen (s : sdshdr) (t : list byte) (len : Z) : res sdshdr :=
  let totlen := u64 (sds_free s + sds_len s) in
  s ← (if totlen <? len then sdsMakeRoomFor s (u64 (len - sds_len s)) else Ret s);
  let totlen := if totlen <? len then u64 (sds_free s + sds_len s) else totlen in
  xs ← load t 0 len;
  b ← store (sds_buf s) 0 xs;
  b ← store b len [x00];
  Ret (Sds (i32 len) (i32 (totlen - len)) b).

Definition sdscpy (s : sdshdr) (t : list byte) : res sdshdr :=
  n ← strlen t; sdscpylen s t n.

End sds.

(** ** The abstraction: a byte string *)

(** The string an [sds] holds. *)
Definition sds_val (s : sdshdr) : list byte := take (Z.to_nat (sds_len s)) (sds_buf s).

(** Well-formed headers: the fields describe the block, the string is
    terminated, and the sizes fit an [int]. *)
Record sds_ok (s : sdshdr) : Prop := {
  ok_len : 0 <= sds_len s;
  ok_free : 0 <= sds_free s;
  ok_room : sds_len s + sds_free s + 1 < 2 ^ 31;
  ok_buf : Z.of_nat (length (sds_buf s)) = sds_len s + sds_free s + 1;
  ok_nul : sds_buf s !! Z.to_nat (sds_len s) = Some x00;
}.

Lemma sds_val_length s : sds_ok s -> Z.of_nat (length (sds_val s)) = sds_len s.
Proof. intros []. unfold sds_val. rewrite length_take. lia. Qed.

Lemma sdslen_ok s : sds_ok s -> sdslen s = sds_len s.
Proof. intros []. unfold sdslen. rewrite u64_small; lia. Qed.
Lemma sdsavail_ok s : sds_ok s -> sdsavail s = sds_free s.
Proof. intros []. unfold sdsavail. rewrite u64_small; lia. Qed.

#[export] Hint Resolve sds_val_length : xrtc.

(** ** Accesses in range *)

Lemma store_ok b i xs :
  0 <= i -> i + Z.of_nat (length xs) <= Z.of_nat (length b) ->
  store b i xs = Ret (splice b (Z.to_nat i) xs).
Proof. intros. unfold store. rewrite decide_True by lia. done. Qed.

Lemma load_ok b i n :
  0 <= i -> 0 <= n -> i + n <= Z.of_nat (length b) ->
  load b i n = Ret (take (Z.to_nat n) (drop (Z.to_nat i) b)).
Proof. intros. unfold load. rewrite decide_True by lia. done. Qed.

Lemma load_prefix (t : list byte) n :
  0 <= n <= Z.of_nat (length t) -> load t 0 n = Ret (take (Z.to_nat n) t).
Proof. intros. rewrite load_ok by lia. by rewrite drop_0. Qed.

Lemma store_nul b (i : Z) :
  0 <= i < Z.of_nat (length b) ->
  exists b', store b i [x00] = Ret b' /\ length b' = length b /\
             take (Z.to_nat i) b' = take (Z.to_nat i) b /\ b' !! Z.to_nat i = Some x00.
Proof.
  intros. eexists. rewrite store_ok by (simpl; lia). split; [done|].
  split; [apply length_splice; simpl; lia|]. split; [apply take_splice; lia|].
  unfold splice. rewrite lookup_app_r, length_take by (rewrite length_take; lia).
  by replace (Z.to_nat i - Z.to_nat i `min` length b)%nat with 0%nat by lia.
Qed.

(** The common end of the operations that write [xs] at the end of the string
    and then the terminator. *)
Lemma store_append_nul b (l : Z) (xs : list byte) :
  0 <= l -> l + Z.of_nat (length xs) < Z.of_nat (length b) ->
  exists b', (b ← store b l xs; store b (l + Z.of_nat (length xs)) [x00]) = Ret b' /\
    length b' = length b /\
    take (Z.to_nat (l + Z.of_nat (length xs))) b' = take (Z.to_nat l) b ++ xs /\
    b' !! Z.to_nat (l + Z.of_nat (length xs)) = Some x00.
Proof.
  intros Hl Hb. rewrite store_ok by lia. cbn.
  destruct (store_nul (splice b (Z.to_nat l) xs) (l + Z.of_nat (length xs)))
    as (b' & Hs & Hlen & Ht & Hn).
  { rewrite length_splice; lia. }
  exists b'. rewrite length_splice in Hlen by lia. split_and!; try done.
  rewrite Ht. rewrite Z2Nat.inj_add, Nat2Z.id by lia. apply take_splice_end. lia.
Qed.

Section sds_lemmas.
Context (junk : nat -> byte) (malloc_ok : Z -> bool).
Context (malloc_grants : forall n, 0 <= n < 2 ^ 32 -> malloc_ok n = true).

Lemma length_fresh_bytes m n : (m <= n)%nat -> length (fresh_bytes junk m n) = (n - m)%nat.
Proof. intros. unfold fresh_bytes. by rewrite length_map, length_seq. Qed.

Lemma zrealloc_block_ok old n :
  8 + Z.of_nat (length old) <= n < 2 ^ 32 ->
  exists b, zrealloc_block junk malloc_ok old n = Ret b /\
            Z.of_nat (length b) = n - 8 /\ take (length old) b = old.
Proof.
  intros Hn. unfold zrealloc_block, sizeof_sdshdr.
  rewrite malloc_grants by lia. cbn [negb].
  destruct (Z.ltb_spec n 8); [lia|]. eexists. split; [done|].
  rewrite take_ge by lia. rewrite length_app, length_fresh_bytes by lia.
  split; [lia|]. by rewrite take_app_length.
Qed.

(** The contract of [sdsMakeRoomFor] its comment states. *)
Lemma sdsMakeRoomFor_ok s addlen :
  sds_ok s -> 0 <= addlen -> sds_len s + addlen < 2 ^ 30 ->
  exists s', sdsMakeRoomFor junk malloc_ok s addlen = Ret s' /\
    sds_ok s' /\ sds_len s' = sds_len s /\ sds_val s' = sds_val s /\
    addlen <= sds_free s'.
Proof.
  intros Hs Ha Hb. unfold sdsMakeRoomFor. rewrite sdsavail_ok, sdslen_ok by done.
  destruct (Z.leb_spec addlen (sds_free s)); [by exists s|].
  pose proof Hs as [Hl Hf Hr Hbuf Hnul].
  rewrite (u64_small (sds_len s + addlen)) by lia.
  set (nl := if (_ <? _) then _ else _).
  assert (Hnl : sds_len s + addlen <= nl < 2 ^ 30 + 2 ^ 20).
  { unfold nl, SDS_MAX_PREALLOC. destruct (Z.ltb_spec (sds_len s + addlen) (1024 * 1024));
      rewrite u64_small; lia. }
  rewrite (u64_small (sizeof_sdshdr + nl + 1)) by (unfold sizeof_sdshdr; lia).
  rewrite i32_small by lia.
  destruct (zrealloc_block_ok (sds_buf s) (sizeof_sdshdr + nl + 1)) as (b & -> & Hlb & Htk).
  { unfold sizeof_sdshdr. lia. }
  cbn. unfold sizeof_sdshdr in Hlb. eexists. split; [done|].
  assert (Hpre : forall i, (i < length (sds_buf s))%nat -> b !! i = sds_buf s !! i).
  { intros i Hi. rewrite <- Htk at 1. by rewrite lookup_take_lt. }
  split_and!; cbn; try done; try lia.
  - constructor; cbn; try lia. rewrite Hpre by lia. done.
  - unfold sds_val. cbn. rewrite <- Htk at 1. rewrite take_take. f_equal. lia.
Qed.

(** Reading [n] bytes in place at the end of the string, then fixing the
    length: the schema of the comment above [sdsIncrLen]. *)
Lemma sdsIncrLen_ok s xs :
  sds_ok s -> Z.of_nat (length xs) <= sds_free s ->
  exists b s', store (sds_buf s) (sds_len s) xs = Ret b /\
    sdsIncrLen (Sds (sds_len s) (sds_free s) b) (Z.of_nat (length xs)) = Ret s' /\
    sds_ok s' /\ sds_val s' = sds_val s ++ xs /\
    sds_len s' = sds_len s + Z.of_nat (length xs) /\
    sds_free s' = sds_free s - Z.of_nat (length xs).
Proof.
  intros [Hl Hf Hr Hb Hn] Hx.
  destruct (store_append_nul (sds_buf s) (sds_len s) xs) as (b' & He & Hlb & Hv & Hnul);
    [lia..|].
  rewrite store_ok in He |- * by lia. cbn in He.
  exists (splice (sds_buf s) (Z.to_nat (sds_len s)) xs).
  eexists. split; [done|]. unfold sdsIncrLen. cbn.
  rewrite i32_small, He, i32_small by lia. cbn. split; [done|].
  split_and!; try done. constructor; cbn; try lia. done.
Qed.

Lemma sdscatlen_ok s t len :
  sds_ok s -> 0 <= len <= Z.of_nat (length t) -> sds_len s + len < 2 ^ 30 ->
  exists s', sdscatlen junk malloc_ok s t len = Ret s' /\ sds_ok s' /\
    sds_val s' = sds_val s ++ take (Z.to_nat len) t.
Proof.
  intros Hs Hlen Hb. unfold sdscatlen. rewrite sdslen_ok by done.
  destruct (sdsMakeRoomFor_ok s len) as (s' & -> & [Hl Hf Hr Hbuf Hn] & Hsl & Hsv & Hav); [done|lia..|].
  cbn. rewrite load_prefix by lia. cbn.
  assert (Ht : Z.of_nat (length (take (Z.to_nat len) t)) = len) by (rewrite length_take; lia).
  destruct (store_append_nul (sds_buf s') (sds_len s) (take (Z.to_nat len) t))
    as (b' & He & Hlb & Hv & Hnul); [lia..|].
  rewrite Ht in He, Hv, Hnul. rewrite store_ok in He |- * by lia. cbn in He |- *.
  rewrite (u64_small (sds_len s + len)), He by lia. cbn. eexists. split; [done|].
  rewrite !i32_small by lia. split.
  - constructor; cbn; try lia. done.
  - unfold sds_val at 1. cbn. rewrite Hv. f_equal.
    rewrite <- Hsv. unfold sds_val. by rewrite Hsl.
Qed.

Lemma sdscpylen_ok s t len :
  sds_ok s -> 0 <= len <= Z.of_nat (length t) -> len < 2 ^ 30 ->
  exists s', sdscpylen junk malloc_ok s t len = Ret s' /\ sds_ok s' /\
    sds_val s' = take (Z.to_nat len) t.
Proof.
  intros Hs Hlen Hb. pose proof Hs as [Hl Hf Hr Hbuf Hn]. unfold sdscpylen.
  rewrite (u64_small (sds_free s + sds_len s)) by lia.
  set (m := if _ <? _ then sdsMakeRoomFor _ _ _ _ else _).
  assert (exists s', m = Ret s' /\ sds_ok s' /\ len <= sds_len s' + sds_free s' /\
    (if sds_free s + sds_len s <? len then u64 (sds_free s' + sds_len s')
     else sds_free s + sds_len s) = sds_len s' + sds_free s')
    as (s' & -> & [Hl' Hf' Hr' Hbuf' Hn'] & Hle & Htot).
  { unfold m. destruct (Z.ltb_spec (sds_free s + sds_len s) len).
    - rewrite (u64_small (len - sds_len s)) by lia.
      destruct (sdsMakeRoomFor_ok s (len - sds_len s)) as (s' & -> & Hs' & Hsl & _ & Hav);
        [done|lia..|]. exists s'. split; [done|]. pose proof Hs' as [].
      split_and!; [done|lia|]. rewrite u64_small; lia.
    - exists s. split_and!; [done..|lia|lia]. }
  cbn [mbind res_bind]. cbv zeta. rewrite Htot, load_prefix by lia. cbn.
  assert (Ht : Z.of_nat (length (take (Z.to_nat len) t)) = len) by (rewrite length_take; lia).
  destruct (store_append_nul (sds_buf s') 0 (take (Z.to_nat len) t))
    as (b' & He & Hlb & Hv & Hnul); [lia..|].
  rewrite Z.add_0_l, Ht in He, Hv, Hnul. rewrite store_ok in He |- * by lia. cbn in He |- *.
  rewrite He. cbn. eexists. split; [done|]. rewrite !i32_small by lia. split.
  - constructor; cbn; try lia. done.
  - unfold sds_val. cbn. by rewrite Hv.
Qed.

Lemma sdsnewlen_ok p n :
  0 <= n <= Z.of_nat (length p) -> n < 2 ^ 30 ->
  exists s, sdsnewlen junk malloc_ok (Some p) n = Ret s /\ sds_ok s /\
    sds_val s = take (Z.to_nat n) p /\ sds_free s = 0.
Proof.
  intros Hn Hb. unfold sdsnewlen, zmalloc_block, sizeof_sdshdr.
  rewrite u64_small, malloc_grants by lia. cbn [negb].
  destruct (Z.ltb_spec (8 + n + 1) 8); [lia|]. cbn [mbind res_bind].
  set (b := fresh_bytes _ _ _).
  assert (Hlb : Z.of_nat (length b) = n + 1).
  { unfold b. rewrite length_fresh_bytes by lia. lia. }
  assert (Ht : Z.of_nat (length (take (Z.to_nat n) p)) = n) by (rewrite length_take; lia).
  destruct (store_append_nul b 0 (take (Z.to_nat n) p)) as (b' & He & Hl' & Hv & Hnul); [lia..|].
  rewrite Z.add_0_l, Ht in He, Hv, Hnul.
  assert (Hst : (b0 ← (if decide (n = 0) then Ret b
                 else xs ← load p 0 n; store b 0 xs); store b0 n [x00]) = Ret b').
  { rewrite load_prefix by lia. case_decide as Hz; [|exact He]. subst n.
    cbn. rewrite <- He. rewrite store_ok by (simpl; lia). done. }
  revert Hst. cbn [mbind res_bind]. intros Hst.
  exists (Sds n 0 b'). destruct (if decide (n = 0) then _ else _) as [b0| | |]; try discriminate.
  cbn [mbind res_bind] in Hst |- *. rewrite Hst. cbn. rewrite i32_small by lia.
  split_and!; try done. constructor; cbn; try lia. done.
Qed.

Lemma sdsempty_ok :
  exists s, sdsempty junk malloc_ok = Ret s /\ sds_ok s /\ sds_val s = [] /\ sds_len s = 0.
Proof.
  destruct (sdsnewlen_ok [x00] 0) as (s & He & Hok & Hv & Hf); [simpl; lia..|].
  exists s. split_and!; try done. pose proof (sds_val_length s Hok) as Hl.
  rewrite Hv in Hl. simpl in Hl. lia.
Qed.

Lemma sdsclear_ok s :
  sds_ok s -> exists s', sdsclear s = Ret s' /\ sds_ok s' /\ sds_val s' = [] /\
    sds_free s' = sds_free s + sds_len s.
Proof.
  intros [Hl Hf Hr Hb Hn]. unfold sdsclear.
  destruct (store_nul (sds_buf s) 0) as (b' & -> & Hlb & _ & Hnul); [lia|].
  cbn. rewrite i32_small by lia. eexists. split; [done|].
  split_and!; try done. constructor; cbn; try lia. done.
Qed.

Lemma sdsgrowzero_ok s len :
  sds_ok s -> 0 <= len < 2 ^ 30 ->
  exists s', sdsgrowzero junk malloc_ok s len = Ret s' /\ sds_ok s' /\
    sds_val s' = sds_val s ++ replicate (Z.to_nat (len - sds_len s)) x00.
Proof.
  intros Hs Hlen. pose proof Hs as [Hl Hf Hr Hb Hn]. unfold sdsgrowzero.
  rewrite (u64_small (sds_len s)) by lia. destruct (Z.leb_spec len (sds_len s)) as [|Hlt].
  { exists s. replace (Z.to_nat (len - sds_len s)) with 0%nat by lia. by rewrite app_nil_r. }
  destruct (sdsMakeRoomFor_ok s (len - sds_len s)) as (s' & -> & Hs' & Hsl & Hsv & Hav); [done|lia..|].
  pose proof Hs' as [Hl' Hf' Hr' Hb' Hn']. cbn [mbind res_bind].
  destruct (store_append_nul (sds_buf s') (sds_len s) (replicate (Z.to_nat (len - sds_len s)) x00))
    as (b' & He & Hlb & Hv & Hnul); [lia|rewrite length_replicate; lia|].
  rewrite length_replicate in He, Hv, Hnul.
  replace (sds_len s + Z.of_nat (Z.to_nat (len - sds_len s))) with len in He, Hv, Hnul by lia.
  assert (store (sds_buf s') (sds_len s) (replicate (Z.to_nat (len - sds_len s + 1)) x00) = Ret b')
    as ->.
  { rewrite store_ok by (rewrite ?length_replicate; lia).
    rewrite store_ok in He by (rewrite ?length_replicate; lia). cbn in He.
    rewrite store_ok in He by (rewrite ?length_splice, ?length_replicate; rewrite ?length_replicate; simpl; lia).
    simplify_eq. f_equal.
    replace (Z.to_nat (len - sds_len s + 1)) with (Z.to_nat (len - sds_len s) + 1)%nat by lia.
    rewrite replicate_add. apply splice_snoc; rewrite ?length_replicate; lia. }
  cbn. rewrite (u64_small (sds_len s' + sds_free s')), !i32_small by lia.
  eexists. split; [done|]. split.
  - constructor; cbn; try lia. done.
  - unfold sds_val at 1. cbn. rewrite Hv. f_equal. rewrite <- Hsv. unfold sds_val. by rewrite Hsl.
Qed.

End sds_lemmas.
