(* ===== verification/CLib.v ===== *)
(** * What the text functions use of the C library

    Characters are signed ([char] of arm64 macOS and of x86-64), the functions
    of [<ctype.h>] take the value of an [unsigned char] or [EOF] and behave as in
    the "C" locale, which the program never changes; other arguments are outside
    their domain. *)

From S2P Require Import Prelude Sds.
#[local] Open Scope Z_scope.
#[local] Open Scope xrtc_scope.

(** The value of a [char]. *)
Definition schar (c : byte) : Z := wrapS 8 (b2z c).

Definition EOF : Z := -1.

Definition ctype {A} (f : Z -> A) (z : Z) : res A :=
  if decide (EOF <= z <= 255) then Ret (f z) else Ub BadArgument.

Definition isspace : Z -> res bool := ctype (fun z => (z =? 32) || ((9 <=? z) && (z <=? 13))).
Definition isprint : Z -> res bool := ctype (fun z => (32 <=? z) && (z <=? 126)).
Definition tolower : Z -> res Z := ctype (fun z => if (65 <=? z) && (z <=? 90) then z + 32 else z).
Definition toupper : Z -> res Z := ctype (fun z => if (97 <=? z) && (z <=? 122) then z - 32 else z).

(** A result of [int] arithmetic. *)
Definition int (z : Z) : res Z :=
  if decide (- 2 ^ 31 <= z < 2 ^ 31) then Ret z else Ub SignedOverflow.

(** A result of arithmetic on [int64_t]. *)
Definition long (z : Z) : res Z :=
  if decide (- 2 ^ 63 <= z < 2 ^ 63) then Ret z else Ub SignedOverflow.

(** [b[i]] and [b[i] = c]. *)
Definition char_at (b : list byte) (i : Z) : res byte :=
  if decide (0 <= i) then match b !! Z.to_nat i with Some c => Ret c | None => Ub OutOfBounds end
  else Ub OutOfBounds.
Definition set_char (b : list byte) (i : Z) (c : byte) : res (list byte) := store b i [c].

(** [strchr(cset, c) != NULL]: the terminator counts. *)
Fixpoint strchr (cset : list byte) (c : byte) : res bool :=
  match cset with
  | [] => Ub OutOfBounds
  | x :: cset => if decide (x = c) then Ret true else if decide (x = x00) then Ret false else strchr cset c
  end.

(** [memcmp]: only the sign of the result is specified. *)
Fixpoint memcmp_list (xs ys : list byte) : Z :=
  match xs, ys with
  | x :: xs, y :: ys => if b2z x =? b2z y then memcmp_list xs ys else Z.sgn (b2z x - b2z y)
  | _, _ => 0
  end.

(** [a && b], evaluating [b] only when [a] holds. *)
Definition and_then (a b : res bool) : res bool := a ≫= fun x : bool => if x then b else Ret false.

(** ** Facts *)

(** Characters inside the domain of [<ctype.h>]: ASCII and [EOF]. *)
Definition in_ctype (c : byte) : Prop := EOF <= schar c.
#[export] Instance in_ctype_dec c : Decision (in_ctype c).
Proof. unfold in_ctype. apply _. Defined.

Lemma schar_range c : -128 <= schar c < 128.
Proof. apply (wrapS_range 8 (b2z c)). lia. Qed.

Lemma ctype_ok {A} (f : Z -> A) c : in_ctype c -> ctype f (schar c) = Ret (f (schar c)).
Proof. intros Hc. unfold ctype, in_ctype in *. rewrite decide_True; [done|]. pose proof (schar_range c). lia. Qed.

Lemma int_ok z : - 2 ^ 31 <= z < 2 ^ 31 -> int z = Ret z.
Proof. intros. unfold int. by rewrite decide_True. Qed.

Lemma long_ok z : - 2 ^ 63 <= z < 2 ^ 63 -> long z = Ret z.
Proof. intros. unfold long. by rewrite decide_True. Qed.

Lemma char_at_ok b (i : Z) c : 0 <= i -> b !! Z.to_nat i = Some c -> char_at b i = Ret c.
Proof. intros Hi Hb. unfold char_at. by rewrite decide_True, Hb. Qed.

Lemma set_char_ok b i c :
  0 <= i < Z.of_nat (length b) -> set_char b i c = Ret (<[Z.to_nat i := c]> b).
Proof.
  intros Hi. unfold set_char. rewrite store_ok by (simpl; lia). f_equal. unfold splice.
  rewrite insert_take_drop by lia. simpl. do 3 f_equal. lia.
Qed.

(** A C string: no zero byte but the terminator. *)
Lemma strlen_app s rest : Forall (fun c => c <> x00) s -> strlen (s ++ x00 :: rest) = Ret (Z.of_nat (length s)).
Proof.
  induction 1 as [|c s Hc _ IH]; [done|]. cbn [app strlen length]. rewrite decide_False by done.
  rewrite IH. cbn. f_equal. lia.
Qed.

Lemma strchr_app cset rest c :
  Forall (fun c => c <> x00) cset -> strchr (cset ++ x00 :: rest) c = Ret (bool_decide (c ∈ cset \/ c = x00)).
Proof.
  induction 1 as [|x cset Hx _ IH]; cbn [app strchr].
  - destruct (decide (x00 = c)) as [<-|Hne].
    + by rewrite bool_decide_true by (by right).
    + rewrite decide_True by done. rewrite bool_decide_false; [done|]. rewrite elem_of_nil. naive_solver.
  - destruct (decide (x = c)) as [<-|Hne].
    + rewrite bool_decide_true; [done|]. left. by left.
    + rewrite decide_False by done. rewrite IH. f_equal. apply bool_decide_ext. rewrite elem_of_cons. naive_solver.
Qed.

Lemma memcmp_zero xs ys : length xs = length ys -> memcmp_list xs ys = 0 <-> xs = ys.
Proof.
  revert ys. induction xs as [|x xs IH]; intros [|y ys]; simpl; try done. intros [= Hl].
  destruct (Z.eqb_spec (b2z x) (b2z y)) as [Hxy|Hxy].
  - apply (inj b2z) in Hxy as ->. rewrite IH by done. split; [by intros ->|by intros [=]].
  - split; [|by intros [= -> _]]. pose proof (Z.sgn_null_iff (b2z x - b2z y)). intros. exfalso. apply Hxy. lia.
Qed.
