(* ===== verification/Zmalloc.v ===== *)
(** * [rtc_base/zmalloc.cc]: allocation that counts the memory in use

    Each call is its effect on the heap followed by what it does to the counter
    [used_memory]; between two of these steps other threads may run.  Both ways
    of knowing the size of a block are modelled: the allocator's own
    ([HAVE_MALLOC_SIZE], macOS) and a header in front of the block.  What the
    blocks hold is modelled where it matters (Sds.v and others). *)

From S2P Require Import Prelude.
#[local] Open Scope Z_scope.
#[local] Open Scope xrtc_scope.

(** A block: the size asked for (in the header) and the one the allocator
    reports. *)
Record block := MkBlock { b_size : Z; b_usable : Z }.

(** What a call still has to do: change the counter by a number, store a value
    computed before, or give a block back. *)
Inductive act :=
  | AddTo (d : Z)
  | StoreTo (v : Z)
  | Release (p : positive).

Record zstate := MkZ {
  used_memory : Z;
  zmalloc_thread_safe : bool;
  oom_returns : bool;                (* [zmalloc_oom_handler]: it ends the process, or not *)
  blocks : gmap positive block;
}.

Definition set_used u s := MkZ u (zmalloc_thread_safe s) (oom_returns s) (blocks s).
Definition set_blocks b s := MkZ (used_memory s) (zmalloc_thread_safe s) (oom_returns s) b.

Definition zstate0 : zstate := MkZ 0 false false ∅.
Definition zmalloc_enable_thread_safeness (s : zstate) : zstate := MkZ (used_memory s) true (oom_returns s) (blocks s).
Definition zmalloc_set_oom_handler (returns : bool) (s : zstate) : zstate :=
  MkZ (used_memory s) (zmalloc_thread_safe s) returns (blocks s).
Definition zmalloc_used_memory (s : zstate) : Z := used_memory s.

(** Sizes are rounded up to a multiple of [sizeof(long)]. *)
Definition round_long (n : Z) : Z :=
  let n := u64 n in
  if Z.land n 7 =? 0 then n else u64 (n + (8 - Z.land n 7)).
Definition update_zmalloc_stat_alloc (n : Z) : act := AddTo (round_long n).
Definition update_zmalloc_stat_free (n : Z) : act := AddTo (- round_long n).

Section zmalloc.
Context (have_malloc_size : bool).

Definition PREFIX_SIZE : Z := if have_malloc_size then 0 else 8.

Definition zmalloc_size (b : block) : Z :=
  if have_malloc_size then b_usable b
  else u64 (round_long (b_size b) + PREFIX_SIZE).

(** [malloc] failed: the handler, and what happens when it returns. *)
Definition out_of_memory {A} (s : zstate) : res A :=
  if oom_returns s then Ub NullDeref else Abort.

(** [r]: what [malloc] returns, an address and the usable size. *)
Definition zmalloc (r : option (positive * Z)) (size : Z) (s : zstate) : res (positive * zstate * list act) :=
  match r with
  | None => out_of_memory s
  | Some (p, usable) =>
      let b := MkBlock size usable in
      Ret (p, set_blocks (<[p := b]> (blocks s)) s,
           [update_zmalloc_stat_alloc (if have_malloc_size then zmalloc_size b else size + PREFIX_SIZE)])
  end.

(** The same with the bytes cleared. *)
Definition zcalloc (r : option (positive * Z)) (size : Z) (s : zstate) : res (positive * zstate * list act) :=
  zmalloc r size s.

Definition zrealloc (r : option (positive * Z)) (ptr : option positive) (size : Z) (s : zstate)
    : res (positive * zstate * list act) :=
  match ptr with
  | None => zmalloc r size s
  | Some p =>
      match blocks s !! p with
      | None => Ub UseAfterFree
      | Some b =>
          let oldsize := if have_malloc_size then zmalloc_size b else b_size b in
          match r with
          | None => out_of_memory s
          | Some (p', usable) =>
              let b' := MkBlock size usable in
              Ret (p', set_blocks (<[p' := b']> (delete p (blocks s))) s,
                   [update_zmalloc_stat_free oldsize;
                    update_zmalloc_stat_alloc (if have_malloc_size then zmalloc_size b' else size)])
          end
      end
  end.

Definition zfree (ptr : option positive) (s : zstate) : res (list act) :=
  match ptr with
  | None => Ret []
  | Some p =>
      match blocks s !! p with
      | None => Ub UseAfterFree
      | Some b =>
          Ret [update_zmalloc_stat_free (if have_malloc_size then zmalloc_size b else b_size b + PREFIX_SIZE); Release p]
      end
  end.

(** [zstrdup] of a string of the given length. *)
Definition zstrdup (r : option (positive * Z)) (len : Z) (s : zstate) : res (positive * zstate * list act) :=
  zmalloc r (len + 1) s.

(** One step of what is left to do. With thread safety the counter changes
    atomically, without it is read and written separately. *)
Definition do_act (s : zstate) (a : act) (rest : list act) : zstate * list act :=
  match a with
  | AddTo d =>
      if zmalloc_thread_safe s then (set_used (u64 (used_memory s + d)) s, rest)
      else (s, StoreTo (u64 (used_memory s + d)) :: rest)
  | StoreTo v => (set_used v s, rest)
  | Release p => (set_blocks (delete p (blocks s)) s, rest)
  end.

(** A call from beginning to end, no other thread running. *)
Fixpoint finish (fuel : nat) (s : zstate) (acts : list act) : res zstate :=
  match acts with
  | [] => Ret s
  | a :: rest =>
      match fuel with
      | O => OutOfFuel
      | S fuel => let '(s, rest) := do_act s a rest in finish fuel s rest
      end
  end.

(** ** Several threads *)

(** What each thread still has to do. *)
Definition releasing (ts : list (list act)) : list positive :=
  omap (fun a => match a with Release p => Some p | _ => None end) (concat ts).

Inductive zstep : zstate * list (list act) -> zstate * list (list act) -> Prop :=
  | zs_malloc i size r s ts p s' acts :
      ts !! i = Some [] -> zmalloc r size s = Ret (p, s', acts) ->
      blocks s !! p = None ->
      zstep (s, ts) (s', <[i := acts]> ts)
  | zs_realloc i ptr size r s ts p s' acts :
      ts !! i = Some [] -> zrealloc r (Some ptr) size s = Ret (p, s', acts) ->
      ptr ∉ releasing ts -> (p = ptr \/ blocks s !! p = None) ->
      zstep (s, ts) (s', <[i := acts]> ts)
  | zs_free i ptr s ts acts :
      ts !! i = Some [] -> zfree (Some ptr) s = Ret acts -> ptr ∉ releasing ts ->
      zstep (s, ts) (s, <[i := acts]> ts)
  | zs_act i a rest s ts s' rest' :
      ts !! i = Some (a :: rest) -> do_act s a rest = (s', rest') ->
      zstep (s, ts) (s', <[i := rest']> ts).

(** What a block counts for, and all of them. *)
Definition counted (b : block) : Z := round_long (if have_malloc_size then b_usable b else b_size b + 8).
Definition total (h : gmap positive block) : Z := map_fold (fun _ b n => counted b + n) 0 h.

End zmalloc.

(** ** Facts *)

(** Equality of machine words. *)
Definition cong (x y : Z) : Prop := exists k, x = y + k * 2 ^ 64.
Lemma u64_cong z : cong (u64 z) z.
Proof. exists (- (z / 2 ^ 64)). unfold wrapU. rewrite Z.mod_eq by lia. lia. Qed.
Lemma cong_u64 x y : cong x y -> u64 x = u64 y.
Proof. intros [k ->]. unfold wrapU. by rewrite Z.mod_add by lia. Qed.

Lemma round_long_spec n : cong (round_long n) (n + (- n) mod 8).
Proof.
  unfold round_long. destruct (u64_cong n) as [k Hk]. change 7 with (Z.ones 3). rewrite Z.land_ones by lia.
  change (2 ^ 3) with 8. assert (Hm : u64 n mod 8 = n mod 8).
  { rewrite Hk. replace (n + k * 2 ^ 64) with (n + (k * 2 ^ 61) * 8) by lia. apply Z.mod_add. lia. }
  destruct (Z.eqb_spec (u64 n mod 8) 0) as [H0|H0].
  - exists k. rewrite Hk. rewrite Hm in H0. Z.div_mod_to_equations; lia.
  - destruct (u64_cong (u64 n + (8 - u64 n mod 8))) as [j Hj]. exists (k + j). rewrite Hj, Hk in *. rewrite Hm in *.
    Z.div_mod_to_equations; lia.
Qed.

(** The header adds a word to every block. *)
Lemma round_long_header n : cong (round_long (n + 8)) (round_long n + 8).
Proof.
  destruct (round_long_spec n) as [k ->], (round_long_spec (n + 8)) as [j ->]. exists (j - k).
  replace (- (n + 8)) with (- n + (-1) * 8) by lia. rewrite Z.mod_add by lia. lia.
Qed.

Section accounts.
Context (hm : bool).
Notation counted := (counted hm).
Notation total := (total hm).

Lemma total_insert h p b : h !! p = None -> total (<[p := b]> h) = counted b + total h.
Proof. intros Hp. unfold total. apply (map_fold_insert_L (fun _ b n => counted b + n)); [intros; lia|done]. Qed.
Lemma total_delete h p b : h !! p = Some b -> total h = counted b + total (delete p h).
Proof. intros Hp. unfold total. apply (map_fold_delete_L (fun _ b n => counted b + n)); [intros; lia|done]. Qed.

(** What a step still to be done stands for, between the counter and the heap. *)
Definition weight (h : gmap positive block) (a : act) : Z :=
  match a with
  | AddTo d => d
  | StoreTo _ => 0
  | Release p => match h !! p with Some b => counted b | None => 0 end
  end.
Definition sum (l : list Z) : Z := foldr Z.add 0 l.
Definition weights (h : gmap positive block) (l : list act) : Z := sum (map (weight h) l).
Definition released (l : list act) : list positive := omap (fun a => match a with Release p => Some p | _ => None end) l.

Lemma weights_app h l1 l2 : weights h (l1 ++ l2) = weights h l1 + weights h l2.
Proof. unfold weights, sum. rewrite map_app, foldr_app. induction l1 as [|a l1 IH]; cbn in *; lia. Qed.
Lemma weights_nil h : weights h [] = 0.
Proof. done. Qed.
Lemma weights_cons h a l : weights h (a :: l) = weight h a + weights h l.
Proof. done. Qed.

(** Only the blocks being released matter. *)
Lemma weights_other h h' l : (forall p, p ∈ released l -> h' !! p = h !! p) -> weights h' l = weights h l.
Proof.
  induction l as [|a l IH]; intros Heq; [done|]. rewrite !weights_cons, IH.
  - f_equal. destruct a as [d|v|p]; [done|done|]. cbn [weight]. rewrite Heq; [done|]. by left.
  - intros p Hp. apply Heq. cbn. destruct a; [done|done|by right].
Qed.

(** A thread among the others. *)
Lemma thread_split (ts : list (list act)) i acts :
  ts !! i = Some acts -> exists l1 l2, concat ts = l1 ++ acts ++ l2 /\ forall acts', concat (<[i := acts']> ts) = l1 ++ acts' ++ l2.
Proof.
  intros Hi. exists (concat (take i ts)), (concat (drop (S i) ts)). split.
  - rewrite <- (take_drop_middle ts i acts Hi) at 1. by rewrite concat_app.
  - intros acts'. pose proof (lookup_lt_Some _ _ _ Hi). rewrite insert_take_drop by done. by rewrite concat_app.
Qed.

Record accounts (s : zstate) (ts : list (list act)) : Prop := {
  ac_safe : zmalloc_thread_safe s = true;
  ac_used : 0 <= used_memory s < 2 ^ 64;
  ac_stores : Forall (fun a => forall v, a <> StoreTo v) (concat ts);
  ac_nodup : NoDup (released (concat ts));
  ac_live : forall p, p ∈ released (concat ts) -> is_Some (blocks s !! p);
  ac_sum : cong (used_memory s + weights (blocks s) (concat ts)) (total (blocks s));
}.

(** A thread that was idle has begun a call that changed the heap outside the
    blocks being released. *)
Lemma begin_call s ts i acts h :
  accounts s ts -> ts !! i = Some [] -> released acts = [] -> Forall (fun a => forall v, a <> StoreTo v) acts ->
  (forall p, p ∈ released (concat ts) -> h !! p = blocks s !! p) ->
  cong (total h) (total (blocks s) + weights h acts) ->
  accounts (set_blocks h s) (<[i := acts]> ts).
Proof.
  intros [Hsafe Hused Hst Hnd Hlive [k Hsum]] Hi Hrel Hacts Hh [j Hj].
  destruct (thread_split ts i [] Hi) as (l1 & l2 & Hc & Hc'). cbn [app] in Hc.
  assert (Hr : released (concat (<[i := acts]> ts)) = released (concat ts)).
  { rewrite Hc', Hc. unfold released in *. by rewrite !omap_app, Hrel. }
  constructor; cbn [zmalloc_thread_safe used_memory blocks set_blocks]; rewrite ?Hr; try done.
  - rewrite Hc', Hc in *. apply Forall_app in Hst as [H1 H2]. by repeat (apply Forall_app; split).
  - intros p Hp. rewrite Hh by done. by apply Hlive.
  - rewrite <- (weights_other (blocks s) h) in Hsum by done. rewrite Hc in Hsum. rewrite Hc', !weights_app in *.
    exists (k - j). lia.
Qed.

Lemma malloc_accounts s ts i r size p s' acts :
  accounts s ts -> ts !! i = Some [] -> zmalloc hm r size s = Ret (p, s', acts) -> blocks s !! p = None ->
  accounts s' (<[i := acts]> ts).
Proof.
  intros Ha Hi Hm Hp. unfold zmalloc in Hm. destruct r as [[q usable]|]; [|unfold out_of_memory in Hm; by destruct (oom_returns s)].
  injection Hm as -> <- <-. apply begin_call; try done.
  - by repeat constructor.
  - intros q Hq. rewrite lookup_insert_ne; [done|]. intros <-. destruct (ac_live _ _ Ha p Hq). congruence.
  - rewrite total_insert by done. exists 0. unfold weights, sum, Zmalloc.counted, zmalloc_size, PREFIX_SIZE.
    cbn. destruct hm; lia.
Qed.

Lemma realloc_accounts s ts i ptr r size p s' acts :
  accounts s ts -> ts !! i = Some [] -> zrealloc hm r (Some ptr) size s = Ret (p, s', acts) ->
  ptr ∉ Zmalloc.releasing ts -> (p = ptr \/ blocks s !! p = None) -> accounts s' (<[i := acts]> ts).
Proof.
  intros Ha Hi Hm Hn Hp. unfold zrealloc in Hm. destruct (blocks s !! ptr) as [b|] eqn:Hb; [|done].
  destruct r as [[q usable]|]; [|unfold out_of_memory in Hm; by destruct (oom_returns s)].
  injection Hm as -> <- <-. assert (Hfresh : delete ptr (blocks s) !! p = None).
  { destruct Hp as [->|Hp]; [apply lookup_delete_eq|]. destruct (decide (p = ptr)) as [->|]; [apply lookup_delete_eq|].
    by rewrite lookup_delete_ne. }
  apply begin_call; try done.
  - by repeat constructor.
  - intros q Hq. assert (q <> ptr) by (by intros ->). assert (q <> p).
    { intros ->. destruct Hp as [->|Hp]; [done|]. destruct (ac_live _ _ Ha p Hq). congruence. }
    by rewrite lookup_insert_ne, lookup_delete_ne.
  - rewrite total_insert by done. rewrite (total_delete (blocks s) ptr b Hb).
    unfold weights, sum, Zmalloc.counted, zmalloc_size, update_zmalloc_stat_free, update_zmalloc_stat_alloc.
    cbn. destruct hm; cbn [b_usable b_size]; [exists 0; lia|].
    destruct (round_long_header size) as [k ->], (round_long_header (b_size b)) as [j ->]. exists (k - j). lia.
Qed.

Lemma free_accounts s ts i ptr acts :
  accounts s ts -> ts !! i = Some [] -> zfree hm (Some ptr) s = Ret acts -> ptr ∉ Zmalloc.releasing ts ->
  accounts s (<[i := acts]> ts).
Proof.
  intros [Hsafe Hused Hst Hnd Hlive [k Hsum]] Hi Hf Hn. unfold zfree in Hf. destruct (blocks s !! ptr) as [b|] eqn:Hb; [|done].
  injection Hf as <-. destruct (thread_split ts i [] Hi) as (l1 & l2 & Hc & Hc'). cbn [app] in Hc.
  unfold Zmalloc.releasing in Hn. fold (released (concat ts)) in Hn.
  assert (Hperm : released (concat (<[i := [update_zmalloc_stat_free (if hm then zmalloc_size hm b else b_size b + PREFIX_SIZE hm); Release ptr]]> ts))
    ≡ₚ ptr :: released (concat ts)).
  { rewrite Hc', Hc. unfold released. rewrite !omap_app. cbn [omap list_omap app]. symmetry. apply Permutation_middle. }
  constructor; try done.
  - rewrite Hc', Hc in *. apply Forall_app in Hst as [H1 H2]. repeat (apply Forall_app; split); [done|by repeat constructor|done].
  - rewrite Hperm. by constructor.
  - intros p. rewrite Hperm, elem_of_cons. intros [->|Hp]; [by exists b|by apply Hlive].
  - rewrite Hc in Hsum. rewrite Hc', !weights_app, !weights_cons in *. exists k. cbn [weight update_zmalloc_stat_free].
    rewrite Hb, weights_nil. unfold Zmalloc.counted, zmalloc_size, PREFIX_SIZE. destruct hm; lia.
Qed.

Lemma act_accounts s ts i a rest s' rest' :
  accounts s ts -> ts !! i = Some (a :: rest) -> do_act s a rest = (s', rest') -> accounts s' (<[i := rest']> ts).
Proof.
  intros [Hsafe Hused Hst Hnd Hlive [k Hsum]] Hi Hd.
  destruct (thread_split ts i _ Hi) as (l1 & l2 & Hc & Hc'). rewrite Hc in Hst, Hnd, Hlive, Hsum.
  apply Forall_app in Hst as [Hst1 Hst2]. cbn [app] in *. apply Forall_cons in Hst2 as [Hsta Hst2].
  assert (Hst' : Forall (fun a => forall v, a <> StoreTo v) (l1 ++ rest ++ l2)) by (by apply Forall_app).
  unfold do_act in Hd. destruct a as [d|v|p]; [|by destruct (Hsta v)|].
  - rewrite Hsafe in Hd. injection Hd as <- <-. destruct (u64_cong (used_memory s + d)) as [j Hj].
    unfold released in *. rewrite omap_app in Hnd, Hlive. cbn [omap list_omap] in Hnd, Hlive.
    constructor; cbn [zmalloc_thread_safe used_memory blocks set_used]; rewrite ?Hc'; try done.
    + apply (wrapU_range 64). lia.
    + unfold released. by rewrite omap_app.
    + intros p. unfold released. rewrite omap_app. apply Hlive.
    + rewrite weights_app, weights_cons in Hsum. rewrite weights_app, Hj. cbn [weight] in Hsum. exists (k + j). lia.
  - injection Hd as <- <-. unfold released in *. rewrite omap_app in Hnd, Hlive. cbn [omap list_omap] in Hnd, Hlive.
    destruct (Hlive p) as [b Hb]; [apply elem_of_app; right; by left|].
    rewrite <- Permutation_middle in Hnd. apply NoDup_cons in Hnd as [Hp Hnd]. rewrite <- omap_app in Hp, Hnd.
    constructor; cbn [zmalloc_thread_safe used_memory blocks set_blocks]; rewrite ?Hc'; try done.
    + intros q Hq. unfold released in Hq. rewrite lookup_delete_ne by (intros <-; by apply Hp). apply Hlive.
      rewrite omap_app in Hq. rewrite elem_of_app, elem_of_cons in *. tauto.
    + rewrite (total_delete (blocks s) p b Hb) in Hsum. rewrite weights_app, weights_cons in Hsum. cbn [weight] in Hsum.
      rewrite Hb in Hsum. rewrite (weights_other (blocks s)); [rewrite weights_app; exists k; lia|].
      intros q Hq. apply lookup_delete_ne. intros <-. by apply Hp.
Qed.

Lemma step_accounts s ts s' ts' : zstep hm (s, ts) (s', ts') -> accounts s ts -> accounts s' ts'.
Proof.
  intros Hstep Ha. inversion Hstep; subst.
  - by eapply malloc_accounts.
  - by eapply realloc_accounts.
  - by eapply free_accounts.
  - by eapply act_accounts.
Qed.

Lemma run_accounts s ts s' ts' : rtc (zstep hm) (s, ts) (s', ts') -> accounts s ts -> accounts s' ts'.
Proof.
  intros Hr. remember (s, ts) as a eqn:Ea. remember (s', ts') as b eqn:Eb. revert s ts Ea.
  induction Hr as [|x [s1 ts1] y Hstep Hr IH]; intros s ts ->; [by injection Eb as -> ->|].
  intros Ha. eapply IH; [done|done|by eapply step_accounts].
Qed.
End accounts.

(** ** The counter *)

Definition idle (ts : list (list act)) : Prop := Forall (fun acts => acts = []) ts.

Lemma idle_concat ts : idle ts -> concat ts = [].
Proof. by induction 1 as [|acts ts -> _ IH]. Qed.

(** Two threads allocate a block each, one step of one and then of the other. *)
Definition two_blocks : gmap positive block := <[2%positive := MkBlock 100 112]> (<[1%positive := MkBlock 100 112]> ∅).

Lemma lost_update hm :
  rtc (zstep hm) (zstate0, [[]; []]) (MkZ 112 false false two_blocks, [[]; []]).
Proof.
  eapply rtc_l; [eapply (zs_malloc hm 0 100 (Some (1%positive, 112))); [done|reflexivity|done]|].
  eapply rtc_l; [eapply (zs_malloc hm 1 100 (Some (2%positive, 112))); [done|reflexivity|done]|].
  eapply rtc_l; [eapply (zs_act hm 0); [reflexivity|reflexivity]|].
  eapply rtc_l; [eapply (zs_act hm 1); [reflexivity|reflexivity]|].
  eapply rtc_l; [eapply (zs_act hm 0); [reflexivity|reflexivity]|].
  eapply rtc_l; [eapply (zs_act hm 1); [reflexivity|reflexivity]|].
  destruct hm; apply rtc_refl.
Qed.

Lemma safe_pair hm :
  rtc (zstep hm) (zmalloc_enable_thread_safeness zstate0, [[]; []]) (MkZ 224 true false two_blocks, [[]; []]).
Proof.
  eapply rtc_l; [eapply (zs_malloc hm 0 100 (Some (1%positive, 112))); [done|reflexivity|done]|].
  eapply rtc_l; [eapply (zs_malloc hm 1 100 (Some (2%positive, 112))); [done|reflexivity|done]|].
  eapply rtc_l; [eapply (zs_act hm 1); [reflexivity|reflexivity]|].
  eapply rtc_l; [eapply (zs_act hm 0); [reflexivity|reflexivity]|].
  destruct hm; apply rtc_refl.
Qed.

(** Once thread safety is enabled, and however the threads' allocations,
    reallocations and releases interleave, the counter is the number of bytes
    of the blocks that exist whenever no call is under way, on both kinds of
    platform; in the mode the program starts in, two allocations at the same
    time are enough for it to be wrong. *)
Theorem zmalloc_counts hm :
  (forall n s ts, rtc (zstep hm) (zmalloc_enable_thread_safeness zstate0, replicate n []) (s, ts) -> idle ts ->
     zmalloc_used_memory s = u64 (total hm (blocks s))) /\
  (exists s ts, rtc (zstep hm) (zstate0, [[]; []]) (s, ts) /\ idle ts /\
     zmalloc_used_memory s <> u64 (total hm (blocks s))).
Proof.
  split.
  - intros n s ts Hr Hi. apply run_accounts in Hr.
    + destruct Hr as [_ Hused _ _ _ Hsum]. rewrite (idle_concat ts Hi), weights_nil, Z.add_0_r in Hsum.
      apply cong_u64 in Hsum. rewrite <- Hsum. symmetry. by apply wrapU_small.
    + assert (Hc : concat (replicate n (@nil act)) = []) by (clear Hr; induction n as [|n IH]; [done|exact IH]).
      constructor; rewrite ?Hc; try done; [apply NoDup_nil_2|intros p Hp; by apply elem_of_nil in Hp|by exists 0].
  - exists (MkZ 112 false false two_blocks), [[]; []]. split; [apply lost_update|]. split; [by repeat constructor|].
    by destruct hm; vm_compute.
Qed.

Lemma zmalloc_counts_witness : zmalloc_used_memory (MkZ 224 true false two_blocks) = u64 (total true two_blocks).
Proof. apply (proj1 (zmalloc_counts true) 2%nat _ [[]; []] (safe_pair true)). by repeat constructor. Defined.
