(* ===== verification/CertTime.v ===== *)
(** * [rtc_base/time_utils.cc], [rtc_base/ssl_identity.cc]: when a certificate ends

    [TmToSeconds] and the reader of ASN.1 times in front of it, which give the
    expiry of a certificate, and the parameters of its key.  The theorem about
    [TmToSeconds] compares it with a calendar that is counted forward second by
    second. *)

From S2P Require Import Prelude Sds CLib.
#[local] Open Scope Z_scope.
#[local] Open Scope xrtc_scope.

(** ** [time_utils.cc] *)

(** [struct tm]: years since 1900, months from 0, days from 1. *)
Record tm := MkTm {
  tm_year : Z;
  tm_mon : Z;
  tm_mday : Z;
  tm_hour : Z;
  tm_min : Z;
  tm_sec : Z;
}.
#[export] Instance tm_eq_dec : EqDecision tm.
Proof. solve_decision. Defined.

Definition mdays : list Z := [31; 28; 31; 30; 31; 30; 31; 31; 30; 31; 30; 31].
Definition cumul_mdays : list Z := [0; 31; 59; 90; 120; 151; 181; 212; 243; 273; 304; 334].

(** An element of one of the static arrays. *)
Definition elem (l : list Z) (i : Z) : res Z :=
  if i <? 0 then Ub OutOfBounds
  else match l !! Z.to_nat i with Some x => Ret x | None => Ub OutOfBounds end.

Definition TmToSeconds (t : tm) : res Z :=
  year ← int (tm_year t + 1900);
  let month := tm_mon t in
  day ← int (tm_mday t - 1);
  let hour := tm_hour t in
  let min := tm_min t in
  let sec := tm_sec t in
  let expiry_in_leap_year :=
    (Z.rem year 4 =? 0) && (negb (Z.rem year 100 =? 0) || (Z.rem year 400 =? 0)) in
  if year <? 1970 then Ret (-1)
  else if (month <? 0) || (11 <? month) then Ret (-1)
  else
    md ← elem mdays month;
    if (day <? 0) || (md + Z.b2z (expiry_in_leap_year && (month =? 2 - 1)) <=? day) then Ret (-1)
    else if (hour <? 0) || (23 <? hour) then Ret (-1)
    else if (min <? 0) || (59 <? min) then Ret (-1)
    else if (sec <? 0) || (59 <? sec) then Ret (-1)
    else
      cumul ← elem cumul_mdays month;
      day ← int (day + cumul);
      day ← int (day + ((Z.quot year 4 - Z.quot 1970 4) - (Z.quot year 100 - Z.quot 1970 100) +
                        (Z.quot year 400 - Z.quot 1970 400)));
      day ← (if expiry_in_leap_year && (month <=? 2 - 1) then int (day - 1) else Ret day);
      long (((((year - 1970) * 365 + day) * 24 + hour) * 60 + min) * 60 + sec).

(** ** [ssl_identity.cc] *)

(** The digits of a number read from [pp] on, [n] of them; [bytes_left] is a
    [size_t]. *)
Fixpoint read_int (p : list byte) (n : nat) (x : Z) {struct n} : res Z :=
  match n with
  | O => Ret x
  | S n =>
      match p with
      | [] => Ub OutOfBounds
      | c :: p => x ← int (10 * x + b2z c - 48); read_int p n x
      end
  end.

Definition ASN1ReadInt (p : list byte) (bytes_left : Z) (n : nat) : res (Z * list byte * Z) :=
  x ← read_int p n 0; Ret (x, drop n p, u64 (bytes_left - Z.of_nat n)).

(** [strspn(s, "0123456789")]. *)
Definition is_digit (c : byte) : bool := (48 <=? b2z c) && (b2z c <=? 57).
Fixpoint strspn_digits (s : list byte) : res Z :=
  match s with
  | [] => Ub OutOfBounds
  | c :: s => if is_digit c then n ← strspn_digits s; Ret (n + 1) else Ret 0
  end.

(** The year, and what follows it. *)
Definition read_year (s : list byte) (bytes_left : Z) (long_format : bool) : res (option (Z * list byte * Z)) :=
  if long_format then
    if bytes_left <? 11 then Ret None
    else '(year, s, bytes_left) ← ASN1ReadInt s bytes_left 4; Ret (Some (year - 1900, s, bytes_left))
  else
    if bytes_left <? 9 then Ret None
    else '(year, s, bytes_left) ← ASN1ReadInt s bytes_left 2;
         Ret (Some (if year <? 50 then year + 100 else year, s, bytes_left)).

Definition ASN1TimeToSec (s : list byte) (length : Z) (long_format : bool) : res Z :=
  let bytes_left := length in
  if length =? 0 then Ret (-1)
  else
    z ← char_at s (length - 1);
    if decide (z <> x5a) then Ret (-1)
    else
      n ← strspn_digits s;
      if negb (u64 (n + 1) =? length) then Ret (-1)
      else
        y ← read_year s bytes_left long_format;
        match y with
        | None => Ret (-1)
        | Some (year, s, bytes_left) =>
            '(mon, s, bytes_left) ← ASN1ReadInt s bytes_left 2;
            '(mday, s, bytes_left) ← ASN1ReadInt s bytes_left 2;
            '(hour, s, bytes_left) ← ASN1ReadInt s bytes_left 2;
            '(min, s, bytes_left) ← ASN1ReadInt s bytes_left 2;
            '(sec, s, bytes_left) ← ASN1ReadInt s bytes_left 2;
            if negb (bytes_left =? 1) then Ret (-1)
            else TmToSeconds (MkTm year (mon - 1) mday hour min sec)
        end.

(** ** [openssl_certificate.cc]: the time of a certificate *)

(** The ASN.1 time OpenSSL holds: its type, its bytes, its length. *)
Inductive asn1_type := V_ASN1_UTCTIME | V_ASN1_GENERALIZEDTIME | V_ASN1_OTHER.
Record ASN1_TIME := MkAsn1Time { asn1_kind : asn1_type; asn1_data : list byte; asn1_length : Z }.

Definition cert_expiration (expire_time : ASN1_TIME) : res Z :=
  match asn1_kind expire_time with
  | V_ASN1_UTCTIME => ASN1TimeToSec (asn1_data expire_time) (asn1_length expire_time) false
  | V_ASN1_GENERALIZEDTIME => ASN1TimeToSec (asn1_data expire_time) (asn1_length expire_time) true
  | V_ASN1_OTHER => Ret (-1)
  end.

(** ** [ssl_identity.cc]: the parameters of a key *)

Inductive ECCurve := EC_NIST_P256 | EC_LAST.
Inductive KeyType := KT_RSA | KT_ECDSA | KT_LAST.

(** The type and the member of the union that goes with it. *)
Inductive KeyParams :=
  | RsaParams (mod_size pub_exp : Z)     (* both [unsigned] *)
  | EcdsaParams (curve : ECCurve).

Definition kRsaDefaultModSize : Z := 1024.
Definition kRsaDefaultExponent : Z := 65537.
Definition kRsaMinModSize : Z := 1024.
Definition kRsaMaxModSize : Z := 8192.

(** [KeyParams(key_type)], [None] for a type without parameters, which the
    constructor leaves uninitialised. *)
Definition new_KeyParams (key_type : KeyType) : option KeyParams :=
  match key_type with
  | KT_ECDSA => Some (EcdsaParams EC_NIST_P256)
  | KT_RSA => Some (RsaParams kRsaDefaultModSize kRsaDefaultExponent)
  | KT_LAST => None
  end.

Definition KeyParams_RSA (mod_size pub_exp : Z) : KeyParams := RsaParams (u32 mod_size) (u32 pub_exp).
Definition KeyParams_ECDSA (curve : ECCurve) : KeyParams := EcdsaParams curve.

Definition IsValid (k : KeyParams) : bool :=
  match k with
  | RsaParams mod_size pub_exp =>
      (kRsaMinModSize <=? mod_size) && (mod_size <=? kRsaMaxModSize) && (mod_size <? pub_exp)
  | EcdsaParams EC_NIST_P256 => true
  | EcdsaParams EC_LAST => false
  end.

(** [KeyParams key_params;]: the type is [KT_DEFAULT]. *)
Definition KeyParams_default : KeyParams := EcdsaParams EC_NIST_P256.

Lemma KeyParams_default_valid : new_KeyParams KT_ECDSA = Some KeyParams_default /\ IsValid KeyParams_default = true.
Proof. done. Qed.

(** ** The calendar, counted forward *)

Definition leap (y : Z) : bool := (y mod 4 =? 0) && (negb (y mod 100 =? 0) || (y mod 400 =? 0)).
Definition month_days (y m : Z) : Z :=
  if m =? 1 then 28 + Z.b2z (leap y) else if (m =? 3) || (m =? 5) || (m =? 8) || (m =? 10) then 30 else 31.

(** One second later. *)
Definition tick (t : tm) : tm :=
  let '(MkTm y mo d h mi s) := t in
  if s <? 59 then MkTm y mo d h mi (s + 1)
  else if mi <? 59 then MkTm y mo d h (mi + 1) 0
  else if h <? 23 then MkTm y mo d (h + 1) 0 0
  else if d <? month_days (y + 1900) mo then MkTm y mo (d + 1) 0 0 0
  else if mo <? 11 then MkTm y (mo + 1) 1 0 0 0
  else MkTm (y + 1) 0 1 0 0 0.

(** 1970-01-01 00:00:00, and [n] seconds later. *)
Definition epoch : tm := MkTm 70 0 1 0 0 0.
Definition calendar (n : nat) : tm := Nat.iter n tick epoch.

Record valid_tm (t : tm) : Prop := {
  vt_year : 70 <= tm_year t;
  vt_mon : 0 <= tm_mon t <= 11;
  vt_mday : 1 <= tm_mday t <= month_days (tm_year t + 1900) (tm_mon t);
  vt_hour : 0 <= tm_hour t <= 23;
  vt_min : 0 <= tm_min t <= 59;
  vt_sec : 0 <= tm_sec t <= 59;
}.
#[export] Instance valid_tm_dec t : Decision (valid_tm t).
Proof.
  refine (cast_if (decide ((70 <= tm_year t) /\ (0 <= tm_mon t <= 11) /\
    (1 <= tm_mday t <= month_days (tm_year t + 1900) (tm_mon t)) /\ (0 <= tm_hour t <= 23) /\
    (0 <= tm_min t <= 59) /\ (0 <= tm_sec t <= 59)))); [abstract (split; tauto)|abstract (intros []; tauto)].
Defined.

(** The second before. *)
Definition untick (t : tm) : tm :=
  let '(MkTm y mo d h mi s) := t in
  if 0 <? s then MkTm y mo d h mi (s - 1)
  else if 0 <? mi then MkTm y mo d h (mi - 1) 59
  else if 0 <? h then MkTm y mo d (h - 1) 59 59
  else if 1 <? d then MkTm y mo (d - 1) 23 59 59
  else if 0 <? mo then MkTm y (mo - 1) (month_days (y + 1900) (mo - 1)) 23 59 59
  else MkTm (y - 1) 11 31 23 59 59.

Lemma month_days_range y m : 28 <= month_days y m <= 31.
Proof. unfold month_days. repeat case_match; destruct (leap y); simpl; lia. Qed.

(** Decides the comparisons of [Z] booleans in the goal. *)
Ltac ztests := repeat match goal with |- context [?a <? ?b] => destruct (Z.ltb_spec a b) end.

Lemma tick_valid t : valid_tm t -> valid_tm (tick t).
Proof.
  destruct t as [y mo d h mi s]. intros [Hy Hmo Hd Hh Hmi Hs]. cbn [tm_year tm_mon tm_mday tm_hour tm_min tm_sec] in *.
  unfold tick. pose proof (month_days_range (y + 1900) (mo + 1)). pose proof (month_days_range (y + 1 + 1900) 0).
  ztests; split; cbn [tm_year tm_mon tm_mday tm_hour tm_min tm_sec]; lia.
Qed.

Lemma untick_spec t : valid_tm t -> t <> epoch -> valid_tm (untick t) /\ tick (untick t) = t.
Proof.
  destruct t as [y mo d h mi s]. intros [Hy Hmo Hd Hh Hmi Hs] Hne.
  cbn [tm_year tm_mon tm_mday tm_hour tm_min tm_sec] in *. unfold untick.
  pose proof (month_days_range (y + 1900) (mo - 1)). assert (H31 : month_days (y - 1 + 1900) 11 = 31) by done.
  assert (Hep : s = 0 -> mi = 0 -> h = 0 -> d = 1 -> mo = 0 -> 70 < y).
  { intros -> -> -> -> ->. destruct (Z.eq_dec y 70) as [->|]; [done|lia]. }
  ztests; (split; [split; cbn [tm_year tm_mon tm_mday tm_hour tm_min tm_sec]; lia|]); cbn [tick];
    rewrite ?H31; ztests; try lia; f_equal; lia.
Qed.

(** ** [TmToSeconds] and the calendar *)

Definition cumul (mo : Z) : Z := default 0 (cumul_mdays !! Z.to_nat mo).
Definition leaps (y : Z) : Z := (y / 4 - 492) - (y / 100 - 19) + (y / 400 - 4).
Definition day_number (y mo d : Z) : Z :=
  (y - 1970) * 365 + (d - 1 + cumul mo + leaps y - Z.b2z (leap y && (mo <=? 1))).
Definition seconds (t : tm) : Z :=
  ((day_number (tm_year t + 1900) (tm_mon t) (tm_mday t) * 24 + tm_hour t) * 60 + tm_min t) * 60 + tm_sec t.

(** The cases of a month. *)
Lemma month_cases (mo : Z) : 0 <= mo <= 11 ->
  mo = 0 \/ mo = 1 \/ mo = 2 \/ mo = 3 \/ mo = 4 \/ mo = 5 \/ mo = 6 \/ mo = 7 \/ mo = 8 \/ mo = 9 \/ mo = 10 \/ mo = 11.
Proof. lia. Qed.
Ltac month H := destruct (month_cases _ H) as [->|[->|[->|[->|[->|[->|[->|[->|[->|[->|[->| ->]]]]]]]]]]].

Lemma leap_spec y : Z.b2z (leap y) = Z.b2z (y mod 4 =? 0) - Z.b2z (y mod 100 =? 0) + Z.b2z (y mod 400 =? 0).
Proof.
  unfold leap. destruct (Z.eqb_spec (y mod 4) 0), (Z.eqb_spec (y mod 100) 0), (Z.eqb_spec (y mod 400) 0);
    simpl; try done; exfalso; Z.div_mod_to_equations; lia.
Qed.

Lemma quotient_step y k : 0 < k -> (y + 1) / k = y / k + Z.b2z ((y + 1) mod k =? 0).
Proof.
  intros Hk. pose proof (Z.mod_pos_bound (y + 1) k Hk). pose proof (Z.div_mod (y + 1) k ltac:(lia)) as Hd.
  destruct (Z.eqb_spec ((y + 1) mod k) 0) as [He|Hne]; simpl.
  - symmetry. replace (y / k) with ((y + 1) / k - 1); [lia|].
    apply (Z.div_unique_pos y k _ (k - 1)); lia.
  - rewrite Z.add_0_r. apply (Z.div_unique_pos y k _ ((y + 1) mod k - 1)); lia.
Qed.

Lemma leaps_step y : leaps (y + 1) = leaps y + Z.b2z (leap (y + 1)).
Proof. unfold leaps. rewrite leap_spec, !quotient_step by lia. lia. Qed.

Lemma next_month y mo : 0 <= mo < 11 -> day_number y (mo + 1) 1 = day_number y mo (month_days y mo) + 1.
Proof.
  intros Hmo. assert (Hm : 0 <= mo <= 11) by lia. unfold day_number.
  month Hm; try lia; unfold month_days, cumul; simpl; rewrite ?andb_false_r, ?andb_true_r; destruct (leap y); simpl; lia.
Qed.

Lemma next_year y : day_number (y + 1) 0 1 = day_number y 11 31 + 1.
Proof.
  unfold day_number, cumul. rewrite leaps_step, andb_true_r, andb_false_r. simpl. destruct (leap (y + 1)); simpl; lia.
Qed.

Lemma seconds_tick t : valid_tm t -> seconds (tick t) = seconds t + 1.
Proof.
  destruct t as [y mo d h mi s]. intros [Hy Hmo Hd Hh Hmi Hs]. cbn [tm_year tm_mon tm_mday tm_hour tm_min tm_sec] in *.
  unfold tick, seconds. ztests; cbn [tm_year tm_mon tm_mday tm_hour tm_min tm_sec]; try lia.
  - unfold day_number. lia.
  - rewrite next_month by lia. replace d with (month_days (y + 1900) mo) by lia. lia.
  - assert (mo = 11) as -> by lia. replace (y + 1 + 1900) with (y + 1900 + 1) by lia. rewrite next_year.
    replace d with (month_days (y + 1900) 11) by lia. change (month_days (y + 1900) 11) with 31. lia.
Qed.

Lemma day_number_range y mo d :
  1970 <= y -> 0 <= mo <= 11 -> 1 <= d <= 31 ->
  0 <= d - 1 + cumul mo + leaps y - Z.b2z (leap y && (mo <=? 1)) <= 366 + y.
Proof.
  intros Hy Hmo Hd. assert (Hc : 0 <= cumul mo <= 334) by (month Hmo; vm_compute; split; discriminate).
  assert (0 <= leaps y - Z.b2z (leap y) /\ leaps y <= y).
  { rewrite leap_spec. unfold leaps. destruct (Z.eqb_spec (y mod 4) 0), (Z.eqb_spec (y mod 100) 0), (Z.eqb_spec (y mod 400) 0);
      cbn [Z.b2z]; Z.div_mod_to_equations; lia. }
  destruct (leap y), (mo <=? 1); cbn [andb Z.b2z] in *; lia.
Qed.

Lemma seconds_nonneg t : valid_tm t -> 0 <= seconds t.
Proof.
  intros [Hy Hmo Hd Hh Hmi Hs]. pose proof (month_days_range (tm_year t + 1900) (tm_mon t)).
  pose proof (day_number_range (tm_year t + 1900) (tm_mon t) (tm_mday t)). unfold seconds, day_number. lia.
Qed.

Lemma calendar_valid n : valid_tm (calendar n) /\ seconds (calendar n) = Z.of_nat n.
Proof.
  induction n as [|n [Hv IH]]; [split; [by apply (bool_decide_unpack (valid_tm epoch))|done]|].
  change (calendar (S n)) with (tick (calendar n)). split; [by apply tick_valid|].
  rewrite seconds_tick, IH by done. lia.
Qed.

Lemma valid_calendar t : valid_tm t -> t = calendar (Z.to_nat (seconds t)).
Proof.
  intros Hv. remember (Z.to_nat (seconds t)) as n eqn:Hn. revert t Hv Hn. induction n as [|n IH]; intros t Hv Hn.
  - destruct (decide (t = epoch)) as [->|Hne]; [done|]. destruct (untick_spec t Hv Hne) as [Hv' Ht].
    pose proof (seconds_tick _ Hv'). pose proof (seconds_nonneg _ Hv'). rewrite Ht in *. lia.
  - destruct (decide (t = epoch)) as [->|Hne]; [done|]. destruct (untick_spec t Hv Hne) as [Hv' Ht].
    pose proof (seconds_tick _ Hv') as Hs. pose proof (seconds_nonneg _ Hv'). rewrite Ht in *.
    rewrite <- Ht. change (calendar (S n)) with (tick (calendar n)). f_equal. apply IH; [done|]. lia.
Qed.

(** The fields as [int]s from which [TmToSeconds] computes the year and the day. *)
Definition tm_ints (t : tm) : Prop := - 2 ^ 31 <= tm_year t < 2 ^ 31 - 1900 /\ - 2 ^ 31 < tm_mday t < 2 ^ 31.

Lemma elem_month (l : list Z) (mo : Z) : length l = 12%nat -> 0 <= mo <= 11 -> elem l mo = Ret (default 0 (l !! Z.to_nat mo)).
Proof.
  intros Hl Hmo. unfold elem. destruct (Z.ltb_spec mo 0); [lia|].
  destruct (l !! Z.to_nat mo) eqn:E; [done|]. apply lookup_ge_None in E. lia.
Qed.

Lemma leap_rem y : 0 <= y -> (Z.rem y 4 =? 0) && (negb (Z.rem y 100 =? 0) || (Z.rem y 400 =? 0)) = leap y.
Proof. intros. by rewrite !Z.rem_mod_nonneg by lia. Qed.

Lemma month_days_eq y mo :
  0 <= mo <= 11 -> default 0 (mdays !! Z.to_nat mo) + Z.b2z (leap y && (mo =? 2 - 1)) = month_days y mo.
Proof. intros Hmo. month Hmo; unfold month_days; simpl; destruct (leap y); done. Qed.

(** A test of [TmToSeconds] failed: the date is not valid. *)
Ltac not_valid :=
  rewrite decide_False; [done|intros [? ? ? ? ? ?]; cbn [tm_year tm_mon tm_mday tm_hour tm_min tm_sec] in *; lia].

Lemma TmToSeconds_eq t :
  tm_ints t -> TmToSeconds t = if decide (valid_tm t) then Ret (seconds t) else Ret (-1).
Proof.
  destruct t as [y mo d h mi s]. intros [Hy Hd]. cbn [tm_year tm_mday] in *. unfold TmToSeconds.
  cbn [tm_year tm_mon tm_mday tm_hour tm_min tm_sec].
  rewrite (int_ok (y + 1900)), (int_ok (d - 1)) by lia. cbn [mbind res_bind].
  destruct (Z.ltb_spec (y + 1900) 1970) as [Hx|Hy1].
  { not_valid. }
  rewrite leap_rem by lia. destruct (Z.ltb_spec mo 0) as [Hx|H0]; [|destruct (Z.ltb_spec 11 mo) as [Hx|H11]]; cbn [orb].
  1, 2: not_valid.
  rewrite (elem_month mdays) by (done || lia). cbn [mbind res_bind]. rewrite month_days_eq by lia.
  destruct (Z.ltb_spec (d - 1) 0) as [Hx|?]; [|destruct (Z.leb_spec (month_days (y + 1900) mo) (d - 1)) as [Hx|Hd1]]; cbn [orb].
  1, 2: not_valid.
  destruct (Z.ltb_spec h 0) as [Hx|?]; [|destruct (Z.ltb_spec 23 h) as [Hx|?]]; cbn [orb].
  1, 2: not_valid.
  destruct (Z.ltb_spec mi 0) as [Hx|?]; [|destruct (Z.ltb_spec 59 mi) as [Hx|?]]; cbn [orb].
  1, 2: not_valid.
  destruct (Z.ltb_spec s 0) as [Hx|?]; [|destruct (Z.ltb_spec 59 s) as [Hx|?]]; cbn [orb].
  1, 2: not_valid.
  pose proof (month_days_range (y + 1900) mo) as Hmd. pose proof (day_number_range (y + 1900) mo d) as Hdn.
  rewrite decide_True by (split; cbn [tm_year tm_mon tm_mday tm_hour tm_min tm_sec]; lia).
  rewrite (elem_month cumul_mdays) by (done || lia). cbn [mbind res_bind]. fold (cumul mo).
  assert (0 <= cumul mo <= 334).
  { assert (Hm : 0 <= mo <= 11) by lia. month Hm; vm_compute; split; discriminate. }
  rewrite int_ok by lia. cbn [mbind res_bind]. rewrite !Z.quot_div_nonneg by lia.
  change (1970 / 4) with 492. change (1970 / 100) with 19. change (1970 / 400) with 4. fold (leaps (y + 1900)).
  assert (Hl : 0 <= leaps (y + 1900) /\ 2 * leaps (y + 1900) <= y + 1900).
  { unfold leaps. Z.div_mod_to_equations; lia. }
  rewrite int_ok by lia. cbn [mbind res_bind].
  assert (Hday : (if leap (y + 1900) && (mo <=? 2 - 1) then int (d - 1 + cumul mo + leaps (y + 1900) - 1)
    else Ret (d - 1 + cumul mo + leaps (y + 1900))) =
    Ret (d - 1 + cumul mo + leaps (y + 1900) - Z.b2z (leap (y + 1900) && (mo <=? 1)))).
  { change (2 - 1) with 1. destruct (leap (y + 1900) && (mo <=? 1)); [rewrite int_ok by lia|]; f_equal; cbn [Z.b2z]; lia. }
  rewrite Hday. cbn [mbind res_bind]. unfold seconds, day_number. cbn [tm_year tm_mon tm_mday tm_hour tm_min tm_sec].
  apply long_ok. lia.
Qed.

(** C25: [TmToSeconds] counts the seconds since 1970 of the Gregorian calendar:
    the date that the calendar, moved forward one second at a time from the
    epoch, shows after n seconds has the value n, and every [tm] that the
    calendar never shows (29 February of a common year, the hour 24, a date
    before 1970) has the value -1. *)
Theorem TmToSeconds_calendar t :
  tm_ints t ->
  (exists n, t = calendar n /\ TmToSeconds t = Ret (Z.of_nat n)) \/
  ((forall n, t <> calendar n) /\ TmToSeconds t = Ret (-1)).
Proof.
  intros Ht. rewrite TmToSeconds_eq by done. destruct (decide (valid_tm t)) as [Hv|Hv]; [left|right].
  - exists (Z.to_nat (seconds t)). split; [by apply valid_calendar|]. pose proof (seconds_nonneg t Hv). f_equal. lia.
  - split; [|done]. intros n ->. apply Hv, calendar_valid.
Qed.

(** ** The text of a time *)

Definition digits2 (z : Z) : list byte := [z2b (48 + z / 10); z2b (48 + z mod 10)].

(** RFC 5280, 4.1.2.5: "yymmddhhmmssZ" or "yyyymmddhhmmssZ". *)
Definition rfc5280_digits (long_format : bool) (t : tm) : list byte :=
  let year := tm_year t + 1900 in
  (if long_format then digits2 (year / 100) else []) ++ digits2 (year mod 100) ++ digits2 (tm_mon t + 1) ++
  digits2 (tm_mday t) ++ digits2 (tm_hour t) ++ digits2 (tm_min t) ++ digits2 (tm_sec t).
Definition rfc5280_text (long_format : bool) (t : tm) : list byte := rfc5280_digits long_format t ++ [x5a].

(** The years each form can hold. *)
Definition rfc5280_year (long_format : bool) (t : tm) : Prop :=
  tm_year t + 1900 < if long_format then 10000 else 2050.

Lemma digit_val k : 0 <= k < 10 -> b2z (z2b (48 + k)) = 48 + k.
Proof. intros. apply b2z_z2b_small. lia. Qed.

Lemma digits2_digits z : 0 <= z < 100 -> Forall (fun c => is_digit c = true) (digits2 z).
Proof.
  intros Hz. repeat constructor; unfold is_digit; rewrite digit_val by (Z.div_mod_to_equations; lia);
    apply andb_true_intro; split; apply Z.leb_le; Z.div_mod_to_equations; lia.
Qed.

Lemma strspn_app ds rest : Forall (fun c => is_digit c = true) ds ->
  strspn_digits (ds ++ x5a :: rest) = Ret (Z.of_nat (length ds)).
Proof.
  induction 1 as [|c ds Hc _ IH]; [done|]. cbn [app strspn_digits length]. rewrite Hc, IH. cbn. f_equal. lia.
Qed.

Lemma read_digits2 z rest n (x : Z) :
  0 <= z < 100 -> 0 <= x < 100 -> read_int (digits2 z ++ rest) (S (S n)) x = read_int rest n (100 * x + z).
Proof.
  intros Hz Hx. cbn [digits2 app read_int]. rewrite !digit_val by (Z.div_mod_to_equations; lia).
  rewrite int_ok by (Z.div_mod_to_equations; lia). cbn [mbind res_bind].
  rewrite int_ok by (Z.div_mod_to_equations; lia). cbn [mbind res_bind]. f_equal. Z.div_mod_to_equations; lia.
Qed.

Lemma ASN1ReadInt_ok z rest (left_ : Z) :
  0 <= z < 100 -> ASN1ReadInt (digits2 z ++ rest) left_ 2 = Ret (z, rest, u64 (left_ - 2)).
Proof. intros Hz. unfold ASN1ReadInt. rewrite read_digits2 by lia. reflexivity. Qed.

Lemma ASN1ReadInt_year a b rest (left_ : Z) :
  0 <= a < 100 -> 0 <= b < 100 ->
  ASN1ReadInt (digits2 a ++ digits2 b ++ rest) left_ 4 = Ret (100 * a + b, rest, u64 (left_ - 4)).
Proof. intros Ha Hb. unfold ASN1ReadInt. rewrite (read_digits2 a), (read_digits2 b) by lia. reflexivity. Qed.

Lemma rfc5280_digits_ok long_format t :
  valid_tm t -> rfc5280_year long_format t ->
  Forall (fun c => is_digit c = true) (rfc5280_digits long_format t) /\
  length (rfc5280_digits long_format t) = (if long_format then 14 else 12)%nat.
Proof.
  intros [Hy Hmo Hd Hh Hmi Hs] Hr. pose proof (month_days_range (tm_year t + 1900) (tm_mon t)).
  split; [|by destruct long_format]. unfold rfc5280_digits, rfc5280_year in *.
  repeat apply Forall_app_2; try (apply digits2_digits; Z.div_mod_to_equations; lia).
  destruct long_format; [|done]. apply digits2_digits. Z.div_mod_to_equations; lia.
Qed.

Lemma read_year_ok long_format t rest :
  valid_tm t -> rfc5280_year long_format t -> let year := tm_year t + 1900 in
  let n := if long_format then 15 else 13 in
  read_year ((if long_format then digits2 (year / 100) else []) ++ digits2 (year mod 100) ++ rest) n long_format =
    Ret (Some (tm_year t, rest, 11)).
Proof.
  intros [Hy _ _ _ _ _] Hr year n. unfold rfc5280_year, read_year in *. subst year n. destruct long_format.
  - rewrite ASN1ReadInt_year by (Z.div_mod_to_equations; lia). cbn. do 4 f_equal. Z.div_mod_to_equations; lia.
  - rewrite app_nil_l, ASN1ReadInt_ok by (Z.div_mod_to_equations; lia). cbn. do 4 f_equal.
    destruct (Z.ltb_spec ((tm_year t + 1900) mod 100) 50); Z.div_mod_to_equations; lia.
Qed.

(** A well-formed time is read back, wherever its buffer ends. *)
Lemma ASN1TimeToSec_ok long_format t rest :
  valid_tm t -> rfc5280_year long_format t ->
  ASN1TimeToSec (rfc5280_text long_format t ++ rest) (Z.of_nat (length (rfc5280_text long_format t))) long_format =
    Ret (seconds t).
Proof.
  intros Hv Hr. destruct (rfc5280_digits_ok long_format t Hv Hr) as [Hdig Hlen].
  unfold rfc5280_text. rewrite length_app, Hlen, <- app_assoc. change ([x5a] ++ rest) with (x5a :: rest). cbn [length].
  replace (Z.of_nat ((if long_format then 14 else 12) + 1)) with (if long_format then 15 else 13) by by destruct long_format.
  set (n := if long_format then 15 else 13). assert (Hn : 13 <= n <= 15) by (unfold n; destruct long_format; lia).
  unfold ASN1TimeToSec. destruct (Z.eqb_spec n 0); [lia|].
  rewrite (char_at_ok _ (n - 1) x5a); [|lia|].
  2: { rewrite lookup_app_r by (rewrite Hlen; destruct long_format; simpl; lia).
       rewrite Hlen. by replace (Z.to_nat (n - 1) - _)%nat with 0%nat by (destruct long_format; simpl; lia). }
  cbn [mbind res_bind]. rewrite decide_False by naive_solver. rewrite strspn_app by done. cbn [mbind res_bind].
  replace (Z.of_nat (length (rfc5280_digits long_format t))) with (n - 1) by (rewrite Hlen; destruct long_format; simpl; lia).
  rewrite u64_small by lia. replace (n - 1 + 1 =? n) with true by (symmetry; apply Z.eqb_eq; lia). cbn [negb].
  unfold rfc5280_digits. rewrite <- !app_assoc. unfold n at 1. rewrite read_year_ok by done.
  pose proof Hv as [Hy Hmo Hd Hh Hmi Hs]. pose proof (month_days_range (tm_year t + 1900) (tm_mon t)).
  cbn [mbind res_bind]. rewrite ASN1ReadInt_ok by lia. cbn [mbind res_bind].
  do 4 (rewrite ASN1ReadInt_ok by lia; cbn [mbind res_bind]).
  change (negb (_ =? 1)) with false. cbn iota.
  replace (MkTm _ _ _ _ _ _) with t by (destruct t; cbn; f_equal; lia).
  rewrite TmToSeconds_eq, decide_True; [done|done|]. unfold rfc5280_year in Hr. split; destruct long_format; lia.
Qed.

(** A time without its seconds is longer than what [ASN1TimeToSec] asks for, but
    shorter than what it reads: it looks past the terminator that OpenSSL puts
    behind the bytes. *)
Lemma ASN1TimeToSec_overread : ASN1TimeToSec (string_bytes "99010100Z" ++ [x00]) 9 false = Ub OutOfBounds.
Proof. by vm_compute. Qed.

(** The epoch of the leap day of 2024, and the day after the last of 2023. *)
Example TmToSeconds_leap_day : TmToSeconds (MkTm 124 1 29 0 0 0) = Ret 1709164800 /\ TmToSeconds (MkTm 123 1 29 0 0 0) = Ret (-1).
Proof. by vm_compute. Qed.

Lemma TmToSeconds_calendar_witness :
  (exists n, MkTm 124 1 29 12 0 0 = calendar n /\ TmToSeconds (MkTm 124 1 29 12 0 0) = Ret (Z.of_nat n)) \/
  ((forall n, MkTm 124 1 29 12 0 0 <> calendar n) /\ TmToSeconds (MkTm 124 1 29 12 0 0) = Ret (-1)).
Proof. apply (TmToSeconds_calendar (MkTm 124 1 29 12 0 0)). split; split; simpl; lia. Defined.
