(* ===== verification/Base64.v ===== *)
(** * [rtc_base/third_party/base64/base64.cc] and the PEM texts of [ssl_identity.cc]

    The encoder writes into a string of the final length; the decoder reads in
    groups of four characters under three kinds of flags (which characters are
    skipped, whether padding is needed, where the text may end).  A position in
    the text is the rest of it. *)

From S2P Require Import Prelude Sds CLib.
#[local] Open Scope Z_scope.
#[local] Open Scope xrtc_scope.

(** ** Tables *)

Definition kPad : byte := x3d.
Definition pd : Z := 253.  (* padding *)
Definition sp : Z := 254.  (* whitespace *)
Definition il : Z := 255.  (* illegal character *)

Definition Base64Table : list byte :=
  string_bytes "ABCDEFGHIJKLMNOPQRSTUVWXYZabcdefghijklmnopqrstuvwxyz0123456789+/".

Definition DecodeTable : list Z := [
  il; il; il; il; il; il; il; il; il; sp;
  sp; sp; sp; sp; il; il; il; il; il; il;
  il; il; il; il; il; il; il; il; il; il;
  il; il; sp; il; il; il; il; il; il; il;
  il; il; il; 62; il; il; il; 63; 52; 53;
  54; 55; 56; 57; 58; 59; 60; 61; il; il;
  il; pd; il; il; il; 0; 1; 2; 3; 4;
  5; 6; 7; 8; 9; 10; 11; 12; 13; 14;
  15; 16; 17; 18; 19; 20; 21; 22; 23; 24;
  25; il; il; il; il; il; il; 26; 27; 28;
  29; 30; 31; 32; 33; 34; 35; 36; 37; 38;
  39; 40; 41; 42; 43; 44; 45; 46; 47; 48;
  49; 50; 51; il; il; il; il; il; il; il;
  il; il; il; il; il; il; il; il; il; il;
  il; il; il; il; il; il; il; il; il; il;
  il; il; il; il; il; il; il; il; il; il;
  il; il; il; il; il; il; il; il; il; il;
  il; il; il; il; il; il; il; il; il; il;
  il; il; il; il; il; il; il; il; il; il;
  il; il; il; il; il; il; il; il; il; il;
  il; il; il; il; il; il; il; il; il; il;
  il; il; il; il; il; il; il; il; il; il;
  il; il; il; il; il; il; il; il; il; il;
  il; il; il; il; il; il; il; il; il; il;
  il; il; il; il; il; il; il; il; il; il;
  il; il; il; il; il; il].

Definition IsBase64Char (c : byte) : bool :=
  let ch := schar c in
  ((65 <=? ch) && (ch <=? 90)) || ((97 <=? ch) && (ch <=? 122)) || ((48 <=? ch) && (ch <=? 57)) ||
  (ch =? 43) || (ch =? 47).

Definition IsBase64Encoded (str : list byte) : bool := forallb IsBase64Char str.

(** [GetNextBase64Char]: [strchr] also finds the terminator of the table, and
    the character after that one is outside it. *)
Fixpoint after_char (table : list byte) (ch : byte) : res (option byte) :=
  match table with
  | [] => if decide (ch = x00) then Ub OutOfBounds else Ret None
  | c :: table =>
      if decide (c = ch) then Ret (Some (match table with n :: _ => n | [] => default x00 (Base64Table !! 0%nat) end))
      else after_char table ch
  end.
Definition GetNextBase64Char (ch : byte) : res (option byte) := after_char Base64Table ch.

(** ** Encoding *)

(** [Base64Table[c]] for a six-bit [c]. *)
Definition table_at (c : Z) : res byte := char_at Base64Table c.

(** [( *result)[dest_ix++] = x]. *)
Definition put_next (r : list byte * Z) (x : byte) : res (list byte * Z) :=
  buf ← set_char r.1 r.2 x; Ret (buf, r.2 + 1).

(** One round of the loop: up to three bytes become four characters. *)
Definition encode_group (data : list byte) (len i : Z) (r : list byte * Z) : res (list byte * Z * Z) :=
  b ← char_at data i;
  x ← table_at (Z.land (Z.shiftr (b2z b) 2) 63);
  r ← put_next r x;
  let c := Z.land (Z.shiftl (b2z b) 4) 63 in
  let i := i + 1 in
  c ← (if i <? len then b ← char_at data i; Ret (Z.lor c (Z.land (Z.shiftr (b2z b) 4) 15)) else Ret c);
  x ← table_at c;
  r ← put_next r x;
  '(r, i) ← (if i <? len then
       b ← char_at data i;
       let c := Z.land (Z.shiftl (b2z b) 2) 63 in
       let i := i + 1 in
       c ← (if i <? len then b ← char_at data i; Ret (Z.lor c (Z.land (Z.shiftr (b2z b) 6) 3)) else Ret c);
       x ← table_at c;
       r ← put_next r x; Ret (r, i)
     else r ← put_next r kPad; Ret (r, i));
  if i <? len then
    b ← char_at data i;
    x ← table_at (Z.land (b2z b) 63);
    r ← put_next r x; Ret (r, i + 1)
  else r ← put_next r kPad; Ret (r, i).

(** [while (i < len)]: every round passes a byte. *)
Fixpoint encode_loop (fuel : nat) (data : list byte) (len i : Z) (r : list byte * Z) : res (list byte * Z) :=
  if i <? len then
    match fuel with
    | O => OutOfFuel
    | S fuel => '(r, i) ← encode_group data len i r; encode_loop fuel data len i r
    end
  else Ret r.

(** [resize] fills with zero bytes. *)
Definition EncodeFromArray (data : list byte) (len : Z) : res (list byte) :=
  '(result, _) ← encode_loop (Z.to_nat len) data len 0 (replicate (Z.to_nat ((len + 2) / 3 * 4)) x00, 0);
  Ret result.

(** ** Decoding *)

Definition DO_PARSE_STRICT : Z := 1.
Definition DO_PARSE_WHITE : Z := 2.
Definition DO_PARSE_ANY : Z := 3.
Definition DO_PARSE_MASK : Z := 3.
Definition DO_PAD_YES : Z := 4.
Definition DO_PAD_ANY : Z := 8.
Definition DO_PAD_NO : Z := 12.
Definition DO_PAD_MASK : Z := 12.
Definition DO_TERM_BUFFER : Z := 16.
Definition DO_TERM_CHAR : Z := 32.
Definition DO_TERM_ANY : Z := 48.
Definition DO_TERM_MASK : Z := 48.

Definition decode_char (c : byte) : Z := default il (DecodeTable !! Z.to_nat (b2z c)).

(** What the loop of [GetNextQuantum] leaves: the rest of the text, the rest at
    the first pad, the counters and the buffer. *)
Record quantum := MkQuantum {
  q_data : list byte;
  byte_len : nat;
  pad_len : nat;
  pad_start : list byte;
  qbuf : list Z;
}.

Fixpoint quantum_loop (parse_flags : Z) (illegal_pads : bool) (data : list byte)
    (byte_len pad_len : nat) (pad_start : list byte) (qbuf : list Z) : quantum :=
  match data with
  | [] => MkQuantum [] byte_len pad_len pad_start qbuf
  | ch :: rest =>
      if (byte_len <? 4)%nat then
        let v := decode_char ch in
        let qbuf := <[byte_len := v]> qbuf in
        let stop := MkQuantum data byte_len pad_len pad_start qbuf in
        if (il =? v) || (illegal_pads && (pd =? v)) then
          if negb (parse_flags =? DO_PARSE_ANY) then stop
          else quantum_loop parse_flags illegal_pads rest byte_len pad_len pad_start qbuf
        else if sp =? v then
          if parse_flags =? DO_PARSE_STRICT then stop
          else quantum_loop parse_flags illegal_pads rest byte_len pad_len pad_start qbuf
        else if pd =? v then
          if (byte_len <? 2)%nat then
            if negb (parse_flags =? DO_PARSE_ANY) then stop
            else quantum_loop parse_flags illegal_pads rest byte_len pad_len pad_start qbuf
          else if (4 <=? byte_len + pad_len)%nat then
            if negb (parse_flags =? DO_PARSE_ANY) then stop
            else quantum_loop parse_flags illegal_pads rest byte_len pad_len pad_start qbuf
          else quantum_loop parse_flags illegal_pads rest byte_len (S pad_len)
                 (if (S pad_len =? 1)%nat then data else pad_start) qbuf
        else if (0 <? pad_len)%nat && negb (parse_flags =? DO_PARSE_ANY) then stop
        else quantum_loop parse_flags illegal_pads rest (S byte_len) 0 pad_start qbuf
      else MkQuantum data byte_len pad_len pad_start qbuf
  end.

(** The rest of the text, the buffer, whether it is padded, and the number of
    characters in it. *)
Definition GetNextQuantum (parse_flags : Z) (illegal_pads : bool) (data : list byte) : list byte * list Z * bool * nat :=
  let q := quantum_loop parse_flags illegal_pads data 0 0 [] (replicate 4 0) in
  let buf := take (byte_len q) (qbuf q) ++ replicate (4 - byte_len q) 0 in
  if (byte_len q + pad_len q =? 4)%nat then (q_data q, buf, true, byte_len q)
  else (if (0 <? pad_len q)%nat then pad_start q else q_data q, buf, false, byte_len q).

Definition qb (qbuf : list Z) (i : nat) : Z := default 0 (qbuf !! i).

(** The bytes of a group, and the bits left over. *)
Definition group_bytes (qbuf : list Z) (qlen : nat) : list byte * Z :=
  let c := u8 (Z.lor (Z.shiftl (qb qbuf 0) 2) (Z.land (Z.shiftr (qb qbuf 1) 4) 3)) in
  if (2 <=? qlen)%nat then
    let out := [z2b c] in
    let c := u8 (Z.lor (Z.land (Z.shiftl (qb qbuf 1) 4) 240) (Z.land (Z.shiftr (qb qbuf 2) 2) 15)) in
    if (3 <=? qlen)%nat then
      let out := out ++ [z2b c] in
      let c := u8 (Z.lor (Z.land (Z.shiftl (qb qbuf 2) 6) 192) (qb qbuf 3)) in
      if (4 <=? qlen)%nat then (out ++ [z2b c], 0) else (out, c)
    else (out, c)
  else ([], c).

(** [while (dpos < len)]: a group of four makes the text shorter, another one
    ends the loop. *)
Fixpoint decode_loop (fuel : nat) (flags : Z) (data result : list byte) (success : bool) :
    res (list byte * list byte * bool) :=
  let pad_flags := Z.land flags DO_PAD_MASK in
  let term_flags := Z.land flags DO_TERM_MASK in
  match data with
  | [] => Ret (data, result, success)
  | _ =>
      match fuel with
      | O => OutOfFuel
      | S fuel =>
          let '(data, qbuf, padded, qlen) :=
            GetNextQuantum (Z.land flags DO_PARSE_MASK) (DO_PAD_NO =? pad_flags) data in
          let '(out, c) := group_bytes qbuf qlen in
          let result := result ++ out in
          if (qlen <? 4)%nat then
            let success := if negb (DO_TERM_ANY =? term_flags) && negb (0 =? c) then false else success in
            let success := if (DO_PAD_YES =? pad_flags) && negb padded then false else success in
            Ret (data, result, success)
          else decode_loop fuel flags data result success
      end
  end.

(** The result, whether all went well, and the number of characters used. *)
Definition DecodeFromArray (data : list byte) (flags : Z) : res (list byte * bool * nat) :=
  '(rest, result, success) ← decode_loop (S (length data)) flags data [] true;
  let success := if (DO_TERM_BUFFER =? Z.land flags DO_TERM_MASK) && negb (bool_decide (rest = [])) then false
                 else success in
  Ret (result, success, (length data - length rest)%nat).

Definition Decode (data : list byte) (flags : Z) : res (list byte) :=
  '(result, _, _) ← DecodeFromArray data flags; Ret result.

(** ** PEM *)

(** [find] from a position on, in a [std::string]. *)
Definition starts_with (s needle : list byte) : bool := bool_decide (take (length needle) s = needle).
Fixpoint find (needle s : list byte) : option nat :=
  if starts_with s needle then Some 0%nat
  else match s with [] => None | _ :: s => n ← find needle s; Some (S n) end.
Definition find_at (needle s : list byte) (pos : nat) : option nat :=
  n ← find needle (drop pos s); Some (pos + n)%nat.

(** [substr(pos, n)], [n] a [size_t]; a position past the end throws. *)
Definition substr (s : list byte) (pos n : Z) : res (list byte) :=
  if Z.of_nat (length s) <? pos then Abort else Ret (take (Z.to_nat (u64 n)) (drop (Z.to_nat pos) s)).

Definition begin_line (pem_type : list byte) : list byte := string_bytes "-----BEGIN " ++ pem_type ++ string_bytes "-----".
Definition end_line (pem_type : list byte) : list byte := string_bytes "-----END " ++ pem_type ++ string_bytes "-----".

Definition PemToDer (pem_type pem_string : list byte) : res (option (list byte)) :=
  match find_at (begin_line pem_type) pem_string 0 with
  | None => Ret None
  | Some header =>
      match find_at [x0a] pem_string header with
      | None => Ret None
      | Some body =>
          match find_at (end_line pem_type) pem_string 0 with
          | None => Ret None
          | Some trailer =>
              inner ← substr pem_string (Z.of_nat body + 1) (Z.of_nat trailer - (Z.of_nat body + 1));
              der ← Decode inner (Z.lor (Z.lor DO_PARSE_WHITE DO_PAD_ANY) DO_TERM_BUFFER);
              Ret (Some der)
          end
      end
  end.

Definition kChunkSize : Z := 64.

(** [for (i = 0, chunk_offset = 0; i < chunks; ++i, chunk_offset += kChunkSize)]. *)
Fixpoint pem_chunks (chunks : nat) (b64 : list byte) (chunk_offset : Z) : res (list byte) :=
  match chunks with
  | O => Ret []
  | S chunks =>
      line ← substr b64 chunk_offset kChunkSize;
      rest ← pem_chunks chunks b64 (chunk_offset + kChunkSize);
      Ret (line ++ [x0a] ++ rest)
  end.

Definition DerToPem (pem_type data : list byte) (length_ : Z) : res (list byte) :=
  b64_encoded ← EncodeFromArray data length_;
  let chunks := (Z.of_nat (length b64_encoded) + (kChunkSize - 1)) / kChunkSize in
  body ← pem_chunks (Z.to_nat chunks) b64_encoded 0;
  Ret (begin_line pem_type ++ [x0a] ++ body ++ end_line pem_type ++ [x0a]).

(** ** The encoding of a list of bytes *)

Definition tc (v : Z) : byte := default x00 (Base64Table !! Z.to_nat v).
Definition six1 (a : Z) : Z := Z.land (Z.shiftr a 2) 63.
Definition six2 (a b : Z) : Z := Z.lor (Z.land (Z.shiftl a 4) 63) (Z.land (Z.shiftr b 4) 15).
Definition six3 (b c : Z) : Z := Z.lor (Z.land (Z.shiftl b 2) 63) (Z.land (Z.shiftr c 6) 3).
Definition six4 (c : Z) : Z := Z.land c 63.

Fixpoint b64 (data : list byte) : list byte :=
  match data with
  | a :: b :: c :: rest =>
      tc (six1 (b2z a)) :: tc (six2 (b2z a) (b2z b)) :: tc (six3 (b2z b) (b2z c)) :: tc (six4 (b2z c)) :: b64 rest
  | [a; b] => [tc (six1 (b2z a)); tc (six2 (b2z a) (b2z b)); tc (six3 (b2z b) 0); kPad]
  | [a] => [tc (six1 (b2z a)); tc (six2 (b2z a) 0); kPad; kPad]
  | [] => []
  end.

(** Induction three bytes at a time. *)
Lemma triple_ind (P : list byte -> Prop) :
  P [] -> (forall a, P [a]) -> (forall a b, P [a; b]) -> (forall a b c rest, P rest -> P (a :: b :: c :: rest)) ->
  forall l, P l.
Proof.
  intros H0 H1 H2 H3. fix go 1. intros [|a [|b [|c rest]]]; [done|apply H1|apply H2|apply H3, go].
Qed.

Lemma length_b64 data : Z.of_nat (length (b64 data)) = (Z.of_nat (length data) + 2) / 3 * 4.
Proof.
  induction data as [| | |a b c rest IH] using triple_ind; try done. cbn [b64 length].
  rewrite !Nat2Z.inj_succ, IH. replace (Z.succ _ + 2) with (Z.of_nat (length rest) + 2 + 1 * 3) by lia.
  rewrite Z.div_add by lia. lia.
Qed.

Lemma land_range a m : 0 <= m -> 0 <= Z.land a m <= m.
Proof.
  intros Hm. split; [by apply Z.land_nonneg; right|]. apply Z.ldiff_le; [done|].
  rewrite Z.land_comm. apply Z.bits_inj'. intros n _. rewrite Z.ldiff_spec, Z.land_spec, Z.bits_0.
  by destruct (Z.testbit m n), (Z.testbit a n).
Qed.

Lemma lor_range a b w : 0 <= w -> 0 <= a < 2 ^ w -> 0 <= b < 2 ^ w -> 0 <= Z.lor a b < 2 ^ w.
Proof.
  intros Hw Ha Hb. enough (Z.lor a b = Z.lor a b mod 2 ^ w) as -> by (by apply (wrapU_range w)).
  rewrite <- (Z.mod_small a (2 ^ w)), <- (Z.mod_small b (2 ^ w)), <- !Z.land_ones by done.
  apply Z.bits_inj'. intros i Hi. repeat rewrite ?Z.lor_spec, ?Z.land_spec.
  destruct (Z.testbit a i), (Z.testbit b i), (Z.testbit (Z.ones w) i); done.
Qed.

Lemma six_range a b : 0 <= six1 a < 64 /\ 0 <= six2 a b < 64 /\ 0 <= six3 a b < 64 /\ 0 <= six4 a < 64.
Proof.
  unfold six1, six2, six3, six4. pose proof (land_range (Z.shiftr a 2) 63). pose proof (land_range a 63).
  pose proof (land_range (Z.shiftl a 4) 63). pose proof (land_range (Z.shiftr b 4) 15).
  pose proof (land_range (Z.shiftl a 2) 63). pose proof (land_range (Z.shiftr b 6) 3).
  split; [lia|]. split; [apply (lor_range _ _ 6); lia|]. split; [apply (lor_range _ _ 6); lia|lia].
Qed.

Lemma table_at_ok v : 0 <= v < 64 -> table_at v = Ret (tc v).
Proof.
  intros Hv. unfold table_at, char_at, tc. rewrite decide_True by lia.
  destruct (Base64Table !! Z.to_nat v) eqn:E; [done|]. apply lookup_ge_None in E. vm_compute (length Base64Table) in E. lia.
Qed.

Lemma six_at a b :
  table_at (six1 a) = Ret (tc (six1 a)) /\ table_at (six2 a b) = Ret (tc (six2 a b)) /\
  table_at (six3 a b) = Ret (tc (six3 a b)) /\ table_at (six4 a) = Ret (tc (six4 a)).
Proof. destruct (six_range a b) as (? & ? & ? & ?). by rewrite !table_at_ok. Qed.

Lemma char_at_app pre s (i k : Z) : i = Z.of_nat (length pre) + k -> 0 <= k -> char_at (pre ++ s) i = char_at s k.
Proof.
  intros -> Hk. unfold char_at. rewrite !decide_True by lia. rewrite lookup_app_r by lia.
  by replace (Z.to_nat (Z.of_nat (length pre) + k) - length pre)%nat with (Z.to_nat k) by lia.
Qed.

Lemma char_at_three pre s :
  char_at (pre ++ s) (Z.of_nat (length pre)) = char_at s 0 /\
  char_at (pre ++ s) (Z.of_nat (length pre) + 1) = char_at s 1 /\
  char_at (pre ++ s) (Z.of_nat (length pre) + 1 + 1) = char_at s 2.
Proof. split; [|split]; apply char_at_app; lia. Qed.

(** The string of the result: what is written, and the room that is left. *)
Definition filled (done room : list byte) : list byte * Z := (done ++ room, Z.of_nat (length done)).

Lemma put_next_ok done y room x : put_next (filled done (y :: room)) x = Ret (filled (done ++ [x]) room).
Proof.
  unfold put_next, filled. cbn [fst snd]. rewrite set_char_ok by (rewrite length_app; simpl; lia). cbn [mbind res_bind].
  rewrite Nat2Z.id, insert_app_r_alt, Nat.sub_diag by lia. cbn. rewrite length_app, <- app_assoc. cbn. do 2 f_equal. lia.
Qed.

Ltac put_all := repeat (rewrite put_next_ok; cbn [mbind res_bind]).

(** The test of a position, where it has not been decided before. *)
Ltac in_data :=
  try first [ rewrite (proj2 (Z.ltb_lt _ _)) by (rewrite length_app; cbn [length]; lia)
        | rewrite (proj2 (Z.ltb_ge _ _)) by (rewrite length_app; cbn [length]; lia) ]; cbn [mbind res_bind].

Lemma encode_group_ok pre s done y1 y2 y3 y4 room :
  s <> [] -> let i := Z.of_nat (length pre) in let len := Z.of_nat (length (pre ++ s)) in
  encode_group (pre ++ s) len i (filled done (y1 :: y2 :: y3 :: y4 :: room)) =
    Ret (filled (done ++ b64 (take 3 s)) room, i + Z.of_nat (length (take 3 s))).
Proof.
  intros Hs i len. subst i len. unfold encode_group. destruct (char_at_three pre s) as (-> & -> & ->).
  destruct s as [|a [|b [|c s]]]; [done| | |].
  - destruct (six_at (b2z a) 0) as (H1 & H2 & _ & _).
    change (char_at [a] 0) with (Ret a). cbn [mbind res_bind]. fold (six1 (b2z a)). rewrite H1. cbn [mbind res_bind].
    put_all. in_data. replace (Z.land (Z.shiftl (b2z a) 4) 63) with (six2 (b2z a) 0) by apply Z.lor_0_r.
    rewrite H2. cbn [mbind res_bind]. put_all. in_data. put_all. in_data. put_all.
    cbn [take b64 length]. by rewrite <- !app_assoc.
  - destruct (six_at (b2z a) (b2z b)) as (H1 & H2 & _ & _), (six_at (b2z b) 0) as (_ & _ & H3 & _).
    change (char_at [a; b] 0) with (Ret a). change (char_at [a; b] 1) with (Ret b).
    cbn [mbind res_bind]. fold (six1 (b2z a)). rewrite H1. cbn [mbind res_bind].
    put_all. in_data. fold (six2 (b2z a) (b2z b)). rewrite H2. cbn [mbind res_bind]. put_all. in_data. in_data.
    replace (Z.land (Z.shiftl (b2z b) 2) 63) with (six3 (b2z b) 0) by apply Z.lor_0_r. rewrite H3. cbn [mbind res_bind].
    put_all. in_data. put_all. cbn [take b64 length]. rewrite <- !app_assoc. do 2 f_equal. lia.
  - destruct (six_at (b2z a) (b2z b)) as (H1 & H2 & _ & _), (six_at (b2z b) (b2z c)) as (_ & _ & H3 & _),
      (six_at (b2z c) 0) as (_ & _ & _ & H4).
    change (char_at _ 0) with (Ret a). change (char_at _ 1) with (Ret b). change (char_at _ 2) with (Ret c).
    cbn [mbind res_bind]. fold (six1 (b2z a)). rewrite H1. cbn [mbind res_bind].
    put_all. in_data. fold (six2 (b2z a) (b2z b)). rewrite H2. cbn [mbind res_bind]. put_all. in_data. in_data.
    fold (six3 (b2z b) (b2z c)). rewrite H3. cbn [mbind res_bind]. put_all. in_data.
    rewrite (proj2 (proj2 (char_at_three pre _))). change (char_at _ 2) with (Ret c). cbn [mbind res_bind].
    fold (six4 (b2z c)). rewrite H4. cbn [mbind res_bind]. put_all.
    change (take 3 (a :: b :: c :: s)) with [a; b; c]; cbn [b64 length]. rewrite <- !app_assoc. do 2 f_equal. lia.
Qed.

Lemma encode_loop_ok fuel pre s done room :
  (length s <= fuel)%nat -> Z.of_nat (length room) = (Z.of_nat (length s) + 2) / 3 * 4 ->
  encode_loop fuel (pre ++ s) (Z.of_nat (length (pre ++ s))) (Z.of_nat (length pre)) (filled done room) =
    Ret (filled (done ++ b64 s) []).
Proof.
  revert pre s done room. induction fuel as [|fuel IH]; intros pre s done room Hf Hroom.
  { destruct s; [|simpl in Hf; lia]. destruct room; [|cbn [length] in Hroom; change ((Z.of_nat 0 + 2) / 3 * 4) with 0 in Hroom; lia]. cbn [encode_loop]. by rewrite !app_nil_r, Z.ltb_irrefl. }
  destruct s as [|x s].
  { destruct room; [|cbn [length] in Hroom; change ((Z.of_nat 0 + 2) / 3 * 4) with 0 in Hroom; lia]. cbn [encode_loop]. by rewrite !app_nil_r, Z.ltb_irrefl. }
  cbn [encode_loop]. rewrite (proj2 (Z.ltb_lt _ _)) by (rewrite length_app; cbn [length]; lia).
  assert (Hr : exists y1 y2 y3 y4 room', room = y1 :: y2 :: y3 :: y4 :: room').
  { cbn [length] in Hroom. destruct room as [|y1 [|y2 [|y3 [|y4 room]]]]; [..|by eauto 6];
      cbn [length] in Hroom; Z.div_mod_to_equations; lia. }
  destruct Hr as (y1 & y2 & y3 & y4 & room' & ->). rewrite encode_group_ok by done. cbn [mbind res_bind].
  set (g := take 3 (x :: s)).
  assert (Hsplit : x :: s = g ++ drop 3 (x :: s)) by (symmetry; apply take_drop).
  replace (Z.of_nat (length pre) + Z.of_nat (length g)) with (Z.of_nat (length (pre ++ g))) by (rewrite length_app; lia).
  rewrite Hsplit at 1 2. rewrite !app_assoc. rewrite IH.
  - f_equal. f_equal. rewrite <- !app_assoc. f_equal.
    unfold g. destruct s as [|y [|z s]]; [done|done|]. by destruct s.
  - rewrite length_drop. cbn [length] in *. lia.
  - cbn [length] in *. rewrite length_drop. cbn [length].
    destruct (Nat.le_gt_cases (S (length s)) 3) as [Hle|Hgt].
    + replace (S (length s) - 3)%nat with 0%nat by lia. Z.div_mod_to_equations; lia.
    + rewrite Nat2Z.inj_sub by lia. Z.div_mod_to_equations; lia.
Qed.

(** The encoder stays inside its result and fills it. *)
Lemma EncodeFromArray_ok data : EncodeFromArray data (Z.of_nat (length data)) = Ret (b64 data).
Proof.
  unfold EncodeFromArray. set (room := replicate _ x00).
  pose proof (encode_loop_ok (length data) [] data [] room) as H. unfold filled in H. cbn [app length] in H.
  change (Z.of_nat 0) with 0 in H.
  rewrite Nat2Z.id. rewrite H; [|lia|].
  - cbn. by rewrite app_nil_r.
  - unfold room. rewrite length_replicate, Z2Nat.id by (Z.div_mod_to_equations; lia). done.
Qed.

(** ** Decoding what was encoded *)

Definition is_space (c : byte) : Prop := decode_char c = sp.
#[export] Instance is_space_dec c : Decision (is_space c).
Proof. unfold is_space. apply _. Defined.

(** The text without its whitespace. *)
Definition strip (t : list byte) : list byte := filter (fun c => ~ is_space c) t.

(** Facts about single bytes, pairs of bytes and six-bit values, by trying all. *)
Definition all_bytes : list byte := map (fun n => z2b (Z.of_nat n)) (seq 0 256).
Lemma all_bytes_in b : b ∈ all_bytes.
Proof.
  apply list_elem_of_fmap. exists (Z.to_nat (b2z b)). pose proof (b2z_range b). split.
  - rewrite Z2Nat.id by lia. by rewrite z2b_b2z.
  - apply elem_of_seq. lia.
Qed.
Lemma byte_forall (P : byte -> bool) : forallb P all_bytes = true -> forall b, P b = true.
Proof. intros H b. rewrite forallb_forall in H. apply H, list_elem_of_In, all_bytes_in. Qed.
Lemma byte_forall2 (P : byte -> byte -> bool) :
  forallb (fun a => forallb (P a) all_bytes) all_bytes = true -> forall a b, P a b = true.
Proof. intros H a. apply byte_forall. by apply (byte_forall (fun a => forallb (P a) all_bytes)). Qed.

Lemma decode_tc v : 0 <= v < 64 -> decode_char (tc v) = v.
Proof.
  intros Hv. assert (H : forallb (fun n => decode_char (tc (Z.of_nat n)) =? Z.of_nat n) (seq 0 64) = true) by by vm_compute.
  rewrite forallb_forall in H. specialize (H (Z.to_nat v)). rewrite Z2Nat.id in H by lia. apply Z.eqb_eq, H.
  apply in_seq. lia.
Qed.

(** The bytes come back from the six-bit values. *)
Lemma first_byte a b : u8 (Z.lor (Z.shiftl (six1 (b2z a)) 2) (Z.land (Z.shiftr (six2 (b2z a) (b2z b)) 4) 3)) = b2z a.
Proof.
  apply Z.eqb_eq. apply (byte_forall2 (fun a b =>
    u8 (Z.lor (Z.shiftl (six1 (b2z a)) 2) (Z.land (Z.shiftr (six2 (b2z a) (b2z b)) 4) 3)) =? b2z a)). by vm_compute.
Qed.
Lemma second_high a b : Z.land (Z.shiftl (six2 (b2z a) (b2z b)) 4) 240 = Z.shiftl (Z.shiftr (b2z b) 4) 4.
Proof.
  apply Z.eqb_eq. apply (byte_forall2 (fun a b =>
    Z.land (Z.shiftl (six2 (b2z a) (b2z b)) 4) 240 =? Z.shiftl (Z.shiftr (b2z b) 4) 4)). by vm_compute.
Qed.
Lemma second_low b c : Z.land (Z.shiftr (six3 (b2z b) (b2z c)) 2) 15 = Z.land (b2z b) 15.
Proof.
  apply Z.eqb_eq. apply (byte_forall2 (fun b c =>
    Z.land (Z.shiftr (six3 (b2z b) (b2z c)) 2) 15 =? Z.land (b2z b) 15)). by vm_compute.
Qed.
Lemma second_byte b : u8 (Z.lor (Z.shiftl (Z.shiftr (b2z b) 4) 4) (Z.land (b2z b) 15)) = b2z b.
Proof.
  apply Z.eqb_eq. apply (byte_forall (fun b =>
    u8 (Z.lor (Z.shiftl (Z.shiftr (b2z b) 4) 4) (Z.land (b2z b) 15)) =? b2z b)). by vm_compute.
Qed.
Lemma third_byte b c : u8 (Z.lor (Z.land (Z.shiftl (six3 (b2z b) (b2z c)) 6) 192) (six4 (b2z c))) = b2z c.
Proof.
  apply Z.eqb_eq. apply (byte_forall2 (fun b c =>
    u8 (Z.lor (Z.land (Z.shiftl (six3 (b2z b) (b2z c)) 6) 192) (six4 (b2z c))) =? b2z c)). by vm_compute.
Qed.
(** No bits are left over at the end. *)
Lemma rest_one a : u8 (Z.lor (Z.land (Z.shiftl (six2 (b2z a) 0) 4) 240) 0) = 0.
Proof. apply Z.eqb_eq. apply (byte_forall (fun a => u8 (Z.lor (Z.land (Z.shiftl (six2 (b2z a) 0) 4) 240) 0) =? 0)). by vm_compute. Qed.
Lemma rest_two b : u8 (Z.lor (Z.land (Z.shiftl (six3 (b2z b) 0) 6) 192) 0) = 0.
Proof. apply Z.eqb_eq. apply (byte_forall (fun b => u8 (Z.lor (Z.land (Z.shiftl (six3 (b2z b) 0) 6) 192) 0) =? 0)). by vm_compute. Qed.

Lemma group_four a b c :
  group_bytes [six1 (b2z a); six2 (b2z a) (b2z b); six3 (b2z b) (b2z c); six4 (b2z c)] 4 = ([a; b; c], 0).
Proof.
  unfold group_bytes, qb. cbn [lookup list_lookup default from_option Nat.leb app id].
  by rewrite first_byte, second_high, second_low, second_byte, third_byte, !z2b_b2z.
Qed.
Lemma group_three a b : group_bytes [six1 (b2z a); six2 (b2z a) (b2z b); six3 (b2z b) 0; 0] 3 = ([a; b], 0).
Proof.
  unfold group_bytes, qb. cbn [lookup list_lookup default from_option Nat.leb app id].
  pose proof (second_low b x00) as Hlow. change (b2z x00) with 0 in Hlow.
  by rewrite first_byte, second_high, rest_two, Hlow, second_byte, !z2b_b2z.
Qed.
Lemma group_two a : group_bytes [six1 (b2z a); six2 (b2z a) 0; 0; 0] 2 = ([a], 0).
Proof.
  unfold group_bytes, qb. cbn [lookup list_lookup default from_option Nat.leb app id].
  change (Z.land (Z.shiftr 0 2) 15) with 0. pose proof (first_byte a x00) as Hfirst. change (b2z x00) with 0 in Hfirst.
  by rewrite rest_one, Hfirst, z2b_b2z.
Qed.

(** *** Reading through whitespace *)

Lemma strip_all t : strip t = t <-> Forall (fun c => ~ is_space c) t.
Proof.
  unfold strip. induction t as [|c t IH]; [done|]. rewrite filter_cons, Forall_cons. case_decide as Hc.
  - rewrite <- IH. split; [by intros [=]|by intros [_ ->]].
  - split; [|tauto]. intros Hs. pose proof (length_filter (fun c => ~ is_space c) t) as Hl. rewrite Hs in Hl. simpl in Hl. lia.
Qed.

Lemma strip_suffix t t' : t' `suffix_of` t -> strip t = t -> strip t' = t'.
Proof. intros [pre ->]. rewrite !strip_all, Forall_app. tauto. Qed.

Section quantum.
Context (pf : Z) (ip : bool).

(** Whitespace is skipped, or there is none. *)
Definition readable (t : list byte) : Prop := pf = DO_PARSE_STRICT -> strip t = t.

Lemma readable_cons c t : readable (c :: t) -> readable t.
Proof. intros H Hp. apply (strip_suffix (c :: t)); [by exists [c]|auto]. Qed.

Lemma readable_space c t : readable (c :: t) -> is_space c -> pf <> DO_PARSE_STRICT.
Proof. intros H Hc Hp. apply strip_all in H; [|done]. by apply Forall_cons in H as [H _]. Qed.

Lemma special_codes : sp <> il /\ sp <> pd /\ pd <> il /\ decode_char kPad = pd.
Proof. by vm_compute. Qed.

(** A whitespace character only spoils the place the next one goes to. *)
Lemma quantum_space c t bl pl ps buf :
  readable (c :: t) -> is_space c -> (bl < 4)%nat ->
  quantum_loop pf ip (c :: t) bl pl ps buf = quantum_loop pf ip t bl pl ps (<[bl := sp]> buf).
Proof.
  intros Hr Hc Hbl. pose proof (readable_space c t Hr Hc). cbn [quantum_loop]. rewrite (proj2 (Nat.ltb_lt _ _)) by done.
  unfold is_space in Hc. rewrite Hc. change (il =? sp) with false. change (pd =? sp) with false. rewrite andb_false_r.
  cbn [orb]. rewrite Z.eqb_refl. by rewrite (proj2 (Z.eqb_neq _ _)).
Qed.

(** The next character of the stripped text is a digit. *)
Lemma quantum_digit v x t bl ps buf :
  readable t -> strip t = tc v :: x -> 0 <= v < 64 -> (bl < 4)%nat ->
  exists t', strip t' = x /\ readable t' /\ (length t' < length t)%nat /\ t' `suffix_of` t /\
    quantum_loop pf ip t bl 0 ps buf = quantum_loop pf ip t' (S bl) 0 ps (<[bl := v]> buf).
Proof.
  intros Hr Hs Hv Hbl. revert buf. induction t as [|c t IH]; intros buf; [done|]. pose proof (readable_cons c t Hr) as Hr'.
  unfold strip in Hs. rewrite filter_cons in Hs. destruct (decide (is_space c)) as [Hc|Hc].
  - rewrite decide_False in Hs by tauto. destruct (IH Hr' Hs (<[bl := sp]> buf)) as (t' & Hx & Hrt & Hl & Hsf & Hq).
    exists t'. rewrite quantum_space, Hq, list_insert_insert_eq by done. simpl. repeat split; [done|done|lia|by apply suffix_cons_r].
  - rewrite decide_True in Hs by done. injection Hs as -> Hs. exists t. repeat split; [done|done|simpl; lia|by exists [tc v]|].
    cbn [quantum_loop]. rewrite (proj2 (Nat.ltb_lt _ _)) by done. rewrite decode_tc by done.
    assert (Hne : (il =? v) = false /\ (pd =? v) = false /\ (sp =? v) = false).
    { unfold il, pd, sp. split; [|split]; apply Z.eqb_neq; lia. }
    destruct Hne as (-> & -> & ->). by rewrite andb_false_r.
Qed.

(** Padding that may be there. *)
Lemma quantum_pad x t bl pl ps buf :
  readable t -> strip t = kPad :: x -> ip = false -> (2 <= bl)%nat -> (bl + pl < 4)%nat ->
  exists t' ps' buf', strip t' = x /\ readable t' /\ (length t' < length t)%nat /\ take bl buf' = take bl buf /\
    quantum_loop pf ip t bl pl ps buf = quantum_loop pf ip t' bl (S pl) ps' buf'.
Proof.
  intros Hr Hs Hip Hbl Hpl. revert buf. induction t as [|c t IH]; intros buf; [done|]. pose proof (readable_cons c t Hr) as Hr'.
  unfold strip in Hs. rewrite filter_cons in Hs. destruct (decide (is_space c)) as [Hc|Hc].
  - rewrite decide_False in Hs by tauto. destruct (IH Hr' Hs (<[bl := sp]> buf)) as (t' & ps' & buf' & Hx & Hrt & Hl & Htk & Hq).
    exists t', ps', buf'. rewrite quantum_space, Hq by (done || lia). rewrite Htk, take_insert_ge by lia. simpl. repeat split; [done|done|lia].
  - rewrite decide_True in Hs by done. injection Hs as -> Hs.
    eexists t, _, (<[bl := pd]> buf). split; [done|]. split; [done|]. split; [simpl; lia|]. split; [by rewrite take_insert_ge by lia|].
    cbn [quantum_loop]. rewrite (proj2 (Nat.ltb_lt _ _)) by lia. change (decode_char kPad) with pd. rewrite Hip.
    change (il =? pd) with false. change (sp =? pd) with false. cbn [andb orb]. rewrite Z.eqb_refl.
    rewrite (proj2 (Nat.ltb_ge _ _)) by lia. rewrite (proj2 (Nat.leb_gt _ _)) by lia. done.
Qed.

(** Nothing but whitespace is left. *)
Lemma quantum_rest t bl pl ps buf :
  readable t -> strip t = [] -> (bl < 4)%nat ->
  exists buf', take bl buf' = take bl buf /\ quantum_loop pf ip t bl pl ps buf = MkQuantum [] bl pl ps buf'.
Proof.
  intros Hr Hs Hbl. revert buf. induction t as [|c t IH]; intros buf; [by exists buf|].
  unfold strip in Hs. rewrite filter_cons in Hs. destruct (decide (is_space c)) as [Hc|Hc].
  - rewrite decide_False in Hs by tauto. destruct (IH (readable_cons c t Hr) Hs (<[bl := sp]> buf)) as (buf' & Htk & Hq).
    exists buf'. rewrite quantum_space, Hq, Htk, take_insert_ge by (done || lia). done.
  - by rewrite decide_True in Hs.
Qed.

Lemma quantum_full t pl ps buf : quantum_loop pf ip t 4 pl ps buf = MkQuantum t 4 pl ps buf.
Proof. by destruct t. Qed.

(** One character of the text in front of the loop. *)
Ltac digit Hr Hs Hv t' Hs' Hr' Hl' :=
  let Hsf := fresh "Hsf" in
  lazymatch goal with
  | |- context [quantum_loop _ _ ?t ?bl O ?ps ?buf] =>
      destruct (quantum_digit _ _ t bl ps buf Hr Hs Hv ltac:(lia)) as (t' & Hs' & Hr' & Hl' & Hsf & ->)
  end.
Ltac pad Hr Hs Hip t' ps' buf' Hs' Hr' Hl' Htk' :=
  lazymatch goal with
  | |- context [quantum_loop _ _ ?t ?bl ?pl ?ps ?buf] =>
      destruct (quantum_pad _ t bl pl ps buf Hr Hs Hip ltac:(lia) ltac:(lia)) as (t' & ps' & buf' & Hs' & Hr' & Hl' & Htk' & ->)
  end.

Lemma next_four v1 v2 v3 v4 x t :
  readable t -> strip t = tc v1 :: tc v2 :: tc v3 :: tc v4 :: x ->
  0 <= v1 < 64 -> 0 <= v2 < 64 -> 0 <= v3 < 64 -> 0 <= v4 < 64 ->
  exists t', strip t' = x /\ readable t' /\ (length t' < length t)%nat /\ t' `suffix_of` t /\
    GetNextQuantum pf ip t = (t', [v1; v2; v3; v4], true, 4%nat).
Proof.
  intros Hr Hs H1 H2 H3 H4. unfold GetNextQuantum.
  digit Hr Hs H1 t1 Hs1 Hr1 Hl1.
  digit Hr1 Hs1 H2 t2 Hs2 Hr2 Hl2.
  digit Hr2 Hs2 H3 t3 Hs3 Hr3 Hl3.
  digit Hr3 Hs3 H4 t4 Hs4 Hr4 Hl4.
  exists t4. split; [done|]. split; [done|]. split; [lia|]. split; [|by rewrite quantum_full].
  by repeat (etrans; [eassumption|]).
Qed.

Lemma next_three v1 v2 v3 t :
  readable t -> strip t = [tc v1; tc v2; tc v3; kPad] -> ip = false ->
  0 <= v1 < 64 -> 0 <= v2 < 64 -> 0 <= v3 < 64 ->
  GetNextQuantum pf ip t = ([], [v1; v2; v3; 0], true, 3%nat).
Proof.
  intros Hr Hs Hip H1 H2 H3. unfold GetNextQuantum.
  digit Hr Hs H1 t1 Hs1 Hr1 Hl1.
  digit Hr1 Hs1 H2 t2 Hs2 Hr2 Hl2.
  digit Hr2 Hs2 H3 t3 Hs3 Hr3 Hl3.
  pad Hr3 Hs3 Hip t4 ps buf Hs4 Hr4 Hl4 Htk.
  edestruct (quantum_rest t4 3 1 ps buf Hr4 Hs4) as (buf' & Htk' & ->); [lia|].
  cbn [byte_len pad_len q_data pad_start qbuf Nat.add Nat.eqb Nat.sub]. by rewrite Htk', Htk.
Qed.

Lemma next_two v1 v2 t :
  readable t -> strip t = [tc v1; tc v2; kPad; kPad] -> ip = false ->
  0 <= v1 < 64 -> 0 <= v2 < 64 ->
  GetNextQuantum pf ip t = ([], [v1; v2; 0; 0], true, 2%nat).
Proof.
  intros Hr Hs Hip H1 H2. unfold GetNextQuantum.
  digit Hr Hs H1 t1 Hs1 Hr1 Hl1.
  digit Hr1 Hs1 H2 t2 Hs2 Hr2 Hl2.
  pad Hr2 Hs2 Hip t3 ps buf Hs3 Hr3 Hl3 Htk.
  pad Hr3 Hs3 Hip t4 ps4 buf4 Hs4 Hr4 Hl4 Htk4.
  edestruct (quantum_rest t4 2 2 ps4 buf4 Hr4 Hs4) as (buf' & Htk' & ->); [lia|].
  cbn [byte_len pad_len q_data pad_start qbuf Nat.add Nat.eqb Nat.sub]. by rewrite Htk', Htk4, Htk.
Qed.

Lemma next_none t : readable t -> strip t = [] -> GetNextQuantum pf ip t = ([], [0; 0; 0; 0], false, 0%nat).
Proof.
  intros Hr Hs. unfold GetNextQuantum. destruct (quantum_rest t 0 0 [] (replicate 4 0) Hr Hs) as (buf & _ & ->); [lia|]. done.
Qed.
End quantum.

(** *** The whole text *)

(** Whitespace behind the last group is a group of its own, without padding. *)
Definition ends_clean (t : list byte) : Prop := match last t with Some c => ~ is_space c | None => True end.

(** The bytes fill their groups of four characters. *)
Definition whole (data : list byte) : Prop := (length data mod 3 = 0)%nat.

(** What the flags ask for: with padding required, no whitespace behind a last
    group that is full; with padding forbidden, none. *)
Record fits_flags (flags : Z) (data t : list byte) : Prop := {
  fit_strict : readable (Z.land flags DO_PARSE_MASK) t;
  fit_pad_yes : Z.land flags DO_PAD_MASK = DO_PAD_YES -> whole data -> ends_clean t;
  fit_pad_no : Z.land flags DO_PAD_MASK = DO_PAD_NO -> whole data;
}.

Lemma whole_triple a b c data : whole (a :: b :: c :: data) <-> whole data.
Proof. unfold whole. cbn [length]. replace (S (S (S (length data)))) with (length data + 1 * 3)%nat by lia. by rewrite Nat.Div0.mod_add. Qed.

Lemma ends_clean_suffix t t' : t' `suffix_of` t -> ends_clean t -> ends_clean t'.
Proof.
  intros [pre ->]. unfold ends_clean. destruct t' as [|c t'] using rev_ind; [done|]. by rewrite app_assoc, !last_snoc.
Qed.

Lemma ends_clean_spaces t : ends_clean t -> strip t = [] -> t = [].
Proof.
  intros Hc Hs. destruct t as [|c t _] using rev_ind; [done|]. exfalso. unfold ends_clean in Hc. rewrite last_snoc in Hc.
  unfold strip in Hs. rewrite filter_app, filter_cons_True in Hs by done. by destruct (filter _ t).
Qed.

Lemma decode_round fuel flags t rest buf padded qlen result :
  t <> [] -> GetNextQuantum (Z.land flags DO_PARSE_MASK) (DO_PAD_NO =? Z.land flags DO_PAD_MASK) t = (rest, buf, padded, qlen) ->
  (snd (group_bytes buf qlen) = 0) -> (padded = true \/ Z.land flags DO_PAD_MASK <> DO_PAD_YES) ->
  decode_loop (S fuel) flags t result true =
    if (qlen <? 4)%nat then Ret (rest, result ++ fst (group_bytes buf qlen), true)
    else decode_loop fuel flags rest (result ++ fst (group_bytes buf qlen)) true.
Proof.
  intros Hne Hq Hc Hp. destruct t as [|c t]; [done|]. cbn [decode_loop]. rewrite Hq.
  destruct (group_bytes buf qlen) as [out left_]. cbn [fst snd] in *. subst left_. destruct (qlen <? 4)%nat; [|done].
  rewrite Z.eqb_refl, andb_false_r.
  destruct Hp as [-> | Hp]; [by rewrite andb_false_r|]. by rewrite (proj2 (Z.eqb_neq _ _)) by done.
Qed.

Lemma strip_nonempty t x l : strip t = x :: l -> t <> [].
Proof. by intros Hs ->. Qed.

Lemma decode_loop_ok fuel flags data t result :
  fits_flags flags data t -> strip t = b64 data -> (length t < fuel)%nat ->
  decode_loop fuel flags t result true = Ret ([], result ++ data, true).
Proof.
  assert (Hno : (Z.land flags DO_PAD_MASK = DO_PAD_NO -> False) -> (DO_PAD_NO =? Z.land flags DO_PAD_MASK) = false)
    by (intros Hp; apply Z.eqb_neq; congruence).
  revert t result fuel. induction data as [|a|a b|a b c data IH] using triple_ind;
    intros t result fuel [Hr Hy Hn] Hs Hf; (destruct fuel as [|fuel]; [lia|]).
  - destruct (decide (t = [])) as [->|Hne]; [by rewrite app_nil_r|].
    erewrite decode_round; [|done|by apply next_none|done|right]; [done|]. intros Hp. apply Hne, ends_clean_spaces; [by apply Hy|done].
  - destruct (six_range (b2z a) 0) as (H1 & H2 & _ & _). specialize (Hno (fun H => ltac:(by apply Hn in H))).
    erewrite decode_round; [|by eapply strip_nonempty|by apply next_two|by rewrite group_two|by left]. by rewrite group_two.
  - destruct (six_range (b2z a) (b2z b)) as (H1 & H2 & _ & _), (six_range (b2z b) 0) as (_ & _ & H3 & _).
    specialize (Hno (fun H => ltac:(by apply Hn in H))).
    erewrite decode_round; [|by eapply strip_nonempty|by apply next_three|by rewrite group_three|by left]. by rewrite group_three.
  - destruct (six_range (b2z a) (b2z b)) as (H1 & H2 & _ & _), (six_range (b2z b) (b2z c)) as (_ & _ & H3 & _),
      (six_range (b2z c) 0) as (_ & _ & _ & H4).
    destruct (next_four _ (DO_PAD_NO =? Z.land flags DO_PAD_MASK) _ _ _ _ _ t Hr Hs H1 H2 H3 H4) as (t' & Hs' & Hr' & Hl & Hsf & Hq).
    rewrite (decode_round _ _ _ _ _ _ _ _ (strip_nonempty _ _ _ Hs) Hq (f_equal snd (group_four a b c)) (or_introl eq_refl)).
    rewrite group_four. cbn [Nat.ltb Nat.leb fst]. rewrite IH; [by rewrite <- app_assoc| |done|lia].
    split; [done| |]; rewrite whole_triple in *; [|done]. intros Hp Hw. by apply (ends_clean_suffix t), Hy.
Qed.

(** *** Every text is decoded in finitely many rounds *)

Lemma quantum_consumes pf ip t bl pl ps buf :
  (bl < 4)%nat -> let q := quantum_loop pf ip t bl pl ps buf in
  (length (q_data q) + byte_len q <= length t + bl)%nat /\ (byte_len q <= 4)%nat /\ (byte_len q = 4%nat -> pad_len q = 0%nat).
Proof.
  revert bl pl ps buf. induction t as [|c t IH]; intros bl pl ps buf Hbl; cbn [quantum_loop].
  { cbn. lia. }
  rewrite (proj2 (Nat.ltb_lt _ _)) by done. cbv zeta.
  repeat match goal with
  | |- context [if ?b then MkQuantum _ _ _ _ _ else _] => destruct b; [cbn; lia|]
  | |- context [if _ =? _ then if _ then _ else _ else _] => destruct (_ =? _)
  | |- context [if ?b then _ else _] => destruct b
  end; try (cbn; lia);
  try (match goal with |- context [quantum_loop _ _ t bl ?pl ?ps ?buf] => destruct (IH bl pl ps buf Hbl) end; cbn [length]; split; [lia|done]).
  all: destruct (Nat.eq_dec bl 3%nat) as [->|]; [rewrite quantum_full; cbn; lia|].
  all: destruct (IH (S bl) 0%nat ps (<[bl := decode_char c]> buf)) as [H1 H2]; [lia|]; cbn [length]; split; [lia|done].
Qed.

(** A group of four makes the text shorter. *)
Lemma next_shorter pf ip t rest buf padded qlen :
  GetNextQuantum pf ip t = (rest, buf, padded, qlen) -> (4 <= qlen)%nat -> (length rest + 4 <= length t)%nat.
Proof.
  unfold GetNextQuantum. destruct (quantum_consumes pf ip t 0 0 [] (replicate 4 0)) as (Hlen & Hle & Hpad); [lia|].
  set (q := quantum_loop pf ip t 0 0 [] _) in *. intros Hq Hfour.
  assert (byte_len q = qlen) as Hb by (destruct (_ =? _)%nat in Hq; by injection Hq).
  rewrite Hb in *. assert (qlen = 4%nat) as -> by lia. rewrite Hpad in Hq by done. injection Hq as <- _ _. lia.
Qed.

Lemma decode_loop_total fuel flags t result success :
  (length t < fuel)%nat -> exists r, decode_loop fuel flags t result success = Ret r.
Proof.
  revert t result success. induction fuel as [|fuel IH]; intros t result success Hf; [lia|].
  destruct t as [|c t]; [by eexists|]. cbn [decode_loop].
  destruct (GetNextQuantum _ _ _) as [[[rest buf] padded] qlen] eqn:Hq. destruct (group_bytes buf qlen) as [out c0].
  destruct (Nat.ltb_spec qlen 4) as [|Hfour]; [by eexists|]. apply IH.
  pose proof (next_shorter _ _ _ _ _ _ _ Hq Hfour). cbn [length] in *. lia.
Qed.

(** C37: every text that consists of the encoding of some bytes and whitespace is
    decoded to those bytes, completely and with success, under all flags that
    allow such a text: the strict mode allows no whitespace, the others allow it
    anywhere; DO_PAD_YES allows none behind a last group without padding (it is
    taken for a group that lacks its padding, [required_padding]), and DO_PAD_NO
    only the encodings that need no padding ([forbidden_padding]).  The encoder
    fills exactly the string it allocates, and the decoder ends on every text. *)
Theorem base64_roundtrip data :
  exists e, EncodeFromArray data (Z.of_nat (length data)) = Ret e /\
    Z.of_nat (length e) = (Z.of_nat (length data) + 2) / 3 * 4 /\
    forall t flags,
      (exists r, DecodeFromArray t flags = Ret r) /\
      (strip t = e ->
       (Z.land flags DO_PARSE_MASK = DO_PARSE_STRICT -> t = e) ->
       (Z.land flags DO_PAD_MASK = DO_PAD_YES -> (length data mod 3 = 0)%nat -> ends_clean t) ->
       (Z.land flags DO_PAD_MASK = DO_PAD_NO -> (length data mod 3 = 0)%nat) ->
       DecodeFromArray t flags = Ret (data, true, length t)).
Proof.
  exists (b64 data). split; [apply EncodeFromArray_ok|]. split; [apply length_b64|]. intros t flags. unfold DecodeFromArray. split.
  - destruct (decode_loop_total (S (length t)) flags t [] true) as [[[rest result] success] Hr]; [lia|]. rewrite Hr. by eexists.
  - intros Hs Hstrict Hyes Hno. rewrite (decode_loop_ok _ flags data t []); [| |done|lia].
    + cbn. rewrite andb_false_r. by rewrite Nat.sub_0_r.
    + split; [|done..]. intros Hp. rewrite Hs. symmetry. auto.
Qed.

(** Whitespace behind a full last group, with padding required; and a padded text
    where padding is forbidden. *)
Example required_padding :
  DecodeFromArray (string_bytes "AP8Q ") (DO_PARSE_WHITE + DO_PAD_YES + DO_TERM_BUFFER) = Ret ([x00; xff; x10], false, 5%nat) /\
  DecodeFromArray (string_bytes "AP 8Q") (DO_PARSE_WHITE + DO_PAD_YES + DO_TERM_BUFFER) = Ret ([x00; xff; x10], true, 5%nat).
Proof. vm_compute. by split. Qed.
Example forbidden_padding :
  DecodeFromArray (string_bytes "g34=") (DO_PARSE_STRICT + DO_PAD_NO + DO_TERM_BUFFER) = Ret ([x83; x7e], false, 3%nat).
Proof. vm_compute. reflexivity. Qed.

(** *** PEM texts *)

Lemma starts_with_app needle s : starts_with (needle ++ s) needle = true.
Proof. unfold starts_with. rewrite take_app_length. by apply bool_decide_true. Qed.

Lemma find_here needle s : find needle (needle ++ s) = Some 0%nat.
Proof. destruct needle as [|x needle]; [by destruct s|]. cbn [app find]. change (x :: needle ++ s) with ((x :: needle) ++ s). by rewrite starts_with_app. Qed.

(** Characters other than the first one of the needle are passed. *)
Lemma find_skip n needle l s :
  Forall (fun c => c <> n) l -> find (n :: needle) (l ++ s) = k ← find (n :: needle) s; Some (length l + k)%nat.
Proof.
  induction 1 as [|c l Hc _ IH]; cbn [app length]; [by destruct (find _ s)|].
  cbn [find]. rewrite IH. assert (starts_with (c :: l ++ s) (n :: needle) = false) as ->.
  { apply bool_decide_false. cbn. congruence. }
  by destruct (find _ s).
Qed.

(** A type that can be found again: one line, no dashes. *)
Definition pem_name (t : list byte) : Prop := Forall (fun c => c <> x2d /\ c <> x0a) t.

Lemma b64_chars data : Forall (fun c => c <> x2d /\ c <> x0a /\ ~ is_space c) (b64 data).
Proof.
  assert (Htc : forall v, 0 <= v < 64 -> tc v <> x2d /\ tc v <> x0a /\ ~ is_space (tc v)).
  { intros v Hv. split; [|split]; intros Hx; unfold is_space in *; pose proof (decode_tc v Hv) as Hd;
      [rewrite Hx in Hd|rewrite Hx in Hd|rewrite Hd in Hx]; vm_compute in Hd; unfold sp in *; lia. }
  assert (Hpad : kPad <> x2d /\ kPad <> x0a /\ ~ is_space kPad) by (split; [|split]; by vm_compute).
  induction data as [|a|a b|a b c data IH] using triple_ind; cbn [b64]; rewrite ?Forall_cons; repeat (split; [try done|]);
    try done; apply Htc.
  all: first [ pose proof (six_range (b2z a) 0); lia | pose proof (six_range (b2z a) (b2z b)); lia
             | pose proof (six_range (b2z b) 0); lia | pose proof (six_range (b2z b) (b2z c)); lia
             | pose proof (six_range (b2z c) 0); lia ].
Qed.

(** Lines of 64 characters. *)
Lemma pem_chunks_ok chunks l (off : Z) :
  0 <= off -> (chunks = 0%nat \/ off <= Z.of_nat (length l)) -> Z.of_nat (length l) <= off + Z.of_nat chunks * 64 ->
  (forall k, (k < chunks)%nat -> off + Z.of_nat k * 64 <= Z.of_nat (length l)) ->
  exists body, pem_chunks chunks l off = Ret body /\ filter (fun c => c <> x0a) body = filter (fun c => c <> x0a) (drop (Z.to_nat off) l) /\
    Forall (fun c => c = x0a \/ c ∈ l) body /\ (length body <= 65 * chunks)%nat.
Proof.
  revert off. induction chunks as [|chunks IH]; intros off Hoff _ Hcover Hin; cbn [pem_chunks].
  { exists []. split; [done|]. rewrite drop_ge by lia. split; [done|]. split; [done|simpl; lia]. }
  specialize (Hin 0%nat ltac:(lia)) as H0. unfold substr. destruct (Z.ltb_spec (Z.of_nat (length l)) off); [lia|]. cbn [mbind res_bind].
  destruct (IH (off + kChunkSize)) as (body & -> & Hb & Hf & Hlen); unfold kChunkSize in *.
  - lia.
  - destruct chunks; [by left|]. right. specialize (Hin 1%nat ltac:(lia)). lia.
  - lia.
  - intros k Hk. specialize (Hin (S k) ltac:(lia)). lia.
  - cbn [mbind res_bind]. rewrite u64_small by lia. eexists. split; [reflexivity|]. split.
    + rewrite !filter_app, Hb. pose proof (take_drop (Z.to_nat 64) (drop (Z.to_nat off) l)) as Htd.
      rewrite <- Htd at 2. rewrite filter_app, drop_drop. cbn [app]. rewrite filter_cons, decide_False by tauto. rewrite filter_nil, app_nil_l. do 3 f_equal. lia.
    + split; [|rewrite !length_app, length_take; cbn [length]; lia].
      apply Forall_app. split; [|apply Forall_cons; split; [by left|done]].
      apply Forall_forall. intros c Hc. right. 
      apply elem_of_take in Hc as (i & Hi & _). rewrite lookup_drop in Hi. by eapply list_elem_of_lookup_2.
Qed.

(** A place where the first six characters differ is passed. *)
Definition dashes_E : list byte := string_bytes "-----E".
Lemma find_miss rest c s :
  take 6 (c :: s) <> dashes_E -> find (dashes_E ++ rest) (c :: s) = k ← find (dashes_E ++ rest) s; Some (S k).
Proof.
  intros Hne. cbn [find]. assert (starts_with (c :: s) (dashes_E ++ rest) = false) as ->; [|done].
  apply bool_decide_false. intros Ht. apply Hne. apply (f_equal (take 6)) in Ht.
  rewrite take_take, length_app in Ht. by change (length dashes_E) with 6%nat in Ht.
Qed.

Lemma find_dashes rest c s :
  c <> x2d -> c <> x45 ->
  find (dashes_E ++ rest) (string_bytes "-----" ++ c :: s) = k ← find (dashes_E ++ rest) (c :: s); Some (5 + k)%nat.
Proof.
  intros H1 H2. change (string_bytes "-----" ++ c :: s) with (x2d :: x2d :: x2d :: x2d :: x2d :: c :: s).
  rewrite !find_miss by (cbn; congruence). by destruct (find _ _).
Qed.

Lemma end_line_eq t : end_line t = dashes_E ++ string_bytes "ND " ++ t ++ string_bytes "-----".
Proof. done. Qed.

(** The first line between its dashes. *)
Definition begin_name (t : list byte) : list byte := string_bytes "EGIN " ++ t.
Lemma begin_line_eq t : begin_line t = string_bytes "-----" ++ (x42 :: begin_name t) ++ string_bytes "-----".
Proof. done. Qed.

Lemma find_trailer t body rest :
  pem_name t -> Forall (fun c => c <> x2d) body ->
  find (end_line t) (begin_line t ++ [x0a] ++ body ++ end_line t ++ rest) =
    Some (length (begin_line t) + 1 + length body)%nat.
Proof.
  intros Ht Hb. assert (Hskip : forall l s, Forall (fun c => c <> x2d) l ->
    find (end_line t) (l ++ s) = k ← find (end_line t) s; Some (length l + k)%nat).
  { intros l s Hl. by apply find_skip. }
  assert (Hname : Forall (fun c => c <> x2d) (x42 :: begin_name t)).
  { apply Forall_cons. split; [done|]. apply Forall_app. split; [by repeat constructor|].
    eapply Forall_impl; [exact Ht|]. by intros c []. }
  assert (Hdash : forall c s, c <> x2d -> c <> x45 ->
    find (end_line t) (string_bytes "-----" ++ c :: s) = k ← find (end_line t) (c :: s); Some (5 + k)%nat).
  { intros c s. rewrite end_line_eq. apply find_dashes. }
  rewrite begin_line_eq, <- !app_assoc. rewrite <- app_comm_cons, Hdash, app_comm_cons, Hskip by done.
  rewrite <- app_comm_cons, app_nil_l, Hdash, app_comm_cons by done.
  rewrite (Hskip (x0a :: body)) by (by apply Forall_cons). rewrite find_here. cbn [mbind option_bind].
  f_equal. rewrite !length_app. cbn [length]. change (length (string_bytes "-----")) with 5%nat. lia.
Qed.

(** The PEM text of some bytes, in lines of 64 characters between the first
    and the last line of its type, is read back to those bytes. *)
Theorem pem_roundtrip t der :
  pem_name t -> Z.of_nat (length der) < 2 ^ 40 ->
  exists pem, DerToPem t der (Z.of_nat (length der)) = Ret pem /\ PemToDer t pem = Ret (Some der).
Proof.
  intros Ht Hlen. unfold DerToPem. rewrite EncodeFromArray_ok. cbn [mbind res_bind]. unfold kChunkSize.
  set (n := (Z.of_nat (length (b64 der)) + (64 - 1)) / 64).
  assert (Hn : 0 <= n /\ Z.of_nat (length (b64 der)) <= n * 64 /\ n * 64 <= Z.of_nat (length (b64 der)) + 63)
    by (subst n; Z.div_mod_to_equations; lia).
  destruct (pem_chunks_ok (Z.to_nat n) (b64 der) 0) as (body & -> & Hbody & Hchars & Hsize); [lia|right; lia|lia|lia|].
  cbn [mbind res_bind]. eexists. split; [reflexivity|].
  pose proof (b64_chars der) as Hb64.
  pose proof (length_b64 der) as Hsize64. assert (Z.of_nat (length body) < 2 ^ 50) by (Z.div_mod_to_equations; lia).
  assert (Hnodash : Forall (fun c => c <> x2d) body).
  { eapply Forall_impl; [exact Hchars|]. intros c [-> | Hc]; [done|]. by apply (proj1 (Forall_forall _ _) Hb64 c Hc). }
  assert (Hstrip : strip body = b64 der).
  { unfold strip. rewrite <- (filter_absorb _ (fun c => c <> x0a) body) by (intros c Hc ->; by apply Hc).
    rewrite Hbody, filter_absorb by (intros c Hc ->; by apply Hc). change (Z.to_nat 0) with 0%nat. rewrite drop_0.
    apply strip_all. eapply Forall_impl; [exact Hb64|]. tauto. }
  unfold PemToDer, find_at. rewrite drop_0, find_here. cbn [mbind option_bind Nat.add]. rewrite drop_0.
  assert (Hfirst : Forall (fun c => c <> x0a) (begin_line t)).
  { rewrite begin_line_eq. apply Forall_app. split; [by repeat constructor|]. apply Forall_app.
    split; [|by repeat constructor]. apply Forall_cons. split; [done|]. apply Forall_app.
    split; [by repeat constructor|]. eapply Forall_impl; [exact Ht|]. tauto. }
  rewrite find_skip, find_here by done. cbn [mbind option_bind]. rewrite find_trailer by done. cbn [mbind option_bind].
  set (h := length (begin_line t)). unfold substr. rewrite !length_app. cbn [length]. fold h.
  rewrite (proj2 (Z.ltb_ge _ _)) by lia. cbn [mbind res_bind].
  rewrite u64_small by lia.
  replace (Z.to_nat (Z.of_nat (h + 1 + length body) - (Z.of_nat (h + 0) + 1))) with (length body) by lia.
  replace (Z.to_nat (Z.of_nat (h + 0) + 1)) with (length (begin_line t ++ [x0a])) by (rewrite length_app; unfold h; simpl; lia).
  rewrite (app_assoc (begin_line t)), drop_app_length, take_app_length.
  unfold Decode, DecodeFromArray. rewrite (decode_loop_ok _ _ der body []); [done|..].
  - split; intros Hp; vm_compute in Hp; discriminate Hp.
  - done.
  - lia.
Qed.

(** Five bytes, with line breaks in the text, also with padding required; and
    three, without padding. *)
Lemma base64_roundtrip_witness :
  (exists e, EncodeFromArray [x00; xff; x10; x83; x7e] 5 = Ret e /\ Z.of_nat (length e) = 8 /\
    DecodeFromArray (string_bytes "AP8Q g34=" ++ [x0a]) (DO_PARSE_WHITE + DO_PAD_YES + DO_TERM_BUFFER) =
      Ret ([x00; xff; x10; x83; x7e], true, 10%nat) /\
    DecodeFromArray (string_bytes "AP8Qg34=") (DO_PARSE_STRICT + DO_PAD_YES + DO_TERM_BUFFER) =
      Ret ([x00; xff; x10; x83; x7e], true, 8%nat)) /\
  DecodeFromArray (string_bytes "AP8Q") (DO_PARSE_STRICT + DO_PAD_NO + DO_TERM_BUFFER) = Ret ([x00; xff; x10], true, 4%nat).
Proof.
  split.
  - destruct (base64_roundtrip [x00; xff; x10; x83; x7e]) as (e & He & Hl & Hd). exists e.
    split; [exact He|]. split; [exact Hl|]. vm_compute in He. injection He as <-. split.
    + refine (proj2 (Hd _ _) _ _ _ _); [by vm_compute|intros H; vm_compute in H; discriminate H|intros _ H; vm_compute in H; discriminate H|intros H; vm_compute in H; discriminate H].
    + refine (proj2 (Hd _ _) _ _ _ _); [by vm_compute|done|intros _ H; vm_compute in H; discriminate H|intros H; vm_compute in H; discriminate H].
  - destruct (base64_roundtrip [x00; xff; x10]) as (e & He & _ & Hd). vm_compute in He. injection He as <-.
    refine (proj2 (Hd _ _) _ _ _ _); [by vm_compute|done|intros H; vm_compute in H; discriminate H|done].
Defined.

Lemma pem_roundtrip_witness :
  exists pem, DerToPem (string_bytes "CERTIFICATE") [x30; x03; x02; x01; x05] 5 = Ret pem /\
    PemToDer (string_bytes "CERTIFICATE") pem = Ret (Some [x30; x03; x02; x01; x05]).
Proof. apply (pem_roundtrip (string_bytes "CERTIFICATE") [x30; x03; x02; x01; x05]); [by repeat constructor|done]. Defined.
