(* ===== verification/SdsText.v ===== *)
(** * [rtc_base/sds.cc]: printing into strings, quoting, splitting a line

    [sdscatrepr] quotes a byte string and [sdssplitargs] cuts a line into its
    (possibly quoted) arguments; a line is the bytes from the pointer on, its
    terminator included, so that every look ahead is checked.  The formatted
    output of [vsnprintf] is an argument of [sdscatvprintf]. *)

From S2P Require Import Prelude Sds CLib.
#[local] Open Scope Z_scope.
#[local] Open Scope xrtc_scope.

(** ** Characters *)

Definition is_hex_digit (c : Z) : bool :=
  ((48 <=? c) && (c <=? 57)) || ((97 <=? c) && (c <=? 102)) || ((65 <=? c) && (c <=? 70)).

Definition hex_digit_to_int (c : Z) : Z :=
  if (48 <=? c) && (c <=? 57) then c - 48
  else if (97 <=? c) && (c <=? 102) then c - 87
  else if (65 <=? c) && (c <=? 70) then c - 55
  else 0.

(** ["%02x"] of an [unsigned char]. *)
Definition hex_digit (n : Z) : byte := z2b (if n <? 10 then n + 48 else n + 87).
Definition printf_02x (c : byte) : list byte := [hex_digit (b2z c / 16); hex_digit (b2z c mod 16)].

Section text.
Context (junk : nat -> byte) (malloc_ok : Z -> bool).

(** ** Formatted output *)

Definition zmalloc_bytes (n : Z) : res (list byte) :=
  if negb (malloc_ok n) then Abort else Ret (fresh_bytes junk 0 (Z.to_nat n)).

(** [vsnprintf(buf, n, fmt, ap)] when the whole text is [out]. *)
Definition vsnprintf (buf out : list byte) (n : Z) : res (list byte) :=
  store buf 0 (take (Z.to_nat (n - 1)) out ++ [x00]).

(** The loop that doubles the buffer until the text leaves room in it. *)
Fixpoint vprintf_loop (fuel : nat) (out : list byte) (buflen : Z) : res (list byte) :=
  match fuel with
  | O => OutOfFuel
  | S fuel =>
      buf ← zmalloc_bytes buflen;
      buf ← set_char buf (buflen - 2) x00;
      buf ← vsnprintf buf out buflen;
      c ← char_at buf (buflen - 2);
      if decide (c = x00) then Ret buf else vprintf_loop fuel out (u64 (buflen * 2))
  end.

(** [buflen] starts at 16: after 60 rounds it has left [size_t]. *)
Definition sdscatvprintf (s : sdshdr) (out : list byte) : res sdshdr :=
  buf ← vprintf_loop 60 out 16; sdscat junk malloc_ok s buf.

Definition sdscatprintf (s : sdshdr) (out : list byte) : res sdshdr := sdscatvprintf s out.

(** ** Quoting *)

(** The body of the [switch]. *)
Definition repr_char (s : sdshdr) (c : byte) : res sdshdr :=
  match c with
  | x5c | x22 => sdscatprintf s [x5c; c]
  | x0a => sdscatlen junk malloc_ok s [x5c; x6e] 2
  | x0d => sdscatlen junk malloc_ok s [x5c; x72] 2
  | x09 => sdscatlen junk malloc_ok s [x5c; x74] 2
  | x07 => sdscatlen junk malloc_ok s [x5c; x61] 2
  | x08 => sdscatlen junk malloc_ok s [x5c; x62] 2
  | _ =>
      p ← isprint (schar c);
      if (p : bool) then sdscatprintf s [c] else sdscatprintf s ([x5c; x78] ++ printf_02x c)
  end.

(** [while (len--) { ... p++; }]. *)
Fixpoint repr_chars (s : sdshdr) (p : list byte) (len : nat) {struct len} : res sdshdr :=
  match len with
  | O => Ret s
  | S len =>
      match p with
      | [] => Ub OutOfBounds
      | c :: p => s ← repr_char s c; repr_chars s p len
      end
  end.

Definition sdscatrepr (s : sdshdr) (p : list byte) (len : Z) : res sdshdr :=
  s ← sdscatlen junk malloc_ok s [x22] 1;
  s ← repr_chars s p (Z.to_nat len);
  sdscatlen junk malloc_ok s [x22] 1.

(** ** Splitting a line into arguments *)

(** [p[k]]. *)
Definition peek (p : list byte) (k : nat) : res byte :=
  match p !! k with Some c => Ret c | None => Ub OutOfBounds end.
Definition peek_is (p : list byte) (k : nat) (c : byte) : res bool :=
  x ← peek p k; Ret (bool_decide (x = c)).
Definition peek_not (p : list byte) (k : nat) (c : byte) : res bool :=
  x ← peek p k; Ret (bool_decide (x <> c)).
Definition peek_hex (p : list byte) (k : nat) : res bool :=
  x ← peek p k; Ret (is_hex_digit (schar x)).

(** [while ( *p && isspace( *p)) p++]. *)
Fixpoint skip_blanks (p : list byte) : res (list byte) :=
  match p with
  | [] => Ub OutOfBounds
  | c :: p' =>
      if decide (c = x00) then Ret p
      else sp ← isspace (schar c); if (sp : bool) then skip_blanks p' else Ret p
  end.

(** The character after a backslash. *)
Definition unescape (c : byte) : byte :=
  match c with x6e => x0a | x72 => x0d | x74 => x09 | x62 => x08 | x61 => x07 | _ => c end.

(** One round of the loop over a token: it fails, or ends the token or not
    with the new state. *)
Inductive tok :=
  | TErr
  | TOk (done inq insq : bool) (current : sdshdr) (p : list byte).

(** A closing quote must be followed by a space or nothing at all. *)
Definition close_quote (inq insq : bool) (current : sdshdr) (p : list byte) : res tok :=
  n ← peek p 1;
  bad ← (if decide (n = x00) then Ret false else sp ← isspace (schar n); Ret (negb (sp : bool)));
  if (bad : bool) then Ret TErr else Ret (TOk true inq insq current p).

Definition tok_step (inq insq : bool) (current : sdshdr) (p : list byte) : res tok :=
  c ← peek p 0;
  let plain : res tok := current ← sdscatlen junk malloc_ok current p 1; Ret (TOk false inq insq current p) in
  if inq then
    hex ← and_then (Ret (bool_decide (c = x5c))) (and_then (peek_is p 1 x78) (and_then (peek_hex p 2) (peek_hex p 3)));
    if (hex : bool) then
      a ← peek p 2; b ← peek p 3;
      let byte := z2b (hex_digit_to_int (schar a) * 16 + hex_digit_to_int (schar b)) in
      current ← sdscatlen junk malloc_ok current [byte] 1;
      Ret (TOk false inq insq current (drop 3 p))
    else
      esc ← and_then (Ret (bool_decide (c = x5c))) (peek_not p 1 x00);
      if (esc : bool) then
        c ← peek p 1;
        current ← sdscatlen junk malloc_ok current [unescape c] 1;
        Ret (TOk false inq insq current (drop 1 p))
      else if decide (c = x22) then close_quote inq insq current p
      else if decide (c = x00) then Ret TErr
      else plain
  else if insq then
    esc ← and_then (Ret (bool_decide (c = x5c))) (peek_is p 1 x27);
    if (esc : bool) then
      current ← sdscatlen junk malloc_ok current [x27] 1;
      Ret (TOk false inq insq current (drop 1 p))
    else if decide (c = x27) then close_quote inq insq current p
    else if decide (c = x00) then Ret TErr
    else plain
  else
    match c with
    | x20 | x0a | x0d | x09 | x00 => Ret (TOk true inq insq current p)
    | x22 => Ret (TOk false true insq current p)
    | x27 => Ret (TOk false inq true current p)
    | _ => plain
    end.

(** [if ( *p) p++]. *)
Definition advance (p : list byte) : res (list byte) :=
  c ← peek p 0; if decide (c = x00) then Ret p else Ret (drop 1 p).

(** [while (!done)]: each round that goes on has passed a character. *)
Fixpoint tok_loop (fuel : nat) (inq insq : bool) (current : sdshdr) (p : list byte) :
    res (option (sdshdr * list byte)) :=
  match fuel with
  | O => OutOfFuel
  | S fuel =>
      t ← tok_step inq insq current p;
      match t with
      | TErr => Ret None
      | TOk done inq insq current p =>
          p ← advance p;
          if done then Ret (Some (current, p)) else tok_loop fuel inq insq current p
      end
  end.

(** The arguments and [*argc]: on an error all are freed and [*argc] has been
    counted down to -1.  The vector is [NULL] exactly when it is empty. *)
Fixpoint args_loop (fuel : nat) (vector : list sdshdr) (p : list byte) : res (list sdshdr * Z) :=
  match fuel with
  | O => OutOfFuel
  | S fuel =>
      p ← skip_blanks p;
      c ← peek p 0;
      if decide (c = x00) then Ret (vector, Z.of_nat (length vector))
      else
        current ← sdsempty junk malloc_ok;
        r ← tok_loop (S (length p)) false false current p;
        match r with
        | None => Ret ([], -1)
        | Some (current, p) =>
            if negb (malloc_ok (8 * (Z.of_nat (length vector) + 1))) then Abort
            else args_loop fuel (vector ++ [current]) p
        end
  end.

Definition sdssplitargs (line : list byte) : res (list sdshdr * Z) :=
  args_loop (S (length line)) [] line.

End text.

(** ** Formatted output is appended whole *)

Definition no_nul (bs : list byte) : Prop := Forall (fun c => c <> x00) bs.

Section printf.
Context (junk : nat -> byte) (malloc_ok : Z -> bool).
Context (malloc_grants : forall n, 0 <= n < 2 ^ 32 -> malloc_ok n = true).

(** One buffer: a text that leaves two bytes unused or one is complete. *)
Lemma vprintf_round fuel out (buflen : Z) :
  no_nul out -> 16 <= buflen < 2 ^ 32 ->
  (Z.of_nat (length out) < buflen - 1 /\ exists rest,
     vprintf_loop junk malloc_ok (S fuel) out buflen = Ret (out ++ x00 :: rest)) \/
  (buflen - 1 <= Z.of_nat (length out) /\
     vprintf_loop junk malloc_ok (S fuel) out buflen = vprintf_loop junk malloc_ok fuel out (buflen * 2)).
Proof.
  intros Hout Hb. cbn [vprintf_loop]. unfold zmalloc_bytes. rewrite malloc_grants by lia.
  cbn [negb mbind res_bind]. set (b0 := fresh_bytes _ _ _).
  assert (Hl0 : Z.of_nat (length b0) = buflen) by (unfold b0; rewrite length_fresh_bytes by lia; lia).
  rewrite set_char_ok by lia. cbn [mbind res_bind]. set (b1 := <[_ := _]> b0).
  assert (Hl1 : Z.of_nat (length b1) = buflen) by (unfold b1; by rewrite length_insert).
  unfold vsnprintf. destruct (Z.lt_ge_cases (Z.of_nat (length out)) (buflen - 1)) as [Hlt|Hge].
  - left. split; [done|]. rewrite take_ge by lia.
    rewrite store_ok by (rewrite ?length_app; simpl; lia). cbn [mbind res_bind].
    unfold splice. change (Z.to_nat 0) with 0%nat. rewrite take_0, app_nil_l. rewrite length_app, Nat.add_0_l. cbn [length].
    rewrite (char_at_ok _ _ x00); [| lia |].
    + cbn [mbind res_bind]. rewrite decide_True by done. eexists. by rewrite <- app_assoc.
    + rewrite <- app_assoc. cbn [app]. destruct (decide (Z.of_nat (length out) = buflen - 2)) as [He|He].
      * rewrite lookup_app_r by lia. by replace (Z.to_nat (buflen - 2) - length out)%nat with 0%nat by lia.
      * rewrite lookup_app_r by lia. rewrite lookup_cons_ne_0 by lia. rewrite lookup_drop.
        replace (length out + 1 + Nat.pred (Z.to_nat (buflen - 2) - length out))%nat with (Z.to_nat (buflen - 2)) by lia.
        unfold b1. apply list_lookup_insert_eq. lia.
  - right. split; [done|]. set (xs := take _ out).
    assert (Hxs : length xs = Z.to_nat (buflen - 1)) by (unfold xs; rewrite length_take; lia).
    rewrite store_ok by (rewrite ?length_app, ?Hxs; simpl; lia). cbn [mbind res_bind].
    unfold splice. change (Z.to_nat 0) with 0%nat. rewrite take_0, app_nil_l.
    destruct (lookup_lt_is_Some_2 out (Z.to_nat (buflen - 2))) as [c Hc]; [lia|].
    rewrite (char_at_ok _ _ c); [| lia |].
    + cbn [mbind res_bind]. rewrite decide_False by by (eapply Forall_lookup in Hc; [|exact Hout]).
      by rewrite u64_small by lia.
    + rewrite <- app_assoc, lookup_app_l by lia. unfold xs. by rewrite lookup_take_lt by lia.
Qed.

Lemma vprintf_loop_ok fuel out (buflen : Z) :
  no_nul out -> 16 <= buflen -> Z.of_nat (length out) < 2 ^ 30 ->
  buflen <= 16 \/ buflen <= 2 * Z.of_nat (length out) + 2 ->
  Z.of_nat (length out) + 1 < buflen * 2 ^ Z.of_nat fuel ->
  exists rest, vprintf_loop junk malloc_ok (S fuel) out buflen = Ret (out ++ x00 :: rest).
Proof.
  intros Hout. revert buflen. induction fuel as [|fuel IH]; intros buflen H16 Hlen Hb Hf.
  - destruct (vprintf_round 0 out buflen Hout) as [[_ Hr]|[Hge _]]; [lia|done|lia].
  - destruct (vprintf_round (S fuel) out buflen Hout) as [[_ Hr]|[Hge ->]]; [lia|done|].
    apply IH; [lia..|]. rewrite Nat2Z.inj_succ, Z.pow_succ_r in Hf by lia. lia.
Qed.

Lemma sdscatprintf_ok s out :
  sds_ok s -> no_nul out -> sds_len s + Z.of_nat (length out) < 2 ^ 30 ->
  exists s', sdscatprintf junk malloc_ok s out = Ret s' /\ sds_ok s' /\ sds_val s' = sds_val s ++ out.
Proof.
  intros Hs Hout Hl. pose proof (ok_len _ Hs).
  destruct (vprintf_loop_ok 59 out 16) as [rest Hr]; [done|lia|lia|by left|lia|].
  unfold sdscatprintf, sdscatvprintf. rewrite Hr. cbn [mbind res_bind]. unfold sdscat.
  rewrite strlen_app by done. cbn [mbind res_bind].
  destruct (sdscatlen_ok junk malloc_ok malloc_grants s (out ++ x00 :: rest) (Z.of_nat (length out)))
    as (s' & -> & Hok & Hv); [done|rewrite length_app; lia|lia|].
  exists s'. split; [done|]. split; [done|]. by rewrite Hv, Nat2Z.id, take_app_length.
Qed.

End printf.

(** ** Quoting *)

(** How [sdscatrepr] writes a character, and a whole string. *)
Definition repr_of (c : byte) : list byte :=
  match c with
  | x5c | x22 => [x5c; c]
  | x0a => [x5c; x6e] | x0d => [x5c; x72] | x09 => [x5c; x74] | x07 => [x5c; x61] | x08 => [x5c; x62]
  | _ => if (32 <=? schar c) && (schar c <=? 126) then [c] else [x5c; x78] ++ printf_02x c
  end.
Definition quoted (bs : list byte) : list byte := x22 :: concat (map repr_of bs) ++ [x22].

Lemma sds_len_app s s' xs :
  sds_ok s -> sds_ok s' -> sds_val s' = sds_val s ++ xs -> sds_len s' = sds_len s + Z.of_nat (length xs).
Proof.
  intros Hs Hs' Hv. pose proof (sds_val_length s Hs). pose proof (sds_val_length s' Hs') as Hl.
  rewrite Hv, length_app in Hl. lia.
Qed.

Lemma repr_of_no_nul c : no_nul (repr_of c) /\ (length (repr_of c) <= 4)%nat.
Proof. split; [|by destruct c; vm_compute; repeat constructor]. by destruct c; vm_compute; repeat constructor. Qed.

Lemma quoted_no_nul bs : no_nul (quoted bs).
Proof.
  unfold quoted. constructor; [done|]. apply Forall_app_2; [|by repeat constructor].
  induction bs as [|c bs IH]; [constructor|]. cbn. apply Forall_app_2; [apply repr_of_no_nul|done].
Qed.

Lemma length_quoted bs : (length (quoted bs) <= 4 * length bs + 2)%nat.
Proof.
  unfold quoted. cbn [length]. rewrite length_app. cbn [length].
  induction bs as [|c bs IH]; [done|]. cbn. rewrite length_app. pose proof (proj2 (repr_of_no_nul c)). lia.
Qed.

Section repr.
Context (junk : nat -> byte) (malloc_ok : Z -> bool).
Context (malloc_grants : forall n, 0 <= n < 2 ^ 32 -> malloc_ok n = true).

Lemma repr_char_ok s c :
  sds_ok s -> in_ctype c -> sds_len s + 4 < 2 ^ 30 ->
  exists s', repr_char junk malloc_ok s c = Ret s' /\ sds_ok s' /\ sds_val s' = sds_val s ++ repr_of c.
Proof.
  intros Hs Hc Hl.
  assert (Hlen : forall t : list byte, length t = 2%nat -> exists s', sdscatlen junk malloc_ok s t 2 = Ret s' /\
    sds_ok s' /\ sds_val s' = sds_val s ++ t).
  { intros t Ht. destruct (sdscatlen_ok junk malloc_ok malloc_grants s t 2) as (s' & ? & ? & Hv); [done|lia..|].
    exists s'. split; [done|]. split; [done|]. rewrite Hv, take_ge; [done|]. rewrite Ht. done. }
  assert (Hout : forall t : list byte, no_nul t -> (length t <= 4)%nat ->
    exists s', sdscatprintf junk malloc_ok s t = Ret s' /\ sds_ok s' /\ sds_val s' = sds_val s ++ t).
  { intros t Ht H4. apply sdscatprintf_ok; [done..|lia]. }
  assert (Hdef : exists s', (p ← isprint (schar c); if (p : bool) then sdscatprintf junk malloc_ok s [c]
      else sdscatprintf junk malloc_ok s ([x5c; x78] ++ printf_02x c)) = Ret s' /\ sds_ok s' /\
    sds_val s' = sds_val s ++ (if (32 <=? schar c) && (schar c <=? 126) then [c] else [x5c; x78] ++ printf_02x c)).
  { unfold isprint. rewrite ctype_ok by done. cbn [mbind res_bind].
    destruct (_ && _) eqn:Hp; apply Hout; try (simpl; lia).
    - apply Forall_singleton. intros ->. done.
    - by destruct c; vm_compute; repeat constructor. }
  destruct c; first [exact Hdef|by apply Hlen|(apply Hout; [by repeat constructor|simpl; lia])].
Qed.

Lemma repr_chars_ok s bs rest :
  sds_ok s -> Forall in_ctype bs -> sds_len s + 4 * Z.of_nat (length bs) < 2 ^ 30 ->
  exists s', repr_chars junk malloc_ok s (bs ++ rest) (length bs) = Ret s' /\ sds_ok s' /\
    sds_val s' = sds_val s ++ concat (map repr_of bs).
Proof.
  revert s. induction bs as [|c bs IH]; intros s Hs Hbs Hl.
  { exists s. cbn [map concat]. by rewrite app_nil_r. }
  apply Forall_cons in Hbs as [Hc Hbs]. cbn [app length repr_chars] in *.
  destruct (repr_char_ok s c Hs Hc) as (s1 & -> & Hs1 & Hv1); [lia|]. cbn [mbind res_bind].
  pose proof (sds_len_app _ _ _ Hs Hs1 Hv1). pose proof (proj2 (repr_of_no_nul c)).
  destruct (IH s1 Hs1 Hbs) as (s2 & -> & Hs2 & Hv2); [lia|]. exists s2. split; [done|]. split; [done|].
  rewrite Hv2, Hv1. cbn. by rewrite <- app_assoc.
Qed.

Lemma sdscatlen_char s c rest :
  sds_ok s -> sds_len s + 1 < 2 ^ 30 ->
  exists s', sdscatlen junk malloc_ok s (c :: rest) 1 = Ret s' /\ sds_ok s' /\ sds_val s' = sds_val s ++ [c] /\
    sds_len s' = sds_len s + 1.
Proof.
  intros Hs Hl. destruct (sdscatlen_ok junk malloc_ok malloc_grants s (c :: rest) 1) as (s' & ? & Hs' & Hv);
    [done|simpl; lia..|]. change (Z.to_nat 1) with 1%nat in Hv. cbn [take] in Hv.
  exists s'. split_and!; try done. by rewrite (sds_len_app _ _ _ Hs Hs' Hv).
Qed.

Lemma sdscatrepr_ok s bs rest :
  sds_ok s -> Forall in_ctype bs -> sds_len s + 4 * Z.of_nat (length bs) + 2 < 2 ^ 30 ->
  exists s', sdscatrepr junk malloc_ok s (bs ++ rest) (Z.of_nat (length bs)) = Ret s' /\ sds_ok s' /\
    sds_val s' = sds_val s ++ quoted bs.
Proof.
  intros Hs Hbs Hl. unfold sdscatrepr.
  destruct (sdscatlen_char s x22 [] Hs) as (s1 & -> & Hs1 & Hv1 & Hl1); [lia|]. cbn [mbind res_bind].
  rewrite Nat2Z.id. destruct (repr_chars_ok s1 bs rest Hs1 Hbs) as (s2 & -> & Hs2 & Hv2); [lia|]. cbn [mbind res_bind].
  pose proof (sds_len_app _ _ _ Hs1 Hs2 Hv2) as Hl2. pose proof (length_quoted bs) as Hq.
  unfold quoted in Hq. cbn [length] in Hq. rewrite length_app in Hq. cbn [length] in Hq.
  destruct (sdscatlen_char s2 x22 [] Hs2) as (s3 & -> & Hs3 & Hv3 & _); [lia|].
  exists s3. split; [done|]. split; [done|]. rewrite Hv3, Hv2, Hv1. unfold quoted. by rewrite <- !app_assoc.
Qed.

End repr.

(** ** Splitting what was quoted *)

(** The three shapes of a quoted character. *)
Lemma repr_of_cases c :
  (exists e, repr_of c = [x5c; e] /\ e <> x78 /\ e <> x00 /\ unescape e = c) \/
  (repr_of c = [c] /\ c <> x5c /\ c <> x22 /\ c <> x00) \/
  (exists h l, repr_of c = [x5c; x78; h; l] /\ is_hex_digit (schar h) = true /\ is_hex_digit (schar l) = true /\
     l <> x00 /\ z2b (hex_digit_to_int (schar h) * 16 + hex_digit_to_int (schar l)) = c).
Proof.
  destruct c; first
    [ left; eexists; split_and!; [reflexivity|discriminate|discriminate|reflexivity]
    | right; left; split_and!; [reflexivity|discriminate..]
    | right; right; eexists _, _; split_and!; [reflexivity|reflexivity|reflexivity|discriminate|reflexivity] ].
Qed.

Lemma length_quoted_ge bs : (length bs + 2 <= length (quoted bs))%nat.
Proof.
  unfold quoted. cbn [length]. rewrite length_app. cbn [length].
  induction bs as [|c bs IH]; [done|]. cbn [map concat length]. rewrite length_app.
  destruct (repr_of_cases c) as [(? & -> & _)|[(-> & _)|(? & ? & -> & _)]]; cbn [length]; lia.
Qed.

Lemma advance_cons c p : c <> x00 -> advance (c :: p) = Ret p.
Proof. intros Hc. unfold advance, peek. cbn [lookup list_lookup mbind res_bind]. by rewrite decide_False. Qed.

Section split.
Context (junk : nat -> byte) (malloc_ok : Z -> bool).
Context (malloc_grants : forall n, 0 <= n < 2 ^ 32 -> malloc_ok n = true).

(** A quoted character is read back. *)
Lemma tok_quoted s c rest :
  sds_ok s -> sds_len s + 1 < 2 ^ 30 ->
  exists s' p', tok_step junk malloc_ok true false s (repr_of c ++ rest) = Ret (TOk false true false s' p') /\
    advance p' = Ret rest /\ sds_ok s' /\ sds_val s' = sds_val s ++ [c] /\ sds_len s' = sds_len s + 1.
Proof.
  intros Hs Hl.
  destruct (repr_of_cases c) as [(e & -> & He & He0 & Hue)|[(-> & H1 & H2 & H3)|(h & l & -> & Hh & Hll & Hl0 & Hz)]].
  - destruct (sdscatlen_char junk malloc_ok malloc_grants s c [] Hs Hl) as (s' & Hcat & Hok & Hv & Hsl).
    exists s', (e :: rest). split; [|by rewrite advance_cons].
    unfold tok_step, peek_is, peek_not, peek. cbn [app lookup list_lookup mbind res_bind].
    rewrite (bool_decide_true (x5c = x5c)), (bool_decide_false (e = x78)), (bool_decide_true (e <> x00)) by done.
    cbn. by rewrite Hue, Hcat.
  - destruct (sdscatlen_char junk malloc_ok malloc_grants s c rest Hs Hl) as (s' & Hcat & Hok & Hv & Hsl).
    exists s', (c :: rest). split; [|by rewrite advance_cons].
    unfold tok_step, peek. cbn [app lookup list_lookup mbind res_bind].
    rewrite (bool_decide_false (c = x5c)) by done. cbn. rewrite !decide_False by done. by rewrite Hcat.
  - destruct (sdscatlen_char junk malloc_ok malloc_grants s c [] Hs Hl) as (s' & Hcat & Hok & Hv & Hsl).
    exists s', (l :: rest). split; [|by rewrite advance_cons].
    unfold tok_step, peek_is, peek_hex, peek. cbn [app lookup list_lookup mbind res_bind].
    rewrite (bool_decide_true (x5c = x5c)), (bool_decide_true (x78 = x78)) by done.
    cbn. rewrite Hh, Hll. cbn. by rewrite Hz, Hcat.
Qed.

(** What follows an argument: a separator or the end of the line. *)
Definition separated (p : list byte) : Prop :=
  exists c p', p = c :: p' /\ (c = x00 \/ c = x20).

Lemma tok_loop_quoted fuel s bs rest :
  sds_ok s -> sds_len s + Z.of_nat (length bs) < 2 ^ 30 -> separated rest -> (length bs < fuel)%nat ->
  exists s', tok_loop junk malloc_ok fuel true false s (concat (map repr_of bs) ++ x22 :: rest) =
      Ret (Some (s', rest)) /\ sds_ok s' /\ sds_val s' = sds_val s ++ bs.
Proof.
  intros Hs Hl (d & p' & -> & Hd) Hf. revert s fuel Hs Hl Hf.
  induction bs as [|c bs IH]; intros s fuel Hs Hl Hf; (destruct fuel as [|fuel]; [simpl in Hf; lia|]); cbn [tok_loop].
  - exists s. split; [|by rewrite app_nil_r].
    assert (Hstep : tok_step junk malloc_ok true false s (x22 :: d :: p') = Ret (TOk true true false s (x22 :: d :: p'))).
    { destruct Hd as [-> | ->]; done. }
    cbn [map concat app]. rewrite Hstep. cbn [mbind res_bind]. by rewrite advance_cons.
  - cbn [map concat length] in *. rewrite <- app_assoc.
    destruct (tok_quoted s c (concat (map repr_of bs) ++ x22 :: d :: p') Hs) as (s1 & p1 & -> & Ha & Hs1 & Hv1 & Hl1); [lia|].
    cbn [mbind res_bind]. rewrite Ha. cbn [mbind res_bind].
    destruct (IH s1 fuel Hs1) as (s2 & -> & Hs2 & Hv2); [lia|lia|]. exists s2. split; [done|]. split; [done|].
    by rewrite Hv2, Hv1, <- app_assoc.
Qed.

(** The line that holds the given arguments. *)
Fixpoint args_line (args : list (list byte)) (rest : list byte) : list byte :=
  match args with
  | [] => x00 :: rest
  | a :: args => quoted a ++ x20 :: args_line args rest
  end.

(** Skipping the blank before an argument. *)
Lemma args_loop_blank fuel v p : args_loop junk malloc_ok fuel v (x20 :: p) = args_loop junk malloc_ok fuel v p.
Proof. by destruct fuel. Qed.

Lemma args_loop_ok fuel v args rest :
  (length args < fuel)%nat -> Forall (fun a => Z.of_nat (length a) < 2 ^ 30) args ->
  Z.of_nat (length v + length args) < 2 ^ 28 ->
  exists ts, args_loop junk malloc_ok fuel v (args_line args rest) = Ret (v ++ ts, Z.of_nat (length (v ++ ts))) /\
    Forall2 (fun t a => sds_ok t /\ sds_val t = a) ts args.
Proof.
  revert fuel v. induction args as [|a args IH]; intros fuel v Hf Hls Hn;
    (destruct fuel as [|fuel]; [simpl in Hf; lia|]); cbn [args_line].
  - exists []. rewrite app_nil_r. split; [|constructor]. done.
  - apply Forall_cons in Hls as [Ha Hls]. cbn [length] in *.
    destruct (sdsempty_ok junk malloc_ok malloc_grants) as (s0 & He & Hs0 & Hv0 & Hl0).
    set (line := quoted a ++ _). assert (Hline : exists p, line = x22 :: p) by by eexists.
    assert (Htok : exists t, tok_loop junk malloc_ok (S (length line)) false false s0 line =
      Ret (Some (t, x20 :: args_line args rest)) /\ sds_ok t /\ sds_val t = a).
    { assert (Hlen : (length a < length line)%nat).
      { unfold line. rewrite length_app. pose proof (length_quoted_ge a). lia. }
      unfold line at 2, quoted. cbn [app]. rewrite <- app_assoc. cbn [app].
      set (body := _ ++ _). cbn [tok_loop].
      change (tok_step junk malloc_ok false false s0 (x22 :: body)) with (Ret (TOk false true false s0 (x22 :: body))).
      cbn [mbind res_bind]. rewrite advance_cons by done. cbn [mbind res_bind].
      destruct (tok_loop_quoted (length line) s0 a (x20 :: args_line args rest)) as (t & Ht & Hok & Hv);
        [done|lia| |done|]. { eexists _, _. split; [done|]. by right. }
      exists t. unfold body. rewrite Ht. split; [done|]. split; [done|]. by rewrite Hv, Hv0. }
    destruct Htok as (t & Htok & Hok & Hv).
    destruct (IH fuel (v ++ [t])) as (ts & Hrec & Hts); [lia|done|rewrite length_app; simpl; lia|].
    exists (t :: ts). rewrite <- app_assoc in Hrec. split; [|by constructor].
    destruct Hline as [p Hp]. cbn [args_loop]. rewrite Hp. change (skip_blanks (x22 :: p)) with (Ret (x22 :: p)).
    cbn [mbind res_bind]. unfold peek at 1. cbn [lookup list_lookup mbind res_bind]. rewrite decide_False by done.
    rewrite He. cbn [mbind res_bind]. rewrite <- Hp, Htok. cbn [mbind res_bind]. rewrite malloc_grants by lia.
    cbn [negb]. by rewrite args_loop_blank.
Qed.

End split.

(** A string and its terminator, at the start of the block. *)
Lemma sds_buf_val s : sds_ok s -> exists rest, sds_buf s = sds_val s ++ x00 :: rest.
Proof.
  intros [Hl Hf Hr Hb Hn]. exists (drop (S (Z.to_nat (sds_len s))) (sds_buf s)). unfold sds_val.
  rewrite <- (take_drop_middle _ _ _ Hn) at 1. done.
Qed.

Section roundtrip.
Context (junk : nat -> byte) (malloc_ok : Z -> bool).
Context (malloc_grants : forall n, 0 <= n < 2 ^ 32 -> malloc_ok n = true).

(** A line built from arguments: each one quoted, then a space. *)
Fixpoint write_args (s : sdshdr) (args : list (list byte)) : res sdshdr :=
  match args with
  | [] => Ret s
  | a :: args =>
      s ← sdscatrepr junk malloc_ok s a (Z.of_nat (length a));
      s ← sdscatlen junk malloc_ok s [x20] 1;
      write_args s args
  end.

Definition line_size (args : list (list byte)) : Z :=
  foldr (fun a n => 4 * Z.of_nat (length a) + 3 + n) 0 args.

Lemma line_size_pos args : 0 <= line_size args.
Proof. induction args as [|a args IH]; simpl; lia. Qed.

Lemma write_args_ok s args :
  sds_ok s -> Forall (Forall in_ctype) args -> sds_len s + line_size args < 2 ^ 30 ->
  exists s', write_args s args = Ret s' /\ sds_ok s' /\
    forall rest, sds_val s' ++ x00 :: rest = sds_val s ++ args_line args rest.
Proof.
  revert s. induction args as [|a args IH]; intros s Hs Hargs Hl; [by exists s|].
  apply Forall_cons in Hargs as [Ha Hargs]. cbn [write_args line_size foldr args_line] in *.
  fold (line_size args) in Hl. pose proof (line_size_pos args).
  destruct (sdscatrepr_ok junk malloc_ok malloc_grants s a [] Hs Ha) as (s1 & Hr & Hs1 & Hv1); [lia|].
  rewrite app_nil_r in Hr. rewrite Hr. cbn [mbind res_bind].
  pose proof (sds_len_app _ _ _ Hs Hs1 Hv1) as Hl1. pose proof (length_quoted a).
  destruct (sdscatlen_char junk malloc_ok malloc_grants s1 x20 [] Hs1) as (s2 & -> & Hs2 & Hv2 & Hl2); [lia|].
  cbn [mbind res_bind]. destruct (IH s2 Hs2 Hargs) as (s3 & -> & Hs3 & Hv3); [lia|].
  exists s3. split; [done|]. split; [done|]. intros rest. by rewrite Hv3, Hv2, Hv1, <- !app_assoc.
Qed.

(** Arguments quoted by [sdscatrepr] and written on one line, separated by
    spaces, are read back by [sdssplitargs] unchanged, whatever bytes they hold
    (quotes, backslashes, zero bytes, control characters), as long as they are
    in the domain of [isprint]; both stay inside their buffers. *)
Theorem quoted_args_roundtrip args :
  Forall (Forall in_ctype) args -> line_size args < 2 ^ 28 ->
  exists s0 s ts, sdsempty junk malloc_ok = Ret s0 /\ write_args s0 args = Ret s /\
    sdssplitargs junk malloc_ok (sds_buf s) = Ret (ts, Z.of_nat (length args)) /\
    map sds_val ts = args /\ Forall sds_ok ts.
Proof.
  intros Hargs Hl. destruct (sdsempty_ok junk malloc_ok malloc_grants) as (s0 & He & Hs0 & Hv0 & Hl0).
  destruct (write_args_ok s0 args Hs0 Hargs) as (s & Hw & Hs & Hv); [lia|].
  destruct (sds_buf_val s Hs) as [rest Hbuf]. rewrite Hv, Hv0, app_nil_l in Hbuf.
  assert (Hsizes : Forall (fun a => Z.of_nat (length a) < 2 ^ 30) args /\ Z.of_nat (length args) <= line_size args).
  { clear -Hl. induction args as [|a args IH]; [done|]. cbn [line_size foldr length] in *.
    fold (line_size args) in *. pose proof (line_size_pos args). destruct IH; [lia|]. split; [constructor; [lia|done]|lia]. }
  destruct Hsizes as [Hsz Hn].
  destruct (args_loop_ok junk malloc_ok malloc_grants (S (length (sds_buf s))) [] args rest)
    as (ts & Hsplit & Hts); [|done|simpl; lia|].
  { rewrite Hbuf. clear. induction args as [|a args IH]; cbn [args_line]; [simpl; lia|].
    rewrite length_app. cbn [length]. lia. }
  exists s0, s, ts. split; [done|]. split; [done|]. unfold sdssplitargs. rewrite Hbuf in Hsplit |- *.
  rewrite Hsplit. cbn [app]. rewrite (Forall2_length _ _ _ Hts). split; [done|].
  clear -Hts. induction Hts as [|t a ts args [Ht Hv] _ [IH1 IH2]]; [done|].
  split; [by rewrite <- Hv, <- IH1|by constructor].
Qed.

End roundtrip.

(** ** Any line: no access past its terminator, and the loops end *)

Section total.
Context (junk : nat -> byte) (malloc_ok : Z -> bool).
Context (malloc_grants : forall n, 0 <= n < 2 ^ 32 -> malloc_ok n = true).

(** The characters of a line before its terminator. *)
Definition line_chars (s : list byte) : Prop := Forall (fun c => c <> x00 /\ in_ctype c) s.

(** A step over [s] leaves part of [s]; only the end of a token consumes nothing
    at the terminator. *)
Definition tok_within (s rest : list byte) (n : Z) (t : tok) : Prop :=
  match t with
  | TErr => True
  | TOk done _ _ current p => sds_ok current /\ sds_len current <= n + 1 /\
      exists k, p = drop k s ++ x00 :: rest /\ ((k < length s)%nat \/ (s = [] /\ k = 0%nat /\ done = true))
  end.

Lemma peek_in s p k c : s !! k = Some c -> peek (s ++ p) k = Ret c.
Proof. intros Hk. unfold peek. by rewrite (lookup_app_l_Some _ _ _ _ Hk). Qed.

Lemma hex_ahead s rest c :
  exists b, and_then (Ret (bool_decide (c = x5c))) (and_then (peek_is ((c :: s) ++ x00 :: rest) 1 x78)
      (and_then (peek_hex ((c :: s) ++ x00 :: rest) 2) (peek_hex ((c :: s) ++ x00 :: rest) 3))) = Ret b /\
    (b = true -> (3 <= length s)%nat).
Proof.
  unfold peek_is, peek_hex, peek. destruct (bool_decide (c = x5c)); [|by exists false].
  destruct s as [|d [|e [|f s]]]; cbn; try destruct (bool_decide (d = x78)); cbn;
    try destruct (is_hex_digit (schar e)); cbn; (eexists; split; [reflexivity|]); try done; intros _; simpl; lia.
Qed.

Lemma close_quote_total inq insq cur c s rest n :
  sds_ok cur -> sds_len cur <= n + 1 -> line_chars s ->
  exists t, close_quote inq insq cur ((c :: s) ++ x00 :: rest) = Ret t /\ tok_within (c :: s) rest n t.
Proof.
  intros Hcur Hn Hs. unfold close_quote, peek.
  assert (Hok : tok_within (c :: s) rest n (TOk true inq insq cur ((c :: s) ++ x00 :: rest))).
  { split; [done|]. split; [done|]. exists 0%nat. split; [done|]. left. simpl. lia. }
  destruct s as [|d s]; cbn [app lookup list_lookup mbind res_bind]; [by eexists|].
  apply Forall_cons in Hs as [[Hd0 Hd] _]. rewrite decide_False by done.
  unfold isspace. rewrite ctype_ok by done. cbn. by destruct (_ || _); eexists.
Qed.

Lemma tok_plain_total inq insq cur c s rest :
  sds_ok cur -> sds_len cur + 1 < 2 ^ 30 ->
  exists t, (cur ← sdscatlen junk malloc_ok cur ((c :: s) ++ x00 :: rest) 1;
             Ret (TOk false inq insq cur ((c :: s) ++ x00 :: rest))) = Ret t /\
    tok_within (c :: s) rest (sds_len cur) t.
Proof.
  intros Hcur Hn. destruct (sdscatlen_char junk malloc_ok malloc_grants cur c (s ++ x00 :: rest) Hcur Hn)
    as (cur' & Hcat & Hok & _ & Hl). cbn [app]. rewrite Hcat. eexists. split; [done|].
  split; [done|]. split; [lia|]. exists 0%nat. split; [done|]. left. simpl. lia.
Qed.

(** A character is stored and [k] bytes are passed. *)
Lemma tok_store_total inq insq cur x k s rest :
  sds_ok cur -> sds_len cur + 1 < 2 ^ 30 -> (k < length s)%nat ->
  exists t, (cur ← sdscatlen junk malloc_ok cur [x] 1; Ret (TOk false inq insq cur (drop k (s ++ x00 :: rest)))) = Ret t /\
    tok_within s rest (sds_len cur) t.
Proof.
  intros Hcur Hn Hk. destruct (sdscatlen_char junk malloc_ok malloc_grants cur x [] Hcur Hn)
    as (cur' & -> & Hok & _ & Hl). eexists. split; [done|].
  split; [done|]. split; [lia|]. exists k. split; [|by left]. by rewrite drop_app_le by lia.
Qed.

Lemma tok_step_total inq insq cur s rest :
  sds_ok cur -> sds_len cur + 1 < 2 ^ 30 -> line_chars s ->
  exists t, tok_step junk malloc_ok inq insq cur (s ++ x00 :: rest) = Ret t /\ tok_within s rest (sds_len cur) t.
Proof.
  intros Hcur Hn Hs. destruct s as [|c s].
  { destruct inq; [by exists TErr|]. destruct insq; [by exists TErr|].
    eexists. split; [reflexivity|]. split; [done|]. split; [lia|]. exists 0%nat. split; [done|]. by right. }
  apply Forall_cons in Hs as [[Hc0 Hc] Hs]. unfold tok_step.
  rewrite (peek_in (c :: s) _ 0 c) by done. cbn [mbind res_bind]. destruct inq.
  - destruct (hex_ahead s rest c) as ([|] & -> & Hb); cbn [mbind res_bind].
    + destruct s as [|d [|e [|f s]]]; [simpl in Hb; specialize (Hb eq_refl); lia..|].
      set (l := c :: d :: e :: f :: s). rewrite (peek_in l _ 2 e), (peek_in l _ 3 f) by done. cbn [mbind res_bind].
      apply tok_store_total; [done..|simpl; lia].
    + destruct (decide (c = x5c)) as [->|Hne].
      * rewrite (bool_decide_true (x5c = x5c)) by done. cbn [and_then mbind res_bind].
        unfold peek_not. destruct s as [|d s].
        -- change ([x5c] ++ x00 :: rest) with ([x5c; x00] ++ rest). rewrite (peek_in [x5c; x00] rest 1 x00) by done. cbn [mbind res_bind].
           rewrite (bool_decide_false (x00 <> x00)) by naive_solver. cbn [mbind res_bind]. rewrite !decide_False by done.
           by apply (tok_plain_total true insq cur x5c []).
        -- apply Forall_cons in Hs as [[Hd0 _] _]. rewrite (peek_in (x5c :: d :: s) _ 1 d) by done.
           cbn [mbind res_bind]. rewrite (bool_decide_true (d <> x00)) by done. cbn [mbind res_bind].
           apply tok_store_total; [done..|simpl; lia].
      * rewrite (bool_decide_false (c = x5c)) by done. cbn [and_then mbind res_bind].
        destruct (decide (c = x22)); [apply close_quote_total; [done|lia|done]|].
        rewrite decide_False by done. by apply tok_plain_total.
  - destruct insq.
    + assert (exists b, and_then (Ret (bool_decide (c = x5c))) (peek_is ((c :: s) ++ x00 :: rest) 1 x27) = Ret b /\
        (b = true -> (1 <= length s)%nat)) as ([|] & -> & Hb).
      { unfold peek_is, peek. destruct (bool_decide (c = x5c)); [|by exists false].
        destruct s as [|d s]; cbn; (eexists; split; [reflexivity|]); [done|intros _; simpl; lia]. }
      * cbn [mbind res_bind]. apply tok_store_total; [done..|simpl in *; specialize (Hb eq_refl); lia].
      * cbn [mbind res_bind]. destruct (decide (c = x27)); [apply close_quote_total; [done|lia|done]|].
        rewrite decide_False by done. by apply tok_plain_total.
    + assert (Hsame : forall d i q, tok_within (c :: s) rest (sds_len cur) (TOk d i q cur ((c :: s) ++ x00 :: rest))).
      { intros d i q. split; [done|]. split; [lia|]. exists 0%nat. split; [done|]. left. simpl. lia. }
      assert (Hplain := tok_plain_total false false cur c s rest Hcur Hn).
      clear -Hsame Hplain. destruct c; first [exact Hplain|eexists; split; [reflexivity|apply Hsame]].
Qed.

(** The loop over a token. *)
Lemma tok_loop_total fuel inq insq cur s rest :
  sds_ok cur -> line_chars s -> sds_len cur + Z.of_nat (length s) + 1 < 2 ^ 30 -> (length s < fuel)%nat ->
  exists r, tok_loop junk malloc_ok fuel inq insq cur (s ++ x00 :: rest) = Ret r /\
    match r with
    | None => True
    | Some (_, p) => exists k, p = drop k s ++ x00 :: rest /\ (s = [] \/ 0 < k)%nat
    end.
Proof.
  revert inq insq cur s. induction fuel as [|fuel IH]; intros inq insq cur s Hcur Hs Hl Hf; [lia|].
  cbn [tok_loop]. destruct (tok_step_total inq insq cur s rest Hcur) as (t & -> & Ht); [lia|done|].
  cbn [mbind res_bind]. destruct t as [|d i q cur' p]; [by exists None|].
  destruct Ht as (Hcur' & Hn & k & -> & Hk). destruct Hk as [Hk|(-> & -> & ->)].
  2: { exists (Some (cur', x00 :: rest)). split; [done|]. exists 0%nat. split; [done|]. by left. }
  assert (Hadv : advance (drop k s ++ x00 :: rest) = Ret (drop (S k) s ++ x00 :: rest)).
  { destruct (lookup_lt_is_Some_2 s k Hk) as [c Hc]. rewrite (drop_S _ _ _ Hc). cbn [app].
    apply advance_cons. apply (proj1 (Forall_lookup _ _) Hs k c Hc). }
  rewrite Hadv. cbn [mbind res_bind]. destruct d.
  - eexists. split; [reflexivity|]. exists (S k). split; [done|]. right. lia.
  - destruct (IH i q cur' (drop (S k) s)) as (r & -> & Hr); [done| |rewrite length_drop; lia..|].
    { by apply Forall_drop. }
    exists r. split; [done|]. destruct r as [[c p]|]; [|done]. destruct Hr as (k' & -> & _).
    exists (S k + k')%nat. rewrite drop_drop. split; [done|]. right. lia.
Qed.

Lemma skip_blanks_total s rest :
  line_chars s -> exists k, skip_blanks (s ++ x00 :: rest) = Ret (drop k s ++ x00 :: rest).
Proof.
  induction 1 as [|c s [Hc0 Hc] _ [k IH]]; [by exists 0%nat|]. cbn [app skip_blanks].
  rewrite decide_False by done. unfold isspace at 1. rewrite ctype_ok by done. cbn [mbind res_bind].
  destruct (_ || _); [by exists (S k)|by exists 0%nat].
Qed.

Lemma args_loop_total fuel v s rest :
  line_chars s -> Z.of_nat (length s) + 1 < 2 ^ 28 -> Z.of_nat (length v + length s) < 2 ^ 28 ->
  (length s < fuel)%nat ->
  exists ts n, args_loop junk malloc_ok fuel v (s ++ x00 :: rest) = Ret (ts, n) /\
    (n = Z.of_nat (length ts) \/ (n = -1 /\ ts = [])).
Proof.
  revert v s. induction fuel as [|fuel IH]; intros v s Hs Hl Hv Hf; [lia|]. cbn [args_loop].
  destruct (skip_blanks_total s rest Hs) as [k ->]. cbn [mbind res_bind].
  pose proof (Forall_drop _ k _ Hs) as Hs'. pose proof (length_drop s k) as Hlk.
  destruct (drop k s) as [|c s'].
  { eexists _, _. split; [reflexivity|]. by left. }
  pose proof Hs' as [[Hc0 _] _]%Forall_cons. rewrite (peek_in (c :: s') _ 0 c) by done. cbn [mbind res_bind].
  rewrite decide_False by done.
  destruct (sdsempty_ok junk malloc_ok malloc_grants) as (s0 & -> & Hs0 & _ & Hl0). cbn [mbind res_bind].
  destruct (tok_loop_total (S (length ((c :: s') ++ x00 :: rest))) false false s0 (c :: s') rest)
    as (r & -> & Hr); [done|done|simpl in *; lia|rewrite length_app; lia|]. cbn [mbind res_bind].
  destruct r as [[cur p]|]; [|by exists [], (-1); split; [|right]].
  destruct Hr as (k' & -> & [Hk'|Hk']); [done|]. rewrite malloc_grants by lia. cbn [negb].
  apply IH; rewrite ?length_app, ?length_drop; cbn [length] in *; try lia. by apply Forall_drop.
Qed.

(** [sdssplitargs] is defined on every line of characters in the domain of
    [isspace]: it never looks past the terminator, its loops end, and it returns
    either the arguments with their number, or no arguments and -1. *)
Theorem sdssplitargs_safe s rest :
  line_chars s -> Z.of_nat (length s) + 1 < 2 ^ 28 ->
  exists ts n, sdssplitargs junk malloc_ok (s ++ x00 :: rest) = Ret (ts, n) /\
    (n = Z.of_nat (length ts) \/ (n = -1 /\ ts = [])).
Proof. intros Hs Hl. apply args_loop_total; [done|lia|simpl; lia|]. rewrite length_app. simpl. lia. Qed.

End total.

(** ** Two lines *)

#[local] Notation zero_junk := (fun _ : nat => x00).
#[local] Notation always_ok := (fun _ : Z => true).

(** An argument with a quote, a zero byte and a backslash, and an empty one. *)
Lemma quoted_args_roundtrip_witness :
  let args := [[x61; x22; x00; x5c; x20; x0a]; []] in
  exists s0 s ts, sdsempty zero_junk always_ok = Ret s0 /\ write_args zero_junk always_ok s0 args = Ret s /\
    sdssplitargs zero_junk always_ok (sds_buf s) = Ret (ts, 2) /\ map sds_val ts = args /\ Forall sds_ok ts.
Proof.
  intros args. apply (quoted_args_roundtrip zero_junk always_ok (fun _ _ => eq_refl) args); [|done].
  by repeat constructor.
Defined.

(** An unterminated quote. *)
Lemma sdssplitargs_safe_witness :
  let s := string_bytes "set 'foo" in
  line_chars s /\ exists ts n, sdssplitargs zero_junk always_ok (s ++ x00 :: []) = Ret (ts, n) /\
    (n = Z.of_nat (length ts) \/ (n = -1 /\ ts = [])).
Proof.
  intros s. assert (Hs : line_chars s) by by (repeat constructor).
  split; [exact Hs|]. apply (sdssplitargs_safe zero_junk always_ok (fun _ _ => eq_refl) s [] Hs). done.
Defined.
