(* ===== verification/SdsEdit.v ===== *)
(** * [rtc_base/sds.cc]: editing, comparing and splitting strings

    The functions that work inside the block of a string (trim, range, case,
    substitution), the comparison, the split at a separator and the decimal
    notation of a [long long].  Pointers into a block are offsets. *)

From stdpp Require Import pretty.
From S2P Require Import Prelude Sds CLib.
#[local] Open Scope Z_scope.
#[local] Open Scope xrtc_scope.

(** ** Trimming *)

(** [while (sp <= end && strchr(cset, *sp)) sp++;] with [n] positions left. *)
Fixpoint trim_front (b cset : list byte) (n : nat) (sp : Z) : res Z :=
  match n with
  | O => Ret sp
  | S n =>
      c ← char_at b sp;
      found ← strchr cset c;
      if (found : bool) then trim_front b cset n (sp + 1) else Ret sp
  end.

(** [while (ep > start && strchr(cset, *ep)) ep--;] with [n] positions left. *)
Fixpoint trim_back (b cset : list byte) (n : nat) (ep : Z) : res Z :=
  match n with
  | O => Ret ep
  | S n =>
      c ← char_at b ep;
      found ← strchr cset c;
      if (found : bool) then trim_back b cset n (ep - 1) else Ret ep
  end.

(** The end of [sdstrim] and [sdsrange]: [len] bytes at [from] become the string. *)
Definition keep (s : sdshdr) (from len : Z) : res sdshdr :=
  b ← (if (from =? 0) || (len =? 0) then Ret (sds_buf s)
       else xs ← load (sds_buf s) from len; store (sds_buf s) 0 xs);
  b ← set_char b len x00;
  Ret (Sds (i32 len) (i32 (sds_free s + (sds_len s - len))) b).

(** [memmove] of no bytes does nothing, so both callers of [keep] agree. *)
Definition sdstrim (s : sdshdr) (cset : list byte) : res sdshdr :=
  let end_ := sdslen s - 1 in
  sp ← trim_front (sds_buf s) cset (Z.to_nat (end_ + 1)) 0;
  ep ← trim_back (sds_buf s) cset (Z.to_nat end_) end_;
  keep s sp (if ep <? sp then 0 else ep - sp + 1).

(** ** Ranges *)

(** A negative index counts from the end. *)
Definition range_index (len i : Z) : Z :=
  if i <? 0 then let i := i32 (len + i) in if i <? 0 then 0 else i else i.

(** [(start > end) ? 0 : (end-start)+1]. *)
Definition range_length (start end_ : Z) : res Z :=
  if end_ <? start then Ret 0 else d ← int (end_ - start); int (d + 1).

Definition sdsrange (s : sdshdr) (start end_ : Z) : res sdshdr :=
  let len := sdslen s in
  if len =? 0 then Ret s
  else
    let start := range_index len start in
    let end_ := range_index len end_ in
    newlen ← range_length start end_;
    if negb (newlen =? 0) then
      if i32 len <=? start then keep s start 0
      else if i32 len <=? end_ then
        newlen ← range_length start (i32 (len - 1)); keep s start newlen
      else keep s start newlen
    else keep s 0 newlen.

(** ** Case and substitution *)

(** [for (j = 0; j < len; j++) s[j] = f(s[j]);] from [j] on, [n] characters left. *)
Fixpoint map_chars (f : Z -> res Z) (b : list byte) (j : Z) (n : nat) : res (list byte) :=
  match n with
  | O => Ret b
  | S n =>
      c ← char_at b j;
      x ← f (schar c);
      b ← set_char b j (z2b x);
      map_chars f b (j + 1) n
  end.

Definition sdstolower (s : sdshdr) : res sdshdr :=
  b ← map_chars tolower (sds_buf s) 0 (Z.to_nat (i32 (sdslen s)));
  Ret (Sds (sds_len s) (sds_free s) b).

Definition sdstoupper (s : sdshdr) : res sdshdr :=
  b ← map_chars toupper (sds_buf s) 0 (Z.to_nat (i32 (sdslen s)));
  Ret (Sds (sds_len s) (sds_free s) b).

(** The inner loop of [sdsmapchars]: the first [from[i]] equal to [c]. *)
Fixpoint map_char (from to : list byte) (i : Z) (n : nat) (c : byte) : res byte :=
  match n with
  | O => Ret c
  | S n =>
      x ← char_at from i;
      if decide (x = c) then char_at to i else map_char from to (i + 1) n c
  end.

Definition sdsmapchars (s : sdshdr) (from to : list byte) (setlen : Z) : res sdshdr :=
  b ← map_chars (fun x => c ← map_char from to 0 (Z.to_nat setlen) (z2b x); Ret (b2z c))
        (sds_buf s) 0 (Z.to_nat (sdslen s));
  Ret (Sds (sds_len s) (sds_free s) b).

(** ** Comparison *)

Definition memcmp (p q : list byte) (n : Z) : res Z :=
  xs ← load p 0 n; ys ← load q 0 n; Ret (memcmp_list xs ys).

Definition sdscmp (s1 s2 : sdshdr) : res Z :=
  let l1 := sdslen s1 in
  let l2 := sdslen s2 in
  let minlen := if l1 <? l2 then l1 else l2 in
  cmp ← memcmp (sds_buf s1) (sds_buf s2) minlen;
  if cmp =? 0 then Ret (i32 (l1 - l2)) else Ret cmp.

Section edit.
Context (junk : nat -> byte) (malloc_ok : Z -> bool).

(** ** Splitting at a separator *)

(** [(seplen == 1 && *(s+j) == sep[0]) || (memcmp(s+j,sep,seplen) == 0)]. *)
Definition sep_at (s sep : list byte) (seplen j : Z) : res bool :=
  c ← char_at s j;
  d ← char_at sep 0;
  if (seplen =? 1) && bool_decide (c = d) then Ret true
  else
    xs ← load s j seplen; ys ← load sep 0 seplen;
    Ret (memcmp_list xs ys =? 0).

(** [tokens[elements] = sdsnewlen(...)] into an array of [slots]. *)
Definition add_token (tokens : list sdshdr) (slots : Z) (s : list byte) (start n : Z) : res (list sdshdr) :=
  t ← sdsnewlen junk malloc_ok (Some (drop (Z.to_nat start) s)) n;
  if Z.of_nat (length tokens) <? slots then Ret (tokens ++ [t]) else Ub OutOfBounds.

(** Doubles the array when the next token and the final one do not fit. *)
Definition grow_slots (tokens : list sdshdr) (slots : Z) : res Z :=
  if slots <? Z.of_nat (length tokens) + 2 then
    slots ← int (slots * 2);
    if malloc_ok (u64 (8 * slots)) then Ret slots else Abort
  else Ret slots.

Fixpoint split_loop (fuel : nat) (s : list byte) (len : Z) (sep : list byte) (seplen j start slots : Z)
    (tokens : list sdshdr) : res (Z * Z * list sdshdr) :=
  match fuel with
  | O => OutOfFuel
  | S fuel =>
      if j <? len - (seplen - 1) then
        slots ← grow_slots tokens slots;
        found ← sep_at s sep seplen j;
        if (found : bool) then
          tokens ← add_token tokens slots s start (j - start);
          split_loop fuel s len sep seplen (j + seplen) (j + seplen) slots tokens
        else split_loop fuel s len sep seplen (j + 1) start slots tokens
      else Ret (start, slots, tokens)
  end.

(** The tokens and [*count]; [None] is [NULL].  An allocation that fails ends
    the program in [zmalloc], so the label [cleanup] is never reached. *)
Definition sdssplitlen (s : list byte) (len : Z) (sep : list byte) (seplen : Z) :
    res (option (list sdshdr * Z)) :=
  if (seplen <? 1) || (len <? 0) then Ret None
  else if negb (malloc_ok 40) then Abort
  else if len =? 0 then Ret (Some ([], 0))
  else
    r ← split_loop (S (Z.to_nat len)) s len sep seplen 0 0 5 [];
    let '(start, slots, tokens) := r in
    tokens ← add_token tokens slots s start (len - start);
    Ret (Some (tokens, Z.of_nat (length tokens))).

(** ** Decimal notation *)

(** [do { *p-- = '0'+(v%10); v /= 10; } while (v);]: at most 20 digits. *)
Fixpoint digits_loop (fuel : nat) (buf : list byte) (p v : Z) : res (list byte * Z) :=
  match fuel with
  | O => OutOfFuel
  | S fuel =>
      buf ← set_char buf p (z2b (48 + v mod 10));
      if v / 10 =? 0 then Ret (buf, p - 1) else digits_loop fuel buf (p - 1) (v / 10)
  end.

Definition sdsfromlonglong (value : Z) : res sdshdr :=
  v ← (if value <? 0 then
         if decide (- value < 2 ^ 63) then Ret (- value) else Ub SignedOverflow
       else Ret value);
  r ← digits_loop 20 (fresh_bytes junk 0 32) 31 v;
  let '(buf, p) := r in
  r ← (if value <? 0 then buf ← set_char buf p x2d; Ret (buf, p - 1) else Ret (buf, p));
  let '(buf, p) := r in
  sdsnewlen junk malloc_ok (Some (drop (Z.to_nat (p + 1)) buf)) (32 - (p + 1)).

End edit.

(** ** Editing in place *)

(** [keep] leaves the bytes asked for. *)
Lemma keep_ok s from len :
  sds_ok s -> 0 <= from -> 0 <= len -> from + len <= sds_len s ->
  exists s', keep s from len = Ret s' /\ sds_ok s' /\
    sds_val s' = take (Z.to_nat len) (drop (Z.to_nat from) (sds_val s)) /\
    sds_len s' + sds_free s' = sds_len s + sds_free s.
Proof.
  intros Hs Hf Hl Hr. pose proof Hs as [Hl0 Hf0 Hr0 Hb0 Hn0]. unfold keep.
  set (xs := take (Z.to_nat len) (drop (Z.to_nat from) (sds_buf s))).
  assert (Hxs : Z.of_nat (length xs) = len) by (unfold xs; rewrite length_take, length_drop; lia).
  assert (Hval : take (Z.to_nat len) (drop (Z.to_nat from) (sds_val s)) = xs).
  { unfold xs, sds_val. rewrite skipn_firstn_comm, take_take. f_equal. lia. }
  match goal with |- context [mbind _ ?x] => set (r := x) end. assert (exists b : list byte, r = Ret b /\ length b = length (sds_buf s) /\
    take (Z.to_nat len) b = xs) as (b & -> & Hlb & Htk).
  { unfold r. destruct ((from =? 0) || (len =? 0)) eqn:E.
    - exists (sds_buf s). split; [done|]. split; [done|]. unfold xs.
      apply orb_true_iff in E as [->%Z.eqb_eq| ->%Z.eqb_eq]; [by rewrite drop_0|done].
    - rewrite load_ok by lia. fold xs. cbn [mbind res_bind]. rewrite store_ok by lia. eexists. split; [done|].
      rewrite length_splice by lia. split; [done|]. replace (Z.to_nat len) with (0 + length xs)%nat by lia.
      by rewrite take_splice_end by lia. }
  cbn [mbind res_bind]. destruct (store_nul b len) as (b' & Hst & Hl' & Ht' & Hn'); [lia|].
  unfold set_char. rewrite Hst. cbn [mbind res_bind]. rewrite !i32_small by lia. eexists. split; [done|].
  split; [constructor; cbn; try lia; done|]. split; [|cbn; lia].
  rewrite Hval. unfold sds_val. cbn. by rewrite Ht', Htk.
Qed.

(** ** Trimming *)

Section trim.
Context (cset rest : list byte).
Context (cset_nul : Forall (fun c => c <> x00) cset).

(** What [sdstrim] removes: the terminator of [cset] counts. *)
Definition trimmed (c : byte) : Prop := c ∈ cset \/ c = x00.
#[local] Instance trimmed_dec c : Decision (trimmed c).
Proof. unfold trimmed. apply _. Defined.

Notation cs := (cset ++ x00 :: rest).

Lemma trim_front_ok b (n : nat) (sp : Z) :
  0 <= sp -> sp + Z.of_nat n <= Z.of_nat (length b) ->
  exists sp', trim_front b cs n sp = Ret sp' /\ sp <= sp' <= sp + Z.of_nat n /\
    (forall i c, sp <= i < sp' -> b !! Z.to_nat i = Some c -> trimmed c) /\
    (sp' = sp + Z.of_nat n \/ exists c, b !! Z.to_nat sp' = Some c /\ ~ trimmed c).
Proof.
  revert sp. induction n as [|n IH]; intros sp Hsp Hb; cbn [trim_front].
  { exists sp. split; [done|]. split; [lia|]. split; [intros; lia|]. left. lia. }
  destruct (lookup_lt_is_Some_2 b (Z.to_nat sp)) as [c Hc]; [lia|].
  rewrite (char_at_ok _ _ c) by (done || lia). cbn [mbind res_bind]. rewrite strchr_app by done. cbn [mbind res_bind].
  change (c ∈ cset \/ c = x00) with (trimmed c). case_bool_decide as Hd.
  - destruct (IH (sp + 1)) as (sp' & -> & Hr & Hall & Hend); [lia..|]. exists sp'. split; [done|]. split; [lia|].
    split; [|destruct Hend; [left; lia|by right]]. intros i c' Hi Hc'.
    destruct (decide (i = sp)) as [->|]; [congruence|]. apply (Hall i); [lia|done].
  - exists sp. split; [done|]. split; [lia|]. split; [intros; lia|]. right. by exists c.
Qed.

Lemma trim_back_ok b (n : nat) (ep : Z) :
  0 <= ep - Z.of_nat n -> ep < Z.of_nat (length b) ->
  exists ep', trim_back b cs n ep = Ret ep' /\ ep - Z.of_nat n <= ep' <= ep /\
    (forall i c, ep' < i <= ep -> b !! Z.to_nat i = Some c -> trimmed c) /\
    (ep' = ep - Z.of_nat n \/ exists c, b !! Z.to_nat ep' = Some c /\ ~ trimmed c).
Proof.
  revert ep. induction n as [|n IH]; intros ep Hep Hb; cbn [trim_back].
  { exists ep. split; [done|]. split; [lia|]. split; [intros; lia|]. left. lia. }
  destruct (lookup_lt_is_Some_2 b (Z.to_nat ep)) as [c Hc]; [lia|].
  rewrite (char_at_ok _ _ c) by (done || lia). cbn [mbind res_bind]. rewrite strchr_app by done. cbn [mbind res_bind].
  change (c ∈ cset \/ c = x00) with (trimmed c). case_bool_decide as Hd.
  - destruct (IH (ep - 1)) as (ep' & -> & Hr & Hall & Hend); [lia..|]. exists ep'. split; [done|]. split; [lia|].
    split; [|destruct Hend; [left; lia|by right]]. intros i c' Hi Hc'.
    destruct (decide (i = ep)) as [->|]; [congruence|]. apply (Hall i); [lia|done].
  - exists ep. split; [done|]. split; [lia|]. split; [intros; lia|]. right. by exists c.
Qed.

(** Removed bytes between two positions. *)
Lemma trimmed_between s (i j : Z) :
  sds_ok s -> 0 <= i -> j <= sds_len s ->
  (forall k c, i <= k < j -> sds_buf s !! Z.to_nat k = Some c -> trimmed c) ->
  Forall trimmed (take (Z.to_nat (j - i)) (drop (Z.to_nat i) (sds_val s))).
Proof.
  intros Hs Hi Hj Hall. apply Forall_lookup. intros k c Hk. apply lookup_take_Some in Hk as [Hk Hlt].
  rewrite lookup_drop in Hk. unfold sds_val in Hk. apply lookup_take_Some in Hk as [Hk _].
  apply (Hall (i + Z.of_nat k)); [lia|]. by replace (Z.to_nat (i + Z.of_nat k)) with (Z.to_nat i + k)%nat by lia.
Qed.

(** [sdstrim] cuts the characters of [cset], and zero bytes, off both ends of
    the string, and nothing else. *)
Lemma sdstrim_ok s :
  sds_ok s -> exists s' front back, sdstrim s cs = Ret s' /\ sds_ok s' /\
    sds_val s = front ++ sds_val s' ++ back /\ Forall trimmed front /\ Forall trimmed back /\
    (forall c, head (sds_val s') = Some c -> ~ trimmed c) /\ (forall c, last (sds_val s') = Some c -> ~ trimmed c).
Proof.
  intros Hs. pose proof Hs as [Hl0 Hf0 Hr0 Hb0 Hn0]. pose proof (sds_val_length s Hs) as Hvl.
  unfold sdstrim. rewrite sdslen_ok by done. rewrite Z.sub_add.
  destruct (trim_front_ok (sds_buf s) (Z.to_nat (sds_len s)) 0) as (sp & -> & Hsp & Hfr & Hspe); [lia..|].
  cbn [mbind res_bind]. destruct (Z.eq_dec (sds_len s) 0) as [Hz|Hz].
  { rewrite Hz. cbn. assert (sp = 0) as -> by lia.
    destruct (keep_ok s 0 0 Hs) as (s' & Hk & Hs' & Hv & _); [lia..|].
    assert (sds_val s = [] /\ sds_val s' = []) as [Hv0 Hv1].
    { split; [by apply nil_length_inv; lia|]. by rewrite Hv. }
    exists s', [], []. change (Z.to_nat (0 - 1)) with 0%nat. cbn [trim_back mbind res_bind].
    change (0 - 1 <? 0) with true. cbv iota. rewrite Hk, Hv0, Hv1. done. }
  destruct (trim_back_ok (sds_buf s) (Z.to_nat (sds_len s - 1)) (sds_len s - 1)) as (ep & -> & Hep & Hbk & Hepe); [lia..|].
  cbn [mbind res_bind].
  destruct Hspe as [Hsall|(cf & Hcf & Hncf)].
  - (* every character is removed *)
    assert (sp = sds_len s) as -> by lia. rewrite (proj2 (Z.ltb_lt _ _)) by lia.
    destruct (keep_ok s (sds_len s) 0 Hs) as (s' & Hk & Hs' & Hv & _); [lia..|].
    exists s', (sds_val s), []. rewrite Hv. cbn [app]. rewrite app_nil_r. split_and!; try done.
    pose proof (trimmed_between s 0 (sds_len s) Hs) as Hall. rewrite drop_0, take_ge in Hall by lia.
    apply Hall; [lia|lia|]. intros k c Hk'. apply Hfr. lia.
  - assert (Hsl : sp < sds_len s).
    { destruct (Z.lt_ge_cases sp (sds_len s)); [done|]. assert (sp = sds_len s) as -> by lia.
      rewrite Hn0 in Hcf. injection Hcf as <-. exfalso. apply Hncf. by right. }
    assert (Hse : sp <= ep).
    { destruct (Z.le_gt_cases sp ep); [done|]. exfalso. apply Hncf. apply (Hbk sp); [lia|done]. }
    assert (exists cb, sds_buf s !! Z.to_nat ep = Some cb /\ ~ trimmed cb) as (cb & Hcb & Hncb).
    { destruct Hepe as [He|?]; [|done]. assert (ep = sp) as -> by lia. by exists cf. }
    rewrite (proj2 (Z.ltb_ge _ _)) by lia.
    destruct (keep_ok s sp (ep - sp + 1) Hs) as (s' & Hk & Hs' & Hv & _); [lia..|].
    set (front := take (Z.to_nat sp) (sds_val s)). set (back := drop (Z.to_nat (ep + 1)) (sds_val s)).
    assert (Hcut : forall k, sp <= k <= ep -> sds_val s' !! Z.to_nat (k - sp) = sds_buf s !! Z.to_nat k).
    { intros k Hkk. rewrite Hv, lookup_take_lt, lookup_drop by lia.
      replace (Z.to_nat sp + Z.to_nat (k - sp))%nat with (Z.to_nat k) by lia.
      unfold sds_val. by rewrite lookup_take_lt by lia. }
    assert (Hlen' : Z.of_nat (length (sds_val s')) = ep - sp + 1).
    { rewrite Hv, length_take, length_drop. lia. }
    exists s', front, back. split; [done|]. split; [done|]. split_and!.
    + rewrite Hv. unfold front, back. rewrite <- (take_drop (Z.to_nat sp) (sds_val s)) at 1. f_equal.
      rewrite <- (take_drop (Z.to_nat (ep - sp + 1)) (drop (Z.to_nat sp) (sds_val s))) at 1. f_equal.
      rewrite drop_drop. f_equal. lia.
    + pose proof (trimmed_between s 0 sp Hs) as Hall. rewrite drop_0, Z.sub_0_r in Hall.
      apply Hall; [lia|lia|]. intros k c Hk'. apply Hfr. lia.
    + pose proof (trimmed_between s (ep + 1) (sds_len s) Hs) as Hall.
      rewrite take_ge in Hall by (rewrite length_drop; lia). apply Hall; [lia..|]. intros k c Hk'. apply Hbk. lia.
    + intros c. rewrite head_lookup. replace 0%nat with (Z.to_nat (sp - sp)) by lia. rewrite Hcut by lia. congruence.
    + intros c. rewrite last_lookup. replace (Nat.pred (length (sds_val s'))) with (Z.to_nat (ep - sp)) by lia.
      rewrite Hcut by lia. congruence.
Qed.

End trim.

(** ** Ranges *)

(** The index a (negative or positive) argument names. *)
Definition norm_index (len i : Z) : Z := if i <? 0 then Z.max 0 (len + i) else i.

Lemma range_index_ok len i :
  0 <= len < 2 ^ 31 -> - 2 ^ 31 <= i < 2 ^ 31 -> range_index len i = norm_index len i.
Proof.
  intros Hl Hi. unfold range_index, norm_index. destruct (Z.ltb_spec i 0); [|done].
  rewrite i32_small by lia. destruct (Z.ltb_spec (len + i) 0); lia.
Qed.

Lemma range_length_ok start end_ :
  0 <= start -> 0 <= end_ < 2 ^ 31 -> ~ (start = 0 /\ end_ = 2 ^ 31 - 1) ->
  range_length start end_ = Ret (Z.max 0 (end_ - start + 1)).
Proof.
  intros Hs He Hno. unfold range_length. destruct (Z.ltb_spec end_ start); [f_equal; lia|].
  rewrite int_ok by lia. cbn. rewrite int_ok by lia. f_equal. lia.
Qed.

(** [sdsrange] leaves the bytes from index [start] to index [end]
    inclusive, negative indices counting from the end, for every pair of
    [int]s; only the range from the first byte to [INT_MAX] overflows. *)
Theorem sdsrange_slice s start end_ :
  sds_ok s -> - 2 ^ 31 <= start < 2 ^ 31 -> - 2 ^ 31 <= end_ < 2 ^ 31 ->
  let a := norm_index (sds_len s) start in
  let e := norm_index (sds_len s) end_ in
  (0 < sds_len s -> a = 0 -> e = 2 ^ 31 - 1 -> sdsrange s start end_ = Ub SignedOverflow) /\
  (~ (0 < sds_len s /\ a = 0 /\ e = 2 ^ 31 - 1) ->
   exists s', sdsrange s start end_ = Ret s' /\ sds_ok s' /\
     sds_val s' = take (Z.to_nat (e + 1 - a)) (drop (Z.to_nat a) (sds_val s)) /\
     sds_len s' + sds_free s' = sds_len s + sds_free s).
Proof.
  intros Hs Hst Hen a e. pose proof Hs as [Hl0 Hf0 Hr0 _ _]. pose proof (sds_val_length s Hs) as Hvl.
  unfold sdsrange. rewrite sdslen_ok by done. rewrite !range_index_ok by lia. fold a e.
  assert (Ha : 0 <= a < 2 ^ 31) by (unfold a, norm_index; destruct (Z.ltb_spec start 0); lia).
  assert (He : 0 <= e < 2 ^ 31) by (unfold e, norm_index; destruct (Z.ltb_spec end_ 0); lia).
  rewrite (i32_small (sds_len s)), (i32_small (sds_len s - 1)) by lia. split.
  { intros Hl -> ->. destruct (Z.eqb_spec (sds_len s) 0); [lia|]. done. }
  intros Hno. destruct (Z.eqb_spec (sds_len s) 0) as [Hz|Hz].
  { exists s. split; [done|]. split; [done|]. split; [|done].
    assert (sds_val s = []) as -> by (apply nil_length_inv; lia). by rewrite drop_nil, take_nil. }
  rewrite (range_length_ok a e) by lia. cbn [mbind res_bind].
  assert (Hkeep : forall from len, 0 <= from -> 0 <= len -> from + len <= sds_len s ->
    take (Z.to_nat len) (drop (Z.to_nat from) (sds_val s)) = take (Z.to_nat (e + 1 - a)) (drop (Z.to_nat a) (sds_val s)) ->
    exists s', keep s from len = Ret s' /\ sds_ok s' /\
      sds_val s' = take (Z.to_nat (e + 1 - a)) (drop (Z.to_nat a) (sds_val s)) /\
      sds_len s' + sds_free s' = sds_len s + sds_free s).
  { intros from len Hf Hn Hfn Heq. destruct (keep_ok s from len Hs Hf Hn Hfn) as (s' & ? & ? & ? & ?).
    exists s'. split_and!; [done|done|congruence|done]. }
  destruct (Z.eqb_spec (Z.max 0 (e - a + 1)) 0) as [Hz0|Hz0]; cbn [negb]; cbv iota.
  { apply Hkeep; [lia..|]. replace (Z.to_nat (e + 1 - a)) with 0%nat by lia. by rewrite Hz0. }
  destruct (Z.leb_spec (sds_len s) a).
  { assert (Hnil : drop (Z.to_nat a) (sds_val s) = []) by (apply drop_ge; lia).
    rewrite Hnil, take_nil in *. unfold keep. rewrite orb_true_r. cbn [mbind res_bind].
    destruct (keep_ok s 0 0 Hs) as (s' & Hk & ? & Hv & ?); [lia..|]. exists s'. by rewrite Hv. }
  destruct (Z.leb_spec (sds_len s) e).
  - rewrite range_length_ok by lia. cbn [mbind res_bind]. apply Hkeep; [lia..|].
    rewrite !take_ge by (rewrite length_drop; lia). done.
  - apply Hkeep; [lia..|]. do 2 f_equal. lia.
Qed.

(** ** Case and substitution *)

(** A loop over the characters of a string that rewrites each of them. *)
Lemma map_chars_ok f (g : byte -> byte) b (j : Z) (n : nat) :
  0 <= j -> j + Z.of_nat n <= Z.of_nat (length b) ->
  (forall c, c ∈ take n (drop (Z.to_nat j) b) -> exists x, f (schar c) = Ret x /\ z2b x = g c) ->
  map_chars f b j n =
    Ret (take (Z.to_nat j) b ++ map g (take n (drop (Z.to_nat j) b)) ++ drop (Z.to_nat j + n) b).
Proof.
  revert b j. induction n as [|n IH]; intros b j Hj Hb Hf; cbn [map_chars].
  { rewrite take_0. cbn [map app]. by rewrite Nat.add_0_r, take_drop. }
  destruct (lookup_lt_is_Some_2 b (Z.to_nat j)) as [c Hc]; [lia|].
  rewrite (char_at_ok _ _ c) by (done || lia). cbn [mbind res_bind].
  pose proof (drop_S _ _ _ Hc) as Hd. rewrite Hd in *. cbn [take] in Hf.
  destruct (Hf c) as (x & Hx & Hg); [by left|]. rewrite Hx. cbn [mbind res_bind].
  rewrite set_char_ok by lia. cbn [mbind res_bind]. set (b' := <[_ := _]> b).
  assert (Hdrop : drop (S (Z.to_nat j)) b' = drop (S (Z.to_nat j)) b) by (unfold b'; by rewrite drop_insert_lt by lia).
  rewrite IH; replace (Z.to_nat (j + 1)) with (S (Z.to_nat j)) by lia; rewrite ?Hdrop; try lia.
  - f_equal. cbn [take map]. rewrite (take_S_r _ _ (g c)).
    2: { unfold b'. rewrite Hg. apply list_lookup_insert_eq. lia. }
    unfold b' at 1. rewrite take_insert_ge by lia. rewrite <- app_assoc. cbn [app]. do 3 f_equal.
    replace (Z.to_nat j + S n)%nat with (S (Z.to_nat j) + n)%nat by lia. rewrite <- !drop_drop. by rewrite Hdrop.
  - unfold b'. rewrite length_insert. lia.
  - intros c' Hc'. apply Hf. by right.
Qed.

Lemma sds_map_ok s f (g : byte -> byte) :
  sds_ok s -> (forall c, c ∈ sds_val s -> exists x, f (schar c) = Ret x /\ z2b x = g c) ->
  exists b, map_chars f (sds_buf s) 0 (Z.to_nat (sds_len s)) = Ret b /\
    let s' := Sds (sds_len s) (sds_free s) b in sds_ok s' /\ sds_val s' = map g (sds_val s).
Proof.
  intros Hs Hf. pose proof Hs as [Hl0 Hf0 Hr0 Hb0 Hn0]. eexists. split.
  - apply map_chars_ok; [lia|lia|]. rewrite drop_0. exact Hf.
  - change (Z.to_nat 0) with 0%nat. rewrite take_0, drop_0, app_nil_l, Nat.add_0_l. fold (sds_val s).
    assert (Hlen : length (map g (sds_val s)) = Z.to_nat (sds_len s)).
    { rewrite length_map. pose proof (sds_val_length s Hs). lia. }
    split.
    + constructor; cbn; try lia.
      * rewrite length_app, length_drop, Hlen. lia.
      * rewrite lookup_app_r by lia. rewrite Hlen, Nat.sub_diag, lookup_drop, Nat.add_0_r. done.
    + unfold sds_val at 1. cbn. rewrite <- Hlen. apply take_app_length.
Qed.

Definition lower (c : byte) : byte := if (65 <=? schar c) && (schar c <=? 90) then z2b (schar c + 32) else c.
Definition upper (c : byte) : byte := if (97 <=? schar c) && (schar c <=? 122) then z2b (schar c - 32) else c.

Lemma z2b_schar c : z2b (schar c) = c.
Proof.
  apply (inj b2z). rewrite b2z_z2b. unfold schar, wrapS. pose proof (b2z_range c).
  change (2 ^ (8 - 1)) with 128. change (2 ^ 8) with 256. rewrite Zminus_mod_idemp_l.
  replace (b2z c + 128 - 128) with (b2z c) by lia. by apply Z.mod_small.
Qed.

Lemma sdstolower_ok s :
  sds_ok s -> Forall in_ctype (sds_val s) ->
  exists s', sdstolower s = Ret s' /\ sds_ok s' /\ sds_val s' = map lower (sds_val s).
Proof.
  intros Hs Hc. destruct (sds_map_ok s tolower lower Hs) as (b & Hb & Hok & Hv).
  { intros c Hin. unfold tolower. rewrite ctype_ok by (by eapply Forall_forall in Hc). eexists. split; [done|].
    unfold lower. case_match; [done|]. apply z2b_schar. }
  pose proof Hs as []. unfold sdstolower. rewrite sdslen_ok, i32_small, Hb by (done || lia). by eexists.
Qed.

Lemma sdstoupper_ok s :
  sds_ok s -> Forall in_ctype (sds_val s) ->
  exists s', sdstoupper s = Ret s' /\ sds_ok s' /\ sds_val s' = map upper (sds_val s).
Proof.
  intros Hs Hc. destruct (sds_map_ok s toupper upper Hs) as (b & Hb & Hok & Hv).
  { intros c Hin. unfold toupper. rewrite ctype_ok by (by eapply Forall_forall in Hc). eexists. split; [done|].
    unfold upper. case_match; [done|]. apply z2b_schar. }
  pose proof Hs as []. unfold sdstoupper. rewrite sdslen_ok, i32_small, Hb by (done || lia). by eexists.
Qed.

(** [sdsmapchars] substitutes simultaneously: the first match in [from] wins. *)
Fixpoint substitute (from to : list byte) (c : byte) : byte :=
  match from, to with
  | x :: from, y :: to => if decide (x = c) then y else substitute from to c
  | _, _ => c
  end.

Lemma map_char_ok from to (i : Z) (n : nat) c :
  0 <= i -> (Z.to_nat i + n <= length from)%nat -> (Z.to_nat i + n <= length to)%nat ->
  map_char from to i n c =
    Ret (substitute (take n (drop (Z.to_nat i) from)) (take n (drop (Z.to_nat i) to)) c).
Proof.
  revert i. induction n as [|n IH]; intros i Hi Hf Ht; cbn [map_char]; [by rewrite !take_0|].
  destruct (lookup_lt_is_Some_2 from (Z.to_nat i)) as [x Hx]; [lia|].
  destruct (lookup_lt_is_Some_2 to (Z.to_nat i)) as [y Hy]; [lia|].
  rewrite (char_at_ok from _ x) by done. cbn [mbind res_bind].
  rewrite (drop_S _ _ _ Hx), (drop_S _ _ _ Hy). cbn [take substitute].
  destruct (decide (x = c)); [by apply char_at_ok|]. rewrite IH by lia.
  by replace (Z.to_nat (i + 1)) with (S (Z.to_nat i)) by lia.
Qed.

Lemma sdsmapchars_ok s from to setlen :
  sds_ok s -> 0 <= setlen <= Z.of_nat (length from) -> setlen <= Z.of_nat (length to) ->
  exists s', sdsmapchars s from to setlen = Ret s' /\ sds_ok s' /\
    sds_val s' = map (substitute (take (Z.to_nat setlen) from) (take (Z.to_nat setlen) to)) (sds_val s).
Proof.
  intros Hs Hf Ht. unfold sdsmapchars. rewrite sdslen_ok by done.
  set (f := fun x : Z => _). set (g := substitute _ _).
  destruct (sds_map_ok s f g Hs) as (b & Hb & Hok & Hv).
  { intros c _. exists (b2z (g c)). split; [|apply z2b_b2z]. unfold f. rewrite z2b_schar.
    rewrite map_char_ok by lia. by rewrite !drop_0. }
  rewrite Hb. by eexists.
Qed.

(** ** Comparison *)

(** The order of the bytes: at the first difference, or a proper prefix. *)
Inductive bytes_lt : list byte -> list byte -> Prop :=
  | lt_nil y ys : bytes_lt [] (y :: ys)
  | lt_head x y xs ys : b2z x < b2z y -> bytes_lt (x :: xs) (y :: ys)
  | lt_tail x xs ys : bytes_lt xs ys -> bytes_lt (x :: xs) (x :: ys).

(** The comparison of the common length, then of the lengths. *)
Definition cmp_bytes (xs ys : list byte) : Z :=
  let n := Nat.min (length xs) (length ys) in
  let c := memcmp_list (take n xs) (take n ys) in
  if c =? 0 then Z.of_nat (length xs) - Z.of_nat (length ys) else c.

Lemma cmp_bytes_spec xs ys :
  (cmp_bytes xs ys < 0 /\ bytes_lt xs ys) \/ (cmp_bytes xs ys = 0 /\ xs = ys) \/
  (0 < cmp_bytes xs ys /\ bytes_lt ys xs).
Proof.
  revert ys. induction xs as [|x xs IH]; intros [|y ys].
  - right. by left.
  - left. unfold cmp_bytes. cbn. split; [lia|constructor].
  - right. right. unfold cmp_bytes. cbn. split; [lia|constructor].
  - unfold cmp_bytes in *. cbv zeta in *. cbn [length Nat.min take memcmp_list].
    destruct (Z.eqb_spec (b2z x) (b2z y)) as [Hxy|Hxy].
    + apply (inj b2z) in Hxy as ->. destruct (IH ys) as [[Hc Hl]|[[Hc ->]|[Hc Hl]]].
      * left. split; [|by constructor]. revert Hc. case_match; lia.
      * right. left. split; [|done]. revert Hc. case_match; lia.
      * right. right. split; [|by constructor]. revert Hc. case_match; lia.
    + destruct (Z.lt_total (b2z x) (b2z y)) as [Hlt|[He|Hgt]]; [|done|].
      * left. rewrite Z.sgn_neg by lia. split; [done|by constructor].
      * right. right. rewrite Z.sgn_pos by lia. split; [done|by constructor].
Qed.

(** [sdscmp] orders strings as byte strings; embedded zero bytes count. *)
Lemma sdscmp_ok s1 s2 :
  sds_ok s1 -> sds_ok s2 -> sdscmp s1 s2 = Ret (cmp_bytes (sds_val s1) (sds_val s2)).
Proof.
  intros H1 H2. pose proof (sds_val_length s1 H1). pose proof (sds_val_length s2 H2).
  pose proof H1 as [Hl1 Hf1 Hr1 Hb1 _]. pose proof H2 as [Hl2 Hf2 Hr2 Hb2 _].
  unfold sdscmp, memcmp. rewrite !sdslen_ok by done.
  set (minlen := if sds_len s1 <? sds_len s2 then sds_len s1 else sds_len s2).
  assert (Hmin : 0 <= minlen <= sds_len s1 /\ minlen <= sds_len s2 /\
    Z.to_nat minlen = Nat.min (length (sds_val s1)) (length (sds_val s2))).
  { unfold minlen. destruct (Z.ltb_spec (sds_len s1) (sds_len s2)); lia. }
  destruct Hmin as (Hm1 & Hm2 & Hm). rewrite !load_prefix by lia. cbn [mbind res_bind].
  assert (Htk : forall s, sds_ok s -> minlen <= sds_len s ->
    take (Z.to_nat minlen) (sds_buf s) = take (Z.to_nat minlen) (sds_val s)).
  { intros s Hs Hm'. unfold sds_val. rewrite take_take. f_equal. lia. }
  rewrite !Htk by (done || lia). unfold cmp_bytes. rewrite <- Hm. rewrite i32_small by lia.
  cbv zeta. destruct (_ =? 0); [|done]. f_equal. lia.
Qed.

(** ** Decimal notation *)

Section decimal.
Context (junk : nat -> byte) (malloc_ok : Z -> bool).
Context (malloc_grants : forall n, 0 <= n < 2 ^ 32 -> malloc_ok n = true).

(** A digit in the notation of [pretty]. *)
Lemma digit_char v : 0 <= v -> Ascii.byte_of_ascii (pretty_N_char (Z.to_N v `mod` 10)) = z2b (48 + v mod 10).
Proof.
  intros Hv. pose proof (Z.mod_pos_bound v 10 ltac:(lia)).
  assert (Z.to_N v `mod` 10 = Z.to_N (v mod 10))%N as -> by (by rewrite Z2N.inj_mod by lia).
  assert (v mod 10 = 0 \/ v mod 10 = 1 \/ v mod 10 = 2 \/ v mod 10 = 3 \/ v mod 10 = 4 \/ v mod 10 = 5 \/
    v mod 10 = 6 \/ v mod 10 = 7 \/ v mod 10 = 8 \/ v mod 10 = 9) as Hd by lia.
  by repeat (destruct Hd as [->|Hd]); [..|rewrite Hd].
Qed.

Lemma drop_set_char b (i : Z) c b' :
  0 <= i < Z.of_nat (length b) -> set_char b i c = Ret b' ->
  length b' = length b /\ drop (Z.to_nat i) b' = c :: drop (Z.to_nat (i + 1)) b.
Proof.
  intros Hi. rewrite set_char_ok by done. intros [= <-]. split; [apply length_insert|].
  rewrite drop_insert_ge, Nat.sub_diag by lia. destruct (lookup_lt_is_Some_2 b (Z.to_nat i)) as [x Hx]; [lia|].
  rewrite (drop_S _ _ _ Hx). cbn. do 2 f_equal. lia.
Qed.

Lemma digits_loop_ok fuel (buf : list byte) (p v : Z) (s : string) :
  Z.of_nat (length buf) = 32 -> Z.of_nat fuel <= p + 1 <= 32 -> 0 <= v < 10 ^ Z.of_nat fuel ->
  (0 < fuel)%nat ->
  drop (Z.to_nat (p + 1)) buf = string_bytes s ->
  exists buf' p', digits_loop fuel buf p v = Ret (buf', p') /\ Z.of_nat (length buf') = 32 /\
    p - Z.of_nat fuel <= p' < p /\
    drop (Z.to_nat (p' + 1)) buf' = string_bytes (if v =? 0 then String (pretty_N_char 0) s else pretty_N_go (Z.to_N v) s).
Proof.
  revert buf p v s. induction fuel as [|fuel IH]; intros buf p v s Hb Hp Hv Hpos Hs.
  { lia. }
  cbn [digits_loop]. destruct (set_char buf p (z2b (48 + v mod 10))) as [b1| | |] eqn:Hset;
    [|rewrite set_char_ok in Hset by lia; done..].
  destruct (drop_set_char buf p _ b1 ltac:(lia) Hset) as [Hl1 Hd1]. cbn [mbind res_bind].
  rewrite Hs, <- digit_char in Hd1 by lia.
  assert (Hgo : 0 < v -> pretty_N_go (Z.to_N v) s =
    pretty_N_go (Z.to_N (v / 10)) (String (pretty_N_char (Z.to_N v `mod` 10)) s)).
  { intros Hv0. rewrite pretty_N_go_step by lia. do 2 f_equal. by rewrite Z2N.inj_div by lia. }
  destruct (Z.eqb_spec (v / 10) 0) as [Hz|Hz].
  - exists b1, (p - 1). split; [done|]. split; [lia|]. split; [lia|].
    rewrite Z.sub_add, Hd1. destruct (Z.eqb_spec v 0) as [->|Hv0]; [done|].
    rewrite Hgo, Hz by lia. done.
  - assert (Hv10 : 0 < v / 10) by (pose proof (Z.div_pos v 10); lia).
    assert (Hlt : v / 10 < 10 ^ Z.of_nat fuel).
    { rewrite Nat2Z.inj_succ, Z.pow_succ_r in Hv by lia. apply Z.div_lt_upper_bound; lia. }
    assert (Hfuel : (0 < fuel)%nat) by (destruct fuel; [change (10 ^ Z.of_nat 0) with 1 in Hlt|]; lia).
    destruct (IH b1 (p - 1) (v / 10) (String (pretty_N_char (Z.to_N v `mod` 10)) s)) as (b2 & p' & -> & Hl2 & Hp' & Hd2);
      [lia|lia|lia|lia|by rewrite Z.sub_add|].
    exists b2, p'. split; [done|]. split; [done|]. split; [lia|]. rewrite Hd2.
    destruct (Z.eqb_spec (v / 10) 0); [done|]. destruct (Z.eqb_spec v 0) as [->|]; [done|]. by rewrite <- Hgo by lia.
Qed.

Lemma pretty_Z_sign v : pretty v = (if v <? 0 then "-" else "") +:+ pretty (Z.to_N (Z.abs v)).
Proof. by destruct v. Qed.

Lemma pretty_N_nz v : 0 <= v -> pretty (Z.to_N v) = if v =? 0 then "0"%string else pretty_N_go (Z.to_N v) "".
Proof.
  intros Hv. unfold pretty, pretty_N. destruct (Z.eqb_spec v 0) as [->|]; [done|]. by rewrite decide_False by lia.
Qed.

(** The decimal notation of every [long long] but the least, whose negation
    overflows; at most 20 characters of the 32 of the buffer are used. *)
Lemma sdsfromlonglong_ok v :
  - 2 ^ 63 <= v < 2 ^ 63 ->
  (v = - 2 ^ 63 -> sdsfromlonglong junk malloc_ok v = Ub SignedOverflow) /\
  (v <> - 2 ^ 63 -> exists s, sdsfromlonglong junk malloc_ok v = Ret s /\ sds_ok s /\
     sds_val s = string_bytes (pretty v)).
Proof.
  intros Hv. unfold sdsfromlonglong. split.
  { intros ->. destruct (decide (- - 2 ^ 63 < 2 ^ 63)); [lia|done]. }
  intros Hne. set (a := Z.abs v).
  assert (Habs : (if v <? 0 then if decide (- v < 2 ^ 63) then Ret (- v) else Ub SignedOverflow else Ret v) = Ret a).
  { unfold a. destruct (Z.ltb_spec v 0); [rewrite decide_True by lia|]; f_equal; lia. }
  rewrite Habs. cbn [mbind res_bind]. set (b0 := fresh_bytes junk 0 32).
  assert (Hb0 : length b0 = 32%nat) by (unfold b0; rewrite length_fresh_bytes; lia).
  destruct (digits_loop_ok 20 b0 31 a "") as (b1 & p & -> & Hl1 & Hp & Hd); [lia|lia|lia|lia|by apply drop_ge|].
  rewrite <- pretty_N_nz in Hd by lia. cbn [mbind res_bind].
  assert (Hend : forall b p', Z.of_nat (length b) = 32 -> 0 <= p' + 1 <= 32 ->
    drop (Z.to_nat (p' + 1)) b = string_bytes (pretty v) ->
    exists s, sdsnewlen junk malloc_ok (Some (drop (Z.to_nat (p' + 1)) b)) (32 - (p' + 1)) = Ret s /\ sds_ok s /\
      sds_val s = string_bytes (pretty v)).
  { intros b p' Hb Hp' Heq. destruct (sdsnewlen_ok junk malloc_ok malloc_grants (drop (Z.to_nat (p' + 1)) b) (32 - (p' + 1)))
      as (s & Hs & Hok & Hval & _); [rewrite length_drop; lia|lia|].
    exists s. split; [done|]. split; [done|]. rewrite Hval, <- Heq. apply take_ge. rewrite length_drop. lia. }
  pose proof (pretty_Z_sign v) as Hsign. fold a in Hsign. destruct (Z.ltb_spec v 0) as [Hneg|Hpos].
  - destruct (set_char b1 p x2d) as [b2| | |] eqn:Hset; [|rewrite set_char_ok in Hset by lia; done..].
    destruct (drop_set_char b1 p _ b2 ltac:(lia) Hset) as [Hl2 Hd2]. cbn [mbind res_bind].
    apply Hend; [lia|lia|]. rewrite Z.sub_add, Hd2, Hd, Hsign. done.
  - cbn [mbind res_bind]. apply Hend; [lia|lia|]. by rewrite Hd, Hsign.
Qed.

End decimal.

(** ** Splitting at a separator *)

(** The strings with the separator between them. *)
Fixpoint bytes_join (sep : list byte) (ts : list (list byte)) : list byte :=
  match ts with
  | [] => []
  | [t] => t
  | t :: ts => t ++ sep ++ bytes_join sep ts
  end.

Lemma bytes_join_snoc sep ts t : bytes_join sep (ts ++ [t]) = concat (map (fun u => u ++ sep) ts) ++ t.
Proof.
  induction ts as [|u ts IH]; [done|]. cbn [app map concat]. rewrite <- app_assoc, <- IH.
  destruct ts; [|by rewrite <- app_assoc]. cbn. by rewrite <- app_assoc.
Qed.

Definition occurs (sep t : list byte) : Prop := exists a b, t = a ++ sep ++ b.

Section splitlen.
Context (junk : nat -> byte) (malloc_ok : Z -> bool).
Context (malloc_grants : forall n, 0 <= n < 2 ^ 32 -> malloc_ok n = true).
Context (s sep : list byte) (len : Z).
Context (sep_pos : sep <> []) (len_range : 0 < len <= Z.of_nat (length s)) (len_small : len < 2 ^ 27).
Context (sep_small : Z.of_nat (length sep) < 2 ^ 27).

Notation seplen := (Z.of_nat (length sep)).

(** The separator is at index [i] of the text. *)
Definition here (i : Z) : Prop := take (length sep) (drop (Z.to_nat i) s) = sep.

Lemma seplen_pos : 0 < seplen.
Proof. destruct sep; [done|simpl; lia]. Qed.

Lemma sep_at_ok (j : Z) :
  0 <= j -> j + seplen <= len -> sep_at s sep seplen j = Ret (bool_decide (here j)).
Proof.
  intros Hj Hl. pose proof seplen_pos as Hp. unfold sep_at, here.
  destruct (lookup_lt_is_Some_2 s (Z.to_nat j)) as [c Hc]; [lia|].
  destruct (lookup_lt_is_Some_2 sep 0) as [d Hd]; [lia|].
  rewrite (char_at_ok s j c), (char_at_ok sep 0 d) by (done || lia). cbn [mbind res_bind].
  destruct ((seplen =? 1) && bool_decide (c = d)) eqn:E.
  - apply andb_prop in E as [H1%Z.eqb_eq H2%bool_decide_eq_true]. subst d. rewrite bool_decide_true; [done|].
    rewrite (drop_S _ _ _ Hc). destruct sep as [|x [|y l]]; simpl in *; try lia. by injection Hd as ->.
  - rewrite (load_ok s), (load_prefix sep) by lia. cbn [mbind res_bind]. rewrite Nat2Z.id, (take_ge sep) by lia. f_equal.
    apply Bool.eq_iff_eq_true. rewrite bool_decide_eq_true, Z.eqb_eq.
    rewrite memcmp_zero; [done|]. rewrite length_take, length_drop. lia.
Qed.

(** The state of the loop: the tokens and their separators are the text before
    [start], and the separator is nowhere between [start] and [j]. *)
Record split_inv (j start slots : Z) (tokens : list sdshdr) : Prop := {
  sp_start : 0 <= start <= j;
  sp_j : j <= len;
  sp_slots : Z.of_nat (length tokens) < slots < 2 ^ 29;
  sp_few : Z.of_nat (length tokens) <= start;
  sp_text : concat (map (fun u => u ++ sep) (map sds_val tokens)) = take (Z.to_nat start) s;
  sp_ok : Forall sds_ok tokens;
  sp_none : forall i, start <= i < j -> ~ here i;
  sp_clean : Forall (fun t => ~ occurs sep (sds_val t)) tokens;
}.

Lemma add_token_ok tokens slots start n :
  0 <= start -> 0 <= n -> start + n <= len -> Z.of_nat (length tokens) < slots ->
  exists t, add_token junk malloc_ok tokens slots s start n = Ret (tokens ++ [t]) /\ sds_ok t /\
    sds_val t = take (Z.to_nat n) (drop (Z.to_nat start) s).
Proof.
  intros Hs Hn Hl Hsl. unfold add_token.
  destruct (sdsnewlen_ok junk malloc_ok malloc_grants (drop (Z.to_nat start) s) n) as (t & -> & Ht & Hv & _);
    [rewrite length_drop; lia|lia|]. cbn [mbind res_bind].
  rewrite (proj2 (Z.ltb_lt _ _)) by lia. by exists t.
Qed.

Lemma grow_slots_ok tokens slots :
  Z.of_nat (length tokens) < slots < 2 ^ 29 -> Z.of_nat (length tokens) < 2 ^ 28 - 2 ->
  exists slots', grow_slots malloc_ok tokens slots = Ret slots' /\
    Z.of_nat (length tokens) + 2 <= slots' < 2 ^ 29.
Proof.
  intros Hs Hf. unfold grow_slots. destruct (Z.ltb_spec slots (Z.of_nat (length tokens) + 2)); [|exists slots; split; [done|lia]].
  assert (slots = Z.of_nat (length tokens) + 1) as -> by lia.
  rewrite int_ok by lia. cbn [mbind res_bind]. rewrite u64_small, malloc_grants by lia.
  eexists. split; [done|]. lia.
Qed.

(** A stretch without the separator at any of its indices. *)
Lemma token_clean (i n : Z) :
  0 <= i -> 0 <= n -> (forall k, i <= k -> k + seplen <= i + n -> ~ here k) ->
  ~ occurs sep (take (Z.to_nat n) (drop (Z.to_nat i) s)).
Proof.
  intros Hi Hn Hno (a & b & Heq).
  assert (Hlen : (length a + length sep + length b <= Z.to_nat n)%nat).
  { pose proof (f_equal length Heq) as Hl. rewrite length_take, !length_app in Hl. lia. }
  apply (Hno (i + Z.of_nat (length a))); [lia..|]. unfold here.
  replace (Z.to_nat (i + Z.of_nat (length a))) with (Z.to_nat i + length a)%nat by lia.
  rewrite <- drop_drop, <- (take_drop (Z.to_nat n) (drop (Z.to_nat i) s)), Heq.
  rewrite <- !app_assoc, drop_app_length, take_app_length. done.
Qed.

Lemma split_loop_ok fuel (j start slots : Z) tokens :
  split_inv j start slots tokens -> (Z.to_nat (len - j) < fuel)%nat ->
  exists j' start' slots' tokens',
    split_loop junk malloc_ok fuel s len sep seplen j start slots tokens = Ret (start', slots', tokens') /\
    split_inv j' start' slots' tokens' /\ len - seplen < j'.
Proof.
  pose proof seplen_pos as Hp.
  revert j start slots tokens. induction fuel as [|fuel IH]; intros j start slots tokens Hinv Hf; [lia|].
  cbn [split_loop]. pose proof Hinv as [Hst Hj Hsl Hfew Htext Hok Hnone Hclean].
  destruct (Z.ltb_spec j (len - (seplen - 1))); [|exists j, start, slots, tokens; split; [done|]; split; [done|lia]].
  destruct (grow_slots_ok tokens slots) as (sl & -> & Hsl'); [done|lia|]. cbn [mbind res_bind].
  rewrite sep_at_ok by lia. cbn [mbind res_bind]. case_bool_decide as Hhere.
  - destruct (add_token_ok tokens sl start (j - start)) as (t & -> & Ht & Hv); [lia..|]. cbn [mbind res_bind].
    apply IH; [|lia]. split; [lia|lia| | | | |intros; lia|].
    + rewrite length_app. simpl. lia.
    + rewrite length_app. simpl. lia.
    + rewrite !map_app, concat_app, Htext. cbn. rewrite app_nil_r, Hv.
      unfold here in Hhere. rewrite <- Hhere at 1.
      replace (Z.to_nat (j + seplen)) with (Z.to_nat start + (Z.to_nat (j - start) + length sep))%nat by lia.
      rewrite <- (take_take_drop s (Z.to_nat start)), <- (take_take_drop (drop (Z.to_nat start) s)), drop_drop.
      do 4 f_equal. lia.
    + apply Forall_app_2; [done|]. by apply Forall_singleton.
    + apply Forall_app_2; [done|]. apply Forall_singleton. rewrite Hv. apply token_clean; [lia..|].
      intros k Hk1 Hk2. apply Hnone. lia.
  - apply IH; [|lia]. split; try done; try lia. intros i Hi.
    destruct (decide (i = j)) as [->|]; [done|]. apply Hnone. lia.
Qed.

(** [sdssplitlen] cuts a text at every occurrence of the separator from the
    left: the tokens joined by the separator are the text, no token contains
    the separator, the count is their number, the loops end and the array of
    tokens is never overrun. *)
Theorem sdssplitlen_join :
  exists ts, sdssplitlen junk malloc_ok s len sep seplen = Ret (Some (ts, Z.of_nat (length ts))) /\
    bytes_join sep (map sds_val ts) = take (Z.to_nat len) s /\
    Forall (fun t => ~ occurs sep (sds_val t)) ts /\ Forall sds_ok ts.
Proof.
  pose proof seplen_pos as Hp. unfold sdssplitlen.
  rewrite (proj2 (Z.ltb_ge _ _)), (proj2 (Z.ltb_ge _ _)) by lia. cbn [orb].
  rewrite malloc_grants by lia. cbn [negb]. destruct (Z.eqb_spec len 0); [lia|].
  destruct (split_loop_ok (S (Z.to_nat len)) 0 0 5 []) as (j & start & slots & tokens & -> & Hinv & Hj).
  { split; try done; try lia. } { lia. }
  cbn [mbind res_bind]. destruct Hinv as [Hst Hjl Hsl Hfew Htext Hok Hnone Hclean].
  destruct (add_token_ok tokens slots start (len - start)) as (t & -> & Ht & Hv); [lia..|]. cbn [mbind res_bind].
  exists (tokens ++ [t]). split; [done|]. split; [|split].
  - rewrite map_app. cbn [map]. rewrite bytes_join_snoc, Htext, Hv, take_take_drop. f_equal. lia.
  - apply Forall_app_2; [done|]. apply Forall_singleton. rewrite Hv. apply token_clean; [lia..|].
    intros k Hk1 Hk2. apply Hnone. lia.
  - apply Forall_app_2; [done|]. by apply Forall_singleton.
Qed.

End splitlen.

(** ** Examples *)

#[local] Notation zero_junk := (fun _ : nat => x00).
#[local] Notation always_ok := (fun _ : Z => true).

(** The string "abcd". *)
Definition sim_abcd : sdshdr := Sds 4 0 (string_bytes "abcd" ++ [x00]).

Lemma sim_abcd_ok : sds_ok sim_abcd.
Proof. by constructor. Qed.

Lemma sdsrange_slice_witness :
  sdsrange sim_abcd (-10) 2147483647 = Ub SignedOverflow /\
  exists s', sdsrange sim_abcd (-3) (-2) = Ret s' /\ sds_ok s' /\ sds_val s' = string_bytes "bc" /\
    sds_len s' + sds_free s' = 4.
Proof.
  split.
  - by apply (sdsrange_slice sim_abcd (-10) 2147483647 sim_abcd_ok).
  - apply (sdsrange_slice sim_abcd (-3) (-2) sim_abcd_ok); [done|done|]. by intros (_ & H & _).
Defined.

Lemma sdssplitlen_join_witness :
  let s := string_bytes "a--b---c" in let sep := string_bytes "--" in
  exists ts, sdssplitlen zero_junk always_ok s 8 sep 2 = Ret (Some (ts, Z.of_nat (length ts))) /\
    bytes_join sep (map sds_val ts) = s /\
    Forall (fun t => ~ occurs sep (sds_val t)) ts /\ Forall sds_ok ts.
Proof.
  intros s sep. apply (sdssplitlen_join zero_junk always_ok (fun _ _ => eq_refl) s sep 8); done.
Defined.
