(* ===== verification/LockFreeQueue.v ===== *)
(** * [base/lock_free_queue.h]: the single-producer single-consumer queue

    The queue is a linked list on an explicit heap: [first .. divider] are
    consumed nodes waiting to be deleted by the producer, the nodes after
    [divider] up to [last] are the contents.  [produce] and [consume] are the
    methods run alone; [pstep] and [cstep] cut the same code into its shared
    memory accesses, and [step] interleaves one producer with one consumer. *)

From S2P Require Import Prelude.
#[local] Open Scope Z_scope.
#[local] Open Scope xrtc_scope.

(** The interface the workers rely on: a first-in first-out queue. *)
Class FifoQueue (T Q : Type) := {
  q_new : Q;
  q_produce : T -> Q -> res Q;
  q_consume : Q -> res (option T * Q);
  q_ok : Q -> Prop;
  q_view : Q -> list T;
  q_new_ok : q_ok q_new /\ q_view q_new = [];
  q_produce_ok : forall t q, q_ok q ->
    exists q', q_produce t q = Ret q' /\ q_ok q' /\ q_view q' = q_view q ++ [t];
  q_consume_ok : forall q, q_ok q ->
    exists q', q_consume q = Ret (head (q_view q), q') /\ q_ok q' /\
               q_view q' = tail (q_view q);
}.

Section lfq.
Context {T : Type} (T0 : T).

Record Node := MkNode { value : T; next : option loc }.

Record lfq := Lfq {
  heap : gmap loc Node;
  first : loc;
  divider : loc;
  last : loc;
  _size : Z;
}.

(** ** The code *)

Definition deref (l : loc) : M lfq Node := fun q =>
  match heap q !! l with Some n => Ret (n, q) | None => Ub UseAfterFree end.

Definition non_null (p : option loc) : M lfq loc :=
  match p with Some l => mret l | None => ub_ NullDeref end.

(** [first = divider = last = new Node(T())]. *)
Definition LockFreeQueue (l : loc) : lfq := Lfq {[l := MkNode T0 None]} l l l 0.

(** [new Node(t)] at address [l]. *)
Definition new_node (l : loc) (t : T) : M lfq unit :=
  modify (fun q => Lfq (<[l := MkNode t None]> (heap q)) (first q) (divider q) (last q) (_size q)).

(** [last->next = node]. *)
Definition link_last (l : loc) : M lfq unit :=
  q ← get;
  n ← deref (last q);
  put (Lfq (<[last q := MkNode (value n) (Some l)]> (heap q))
           (first q) (divider q) (last q) (_size q)).

(** [last = last->next]. *)
Definition move_last : M lfq unit :=
  q ← get;
  n ← deref (last q);
  l ← non_null (next n);
  put (Lfq (heap q) (first q) (divider q) l (_size q)).

(** [++_size] and [--_size] on the atomic counter. *)
Definition add_size (d : Z) : M lfq unit :=
  modify (fun q => Lfq (heap q) (first q) (divider q) (last q) (i32 (_size q + d))).

(** [temp = first; first = first->next]. *)
Definition unlink_first : M lfq loc :=
  q ← get;
  n ← deref (first q);
  l ← non_null (next n);
  _ ← put (Lfq (heap q) l (divider q) (last q) (_size q));
  mret (first q).

(** [delete temp]. *)
Definition delete_node (l : loc) : M lfq unit :=
  _ ← deref l;
  modify (fun q => Lfq (delete l (heap q)) (first q) (divider q) (last q) (_size q)).

(** [while (divider != first) { ... }], one unit of fuel per iteration. *)
Fixpoint reclaim (fuel : nat) : M lfq unit :=
  match fuel with
  | O => mret tt
  | S fuel =>
      q ← get;
      if decide (divider q = first q) then mret tt
      else temp ← unlink_first; _ ← delete_node temp; reclaim fuel
  end.

Definition produce (l : loc) (t : T) : M lfq unit :=
  _ ← new_node l t;
  _ ← link_last l;
  _ ← move_last;
  _ ← add_size 1;
  q ← get;
  reclaim (size (heap q)).

(** [*result = divider->next->value]. *)
Definition read_next : M lfq T :=
  q ← get;
  n ← deref (divider q);
  l ← non_null (next n);
  n' ← deref l;
  mret (value n').

(** [divider = divider->next]. *)
Definition move_divider : M lfq unit :=
  q ← get;
  n ← deref (divider q);
  l ← non_null (next n);
  put (Lfq (heap q) (first q) l (last q) (_size q)).

Definition consume : M lfq (option T) :=
  q ← get;
  if decide (divider q <> last q) then
    t ← read_next;
    _ ← move_divider;
    _ ← add_size (-1);
    mret (Some t)
  else mret None.

Definition empty : M lfq bool := q ← get; mret (bool_decide (_size q = 0)).
Definition get_size : M lfq Z := q ← get; mret (_size q).

(** The destructor: walks from [first] and deletes every node. *)
Fixpoint destroy_nodes (fuel : nat) (p : option loc) : M lfq unit :=
  match fuel, p with
  | S fuel, Some l =>
      n ← deref l;
      _ ← delete_node l;
      destroy_nodes fuel (next n)
  | _, _ => mret tt
  end.

Definition destroy : M lfq unit :=
  q ← get;
  destroy_nodes (size (heap q)) (Some (first q)).

(** ** The two threads *)

(** Where the producer is, between two of its shared accesses. *)
Inductive ppc :=
  | PIdle
  | PAlloc (l : loc) (t : T)    (* the node exists, not linked yet *)
  | PLinked (l : loc) (t : T)   (* linked, [last] not moved yet *)
  | PMoved                      (* [last] moved, [_size] not incremented yet *)
  | PCheck                      (* about to test [divider != first] *)
  | PUnlink                     (* the test succeeded *)
  | PDelete (temp : loc).

(** Where the consumer is. *)
Inductive cpc :=
  | CIdle
  | CRead                       (* [divider != last] held *)
  | CMove (t : T)               (* the value is read *)
  | CSize (t : T).              (* [divider] moved, [_size] not decremented yet *)

(** The shared queue, the two program counters, and two histories: the values
    whose [produce] has taken effect and the values whose [consume] has. *)
Record conc := Conc {
  cq : lfq;
  producer : ppc;
  consumer : cpc;
  produced : list T;
  consumed : list T;
}.

(** Run a piece of code of one thread on the shared queue. *)
Definition on_queue {A} (m : M lfq A) (c : conc) (k : A -> lfq -> conc) : res conc :=
  '(a, q) ← m (cq c); Ret (k a q).

(** One access of the producer; [(l, t)] is the address and value of the next
    call of [produce] when the thread is idle. *)
Definition pstep (l : loc) (t : T) (c : conc) : res conc :=
  let upd := fun pc q => Conc q pc (consumer c) (produced c) (consumed c) in
  match producer c with
  | PIdle => on_queue (new_node l t) c (fun _ q => upd (PAlloc l t) q)
  | PAlloc l t => on_queue (link_last l) c (fun _ q => upd (PLinked l t) q)
  | PLinked _ t => on_queue move_last c (fun _ q =>
      Conc q PMoved (consumer c) (produced c ++ [t]) (consumed c))
  | PMoved => on_queue (add_size 1) c (fun _ q => upd PCheck q)
  | PCheck => Ret (upd (if decide (divider (cq c) = first (cq c)) then PIdle else PUnlink) (cq c))
  | PUnlink => on_queue unlink_first c (fun temp q => upd (PDelete temp) q)
  | PDelete temp => on_queue (delete_node temp) c (fun _ q => upd PCheck q)
  end.

(** One access of the consumer; an idle consumer calls [consume]. *)
Definition cstep (c : conc) : res conc :=
  let upd := fun pc q => Conc q (producer c) pc (produced c) (consumed c) in
  match consumer c with
  | CIdle => Ret (upd (if decide (divider (cq c) <> last (cq c)) then CRead else CIdle) (cq c))
  | CRead => on_queue read_next c (fun t q => upd (CMove t) q)
  | CMove t => on_queue move_divider c (fun _ q =>
      Conc q (producer c) (CSize t) (produced c) (consumed c ++ [t]))
  | CSize _ => on_queue (add_size (-1)) c (fun _ q => upd CIdle q)
  end.

Definition conc_init (l : loc) : conc := Conc (LockFreeQueue l) PIdle CIdle [] [].

(** The interleavings: the allocator returns any address that is not live. *)
Inductive step (c : conc) : conc -> Prop :=
  | step_producer l t c' :
      heap (cq c) !! l = None -> pstep l t c = Ret c' -> step c c'
  | step_consumer c' : cstep c = Ret c' -> step c c'.

End lfq.

Arguments MkNode {T}.
Arguments Lfq {T}.
Arguments Conc {T}.
Arguments PIdle {T}.
Arguments PMoved {T}.
Arguments PCheck {T}.
Arguments PUnlink {T}.
Arguments PDelete {T}.
Arguments CIdle {T}.
Arguments CRead {T}.

(** ** The shape of the list *)

Section shape.
Context {T : Type}.
Implicit Types (h : gmap loc (Node (T := T))) (ns : list (loc * T)) (l : loc).

(** The address of the first node of [ns], or [tl] when there is none. *)
Definition head_or (ns : list (loc * T)) (tl : option loc) : option loc :=
  match ns with [] => tl | (l, _) :: _ => Some l end.

(** [ns] lists the nodes of a linked segment that ends with the pointer [tl]. *)
Fixpoint path (h : gmap loc Node) (ns : list (loc * T)) (tl : option loc) : Prop :=
  match ns with
  | [] => True
  | (l, v) :: ns => h !! l = Some (MkNode v (head_or ns tl)) /\ path h ns tl
  end.

Lemma head_or_app ns ns' tl : head_or (ns ++ ns') tl = head_or ns (head_or ns' tl).
Proof. by destruct ns as [|[]]. Qed.

Lemma path_app h ns ns' tl :
  path h (ns ++ ns') tl <-> path h ns (head_or ns' tl) /\ path h ns' tl.
Proof.
  induction ns as [|[l v] ns IH]; simpl; [tauto|]. rewrite head_or_app, IH. tauto.
Qed.

Lemma path_insert h ns tl l n :
  l ∉ ns.*1 -> path h ns tl -> path (<[l := n]> h) ns tl.
Proof.
  induction ns as [|[l' v] ns IH]; simpl; [done|].
  intros [Hne Hl]%not_elem_of_cons [Hh Hp]. rewrite lookup_insert_ne by done. auto.
Qed.

Lemma path_delete h ns tl l : l ∉ ns.*1 -> path h ns tl -> path (delete l h) ns tl.
Proof.
  induction ns as [|[l' v] ns IH]; simpl; [done|].
  intros [Hne Hl]%not_elem_of_cons [Hh Hp]. rewrite lookup_delete_ne by done. auto.
Qed.

Lemma path_lookup h ns tl l v : path h ns tl -> (l, v) ∈ ns -> exists p, h !! l = Some (MkNode v p).
Proof.
  induction ns as [|[l' v'] ns IH]; simpl; [intros _ H; by apply elem_of_nil in H|].
  intros [Hh Hp] [Heq|Hin]%elem_of_cons; [|auto]. simplify_eq. eauto.
Qed.

(** Redirecting the pointer of the last node of a segment. *)
Lemma path_relink h ns l v tl n :
  l ∉ ns.*1 -> path h (ns ++ [(l, v)]) tl ->
  path (<[l := MkNode v (Some n)]> h) (ns ++ [(l, v)]) (Some n).
Proof.
  intros Hl [Hp Hh]%path_app. apply path_app. split.
  - by apply path_insert.
  - simpl. by rewrite lookup_insert_eq.
Qed.

(** The state of the queue: the consumed nodes [dead], the node [divider]
    points to with its consumed value, the contents [live], the pointer [tl]
    stored in the last node, and the nodes [extra] outside the list that the
    producer still owns. Nothing else is allocated. *)
Record shape (q : lfq) (dead : list (loc * T)) (dv : loc * T) (live : list (loc * T))
    (tl : option loc) (extra : list loc) : Prop := {
  sh_path : path (heap q) (dead ++ dv :: live) tl;
  sh_first : head_or (dead ++ dv :: live) None = Some (first q);
  sh_divider : divider q = dv.1;
  sh_last : exists pre v, dv :: live = pre ++ [(last q, v)];
  sh_nodup : NoDup ((dead ++ dv :: live).*1 ++ extra);
  sh_dom : dom (heap q) = list_to_set ((dead ++ dv :: live).*1 ++ extra);
}.

Implicit Types (q : lfq (T := T)).

(** The last node of the list, seen from the whole chain. *)
Lemma shape_last q dead dv live tl extra :
  shape q dead dv live tl extra ->
  exists pre v, dead ++ dv :: live = pre ++ [(last q, v)] /\ last q ∉ pre.*1 /\
    heap q !! last q = Some (MkNode v tl).
Proof.
  intros [Hp _ _ (pre & v & Heq) Hnd _]. rewrite Heq, app_assoc in Hp, Hnd |- *.
  exists (dead ++ pre), v. split; [done|]. split.
  - rewrite fmap_app in Hnd. apply NoDup_app in Hnd as (Hnd & _).
    apply NoDup_app in Hnd as (_ & Hni & _). intros Hin. apply (Hni _ Hin). simpl. left.
  - apply path_app in Hp as [_ [Hh _]]. done.
Qed.

Lemma shape_add_size q dead dv live tl extra d :
  shape q dead dv live tl extra ->
  exists q', add_size d q = Ret (tt, q') /\ shape q' dead dv live tl extra /\
    heap q' = heap q /\ _size q' = wrapS 32 (_size q + d).
Proof. intros []. eexists. split; [done|]. split; [by constructor|done]. Qed.

Lemma shape_new_node q dead dv live tl l t :
  heap q !! l = None -> shape q dead dv live tl [] ->
  exists q', new_node l t q = Ret (tt, q') /\ shape q' dead dv live tl [l] /\
    heap q' !! l = Some (MkNode t None) /\ _size q' = _size q.
Proof.
  intros Hfresh [Hp Hf Hd Hl Hnd Hdom]. rewrite app_nil_r in Hnd, Hdom.
  assert (Hl' : l ∉ (dead ++ dv :: live).*1).
  { apply not_elem_of_dom in Hfresh. rewrite Hdom in Hfresh. set_solver. }
  eexists. split; [done|]. cbn. split; [|by rewrite lookup_insert_eq].
  constructor; cbn; try done.
  - by apply path_insert.
  - apply NoDup_app. split_and!; [done| |apply NoDup_singleton].
    intros x Hx ->%list_elem_of_singleton. done.
  - rewrite dom_insert_L, Hdom, list_to_set_app_L. set_solver.
Qed.

Lemma shape_link_last q dead dv live l n :
  heap q !! l = Some n -> shape q dead dv live None [l] ->
  exists q', link_last l q = Ret (tt, q') /\ shape q' dead dv live (Some l) [l] /\
    heap q' !! l = Some n /\ _size q' = _size q.
Proof.
  intros Hn Hs. pose proof (shape_last _ _ _ _ _ _ Hs) as (pre & v & Hc & Hni & Hlast).
  destruct Hs as [Hp Hf Hd Hl Hnd Hdom].
  assert (Hne : last q <> l).
  { intros Heq. apply NoDup_app in Hnd as (_ & Hnd & _). apply (Hnd l); [|left].
    rewrite Hc, fmap_app, <- Heq. set_solver. }
  unfold link_last, deref; run. rewrite Hlast; run.
  eexists. split; [done|]. cbn. split; [|by rewrite lookup_insert_ne].
  constructor; cbn; try done.
  - rewrite Hc in Hp |- *. eapply path_relink; done.
  - rewrite dom_insert_L, <- Hdom. apply elem_of_dom_2 in Hlast. set_solver.
Qed.

Lemma shape_move_last q dead dv live l t :
  heap q !! l = Some (MkNode t None) -> shape q dead dv live (Some l) [l] ->
  exists q', move_last q = Ret (tt, q') /\ shape q' dead dv (live ++ [(l, t)]) None [] /\
    _size q' = _size q.
Proof.
  intros Hn Hs. pose proof (shape_last _ _ _ _ _ _ Hs) as (pre & v & Hc & Hni & Hlast).
  destruct Hs as [Hp Hf Hd Hl Hnd Hdom].
  unfold move_last, deref; run. rewrite Hlast; run.
  eexists. split; [done|]. cbn. split; [|done].
  assert (Ha : dead ++ dv :: live ++ [(l, t)] = (dead ++ dv :: live) ++ [(l, t)])
    by (by rewrite <- app_assoc).
  constructor; cbn; rewrite ?Ha, ?app_nil_r, ?fmap_app in *; try done.
  - apply path_app. simpl. auto.
  - by rewrite <- Hf, head_or_app; destruct dead as [|[]], dv.
  - by exists (dv :: live), t.
Qed.

Lemma shape_unlink_first q d dead dv live tl :
  shape q (d :: dead) dv live tl [] ->
  exists q', unlink_first q = Ret (d.1, q') /\ shape q' dead dv live tl [d.1] /\
    _size q' = _size q.
Proof.
  destruct d as [l v]. intros [Hp Hf Hd Hl Hnd Hdom]. simpl in *.
  destruct Hp as [Hh Hp]. simplify_eq.
  unfold unlink_first, deref; run. rewrite Hh; run.
  destruct (head_or (dead ++ dv :: live) tl) as [l'|] eqn:E; [|by destruct dead as [|[]], dv].
  cbn. eexists. split; [done|]. cbn. rewrite app_nil_r in Hnd, Hdom. split; [|done].
  constructor; cbn; try done.
  - by destruct dead as [|[]], dv.
  - rewrite Permutation_app_comm. simpl. done.
  - rewrite Hdom, list_to_set_app_L. set_solver.
Qed.

Lemma shape_delete_node q dead dv live tl l :
  shape q dead dv live tl [l] ->
  exists q', delete_node l q = Ret (tt, q') /\ shape q' dead dv live tl [] /\
    _size q' = _size q.
Proof.
  intros [Hp Hf Hd Hl Hnd Hdom].
  apply NoDup_app in Hnd as (Hnd & Hni & _).
  assert (Hl' : l ∉ (dead ++ dv :: live).*1) by (intros Hin; apply (Hni _ Hin); left).
  assert (exists n, heap q !! l = Some n) as [n Hn].
  { apply elem_of_dom. rewrite Hdom, list_to_set_app_L. set_solver. }
  unfold delete_node, deref; run. rewrite Hn; run.
  eexists. split; [done|]. cbn. split; [|done].
  constructor; cbn; rewrite ?app_nil_r; try done.
  - by apply path_delete.
  - rewrite dom_delete_L, Hdom, list_to_set_app_L. set_solver.
Qed.

Lemma shape_read_next q dead dv n live tl extra :
  shape q dead dv (n :: live) tl extra -> read_next q = Ret (n.2, q).
Proof.
  intros [Hp _ Hd _ _ _]. destruct dv as [dl dv], n as [l v]. simpl in Hd.
  apply path_app in Hp as [_ Hp]. simpl in Hp. destruct Hp as (Hh & Hh' & _).
  unfold read_next, deref, non_null; run. rewrite Hd, Hh; run. simpl. by rewrite Hh'.
Qed.

Lemma shape_move_divider q dead dv n live tl extra :
  shape q dead dv (n :: live) tl extra ->
  exists q', move_divider q = Ret (tt, q') /\ shape q' (dead ++ [dv]) n live tl extra /\
    heap q' = heap q /\ _size q' = _size q.
Proof.
  intros [Hp Hf Hd Hl Hnd Hdom]. pose proof Hp as Hp'.
  destruct dv as [dl dv], n as [l v]. simpl in Hd.
  apply path_app in Hp' as [_ Hp']. simpl in Hp'. destruct Hp' as (Hh & _).
  unfold move_divider, deref; run. rewrite Hd, Hh; run.
  eexists. split; [done|]. cbn. split; [|done].
  constructor; cbn; rewrite <- ?app_assoc; try done.
  destruct Hl as (pre & w & Heq). destruct pre as [|[] pre]; simpl in Heq; simplify_eq.
  by exists pre, w.
Qed.

(** The test of [consume] and of the reclaiming loop. *)
Lemma shape_divider_last q dead dv live tl extra :
  shape q dead dv live tl extra -> divider q = last q <-> live = [].
Proof.
  intros [_ _ -> (pre & v & Heq) Hnd _]. split.
  - destruct (decide (live = [])) as [|Hne]; [done|]. intros Hd.
    destruct pre as [|p pre]; simplify_eq/=. exfalso.
    rewrite fmap_app in Hnd. apply NoDup_app in Hnd as (Hnd & _).
    apply NoDup_app in Hnd as (_ & _ & Hnd). simpl in Hnd.
    apply NoDup_cons in Hnd as [Hni _]. apply Hni. rewrite Hd, fmap_app. set_solver.
  - intros ->. destruct pre as [|p pre]; simplify_eq/=; [done|]. by destruct pre.
Qed.

Lemma shape_divider_first q dead dv live tl extra :
  shape q dead dv live tl extra -> divider q = first q <-> dead = [].
Proof.
  intros [_ Hf -> _ Hnd _]. destruct dead as [|[l v] dead], dv as [dl dv]; simplify_eq/=.
  - done.
  - split; [|done]. intros ->. exfalso.
    apply NoDup_cons in Hnd as [Hni _]. apply Hni. rewrite fmap_app. set_solver.
Qed.
End shape.

(** ** The methods run alone *)

Section sequential.
Context {T : Type}.
Implicit Types (q : lfq (T := T)).

(** The contents, read off the heap from [divider->next]. *)
Fixpoint walk (fuel : nat) (h : gmap loc (Node (T := T))) (p : option loc) : list T :=
  match fuel, p with
  | S fuel, Some l =>
      match h !! l with Some n => value n :: walk fuel h (next n) | None => [] end
  | _, _ => []
  end.

Definition contents (q : lfq) : list T :=
  match heap q !! divider q with
  | Some n => walk (size (heap q)) (heap q) (next n)
  | None => []
  end.

(** No call is in progress. *)
Definition lfq_ok (q : lfq) : Prop :=
  exists dead dv live, shape (T := T) q dead dv live None [] /\
    _size q = wrapS 32 (Z.of_nat (length live)).

Lemma walk_path h ns fuel :
  path h ns None -> (length ns <= fuel)%nat -> walk fuel h (head_or ns None) = ns.*2.
Proof.
  revert fuel. induction ns as [|[l v] ns IH]; intros [|fuel] Hp Hf; simpl in *; try done; [lia|].
  destruct Hp as [-> Hp]. simpl. f_equal. apply IH; [done|lia].
Qed.

Lemma shape_heap_size q dead dv live tl extra :
  shape q dead dv live tl extra ->
  size (heap q) = (length dead + S (length live) + length extra)%nat.
Proof.
  intros [_ _ _ _ Hnd Hdom]. rewrite <- size_dom, Hdom, size_list_to_set by done.
  rewrite length_app, length_fmap, length_app. done.
Qed.

Lemma shape_contents q dead dv live extra :
  shape q dead dv live None extra -> contents q = live.*2.
Proof.
  intros Hs. pose proof (shape_heap_size _ _ _ _ _ _ Hs) as Hsz.
  destruct Hs as [Hp _ Hd _ _ _]. destruct dv as [dl v]. simpl in Hd.
  apply path_app in Hp as [_ [Hh Hp]]. unfold contents. rewrite Hd, Hh. simpl.
  apply walk_path; [done|lia].
Qed.

Lemma reclaim_ok fuel q dead dv live tl :
  shape q dead dv live tl [] -> (length dead <= fuel)%nat ->
  exists q', reclaim fuel q = Ret (tt, q') /\ shape q' [] dv live tl [] /\
    _size q' = _size q.
Proof.
  revert q dead. induction fuel as [|fuel IH]; intros q dead Hs Hf.
  { destruct dead; simpl in Hf; [|lia]. by exists q. }
  simpl. run. pose proof (shape_divider_first _ _ _ _ _ _ Hs) as Hdf.
  case_decide as Hd.
  { apply Hdf in Hd as ->. by exists q. }
  destruct dead as [|d dead]; [tauto|].
  destruct (shape_unlink_first _ _ _ _ _ _ Hs) as (q1 & -> & Hs1 & Hz1).
  destruct (shape_delete_node _ _ _ _ _ _ Hs1) as (q2 & -> & Hs2 & Hz2).
  destruct (IH _ _ Hs2) as (q3 & -> & Hs3 & Hz3); [simpl in Hf; lia|].
  exists q3. by rewrite Hz3, Hz2, Hz1.
Qed.

Lemma LockFreeQueue_ok t0 l : lfq_ok (LockFreeQueue t0 l) /\ contents (LockFreeQueue t0 l) = [].
Proof.
  assert (Hs : shape (LockFreeQueue t0 l) [] (l, t0) [] None []).
  { constructor; simpl; rewrite ?dom_singleton_L; try done.
    - by rewrite lookup_singleton_eq.
    - by exists [], t0.
    - apply NoDup_singleton.
    - set_solver. }
  split; [|by rewrite (shape_contents _ _ _ _ _ Hs)].
  by exists [], (l, t0), [].
Qed.

Lemma produce_ok l t q :
  lfq_ok q -> heap q !! l = None ->
  exists q', produce l t q = Ret (tt, q') /\ lfq_ok q' /\
    contents q' = contents q ++ [t] /\
    size (heap q') = S (length (contents q')).
Proof.
  intros (dead & dv & live & Hs & Hz) Hl.
  rewrite (shape_contents _ _ _ _ _ Hs). unfold produce. run.
  destruct (shape_new_node _ _ _ _ _ _ t Hl Hs) as (q1 & -> & Hs1 & Hn1 & Hz1).
  destruct (shape_link_last _ _ _ _ _ _ Hn1 Hs1) as (q2 & -> & Hs2 & Hn2 & Hz2).
  destruct (shape_move_last _ _ _ _ _ _ Hn2 Hs2) as (q3 & -> & Hs3 & Hz3).
  destruct (shape_add_size _ _ _ _ _ _ 1 Hs3) as (q4 & -> & Hs4 & _ & Hz4).
  destruct (reclaim_ok (size (heap q4)) _ _ _ _ _ Hs4) as (q5 & -> & Hs5 & Hz5).
  { rewrite (shape_heap_size _ _ _ _ _ _ Hs4). lia. }
  exists q5. split; [done|]. split.
  - exists [], dv, (live ++ [(l, t)]). split; [done|].
    rewrite Hz5, Hz4, Hz3, Hz2, Hz1, Hz, length_app. apply wrapS_add_l. simpl. lia.
  - rewrite (shape_contents _ _ _ _ _ Hs5), (shape_heap_size _ _ _ _ _ _ Hs5).
    rewrite fmap_app. split; [done|]. rewrite !length_app, length_fmap. simpl. lia.
Qed.

Lemma consume_ok q :
  lfq_ok q ->
  exists q', consume q = Ret (head (contents q), q') /\ lfq_ok q' /\
    contents q' = tail (contents q).
Proof.
  intros (dead & dv & live & Hs & Hz). rewrite (shape_contents _ _ _ _ _ Hs).
  pose proof (shape_divider_last _ _ _ _ _ _ Hs) as Hdl. unfold consume. run.
  case_decide as Hd.
  - destruct live as [|n live]; [tauto|].
    rewrite (shape_read_next _ _ _ _ _ _ _ Hs).
    destruct (shape_move_divider _ _ _ _ _ _ _ Hs) as (q1 & -> & Hs1 & _ & Hz1).
    destruct (shape_add_size _ _ _ _ _ _ (-1) Hs1) as (q2 & -> & Hs2 & _ & Hz2).
    exists q2. split; [done|]. split.
    + exists (dead ++ [dv]), n, live. split; [done|].
      rewrite Hz2, Hz1, Hz. apply wrapS_add_l. simpl. lia.
    + by rewrite (shape_contents _ _ _ _ _ Hs2).
  - assert (live = []) as -> by (apply Hdl; destruct (decide (divider q = last q)); tauto).
    exists q. split; [done|]. split; [by exists dead, dv, []|].
    by rewrite (shape_contents _ _ _ _ _ Hs).
Qed.

Lemma destroy_nodes_ok fuel q ns :
  path (heap q) ns None -> NoDup ns.*1 -> dom (heap q) = list_to_set ns.*1 ->
  (length ns <= fuel)%nat ->
  exists q', destroy_nodes fuel (head_or ns None) q = Ret (tt, q') /\ heap q' = ∅.
Proof.
  revert q fuel. induction ns as [|[l v] ns IH]; intros q fuel Hp Hnd Hdom Hf.
  { exists q. split; [by destruct fuel|]. by apply dom_empty_inv_L. }
  destruct fuel as [|fuel]; [simpl in Hf; lia|]. simpl in *. destruct Hp as [Hh Hp].
  apply NoDup_cons in Hnd as [Hni Hnd].
  unfold delete_node, deref; run. rewrite Hh. cbn beta iota. rewrite Hh. simpl.
  apply IH; simpl; [by apply path_delete|done| |lia].
  rewrite dom_delete_L, Hdom. set_solver.
Qed.

Lemma destroy_ok q :
  lfq_ok q -> exists q', destroy q = Ret (tt, q') /\ heap q' = ∅.
Proof.
  intros (dead & dv & live & Hs & _). pose proof (shape_heap_size _ _ _ _ _ _ Hs) as Hsz.
  destruct Hs as [Hp Hf _ _ Hnd Hdom]. rewrite app_nil_r in Hnd, Hdom.
  unfold destroy. run. rewrite <- Hf. eapply destroy_nodes_ok; try done.
  rewrite Hsz, length_app. simpl. lia.
Qed.
End sequential.

(** The implementation keeps the promise of the interface; the allocator of
    the instance picks some address that is not live. *)
#[export] Program Instance lfq_fifo {T} (t0 : T) : FifoQueue T (lfq (T := T)) := {
  q_new := LockFreeQueue t0 1%positive;
  q_produce t q :=
    '(_, q') ← produce (fresh (dom (heap q))) t q; Ret q';
  q_consume q := consume q;
  q_ok := lfq_ok;
  q_view := contents;
}.
Next Obligation. intros T t0. apply LockFreeQueue_ok. Qed.
Next Obligation.
  intros T t0 t q Hq. destruct (produce_ok (fresh (dom (heap q))) t q Hq) as (q' & -> & ? & ? & _).
  { apply not_elem_of_dom, is_fresh. }
  by exists q'.
Qed.
Next Obligation. intros T t0 q Hq. apply (consume_ok q Hq). Qed.

(** ** One producer and one consumer, interleaved *)

Section interleaved.
Context {T : Type}.
Implicit Types (c : conc (T := T)).

(** What the list looks like at each point of the producer. *)
Definition producer_shape (c : conc (T := T)) (dead : list (loc * T)) (dv : loc * T)
    (live : list (loc * T)) : Prop :=
  match producer c with
  | PIdle | PMoved | PCheck => shape (cq c) dead dv live None []
  | PAlloc l t => shape (cq c) dead dv live None [l] /\ heap (cq c) !! l = Some (MkNode t None)
  | PLinked l t => shape (cq c) dead dv live (Some l) [l] /\ heap (cq c) !! l = Some (MkNode t None)
  | PUnlink => shape (cq c) dead dv live None [] /\ dead <> []
  | PDelete temp => shape (cq c) dead dv live None [temp]
  end.

(** What the consumer has already established. *)
Definition consumer_view (c : conc) (live : list (loc * T)) : Prop :=
  match consumer c with
  | CIdle | CSize _ => True
  | CRead => live <> []
  | CMove t => exists l live', live = (l, t) :: live'
  end.

(** The counter lags behind the list by the increment the producer still owes
    and leads it by the decrement the consumer still owes. *)
Definition owed (c : conc (T := T)) : Z :=
  (match producer c with PMoved => -1 | _ => 0 end) +
  (match consumer c with CSize _ => 1 | _ => 0 end).

Definition conc_inv (c : conc) : Prop :=
  exists dead dv live,
    producer_shape c dead dv live /\ consumer_view c live /\
    produced c = consumed c ++ live.*2 /\
    _size (cq c) = wrapS 32 (Z.of_nat (length live) + owed c).

(** The heap-level shape is available at every point of the producer. *)
Lemma producer_shape_shape c dead dv live :
  producer_shape c dead dv live -> exists tl extra, shape (cq c) dead dv live tl extra.
Proof. unfold producer_shape. destruct (producer c); naive_solver. Qed.

(** Moves of the consumer leave what the producer relies on. *)
Lemma producer_shape_consumer c q pc pr co dead dv live dead' dv' live' :
  (forall tl extra, shape (cq c) dead dv live tl extra -> shape q dead' dv' live' tl extra) ->
  heap q = heap (cq c) -> (dead <> [] -> dead' <> []) ->
  producer_shape c dead dv live ->
  producer_shape (Conc q (producer c) pc pr co) dead' dv' live'.
Proof.
  intros Hsh Hh Hd. unfold producer_shape. simpl. rewrite Hh.
  destruct (producer c); naive_solver.
Qed.

Lemma conc_inv_init t0 l : conc_inv (conc_init t0 l).
Proof.
  destruct (LockFreeQueue_ok t0 l) as [(dead & dv & live & Hs & Hz) Hc].
  rewrite (shape_contents _ _ _ _ _ Hs) in Hc.
  exists dead, dv, live. simpl. rewrite Hc. split_and!; try done.
  rewrite <- (length_fmap snd live), Hc. done.
Qed.

Lemma conc_inv_pstep l t c :
  conc_inv c -> heap (cq c) !! l = None -> exists c', pstep l t c = Ret c' /\ conc_inv c'.
Proof.
  intros (dead & dv & live & Hp & Hv & Hpr & Hz) Hl.
  destruct c as [q pp cc pr co].
  unfold producer_shape, owed, consumer_view in *. cbn [producer consumer cq produced consumed] in *.
  unfold pstep, on_queue. cbn [producer consumer cq produced consumed]. destruct pp as [|l' t'|l' t'| | | |l'].
  - destruct (shape_new_node _ _ _ _ _ _ t Hl Hp) as (q' & -> & Hs & Hn & Hz').
    eexists. split; [done|]. exists dead, dv, live. by rewrite <- Hz' in Hz.
  - destruct Hp as [Hs Hn].
    destruct (shape_link_last _ _ _ _ _ _ Hn Hs) as (q' & -> & Hs' & Hn' & Hz').
    eexists. split; [done|]. exists dead, dv, live. by rewrite <- Hz' in Hz.
  - destruct Hp as [Hs Hn].
    destruct (shape_move_last _ _ _ _ _ _ Hn Hs) as (q' & -> & Hs' & Hz').
    eexists. split; [done|]. exists dead, dv, (live ++ [(l', t')]).
    split_and!; simpl; [done| | |].
    + unfold consumer_view in *; simpl. destruct cc; try done.
      * by destruct live.
      * destruct Hv as (l1 & live' & ->). by exists l1, (live' ++ [(l', t')]).
    + by rewrite Hpr, fmap_app, app_assoc.
    + rewrite Hz', Hz, length_app. f_equal. unfold owed. simpl. lia.
  - destruct (shape_add_size _ _ _ _ _ _ 1 Hp) as (q' & -> & Hs & _ & Hz').
    eexists. split; [done|]. exists dead, dv, live. split_and!; try done. simpl.
    rewrite Hz', Hz. apply wrapS_add_l. unfold owed. simpl. lia.
  - pose proof (shape_divider_first _ _ _ _ _ _ Hp) as Hdf. eexists. split; [done|].
    exists dead, dv, live. case_decide; split_and!; try done.
    simpl. split; [done|]. tauto.
  - destruct Hp as [Hs Hd]. destruct dead as [|d dead]; [done|].
    destruct (shape_unlink_first _ _ _ _ _ _ Hs) as (q' & -> & Hs' & Hz').
    eexists. split; [done|]. exists dead, dv, live. by rewrite <- Hz' in Hz.
  - destruct (shape_delete_node _ _ _ _ _ _ Hp) as (q' & -> & Hs & Hz').
    eexists. split; [done|]. exists dead, dv, live. by rewrite <- Hz' in Hz.
Qed.

Lemma conc_inv_cstep c : conc_inv c -> exists c', cstep c = Ret c' /\ conc_inv c'.
Proof.
  intros (dead & dv & live & Hp & Hv & Hpr & Hz).
  destruct (producer_shape_shape _ _ _ _ Hp) as (tl & extra & Hs).
  unfold cstep, on_queue, consumer_view, owed in *. destruct c as [q pp cc pr co]; cbn [producer consumer cq produced consumed] in *.
  destruct cc as [| |t|t].
  - pose proof (shape_divider_last _ _ _ _ _ _ Hs) as Hdl.
    eexists. split; [done|]. exists dead, dv, live. case_decide; split_and!; try done.
    simpl. unfold consumer_view. simpl. tauto.
  - destruct live as [|n live]; [done|].
    rewrite (shape_read_next _ _ _ _ _ _ _ Hs).
    eexists. split; [done|]. exists dead, dv, (n :: live). split_and!; try done.
    destruct n as [l t]. by exists l, live.
  - destruct Hv as (l & live' & ->).
    destruct (shape_move_divider _ _ _ _ _ _ _ Hs) as (q' & He & _ & Hh & Hz'). rewrite He.
    eexists. split; [done|]. exists (dead ++ [dv]), (l, t), live'. split_and!; simpl; try done.
    + eapply (producer_shape_consumer (Conc q pp (CMove t) pr co)); [|done| |exact Hp].
      * intros tl' extra' Hs'.
        destruct (shape_move_divider _ _ _ _ _ _ _ Hs') as (q2 & He2 & Hs2 & _).
        simpl in He2. rewrite He in He2. by simplify_eq.
      * by destruct dead.
    + by rewrite Hpr, <- app_assoc.
    + rewrite Hz', Hz. f_equal. simpl. unfold owed. simpl. lia.
  - destruct (shape_add_size _ _ _ _ _ _ (-1) Hs) as (q' & He & _ & Hh & Hz'). rewrite He.
    eexists. split; [done|]. exists dead, dv, live. split_and!; simpl; try done.
    + eapply (producer_shape_consumer (Conc q pp (CSize t) pr co)); [|done|done|exact Hp].
      intros tl' extra' Hs'.
      destruct (shape_add_size _ _ _ _ _ _ (-1) Hs') as (q2 & He2 & Hs2 & _).
      simpl in He2. rewrite He in He2. by simplify_eq.
    + rewrite Hz', Hz. apply wrapS_add_l. unfold owed. simpl. lia.
Qed.

Lemma conc_inv_reach t0 l0 c : rtc step (conc_init t0 l0) c -> conc_inv c.
Proof.
  intros Hr. eapply (rtc_ind_r (fun c => conc_inv c)); [apply conc_inv_init| |exact Hr].
  intros c1 c2 _ Hst Hi. destruct Hst as [l t c' Hl He|c' He].
  - destruct (conc_inv_pstep l t _ Hi Hl) as (c2 & He2 & Hi2). by rewrite He in He2; simplify_eq.
  - destruct (conc_inv_cstep _ Hi) as (c2 & He2 & Hi2). by rewrite He in He2; simplify_eq.
Qed.
End interleaved.

(** ** Properties of the interleaved queue *)

(** C7: no interleaving of one producer with one consumer, for any choice of
    addresses by the allocator, reads or deletes a node that is not live or
    follows a null pointer: from every reachable state both threads can run
    their next access. *)
Theorem spsc_safe {T} (t0 : T) l0 c l t :
  rtc step (conc_init t0 l0) c -> heap (cq c) !! l = None ->
  (exists c1, pstep l t c = Ret c1) /\ (exists c2, cstep c = Ret c2).
Proof.
  intros Hr Hl. pose proof (conc_inv_reach _ _ _ Hr) as Hi. split.
  - destruct (conc_inv_pstep l t _ Hi Hl) as (c1 & ? & _). eauto.
  - destruct (conc_inv_cstep _ Hi) as (c2 & ? & _). eauto.
Qed.

(** C8: the queue is linearizable to a FIFO: in every reachable state of every
    interleaving the values consumed so far are, in order, the oldest values
    produced, nothing is lost or duplicated, and what remains is the linked
    list hanging off [divider]. *)
Theorem spsc_fifo {T} (t0 : T) l0 c :
  rtc step (conc_init t0 l0) c ->
  exists rest, produced c = consumed c ++ rest /\
    ((forall l t, producer c <> PLinked l t) -> contents (cq c) = rest).
Proof.
  intros Hr. destruct (conc_inv_reach _ _ _ Hr) as (dead & dv & live & Hp & _ & Hpr & _).
  exists live.*2. split; [done|]. intros Hne. unfold producer_shape in Hp.
  destruct (producer c); naive_solver eauto using shape_contents.
Qed.

(** [_size] is the number of queued values up to the one increment the
    producer and the one decrement the consumer may still owe, so [size()] can
    be off by one (even [-1]) while a call is in progress and is exact when
    neither thread is inside a counter update. *)
Theorem spsc_size {T} (t0 : T) l0 c :
  rtc step (conc_init t0 l0) c ->
  Z.of_nat (length (produced c)) < 2 ^ 31 - 1 ->
  _size (cq c) = Z.of_nat (length (produced c)) - Z.of_nat (length (consumed c)) + owed c /\
  -1 <= owed c <= 1.
Proof.
  intros Hr Hlen. destruct (conc_inv_reach _ _ _ Hr) as (dead & dv & live & Hp & Hv & Hpr & Hz).
  rewrite Hpr, length_app, length_fmap in Hlen |- *. rewrite Hz.
  assert (-1 <= owed c <= 1) by (unfold owed; destruct (producer c), (consumer c); lia).
  split; [|done]. rewrite i32_small; lia.
Qed.

(** ** Properties of whole calls *)

(** A call of a client of the queue, and the results of a sequence of calls on
    an implementation and on the specification, a list. *)
Inductive call (T : Type) := Produce (t : T) | Consume.
Arguments Produce {T}.
Arguments Consume {T}.

Fixpoint run_calls `{FifoQueue T Q} (cs : list (call T)) (q : Q) : res (list (option T)) :=
  match cs with
  | [] => Ret []
  | Produce t :: cs => q ← q_produce t q; run_calls cs q
  | Consume :: cs =>
      '(r, q) ← q_consume q; rs ← run_calls cs q; Ret (r :: rs)
  end.

Fixpoint spec_calls {T} (cs : list (call T)) (l : list T) : list (option T) :=
  match cs with
  | [] => []
  | Produce t :: cs => spec_calls cs (l ++ [t])
  | Consume :: cs => head l :: spec_calls cs (tail l)
  end.

Lemma run_calls_spec `{FifoQueue T Q} cs q :
  q_ok q -> run_calls cs q = Ret (spec_calls cs (q_view q)).
Proof.
  revert q. induction cs as [|[t|] cs IH]; intros q Hq; simpl; [done| |].
  - destruct (q_produce_ok t q Hq) as (q' & -> & Hq' & <-). simpl. by apply IH.
  - destruct (q_consume_ok q Hq) as (q' & -> & Hq' & <-). simpl. by rewrite (IH q' Hq').
Qed.

(** Refinement of whole calls: every sequence of [produce] and [consume]
    calls on the linked implementation returns what a list used as a FIFO
    returns, and no call leaves defined behaviour or loops. *)
Theorem lfq_refines_fifo {T} (t0 : T) (cs : list (call T)) :
  run_calls (Q := lfq) (H := lfq_fifo t0) cs (LockFreeQueue t0 1%positive) =
  Ret (spec_calls cs []).
Proof.
  destruct (LockFreeQueue_ok t0 1%positive) as [Hok Hc].
  rewrite (run_calls_spec (H := lfq_fifo t0) cs _ Hok). by rewrite <- Hc.
Qed.

(** C18: memory: when [produce] returns, every consumed node has been deleted
    (one node per queued value plus the one [divider] points to is live), and
    the destructor deletes all the rest. *)
Theorem lfq_no_leak {T} (q : lfq (T := T)) l t :
  lfq_ok q -> heap q !! l = None ->
  exists q1 q2, produce l t q = Ret (tt, q1) /\
    size (heap q1) = S (length (contents q ++ [t])) /\
    destroy q1 = Ret (tt, q2) /\ heap q2 = ∅.
Proof.
  intros Hq Hl. destruct (produce_ok l t q Hq Hl) as (q1 & He & Hq1 & <- & Hsz).
  destruct (destroy_ok q1 Hq1) as (q2 & Hd & Hh). by exists q1, q2.
Qed.

(** ** Witnesses *)

(** Producer [new, link, move], consumer [test, read, move, --size]: the
    counter reads [-1] although no call failed. *)
Definition early_consume : conc (T := Z) :=
  Conc (Lfq {[1%positive := MkNode 0 (Some 2%positive); 2%positive := MkNode 7 None]}
            1%positive 2%positive 2%positive (-1))
       PMoved CIdle [7] [7].

(** The state after a list of turns: [Some (l, t)] is a turn of the producer. *)
Fixpoint run_turns {T} (ts : list (option (loc * T))) (c : conc) : res conc :=
  match ts with
  | [] => Ret c
  | Some (l, t) :: ts =>
      if decide (heap (cq c) !! l = None :> option (Node (T := T)))
      then c' ← pstep l t c; run_turns ts c' else Abort
  | None :: ts => c' ← cstep c; run_turns ts c'
  end.

Lemma run_turns_reach {T} ts (c c' : conc (T := T)) :
  run_turns ts c = Ret c' -> rtc step c c'.
Proof.
  revert c. induction ts as [|[[l t]|] ts IH]; intros c; simpl.
  - intros [= ->]. apply rtc_refl.
  - case_decide as Hl; [|done]. intros (c1 & He & Hr)%res_bind_ret.
    eapply rtc_l; [by eapply step_producer|]. by apply IH.
  - intros (c1 & He & Hr)%res_bind_ret. eapply rtc_l; [by apply step_consumer|]. by apply IH.
Qed.

Lemma early_consume_reachable : rtc step (conc_init 0 1%positive) early_consume.
Proof.
  apply (run_turns_reach [Some (2%positive, 7); Some (3%positive, 0); Some (3%positive, 0);
                          None; None; None; None]).
  vm_compute. reflexivity.
Qed.

Lemma spsc_safe_witness :
  (exists c1, pstep 3%positive 0 early_consume = Ret c1) /\
  (exists c2, cstep early_consume = Ret c2).
Proof. apply (spsc_safe 0 1%positive); [apply early_consume_reachable | reflexivity]. Defined.

Lemma spsc_fifo_witness :
  exists rest, produced early_consume = consumed early_consume ++ rest /\
    ((forall l t, producer early_consume <> PLinked l t) -> contents (cq early_consume) = rest).
Proof. apply (spsc_fifo 0 1%positive). apply early_consume_reachable. Defined.

Lemma spsc_size_witness :
  _size (cq early_consume) = -1 /\ _size (cq early_consume) =
    Z.of_nat (length (produced early_consume)) - Z.of_nat (length (consumed early_consume))
    + owed early_consume.
Proof.
  split; [reflexivity|].
  apply (spsc_size 0 1%positive); [apply early_consume_reachable | vm_compute; reflexivity].
Defined.

Lemma lfq_no_leak_witness :
  exists q1 q2, produce 2%positive 5 (LockFreeQueue 0 1%positive) = Ret (tt, q1) /\
    size (heap q1) = 2%nat /\ destroy q1 = Ret (tt, q2) /\ heap q2 = ∅.
Proof.
  apply (lfq_no_leak (LockFreeQueue 0 1%positive) 2%positive 5); [|reflexivity].
  apply LockFreeQueue_ok.
Defined.
