(* ===== verification/StdHeap.v ===== *)
(** * The heap algorithms of [<algorithm>]

    std::priority_queue keeps a vector that is a heap: the standard says what
    push_heap, pop_heap and make_heap promise, and leaves the order of the
    vector open.  [StdHeap] is that contract, the interface between a queue and
    the library; the instance keeps the vector sorted, which the contract
    allows. *)

From stdpp Require Import sorting.
From S2P Require Import Prelude.
#[local] Open Scope Z_scope.

(** [comp] is operator<: the element that is not less than any other comes
    first.  No element is less than its parent's place allows. *)
Definition is_heap {A} (comp : A -> A -> bool) (l : list A) : Prop :=
  forall i p x, (0 < i)%nat -> l !! i = Some x -> l !! ((i - 1) / 2)%nat = Some p -> comp p x = false.

(** A strict weak order, which the algorithms ask of [comp]. *)
Record weak_order {A} (comp : A -> A -> bool) : Prop := {
  wo_irrefl x : comp x x = false;
  wo_asym x y : comp x y = true -> comp y x = false;
  wo_trans x y z : comp y x = false -> comp z y = false -> comp z x = false;
}.

Class StdHeap := {
  make_heap : forall {A}, (A -> A -> bool) -> list A -> list A;
  push_heap : forall {A}, (A -> A -> bool) -> list A -> list A;
  pop_heap : forall {A}, (A -> A -> bool) -> list A -> list A;
}.

Class StdHeapLaws `{StdHeap} : Prop := {
  make_heap_perm {A} (comp : A -> A -> bool) l : weak_order comp -> make_heap comp l ≡ₚ l;
  make_heap_heap {A} (comp : A -> A -> bool) l : weak_order comp -> is_heap comp (make_heap comp l);
  push_heap_perm {A} (comp : A -> A -> bool) l x :
    weak_order comp -> is_heap comp l -> push_heap comp (l ++ [x]) ≡ₚ l ++ [x];
  push_heap_heap {A} (comp : A -> A -> bool) l x :
    weak_order comp -> is_heap comp l -> is_heap comp (push_heap comp (l ++ [x]));
  (** the first element goes to the end, the rest becomes a heap *)
  pop_heap_spec {A} (comp : A -> A -> bool) x l :
    weak_order comp -> is_heap comp (x :: l) ->
    exists l', pop_heap comp (x :: l) = l' ++ [x] /\ l' ≡ₚ l /\ is_heap comp l';
}.

(** ** The first element of a heap is a greatest one *)

Section first.
Context {A : Type} (comp : A -> A -> bool) (Hwo : weak_order comp).

Lemma heap_first x l y : is_heap comp (x :: l) -> y ∈ x :: l -> comp x y = false.
Proof.
  intros Hh Hy. apply list_elem_of_lookup in Hy as [i Hi]. revert y Hi.
  induction i as [i IH] using lt_wf_ind. intros y Hi.
  destruct i as [|i]; [injection Hi as <-; apply (wo_irrefl _ Hwo)|].
  set (p := ((S i - 1) / 2)%nat). assert (p < S i)%nat as Hp.
  { unfold p. pose proof (Nat.Div0.div_le_upper_bound (S i - 1) 2 (S i - 1)). lia. }
  destruct ((x :: l) !! p) as [z|] eqn:Hz.
  2: { apply lookup_ge_None in Hz. apply lookup_lt_Some in Hi. simpl in *. lia. }
  apply (wo_trans _ Hwo) with z; [|by apply (IH p)].
  by apply (Hh (S i) z y ltac:(lia)).
Qed.

Lemma heap_nil : is_heap comp [].
Proof. by intros i p x _ Hx. Qed.
End first.

(** ** The sorted vector *)

Section sorted.
Context {A : Type} (comp : A -> A -> bool).

Fixpoint insert_desc (x : A) (l : list A) : list A :=
  match l with
  | [] => [x]
  | y :: l' => if comp y x then x :: l else y :: insert_desc x l'
  end.
Definition sort_desc (l : list A) : list A := foldr insert_desc [] l.

Lemma insert_desc_perm x l : insert_desc x l ≡ₚ x :: l.
Proof. induction l as [|y l IH]; simpl; [done|]. destruct (comp y x); [done|]. rewrite IH. apply Permutation_swap. Qed.

Lemma sort_desc_perm l : sort_desc l ≡ₚ l.
Proof. induction l as [|x l IH]; simpl; [done|]. by rewrite insert_desc_perm, IH. Qed.

Definition desc : relation A := fun x y => comp x y = false.

Context (Hwo : weak_order comp).

Lemma insert_desc_sorted x l : StronglySorted desc l -> StronglySorted desc (insert_desc x l).
Proof using Hwo.
  induction 1 as [|y l Hs IH Hy]; simpl; [by repeat constructor|].
  destruct (comp y x) eqn:E.
  - constructor; [by constructor|]. constructor; [by apply (wo_asym _ Hwo)|].
    eapply Forall_impl; [exact Hy|]. intros z Hz. unfold desc in *.
    apply (wo_trans _ Hwo) with y; [done|]. by apply (wo_asym _ Hwo).
  - constructor; [done|]. rewrite insert_desc_perm. by constructor.
Qed.

Lemma sort_desc_sorted l : StronglySorted desc (sort_desc l).
Proof using Hwo. induction l; simpl; [constructor|by apply insert_desc_sorted]. Qed.

Lemma sorted_heap l : StronglySorted desc l -> is_heap comp l.
Proof.
  intros Hs i p x Hi Hx Hp. assert (((i - 1) / 2 < i)%nat) as Hlt.
  { pose proof (Nat.Div0.div_le_upper_bound (i - 1) 2 (i - 1)). lia. }
  revert i p x Hi Hx Hp Hlt. intros i p x _ Hx Hp Hlt.
  apply list_elem_of_split_length in Hp as (l1 & l2 & -> & Hl1). rewrite Hl1 in Hlt.
  apply StronglySorted_app in Hs as (_ & _ & Hs). apply StronglySorted_cons in Hs as [Hs _].
  rewrite lookup_app_r in Hx by lia. rewrite lookup_cons_ne_0 in Hx by lia.
  rewrite Forall_forall in Hs. apply Hs. by eapply list_elem_of_lookup_2.
Qed.
End sorted.

(** pop_heap: the first element goes to the end and the rest is sorted. *)
Definition pop_sorted {A} (comp : A -> A -> bool) (l : list A) : list A :=
  match l with [] => [] | x :: l' => sort_desc comp l' ++ [x] end.

#[export] Instance sorted_StdHeap : StdHeap :=
  {| make_heap A := sort_desc; push_heap A := sort_desc; pop_heap A := pop_sorted |}.

#[export] Instance sorted_StdHeapLaws : StdHeapLaws.
Proof.
  constructor; cbn.
  - intros. apply sort_desc_perm.
  - intros. by apply sorted_heap, sort_desc_sorted.
  - intros. apply sort_desc_perm.
  - intros. by apply sorted_heap, sort_desc_sorted.
  - intros A comp x l Hwo _. exists (sort_desc comp l). split_and!; [done|apply sort_desc_perm|].
    by apply sorted_heap, sort_desc_sorted.
Qed.
