(* ===== verification/MsgQueue.v ===== *)
(** * [rtc_base/thread.cc]: the message queue of a thread

    Messages wait in a list ([messages_]), in a priority queue ordered by the
    time they are due ([delayed_messages_]) or, after [Peek], in [msgPeek_].
    Any thread may post; one thread takes messages out with [Get].  What happens
    inside one critical section is one Definition here, so the steps of several
    threads can be put in any order ([do_op]).

    The payload of a message and the objects that [Dispose] posts live on a heap:
    [delete] removes the cell and a second [delete] is [Ub UseAfterFree].  The
    waits on the socket server, the clock and what the other threads do during a
    wait are arguments ([turn]); [OnMessage] of a handler is an argument. *)

From stdpp Require Import sorting.
From S2P Require Import Prelude CLib StdHeap.
#[local] Open Scope Z_scope.
#[local] Open Scope xrtc_scope.

(** ** Data *)

Record Location := MkLocation { function_name_ : string; file_name_ : string; line_number_ : Z }.
#[export] Instance Location_eq_dec : EqDecision Location.
Proof. solve_decision. Defined.

Definition Location_default : Location := MkLocation "Unknown" "Unknown" (-1).

(** A [MessageData]: of no further interest, or the [DisposeData] that deletes
    its object when it is deleted. *)
Inductive MessageData := Payload | DisposeData (data_ : loc).
#[export] Instance MessageData_eq_dec : EqDecision MessageData.
Proof. solve_decision. Defined.

Definition MQID_ANY : Z := u32 (-1).
Definition MQID_DISPOSE : Z := u32 (-2).
Definition kForever : Z := -1.
Definition kSlowDispatchLoggingThreshold : Z := 50.

Record Message := MkMessage {
  posted_from : Location;
  phandler : option loc;
  message_id : Z;
  pdata : option loc;
}.
#[export] Instance Message_eq_dec : EqDecision Message.
Proof. solve_decision. Defined.

Definition Message_default : Message := MkMessage Location_default None 0 None.

Definition Match (m : Message) (handler : option loc) (id : Z) : bool :=
  (bool_decide (handler = None) || bool_decide (handler = phandler m)) &&
  ((id =? MQID_ANY) || (id =? message_id m)).

Record DelayedMessage := MkDelayed {
  delay_ms_ : Z;
  run_time_ms_ : Z;
  message_number_ : Z;
  msg_ : Message;
}.

(** operator<: the message that is due later is the smaller one, so that the
    top of the priority queue is the one that is due first. *)
Definition delayed_lt (a b : DelayedMessage) : bool :=
  (run_time_ms_ b <? run_time_ms_ a) ||
  ((run_time_ms_ b =? run_time_ms_ a) && (message_number_ b <? message_number_ a)).

(** A thread's queue, with the heap of payloads and disposable objects, the
    number of times the socket server was woken up and the waits it was asked
    for. *)
Record Thread := MkThread {
  fPeekKeep_ : bool;
  msgPeek_ : Message;
  messages_ : list Message;
  delayed_messages_ : list DelayedMessage;
  delayed_next_num_ : Z;
  fInitialized_ : bool;
  fDestroyed_ : bool;
  stop_ : Z;
  dispatch_warning_ms_ : Z;
  wakeups : Z;
  waits : list (Z * bool);
  data : gmap loc MessageData;
  objects : gset loc;
}.

Definition Thread_ctor (d : gmap loc MessageData) (o : gset loc) : Thread :=
  MkThread false Message_default [] [] 0 false false 0 kSlowDispatchLoggingThreshold 0 [] d o.

Definition set_peek (k : bool) (m : Message) (t : Thread) : Thread :=
  MkThread k m (messages_ t) (delayed_messages_ t) (delayed_next_num_ t) (fInitialized_ t)
    (fDestroyed_ t) (stop_ t) (dispatch_warning_ms_ t) (wakeups t) (waits t) (data t) (objects t).
Definition set_messages (ms : list Message) (t : Thread) : Thread :=
  MkThread (fPeekKeep_ t) (msgPeek_ t) ms (delayed_messages_ t) (delayed_next_num_ t) (fInitialized_ t)
    (fDestroyed_ t) (stop_ t) (dispatch_warning_ms_ t) (wakeups t) (waits t) (data t) (objects t).
Definition set_delayed (ds : list DelayedMessage) (n : Z) (t : Thread) : Thread :=
  MkThread (fPeekKeep_ t) (msgPeek_ t) (messages_ t) ds n (fInitialized_ t)
    (fDestroyed_ t) (stop_ t) (dispatch_warning_ms_ t) (wakeups t) (waits t) (data t) (objects t).
Definition set_stop (v : Z) (t : Thread) : Thread :=
  MkThread (fPeekKeep_ t) (msgPeek_ t) (messages_ t) (delayed_messages_ t) (delayed_next_num_ t)
    (fInitialized_ t) (fDestroyed_ t) v (dispatch_warning_ms_ t) (wakeups t) (waits t) (data t) (objects t).
Definition set_life (i d : bool) (t : Thread) : Thread :=
  MkThread (fPeekKeep_ t) (msgPeek_ t) (messages_ t) (delayed_messages_ t) (delayed_next_num_ t)
    i d (stop_ t) (dispatch_warning_ms_ t) (wakeups t) (waits t) (data t) (objects t).
Definition set_memory (n : Z) (d : gmap loc MessageData) (o : gset loc) (t : Thread) : Thread :=
  MkThread (fPeekKeep_ t) (msgPeek_ t) (messages_ t) (delayed_messages_ t) (delayed_next_num_ t)
    (fInitialized_ t) (fDestroyed_ t) (stop_ t) (dispatch_warning_ms_ t) n (waits t) d o.

Definition set_waits (w : list (Z * bool)) (t : Thread) : Thread :=
  MkThread (fPeekKeep_ t) (msgPeek_ t) (messages_ t) (delayed_messages_ t) (delayed_next_num_ t)
    (fInitialized_ t) (fDestroyed_ t) (stop_ t) (dispatch_warning_ms_ t) (wakeups t) w (data t) (objects t).
Definition set_warning (w : Z) (t : Thread) : Thread :=
  MkThread (fPeekKeep_ t) (msgPeek_ t) (messages_ t) (delayed_messages_ t) (delayed_next_num_ t)
    (fInitialized_ t) (fDestroyed_ t) (stop_ t) w (wakeups t) (waits t) (data t) (objects t).

(** ** Operations *)

Section ops.
Context `{StdHeap}.

(** [delete pdata]; deleting a [DisposeData] deletes its object. *)
Definition delete_object (o : loc) : M Thread unit :=
  t ← get;
  if decide (o ∈ objects t) then put (set_memory (wakeups t) (data t) (objects t ∖ {[o]}) t)
  else ub_ UseAfterFree.
Definition delete_data (p : option loc) : M Thread unit :=
  match p with
  | None => mret tt
  | Some l =>
      t ← get;
      match data t !! l with
      | None => ub_ UseAfterFree
      | Some d =>
          _ ← (match d with Payload => mret tt | DisposeData o => delete_object o end);
          modify (fun t => set_memory (wakeups t) (delete l (data t)) (objects t) t)
      end
  end.

Definition WakeUpSocketServer : M Thread unit :=
  modify (fun t => set_memory (wakeups t + 1) (data t) (objects t) t).

Definition Quit : M Thread unit := _ ← modify (set_stop 1); WakeUpSocketServer.
Definition IsQuitting : M Thread bool := t ← get; mret (negb (stop_ t =? 0)).
Definition Restart : M Thread unit := modify (set_stop 0).

Definition Post (from : Location) (h : option loc) (id : Z) (p : option loc) : M Thread unit :=
  quitting ← IsQuitting;
  if (quitting : bool) then delete_data p
  else
    _ ← modify (fun t => set_messages (messages_ t ++ [MkMessage from h id p]) t);
    WakeUpSocketServer.

(** [new DisposeData<T>(doomed)], if there is something to dispose of. *)
Definition Dispose (from : Location) (doomed : option loc) : M Thread unit :=
  match doomed with
  | None => mret tt
  | Some o =>
      t ← get;
      let l := fresh (dom (data t)) in
      _ ← put (set_memory (wakeups t) (<[l := DisposeData o]> (data t)) (objects t) t);
      Post from None MQID_DISPOSE (Some l)
  end.

Definition DoDelayPost (from : Location) (delay_ms run_at_ms : Z) (h : option loc) (id : Z)
    (p : option loc) : M Thread unit :=
  quitting ← IsQuitting;
  if (quitting : bool) then delete_data p
  else
    _ ← modify (fun t =>
          let d := MkDelayed delay_ms run_at_ms (delayed_next_num_ t) (MkMessage from h id p) in
          set_delayed (push_heap delayed_lt (delayed_messages_ t ++ [d])) (u32 (delayed_next_num_ t + 1)) t);
    WakeUpSocketServer.

Definition PostDelayed (now : Z) (from : Location) (delay_ms : Z) (h : option loc) (id : Z)
    (p : option loc) : M Thread unit :=
  run_at ← lift (long (now + delay_ms));
  DoDelayPost from delay_ms run_at h id p.

Definition PostAt (now : Z) (from : Location) (run_at_ms : Z) (h : option loc) (id : Z)
    (p : option loc) : M Thread unit :=
  delay ← lift (long (run_at_ms - now));
  DoDelayPost from delay run_at_ms h id p.

(** [top()] of the priority queue. *)
Definition delayed_top : M Thread DelayedMessage :=
  t ← get; match delayed_messages_ t with [] => ub_ OutOfBounds | d :: _ => mret d end.
Definition delayed_pop : M Thread unit :=
  modify (fun t => set_delayed (removelast (pop_heap delayed_lt (delayed_messages_ t))) (delayed_next_num_ t) t).

(** The first pass of a critical section in [Get]: messages that are due move
    to the list; the value is the new [cmsDelayNext]. *)
Fixpoint trigger (n : nat) (msCurrent cmsDelayNext : Z) {struct n} : M Thread Z :=
  t ← get;
  if bool_decide (delayed_messages_ t = []) then mret cmsDelayNext
  else
    match n with
    | O => lift OutOfFuel
    | S n =>
        d ← delayed_top;
        if msCurrent <? run_time_ms_ d then lift (long (run_time_ms_ d - msCurrent))
        else
          _ ← modify (fun t => set_messages (messages_ t ++ [msg_ d]) t);
          _ ← delayed_pop;
          trigger n msCurrent cmsDelayNext
    end.

(** One critical section of [Get]. *)
Definition take_one (first_pass : bool) (msCurrent cmsDelayNext : Z) : M Thread (Z * option Message) :=
  t ← get;
  next ← (if first_pass then trigger (length (delayed_messages_ t)) msCurrent cmsDelayNext
          else mret cmsDelayNext);
  t ← get;
  match messages_ t with
  | [] => mret (next, None)
  | m :: rest => _ ← modify (set_messages rest); mret (next, Some m)
  end.

(** "Check for posted events": a DISPOSE message is deleted and skipped. *)
Fixpoint check_posted (n : nat) (first_pass : bool) (msCurrent cmsDelayNext : Z) {struct n}
    : M Thread (Z * option Message) :=
  r ← take_one first_pass msCurrent cmsDelayNext;
  match r with
  | (next, None) => mret (next, None)
  | (next, Some m) =>
      if MQID_DISPOSE =? message_id m then
        _ ← delete_data (pdata m);
        match n with
        | O => lift OutOfFuel
        | S n => check_posted n false msCurrent next
        end
      else mret (next, Some m)
  end.

(** At most one iteration per message that is waiting. *)
Definition check_posted_events (msCurrent : Z) : M Thread (Z * option Message) :=
  t ← get;
  check_posted (length (messages_ t) + length (delayed_messages_ t)) true msCurrent kForever.

Definition GetDelay (now : Z) : M Thread Z :=
  t ← get;
  match messages_ t, delayed_messages_ t with
  | _ :: _, _ => mret 0
  | [], d :: _ =>
      until ← lift (long (run_time_ms_ d - now));
      let delay := i32 until in
      mret (if delay <? 0 then 0 else delay)
  | [], [] => mret kForever
  end.

Definition size : M Thread Z :=
  t ← get;
  mret (Z.of_nat (length (messages_ t)) + Z.of_nat (length (delayed_messages_ t)) + (if fPeekKeep_ t then 1 else 0)).
Definition empty : M Thread bool := n ← size; mret (n =? 0).

(** A matching message is handed to the caller, or its data is deleted. *)
Definition purge (m : Message) (removed : option (list Message)) : M Thread (option (list Message)) :=
  match removed with
  | Some r => mret (Some (r ++ [m]))
  | None => _ ← delete_data (pdata m); mret None
  end.

(** The loops of [ClearInternal] over a container of messages: what stays, in
    order, and the messages handed out so far. *)
Fixpoint purge_list {A} (message : A -> Message) (h : option loc) (id : Z) (l : list A)
    (removed : option (list Message)) : M Thread (list A * option (list Message)) :=
  match l with
  | [] => mret ([], removed)
  | x :: l =>
      if Match (message x) h id then
        removed ← purge (message x) removed;
        purge_list message h id l removed
      else
        r ← purge_list message h id l removed;
        mret (x :: r.1, r.2)
  end.

(** "Remove messages with phandler": first the one that was peeked at. *)
Definition purge_peek (h : option loc) (id : Z) (removed : option (list Message)) : M Thread (option (list Message)) :=
  t ← get;
  if fPeekKeep_ t && Match (msgPeek_ t) h id then
    removed ← purge (msgPeek_ t) removed;
    _ ← modify (fun t => set_peek false (msgPeek_ t) t);
    mret removed
  else mret removed.

Definition ClearInternal (h : option loc) (id : Z) (removed : option (list Message))
    : M Thread (option (list Message)) :=
  removed ← purge_peek h id removed;
  t ← get;
  r ← purge_list (fun m => m) h id (messages_ t) removed;
  _ ← modify (set_messages r.1);
  t ← get;
  r ← purge_list msg_ h id (delayed_messages_ t) r.2;
  _ ← modify (fun t => set_delayed (make_heap delayed_lt r.1) (delayed_next_num_ t) t);
  mret r.2.

Definition Clear (h : option loc) (id : Z) (removed : option (list Message)) : M Thread (option (list Message)) :=
  ClearInternal h id removed.

(** *** What any thread may do to the queue

    The payload is allocated by the caller ([new]); a disposed object is one
    that the caller owns. *)
Definition new_data (d : option MessageData) : M Thread (option loc) :=
  match d with
  | None => mret None
  | Some d =>
      t ← get;
      let l := fresh (dom (data t)) in
      _ ← put (set_memory (wakeups t) (<[l := d]> (data t)) (objects t) t);
      mret (Some l)
  end.
Definition new_object : M Thread loc :=
  t ← get;
  let o := fresh (objects t) in
  _ ← put (set_memory (wakeups t) (data t) ({[o]} ∪ objects t) t);
  mret o.

Inductive op :=
  | OPost (from : Location) (h : option loc) (id : Z) (payload : bool)
  | OPostDelayed (now : Z) (from : Location) (delay_ms : Z) (h : option loc) (id : Z) (payload : bool)
  | OPostAt (now : Z) (from : Location) (run_at_ms : Z) (h : option loc) (id : Z) (payload : bool)
  | ODispose (from : Location)
  | OClear (h : option loc) (id : Z) (keep : bool)
  | OQuit
  | ORestart.

Definition payload_of (b : bool) : option MessageData := if b then Some Payload else None.

(** The messages that [Clear] handed to its caller. *)
Definition do_op (o : op) : M Thread (list Message) :=
  match o with
  | OPost from h id b => p ← new_data (payload_of b); _ ← Post from h id p; mret []
  | OPostDelayed now from delay h id b =>
      p ← new_data (payload_of b); _ ← PostDelayed now from delay h id p; mret []
  | OPostAt now from at_ms h id b =>
      p ← new_data (payload_of b); _ ← PostAt now from at_ms h id p; mret []
  | ODispose from => o ← new_object; _ ← Dispose from (Some o); mret []
  | OClear h id keep =>
      r ← Clear h id (if keep : bool then Some [] else None); mret (default [] r)
  | OQuit => _ ← Quit; mret []
  | ORestart => _ ← Restart; mret []
  end.
Fixpoint do_ops (os : list op) : M Thread (list Message) :=
  match os with
  | [] => mret []
  | o :: os => r ← do_op o; r' ← do_ops os; mret (r ++ r')
  end.

(** *** The thread of the queue

    One turn of the socket server's [Wait]: what the other threads (and the
    sockets' callbacks) did meanwhile, its result, and the time afterwards. *)
Record turn := MkTurn { meanwhile : list op; woken : bool; now_after : Z }.

Definition Wait (cms : Z) (process_io : bool) (tn : turn) : M Thread bool :=
  _ ← modify (fun t => set_waits (waits t ++ [(cms, process_io)]) t);
  _ ← do_ops (meanwhile tn);
  mret (woken tn).

(** "Which is shorter, the delay wait or the asked wait?" *)
Definition cms_next (cmsWait cmsElapsed cmsDelayNext : Z) : Z :=
  if cmsWait =? kForever then cmsDelayNext
  else
    let cmsNext := Z.max 0 (cmsWait - cmsElapsed) in
    if negb (cmsDelayNext =? kForever) && (cmsDelayNext <? cmsNext) then cmsDelayNext else cmsNext.

Fixpoint get_loop (script : list turn) (cmsWait : Z) (process_io : bool) (msStart msCurrent cmsElapsed : Z)
    {struct script} : M Thread (option Message) :=
  r ← check_posted_events msCurrent;
  match r with
  | (_, Some m) => mret (Some m)
  | (cmsDelayNext, None) =>
      quitting ← IsQuitting;
      if (quitting : bool) then mret None
      else
        match script with
        | [] => lift OutOfFuel
        | tn :: script =>
            ok ← Wait (i32 (cms_next cmsWait cmsElapsed cmsDelayNext)) process_io tn;
            if negb ok then mret None
            else
              elapsed ← lift (long (now_after tn - msStart));
              if negb (cmsWait =? kForever) && (cmsWait <=? elapsed) then mret None
              else get_loop script cmsWait process_io msStart (now_after tn) elapsed
        end
  end.

(** [Get]: [Some m] is [true] with the message in [*pmsg]. *)
Definition Get (script : list turn) (now cmsWait : Z) (process_io : bool) : M Thread (option Message) :=
  t ← get;
  if fPeekKeep_ t then _ ← modify (set_peek false (msgPeek_ t)); mret (Some (msgPeek_ t))
  else get_loop script cmsWait process_io now now 0.

Definition Peek (script : list turn) (now cmsWait : Z) : M Thread (option Message) :=
  t ← get;
  if fPeekKeep_ t then mret (Some (msgPeek_ t))
  else
    r ← Get script now cmsWait true;
    match r with
    | None => mret None
    | Some m => _ ← modify (set_peek true m); mret (Some m)
    end.

(** *** Dispatch

    [OnMessage h m] is what the handler [h] does to the queue of its thread. *)
Context (OnMessage : loc -> Message -> M Thread unit).

Definition Dispatch (start_time end_time : Z) (m : Message) : M Thread unit :=
  match phandler m with
  | None => ub_ NullDeref
  | Some h =>
      _ ← OnMessage h m;
      diff ← lift (long (end_time - start_time));
      t ← get;
      if dispatch_warning_ms_ t <=? diff then modify (set_warning (i32 (diff + 1))) else mret tt
  end.

(** One round of [ProcessMessages]: the clock and the waits of its [Get], the
    clock around the handler, and the clock at the end of the round. *)
Record round := MkRound { get_at : Z; get_turns : list turn; before_ : Z; after_ : Z; round_end : Z }.

Fixpoint process_loop (script : list round) (cmsLoop msEnd cmsNext : Z) {struct script} : M Thread bool :=
  match script with
  | [] => lift OutOfFuel
  | r :: script =>
      got ← Get (get_turns r) (get_at r) cmsNext true;
      match got with
      | None => quitting ← IsQuitting; mret (negb quitting)
      | Some m =>
          _ ← Dispatch (before_ r) (after_ r) m;
          if negb (cmsLoop =? kForever) then
            until ← lift (long (msEnd - round_end r));
            let cmsNext := i32 until in
            if cmsNext <? 0 then mret true else process_loop script cmsLoop msEnd cmsNext
          else process_loop script cmsLoop msEnd cmsNext
      end
  end.

Definition ProcessMessages (now cmsLoop : Z) (script : list round) : M Thread bool :=
  msEnd ← (if cmsLoop =? kForever then mret 0 else lift (long (now + cmsLoop)));
  process_loop script cmsLoop msEnd cmsLoop.
End ops.

(** ** [ThreadManager] and the life of a queue

    The manager knows the queues that were initialised and not yet destroyed.
    Payloads belong to one queue, so each [Thread] keeps its part of the heap. *)

Record ThreadManager := MkManager { threads : gmap loc Thread; message_queues_ : list loc }.

Section manager.
Context `{StdHeap}.

Definition on_thread {A} (l : loc) (m : M Thread A) : M ThreadManager A := fun tm =>
  match threads tm !! l with
  | None => Ub UseAfterFree
  | Some t =>
      match m t with
      | Ret (a, t') => Ret (a, MkManager (<[l := t']> (threads tm)) (message_queues_ tm))
      | Abort => Abort
      | Ub u => Ub u
      | OutOfFuel => OutOfFuel
      end
  end.

Definition Add (l : loc) : M ThreadManager unit :=
  modify (fun tm => MkManager (threads tm) (message_queues_ tm ++ [l])).

(** [std::find] and [erase]: the first occurrence goes. *)
Fixpoint erase_first (l : loc) (ls : list loc) : list loc :=
  match ls with
  | [] => []
  | x :: ls => if decide (x = l) then ls else x :: erase_first l ls
  end.
Definition Remove (l : loc) : M ThreadManager unit :=
  modify (fun tm => MkManager (threads tm) (erase_first l (message_queues_ tm))).

Definition DoInit (l : loc) : M ThreadManager unit :=
  initialized ← on_thread l (t ← get; mret (fInitialized_ t));
  if (initialized : bool) then mret tt
  else
    _ ← on_thread l (modify (fun t => set_life true (fDestroyed_ t) t));
    Add l.

Definition DoDestroy (l : loc) : M ThreadManager unit :=
  destroyed ← on_thread l (t ← get; mret (fDestroyed_ t));
  if (destroyed : bool) then mret tt
  else
    _ ← on_thread l (modify (fun t => set_life (fInitialized_ t) true t));
    _ ← Remove l;
    _ ← on_thread l (ClearInternal None MQID_ANY None);
    mret tt.

(** [ThreadManager::Clear(handler)], which [~MessageHandlerAutoCleanup] calls. *)
Fixpoint clear_queues (qs : list loc) (h : loc) : M ThreadManager unit :=
  match qs with
  | [] => mret tt
  | q :: qs => _ ← on_thread q (Clear (Some h) MQID_ANY None); clear_queues qs h
  end.
Definition TM_Clear (h : loc) : M ThreadManager unit :=
  tm ← get; clear_queues (message_queues_ tm) h.
Definition delete_MessageHandlerAutoCleanup (h : loc) : M ThreadManager unit := TM_Clear h.
End manager.
