(* ===== verification/MsgQueueSpec.v ===== *)
(** * What the message queue of a thread promises

    [Agenda] is the abstract queue: the message that was peeked at, a FIFO of
    messages that are ready, and the messages that are due later, in the order
    of their time and, for equal times, in the order they were posted; there are
    no heaps, no numbers and no counters in it.  [event] is one atomic step of
    one of the threads that use the queue: a post, a clear, or one critical
    section of the thread that takes messages out. *)

From stdpp Require Import sorting.
From S2P Require Import Prelude CLib StdHeap MsgQueue.
#[local] Open Scope Z_scope.
#[local] Open Scope xrtc_scope.

(** ** The abstract queue *)

Record Agenda := MkAgenda {
  ag_peek : option Message;
  ag_ready : list Message;
  ag_later : list (Z * Message);
  ag_quit : bool;
}.
Definition ag_empty : Agenda := MkAgenda None [] [] false.
Definition ag_pending (a : Agenda) : list Message :=
  option_list (ag_peek a) ++ ag_ready a ++ (ag_later a).*2.

(** After all that are due no later. *)
Definition later_insert (t : Z) (m : Message) (l : list (Z * Message)) : list (Z * Message) :=
  filter (fun x => x.1 <= t) l ++ (t, m) :: filter (fun x => ~ x.1 <= t) l.

Definition ag_post (m : Message) (a : Agenda) : Agenda :=
  if ag_quit a then a else MkAgenda (ag_peek a) (ag_ready a ++ [m]) (ag_later a) (ag_quit a).
Definition ag_post_at (t : Z) (m : Message) (a : Agenda) : Agenda :=
  if ag_quit a then a else MkAgenda (ag_peek a) (ag_ready a) (later_insert t m (ag_later a)) (ag_quit a).

(** What does not match stays, in its order. *)
Definition ag_clear (h : option loc) (id : Z) (a : Agenda) : Agenda :=
  MkAgenda (x ← ag_peek a; if Match x h id then None else Some x)
    (filter (fun m => Match m h id = false) (ag_ready a))
    (filter (fun x => Match x.2 h id = false) (ag_later a)) (ag_quit a).
Definition ag_matching (h : option loc) (id : Z) (a : Agenda) : list Message :=
  filter (fun m => Match m h id = true) (ag_pending a).

(** What is due at [now] becomes ready. *)
Definition ag_trigger (now : Z) (a : Agenda) : Agenda :=
  MkAgenda (ag_peek a) (ag_ready a ++ (filter (fun x => x.1 <= now) (ag_later a)).*2)
    (filter (fun x => ~ x.1 <= now) (ag_later a)) (ag_quit a).

Definition ag_set_peek (p : option Message) (a : Agenda) : Agenda :=
  MkAgenda p (ag_ready a) (ag_later a) (ag_quit a).

(** ** Events *)

Inductive event :=
  | EvOp (o : op)
  | EvPeeked (keep : bool)
  | EvTake (first_pass keep : bool) (now : Z)
  | EvWait (cms : Z) (process_io : bool).

(** What an event hands to the thread that performs it: a message it now owns, a
    copy of one that stays, or the messages [Clear] put into its list. *)
Inductive output := Nothing | Got (m : Message) | Seen (m : Message) | Removed (ms : list Message).
Definition handed (o : output) : list Message :=
  match o with Nothing => [] | Got m => [m] | Seen _ => [] | Removed ms => ms end.

Section events.
Context `{StdHeap}.

(** [EvPeeked] is the start of [Get] (or [Peek], with [keep]); [EvTake] is a
    critical section of [Get], for a [Peek] when [keep] is set. *)
Definition ev_step (e : event) : M Thread output :=
  match e with
  | EvOp o => ms ← do_op o; mret (match o with OClear _ _ _ => Removed ms | _ => Nothing end)
  | EvPeeked keep =>
      t ← get;
      if fPeekKeep_ t then
        if (keep : bool) then mret (Seen (msgPeek_ t))
        else _ ← modify (set_peek false (msgPeek_ t)); mret (Got (msgPeek_ t))
      else mret Nothing
  | EvTake first_pass keep now =>
      t ← get;
      if fPeekKeep_ t then mret Nothing
      else
        r ← take_one first_pass now kForever;
        match r.2 with
        | None => mret Nothing
        | Some m =>
            if MQID_DISPOSE =? message_id m then _ ← delete_data (pdata m); mret Nothing
            else if (keep : bool) then _ ← modify (set_peek true m); mret (Seen m)
            else mret (Got m)
        end
  | EvWait cms io => _ ← modify (fun t => set_waits (waits t ++ [(cms, io)]) t); mret Nothing
  end.
Fixpoint ev_run (es : list event) : M Thread (list output) :=
  match es with
  | [] => mret []
  | e :: es => o ← ev_step e; os ← ev_run es; mret (o :: os)
  end.
End events.

(** The same steps on the agenda; [p] is the payload that the poster allocates. *)
Definition ag_op (p : option loc) (o : op) (a : Agenda) : Agenda * output :=
  match o with
  | OPost from h id _ => (ag_post (MkMessage from h id p) a, Nothing)
  | OPostDelayed now from delay h id _ => (ag_post_at (now + delay) (MkMessage from h id p) a, Nothing)
  | OPostAt _ from at_ms h id _ => (ag_post_at at_ms (MkMessage from h id p) a, Nothing)
  | ODispose from => (ag_post (MkMessage from None MQID_DISPOSE p) a, Nothing)
  | OClear h id keep => (ag_clear h id a, Removed (if keep then ag_matching h id a else []))
  | OQuit => (MkAgenda (ag_peek a) (ag_ready a) (ag_later a) true, Nothing)
  | ORestart => (MkAgenda (ag_peek a) (ag_ready a) (ag_later a) false, Nothing)
  end.
Definition ag_step (p : option loc) (e : event) (a : Agenda) : Agenda * output :=
  match e with
  | EvOp o => ag_op p o a
  | EvPeeked keep =>
      match ag_peek a with
      | Some m => if keep then (a, Seen m) else (ag_set_peek None a, Got m)
      | None => (a, Nothing)
      end
  | EvTake first_pass keep now =>
      if ag_peek a then (a, Nothing)
      else
        let a := if first_pass then ag_trigger now a else a in
        match ag_ready a with
        | [] => (a, Nothing)
        | m :: rest =>
            let a := MkAgenda (ag_peek a) rest (ag_later a) (ag_quit a) in
            if MQID_DISPOSE =? message_id m then (a, Nothing)
            else if keep then (ag_set_peek (Some m) a, Seen m)
            else (a, Got m)
        end
  | EvWait _ _ => (a, Nothing)
  end.

(** Clear walks the priority queue in the order of its vector, which the
    standard leaves open: its list is known up to the order. *)
Definition same_output (x y : output) : Prop :=
  match x, y with Removed ms, Removed ms' => ms ≡ₚ ms' | _, _ => x = y end.

Fixpoint ag_run (ps : list (option loc)) (es : list event) (a : Agenda) : Agenda * list output :=
  match ps, es with
  | p :: ps, e :: es =>
      let '(a', o) := ag_step p e a in let '(a'', os) := ag_run ps es a' in (a'', o :: os)
  | _, _ => (a, [])
  end.

(** ** The relation between a queue and its agenda *)

Definition doomed (d : MessageData) : option loc := match d with Payload => None | DisposeData o => Some o end.

(** The live payloads are exactly [l], and the objects are those they dispose of. *)
Record mem_ok (d : gmap loc MessageData) (o : gset loc) (l : list loc) : Prop := {
  mem_data : l ≡ₚ (map_to_list d).*1;
  mem_objects : omap doomed (map_to_list d).*2 ≡ₚ elements o;
}.

Definition before (a b : DelayedMessage) : Prop := delayed_lt b a = true.
Definition entry (d : DelayedMessage) : Z * Message := (run_time_ms_ d, msg_ d).

Record later_ok (ds : list DelayedMessage) (n : Z) (l : list (Z * Message)) : Prop := {
  later_heap : is_heap delayed_lt ds;
  later_sorted : exists es, StronglySorted before es /\ es ≡ₚ ds /\ l = entry <$> es;
  later_numbers : Forall (fun d => message_number_ d < n) ds;
  later_times : Forall (fun d => run_time_ms_ d < 2 ^ 63) ds;
}.

(** [out] are the messages that were handed out so far, [n] bounds the number of
    delayed posts so far. *)
Record refines (t : Thread) (a : Agenda) (out : list Message) (n : Z) : Prop := {
  rf_peek : ag_peek a = if fPeekKeep_ t then Some (msgPeek_ t) else None;
  rf_ready : ag_ready a = messages_ t;
  rf_later : later_ok (delayed_messages_ t) (delayed_next_num_ t) (ag_later a);
  rf_number : 0 <= delayed_next_num_ t <= n;
  rf_quit : ag_quit a = negb (stop_ t =? 0);
  rf_memory : mem_ok (data t) (objects t) (omap pdata (ag_pending a ++ out));
}.

(** ** The order of delayed messages *)

Lemma delayed_lt_order : weak_order delayed_lt.
Proof. unfold delayed_lt. split; intros; lia. Qed.

Lemma before_trans a b c : before a b -> before b c -> before a c.
Proof. unfold before, delayed_lt. lia. Qed.

Lemma Forall_filter {A} (Q P : A -> Prop) `{forall x, Decision (P x)} l : Forall Q l -> Forall Q (filter P l).
Proof. rewrite !Forall_forall. intros HQ x Hx. apply list_elem_of_filter in Hx as [_ Hx]. by apply HQ. Qed.

Lemma StronglySorted_filter {A} (R : relation A) (P : A -> Prop) `{forall x, Decision (P x)} l :
  StronglySorted R l -> StronglySorted R (filter P l).
Proof.
  induction 1 as [|x l Hs IH Hx]; [constructor|]. rewrite filter_cons. case_decide; [|done].
  constructor; [done|]. by apply Forall_filter.
Qed.

Lemma entries_filter (P : Z * Message -> Prop) `{forall x, Decision (P x)} (P' : DelayedMessage -> Prop)
    `{forall x, Decision (P' x)} (es : list DelayedMessage) :
  (forall d, P (entry d) <-> P' d) -> filter P (entry <$> es) = entry <$> filter P' es.
Proof. intros HP. by apply filter_map_iff. Qed.

Section later.
Context `{StdHeapLaws}.

Lemma later_nil n : later_ok [] n [].
Proof. split; [apply heap_nil|by exists []; repeat constructor|constructor..]. Qed.

Lemma later_le ds n l : later_ok ds n l -> forall n', n <= n' -> later_ok ds n' l.
Proof. intros [? ? Hn ?] n' Hle. split; [done..| |done]. eapply Forall_impl; [exact Hn|]. cbn. lia. Qed.

Lemma later_none n l : later_ok [] n l -> l = [].
Proof. intros [_ (es & _ & Hp & ->) _ _]. symmetry in Hp. apply Permutation_nil in Hp. by subst. Qed.

(** The top of the heap is the first entry. *)
Lemma later_top d ds n l : later_ok (d :: ds) n l ->
  exists l', l = entry d :: l' /\ later_ok (removelast (pop_heap delayed_lt (d :: ds))) n l'.
Proof.
  intros [Hh (es & Hs & Hp & ->) Hn Ht].
  destruct (pop_heap_spec delayed_lt d ds delayed_lt_order Hh) as (ds' & -> & Hp' & Hh').
  rewrite removelast_last.
  destruct es as [|e es]; [by apply Permutation_nil_cons in Hp|].
  assert (e = d) as ->.
  { assert (d ∈ e :: es) as Hd by (rewrite Hp; constructor).
    assert (e ∈ d :: ds) as He by (rewrite <- Hp; constructor).
    apply (heap_first _ delayed_lt_order _ _ _ Hh) in He.
    apply elem_of_cons in Hd as [->|Hd]; [done|]. apply StronglySorted_cons in Hs as [Hs _].
    rewrite Forall_forall in Hs. specialize (Hs _ Hd). unfold before in Hs. congruence. }
  apply Permutation_cons_inv in Hp. apply StronglySorted_cons in Hs as [_ Hs].
  exists (entry <$> es). split; [done|]. split; [done|exists es; by rewrite Hp'|..]; rewrite Hp'; by eapply Forall_inv_tail.
Qed.

Lemma later_push ds n l d : later_ok ds n l -> message_number_ d = n -> run_time_ms_ d < 2 ^ 63 ->
  later_ok (push_heap delayed_lt (ds ++ [d])) (n + 1) (later_insert (run_time_ms_ d) (msg_ d) l).
Proof.
  intros [Hh (es & Hs & Hp & ->) Hn Ht] Hd Hr.
  assert (push_heap delayed_lt (ds ++ [d]) ≡ₚ d :: ds) as Hp'.
  { rewrite push_heap_perm by (done || apply delayed_lt_order). by rewrite Permutation_app_comm. }
  split; [apply push_heap_heap; [apply delayed_lt_order|done]| |rewrite Hp'..].
  - exists (filter (fun x => run_time_ms_ x <= run_time_ms_ d) es ++ d :: filter (fun x => ~ run_time_ms_ x <= run_time_ms_ d) es).
    split_and!.
    + assert (Forall (fun d => message_number_ d < n) es) as Hn' by by rewrite Hp.
      rewrite Forall_forall in Hn'. apply StronglySorted_app. split_and!.
      * intros x y Hx Hy. apply list_elem_of_filter in Hx as [Hx Hx'].
        apply elem_of_cons in Hy as [->|Hy]; unfold before, delayed_lt.
        -- specialize (Hn' _ Hx'). lia.
        -- apply list_elem_of_filter in Hy as [Hy _]. lia.
      * by apply StronglySorted_filter.
      * apply StronglySorted_cons. split; [|by apply StronglySorted_filter].
        rewrite Forall_forall. intros y Hy. apply list_elem_of_filter in Hy as [Hy _]. unfold before, delayed_lt. lia.
    + rewrite Hp', <- Permutation_middle. constructor. rewrite <- Hp. apply filter_app_complement.
    + rewrite fmap_app, fmap_cons. unfold later_insert.
      rewrite !(entries_filter _ (fun x => run_time_ms_ x <= run_time_ms_ d)) by done.
      by rewrite !(entries_filter _ (fun x => ~ run_time_ms_ x <= run_time_ms_ d)) by done.
  - constructor; [lia|]. eapply Forall_impl; [exact Hn|]. cbn. lia.
  - by constructor.
Qed.

Lemma later_purge ds n l h id : later_ok ds n l ->
  later_ok (make_heap delayed_lt (filter (fun d => Match (msg_ d) h id = false) ds)) n
    (filter (fun x => Match x.2 h id = false) l).
Proof.
  intros [Hh (es & Hs & Hp & ->) Hn Ht].
  split; [apply make_heap_heap, delayed_lt_order| |rewrite make_heap_perm by apply delayed_lt_order; by apply Forall_filter..].
  exists (filter (fun d => Match (msg_ d) h id = false) es). split_and!.
  - by apply StronglySorted_filter.
  - rewrite make_heap_perm by apply delayed_lt_order. by rewrite Hp.
  - by apply entries_filter.
Qed.

Lemma later_perm ds n l : later_ok ds n l -> l.*2 ≡ₚ msg_ <$> ds.
Proof. intros [_ (es & _ & Hp & ->) _ _]. rewrite <- list_fmap_compose. by rewrite Hp. Qed.

Lemma later_head_time d ds n l : later_ok (d :: ds) n l -> Forall (fun x => run_time_ms_ d <= x.1) l.
Proof.
  intros [Hh (es & Hs & Hp & ->) _ _]. apply Forall_fmap, Forall_forall. intros e He.
  assert (e ∈ d :: ds) as He' by by rewrite <- Hp.
  apply (heap_first _ delayed_lt_order _ _ _ Hh) in He'. unfold delayed_lt in He'. cbn. lia.
Qed.
End later.

(** ** The heap of payloads *)

Lemma mem_perm d o l l' : mem_ok d o l -> l' ≡ₚ l -> mem_ok d o l'.
Proof. intros [Hd Ho] Hl. split; [by rewrite Hl|done]. Qed.

Lemma mem_msgs d o ms ms' : mem_ok d o (omap pdata ms) -> ms' ≡ₚ ms -> mem_ok d o (omap pdata ms').
Proof. intros Hm Hp. eapply mem_perm; [done|]. by rewrite Hp. Qed.

Lemma mem_fresh d o l : mem_ok d o l -> mem_ok (<[fresh (dom d) := Payload]> d) o (fresh (dom d) :: l).
Proof.
  intros [Hd Ho]. assert (d !! fresh (dom d) = None) as Hf by (apply not_elem_of_dom, is_fresh).
  split; rewrite map_to_list_insert by done; cbn; [by rewrite Hd|done].
Qed.

Lemma mem_fresh_dispose d o l x : mem_ok d o l -> x ∉ o ->
  mem_ok (<[fresh (dom d) := DisposeData x]> d) ({[x]} ∪ o) (fresh (dom d) :: l).
Proof.
  intros [Hd Ho] Hx. assert (d !! fresh (dom d) = None) as Hf by (apply not_elem_of_dom, is_fresh).
  split; rewrite map_to_list_insert by done; cbn; [by rewrite Hd|].
  by rewrite elements_union_singleton, Ho.
Qed.

Lemma mem_lookup d o p l : mem_ok d o (p :: l) -> exists x, d !! p = Some x.
Proof.
  intros [Hd _]. assert (p ∈ (map_to_list d).*1) as Hp by (rewrite <- Hd; constructor).
  apply list_elem_of_fmap in Hp as ([q x] & -> & Hq). exists x. by apply elem_of_map_to_list.
Qed.

Lemma mem_free d o p x l : mem_ok d o (p :: l) -> d !! p = Some x ->
  mem_ok (delete p d) (match x with Payload => o | DisposeData y => o ∖ {[y]} end) l /\
  (forall y, x = DisposeData y -> y ∈ o).
Proof.
  intros [Hd Ho] Hp. rewrite <- (map_to_list_delete d p x) in Hd by done.
  rewrite <- (map_to_list_delete d p x) in Ho by done.
  cbn in Hd, Ho. apply Permutation_cons_inv in Hd. destruct x as [|y]; cbn in Ho.
  - split; [by split|done].
  - assert (y ∈ o) as Hy by (apply elem_of_elements; rewrite <- Ho; constructor).
    split; [|by intros ? [= <-]]. split; [done|].
    rewrite (union_difference_singleton_L y o) in Ho by done.
    rewrite elements_union_singleton in Ho by set_solver. by apply Permutation_cons_inv in Ho.
Qed.

(** [delete] of an owned payload is defined and gives up its ownership. *)
Lemma delete_data_ok t p l : mem_ok (data t) (objects t) (option_list p ++ l) ->
  exists d o, delete_data p t = Ret (tt, set_memory (wakeups t) d o t) /\ mem_ok d o l.
Proof.
  intros Hm. destruct p as [p|]; cbn in Hm.
  2: { exists (data t), (objects t). split; [by destruct t|done]. }
  destruct (mem_lookup _ _ _ _ Hm) as [x Hx]. pose proof (mem_free _ _ _ _ _ Hm Hx) as [Hm' Hy].
  exists (delete p (data t)), (match x with Payload => objects t | DisposeData y => objects t ∖ {[y]} end).
  split; [|done]. unfold delete_data, delete_object. run. rewrite Hx. destruct x as [|y]; [done|].
  rewrite decide_True by by apply Hy. done.
Qed.

(** ** The operations refine the agenda *)

Section refine.
Context `{StdHeapLaws}.

Lemma refines_memory t a out out' n k d o : refines t a out n ->
  mem_ok d o (omap pdata (ag_pending a ++ out')) -> refines (set_memory k d o t) a out' n.
Proof. intros [] Hm. by split. Qed.

Lemma refines_wake t a out n : refines t a out n -> exists t', WakeUpSocketServer t = Ret (tt, t') /\ refines t' a out n.
Proof. intros Hr. eexists. split; [done|]. eapply refines_memory; [done|]. apply Hr. Qed.

Lemma refines_le t a out n n' : refines t a out n -> n <= n' -> refines t a out n'.
Proof. intros [] Hle. split; try done. lia. Qed.

(** A message of the caller whose payload is deleted. *)
Lemma refines_delete t a m out n : refines t a (m :: out) n ->
  exists t', delete_data (pdata m) t = Ret (tt, t') /\ refines t' a out n.
Proof.
  intros Hr. destruct (delete_data_ok t (pdata m) (omap pdata (ag_pending a ++ out))) as (d & o & He & Hm).
  - eapply mem_perm; [apply Hr|]. rewrite <- Permutation_middle. cbn. by destruct (pdata m).
  - eexists. split; [exact He|]. by eapply refines_memory.
Qed.

Lemma refines_new t a out n b : refines t a out n ->
  exists p t', new_data (payload_of b) t = Ret (p, t') /\ forall m, pdata m = p -> refines t' a (m :: out) n.
Proof.
  intros Hr. destruct b; cbn.
  - eexists _, _. split; [done|]. intros m Hm. eapply refines_memory; [done|].
    eapply mem_perm; [apply mem_fresh, Hr|]. rewrite <- Permutation_middle. cbn. by rewrite Hm.
  - eexists _, _. split; [done|]. intros m Hm. destruct Hr as [? ? ? ? ? Hmem]. split; try done.
    eapply mem_perm; [done|]. rewrite <- Permutation_middle. cbn. by rewrite Hm.
Qed.

Lemma is_quitting t a out n : refines t a out n -> IsQuitting t = Ret (ag_quit a, t).
Proof. intros Hr. unfold IsQuitting. run. by rewrite (rf_quit _ _ _ _ Hr). Qed.

Lemma pending_post m a : ag_quit a = false -> ag_pending (ag_post m a) ≡ₚ m :: ag_pending a.
Proof. intros Hq. unfold ag_pending, ag_post. rewrite Hq. cbn. solve_Permutation. Qed.

Lemma pending_post_at t m a : ag_quit a = false -> ag_pending (ag_post_at t m a) ≡ₚ m :: ag_pending a.
Proof.
  intros Hq. unfold ag_pending, ag_post_at, later_insert. rewrite Hq. cbn.
  rewrite fmap_app, fmap_cons. cbn.
  rewrite <- (filter_app_complement (fun x => x.1 <= t) (ag_later a)) at 3. rewrite fmap_app.
  solve_Permutation.
Qed.

Lemma post_ok t a m out n : refines t a (m :: out) n ->
  exists t', Post (posted_from m) (phandler m) (message_id m) (pdata m) t = Ret (tt, t') /\
    refines t' (ag_post m a) out n.
Proof.
  intros Hr. unfold Post. step (is_quitting _ _ _ _ Hr). unfold ag_post. destruct (ag_quit a) eqn:Eq.
  { by apply refines_delete. }
  rewrite M_bind_modify. apply refines_wake. destruct Hr as [? Hready ? ? ? Hmem]. split; cbn; try done.
  - rewrite Hready. by destruct m.
  - congruence.
  - eapply mem_perm; [done|]. pose proof (pending_post m a Eq) as Hp. unfold ag_post in Hp.
    rewrite Eq in Hp. by rewrite Hp, <- Permutation_middle.
Qed.

Lemma delay_ok t a m delay at_ms out n : refines t a (m :: out) n -> n + 1 < 2 ^ 32 -> at_ms < 2 ^ 63 ->
  exists t', DoDelayPost (posted_from m) delay at_ms (phandler m) (message_id m) (pdata m) t = Ret (tt, t') /\
    refines t' (ag_post_at at_ms m a) out (n + 1).
Proof.
  intros Hr Hn Hat. unfold DoDelayPost. step (is_quitting _ _ _ _ Hr). unfold ag_post_at.
  destruct (ag_quit a) eqn:Eq.
  { apply refines_delete in Hr as (t' & Ht & Hr). exists t'. split; [done|]. eapply refines_le; [done|lia]. }
  rewrite M_bind_modify. apply refines_wake. destruct Hr as [? ? Hl Hnum ? Hmem].
  assert (MkMessage (posted_from m) (phandler m) (message_id m) (pdata m) = m) as -> by by destruct m.
  split; cbn; try done.
  - rewrite u32_small by lia.
    exact (later_push _ _ _ (MkDelayed delay at_ms (delayed_next_num_ t) m) Hl eq_refl Hat).
  - rewrite u32_small by lia. lia.
  - congruence.
  - eapply mem_perm; [done|]. pose proof (pending_post_at at_ms m a Eq) as Hp. unfold ag_post_at in Hp.
    rewrite Eq in Hp. by rewrite Hp, <- Permutation_middle.
Qed.

Lemma dispose_ok t a from out n : refines t a out n ->
  exists p t', (o ← new_object; Dispose from (Some o)) t = Ret (tt, t') /\
    refines t' (ag_post (MkMessage from None MQID_DISPOSE p) a) out n.
Proof.
  intros Hr. set (o := fresh (objects t)). set (l := fresh (dom (data t))). exists (Some l).
  set (t1 := set_memory (wakeups t) (<[l := DisposeData o]> (data t)) ({[o]} ∪ objects t) t).
  destruct (post_ok t1 a (MkMessage from None MQID_DISPOSE (Some l)) out n) as (t' & Ht & Hr').
  - eapply refines_memory; [done|]. eapply mem_perm; [apply (mem_fresh_dispose _ _ _ o (rf_memory _ _ _ _ Hr))|].
    + apply is_fresh.
    + by rewrite <- Permutation_middle.
  - exists t'. split; [|done]. rewrite <- Ht. reflexivity.
Qed.

(** *** [Clear] *)

(** What [removed] holds at the end. *)
Definition hand_out (removed : option (list Message)) (ms : list Message) : option (list Message) :=
  (fun r => r ++ ms) <$> removed.

Lemma hand_out_app r xs ys : hand_out (hand_out r xs) ys = hand_out r (xs ++ ys).
Proof. destruct r; cbn; [|done]. by rewrite app_assoc. Qed.

Lemma purge_ok m removed rest t :
  mem_ok (data t) (objects t) (omap pdata (m :: rest ++ default [] removed)) ->
  exists d o, purge m removed t = Ret (hand_out removed [m], set_memory (wakeups t) d o t) /\
    mem_ok d o (omap pdata (rest ++ default [] (hand_out removed [m]))).
Proof.
  intros Hm. destruct removed as [r|]; cbn.
  - exists (data t), (objects t). split; [by destruct t|]. eapply mem_perm; [done|].
    by rewrite app_assoc, <- Permutation_cons_append.
  - destruct (delete_data_ok t (pdata m) (omap pdata (rest ++ []))) as (d & o & He & Hm').
    { eapply mem_perm; [done|]. cbn. by destruct (pdata m). }
    exists d, o. split; [|done]. unfold mbind, M_bind. by rewrite He.
Qed.

Lemma purge_list_ok {A} (message : A -> Message) h id l removed rest t :
  mem_ok (data t) (objects t) (omap pdata ((message <$> l) ++ rest ++ default [] removed)) ->
  exists d o, let removed' := hand_out removed (message <$> filter (fun x => Match (message x) h id = true) l) in
    purge_list message h id l removed t =
      Ret ((filter (fun x => Match (message x) h id = false) l, removed'), set_memory (wakeups t) d o t) /\
    mem_ok d o (omap pdata ((message <$> filter (fun x => Match (message x) h id = false) l) ++ rest ++
                            default [] removed')).
Proof.
  revert removed rest t. induction l as [|x l IH]; intros removed rest t Hm.
  { exists (data t), (objects t). cbn. destruct removed as [r|]; cbn in *;
      rewrite ?app_nil_r in *; (split; [by destruct t|done]). }
  cbn [purge_list]. rewrite !filter_cons. destruct (Match (message x) h id) eqn:E; cbn.
  - destruct (purge_ok (message x) removed ((message <$> l) ++ rest) t) as (d & o & Hp & Hm').
    { eapply mem_perm; [exact Hm|]. cbn. by rewrite <- app_assoc. }
    step Hp. rewrite <- app_assoc in Hm'.
    destruct (IH _ _ (set_memory (wakeups t) d o t) Hm') as (d' & o' & Hl & Hm'').
    rewrite hand_out_app in Hl, Hm''. by exists d', o'.
  - destruct (IH removed (message x :: rest) t) as (d & o & Hl & Hm').
    { eapply mem_perm; [exact Hm|]. cbn. by rewrite <- Permutation_middle. }
    exists d, o. cbn in Hl. step Hl. split; [done|]. eapply mem_perm; [exact Hm'|]. cbn. by rewrite <- Permutation_middle.
Qed.

Lemma purge_peek_ok t a h id removed rest out n : refines t a out n ->
  mem_ok (data t) (objects t) (omap pdata (option_list (ag_peek a) ++ rest ++ default [] removed)) ->
  let removed' := hand_out removed (filter (fun m => Match m h id = true) (option_list (ag_peek a))) in
  let p' : option Message := x ← ag_peek a; if Match x h id then None else Some x in
  exists d o t', purge_peek h id removed t = Ret (removed', set_memory (wakeups t) d o t') /\
    t' = set_peek (if p' then fPeekKeep_ t else false) (msgPeek_ t) t /\
    p' = (if (if p' then fPeekKeep_ t else false) then Some (msgPeek_ t) else None) /\
    mem_ok d o (omap pdata (option_list p' ++ rest ++ default [] removed')).
Proof.
  intros Hr Hm. unfold purge_peek. rewrite M_bind_get. rewrite (rf_peek _ _ _ _ Hr) in Hm |- *.
  destruct (fPeekKeep_ t) eqn:Ep; cbn -[filter] in Hm |- *.
  2: { exists (data t), (objects t), (set_peek false (msgPeek_ t) t). rewrite filter_nil. unfold hand_out.
       destruct removed as [r|]; cbn in Hm |- *; rewrite ?app_nil_r in *; (split_and!; [by destruct t; cbn in *; subst|done..]). }
  rewrite !filter_cons. destruct (Match (msgPeek_ t) h id) eqn:E; cbn.
  - destruct (purge_ok _ _ _ _ Hm) as (d & o & Hp & Hm'). step Hp.
    exists d, o, (set_peek false (msgPeek_ t) t). by split_and!.
  - exists (data t), (objects t), (set_peek true (msgPeek_ t) t).
    destruct removed as [r|]; cbn in Hm |- *; rewrite ?app_nil_r in *; (split_and!; [by destruct t; cbn in *; subst|done..]).
Qed.

Lemma clear_ok t a h id (keep : bool) out n : refines t a out n ->
  exists r t', Clear h id (if keep then Some [] else None) t = Ret (r, t') /\
    let ms := if keep then ag_matching h id a else [] in
    default [] r ≡ₚ ms /\ refines t' (ag_clear h id a) (default [] r ++ out) n.
Proof.
  intros Hr. pose proof Hr as [Hpk Hrd Hl Hnum Hq Hm]. unfold Clear, ClearInternal.
  set (removed := if keep then Some [] else None).
  pose proof (later_perm _ _ _ Hl) as Hlp.
  destruct (purge_peek_ok t a h id removed (messages_ t ++ (msg_ <$> delayed_messages_ t) ++ out) out n Hr)
    as (d1 & o1 & t1 & He1 & Ht1 & Hp' & Hm1).
  { eapply mem_perm; [exact Hm|]. unfold ag_pending. rewrite Hrd, Hlp.
    destruct keep; cbn; by rewrite app_nil_r, <- !app_assoc. }
  step He1. rewrite M_bind_get. cbn [messages_ set_memory].
  set (p' := (x ← ag_peek a; _) : option Message) in *.
  assert (messages_ t1 = messages_ t) as -> by by rewrite Ht1.
  destruct (purge_list_ok (fun m => m) h id (messages_ t) (hand_out removed (filter (fun m => Match m h id = true) (option_list (ag_peek a))))
    (option_list p' ++ (msg_ <$> delayed_messages_ t) ++ out) (set_memory (wakeups t) d1 o1 t1)) as (d2 & o2 & He2 & Hm2).
  { eapply mem_msgs; [exact Hm1|]. rewrite list_fmap_id. solve_Permutation. }
  step He2. rewrite M_bind_modify, M_bind_get. cbn [delayed_messages_ set_memory set_messages fst snd].
  assert (delayed_messages_ t1 = delayed_messages_ t) as -> by by rewrite Ht1.
  rewrite !list_fmap_id, hand_out_app in Hm2. cbn [fst snd]. rewrite list_fmap_id, hand_out_app.
  set (kept := filter (fun x => Match x h id = false) (messages_ t)) in *.
  set (r2 := hand_out removed _).
  destruct (purge_list_ok msg_ h id (delayed_messages_ t) r2 (option_list p' ++ kept ++ out)
    (set_messages kept (set_memory (wakeups t) d2 o2 t1))) as (d3 & o3 & He3 & Hm3).
  { eapply mem_msgs; [exact Hm2|]. solve_Permutation. }
  unfold r2 in He3, Hm3. rewrite hand_out_app in He3, Hm3.
  step He3. eexists _, _. split; [reflexivity|]. cbn [fst snd].
  match goal with |- context [hand_out removed ?l] => set (ms := l) end.
  assert (ms ≡ₚ ag_matching h id a) as Hms.
  { unfold ms, ag_matching, ag_pending. rewrite Hlp, Hrd, !filter_app, <- app_assoc.
    by rewrite (filter_map_iff _ (fun d => Match (msg_ d) h id = true)) by done. }
  assert (default [] (hand_out removed ms) = if keep then ms else []) as Hdef by by destruct keep.
  rewrite Hdef. split; [destruct keep; [done|done]|]. pose proof (later_purge _ _ _ h id Hl) as Hlp'.
  pose proof (later_perm _ _ _ Hlp') as Hf. rewrite make_heap_perm in Hf by apply delayed_lt_order.
  subst t1. split; cbn; try done.
  - by rewrite Hrd.
  - eapply mem_msgs; [exact Hm3|]. unfold ag_pending; cbn. rewrite Hf, Hrd. fold p' kept ms. rewrite Hdef.
    solve_Permutation.
Qed.

(** *** [Get] *)

(** What [cmsDelayNext] becomes. *)
Definition next_due (now : Z) (l : list (Z * Message)) (otherwise : Z) : Z :=
  match l with [] => otherwise | x :: _ => x.1 - now end.

Lemma ag_trigger_none now a : Forall (fun x => now < x.1) (ag_later a) -> ag_trigger now a = a.
Proof.
  intros Hf. unfold ag_trigger. rewrite filter_none by (eapply Forall_impl; [exact Hf|]; cbn; lia).
  rewrite app_nil_r. destruct a as [p r l q]; cbn in *. f_equal.
  induction Hf as [|x l Hx _ IH]; [done|]. rewrite filter_cons_True by lia. by rewrite IH.
Qed.

Lemma ag_trigger_cons now a x l : ag_later a = x :: l -> x.1 <= now ->
  ag_trigger now a = ag_trigger now (MkAgenda (ag_peek a) (ag_ready a ++ [x.2]) l (ag_quit a)).
Proof.
  intros Hl Hx. unfold ag_trigger. rewrite Hl. cbn -[filter]. rewrite filter_cons_True by done.
  rewrite filter_cons_False by lia. cbn. by rewrite <- app_assoc.
Qed.

Lemma trigger_step t a d ds l out n : refines t a out n -> delayed_messages_ t = d :: ds ->
  ag_later a = entry d :: l -> later_ok (removelast (pop_heap delayed_lt (d :: ds))) (delayed_next_num_ t) l ->
  refines (set_delayed (removelast (pop_heap delayed_lt (d :: ds))) (delayed_next_num_ t)
      (set_messages (messages_ t ++ [msg_ d]) t))
    (MkAgenda (ag_peek a) (ag_ready a ++ [msg_ d]) l (ag_quit a)) out n.
Proof.
  intros [Hp Hr Hl Hn Hq Hm] Hds Hal Hok. split; cbn; try done.
  - by rewrite Hr.
  - eapply mem_msgs; [exact Hm|]. unfold ag_pending. rewrite Hal. cbn. solve_Permutation.
Qed.

Lemma trigger_ok now next0 k t a out n : refines t a out n -> 0 <= now ->
  length (delayed_messages_ t) = k ->
  exists t', trigger k now next0 t = Ret (next_due now (ag_later (ag_trigger now a)) next0, t') /\
    refines t' (ag_trigger now a) out n.
Proof.
  intros Hr Hnow. revert t a Hr. induction k as [|k IH]; intros t a Hr Hk; cbn [trigger]; rewrite M_bind_get.
  - apply nil_length_inv in Hk. rewrite bool_decide_true by done. 
    assert (ag_later a = []) as Hl by (pose proof (rf_later _ _ _ _ Hr) as Hl; rewrite Hk in Hl; by eapply later_none).
    rewrite ag_trigger_none by by rewrite Hl. rewrite Hl. by exists t.
  - destruct (delayed_messages_ t) as [|d ds] eqn:Ed; [done|]. rewrite bool_decide_false by done.
    pose proof (rf_later _ _ _ _ Hr) as Hl. rewrite Ed in Hl.
    destruct (later_top _ _ _ _ Hl) as (l & Hal & Hok). unfold delayed_top. run. rewrite Ed.
    destruct (Z.ltb_spec now (run_time_ms_ d)) as [Hlt|Hge].
    + assert (Forall (fun x => now < x.1) (ag_later a)) as Hf.
      { eapply Forall_impl; [by eapply later_head_time|]. cbn. lia. }
      rewrite ag_trigger_none, Hal by done. exists t. split; [|done]. cbn.
      unfold long. rewrite decide_True; [done|]. pose proof (later_times _ _ _ Hl) as Ht.
      apply Forall_inv in Ht. lia.
    + rewrite (ag_trigger_cons now a (entry d) l Hal Hge). cbn -[pop_heap ag_trigger].
      rewrite Ed. apply IH; [by apply trigger_step|]. cbn -[pop_heap].
      pose proof (later_perm _ _ _ Hok) as Hp1. pose proof (later_perm _ _ _ Hl) as Hp2.
      apply Permutation_length in Hp1, Hp2. rewrite Hal in Hp2. rewrite !length_fmap in Hp1, Hp2. cbn in *. lia.
Qed.

Definition ag_pop (a : Agenda) : Agenda := MkAgenda (ag_peek a) (tail (ag_ready a)) (ag_later a) (ag_quit a).

Lemma pop_ok t a m rest out n : refines t a out n -> messages_ t = m :: rest ->
  refines (set_messages rest t) (ag_pop a) (m :: out) n.
Proof.
  intros [Hp Hr Hl Hn Hq Hm] Hms. rewrite Hms in Hr. split; cbn; try done.
  - by rewrite Hr.
  - eapply mem_msgs; [exact Hm|]. unfold ag_pending; cbn. rewrite Hr. cbn. solve_Permutation.
Qed.

Lemma take_one_ok (first : bool) now next0 t a out n : refines t a out n -> 0 <= now ->
  let a1 := if first then ag_trigger now a else a in
  let next := if first then next_due now (ag_later a1) next0 else next0 in
  exists t', take_one first now next0 t = Ret ((next, head (ag_ready a1)), t') /\
    refines t' (ag_pop a1) (option_list (head (ag_ready a1)) ++ out) n.
Proof.
  intros Hr Hnow a1 next. unfold take_one. rewrite M_bind_get.
  assert (exists t1, (if first then trigger (length (delayed_messages_ t)) now next0 else mret next0) t =
    Ret (next, t1) /\ refines t1 a1 out n) as (t1 & He & Hr1).
  { destruct first; [by apply trigger_ok|by exists t]. }
  step He. rewrite M_bind_get. pose proof (rf_ready _ _ _ _ Hr1) as Hms.
  destruct (messages_ t1) as [|m rest] eqn:Em; rewrite Hms.
  - exists t1. split; [done|]. unfold ag_pop. rewrite Hms. destruct a1; cbn in *; by subst.
  - eexists. split; [done|]. by eapply pop_ok.
Qed.

(** *** Every event *)

(** The clock arithmetic of a post or a take stays in [int64_t]. *)
Definition op_times (o : op) : Prop :=
  match o with
  | OPostDelayed now _ delay _ _ _ => - 2 ^ 63 <= now + delay < 2 ^ 63
  | OPostAt now _ at_ms _ _ _ => at_ms < 2 ^ 63 /\ - 2 ^ 63 <= at_ms - now < 2 ^ 63
  | _ => True
  end.
Definition ev_times (e : event) : Prop :=
  match e with EvOp o => op_times o | EvTake _ _ now => 0 <= now | _ => True end.

Definition op_output (o : op) (ms : list Message) : output :=
  match o with OClear _ _ _ => Removed ms | _ => Nothing end.

Lemma refines_wake_le t a out n : refines t a out n -> refines t a out (n + 1).
Proof. intros. eapply refines_le; [done|lia]. Qed.

Lemma do_op_ok o t a out n : refines t a out n -> n + 1 < 2 ^ 32 -> op_times o ->
  exists p ms t', do_op o t = Ret (ms, t') /\ same_output (op_output o ms) (ag_op p o a).2 /\
    refines t' (ag_op p o a).1 (handed (op_output o ms) ++ out) (n + 1).
Proof.
  intros Hr Hn Hok. destruct o as [from h id b|now from delay h id b|now from at_ms h id b|from|h id keep| |];
    cbn [do_op ag_op op_output handed fst snd op_times] in *.
  - destruct (refines_new _ _ _ _ b Hr) as (p & t1 & He1 & Hr1). specialize (Hr1 (MkMessage from h id p) eq_refl).
    destruct (post_ok _ _ _ _ _ Hr1) as (t2 & He2 & Hr2). cbn in He2.
    exists p, [], t2. step He1. step He2. split_and!; [done..|]. by apply refines_wake_le.
  - destruct (refines_new _ _ _ _ b Hr) as (p & t1 & He1 & Hr1). specialize (Hr1 (MkMessage from h id p) eq_refl).
    destruct (delay_ok _ _ _ delay (now + delay) _ _ Hr1 Hn) as (t2 & He2 & Hr2); [lia|]. cbn in He2.
    exists p, [], t2. step He1. unfold PostDelayed. run. unfold long. rewrite decide_True by done.
    rewrite He2. by split_and!.
  - destruct (refines_new _ _ _ _ b Hr) as (p & t1 & He1 & Hr1). specialize (Hr1 (MkMessage from h id p) eq_refl).
    destruct (delay_ok _ _ _ (at_ms - now) at_ms _ _ Hr1 Hn) as (t2 & He2 & Hr2); [lia|]. cbn in He2.
    exists p, [], t2. step He1. unfold PostAt. run. unfold long. rewrite decide_True by lia.
    rewrite He2. by split_and!.
  - destruct (dispose_ok _ _ from _ _ Hr) as (p & t1 & He & Hr1). apply M_bind_ret in He as (o & t2 & He1 & He2).
    exists p, [], t1. step He1. step He2. split_and!; [done..|]. by apply refines_wake_le.
  - destruct (clear_ok _ _ h id keep _ _ Hr) as (r & t1 & He & Hms & Hr1).
    exists None, (default [] r), t1. step He. split_and!; [done..|]. by apply refines_wake_le.
  - eexists None, [], _. split_and!; [done..|]. apply refines_wake_le. destruct Hr. by split.
  - eexists None, [], _. split_and!; [done..|]. apply refines_wake_le. destruct Hr. by split.
Qed.

Lemma take_ok first (keep : bool) now t a out n : refines t a out n -> 0 <= now ->
  exists o t', ev_step (EvTake first keep now) t = Ret (o, t') /\ o = (ag_step None (EvTake first keep now) a).2 /\
    refines t' (ag_step None (EvTake first keep now) a).1 (handed o ++ out) n.
Proof.
  intros Hr Hnow. cbn [ev_step ag_step]. rewrite M_bind_get, (rf_peek _ _ _ _ Hr).
  destruct (fPeekKeep_ t) eqn:Ep; [by exists Nothing, t|].
  destruct (take_one_ok first now kForever _ _ _ _ Hr Hnow) as (t1 & He & Hr1). step He. cbn [snd].
  set (a1 := if first then ag_trigger now a else a) in *. pose proof (rf_peek _ _ _ _ Hr1) as Hp1.
  destruct (ag_ready a1) as [|m rest] eqn:Er; cbn [head option_list] in *.
  { exists Nothing, t1. split_and!; [done..|]. unfold ag_pop in Hr1. rewrite Er in Hr1. by destruct a1; cbn in *; subst. }
  unfold ag_pop in Hr1. rewrite Er in Hr1. cbn in Hr1.
  destruct (MQID_DISPOSE =? message_id m).
  { apply refines_delete in Hr1 as (t2 & He2 & Hr2). step He2. by exists Nothing, t2. }
  destruct keep; [|by exists (Got m), t1].
  exists (Seen m), (set_peek true m t1). split_and!; [done..|].
  assert (ag_peek a1 = None) as Hpa.
  { assert (ag_peek a1 = ag_peek a) as -> by by destruct first. by rewrite (rf_peek _ _ _ _ Hr), Ep. }
  destruct Hr1 as [_ Hr1 Hl Hnum Hq Hm]. split; try done.
  eapply mem_msgs; [exact Hm|]. unfold ag_pending. cbn. rewrite Hpa. cbn. solve_Permutation.
Qed.

Lemma peeked_ok (keep : bool) t a out n : refines t a out n ->
  exists o t', ev_step (EvPeeked keep) t = Ret (o, t') /\ o = (ag_step None (EvPeeked keep) a).2 /\
    refines t' (ag_step None (EvPeeked keep) a).1 (handed o ++ out) n.
Proof.
  intros Hr. cbn [ev_step ag_step]. rewrite M_bind_get, (rf_peek _ _ _ _ Hr).
  destruct (fPeekKeep_ t) eqn:Ep; [|by exists Nothing, t]. destruct keep; [by exists (Seen (msgPeek_ t)), t|].
  exists (Got (msgPeek_ t)), (set_peek false (msgPeek_ t) t). split_and!; [done..|].
  destruct Hr as [Hp Hr Hl Hnum Hq Hm]. rewrite Ep in Hp. split; try done.
  eapply mem_msgs; [exact Hm|]. unfold ag_pending. cbn. rewrite Hp. cbn. solve_Permutation.
Qed.

Lemma ev_step_ok e t a out n : refines t a out n -> n + 1 < 2 ^ 32 -> ev_times e ->
  exists p o t', ev_step e t = Ret (o, t') /\ same_output o (ag_step p e a).2 /\
    refines t' (ag_step p e a).1 (handed o ++ out) (n + 1).
Proof.
  intros Hr Hn Hok. destruct e as [o|keep|first keep now|cms io].
  - destruct (do_op_ok o _ _ _ _ Hr Hn Hok) as (p & ms & t' & He & Hs & Hr').
    exists p, (op_output o ms), t'. cbn [ev_step ag_step]. step He. by split_and!.
  - destruct (peeked_ok keep _ _ _ _ Hr) as (o & t' & He & -> & Hr').
    eexists None, _, t'. split_and!; [exact He| |by apply refines_wake_le].
    unfold same_output. by case_match.
  - destruct (take_ok first keep now _ _ _ _ Hr Hok) as (o & t' & He & -> & Hr').
    eexists None, _, t'. split_and!; [exact He| |by apply refines_wake_le].
    unfold same_output. by case_match.
  - eexists None, Nothing, _. split_and!; [done..|]. apply refines_wake_le. destruct Hr. by split.
Qed.

(** The messages that a run handed out, the latest first. *)
Definition all_handed (os : list output) (out : list Message) : list Message :=
  foldl (fun l o => handed o ++ l) out os.

Lemma ev_run_ok es t a out n : refines t a out n -> n + Z.of_nat (length es) < 2 ^ 32 -> Forall ev_times es ->
  exists ps os t', ev_run es t = Ret (os, t') /\ length ps = length es /\
    Forall2 same_output os (ag_run ps es a).2 /\
    refines t' (ag_run ps es a).1 (all_handed os out) (n + Z.of_nat (length es)).
Proof.
  revert t a out n. induction es as [|e es IH]; intros t a out n Hr Hn Hok.
  { exists [], [], t. split_and!; [done..|constructor|]. by rewrite Z.add_0_r. }
  apply Forall_cons in Hok as [He Hok]. cbn [length] in Hn.
  destruct (ev_step_ok e _ _ _ _ Hr ltac:(lia) He) as (p & o & t1 & He1 & Hs & Hr1).
  destruct (IH _ _ _ _ Hr1 ltac:(lia) Hok) as (ps & os & t2 & He2 & Hl & Hs2 & Hr2).
  exists (p :: ps), (o :: os), t2. cbn [ev_run ag_run]. step He1. step He2.
  destruct (ag_step p e a) as [a1 o1]. cbn [fst snd] in *. destruct (ag_run ps es a1) as [a2 os2]. cbn [fst snd length] in *.
  split_and!; [done|by rewrite Hl|by constructor|]. 
  replace (n + Z.of_nat (S (length es))) with (n + 1 + Z.of_nat (length es)) by lia. done.
Qed.
End refine.

Lemma refines_init `{StdHeap} : refines (Thread_ctor ∅ ∅) ag_empty [] 0.
Proof.
  split; try done. split; cbn; [apply heap_nil|by exists []; repeat constructor|constructor..].
Qed.
