(* ===== verification/MsgQueueFine.v ===== *)
(** * The accesses of the thread that takes messages out

    [Peek] and [Get] read and write [fPeekKeep_] and [msgPeek_] without the
    lock that [Clear] holds.  Here they run one access at a time, with the
    operations of the other threads anywhere between two accesses (the memory
    is sequentially consistent; a call of [Post], its test of [stop_] included,
    is one step, and so are a critical section of [Get] and the deletion of a
    DISPOSE message that it took).  As long as no [Clear] matches the message
    that the thread carries between two of its accesses, such a run is a run of
    the atomic steps of MsgQueueSpec.v: [access_run_ok]. *)

From S2P Require Import Prelude CLib StdHeap MsgQueue MsgQueueSpec.
#[local] Open Scope Z_scope.
#[local] Open Scope xrtc_scope.

(** ** The accesses *)

(** Where the thread is: before which access of [Peek] or [Get].  [keep] tells
    that [Get] was called by [Peek]. *)
Inductive phase :=
  | Idle
  | PTest                             (** Peek: if (fPeekKeep_) *)
  | PCopy                             (** Peek: *pmsg = msgPeek_ *)
  | GTest (keep : bool)               (** Get: if (fPeekKeep_) *)
  | GCopy (keep : bool)               (** Get: *pmsg = msgPeek_ *)
  | GReset (keep : bool) (m : Message) (** Get: fPeekKeep_ = false *)
  | GLook (keep first_pass : bool)    (** Get: a critical section *)
  | GWait (keep : bool)               (** Get: nothing was there *)
  | PStore (m : Message)              (** Peek: msgPeek_ = *pmsg *)
  | PFlag (m : Message).              (** Peek: fPeekKeep_ = true *)

Record Machine := MkMachine { owner : phase; queue : Thread }.

(** [Other] is an operation of any thread; the rest is the thread of the queue:
    a call, its next access at a reading of the clock, and, when nothing was
    there, a wait, the next look and the return. *)
Inductive access :=
  | Other (o : op)
  | CallGet
  | CallPeek
  | Go (now : Z)
  | Sleep (cms : Z) (process_io : bool)
  | Again
  | Leave.

Section fine.
Context `{StdHeap}.

Definition on_queue {A} (a : M Thread A) : M Machine A := fun s =>
  match a (queue s) with
  | Ret (r, t) => Ret (r, MkMachine (owner s) t)
  | Abort => Abort
  | Ub u => Ub u
  | OutOfFuel => OutOfFuel
  end.
Definition goto (ph : phase) : M Machine output := fun s => Ret (Nothing, MkMachine ph (queue s)).

(** [Get] returns [true]. *)
Definition got (keep : bool) (m : Message) : M Machine output :=
  if keep then goto (PStore m) else _ ← goto Idle; mret (Got m).

Definition go (now : Z) : M Machine output :=
  s ← get;
  match owner s with
  | Idle | GWait _ => mret Nothing
  | PTest => goto (if fPeekKeep_ (queue s) then PCopy else GTest true)
  | PCopy => _ ← goto Idle; mret (Seen (msgPeek_ (queue s)))
  | GTest keep => goto (if fPeekKeep_ (queue s) then GCopy keep else GLook keep true)
  | GCopy keep => goto (GReset keep (msgPeek_ (queue s)))
  | GReset keep m => _ ← on_queue (modify (fun t => set_peek false (msgPeek_ t) t)); got keep m
  | GLook keep first_pass =>
      r ← on_queue (take_one first_pass now kForever);
      match r.2 with
      | None => goto (GWait keep)
      | Some m =>
          if MQID_DISPOSE =? message_id m then _ ← on_queue (delete_data (pdata m)); goto (GLook keep false)
          else got keep m
      end
  | PStore m => _ ← on_queue (modify (fun t => set_peek (fPeekKeep_ t) m t)); goto (PFlag m)
  | PFlag m => _ ← on_queue (modify (fun t => set_peek true (msgPeek_ t) t)); _ ← goto Idle; mret (Seen m)
  end.

(** An access that does not fit the phase is skipped. *)
Definition access_step (x : access) : M Machine output :=
  s ← get;
  match x, owner s with
  | Other o, _ => on_queue (ev_step (EvOp o))
  | CallGet, Idle => goto (GTest false)
  | CallPeek, Idle => goto PTest
  | Go now, _ => go now
  | Sleep cms io, GWait keep => _ ← on_queue (ev_step (EvWait cms io)); goto (GWait keep)
  | Again, GWait keep => goto (GLook keep true)
  | Leave, GWait keep => goto Idle
  | _, _ => mret Nothing
  end.

Fixpoint access_run (xs : list access) : M Machine (list output) :=
  match xs with
  | [] => mret []
  | x :: xs => o ← access_step x; os ← access_run xs; mret (o :: os)
  end.

(** The message that the thread carries between two accesses. *)
Definition carried (s : Machine) : option Message :=
  match owner s with
  | PCopy | GCopy _ => Some (msgPeek_ (queue s))
  | GReset _ m | PStore m | PFlag m => Some m
  | _ => None
  end.

Definition spares (m : Message) (o : op) : bool :=
  match o with OClear h id _ => negb (Match m h id) | _ => true end.
Definition quiet (x : access) (s : Machine) : bool :=
  match x, carried s with Other o, Some m => spares m o | _, _ => true end.

(** No [Clear] matches a message while the thread carries it. *)
Fixpoint calm (xs : list access) (s : Machine) : bool :=
  match xs with
  | [] => true
  | x :: xs => quiet x s && match access_step x s with Ret (_, s') => calm xs s' | _ => true end
  end.

(** The atomic step that an access is: [Peek] and [Get] take effect when they
    read the flag or take a message, and their other accesses are no steps. *)
Definition steps_of (x : access) (s : Machine) : list event :=
  match x, owner s with
  | Other o, _ => [EvOp o]
  | Go _, PTest => if fPeekKeep_ (queue s) then [EvPeeked true] else []
  | Go _, GTest keep => if fPeekKeep_ (queue s) then [EvPeeked keep] else []
  | Go now, GLook keep first_pass => [EvTake first_pass keep now]
  | Sleep cms io, GWait _ => [EvWait cms io]
  | _, _ => []
  end.
Fixpoint atomic_steps (xs : list access) (s : Machine) : list event :=
  match xs with
  | [] => []
  | x :: xs => steps_of x s ++ match access_step x s with Ret (_, s') => atomic_steps xs s' | _ => [] end
  end.

(** What the thread is about to be handed, and the queue without it. *)
Definition pending (s : Machine) : list output :=
  match owner s with
  | PCopy => [Seen (msgPeek_ (queue s))]
  | GCopy keep => [if keep then Seen (msgPeek_ (queue s)) else Got (msgPeek_ (queue s))]
  | GReset keep m => [if keep then Seen m else Got m]
  | PStore m | PFlag m => [Seen m]
  | _ => []
  end.
Definition settled (s : Machine) : Thread :=
  match owner s with
  | GCopy false | GReset false _ => set_peek false (msgPeek_ (queue s)) (queue s)
  | PStore m | PFlag m => set_peek true m (queue s)
  | _ => queue s
  end.
End fine.

(** What the thread of the queue was handed, and what [Clear] handed out. *)
Definition mine : list output -> list output :=
  omap (fun o => match o with Got _ | Seen _ => Some o | _ => None end).
Definition theirs : list output -> list (list Message) :=
  omap (fun o => match o with Removed ms => Some ms | _ => None end).

(** ** The other threads do not see [msgPeek_] *)

Section frame.
Context `{StdHeap}.

Definition on_state {S A} (f : S -> S) (r : res (A * S)) : res (A * S) :=
  match r with
  | Ret (a, s) => Ret (a, f s)
  | Abort => Abort
  | Ub u => Ub u
  | OutOfFuel => OutOfFuel
  end.

(** [a] neither reads nor writes the flag and the message. *)
Definition peek_free {A} (a : M Thread A) : Prop :=
  forall k m t, a (set_peek k m t) = on_state (set_peek k m) (a t).

Lemma peek_free_bind {A B} (a : M Thread A) (f : A -> M Thread B) :
  peek_free a -> (forall x, peek_free (f x)) -> peek_free (mbind f a).
Proof. intros Ha Hf k m t. unfold mbind, M_bind. rewrite Ha. destruct (a t) as [[x s]| | |]; cbn; [apply Hf|done..]. Qed.
Lemma peek_free_ret {A} (x : A) : peek_free (mret x).
Proof. done. Qed.
Lemma peek_free_lift {A} (r : res A) : peek_free (lift r).
Proof. intros k m t. unfold lift. by destruct r. Qed.
Lemma peek_free_modify f : (forall k m t, f (set_peek k m t) = set_peek k m (f t)) -> peek_free (modify f).
Proof. intros Hf k m t. unfold modify. cbn. by rewrite Hf. Qed.
Lemma peek_free_get {A} (f : Thread -> M Thread A) :
  (forall t, peek_free (f t)) -> (forall k m t, f (set_peek k m t) = f t) -> peek_free (s ← get; f s).
Proof. intros Hf Hs k m t. rewrite !M_bind_get, Hs. apply Hf. Qed.

Lemma delete_data_free p : peek_free (delete_data p).
Proof.
  destruct p as [l|]; [|apply peek_free_ret]. intros k m t. unfold delete_data, delete_object. run.
  destruct (data t !! l) as [[|o]|] eqn:E; cbn; rewrite E; cbn; [done| |done]. by destruct (decide _).
Qed.
Lemma post_free from h id p : peek_free (Post from h id p).
Proof.
  intros k m t. unfold Post, IsQuitting. run. change (stop_ (set_peek k m t)) with (stop_ t). destruct (negb (stop_ t =? 0)); [apply delete_data_free|done].
Qed.
Lemma delay_free from d at_ms h id p : peek_free (DoDelayPost from d at_ms h id p).
Proof.
  intros k m t. unfold DoDelayPost, IsQuitting. run. change (stop_ (set_peek k m t)) with (stop_ t). destruct (negb (stop_ t =? 0)); [apply delete_data_free|done].
Qed.
Lemma new_data_free d : peek_free (new_data d).
Proof. by destruct d. Qed.
Lemma purge_free m r : peek_free (purge m r).
Proof. destruct r; [apply peek_free_ret|]. apply peek_free_bind; [apply delete_data_free|]. intros _. apply peek_free_ret. Qed.
Lemma purge_list_free {A} (message : A -> Message) h id l r : peek_free (purge_list message h id l r).
Proof.
  revert r. induction l as [|x l IH]; intros r; cbn [purge_list]; [apply peek_free_ret|].
  destruct (Match _ _ _); apply peek_free_bind; eauto using purge_free, peek_free_ret.
Qed.

Lemma clear_rest_free h id (r : option (list Message)) : peek_free (
  t ← get;
  r ← purge_list (fun m => m) h id (messages_ t) r;
  _ ← modify (set_messages r.1);
  t ← get;
  r ← purge_list msg_ h id (delayed_messages_ t) r.2;
  _ ← modify (fun t => set_delayed (make_heap delayed_lt r.1) (delayed_next_num_ t) t);
  mret r.2).
Proof.
  apply peek_free_get; [|done]. intros t. apply peek_free_bind; [apply purge_list_free|]. intros x.
  apply peek_free_bind; [by apply peek_free_modify|]. intros _. apply peek_free_get; [|done]. intros t'.
  apply peek_free_bind; [apply purge_list_free|]. intros y.
  apply peek_free_bind; [by apply peek_free_modify|]. intros _. apply peek_free_ret.
Qed.

Lemma clear_free h id r k m t :
  (fPeekKeep_ t = true -> Match (msgPeek_ t) h id = false) -> (k = true -> Match m h id = false) ->
  Clear h id r (set_peek k m t) = on_state (set_peek k m) (Clear h id r t).
Proof.
  intros Ht Hk. unfold Clear, ClearInternal.
  assert (forall t, (fPeekKeep_ t = true -> Match (msgPeek_ t) h id = false) -> purge_peek h id r t = Ret (r, t)) as Hp.
  { intros s Hs. unfold purge_peek. rewrite M_bind_get. destruct (fPeekKeep_ s); cbn [andb]; [|done]. by rewrite Hs. }
  rewrite (M_bind_eq _ _ _ _ _ (Hp t Ht)), (M_bind_eq _ _ _ _ _ (Hp (set_peek k m t) Hk)). apply clear_rest_free.
Qed.

Lemma op_free o k m t :
  (fPeekKeep_ t = true -> spares (msgPeek_ t) o = true) -> (k = true -> spares m o = true) ->
  ev_step (EvOp o) (set_peek k m t) = on_state (set_peek k m) (ev_step (EvOp o) t).
Proof.
  intros Ht Hk. cbn [ev_step].
  assert (do_op o (set_peek k m t) = on_state (set_peek k m) (do_op o t)) as He.
  { destruct o as [from h id b|now from d h id b|now from at_ms h id b|from|h id keep| |]; cbn [do_op spares] in *.
    - apply peek_free_bind; [apply new_data_free|]. intros p. apply peek_free_bind; [apply post_free|]. intros _. apply peek_free_ret.
    - apply peek_free_bind; [apply new_data_free|]. intros p. apply peek_free_bind; [|intros _; apply peek_free_ret].
      apply peek_free_bind; [apply peek_free_lift|]. intros ?. apply delay_free.
    - apply peek_free_bind; [apply new_data_free|]. intros p. apply peek_free_bind; [|intros _; apply peek_free_ret].
      apply peek_free_bind; [apply peek_free_lift|]. intros ?. apply delay_free.
    - apply peek_free_bind; [done|]. intros x. apply peek_free_bind; [|intros _; apply peek_free_ret].
      unfold Dispose. intros k' m' t'. rewrite !M_bind_get. cbv zeta.
      exact (post_free from None MQID_DISPOSE (Some (fresh (dom (data t')))) k' m'
        (set_memory (wakeups t') (<[fresh (dom (data t')) := DisposeData x]> (data t')) (objects t') t')).
    - unfold mbind, M_bind. rewrite clear_free by (intros Hx; apply negb_true_iff; auto).
      by destruct (Clear _ _ _ t) as [[? ?]| | |].
    - done.
    - done. }
  unfold mbind, M_bind. rewrite He. by destruct (do_op o t) as [[? ?]| | |].
Qed.

Lemma op_keeps_peek o t x t' : (fPeekKeep_ t = true -> spares (msgPeek_ t) o = true) ->
  ev_step (EvOp o) t = Ret (x, t') -> fPeekKeep_ t' = fPeekKeep_ t /\ msgPeek_ t' = msgPeek_ t.
Proof.
  intros Ht He. pose proof (op_free o (fPeekKeep_ t) (msgPeek_ t) t Ht Ht) as Hf.
  assert (set_peek (fPeekKeep_ t) (msgPeek_ t) t = t) as Hs by by destruct t.
  rewrite Hs, He in Hf. cbn in Hf. injection Hf as Hf. by rewrite Hf.
Qed.
End frame.

(** ** The simulation *)

Section simulation.
Context `{StdHeapLaws}.

(** What the accesses rely on. *)
Definition machine_ok (s : Machine) : Prop :=
  match owner s with
  | PCopy | GCopy _ => fPeekKeep_ (queue s) = true
  | GReset _ m => fPeekKeep_ (queue s) = true /\ msgPeek_ (queue s) = m
  | GLook _ _ | GWait _ | PStore _ => fPeekKeep_ (queue s) = false
  | PFlag m => fPeekKeep_ (queue s) = false /\ msgPeek_ (queue s) = m
  | _ => True
  end.

(** The atomic steps of an access lead from one settled queue to the next, and
    hand over what the access hands over or leaves pending. *)
Definition simulates (x : access) (s : Machine) : Prop :=
  forall os t, ev_run (steps_of x s) (settled s) = Ret (os, t) ->
  exists o s', access_step x s = Ret (o, s') /\ machine_ok s' /\ settled s' = t /\
    pending s ++ mine os = mine [o] ++ pending s' /\ theirs os = theirs [o].

Ltac spared Hok := solve [intros; first [done | congruence | destruct Hok; split_and?; congruence]].

Lemma other_simulates o s : machine_ok s -> quiet (Other o) s = true -> simulates (Other o) s.
Proof.
  intros Hok Hq os t Hr. cbn [steps_of ev_run] in Hr.
  apply M_bind_ret in Hr as (x & t1 & He & Hr). injection Hr as <- <-.
  assert (mine [x] = []) as Hm.
  { cbn [ev_step] in He. apply M_bind_ret in He as (ms & t2 & _ & He). injection He as <- _. by destruct o. }
  assert (forall t', ev_step (EvOp o) (queue s) = Ret (x, t') -> access_step (Other o) s = Ret (x, MkMachine (owner s) t')) as Hstep.
  { intros t' Ht'. unfold access_step, on_queue. by rewrite M_bind_get, Ht'. }
  rewrite Hm, app_nil_r. destruct s as [ph t]; cbn [owner queue] in *.
  unfold machine_ok, quiet, carried, settled, pending in *; cbn [owner queue] in *.
  assert (forall t', (fPeekKeep_ t = true -> spares (msgPeek_ t) o = true) -> ev_step (EvOp o) t = Ret (x, t') ->
    fPeekKeep_ t' = fPeekKeep_ t /\ msgPeek_ t' = msgPeek_ t) as Hkeep by (intros; by eapply op_keeps_peek).
  assert (forall k m, (fPeekKeep_ t = true -> spares (msgPeek_ t) o = true) -> (k = true -> spares m o = true) ->
    ev_step (EvOp o) (set_peek k m t) = Ret (x, t1) ->
    exists t', ev_step (EvOp o) t = Ret (x, t') /\ t1 = set_peek k m t') as Hfree.
  { intros k m Ht Hk He'. rewrite op_free in He' by done. destruct (ev_step (EvOp o) t) as [[y t']| | |]; try done.
    cbn in He'. injection He' as -> <-. by exists t'. }
  (* The queue is settled, or all but its flag and its message is. *)
  destruct ph as [| | |keep|[|]|[|] m|keep f|keep|m|m];
    lazymatch type of He with
    | _ _ t = _ => rename He into He'
    | _ (set_peek ?k ?m t) = _ => destruct (Hfree k m) as (t' & He' & ->); [spared Hok..|done|]
    end; eexists x, _; (split; [apply Hstep; exact He'|]).
  all: try (destruct (Hkeep _ ltac:(spared Hok) He') as [Hf Hm']).
  all: clear Hfree Hkeep Hstep; rewrite ?Hm; cbn [owner queue app] in *; try (split_and!; spared Hok).
Qed.

Lemma take_one_keeps_peek f now n t r t' : take_one f now n t = Ret (r, t') -> fPeekKeep_ t' = fPeekKeep_ t.
Proof.
  assert (forall k n, peek_free (trigger k now n)) as Ht.
  { induction k as [|k IH]; intros n0; cbn [trigger]; apply peek_free_get; try done; intros s;
      destruct (bool_decide _); try apply peek_free_ret; [apply peek_free_lift|].
    apply peek_free_bind; [unfold delayed_top; apply peek_free_get; [|done]; intros s'; by destruct (delayed_messages_ s')|].
    intros d. destruct (_ <? _); [apply peek_free_lift|].
    apply peek_free_bind; [by apply peek_free_modify|]. intros _.
    apply peek_free_bind; [by apply peek_free_modify|]. intros _. apply IH. }
  assert (peek_free (take_one f now n)) as Hp.
  { unfold take_one. apply peek_free_get; [|done]. intros s. apply peek_free_bind; [destruct f; [apply Ht|apply peek_free_ret]|].
    intros x. apply peek_free_get; [|done]. intros s'. destruct (messages_ s'); [apply peek_free_ret|].
    apply peek_free_bind; [by apply peek_free_modify|]. intros _. apply peek_free_ret. }
  intros Hr. specialize (Hp (fPeekKeep_ t) (msgPeek_ t) t).
  assert (set_peek (fPeekKeep_ t) (msgPeek_ t) t = t) as Hs by by destruct t.
  rewrite Hs, Hr in Hp. cbn in Hp. injection Hp as Hp. by rewrite Hp.
Qed.

Lemma delete_keeps_peek p t r t' : delete_data p t = Ret (r, t') -> fPeekKeep_ t' = fPeekKeep_ t.
Proof.
  intros Hr. pose proof (delete_data_free p (fPeekKeep_ t) (msgPeek_ t) t) as Hp.
  assert (set_peek (fPeekKeep_ t) (msgPeek_ t) t = t) as Hs by by destruct t.
  rewrite Hs, Hr in Hp. cbn in Hp. injection Hp as Hp. by rewrite Hp.
Qed.

(** A critical section of [Get]. *)
Lemma look_simulates keep f now q : fPeekKeep_ q = false -> simulates (Go now) (MkMachine (GLook keep f) q).
Proof.
  intros Hq os t Hr. cbn [steps_of owner ev_run settled queue] in Hr. apply M_bind_ret in Hr as (x & t1 & He & Hr).
  injection Hr as <- <-. cbn [ev_step] in He. rewrite M_bind_get, Hq in He.
  apply M_bind_ret in He as (r & t2 & Hr & He). pose proof (take_one_keeps_peek _ _ _ _ _ _ Hr) as Hf. rewrite Hq in Hf.
  unfold access_step. rewrite M_bind_get. cbn [owner]. unfold go. rewrite M_bind_get. cbn [owner].
  assert (on_queue (take_one f now kForever) (MkMachine (GLook keep f) q) = Ret (r, MkMachine (GLook keep f) t2)) as Ht.
  { unfold on_queue. cbn [queue]. by rewrite Hr. }
  step Ht. destruct (r.2) as [m|]; [|injection He as <- <-; by eexists _, _].
  destruct (_ =? _).
  - apply M_bind_ret in He as ([] & t3 & Hd & He). injection He as <- <-.
    pose proof (delete_keeps_peek _ _ _ _ Hd) as Hf'. rewrite Hf in Hf'.
    assert (on_queue (delete_data (pdata m)) (MkMachine (GLook keep f) t2) = Ret (tt, MkMachine (GLook keep f) t3)) as Hd'.
    { unfold on_queue. cbn [queue]. by rewrite Hd. }
    step Hd'. by eexists _, _.
  - destruct keep; [rewrite M_bind_modify in He|]; injection He as <- <-; by eexists _, _.
Qed.

Lemma go_simulates now s : machine_ok s -> simulates (Go now) s.
Proof.
  destruct s as [ph q]. intros Hok. destruct ph as [| | |keep|keep|keep m|keep f|keep|m|m]; [..|by apply look_simulates| | |].
  all: intros os t Hr; unfold machine_ok in Hok; cbn [steps_of owner ev_run settled queue] in *;
    unfold access_step; rewrite M_bind_get; cbn [owner]; unfold go; rewrite M_bind_get; cbn [owner queue];
    try destruct keep; try (destruct (fPeekKeep_ q) eqn:Hf; [|try (by destruct Hok)]).
  all: cbn [ev_run ev_step] in Hr; revert Hr; run; rewrite ?Hf; intros Hr; injection Hr as <- <-; eexists _, _; split; [done|];
    unfold machine_ok, settled; cbn; rewrite ?Hf; split_and!; try done; destruct q; cbn in *; naive_solver.
Qed.
Lemma access_simulates x s : machine_ok s -> quiet x s = true -> simulates x s.
Proof.
  intros Hok Hq. destruct x as [o| | |now|cms io| |]; [by apply other_simulates| | |by apply go_simulates|..].
  all: destruct s as [ph q]; unfold machine_ok in Hok; cbn [owner queue] in Hok; intros os t Hr;
    destruct ph; cbn [steps_of owner ev_run ev_step] in Hr; revert Hr; run; intros Hr; injection Hr as <- <-;
    eexists _, _; (split; [reflexivity|]); split_and!; try done; by rewrite ?app_nil_r.
Qed.

Lemma ev_run_app es1 es2 t r : ev_run (es1 ++ es2) t = Ret r <->
  exists os1 t1 os2 t2, ev_run es1 t = Ret (os1, t1) /\ ev_run es2 t1 = Ret (os2, t2) /\ r = (os1 ++ os2, t2).
Proof.
  revert t r. induction es1 as [|e es1 IH]; intros t r; cbn [ev_run app].
  { split; [intros Hr; destruct r as [os t']; by exists [], t, os, t'|].
    intros (os1 & t1 & os2 & t2 & [= <- <-] & Hr & ->). exact Hr. }
  destruct r as [os t']. rewrite M_bind_ret. split.
  - intros (o & s & He & Hr). apply M_bind_ret in Hr as (os' & s' & Hr & [= <- <-]).
    apply IH in Hr as (os1 & t1 & os2 & t2 & H1 & H2 & [= -> ->]).
    exists (o :: os1), t1, os2, t2. split_and!; [|done..]. step He. by step H1.
  - intros (os1 & t1 & os2 & t2 & H1 & H2 & [= -> ->]). apply M_bind_ret in H1 as (o & s & He & H1).
    apply M_bind_ret in H1 as (os' & s' & H1 & [= <- <-]). exists o, s. split; [done|].
    assert (ev_run (es1 ++ es2) s = Ret (os' ++ os2, t2)) as Hr by (apply IH; by exists os', s', os2, t2).
    by step Hr.
Qed.

(** The atomic steps of a calm run, if they have a result, are what it does. *)
Lemma access_run_sim xs s os t : machine_ok s -> calm xs s = true ->
  (forall es1 es2, atomic_steps xs s = es1 ++ es2 -> exists r, ev_run es1 (settled s) = Ret r) ->
  ev_run (atomic_steps xs s) (settled s) = Ret (os, t) ->
  exists os' s', access_run xs s = Ret (os', s') /\ machine_ok s' /\ settled s' = t /\
    pending s ++ mine os = mine os' ++ pending s' /\ theirs os = theirs os'.
Proof.
  revert s os t. induction xs as [|x xs IH]; intros s os t Hok Hc Hpre Hr; cbn [atomic_steps calm access_run] in *.
  { injection Hr as <- <-. exists [], s. by rewrite app_nil_r. }
  apply andb_true_iff in Hc as [Hq Hc].
  destruct (Hpre (steps_of x s) _ eq_refl) as [[os1 t1] H1].
  destruct (access_simulates x s Hok Hq _ _ H1) as (o & s1 & He & Hok1 & <- & Hm1 & Ht1).
  rewrite He in Hpre, Hr, Hc. apply ev_run_app in Hr as (os1' & t1' & os2 & t2 & H1' & H2 & [= -> ->]).
  rewrite H1 in H1'. injection H1' as <- <-.
  destruct (IH s1 os2 t2 Hok1 Hc) as (os' & s' & He' & Hok' & Hs' & Hm' & Ht'); [|done|].
  { intros es1 es2 Hes. destruct (Hpre (steps_of x s ++ es1) es2) as [r Hr]; [by rewrite Hes, app_assoc|].
    apply ev_run_app in Hr as (a & b & c & d & Ha & Hb & ->). rewrite H1 in Ha. injection Ha as <- <-. eauto. }
  exists (o :: os'), s'. step He. step He'. split_and!; [done..| |].
  - change (mine (o :: os')) with (mine ([o] ++ os')). unfold mine in *. rewrite !omap_app, app_assoc, Hm1, <- !app_assoc. by rewrite Hm'.
  - change (theirs (o :: os')) with (theirs ([o] ++ os')). unfold theirs in *. by rewrite !omap_app, Ht1, Ht'.
Qed.

(** The clock arithmetic of an access stays in [int64_t]. *)
Definition access_times (x : access) : Prop :=
  match x with Other o => op_times o | Go now => 0 <= now | _ => True end.

Lemma steps_of_times x s : access_times x -> Forall ev_times (steps_of x s).
Proof. intros Hx. destruct x, s as [[]]; cbn; repeat case_match; repeat constructor; done. Qed.
Lemma steps_of_length x s : (length (steps_of x s) <= 1)%nat.
Proof. destruct x, s as [[]]; cbn; repeat case_match; cbn; lia. Qed.
Lemma atomic_steps_times xs s : Forall access_times xs -> Forall ev_times (atomic_steps xs s).
Proof.
  intros Hx. revert s. induction Hx as [|x xs Hx _ IH]; intros s; cbn [atomic_steps]; [constructor|].
  apply Forall_app. split; [by apply steps_of_times|]. destruct (access_step x s) as [[? ?]| | |]; by constructor || apply IH.
Qed.
Lemma atomic_steps_length xs s : (length (atomic_steps xs s) <= length xs)%nat.
Proof.
  revert s. induction xs as [|x xs IH]; intros s; cbn [atomic_steps length]; [done|]. rewrite length_app.
  pose proof (steps_of_length x s). destruct (access_step x s) as [[? s']| | |]; cbn; [specialize (IH s')|..]; lia.
Qed.

Lemma handed_split os : concat (handed <$> os) ≡ₚ concat (handed <$> mine os) ++ concat (theirs os).
Proof. induction os as [|[|m|m|ms] os IH]; cbn in *; rewrite ?IH; try done; solve_Permutation. Qed.
Lemma all_handed_perm os out : all_handed os out ≡ₚ concat (handed <$> os) ++ out.
Proof.
  revert out. induction os as [|o os IH]; intros out; cbn; [done|]. unfold all_handed in *. rewrite IH. solve_Permutation.
Qed.
Lemma refines_out t a out out' n : refines t a out n -> out' ≡ₚ out -> refines t a out' n.
Proof.
  intros [? ? ? ? ? Hm] Ho. split; try done. eapply mem_msgs; [exact Hm|]. by rewrite Ho.
Qed.

(** A calm run is defined, and is a run of its atomic steps on the agenda. *)
Lemma access_run_ok xs s a out n : machine_ok s -> refines (settled s) a (concat (handed <$> pending s) ++ out) n ->
  n + Z.of_nat (length xs) < 2 ^ 32 -> Forall access_times xs -> calm xs s = true ->
  exists os s' ps os', access_run xs s = Ret (os, s') /\ machine_ok s' /\
    length ps = length (atomic_steps xs s) /\ Forall2 same_output os' (ag_run ps (atomic_steps xs s) a).2 /\
    pending s ++ mine os' = mine os ++ pending s' /\ theirs os' = theirs os /\
    refines (settled s') (ag_run ps (atomic_steps xs s) a).1 (concat (handed <$> os ++ pending s') ++ out)
      (n + Z.of_nat (length (atomic_steps xs s))).
Proof.
  intros Hok Hr Hn Ht Hc. pose proof (atomic_steps_length xs s). pose proof (atomic_steps_times xs s Ht) as Hts.
  destruct (ev_run_ok (atomic_steps xs s) _ _ _ _ Hr) as (ps & os' & t' & He & Hl & Hs & Hr'); [lia|done|].
  destruct (access_run_sim xs s os' t' Hok Hc) as (os & s' & He' & Hok' & <- & Hm & Hth); [|done|].
  { intros es1 es2 Hes. rewrite Hes in He. apply ev_run_app in He as (? & ? & ? & ? & ? & _). eauto. }
  exists os, s', ps, os'. split_and!; [done..|]. eapply refines_out; [exact Hr'|].
  rewrite all_handed_perm, app_assoc. apply Permutation_app_tail.
  rewrite fmap_app, concat_app, (handed_split os), (handed_split os'), <- Hth.
  pose proof (f_equal (fun l => concat (handed <$> l)) Hm) as Hmp. cbn beta in Hmp. rewrite !fmap_app, !concat_app in Hmp.
  symmetry. transitivity ((concat (handed <$> pending s) ++ concat (handed <$> mine os')) ++ concat (theirs os')); [solve_Permutation|].
  rewrite Hmp. solve_Permutation.
Qed.

Lemma settled_data s : data (settled s) = data (queue s).
Proof. destruct s as [[| | |?|[]|[] ?|? ?|?|?|?] ?]; done. Qed.

(** Outside of the accesses to [msgPeek_], only the flag matters. *)
Lemma outside_ok ph t t' : carried (MkMachine ph t) = None -> machine_ok (MkMachine ph t) ->
  (fPeekKeep_ t = false -> fPeekKeep_ t' = false) ->
  machine_ok (MkMachine ph t') /\ settled (MkMachine ph t') = t' /\ pending (MkMachine ph t') = [].
Proof. destruct ph; cbn; try done; auto. Qed.
End simulation.

(** ** What a [Clear] in between does *)

Section races.
Definition payload_here (h : loc) (id : Z) : op := OPost (MkLocation "f" "g.cc" 7) (Some h) id true.
Definition results `{StdHeap} (xs : list access) : option (list output * gset loc) :=
  match access_run xs (MkMachine Idle (Thread_ctor ∅ ∅)) with Ret (os, s) => Some (os, dom (data (queue s))) | _ => None end.
#[local] Definition posted_message : Message := MkMessage (MkLocation "f" "g.cc" 7) (Some 3%positive) 1 (Some 1%positive).

(** [Peek] has taken a message for the handler 3 when another thread clears the
    messages of that handler: the message is stored afterwards, and the next
    [Get] hands it out. *)
Example cleared_while_stored `{StdHeap} :
  let xs := [Other (payload_here 3 1); CallPeek; Go 5; Go 5; Go 5; Other (OClear (Some 3%positive) MQID_ANY false);
    Go 5; Go 5; CallGet; Go 6; Go 6; Go 6] in
  results xs = Some ([Nothing; Nothing; Nothing; Nothing; Nothing; Removed []; Nothing; Seen posted_message;
    Nothing; Nothing; Nothing; Got posted_message], {[1%positive]}).
Proof. vm_compute. reflexivity. Qed.

(** [Get] has read the flag of a message that was peeked at when another thread
    clears it: [Clear] deletes the payload, and [Get] hands the message out. *)
Example cleared_while_copied `{StdHeap} :
  let xs := [Other (payload_here 3 1); CallPeek; Go 5; Go 5; Go 5; Go 5; Go 5; CallGet; Go 6;
    Other (OClear (Some 3%positive) MQID_ANY false); Go 6; Go 6] in
  results xs = Some ([Nothing; Nothing; Nothing; Nothing; Nothing; Nothing; Seen posted_message; Nothing; Nothing;
    Removed []; Nothing; Got posted_message], ∅).
Proof. vm_compute. reflexivity. Qed.
End races.
