(* ===== verification/MsgQueueGet.v ===== *)
(** * Taking messages out of the queue of a thread

    [Get] and [Peek] are sequences of the atomic steps of MsgQueueSpec.v, so
    what is proved of the steps, in any order, holds of them; when a message
    comes out; and what [ThreadManager::Clear] leaves behind. *)

From S2P Require Import Prelude CLib StdHeap MsgQueue MsgQueueSpec MsgQueueFine.
#[local] Open Scope Z_scope.
#[local] Open Scope xrtc_scope.

Section get.
Context `{StdHeapLaws}.

Fixpoint skip_dispose (l : list Message) : list Message :=
  match l with
  | [] => []
  | m :: l' => if MQID_DISPOSE =? message_id m then skip_dispose l' else l
  end.

Definition with_ready (l : list Message) (a : Agenda) : Agenda :=
  MkAgenda (ag_peek a) l (ag_later a) (ag_quit a).
Definition triggered (first : bool) (now : Z) (a : Agenda) : Agenda := if first then ag_trigger now a else a.

(** What one look at the queue finds and leaves. *)
Definition ag_found (first : bool) (now : Z) (a : Agenda) : option Message :=
  head (skip_dispose (ag_ready (triggered first now a))).
Definition ag_left (first : bool) (now : Z) (a : Agenda) : Agenda :=
  with_ready (tail (skip_dispose (ag_ready (triggered first now a)))) (triggered first now a).

Definition kept (keep : bool) (r : option Message) (t : Thread) : Thread :=
  match r with Some m => if keep then set_peek true m t else t | None => t end.
Definition seen (o : output) : option Message :=
  match o with Got m => Some m | Seen m => Some m | _ => None end.

Lemma ev_run_snoc es1 es2 t os1 t1 r : ev_run es1 t = Ret (os1, t1) -> ev_run es2 t1 = Ret r ->
  ev_run (es1 ++ es2) t = Ret (os1 ++ r.1, r.2).
Proof.
  revert t os1. induction es1 as [|e es1 IH]; intros t os1 H1 H2; cbn in H1 |- *.
  - injection H1 as <- <-. by destruct r.
  - apply M_bind_ret in H1 as (o & t' & He & H1). apply M_bind_ret in H1 as (os & t'' & Hes & H1).
    injection H1 as <- <-. step He. by rewrite (M_bind_eq _ _ _ _ _ (IH _ _ Hes H2)).
Qed.

(** The state after a critical section does not depend on [cmsDelayNext]. *)
Lemma trigger_next k now n1 n2 t x t' : trigger k now n1 t = Ret (x, t') -> exists y, trigger k now n2 t = Ret (y, t').
Proof.
  revert t. induction k as [|k IH]; intros t; cbn [trigger]; rewrite !M_bind_get;
    (destruct (bool_decide (delayed_messages_ t = [])); [intros [= <- <-]; by eexists|]); [done|].
  unfold delayed_top. run. destruct (delayed_messages_ t) as [|d ds]; [done|].
  destruct (now <? run_time_ms_ d); [|apply IH].
  destruct (long _); try done. intros [= <- <-]. by eexists.
Qed.

Lemma take_one_next first now n1 n2 t x m t' : take_one first now n1 t = Ret ((x, m), t') ->
  exists y, take_one first now n2 t = Ret ((y, m), t').
Proof.
  unfold take_one. rewrite !M_bind_get. intros Hr.
  apply M_bind_ret in Hr as (z & t1 & He & Hr).
  assert (exists y, (if first then trigger (length (delayed_messages_ t)) now n2 else mret n2) t = Ret (y, t1)) as [y Hy].
  { destruct first; [by eapply trigger_next|]. injection He as <- <-. by eexists. }
  step Hy. rewrite M_bind_get in Hr |- *. destruct (messages_ t1); [by injection Hr as <- <- <-; eexists|].
  rewrite M_bind_modify in Hr |- *. injection Hr as <- <- <-. by eexists.
Qed.

(** One [Get] critical section, as an event that may keep what it finds. *)
Lemma take_one_event keep first now next t m x t' : fPeekKeep_ t = false ->
  take_one first now next t = Ret ((x, Some m), t') -> MQID_DISPOSE =? message_id m = false ->
  exists o, ev_step (EvTake first keep now) t = Ret (o, kept keep (Some m) t') /\ seen o = Some m.
Proof.
  intros Hp He Hm. destruct (take_one_next _ _ _ kForever _ _ _ _ He) as [y Hy].
  cbn [ev_step]. rewrite M_bind_get, Hp. step Hy. cbn [snd]. rewrite Hm. destruct keep; by eexists.
Qed.

Lemma take_one_event_dispose keep first now next t m x t' t'' : fPeekKeep_ t = false ->
  take_one first now next t = Ret ((x, Some m), t') -> MQID_DISPOSE =? message_id m = true ->
  delete_data (pdata m) t' = Ret (tt, t'') ->
  ev_step (EvTake first keep now) t = Ret (Nothing, t'').
Proof.
  intros Hp He Hm Hd. destruct (take_one_next _ _ _ kForever _ _ _ _ He) as [y Hy].
  cbn [ev_step]. rewrite M_bind_get, Hp. step Hy. cbn [snd]. rewrite Hm. by step Hd.
Qed.

Lemma take_one_event_none keep first now next t x t' : fPeekKeep_ t = false ->
  take_one first now next t = Ret ((x, None), t') ->
  ev_step (EvTake first keep now) t = Ret (Nothing, t').
Proof.
  intros Hp He. destruct (take_one_next _ _ _ kForever _ _ _ _ He) as [y Hy].
  cbn [ev_step]. rewrite M_bind_get, Hp. by step Hy.
Qed.

Lemma no_peek t a out n : refines t a out n -> ag_peek a = None -> fPeekKeep_ t = false.
Proof. intros Hr. rewrite (rf_peek _ _ _ _ Hr). by destruct (fPeekKeep_ t). Qed.

Lemma check_posted_ok keep k first now next t a out n : refines t a out n -> 0 <= now -> ag_peek a = None ->
  (length (ag_ready (triggered first now a)) <= k)%nat ->
  let r := ag_found first now a in
  exists es os o t',
    check_posted k first now next t =
      Ret ((if first then next_due now (ag_later (triggered first now a)) next else next, r), t') /\
    refines t' (ag_left first now a) (option_list r ++ out) n /\
    ev_run es t = Ret (os ++ [o], kept keep r t') /\ seen o = r /\ Forall ev_times es.
Proof.
  revert first next t a. induction k as [|k IH]; intros first next t a Hr Hnow Hpk Hlen r;
    destruct (take_one_ok first now next _ _ _ _ Hr Hnow) as (t1 & He & Hr1);
    fold (triggered first now a) in He, Hr1;
    assert (ag_peek (triggered first now a) = None) as Hpk1 by (by destruct first);
    unfold r, ag_found, ag_left; cbn [check_posted];
    pose proof (no_peek _ _ _ _ Hr Hpk) as Hp;
    unfold ag_pop, with_ready in *;
    destruct (ag_ready (triggered first now a)) as [|m rest] eqn:Er; cbn [head tail option_list skip_dispose] in *;
    try (cbn in Hlen; lia); step He.
  1, 2: exists [EvTake first keep now], [], Nothing, t1; split_and!; [done..| |done|by repeat constructor];
    cbn [ev_run kept]; by rewrite (M_bind_eq _ _ _ _ _ (take_one_event_none keep _ _ _ _ _ _ Hp He)).
  destruct (MQID_DISPOSE =? message_id m) eqn:Em; cbn [head tail option_list].
  - apply refines_delete in Hr1 as (t2 & Hd & Hr2). step Hd.
    destruct (IH false (if first then next_due now (ag_later (triggered first now a)) next else next) t2 _ Hr2 Hnow)
      as (es & os & o & t' & Hc & Hr' & Hes & Ho & Hok); [done|cbn in *; lia|].
    exists (EvTake first keep now :: es), (Nothing :: os), o, t'.
    split_and!; [exact Hc|exact Hr'| |done|by constructor].
    cbn [ev_run app]. rewrite (M_bind_eq _ _ _ _ _ (take_one_event_dispose keep _ _ _ _ _ _ _ _ Hp He Em Hd)).
    by rewrite (M_bind_eq _ _ _ _ _ Hes).
  - destruct (take_one_event keep _ _ _ _ _ _ _ Hp He Em) as (o & Hev & Ho).
    exists [EvTake first keep now], [], o, t1. split_and!; [done..| |done|by repeat constructor].
    cbn [ev_run]. by rewrite (M_bind_eq _ _ _ _ _ Hev).
Qed.

Lemma check_events_ok keep now t a out n : refines t a out n -> 0 <= now -> ag_peek a = None ->
  let r := ag_found true now a in
  exists es os o t',
    check_posted_events now t = Ret ((next_due now (ag_later (ag_trigger now a)) kForever, r), t') /\
    refines t' (ag_left true now a) (option_list r ++ out) n /\
    ev_run es t = Ret (os ++ [o], kept keep r t') /\ seen o = r /\ Forall ev_times es.
Proof.
  intros Hr Hnow Hpk. unfold check_posted_events. rewrite M_bind_get.
  apply (check_posted_ok keep _ true now kForever); [done..|]. cbn.
  rewrite (rf_ready _ _ _ _ Hr), length_app, length_fmap.
  pose proof (later_perm _ _ _ (rf_later _ _ _ _ Hr)) as Hl. apply Permutation_length in Hl.
  rewrite !length_fmap in Hl. rewrite <- Hl.
  pose proof (length_filter (fun x => x.1 <= now) (ag_later a)). lia.
Qed.

(** *** Waits *)

Definition same_waits : relation Thread := fun t t' => waits t' = waits t.
#[local] Instance same_waits_pre : PreOrder same_waits.
Proof. split; unfold same_waits; [done|congruence]. Qed.

Lemma delete_data_waits p : keeps same_waits (delete_data p).
Proof.
  unfold delete_data, delete_object. destruct p as [p|]; [|apply (keeps_ret same_waits)].
  apply (keeps_get_bind same_waits). intros t b t'. destruct (data t !! p) as [[|o]|]; [|run|done].
  - by intros [= <- <-].
  - destruct (decide _); [|done]. by intros [= <- <-].
Qed.

Lemma trigger_waits k now next : keeps same_waits (trigger k now next).
Proof.
  revert next. induction k as [|k IH]; intros next; cbn [trigger]; apply (keeps_bind same_waits); try apply (keeps_get same_waits);
    intros t; destruct (bool_decide _); eauto with keeps typeclass_instances.
  unfold delayed_top. apply (keeps_bind same_waits); [by keeps|]. intros d. destruct (_ <? _); [by keeps|].
  apply (keeps_bind same_waits); [by apply (keeps_modify same_waits)|]. intros _. apply (keeps_bind same_waits); [by apply (keeps_modify same_waits)|]. by intros _.
Qed.

Lemma check_posted_waits k f now next : keeps same_waits (check_posted k f now next).
Proof.
  assert (forall f now next, keeps same_waits (take_one f now next)) as Ht.
  { intros. unfold take_one. apply (keeps_get_bind same_waits). intros t b t'. revert t'.
    intros t' Hr. revert Hr. apply (keeps_bind same_waits); [destruct f0; [apply trigger_waits|apply (keeps_ret same_waits)]|].
    intros x. apply (keeps_get_bind same_waits). intros s c s'. destruct (messages_ s); [by intros [= _ <-]|]. by intros [= _ <-]. }
  revert f next. induction k as [|k IH]; intros f next; cbn [check_posted]; (apply (keeps_bind same_waits); [apply Ht|]);
    intros [nx [m|]]; try apply (keeps_ret same_waits); (destruct (_ =? _); [|apply (keeps_ret same_waits)]);
    (apply (keeps_bind same_waits); [apply delete_data_waits|]); intros _; [apply (keeps_lift same_waits)|apply IH].
Qed.

(** *** A delayed message comes out at its time *)

(** A turn in which nobody else touches the queue. *)
Definition alone (now_after : Z) : turn := MkTurn [] true now_after.

(** The wait asked for at the time [c]: until the message is due, or until the
    time asked for is over. *)
Definition sleep (T now w c : Z) : Z := if w =? kForever then T - c else Z.min (T - c) (w - (c - now)).

Lemma sleep_cms T now w c : c < T < c + 2 ^ 31 -> w = kForever \/ c - now < w < 2 ^ 31 -> now <= c ->
  i32 (cms_next w (c - now) (T - c)) = sleep T now w c.
Proof.
  intros Hc Hw Hn. unfold cms_next, sleep, kForever in *. cbv zeta.
  repeat match goal with |- context [?x =? ?y] => destruct (Z.eqb_spec x y) end; try lia;
    cbn [negb andb]; try destruct (Z.ltb_spec (T - c) (Z.max 0 (w - (c - now)))); rewrite i32_small; lia.
Qed.

(** A look at a queue in which nothing is due. *)
Lemma check_idle t T m l out n now :
  refines t (MkAgenda None [] ((T, m) :: l) false) out n -> 0 <= now < T ->
  exists t', check_posted_events now t = Ret ((T - now, None), t') /\
    refines t' (MkAgenda None [] ((T, m) :: l) false) out n /\ waits t' = waits t.
Proof.
  intros Hr Hnow. set (a := MkAgenda _ _ _ _) in *.
  assert (ag_trigger now a = a) as Ht.
  { apply ag_trigger_none. pose proof (rf_later _ _ _ _ Hr) as Hl. cbn in Hl |- *.
    destruct (delayed_messages_ t) as [|d ds]; [by apply later_none in Hl|].
    pose proof (later_head_time _ _ _ _ Hl) as Hh. destruct (later_top _ _ _ _ Hl) as (l' & [= HT Hm Hl'] & _).
    eapply Forall_impl; [exact Hh|]. cbn. lia. }
  destruct (check_events_ok false now _ _ _ _ Hr ltac:(lia) eq_refl) as (es & os & o & t' & He & Hr' & _).
  unfold ag_found, ag_left in *. cbn [triggered] in *. rewrite Ht in *. exists t'. split_and!; [done..|].
  eapply (check_posted_waits _ _ _ _ t). exact He.
Qed.

Fixpoint final (c : Z) (cs : list Z) : Z := match cs with [] => c | c' :: cs => final c' cs end.

Definition waiting_turn (T now w c : Z) : Prop :=
  now <= c < T /\ (w = kForever \/ c - now < w).

Lemma get_sleeps T m l now w io out n cs c t script :
  refines t (MkAgenda None [] ((T, m) :: l) false) out n -> 0 <= now -> T < now + 2 ^ 31 -> w < 2 ^ 31 ->
  Forall (waiting_turn T now w) (c :: cs) ->
  exists t', refines t' (MkAgenda None [] ((T, m) :: l) false) out n /\
    waits t' = waits t ++ ((fun c => (sleep T now w c, io)) <$> removelast (c :: cs)) /\
    get_loop ((alone <$> cs) ++ script) w io now c (c - now) t =
    get_loop script w io now (final c cs) (final c cs - now) t'.
Proof.
  intros Hr Hnow HT Hw Hcs. revert c t Hr Hcs. induction cs as [|c' cs IH]; intros c t Hr Hcs.
  { exists t. cbn. by rewrite app_nil_r. }
  apply Forall_cons in Hcs as [[Hc Hcw] Hcs]. pose proof Hcs as [[Hc' Hcw'] _]%Forall_cons.
  destruct (check_idle _ _ _ _ _ _ c Hr) as (t1 & He & Hr1 & Hw1); [lia|].
  set (t2 := set_waits (waits t1 ++ [(sleep T now w c, io)]) t1).
  assert (refines t2 (MkAgenda None [] ((T, m) :: l) false) out n) as Hr2 by (destruct Hr1; by split).
  destruct (IH c' t2 Hr2 Hcs) as (t' & Hr' & Hw' & He'). exists t'. split_and!; [done| |].
  - rewrite Hw'. cbn [t2 waits set_waits]. rewrite Hw1, <- app_assoc. done.
  - rewrite fmap_cons. cbn [app get_loop]. step He. rewrite (M_bind_eq _ _ _ _ _ (is_quitting _ _ _ _ Hr1)). cbn [ag_quit].
    rewrite sleep_cms by (destruct Hcw; lia).
    rewrite (M_bind_eq _ _ t1 true t2) by done. cbn [negb now_after alone].
    rewrite (M_bind_lift (c' - now)) by (unfold long; rewrite decide_True by (unfold kForever in *; lia); done).
    replace (negb (w =? kForever) && (w <=? c' - now)) with false by (unfold kForever in *; lia).
    exact He'.
Qed.

Lemma final_waiting T now w c cs : Forall (waiting_turn T now w) (c :: cs) -> waiting_turn T now w (final c cs).
Proof.
  revert c. induction cs as [|c' cs IH]; intros c Hcs; cbn; [by apply Forall_inv in Hcs|].
  apply IH. by eapply Forall_inv_tail.
Qed.

Lemma removelast_final c cs : removelast (c :: cs) ++ [final c cs] = c :: cs.
Proof. revert c. induction cs as [|c' cs IH]; intros c; [done|]. cbn [final]. rewrite <- IH at 2. done. Qed.

(** A look at the queue when its first message is due. *)
Lemma check_due t T m l out n now :
  refines t (MkAgenda None [] ((T, m) :: l) false) out n -> message_id m <> MQID_DISPOSE -> 0 <= now -> T <= now ->
  exists nx t', check_posted_events now t = Ret ((nx, Some m), t') /\
    refines t' (MkAgenda None (filter (fun x => x.1 <= now) l).*2 (filter (fun x => ~ x.1 <= now) l) false) (m :: out) n /\
    waits t' = waits t.
Proof.
  intros Hr Hm Hnow HT.
  destruct (check_events_ok false now _ _ _ _ Hr Hnow eq_refl) as (es & os & o & t' & He & Hr' & _).
  unfold ag_found, ag_left, triggered in *. rewrite (ag_trigger_cons now _ (T, m) l) in * by done.
  cbn -[filter] in *. destruct (MQID_DISPOSE =? message_id m) eqn:E; [lia|]. cbn -[filter] in *.
  eexists _, t'. split_and!; [done..|]. eapply (check_posted_waits _ _ _ _ t). exact He.
Qed.



(** *** [Get] and [Peek] are sequences of accesses

    Whatever the other threads do during their waits; what they may do between
    two accesses is in MsgQueueFine.v. *)

Lemma access_run_app xs1 xs2 s os1 s1 r : access_run xs1 s = Ret (os1, s1) -> access_run xs2 s1 = Ret r ->
  access_run (xs1 ++ xs2) s = Ret (os1 ++ r.1, r.2).
Proof.
  revert s os1. induction xs1 as [|x xs1 IH]; intros s os1 H1 H2; cbn [app access_run] in *.
  - injection H1 as <- <-. by destruct r.
  - apply M_bind_ret in H1 as (o & s' & He & H1). apply M_bind_ret in H1 as (os & s'' & Hr & [= <- <-]).
    step He. by step (IH _ _ Hr H2).
Qed.

Lemma ops_accesses ops ph t ms t' : do_ops ops t = Ret (ms, t') ->
  exists os, access_run (Other <$> ops) (MkMachine ph t) = Ret (os, MkMachine ph t') /\ mine os = [].
Proof.
  revert t ms. induction ops as [|o ops IH]; intros t ms Hr; cbn [do_ops fmap list_fmap access_run] in *.
  { injection Hr as <- <-. by exists []. }
  apply M_bind_ret in Hr as (ms1 & t1 & He & Hr). apply M_bind_ret in Hr as (ms2 & t2 & Hr & [= <- <-]).
  destruct (IH _ _ Hr) as (os & Hos & Hm). exists (op_output o ms1 :: os).
  assert (access_step (Other o) (MkMachine ph t) = Ret (op_output o ms1, MkMachine ph t1)) as Hs.
  { unfold access_step, on_queue. rewrite M_bind_get. cbn [queue owner ev_step]. by rewrite (M_bind_eq _ _ _ _ _ He). }
  step Hs. step Hos. split; [done|]. by destruct o.
Qed.

(** Where a [Get] that returns [r] leaves the thread, and what it hands over. *)
Definition after_get (keep : bool) (r : option Message) : phase :=
  match r with Some m => if keep then PStore m else Idle | None => Idle end.
Definition by_get (keep : bool) (r : option Message) : list output :=
  match r with Some m => if keep then [] else [Got m] | None => [] end.

Lemma look_access keep f now next t x r t1 : take_one f now next t = Ret ((x, r), t1) ->
  access_step (Go now) (MkMachine (GLook keep f) t) =
  (match r with
   | None => goto (GWait keep)
   | Some m =>
       if MQID_DISPOSE =? message_id m then _ ← on_queue (delete_data (pdata m)); goto (GLook keep false)
       else got keep m
   end) (MkMachine (GLook keep f) t1).
Proof.
  intros Hr. destruct (take_one_next _ _ _ kForever _ _ _ _ Hr) as [y Hy].
  unfold access_step, go. rewrite !M_bind_get. cbn [owner].
  assert (on_queue (take_one f now kForever) (MkMachine (GLook keep f) t) = Ret ((y, r), MkMachine (GLook keep f) t1)) as Ht.
  { unfold on_queue. cbn [queue]. by rewrite Hy. }
  by step Ht.
Qed.

Lemma check_accesses keep k f now next t nx r t' : check_posted k f now next t = Ret ((nx, r), t') ->
  exists xs os, access_run xs (MkMachine (GLook keep f) t) =
      Ret (os, MkMachine (match r with Some _ => after_get keep r | None => GWait keep end) t') /\
    mine os = by_get keep r.
Proof.
  revert f next t. induction k as [|k IH]; intros f next t Hr; cbn [check_posted] in Hr;
    apply M_bind_ret in Hr as ([x [m|]] & t1 & Ht & Hr); pose proof (look_access keep _ _ _ _ _ _ _ Ht) as Ha.
  2, 4: injection Hr as <- <- <-; exists [Go now], [Nothing]; split; [|done];
    cbn [access_run]; by rewrite (M_bind_eq _ _ _ _ _ Ha).
  all: destruct (MQID_DISPOSE =? message_id m) eqn:E.
  all: cbn [snd] in Ha; rewrite E in Ha.
  2, 4: injection Hr as <- <- <-; exists [Go now], [if keep then Nothing else Got m];
    cbn [access_run after_get by_get]; destruct keep; by rewrite (M_bind_eq _ _ _ _ _ Ha).
  all: apply M_bind_ret in Hr as ([] & t2 & Hd & Hr).
  { done. }
  destruct (IH _ _ _ Hr) as (xs & os & Hxs & Hm). exists (Go now :: xs), (Nothing :: os). split; [|done].
  cbn [access_run].
  assert (on_queue (delete_data (pdata m)) (MkMachine (GLook keep f) t1) = Ret (tt, MkMachine (GLook keep f) t2)) as Hd'.
  { unfold on_queue. cbn [queue]. by rewrite Hd. }
  rewrite (M_bind_eq _ _ _ _ _ Hd') in Ha. unfold goto in Ha. cbn [queue] in Ha. step Ha. by step Hxs.
Qed.

Lemma get_loop_accesses keep script w io start cur el t r t' : get_loop script w io start cur el t = Ret (r, t') ->
  exists xs os, access_run xs (MkMachine (GLook keep true) t) = Ret (os, MkMachine (after_get keep r) t') /\
    mine os = by_get keep r.
Proof.
  revert t cur el. induction script as [|tn script IH]; intros t cur el Hr; cbn [get_loop] in Hr;
    apply M_bind_ret in Hr as ([nx [m|]] & t1 & Hc & Hr); unfold check_posted_events in Hc; rewrite M_bind_get in Hc;
    apply (check_accesses keep) in Hc as (xs & os & Hxs & Hm).
  1, 3: injection Hr as <- <-; by exists xs, os.
  all: assert (forall xs' os', access_run xs' (MkMachine (GWait keep) t1) = Ret (os', MkMachine (after_get keep r) t') ->
      mine os' = by_get keep r ->
      exists xs os, access_run xs (MkMachine (GLook keep true) t) = Ret (os, MkMachine (after_get keep r) t') /\
        mine os = by_get keep r) as Hthen
    by (intros xs' os' Hxs' Hm'; exists (xs ++ xs'), (os ++ os'); rewrite (access_run_app _ _ _ _ _ _ Hxs Hxs');
        split; [done|]; unfold mine in *; by rewrite omap_app, Hm, Hm').
  all: apply M_bind_ret in Hr as (q & t1' & Hq & Hr); unfold IsQuitting in Hq; injection Hq as <- <-;
    destruct (negb _); [injection Hr as <- <-; by apply (Hthen [Leave] [Nothing])|].
  { done. }
  apply M_bind_ret in Hr as (ok & t2 & Hw & Hr). unfold Wait in Hw. rewrite M_bind_modify in Hw.
  apply M_bind_ret in Hw as (ms & t2' & Hops & [= <- <-]). set (cms := i32 _) in *.
  destruct (ops_accesses _ (GWait keep) _ _ _ Hops) as (os2 & Hos2 & Hm2).
  assert (access_run (Sleep cms io :: (Other <$> meanwhile tn)) (MkMachine (GWait keep) t1) =
    Ret (Nothing :: os2, MkMachine (GWait keep) t2')) as Hsleep.
  { cbn [access_run]. by rewrite (M_bind_eq _ _ (MkMachine (GWait keep) t1) Nothing
      (MkMachine (GWait keep) (set_waits (waits t1 ++ [(cms, io)]) t1)) eq_refl), (M_bind_eq _ _ _ _ _ Hos2). }
  assert (forall xs' os', access_run xs' (MkMachine (GWait keep) t2') = Ret (os', MkMachine (after_get keep r) t') ->
      mine os' = by_get keep r ->
      exists xs os, access_run xs (MkMachine (GLook keep true) t) = Ret (os, MkMachine (after_get keep r) t') /\
        mine os = by_get keep r) as Hthen2.
  { intros xs' os' Hxs' Hm'. eapply Hthen; [exact (access_run_app _ _ _ _ _ _ Hsleep Hxs')|].
    unfold mine in *. cbn [fst]. rewrite omap_app, Hm'. cbn. by rewrite Hm2. }
  destruct (woken tn); [|injection Hr as <- <-; by apply (Hthen2 [Leave] [Nothing])].
  cbn [negb] in Hr. apply M_bind_ret in Hr as (el' & t3 & Hel & Hr).
  assert (t3 = t2') as -> by (unfold lift in Hel; destruct (long _); try done; by injection Hel as _ <-).
  destruct (negb _ && _); [injection Hr as <- <-; by apply (Hthen2 [Leave] [Nothing])|].
  destruct (IH _ _ _ Hr) as (xs' & os' & Hxs' & Hm'). apply (Hthen2 (Again :: xs') (Nothing :: os')); [|done].
  cbn [access_run]. by rewrite (M_bind_eq _ _ (MkMachine (GWait keep) t2') Nothing (MkMachine (GLook keep true) t2') eq_refl),
    (M_bind_eq _ _ _ _ _ Hxs').
Qed.

(** A call of [Get], as accesses that start and end outside of it. *)
Lemma Get_accesses script now w io t r t' : Get script now w io t = Ret (r, t') ->
  exists xs os, access_run xs (MkMachine Idle t) = Ret (os, MkMachine Idle t') /\ mine os = Got <$> option_list r.
Proof.
  unfold Get. rewrite M_bind_get. destruct (fPeekKeep_ t) eqn:Hp.
  - rewrite M_bind_modify. intros [= <- <-]. exists [CallGet; Go now; Go now; Go now], [Nothing; Nothing; Nothing; Got (msgPeek_ t)].
    split; [|done]. cbn [access_run]. unfold access_step, go, on_queue, goto, got. run. cbn. by rewrite Hp.
  - intros (xs & os & Hxs & Hm)%(get_loop_accesses false).
    exists ([CallGet; Go now] ++ xs), ([Nothing; Nothing] ++ os).
    assert (access_run [CallGet; Go now] (MkMachine Idle t) = Ret ([Nothing; Nothing], MkMachine (GLook false true) t)) as H1.
    { cbn [access_run]. unfold access_step, go, goto. run. cbn. by rewrite Hp. }
    rewrite (access_run_app _ _ _ _ _ _ H1 Hxs). by destruct r.
Qed.

(** A call of [Peek]: a copy of the message is handed over. *)
Lemma Peek_accesses script now w t r t' : Peek script now w t = Ret (r, t') ->
  exists xs os, access_run xs (MkMachine Idle t) = Ret (os, MkMachine Idle t') /\ mine os = Seen <$> option_list r.
Proof.
  unfold Peek. rewrite M_bind_get. destruct (fPeekKeep_ t) eqn:Hp.
  - intros [= <- <-]. exists [CallPeek; Go now; Go now], [Nothing; Nothing; Seen (msgPeek_ t)].
    split; [|done]. cbn [access_run]. unfold access_step, go, goto. run. cbn. by rewrite Hp.
  - intros Hr. apply M_bind_ret in Hr as (r1 & t1 & Hg & Hr). unfold Get in Hg. rewrite M_bind_get, Hp in Hg.
    apply (get_loop_accesses true) in Hg as (xs & os & Hxs & Hm).
    assert (access_run [CallPeek; Go now; Go now] (MkMachine Idle t) =
      Ret ([Nothing; Nothing; Nothing], MkMachine (GLook true true) t)) as H1.
    { cbn [access_run]. unfold access_step, go, goto. run. cbn. rewrite Hp. cbn. rewrite ?Hp. done. }
    pose proof (access_run_app _ _ _ _ _ _ H1 Hxs) as H2. cbn [fst snd] in H2.
    destruct r1 as [m|]; [rewrite M_bind_modify in Hr|]; injection Hr as <- <-.
    + assert (access_run [Go now; Go now] (MkMachine (PStore m) t1) = Ret ([Nothing; Seen m], MkMachine Idle (set_peek true m t1))) as H3 by done.
      eexists _, _. split; [exact (access_run_app _ _ _ _ _ _ H2 H3)|]. unfold mine in *. cbn [fst]. rewrite !omap_app, Hm. done.
    + by eexists _, _.
Qed.
End get.

(** A message that is due 2^32 - 1 ms from now is not waited for: the time is
    converted to an int, which is [kForever]. *)
Lemma far_message_forever (now : Z) : i32 (cms_next kForever 0 (now + (2 ^ 32 - 1) - now)) = kForever.
Proof. unfold cms_next. cbn [Z.eqb]. replace (now + (2 ^ 32 - 1) - now) with 4294967295 by lia. done. Qed.

(** ** Message handlers that go away *)

(** The events that post a message for the handler [h]. *)
Definition names (h : loc) (e : event) : Prop :=
  match e with
  | EvOp (OPost _ h' _ _) | EvOp (OPostDelayed _ _ _ h' _ _) | EvOp (OPostAt _ _ _ h' _ _) => h' = Some h
  | _ => False
  end.
Definition posts_for (h : loc) (x : access) : Prop := match x with Other o => names h (EvOp o) | _ => False end.
(** The messages that the output of an event shows. *)
Definition shown (o : output) : list Message :=
  match o with Nothing => [] | Got m => [m] | Seen m => [m] | Removed ms => ms end.

Definition free_of (h : loc) (ms : list Message) : Prop := Forall (fun m => phandler m <> Some h) ms.

Lemma free_of_pending h a : free_of h (ag_pending a) <->
  free_of h (option_list (ag_peek a)) /\ free_of h (ag_ready a) /\ free_of h (ag_later a).*2.
Proof. unfold ag_pending, free_of. rewrite !Forall_app. naive_solver. Qed.

Lemma free_of_filter2 h (P : Z * Message -> Prop) `{forall x, Decision (P x)} (l : list (Z * Message)) :
  free_of h l.*2 -> free_of h (filter P l).*2.
Proof. unfold free_of. rewrite !Forall_fmap. apply Forall_filter. Qed.

Lemma ag_post_free h m a : phandler m <> Some h -> free_of h (ag_pending a) -> free_of h (ag_pending (ag_post m a)).
Proof.
  intros Hm Ha. unfold ag_post. destruct (ag_quit a) eqn:Eq; [done|]. apply free_of_pending in Ha as (? & ? & ?).
  apply free_of_pending. cbn. split_and!; [done| |done]. apply Forall_app. split; [done|by constructor].
Qed.
Lemma ag_post_at_free h t m a : phandler m <> Some h -> free_of h (ag_pending a) -> free_of h (ag_pending (ag_post_at t m a)).
Proof.
  intros Hm Ha. unfold ag_post_at. destruct (ag_quit a) eqn:Eq; [done|]. apply free_of_pending in Ha as (? & ? & ?).
  apply free_of_pending. cbn. split_and!; [done..|]. unfold later_insert. rewrite fmap_app. apply Forall_app. split.
  - by apply free_of_filter2.
  - constructor; [done|]. by apply free_of_filter2.
Qed.
Lemma ag_clear_free h' h id a : free_of h (ag_pending a) -> free_of h (ag_pending (ag_clear h' id a)).
Proof.
  intros (Hp & ? & ?)%free_of_pending. apply free_of_pending. cbn. split_and!.
  - destruct (ag_peek a) as [m|]; cbn in *; [|constructor]. destruct (Match m h' id); [constructor|done].
  - by apply Forall_filter.
  - by apply free_of_filter2.
Qed.
Lemma ag_trigger_free h now a : free_of h (ag_pending a) -> free_of h (ag_pending (ag_trigger now a)).
Proof.
  intros (? & ? & ?)%free_of_pending. apply free_of_pending. cbn. split_and!; [done| |by apply free_of_filter2].
  apply Forall_app. split; [done|]. by apply free_of_filter2.
Qed.

Lemma ag_step_free h p e a : ~ names h e -> free_of h (ag_pending a) ->
  free_of h (ag_pending (ag_step p e a).1) /\ free_of h (shown (ag_step p e a).2).
Proof.
  intros He Ha. destruct e as [o|keep|f keep now|cms io]; cbn [ag_step].
  - destruct o as [from h' id b|t from d h' id b|t from d h' id b|from|h' id keep| |]; cbn in He |- *.
    1-4, 6-7: (split; [|constructor]); solve [done|by apply ag_post_free|by apply ag_post_at_free].
    split; [by apply ag_clear_free|]. destruct keep; [by apply Forall_filter|constructor].
  - destruct (ag_peek a) as [m|] eqn:Ep; [|by split; [|constructor]].
    pose proof Ha as (Hp & ? & ?)%free_of_pending. rewrite Ep in Hp. destruct keep; [by split|].
    split; [|done]. apply free_of_pending. by split_and!; [constructor| |].
  - destruct (ag_peek a) as [m|] eqn:Ep; [by split; [|constructor]|].
    assert (free_of h (ag_pending (if f then ag_trigger now a else a))) as Ha1 by (destruct f; [by apply ag_trigger_free|done]).
    set (a1 := if f then _ else _) in *. pose proof Ha1 as (Hp & Hr & Hl)%free_of_pending.
    destruct (ag_ready a1) as [|m rest] eqn:Er; [by split; [|constructor]|]. apply Forall_cons in Hr as [Hm Hr].
    assert (free_of h (ag_pending (MkAgenda (ag_peek a1) rest (ag_later a1) (ag_quit a1)))) as Ha2 by by apply free_of_pending.
    destruct (_ =? _); [by split; [|constructor]|]. destruct keep; cbn [fst snd shown].
    + split; [|by repeat constructor]. apply free_of_pending. split_and!; by repeat constructor.
    + split; [done|by repeat constructor].
  - by split; [|constructor].
Qed.

Lemma ag_run_free h ps es a : Forall (fun e => ~ names h e) es -> free_of h (ag_pending a) ->
  Forall (fun o => free_of h (shown o)) (ag_run ps es a).2.
Proof.
  revert es a. induction ps as [|p ps IH]; intros [|e es] a He Ha; cbn [ag_run]; try by constructor.
  apply Forall_cons in He as [He Hes]. destruct (ag_step_free h p e a He Ha) as [Ha1 Ho].
  destruct (ag_step p e a) as [a1 o]. specialize (IH es a1 Hes Ha1). destruct (ag_run ps es a1). by constructor.
Qed.

Lemma same_output_free h o o' : same_output o o' -> free_of h (shown o') -> free_of h (shown o).
Proof. unfold free_of. destruct o, o'; cbn; intros Hs; try (by simplify_eq). by rewrite Hs. Qed.

Section cleanup.
Context `{StdHeapLaws}.

Lemma Match_handler m h : Match m (Some h) MQID_ANY = bool_decide (phandler m = Some h).
Proof.
  unfold Match. rewrite Z.eqb_refl, andb_true_r, bool_decide_false by done. cbn.
  apply bool_decide_ext. naive_solver.
Qed.

Lemma filter_idem {A} (P : A -> Prop) `{forall x, Decision (P x)} (l : list A) : filter P (filter P l) = filter P l.
Proof. by apply filter_absorb. Qed.

Lemma ag_clear_idem h id a : ag_clear h id (ag_clear h id a) = ag_clear h id a.
Proof.
  unfold ag_clear. cbn. rewrite !filter_idem. f_equal. destruct (ag_peek a) as [m|]; [|done]. cbn.
  destruct (Match m h id) eqn:E; [done|]. cbn. by rewrite E.
Qed.

Lemma ag_clear_gone h a : free_of h (ag_pending (ag_clear (Some h) MQID_ANY a)).
Proof.
  apply free_of_pending. cbn. unfold free_of. split_and!.
  - destruct (ag_peek a) as [m|]; cbn; [|constructor]. rewrite Match_handler.
    case_bool_decide; repeat constructor; done.
  - apply Forall_forall. intros m Hm. apply list_elem_of_filter in Hm as [Hm _].
    rewrite Match_handler in Hm. by case_bool_decide.
  - apply Forall_fmap, Forall_forall. intros m Hm. apply list_elem_of_filter in Hm as [Hm _].
    rewrite Match_handler in Hm. by case_bool_decide.
Qed.

(** The queues [qs] exist and are in order. *)
Definition in_order (qs : list loc) (tm : ThreadManager) : Prop :=
  forall l, l ∈ qs -> exists t a out n, threads tm !! l = Some t /\ refines t a out n.

Lemma clear_queue q h tm t a out n : threads tm !! q = Some t -> refines t a out n ->
  exists r t', on_thread q (Clear (Some h) MQID_ANY None) tm =
      Ret (r, MkManager (<[q := t']> (threads tm)) (message_queues_ tm)) /\
    refines t' (ag_clear (Some h) MQID_ANY a) out n.
Proof.
  intros Hq Hr. destruct (clear_ok t a (Some h) MQID_ANY false out n Hr) as (r & t' & He & Hms & Hr').
  cbn in He, Hms. symmetry in Hms. apply Permutation_nil in Hms. rewrite Hms in Hr'.
  exists r, t'. split; [|done]. unfold on_thread. by rewrite Hq, He.
Qed.

Lemma clear_queues_ok h qs tm : in_order qs tm ->
  exists tm', clear_queues qs h tm = Ret (tt, tm') /\ message_queues_ tm' = message_queues_ tm /\
    forall l t a out n, threads tm !! l = Some t -> refines t a out n ->
      exists t', threads tm' !! l = Some t' /\
        refines t' (if decide (l ∈ qs) then ag_clear (Some h) MQID_ANY a else a) out n.
Proof.
  revert tm. induction qs as [|q qs IH]; intros tm Hok.
  { exists tm. split_and!; [done..|]. intros l t a out n Hl Hr. exists t. rewrite decide_False by set_solver. done. }
  destruct (Hok q) as (t & a & out & n & Hq & Hr); [by constructor|].
  destruct (clear_queue q h tm t a out n Hq Hr) as (r & t1 & He & Hr1).
  set (tm1 := MkManager (<[q := t1]> (threads tm)) (message_queues_ tm)) in *.
  destruct (IH tm1) as (tm' & He' & Hmq & Hall).
  { intros l Hl. destruct (decide (l = q)) as [->|Hne].
    - exists t1, (ag_clear (Some h) MQID_ANY a), out, n. split; [apply lookup_insert_eq|done].
    - destruct (Hok l) as (t' & a' & out' & n' & Hl' & Hr'); [by constructor|]. exists t', a', out', n'.
      split; [|done]. cbn. by rewrite lookup_insert_ne. }
  exists tm'. cbn [clear_queues]. step He. split_and!; [done..|].
  intros l t' a' out' n' Hl Hr'. destruct (decide (l = q)) as [->|Hne].
  - rewrite Hq in Hl. injection Hl as <-. rewrite decide_True by by constructor.
    destruct (clear_queue q h tm t a' out' n' Hq Hr') as (r2 & t2 & He2 & Hr2).
    rewrite He in He2. injection He2 as _ Ht. apply (f_equal (lookup q)) in Ht. rewrite !lookup_insert_eq in Ht.
    injection Ht as <-.
    destruct (Hall q t1 _ _ _ (lookup_insert_eq _ _ _) Hr2) as (t3 & Hl3 & Hr3). exists t3. split; [done|].
    rewrite ag_clear_idem in Hr3. by destruct (decide (q ∈ qs)).
  - destruct (Hall l t' a' out' n') as (t3 & Hl3 & Hr3); [cbn; by rewrite lookup_insert_ne|done|]. exists t3. split; [done|].
    destruct (decide (l ∈ qs)); [rewrite decide_True by by constructor|rewrite decide_False by set_solver]; done.
Qed.

Lemma steps_for h xs s : Forall (fun x => ~ posts_for h x) xs -> Forall (fun e => ~ names h e) (atomic_steps xs s).
Proof.
  intros Hx. revert s. induction Hx as [|x xs Hx _ IH]; intros s; cbn [atomic_steps]; [constructor|].
  apply Forall_app. split.
  - destruct x, s as [[] ?]; cbn; repeat case_match; repeat constructor; try done; by intros [].
  - destruct (access_step x s) as [[? ?]| | |]; by constructor || apply IH.
Qed.

Lemma shown_split os : concat (shown <$> os) ≡ₚ concat (shown <$> mine os) ++ concat (theirs os).
Proof. induction os as [|[|m|m|ms] os IH]; cbn; rewrite ?IH; try done; solve_Permutation. Qed.

Lemma shown_free h os : free_of h (concat (shown <$> os)) <-> Forall (fun o => free_of h (shown o)) os.
Proof.
  unfold free_of. induction os as [|o os IH]; cbn; [split; constructor|]. by rewrite Forall_app, Forall_cons, IH.
Qed.

(** C22: A message handler that was destroyed gets no more messages.  After
    [~MessageHandlerAutoCleanup] of [h], every registered queue holds exactly
    the messages it held for other handlers, in their order.  And when the
    thread of the queue [l] was not between two of its unlocked accesses to
    [msgPeek_] at that time ([carried] is [None]; a message for [h] that it
    carries would be stored after the destruction, [cleared_while_stored]), no
    message for [h] comes out of the queue afterwards, whatever the threads do,
    unless it is posted after the destruction; other [Clear]s are again [calm],
    the accesses are those of [queue_refines_agenda], and fewer than 2^32. *)
Theorem cleanup_safe h tm : in_order (message_queues_ tm) tm ->
  exists tm', delete_MessageHandlerAutoCleanup h tm = Ret (tt, tm') /\
    forall l t a out n, l ∈ message_queues_ tm -> threads tm !! l = Some t -> refines t a out n ->
    exists t', threads tm' !! l = Some t' /\ refines t' (ag_clear (Some h) MQID_ANY a) out n /\
      forall ph xs, carried (MkMachine ph t) = None -> machine_ok (MkMachine ph t) ->
      n + Z.of_nat (length xs) < 2 ^ 32 -> Forall access_times xs -> calm xs (MkMachine ph t') = true ->
      Forall (fun x => ~ posts_for h x) xs ->
      exists os s', access_run xs (MkMachine ph t') = Ret (os, s') /\
        Forall (fun o => Forall (fun m => phandler m <> Some h) (shown o)) os.
Proof.
  intros Hok. destruct (clear_queues_ok h _ tm Hok) as (tm' & He & _ & Hall). exists tm'. split.
  { unfold delete_MessageHandlerAutoCleanup, TM_Clear. by rewrite M_bind_get. }
  intros l t a out n Hl Ht Hr. destruct (Hall l t a out n Ht Hr) as (t' & Hl' & Hr'). rewrite decide_True in Hr' by done.
  exists t'. split_and!; [done..|]. intros ph xs Hph Hmo Hn Htm Hc Hnm.
  destruct (outside_ok ph t t' Hph Hmo) as (Hok' & Hset & Hpend).
  { intros Hf. pose proof (rf_peek _ _ _ _ Hr) as Hp. rewrite Hf in Hp.
    eapply no_peek; [exact Hr'|]. cbn. by rewrite Hp. }
  destruct (access_run_ok xs (MkMachine ph t') (ag_clear (Some h) MQID_ANY a) out n) as (os & s' & ps & os' & He2 & _ & _ & Hs & Hm & Hth & _);
    [done|by rewrite Hset, Hpend|done..|]. exists os, s'. split; [done|].
  apply (shown_free h os). unfold free_of. rewrite shown_split, <- Hth.
  assert (free_of h (concat (shown <$> os'))) as Hf.
  { apply shown_free. pose proof (ag_run_free h ps _ _ (steps_for h xs (MkMachine ph t') Hnm) (ag_clear_gone h a)) as Hf.
    clear -Hs Hf. revert Hf. induction Hs as [|o o' os os' Ho _ IH]; intros Hf; [constructor|].
    apply Forall_cons in Hf as [? ?]. constructor; [by eapply same_output_free|]. by apply IH. }
  unfold free_of in Hf. rewrite shown_split, Forall_app in Hf. destruct Hf as [Hf1 Hf2].
  apply Forall_app. split; [|done]. rewrite Hpend in Hm. cbn in Hm. rewrite Hm, fmap_app, concat_app, Forall_app in Hf1. apply Hf1.
Qed.
End cleanup.

(** ** Witnesses *)

Definition here : Location := MkLocation "f" "g.cc" 7.
Definition a_message (h : loc) (id : Z) : Message := MkMessage here (Some h) id None.

(** A delayed message overtaken by one that was posted, a DISPOSE message, a
    [Peek] with a [Clear] of another handler inside, and a [Clear] afterwards. *)
Definition a_run : list access :=
  [Other (OPostDelayed 5 here 20 (Some 3%positive) 1 true); Other (OPostAt 6 here 25 (Some 4%positive) 2 false);
   Other (OPost here (Some 3%positive) 7 true); Other (ODispose here);
   CallGet; Go 10; Go 10; CallPeek; Go 30; Go 30; Go 30; Other (OClear (Some 5%positive) MQID_ANY false);
   Go 30; Go 30; Go 30; CallGet; Go 31; Go 31; Other (OPost here (Some 6%positive) 9 false); Go 31;
   Other (OClear (Some 4%positive) MQID_ANY true); Other OQuit; Other (OPost here None 1 true)].

Example a_run_outputs :
  (fun r => match r with Ret (os, s) => Some (concat (map shown os), messages_ (queue s), dom (data (queue s))) | _ => None end)
    (access_run a_run (MkMachine Idle (Thread_ctor ∅ ∅))) =
  Some ([MkMessage here (Some 3%positive) 7 (Some 2%positive); MkMessage here (Some 3%positive) 1 (Some 1%positive);
         MkMessage here (Some 3%positive) 1 (Some 1%positive); MkMessage here (Some 4%positive) 2 None],
        [MkMessage here (Some 6%positive) 9 None], {[1%positive; 2%positive]}).
Proof. vm_compute. reflexivity. Qed.


(** One message due at 1000, one at 1005. *)
Definition two_delayed : Thread :=
  set_delayed [MkDelayed 900 1000 0 (a_message 3 1); MkDelayed 905 1005 1 (a_message 3 2)] 2 (Thread_ctor ∅ ∅).
Definition two_agenda : Agenda := MkAgenda None [] [(1000, a_message 3 1); (1005, a_message 3 2)] false.

Lemma two_refines : refines two_delayed two_agenda [] 2.
Proof.
  split; try done. split; cbn.
  - intros [|[|i]] p x Hi Hx Hp; [lia| |]; cbn in Hx; [injection Hx as <-|done]. cbn in Hp. by injection Hp as <-.
  - exists [MkDelayed 900 1000 0 (a_message 3 1); MkDelayed 905 1005 1 (a_message 3 2)].
    split_and!; [|done|done]. repeat constructor.
  - repeat constructor; cbn; lia.
  - repeat constructor; cbn; lia.
Qed.


(** The witness runs the destruction of the handler 3 with the thread of the
    queue idle, and then everything that [cleanup_safe] allows. *)
Lemma cleanup_safe_witness :
  let tm := MkManager {[9%positive := two_delayed]} [9%positive] in
  in_order (message_queues_ tm) tm /\
  exists tm', delete_MessageHandlerAutoCleanup 3 tm = Ret (tt, tm') /\
    forall l t a out n, l ∈ message_queues_ tm -> threads tm !! l = Some t -> refines t a out n ->
    exists t', threads tm' !! l = Some t' /\ refines t' (ag_clear (Some 3%positive) MQID_ANY a) out n /\
      forall ph xs, carried (MkMachine ph t) = None -> machine_ok (MkMachine ph t) ->
      n + Z.of_nat (length xs) < 2 ^ 32 -> Forall access_times xs -> calm xs (MkMachine ph t') = true ->
      Forall (fun x => ~ posts_for 3 x) xs ->
      exists os s', access_run xs (MkMachine ph t') = Ret (os, s') /\
        Forall (fun o => Forall (fun m => phandler m <> Some 3%positive) (shown o)) os.
Proof.
  intros tm. assert (in_order (message_queues_ tm) tm) as Ho.
  { intros l Hl. apply list_elem_of_singleton in Hl as ->. exists two_delayed, two_agenda, [], 2.
    split; [done|exact two_refines]. }
  split; [exact Ho|]. exact (cleanup_safe 3 tm Ho).
Defined.
