(* ===== verification/Buffer.v ===== *)
(** * [rtc_base/buffer.h]: a growable byte buffer

    [BufferT<uint8_t, ZeroOnFree>], with the block it allocates as the list of
    its cells: [None] is a byte that was never written.  [freed] are the blocks
    the object has given back, in order, with what was in them at that moment;
    their number says whether a pointer into the buffer is still good ([src]).

    [new T[n]] ends the process (std::bad_array_new_length, std::bad_alloc) when
    [n] bytes cannot be an array, and succeeds otherwise.  Copying no byte is
    taken to be defined even from or to a null pointer. *)

From S2P Require Import Prelude CLib.
#[local] Open Scope Z_scope.
#[local] Open Scope xrtc_scope.

Notation cell := (option byte).

Record BufferT := MkBuffer {
  size_ : Z;
  capacity_ : Z;
  data_ : option (list cell);
  freed : list (list cell);
}.

(** Where [AppendData] and [SetData] copy from: memory of the caller, or the
    block that the buffer had when [n] blocks were freed. *)
Inductive src := Bytes (cs : list cell) | Own (n : nat).

Definition set_size (n : Z) (b : BufferT) : BufferT := MkBuffer n (capacity_ b) (data_ b) (freed b).
Definition set_data (d : option (list cell)) (b : BufferT) : BufferT := MkBuffer (size_ b) (capacity_ b) d (freed b).

(** [new T[n]]. *)
Definition new_array (n : Z) : res (list cell) :=
  if n <? 2 ^ 63 then Ret (repeat None (Z.to_nat n)) else Abort.

(** Stores [cs] at index [i] of the block, and reads [n] cells of [cs]. *)
Definition store (d : option (list cell)) (i : Z) (cs : list cell) : res (option (list cell)) :=
  match cs, d with
  | [], _ => Ret d
  | _, None => Ub NullDeref
  | _, Some l =>
      if (0 <=? i) && (i + Z.of_nat (length cs) <=? Z.of_nat (length l))
      then Ret (Some (splice l (Z.to_nat i) cs)) else Ub OutOfBounds
  end.
Definition load (cs : list cell) (n : Z) : res (list cell) :=
  if n <=? Z.of_nat (length cs) then Ret (take (Z.to_nat n) cs) else Ub OutOfBounds.

Definition read_src (s : src) (b : BufferT) : res (list cell) :=
  match s with
  | Bytes cs => Ret cs
  | Own n => if decide (n = length (freed b)) then Ret (default [] (data_ b)) else Ub UseAfterFree
  end.

Section buffer.
Context (ZeroOnFree : bool).

Definition ExplicitZeroMemory (i len : Z) : M BufferT unit :=
  b ← get;
  d ← lift (store (data_ b) i (repeat (Some x00) (Z.to_nat len)));
  put (set_data d b).

Definition MaybeZeroCompleteBuffer : M BufferT unit :=
  b ← get;
  if ZeroOnFree && (0 <? capacity_ b) then ExplicitZeroMemory 0 (capacity_ b) else mret tt.

Definition ZeroTrailingData (count : Z) : M BufferT unit :=
  b ← get; ExplicitZeroMemory (size_ b) count.

(** The unique_ptr gives its block back, if it has one. *)
Definition reset (d : option (list cell)) (capacity : Z) : M BufferT unit :=
  modify (fun b => MkBuffer (size_ b) capacity d (freed b ++ option_list (data_ b))).

Definition BufferT_empty : BufferT := MkBuffer 0 0 None [].

Definition BufferT_capacity (size capacity : Z) : res BufferT :=
  let c := Z.max size capacity in
  d ← (if 0 <? c then l ← new_array c; Ret (Some l) else Ret None);
  Ret (MkBuffer size c d []).
Definition BufferT_size (size : Z) : res BufferT := BufferT_capacity size size.
Definition BufferT_data_capacity (data : list cell) (size capacity : Z) : res BufferT :=
  b ← BufferT_capacity size capacity;
  cs ← load data size;
  d ← store (data_ b) 0 cs;
  Ret (set_data d b).
Definition BufferT_data (data : list cell) (size : Z) : res BufferT := BufferT_data_capacity data size size.

(** [BufferT(BufferT&& buf)]: the new object, and [buf] after [OnMovedFrom]. *)
Definition BufferT_move (buf : BufferT) : BufferT * BufferT :=
  (MkBuffer (size_ buf) (capacity_ buf) (data_ buf) [], MkBuffer 0 0 None (freed buf)).

(** The destructor: all the blocks that the object gave back in its life. *)
Definition delete_BufferT : M BufferT (list (list cell)) :=
  _ ← MaybeZeroCompleteBuffer;
  _ ← reset None 0;
  b ← get; mret (freed b).

Definition EnsureCapacityWithHeadroom (capacity : Z) (extra_headroom : bool) : M BufferT unit :=
  b ← get;
  if capacity <=? capacity_ b then mret tt
  else
    let new_capacity := if extra_headroom then Z.max capacity (u64 (capacity_ b + capacity_ b / 2)) else capacity in
    new_data ← lift (new_array new_capacity);
    new_data ← (match data_ b with
                | None => mret (Some new_data)
                | Some d => cs ← lift (load d (size_ b)); lift (store (Some new_data) 0 cs)
                end);
    _ ← MaybeZeroCompleteBuffer;
    reset new_data new_capacity.

Definition AppendData (s : src) (size : Z) : M BufferT unit :=
  b ← get;
  let new_size := u64 (size_ b + size) in
  _ ← EnsureCapacityWithHeadroom new_size true;
  b ← get;
  cs ← lift (if size =? 0 then Ret [] else cs ← read_src s b; load cs size);
  d ← lift (store (data_ b) (size_ b) cs);
  put (set_size new_size (set_data d b)).

Definition SetData (s : src) (size : Z) : M BufferT unit :=
  b ← get;
  let old_size := size_ b in
  _ ← modify (set_size 0);
  _ ← AppendData s size;
  b ← get;
  if ZeroOnFree && (size_ b <? old_size) then ZeroTrailingData (old_size - size_ b) else mret tt.

Definition SetSize (size : Z) : M BufferT unit :=
  b ← get;
  let old_size := size_ b in
  _ ← EnsureCapacityWithHeadroom size true;
  _ ← modify (set_size size);
  if ZeroOnFree && (size <? old_size) then ZeroTrailingData (old_size - size) else mret tt.

Definition EnsureCapacity (capacity : Z) : M BufferT unit := EnsureCapacityWithHeadroom capacity false.

(** [AppendData(max_elements, setter)]: the setter writes [wrote] from the start
    of its view and says how many of them count. *)
Definition AppendData_setter (max_elements : Z) (wrote : list cell) (written_elements : Z) : M BufferT Z :=
  b ← get;
  let old_size := size_ b in
  _ ← SetSize (u64 (old_size + max_elements));
  b ← get;
  d ← lift (store (data_ b) old_size wrote);
  if max_elements <? written_elements then lift Abort
  else _ ← put (set_size (u64 (old_size + written_elements)) (set_data d b)); mret written_elements.

Definition SetData_setter (max_elements : Z) (wrote : list cell) (written_elements : Z) : M BufferT Z :=
  b ← get;
  let old_size := size_ b in
  _ ← modify (set_size 0);
  written ← AppendData_setter max_elements wrote written_elements;
  b ← get;
  _ ← (if ZeroOnFree && (size_ b <? old_size) then ZeroTrailingData (old_size - size_ b) else mret tt);
  mret written.

Definition Clear : M BufferT unit :=
  _ ← MaybeZeroCompleteBuffer; modify (set_size 0).

(** [operator=(BufferT&& buf)], [buf] another object: its block comes here. *)
Definition move_assign (buf : BufferT) : M BufferT BufferT :=
  _ ← MaybeZeroCompleteBuffer;
  _ ← reset (data_ buf) (capacity_ buf);
  _ ← modify (set_size (size_ buf));
  mret (MkBuffer 0 0 None (freed buf)).

(** [b[index]] and [b[index] = v]. *)
Definition at_index (index : Z) : M BufferT cell :=
  b ← get;
  match data_ b with
  | None => ub_ NullDeref
  | Some l => match l !! Z.to_nat index with Some c => mret c | None => ub_ OutOfBounds end
  end.
Definition set_index (index : Z) (v : byte) : M BufferT unit :=
  b ← get; d ← lift (store (data_ b) index [Some v]); put (set_data d b).

(** The bytes of the buffer: the first [size_] of its block. *)
Definition contents (b : BufferT) : list cell := take (Z.to_nat (size_ b)) (default [] (data_ b)).

(** [operator==] compares with memcmp; a byte that was never written has no
    value to compare. *)
Fixpoint cells_eq (a b : list cell) : res bool :=
  match a, b with
  | Some x :: a, Some y :: b => if decide (x = y) then cells_eq a b else Ret false
  | [], [] => Ret true
  | _, _ => Ub Uninitialised
  end.
Definition buffer_eq (a b : BufferT) : res bool :=
  if size_ a =? size_ b then cells_eq (contents a) (contents b) else Ret false.
End buffer.

(** ** The invariant *)

Record buf_ok (b : BufferT) : Prop := {
  bo_size : 0 <= size_ b <= capacity_ b;
  bo_data : match data_ b with None => capacity_ b = 0 | Some l => Z.of_nat (length l) = capacity_ b end;
}.

Definition zeroed (l : list cell) : Prop := Forall (eq (Some x00)) l.

Lemma zeroed_repeat n : zeroed (repeat (Some x00) n).
Proof. induction n; by constructor. Qed.

(** The sizes of the blocks that were given back: what growing has copied at
    most. *)
Definition freed_size (b : BufferT) : Z := foldr (fun l n => Z.of_nat (length l) + n) 0 (freed b).

Lemma splice_nil {A} (l : list A) i : (i <= length l)%nat -> splice l i [] = l.
Proof. intros. unfold splice. cbn. rewrite Nat.add_0_r. apply take_drop. Qed.

Lemma store_cells l i cs : 0 <= i -> i + Z.of_nat (length cs) <= Z.of_nat (length l) ->
  store (Some l) i cs = Ret (Some (splice l (Z.to_nat i) cs)).
Proof.
  intros Hi Hl. destruct cs as [|c cs].
  - cbn. rewrite splice_nil; [done|]. cbn in Hl. lia.
  - unfold store. rewrite (proj2 (Z.leb_le _ _)), (proj2 (Z.leb_le _ _)) by lia. done.
Qed.

Lemma load_cells cs n : n <= Z.of_nat (length cs) -> load cs n = Ret (take (Z.to_nat n) cs).
Proof. intros. unfold load. by rewrite (proj2 (Z.leb_le _ _)). Qed.

Lemma length_contents b : buf_ok b -> Z.of_nat (length (contents b)) = size_ b.
Proof.
  intros [Hs Hd]. unfold contents. rewrite length_take. destruct (data_ b) as [l|]; cbn; lia.
Qed.

Section proofs.
Context (z : bool).

Lemma zero_ok b i n : buf_ok b -> 0 <= i -> 0 <= n -> i + n <= capacity_ b ->
  exists d, ExplicitZeroMemory i n b = Ret (tt, set_data d b) /\ buf_ok (set_data d b) /\
    default [] d = splice (default [] (data_ b)) (Z.to_nat i) (repeat (Some x00) (Z.to_nat n)).
Proof.
  intros [Hs Hd] Hi Hn Hc. unfold ExplicitZeroMemory. run. destruct (data_ b) as [l|] eqn:Ed.
  - rewrite store_cells by (rewrite ?repeat_length; lia). eexists. split; [done|]. split; [|done].
    split; cbn; [done|]. rewrite length_splice; [done|]. rewrite repeat_length. lia.
  - assert (n = 0) as -> by lia. assert (i = 0) as -> by lia. exists None. split; [by destruct b; cbn in *; subst|].
    split; [split; cbn; lia|done].
Qed.

Lemma maybe_zero_ok b : buf_ok b ->
  exists d, MaybeZeroCompleteBuffer z b = Ret (tt, set_data d b) /\ buf_ok (set_data d b) /\
    length (default [] d) = length (default [] (data_ b)) /\ (d = None <-> data_ b = None) /\
    (if z then zeroed (default [] d) else d = data_ b).
Proof.
  intros Hb. unfold MaybeZeroCompleteBuffer. rewrite M_bind_get.
  destruct (z && (0 <? capacity_ b)) eqn:E.
  - apply andb_true_iff in E as [-> E]. pose proof Hb as [Hs Hd].
    destruct (zero_ok b 0 (capacity_ b) Hb) as (d & He & Hok & Hdd); [lia..|].
    destruct (data_ b) as [l|] eqn:Edb; [|lia]. cbn in Hdd.
    assert (default [] d = repeat (Some x00) (Z.to_nat (capacity_ b))) as Hz.
    { rewrite Hdd. unfold splice. cbn. rewrite repeat_length, drop_ge by lia. apply app_nil_r. }
    exists d. split_and!; [done..| | |].
    + rewrite Hz, repeat_length. cbn. lia.
    + split; [|done]. intros ->. cbn in Hz. apply (f_equal length) in Hz. rewrite repeat_length in Hz. cbn in Hz. lia.
    + rewrite Hz. apply zeroed_repeat.
  - exists (data_ b). replace (set_data (data_ b) b) with b by by destruct b.
    split_and!; [done..|]. destruct z; [|done]. destruct Hb as [Hs Hd]. cbn in E.
    destruct (data_ b) as [[|]|]; cbn in *; try lia; by constructor.
Qed.

(** What an operation does besides the contents: the blocks it gives back are
    zeroed (with ZeroOnFree), and with headroom their sizes stay linear. *)
Definition frees (linear : bool) (b b' : BufferT) : Prop :=
  (exists fs, freed b' = freed b ++ fs /\ (z = true -> Forall zeroed fs)) /\
  (linear = true -> freed_size b <= 3 * capacity_ b -> freed_size b' <= 3 * capacity_ b').

Lemma frees_same lin b b' : freed b' = freed b -> capacity_ b' = capacity_ b -> frees lin b b'.
Proof.
  intros Hf Hc. split; [exists []; rewrite app_nil_r; split; [done|constructor]|].
  intros _ H. unfold freed_size in *. by rewrite Hf, Hc.
Qed.
Lemma frees_trans lin b1 b2 b3 : frees lin b1 b2 -> frees lin b2 b3 -> frees lin b1 b3.
Proof.
  intros [(f1 & H1 & Hz1) Hl1] [(f2 & H2 & Hz2) Hl2]. split; [|auto].
  exists (f1 ++ f2). split; [by rewrite H2, H1, app_assoc|]. intros Hz. apply Forall_app. auto.
Qed.

Lemma freed_size_snoc b l c d n : freed_size (MkBuffer n c d (freed b ++ [l])) = freed_size b + Z.of_nat (length l).
Proof.
  unfold freed_size. cbn. induction (freed b) as [|x xs IH]; cbn; [lia|]. rewrite IH. lia.
Qed.

(** The capacity after a request for [n]. *)
Definition grown (extra : bool) (cap n : Z) : Z :=
  if n <=? cap then cap else if extra then Z.max n (cap + cap / 2) else n.

Lemma grown_bounds extra cap n : 0 <= cap -> n <= grown extra cap n /\ cap <= grown extra cap n.
Proof.
  intros Hc. unfold grown. pose proof (Z.div_pos cap 2 Hc). destruct (Z.leb_spec n cap); [lia|]. destruct extra; lia.
Qed.

Lemma ensure_ok b n extra : buf_ok b -> n < 2 ^ 62 ->
  exists b', EnsureCapacityWithHeadroom z n extra b = Ret (tt, b') /\ buf_ok b' /\
    size_ b' = size_ b /\ contents b' = contents b /\ capacity_ b' = grown extra (capacity_ b) n /\ frees extra b b' /\
    (n <= capacity_ b -> b' = b) /\
    (capacity_ b < n -> data_ b <> None -> length (freed b') = S (length (freed b))).
Proof.
  intros Hb Hn. unfold EnsureCapacityWithHeadroom, grown. rewrite M_bind_get. pose proof Hb as [Hs Hd].
  destruct (Z.leb_spec n (capacity_ b)) as [Hle|Hgt].
  { exists b. split_and!; [done..|by apply frees_same|done|lia]. }
  assert (0 <= capacity_ b / 2 <= capacity_ b) as Hdiv.
  { split; [apply Z.div_pos; lia|]. apply Z.div_le_upper_bound; lia. }
  rewrite u64_small by lia. set (cap := if extra then Z.max n _ else n).
  assert (n <= cap < 2 ^ 63) as Hcap by (unfold cap; destruct extra; lia).
  rewrite (M_bind_lift (repeat None (Z.to_nat cap))).
  2: { unfold new_array. by rewrite (proj2 (Z.ltb_lt _ _)) by lia. }
  destruct (maybe_zero_ok b Hb) as (d & Hz & Hok & Hlen & Hnone & Hzero).
  set (old := take (Z.to_nat (size_ b)) (default [] (data_ b))).
  assert (Z.of_nat (length old) = size_ b) as Hold by by apply length_contents.
  set (blk := splice (repeat None (Z.to_nat cap)) 0 old).
  assert (Z.of_nat (length blk) = cap) as Hblk.
  { unfold blk. rewrite length_splice; rewrite repeat_length; lia. }
  assert ((match data_ b with
           | None => mret (Some (repeat None (Z.to_nat cap)))
           | Some d => cs ← lift (load d (size_ b)); lift (store (Some (repeat None (Z.to_nat cap))) 0 cs)
           end : M BufferT (option (list cell))) b = Ret (Some blk, b)) as Hc.
  { destruct (data_ b) as [l|] eqn:Ed.
    - rewrite (M_bind_lift old) by (apply load_cells; lia). unfold lift. rewrite store_cells by (rewrite ?repeat_length; lia). done.
    - unfold blk, old. cbn. by rewrite take_nil, splice_nil by lia. }
  step Hc. step Hz. eexists. split; [done|].
  assert (contents (MkBuffer (size_ b) cap (Some blk) (freed b ++ option_list d)) = contents b) as Hcont.
  { unfold contents. cbn. fold old. unfold blk. pose proof (take_splice_end (repeat None (Z.to_nat cap)) 0 old) as Ht.
    rewrite repeat_length in Ht. cbn in Ht. replace (Z.to_nat (size_ b)) with (length old) by lia. apply Ht. lia. }
  split_and!; [split; cbn; lia|done|done|done| |lia|].
  2: { intros _ Hdn. cbn. destruct d as [d|]; [rewrite length_app; cbn; lia|]. destruct Hdn. by apply Hnone. }
  destruct d as [d|]; cbn [option_list].
  - assert (data_ b <> None) as Hdn by naive_solver. destruct (data_ b) as [l|]; [|done]. cbn in Hlen. split.
    + exists [d]. split; [done|]. intros Hz1. destruct z; [|done]. by constructor.
    + intros -> Hf. change (freed_size (MkBuffer (size_ b) cap (Some blk) (freed b ++ [d])) <= 3 * cap).
      rewrite freed_size_snoc. unfold cap. Z.to_euclidean_division_equations; lia.
  - split.
    + exists []. split; [done|constructor].
    + intros -> Hf. unfold freed_size in *. cbn. rewrite app_nil_r. lia.
Qed.

(** Storing [cs] after the contents and counting [n] cells more. *)
Lemma extend_ok b cs n : buf_ok b -> 0 <= n -> size_ b + n <= capacity_ b ->
  size_ b + Z.of_nat (length cs) <= capacity_ b ->
  exists d, store (data_ b) (size_ b) cs = Ret d /\ buf_ok (set_size (size_ b + n) (set_data d b)) /\
    (n <= Z.of_nat (length cs) -> contents (set_size (size_ b + n) (set_data d b)) = contents b ++ take (Z.to_nat n) cs).
Proof.
  intros [Hs Hd] Hn Hcap Hcs. destruct (data_ b) as [l|] eqn:Ed.
  - rewrite store_cells by lia. eexists. split; [done|]. split.
    + split; cbn; [lia|]. rewrite length_splice; lia.
    + intros Hle. unfold contents. cbn. rewrite Ed. cbn. unfold splice.
      rewrite Z2Nat.inj_add by lia. rewrite take_app, length_take, take_take, Nat.min_r by lia.
      f_equal. replace (_ - _)%nat with (Z.to_nat n) by lia. rewrite take_app_le by lia. done.
  - destruct cs as [|c cs]; [|cbn in Hcs; lia]. exists None. cbn. split; [done|].
    assert (n = 0) as -> by lia. split; [split; cbn; lia|]. intros _. unfold contents. rewrite Ed. cbn. by rewrite !take_nil.
Qed.

(** What a source gives: memory of the caller, or a pointer into the buffer
    itself as long as the buffer need not grow. *)
Definition gives (b : BufferT) (s : src) (n : Z) (cs : list cell) : Prop :=
  match s with
  | Bytes cs0 => n <= Z.of_nat (length cs0) /\ cs = take (Z.to_nat n) cs0
  | Own k => k = length (freed b) /\ size_ b + n <= capacity_ b /\ n <= size_ b /\ cs = take (Z.to_nat n) (contents b)
  end.

Lemma read_ok b b1 s n cs : gives b s n cs -> (size_ b + n <= capacity_ b -> b1 = b) -> buf_ok b -> 0 <= n ->
  (if n =? 0 then Ret [] else cs ← read_src s b1; load cs n) = Ret cs /\ Z.of_nat (length cs) = n.
Proof.
  intros Hg Hb1 Hb Hn. destruct s as [cs0|k]; cbn in Hg.
  - destruct Hg as [Hl ->]. rewrite length_take. split; [|lia]. destruct (Z.eqb_spec n 0) as [->|]; [done|]. cbn. by apply load_cells.
  - destruct Hg as (-> & Hc & Hs & ->). rewrite Hb1 by done. clear Hb1. pose proof (length_contents _ Hb) as Hl.
    rewrite length_take. split; [|lia]. destruct (Z.eqb_spec n 0) as [->|]; [done|]. cbn. rewrite decide_True by done. cbn.
    destruct Hb as [Hs' Hd]. unfold contents in *. rewrite take_take, Nat.min_l by lia. apply load_cells.
    destruct (data_ b); cbn in *; lia.
Qed.

Lemma append_ok b s n cs : buf_ok b -> 0 <= n -> size_ b + n < 2 ^ 62 -> gives b s n cs ->
  exists b', AppendData z s n b = Ret (tt, b') /\ buf_ok b' /\ contents b' = contents b ++ cs /\
    size_ b' = size_ b + n /\ capacity_ b' = grown true (capacity_ b) (size_ b + n) /\ frees true b b'.
Proof.
  intros Hb Hn Hlt Hg. unfold AppendData. rewrite M_bind_get. pose proof (bo_size _ Hb) as Hs.
  rewrite u64_small by lia.
  destruct (ensure_ok b (size_ b + n) true Hb Hlt) as (b1 & He & Hb1 & Hs1 & Hc1 & Hcap1 & Hf1 & Hsame & _).
  step He. rewrite M_bind_get. destruct (read_ok b b1 s n cs Hg Hsame Hb Hn) as [Hread Hlen].
  rewrite (M_bind_lift cs) by exact Hread.
  pose proof (grown_bounds true (capacity_ b) (size_ b + n) ltac:(lia)) as Hgr. rewrite <- Hcap1 in Hgr.
  destruct (extend_ok b1 cs n Hb1 Hn) as (d & Hd & Hok & Hcont); [lia..|].
  rewrite (M_bind_lift d) by exact Hd. rewrite Hs1 in *. eexists. split; [done|]. split_and!; [done| |done|done|].
  - rewrite Hcont, Hc1 by lia. by rewrite take_ge by lia.
  - eapply frees_trans; [exact Hf1|]. by apply frees_same.
Qed.

(** A pointer into the buffer itself dangles when the buffer grows. *)
Lemma append_own_dangles b n : buf_ok b -> data_ b <> None -> 0 < n <= size_ b -> capacity_ b < size_ b + n < 2 ^ 62 ->
  AppendData z (Own (length (freed b))) n b = Ub UseAfterFree.
Proof.
  intros Hb Hd Hn Hlt. unfold AppendData. rewrite M_bind_get. pose proof (bo_size _ Hb) as Hs.
  rewrite u64_small by lia.
  destruct (ensure_ok b (size_ b + n) true Hb) as (b1 & He & _ & _ & _ & _ & _ & _ & Hf); [lia|].
  step He. rewrite M_bind_get. rewrite (proj2 (Z.eqb_neq n 0)) by lia. cbn.
  rewrite decide_False; [done|]. rewrite Hf by (done || lia). lia.
Qed.

Lemma set_size_ok b n : buf_ok b -> 0 <= n <= capacity_ b -> buf_ok (set_size n b).
Proof. intros [Hs Hd] Hn. by split. Qed.

Lemma trailing_ok b n : buf_ok b -> 0 <= n -> size_ b + n <= capacity_ b ->
  exists d, ZeroTrailingData n b = Ret (tt, set_data d b) /\ buf_ok (set_data d b) /\
    contents (set_data d b) = contents b.
Proof.
  intros Hb Hn Hc. pose proof (bo_size _ Hb) as Hs. unfold ZeroTrailingData. rewrite M_bind_get.
  destruct (zero_ok b (size_ b) n Hb) as (d & He & Hok & Hd); [lia..|]. exists d. split_and!; [done..|].
  unfold contents. cbn. rewrite Hd. apply take_splice. destruct Hb as [_ Hd']. destruct (data_ b); cbn in *; lia.
Qed.

(** The last step of [SetSize] and [SetData]. *)
Lemma trim_ok b n : buf_ok b -> 0 <= size_ b + n <= capacity_ b -> 
  exists b', (if z && (0 <? n) then ZeroTrailingData n else mret tt) b = Ret (tt, b') /\ buf_ok b' /\
    contents b' = contents b /\ size_ b' = size_ b /\ capacity_ b' = capacity_ b /\ freed b' = freed b.
Proof.
  intros Hb Hc. destruct (z && (0 <? n)) eqn:E; [|by exists b].
  destruct (trailing_ok b n Hb) as (d & He & Hok & Hcont); [lia..|]. by exists (set_data d b).
Qed.

Lemma SetSize_ok b n : buf_ok b -> 0 <= n < 2 ^ 62 ->
  exists b', SetSize z n b = Ret (tt, b') /\ buf_ok b' /\ size_ b' = n /\
    take (Z.to_nat (Z.min n (size_ b))) (contents b') = take (Z.to_nat n) (contents b) /\
    capacity_ b' = grown true (capacity_ b) n /\ frees true b b'.
Proof.
  intros Hb Hn. unfold SetSize. rewrite M_bind_get. pose proof (bo_size _ Hb) as Hs.
  destruct (ensure_ok b n true Hb) as (b1 & He & Hb1 & Hs1 & Hc1 & Hcap1 & Hf1 & Hsame & _); [lia|].
  step He. rewrite M_bind_modify.
  pose proof (grown_bounds true (capacity_ b) n ltac:(lia)) as Hgr. rewrite <- Hcap1 in Hgr.
  destruct (trim_ok (set_size n b1) (size_ b - n)) as (b2 & He2 & Hb2 & Hc2 & Hs2 & Hcap2 & Hf2);
    [by apply set_size_ok; [|lia]|cbn; lia|].
  replace (n <? size_ b) with (0 <? size_ b - n) by lia. exists b2. split_and!; [exact He2|done|done| |by rewrite Hcap2|].
  - rewrite Hc2, <- Hc1. unfold contents. cbn. rewrite Hs1, !take_take. f_equal. lia.
  - eapply frees_trans; [exact Hf1|]. by apply frees_same.
Qed.

Lemma SetData_ok b s n cs : buf_ok b -> 0 <= n < 2 ^ 62 -> (forall k, s <> Own k) -> gives b s n cs ->
  exists b', SetData z s n b = Ret (tt, b') /\ buf_ok b' /\ contents b' = cs /\
    capacity_ b' = grown true (capacity_ b) n /\ frees true b b'.
Proof.
  intros Hb Hn Hs Hg. unfold SetData. rewrite M_bind_get, M_bind_modify. pose proof (bo_size _ Hb) as Hsz.
  assert (buf_ok (set_size 0 b)) as Hb0 by (apply set_size_ok; [done|lia]).
  destruct (append_ok (set_size 0 b) s n cs Hb0) as (b1 & He & Hb1 & Hc1 & Hs1 & Hcap1 & Hf1);
    [lia|cbn; lia|destruct s; [done|by destruct (Hs n0)]|].
  step He. rewrite M_bind_get. cbn [size_ capacity_ set_size] in Hs1, Hcap1. rewrite Z.add_0_l in Hs1, Hcap1.
  pose proof (grown_bounds true (capacity_ b) n ltac:(lia)) as Hgr. rewrite <- Hcap1 in Hgr.
  destruct (trim_ok b1 (size_ b - size_ b1) Hb1) as (b2 & He2 & Hb2 & Hc2 & Hs2 & Hcap2 & Hf2); [lia|].
  replace (size_ b1 <? size_ b) with (0 <? size_ b - size_ b1) by lia. exists b2.
  split_and!; [exact He2|done| |by rewrite Hcap2|].
  - by rewrite Hc2, Hc1.
  - eapply frees_trans; [|eapply frees_trans; [exact Hf1|by apply frees_same]]. by apply frees_same.
Qed.

Lemma Clear_ok b : buf_ok b ->
  exists b', Clear z b = Ret (tt, b') /\ buf_ok b' /\ contents b' = [] /\ capacity_ b' = capacity_ b /\
    freed b' = freed b.
Proof.
  intros Hb. unfold Clear. destruct (maybe_zero_ok b Hb) as (d & He & Hok & _). step He.
  eexists. split; [done|]. split_and!; try done. apply set_size_ok; [done|]. cbn. pose proof (bo_size _ Hb). lia.
Qed.

Lemma setter_ok b mx wrote wn : buf_ok b -> 0 <= mx -> size_ b + mx < 2 ^ 62 ->
  Z.of_nat (length wrote) <= mx -> 0 <= wn <= Z.of_nat (length wrote) ->
  exists b', AppendData_setter z mx wrote wn b = Ret (wn, b') /\ buf_ok b' /\
    contents b' = contents b ++ take (Z.to_nat wn) wrote /\ capacity_ b' = grown true (capacity_ b) (size_ b + mx) /\
    frees true b b'.
Proof.
  intros Hb Hmx Hlt Hw Hwn. unfold AppendData_setter. rewrite M_bind_get. pose proof (bo_size _ Hb) as Hs.
  rewrite !u64_small by lia.
  destruct (SetSize_ok b (size_ b + mx) Hb) as (b1 & He & Hb1 & Hs1 & Hc1 & Hcap1 & Hf1); [lia|].
  step He. rewrite M_bind_get.
  pose proof (grown_bounds true (capacity_ b) (size_ b + mx) ltac:(lia)) as Hgr. rewrite <- Hcap1 in Hgr.
  set (b2 := set_size (size_ b) b1).
  assert (buf_ok b2) as Hb2 by (apply set_size_ok; [done|lia]).
  destruct (extend_ok b2 wrote wn Hb2) as (d & Hd & Hok & Hcont); [cbn; lia..|]. cbn in Hd.
  rewrite (M_bind_lift d) by exact Hd. rewrite (proj2 (Z.ltb_ge mx wn)) by lia.
  eexists. split; [done|]. split_and!; [exact Hok| |done|].
  - change (contents (set_size (size_ b2 + wn) (set_data d b2)) = contents b ++ take (Z.to_nat wn) wrote).
    rewrite Hcont by lia. f_equal. rewrite Z.min_r, (take_ge (contents b)) in Hc1 by (pose proof (length_contents _ Hb); lia).
    rewrite <- Hc1. unfold contents. cbn. rewrite take_take. f_equal. lia.
  - eapply frees_trans; [exact Hf1|]. by apply frees_same.
Qed.

Lemma set_index_ok b i v : buf_ok b -> 0 <= i < size_ b ->
  exists b', set_index i v b = Ret (tt, b') /\ buf_ok b' /\ contents b' = <[Z.to_nat i := Some v]> (contents b) /\
    capacity_ b' = capacity_ b /\ freed b' = freed b.
Proof.
  intros Hb Hi. pose proof Hb as [Hs Hd]. unfold set_index. rewrite M_bind_get.
  destruct (data_ b) as [l|] eqn:Ed; [|lia].
  rewrite (M_bind_lift (Some (splice l (Z.to_nat i) [Some v]))) by (apply store_cells; cbn; lia).
  eexists. split; [done|]. split_and!; [|unfold contents|done|done].
  - split; cbn; [done|]. rewrite length_splice; cbn; lia.
  - rewrite Ed. cbn. rewrite <- take_insert_lt by lia. f_equal.
    unfold splice. cbn. rewrite insert_take_drop by lia. by rewrite Nat.add_1_r.
Qed.

Lemma SetData_setter_ok b mx wrote wn : buf_ok b -> 0 <= mx < 2 ^ 62 ->
  Z.of_nat (length wrote) <= mx -> 0 <= wn <= Z.of_nat (length wrote) ->
  exists b', SetData_setter z mx wrote wn b = Ret (wn, b') /\ buf_ok b' /\
    contents b' = take (Z.to_nat wn) wrote /\ capacity_ b' = grown true (capacity_ b) mx /\ frees true b b'.
Proof.
  intros Hb Hmx Hw Hwn. unfold SetData_setter. rewrite M_bind_get, M_bind_modify. pose proof (bo_size _ Hb) as Hsz.
  assert (buf_ok (set_size 0 b)) as Hb0 by (apply set_size_ok; [done|lia]).
  destruct (setter_ok (set_size 0 b) mx wrote wn Hb0) as (b1 & He & Hb1 & Hc1 & Hcap1 & Hf1); [lia|cbn; lia|done|done|].
  step He. rewrite M_bind_get. cbn [size_ capacity_ set_size] in Hcap1. rewrite Z.add_0_l in Hcap1.
  assert (size_ b1 = wn) as Hs1.
  { rewrite <- (length_contents _ Hb1), Hc1. unfold contents. cbn. rewrite length_app, !length_take. lia. }
  pose proof (grown_bounds true (capacity_ b) mx ltac:(lia)) as Hgr. rewrite <- Hcap1 in Hgr.
  destruct (trim_ok b1 (size_ b - size_ b1) Hb1) as (b2 & He2 & Hb2 & Hc2 & Hs2 & Hcap2 & Hf2); [lia|].
  replace (size_ b1 <? size_ b) with (0 <? size_ b - size_ b1) by lia. rewrite (M_bind_eq _ _ _ _ _ He2).
  exists b2. split_and!; [done|done| |by rewrite Hcap2|].
  - by rewrite Hc2, Hc1.
  - eapply frees_trans; [|eapply frees_trans; [exact Hf1|by apply frees_same]]. by apply frees_same.
Qed.
End proofs.

(** ** Sequences of operations *)

Inductive bop :=
  | BAppend (bs : list cell)
  | BSet (bs : list cell)
  | BSize (n : Z)
  | BReserve (n : Z)
  | BClear
  | BStore (i : Z) (v : byte)
  | BAppendBy (mx : Z) (wrote : list cell) (written : Z)
  | BSetBy (mx : Z) (wrote : list cell) (written : Z).

Definition do_bop (z : bool) (o : bop) : M BufferT unit :=
  match o with
  | BAppend bs => AppendData z (Bytes bs) (Z.of_nat (length bs))
  | BSet bs => SetData z (Bytes bs) (Z.of_nat (length bs))
  | BSize n => SetSize z n
  | BReserve n => EnsureCapacity z n
  | BClear => Clear z
  | BStore i v => set_index i v
  | BAppendBy mx wrote written => _ ← AppendData_setter z mx wrote written; mret tt
  | BSetBy mx wrote written => _ ← SetData_setter z mx wrote written; mret tt
  end.
Fixpoint do_bops (z : bool) (os : list bop) : M BufferT unit :=
  match os with [] => mret tt | o :: os => _ ← do_bop z o; do_bops z os end.

(** What the operation does to the bytes; after growing with [SetSize] the new
    bytes are not determined. *)
Definition bop_spec (o : bop) (v v' : list cell) : Prop :=
  match o with
  | BAppend bs => v' = v ++ bs
  | BSet bs => v' = bs
  | BSize n => Z.of_nat (length v') = n /\ take (length v) v' = take (Z.to_nat n) v
  | BReserve _ => v' = v
  | BClear => v' = []
  | BStore i b => v' = <[Z.to_nat i := Some b]> v
  | BAppendBy _ wrote written => v' = v ++ take (Z.to_nat written) wrote
  | BSetBy _ wrote written => v' = take (Z.to_nat written) wrote
  end.

(** An operation on [n] bytes stays inside what it is given and below [B]
    bytes. *)
Definition bop_pre (B : Z) (o : bop) (n : Z) : Prop :=
  match o with
  | BAppend bs => n + Z.of_nat (length bs) <= B
  | BSet bs => Z.of_nat (length bs) <= B
  | BSize k => 0 <= k <= B
  | BReserve k => k <= B
  | BClear => True
  | BStore i _ => 0 <= i < n
  | BAppendBy mx wrote written => 0 <= mx /\ n + mx <= B /\ Z.of_nat (length wrote) <= mx /\ 0 <= written <= Z.of_nat (length wrote)
  | BSetBy mx wrote written => mx <= B /\ Z.of_nat (length wrote) <= mx /\ 0 <= written <= Z.of_nat (length wrote)
  end.

(** The sequence runs from the bytes [v] to the bytes [v']. *)
Inductive bops_spec (B : Z) : list bop -> list cell -> list cell -> Prop :=
  | bops_nil v : bops_spec B [] v v
  | bops_cons o os v v1 v2 : bop_pre B o (Z.of_nat (length v)) -> bop_spec o v v1 -> bops_spec B os v1 v2 ->
      bops_spec B (o :: os) v v2.

(** Every operation of the sequence can be done, whatever the bytes are that the
    operations before it leave open. *)
Fixpoint admissible (B : Z) (os : list bop) (v : list cell) : Prop :=
  match os with
  | [] => True
  | o :: os => bop_pre B o (Z.of_nat (length v)) /\ forall v', bop_spec o v v' -> admissible B os v'
  end.
Definition no_reserve (o : bop) : bool := match o with BReserve _ => false | _ => true end.

Section runs.
Context (z : bool) (B : Z) (HB : 0 <= B < 2 ^ 61).

Lemma grown_limit extra cap n : 0 <= cap <= B + B / 2 -> n <= B -> grown extra cap n <= B + B / 2.
Proof using HB.
  intros Hc Hn. unfold grown. destruct (Z.leb_spec n cap); [lia|].
  destruct extra; Z.to_euclidean_division_equations; lia.
Qed.

Lemma do_bop_ok o b : buf_ok b -> capacity_ b <= B + B / 2 -> bop_pre B o (size_ b) ->
  exists b', do_bop z o b = Ret (tt, b') /\ buf_ok b' /\ bop_spec o (contents b) (contents b') /\
    capacity_ b' <= B + B / 2 /\ frees z (no_reserve o) b b'.
Proof using HB.
  intros Hb Hcap Hpre. pose proof (bo_size _ Hb) as Hs. pose proof (length_contents _ Hb) as Hlen.
  destruct o as [bs|bs|n|n| |i v|mx wrote wn|mx wrote wn]; cbn [do_bop bop_spec bop_pre] in *.
  - destruct (append_ok z b (Bytes bs) (Z.of_nat (length bs)) bs Hb) as (b' & He & Hb' & Hc & _ & Hcap' & Hf); [lia..| |].
    { cbn. split; [lia|]. by rewrite Nat2Z.id, firstn_all. }
    exists b'. split_and!; try done. rewrite Hcap'. apply grown_limit; lia.
  - destruct (SetData_ok z b (Bytes bs) (Z.of_nat (length bs)) bs Hb) as (b' & He & Hb' & Hc & Hcap' & Hf); [lia|done| |].
    { cbn. split; [lia|]. by rewrite Nat2Z.id, firstn_all. }
    exists b'. split_and!; try done. rewrite Hcap'. apply grown_limit; lia.
  - destruct (SetSize_ok z b n Hb) as (b' & He & Hb' & Hs' & Hc & Hcap' & Hf); [lia|].
    exists b'. pose proof (length_contents _ Hb') as Hlen'. split_and!; try done; [lia| |rewrite Hcap'; apply grown_limit; lia].
    rewrite <- Hc. destruct (Z.min_spec n (size_ b)) as [[? ->]|[? ->]].
    + rewrite !take_ge by lia. done.
    + f_equal. lia.
  - destruct (ensure_ok z b n false Hb) as (b' & He & Hb' & _ & Hc & Hcap' & Hf & _); [lia|].
    exists b'. split_and!; try done. rewrite Hcap'. apply grown_limit; lia.
  - destruct (Clear_ok z b Hb) as (b' & He & Hb' & Hc & Hcap' & Hf). exists b'. split_and!; try done; [lia|by apply frees_same].
  - destruct (set_index_ok b i v Hb) as (b' & He & Hb' & Hc & Hcap' & Hf); [lia|]. exists b'. split_and!; try done; [lia|by apply frees_same].
  - destruct (setter_ok z b mx wrote wn Hb) as (b' & He & Hb' & Hc & Hcap' & Hf); [lia..|].
    exists b'. step He. split_and!; try done. rewrite Hcap'. apply grown_limit; lia.
  - destruct (SetData_setter_ok z b mx wrote wn Hb) as (b' & He & Hb' & Hc & Hcap' & Hf); [lia..|].
    exists b'. step He. split_and!; try done. rewrite Hcap'. apply grown_limit; lia.
Qed.

Lemma do_bops_ok os b : buf_ok b -> capacity_ b <= B + B / 2 -> admissible B os (contents b) ->
  exists b', do_bops z os b = Ret (tt, b') /\ buf_ok b' /\ bops_spec B os (contents b) (contents b') /\
    capacity_ b' <= B + B / 2 /\ frees z (forallb no_reserve os) b b'.
Proof using HB.
  revert b. induction os as [|o os IH]; intros b Hb Hcap Ha.
  { exists b. split_and!; [done|done|constructor|done|by apply frees_same]. }
  destruct Ha as [Hpre Ha]. pose proof Hpre as Hpre'. rewrite length_contents in Hpre' by done.
  destruct (do_bop_ok o b Hb Hcap Hpre') as (b1 & He & Hb1 & Hs1 & Hcap1 & Hf1).
  destruct (IH b1 Hb1 Hcap1 (Ha _ Hs1)) as (b2 & He2 & Hb2 & Hs2 & Hcap2 & Hf2).
  exists b2. cbn [do_bops forallb]. step He. split_and!; [done|done|by econstructor|done|].
  eapply frees_trans; [destruct Hf1|destruct Hf2]; split; try done; intros Hz ?; apply andb_true_iff in Hz as []; auto.
Qed.
End runs.

(** ** Properties *)

Lemma empty_ok : buf_ok BufferT_empty.
Proof. split; cbn; lia. Qed.

(** C35: A buffer is the list of its bytes, and growing it is linear.  Any
    sequence of operations below [B] bytes that starts from an empty buffer, with
    sources outside of the buffer (bytes appended from the buffer itself are read
    after their block was freed, [self_append_dangles]), indices below the size
    and setters that write no more than they were given, is defined and does to
    the bytes what it promises; the capacity stays below one
    and a half times [B]; and unless [EnsureCapacity] asked for exact sizes, all
    blocks that were ever given up have together at most three times the size
    of the present one, so appending byte by byte costs linear time. *)
Theorem buffer_growth z B os : 0 <= B < 2 ^ 61 -> admissible B os [] ->
  exists b', do_bops z os BufferT_empty = Ret (tt, b') /\
    bops_spec B os [] (contents b') /\ size_ b' <= capacity_ b' <= B + B / 2 /\
    (forallb no_reserve os = true -> freed_size b' <= 3 * capacity_ b').
Proof.
  intros HB Ha. assert (0 <= B / 2) by (apply Z.div_pos; lia).
  destruct (do_bops_ok z B HB os BufferT_empty empty_ok) as (b' & He & Hb' & Hs & Hc & _ & Hf); [cbn; lia|done|].
  exists b'. split_and!; [done..| | |].
  - apply Hb'.
  - done.
  - intros Hr. apply Hf; [done|]. cbn. lia.
Qed.

(** A ZeroOnFree buffer leaves no data behind.  Whatever is done with it, up
    to and including its destruction, every block that goes back to the
    allocator is all zeros. *)
Theorem zero_on_free B os : 0 <= B < 2 ^ 61 -> admissible B os [] ->
  exists blocks b', (_ ← do_bops true os; delete_BufferT true) BufferT_empty = Ret (blocks, b') /\
    data_ b' = None /\ Forall zeroed blocks.
Proof.
  intros HB Ha. assert (0 <= B / 2) by (apply Z.div_pos; lia).
  destruct (do_bops_ok true B HB os BufferT_empty empty_ok) as (b1 & He & Hb1 & _ & _ & Hf & _); [cbn; lia|done|].
  destruct Hf as (fs & Hfs & Hz). cbn in Hfs.
  destruct (maybe_zero_ok true b1 Hb1) as (d & He2 & _ & _ & _ & Hd).
  step He. unfold delete_BufferT. step He2. eexists _, _. split; [done|]. split; [done|]. cbn.
  rewrite Hfs. apply Forall_app. split; [by apply Hz|]. destruct d; cbn; [by constructor|constructor].
Qed.

(** A pointer into the buffer itself, as in [b.AppendData(b)], dangles when the
    buffer grows. *)
Definition self_append : M BufferT unit :=
  _ ← do_bop false (BSet (Some <$> [x01; x02; x03])); AppendData false (Own 0) 3.
Example self_append_dangles : self_append BufferT_empty = Ub UseAfterFree.
Proof. vm_compute. reflexivity. Qed.

(** With a setter that writes more than it says, bytes stay in the unused
    capacity of a ZeroOnFree buffer. *)
Example setter_residue :
  (fun r => match r with Ret (_, b) => Some (size_ b, data_ b) | _ => None end)
    (do_bop true (BSetBy 3 (Some <$> [x01; x02; x03]) 1) BufferT_empty) =
  Some (1, Some [Some x01; Some x02; Some x03]).
Proof. vm_compute. reflexivity. Qed.

Definition some_bops : list bop :=
  [BAppend (Some <$> [x41; x42]); BAppend (Some <$> [x43]); BSize 2; BStore 0 x5a; BAppendBy 4 (Some <$> [x01; x02]) 1; BClear;
   BSet (Some <$> [x44])].

Lemma some_bops_admissible : admissible 100 some_bops [].
Proof.
  cbn. split; [lia|]. intros v1 ->. split; [cbn; lia|]. intros v2 ->. split; [lia|].
  intros v3 [H3 _]. split; [lia|]. intros v4 ->. rewrite length_insert. split; [lia|].
  intros v5 ->. split; [done|]. intros v6 ->. split; [lia|]. done.
Qed.

Lemma buffer_growth_witness : (0 <= 100 < 2 ^ 61) /\ admissible 100 some_bops [] /\
  exists b', do_bops false some_bops BufferT_empty = Ret (tt, b') /\
    bops_spec 100 some_bops [] (contents b') /\ size_ b' <= capacity_ b' <= 100 + 100 / 2 /\
    (forallb no_reserve some_bops = true -> freed_size b' <= 3 * capacity_ b').
Proof.
  assert (0 <= 100 < 2 ^ 61) as HB by lia. split_and!; [exact (proj1 HB)|exact (proj2 HB)|exact some_bops_admissible|].
  exact (buffer_growth false 100 some_bops HB some_bops_admissible).
Defined.

Lemma zero_on_free_witness : (0 <= 100 < 2 ^ 61) /\ admissible 100 some_bops [] /\
  exists blocks b', (_ ← do_bops true some_bops; delete_BufferT true) BufferT_empty = Ret (blocks, b') /\
    data_ b' = None /\ Forall zeroed blocks.
Proof.
  assert (0 <= 100 < 2 ^ 61) as HB by lia. split_and!; [exact (proj1 HB)|exact (proj2 HB)|exact some_bops_admissible|].
  exact (zero_on_free 100 some_bops HB some_bops_admissible).
Defined.
