(* ===== verification/CowBuffer.v ===== *)
(** * [rtc_base/copy_on_write_buffer.cc]: buffers shared until they change

    A [CopyOnWriteBuffer] is a reference-counted pointer to a [Buffer]; copies
    share it and a change first makes a copy of its own if there is another
    owner.  [world] holds the shared buffers with their counts, and the
    variables of type [CopyOnWriteBuffer], by address.  The counter of
    api/scoped_refptr.h and rtc_base/ref_counted_object.h is modelled with it. *)

From S2P Require Import Prelude CLib Buffer.
#[local] Open Scope Z_scope.
#[local] Open Scope xrtc_scope.

Record world := World {
  bufs : gmap loc (Z * BufferT);       (* [RefCountedObject<Buffer>] *)
  cows : gmap loc (option loc);        (* [buffer_] of each variable *)
}.

Definition set_bufs (bs : gmap loc (Z * BufferT)) (w : world) : world := World bs (cows w).
Definition set_cow (v : loc) (p : option loc) (w : world) : world := World (bufs w) (<[v := p]> (cows w)).

(** ** Reference counting *)

Definition deref (b : loc) : M world (Z * BufferT) :=
  w ← get; match bufs w !! b with Some x => mret x | None => ub_ UseAfterFree end.

(** [new RefCountedObject<Buffer>(...)]: the count starts at 0. *)
Definition new_object (x : res BufferT) : M world loc :=
  x ← lift x;
  w ← get;
  let b := fresh (dom (bufs w)) in
  _ ← put (set_bufs (<[b := (0, x)]> (bufs w)) w);
  mret b.
Definition AddRef (b : loc) : M world unit :=
  x ← deref b; modify (fun w => set_bufs (<[b := (x.1 + 1, x.2)]> (bufs w)) w).
Definition Release (b : loc) : M world unit :=
  x ← deref b;
  if x.1 - 1 =? 0 then modify (fun w => set_bufs (delete b (bufs w)) w)
  else modify (fun w => set_bufs (<[b := (x.1 - 1, x.2)]> (bufs w)) w).
Definition HasOneRef (b : loc) : M world bool := x ← deref b; mret (x.1 =? 1).

(** [if (p) p->AddRef()], [if (ptr_) ptr_->Release()]. *)
Definition add_ref (p : option loc) : M world unit := match p with Some b => AddRef b | None => mret tt end.
Definition release (p : option loc) : M world unit := match p with Some b => Release b | None => mret tt end.

(** The pointer of the variable [v]. *)
Definition buffer_ (v : loc) : M world (option loc) :=
  w ← get; match cows w !! v with Some p => mret p | None => ub_ UseAfterFree end.

(** [scoped_refptr::operator=(T* p)] on [buffer_] of [v]. *)
Definition assign (v : loc) (p : option loc) : M world unit :=
  _ ← add_ref p;
  old ← buffer_ v;
  _ ← release old;
  modify (set_cow v p).

(** A method of the buffer at [b]. *)
Definition on_buffer {A} (b : loc) (m : M BufferT A) : M world A :=
  x ← deref b;
  r ← lift (m x.2);
  _ ← modify (fun w => set_bufs (<[b := (x.1, r.2)]> (bufs w)) w);
  mret r.1.

(** ** Operations *)

(** Constructors of the variable [v]. *)
Definition Cow_empty (v : loc) : M world unit := modify (set_cow v None).
Definition Cow_from (v : loc) (p : option loc) : M world unit := _ ← add_ref p; modify (set_cow v p).
Definition Cow_copy (v u : loc) : M world unit := p ← buffer_ u; Cow_from v p.
Definition Cow_move (v u : loc) : M world unit :=
  p ← buffer_ u; _ ← modify (set_cow v p); modify (set_cow u None).
Definition Cow_size (v : loc) (size : Z) : M world unit :=
  if 0 <? size then b ← new_object (BufferT_size size); Cow_from v (Some b) else Cow_from v None.
Definition Cow_capacity (v : loc) (size capacity : Z) : M world unit :=
  if (0 <? size) || (0 <? capacity) then b ← new_object (BufferT_capacity size capacity); Cow_from v (Some b)
  else Cow_from v None.
Definition Cow_data_capacity (v : loc) (data : list cell) (size capacity : Z) : M world unit :=
  _ ← Cow_capacity v size capacity;
  p ← buffer_ v;
  match p with
  | None => mret tt
  | Some b => on_buffer b (x ← get; cs ← lift (load data size); d ← lift (store (data_ x) 0 cs); put (set_data d x))
  end.
Definition Cow_data (v : loc) (data : list cell) (size : Z) : M world unit := Cow_data_capacity v data size size.
Definition delete_Cow (v : loc) : M world unit :=
  p ← buffer_ v; _ ← release p; modify (fun w => World (bufs w) (delete v (cows w))).

Definition CloneDataIfReferenced (v : loc) (b : loc) (new_capacity : Z) : M world unit :=
  one ← HasOneRef b;
  if (one : bool) then mret tt
  else
    x ← deref b;
    b' ← new_object (BufferT_data_capacity (default [] (data_ x.2)) (size_ x.2) new_capacity);
    assign v (Some b').

(** What [buffer_] of [v] points to. *)
Definition its_buffer (v : loc) : M world loc :=
  p ← buffer_ v; match p with Some b => mret b | None => ub_ NullDeref end.

Definition SetSize (v : loc) (size : Z) : M world unit :=
  p ← buffer_ v;
  match p with
  | None => if 0 <? size then b ← new_object (BufferT_size size); assign v (Some b) else mret tt
  | Some b =>
      one ← HasOneRef b;
      _ ← (if (one : bool) then mret tt
           else
             x ← deref b;
             b' ← new_object (BufferT_data_capacity (default [] (data_ x.2)) (Z.min (size_ x.2) size)
                                (Z.max (capacity_ x.2) size));
             assign v (Some b'));
      b ← its_buffer v;
      on_buffer b (Buffer.SetSize false size)
  end.

Definition EnsureCapacity (v : loc) (capacity : Z) : M world unit :=
  p ← buffer_ v;
  match p with
  | None => if 0 <? capacity then b ← new_object (BufferT_capacity 0 capacity); assign v (Some b) else mret tt
  | Some b =>
      x ← deref b;
      if capacity <=? capacity_ x.2 then mret tt
      else
        _ ← CloneDataIfReferenced v b (Z.max (capacity_ x.2) capacity);
        b ← its_buffer v;
        on_buffer b (Buffer.EnsureCapacity false capacity)
  end.

Definition Clear (v : loc) : M world unit :=
  p ← buffer_ v;
  match p with
  | None => mret tt
  | Some b =>
      one ← HasOneRef b;
      if (one : bool) then on_buffer b (Buffer.Clear false)
      else x ← deref b; b' ← new_object (BufferT_capacity 0 (capacity_ x.2)); assign v (Some b')
  end.

(** [data()] of a variable that is not const: a pointer to write through. *)
Definition data (v : loc) : M world (option loc) :=
  p ← buffer_ v;
  match p with
  | None => mret None
  | Some b => x ← deref b; _ ← CloneDataIfReferenced v b (capacity_ x.2); b ← its_buffer v; mret (Some b)
  end.

(** [v[index] = c] and [v[index]] of a const reference. *)
Definition set_at (v : loc) (index : Z) (c : byte) : M world unit :=
  p ← data v; match p with None => ub_ NullDeref | Some b => on_buffer b (set_index index c) end.
Definition get_at (v : loc) (index : Z) : M world cell :=
  b ← its_buffer v; x ← deref b; lift (r ← at_index index x.2; Ret r.1).

Definition size (v : loc) : M world Z :=
  p ← buffer_ v; match p with None => mret 0 | Some b => x ← deref b; mret (size_ x.2) end.
Definition capacity (v : loc) : M world Z :=
  p ← buffer_ v; match p with None => mret 0 | Some b => x ← deref b; mret (capacity_ x.2) end.

Definition copy_assign (v u : loc) : M world unit :=
  if decide (v = u) then mret tt else p ← buffer_ u; assign v p.
(** [operator=(&&)]: a temporary takes the pointer of [u] and is swapped with
    [v]'s, then released. *)
Definition move_assign (v u : loc) : M world unit :=
  p ← buffer_ u;
  _ ← modify (set_cow u None);
  old ← buffer_ v;
  _ ← modify (set_cow v p);
  release old.
Definition swap (v u : loc) : M world unit :=
  p ← buffer_ v; q ← buffer_ u; _ ← modify (set_cow v q); modify (set_cow u p).

Definition operator_eq (v u : loc) : M world bool :=
  p ← buffer_ v; q ← buffer_ u;
  if decide (p = q) then mret true
  else
    match p, q with
    | Some a, Some b => x ← deref a; y ← deref b; lift (buffer_eq x.2 y.2)
    | _, _ => mret false
    end.

(** Where [SetData] and [AppendData] copy from: memory of the caller, or the
    block that the buffer [b] had when it had given [n] blocks back. *)
Inductive csrc := CBytes (cs : list cell) | CPtr (b : loc) (n : nat).

(** The source as the buffer at [target] sees it. *)
Definition resolve (s : csrc) (target : loc) : M world src :=
  match s with
  | CBytes cs => mret (Bytes cs)
  | CPtr b n =>
      if decide (b = target) then mret (Own n)
      else
        x ← deref b;
        if decide (n = length (freed x.2)) then mret (Bytes (default [] (data_ x.2))) else ub_ UseAfterFree
  end.
(** The cells at the source, to construct a new buffer from. *)
Definition source_cells (s : csrc) : M world (list cell) :=
  match s with
  | CBytes cs => mret cs
  | CPtr b n => x ← deref b; lift (read_src (Own n) x.2)
  end.

Definition SetData (v : loc) (s : csrc) (size : Z) : M world unit :=
  p ← buffer_ v;
  match p with
  | None =>
      if 0 <? size then cs ← source_cells s; b ← new_object (BufferT_data cs size); assign v (Some b)
      else assign v None
  | Some b =>
      one ← HasOneRef b;
      if (one : bool) then s ← resolve s b; on_buffer b (Buffer.SetData false s size)
      else
        x ← deref b; cs ← source_cells s;
        b' ← new_object (BufferT_data_capacity cs size (capacity_ x.2)); assign v (Some b')
  end.
Definition SetData_buf (v u : loc) : M world unit := copy_assign v u.

Definition AppendData (v : loc) (s : csrc) (size : Z) : M world unit :=
  p ← buffer_ v;
  match p with
  | None => cs ← source_cells s; b ← new_object (BufferT_data cs size); assign v (Some b)
  | Some b =>
      x ← deref b;
      _ ← CloneDataIfReferenced v b (Z.max (capacity_ x.2) (u64 (size_ x.2 + size)));
      b ← its_buffer v;
      s ← resolve s b;
      on_buffer b (Buffer.AppendData false s size)
  end.
(** [AppendData(buf)]: [buf.data()] and [buf.size()] are taken first. *)
Definition AppendData_buf (v u : loc) : M world unit :=
  q ← buffer_ u;
  match q with
  | None => AppendData v (CBytes []) 0
  | Some b => y ← deref b; AppendData v (CPtr b (length (freed y.2))) (size_ y.2)
  end.

(** ** The invariant *)

(** How many variables point to the buffer [b]. *)
Definition refs (b : loc) (m : gmap loc (option loc)) : Z :=
  Z.of_nat (length (filter (fun kv => kv.2 = Some b) (map_to_list m))).
Definition ind (p : option loc) (b : loc) : Z := if decide (p = Some b) then 1 else 0.

Definition bok (x : BufferT) : Prop := buf_ok x /\ capacity_ x < 2 ^ 62.

(** Counts are right, buffers are in order, no buffer outlives its last owner
    (except the one just made, [fresh_one]), and no pointer dangles. *)
Record winv (fresh_one : option loc) (w : world) : Prop := {
  wi_bufs b n x : bufs w !! b = Some (n, x) -> n = refs b (cows w) /\ bok x /\ (0 < n \/ fresh_one = Some b);
  wi_cows v b : cows w !! v = Some (Some b) -> is_Some (bufs w !! b);
}.

Lemma ind_same b : ind (Some b) b = 1.
Proof. unfold ind. by rewrite decide_True. Qed.

(** The bytes of a variable. *)
Definition val (w : world) (v : loc) : option (list cell) :=
  p ← cows w !! v;
  match p with None => Some [] | Some b => x ← bufs w !! b; Some (contents x.2) end.

Lemma refs_insert_new b v p m : m !! v = None -> refs b (<[v := p]> m) = refs b m + ind p b.
Proof.
  intros Hv. unfold refs, ind. rewrite map_to_list_insert by done. rewrite filter_cons. cbn. 
  destruct (decide (p = Some b)); cbn; lia.
Qed.
Lemma refs_delete b v p m : m !! v = Some p -> refs b (delete v m) = refs b m - ind p b.
Proof.
  intros Hv. rewrite <- (insert_delete_id m v p) at 2 by done. 
  rewrite refs_insert_new by (apply lookup_delete_eq). lia.
Qed.
Lemma refs_replace b v p q m : m !! v = Some q -> refs b (<[v := p]> m) = refs b m + ind p b - ind q b.
Proof.
  intros Hv. rewrite <- (insert_delete_eq m v p). rewrite refs_insert_new by (apply lookup_delete_eq).
  rewrite (refs_delete b v q) by done. lia.
Qed.
Lemma refs_nonneg b m : 0 <= refs b m.
Proof. unfold refs. lia. Qed.
Lemma refs_pos b v m : m !! v = Some (Some b) -> 1 <= refs b m.
Proof.
  intros Hv. pose proof (refs_delete b v _ m Hv) as H. pose proof (refs_nonneg b (delete v m)).
  unfold ind in H. rewrite decide_True in H by done. lia.
Qed.
Lemma refs_unique b v u m : refs b m = 1 -> m !! v = Some (Some b) -> m !! u = Some (Some b) -> u = v.
Proof.
  intros H1 Hv Hu. destruct (decide (u = v)) as [|Hne]; [done|].
  pose proof (refs_delete b v _ m Hv) as H. unfold ind in H. rewrite decide_True in H by done.
  pose proof (refs_pos b u (delete v m)) as Hp. rewrite lookup_delete_ne in Hp by done. specialize (Hp Hu). lia.
Qed.
Lemma refs_zero b m : (forall v, m !! v <> Some (Some b)) -> refs b m = 0.
Proof.
  intros Hm. unfold refs. rewrite filter_none; [done|]. apply Forall_forall. intros [v p] Hv Hp. cbn in Hp. subst p.
  apply elem_of_map_to_list in Hv. by apply (Hm v).
Qed.

Lemma buffer_ok_run w v p : cows w !! v = Some p -> buffer_ v w = Ret (p, w).
Proof. intros Hv. unfold buffer_. run. by rewrite Hv. Qed.
Lemma deref_run w b x : bufs w !! b = Some x -> deref b w = Ret (x, w).
Proof. intros Hb. unfold deref. run. by rewrite Hb. Qed.

(** *** Counting *)

Lemma add_ref_run w p : (forall b, p = Some b -> is_Some (bufs w !! b)) ->
  exists B, add_ref p w = Ret (tt, set_bufs B w) /\
    forall b, B !! b = (fun x => (x.1 + ind p b, x.2)) <$> bufs w !! b.
Proof.
  intros Hp. destruct p as [b0|]; cbn.
  - destruct (Hp b0 eq_refl) as [x Hx]. unfold AddRef. step (deref_run _ _ _ Hx). eexists. split; [done|].
    intros b. unfold ind. destruct (decide (b0 = b)) as [->|Hne].
    + rewrite lookup_insert_eq, Hx, decide_True by done. done.
    + rewrite lookup_insert_ne, decide_False by naive_solver. destruct (bufs w !! b) as [[n y]|]; cbn; [|done]. by rewrite Z.add_0_r.
  - exists (bufs w). split; [by destruct w|]. intros b. destruct (bufs w !! b) as [[n y]|]; cbn; [|done]. by rewrite Z.add_0_r.
Qed.

Definition dropped (q : option loc) (b : loc) (x : Z * BufferT) : option (Z * BufferT) :=
  if decide (q = Some b) then if x.1 - 1 =? 0 then None else Some (x.1 - 1, x.2) else Some x.

Lemma release_run w q : (forall b, q = Some b -> is_Some (bufs w !! b)) ->
  exists B, release q w = Ret (tt, set_bufs B w) /\ forall b, B !! b = bufs w !! b ≫= dropped q b.
Proof.
  intros Hq. destruct q as [b0|]; cbn.
  - destruct (Hq b0 eq_refl) as [x Hx]. unfold Release. step (deref_run _ _ _ Hx).
    destruct (x.1 - 1 =? 0) eqn:E; (eexists; split; [done|]); intros b; unfold dropped;
      (destruct (decide (b0 = b)) as [->|Hne];
       [rewrite ?lookup_delete_eq, ?lookup_insert_eq, Hx; cbn; rewrite decide_True, E by done; done
       |rewrite ?lookup_delete_ne, ?lookup_insert_ne by done; destruct (bufs w !! b); cbn; [|done]; rewrite decide_False by naive_solver; done]).
  - exists (bufs w). split; [by destruct w|]. intros b. by destruct (bufs w !! b).
Qed.

(** The state after one pointer to [p] was added and one to [q] removed, counts
    included. *)
Lemma relink_ok e w m p q B : winv e w -> e = None \/ e = p ->
  (forall b, refs b m = refs b (cows w) + ind p b - ind q b) ->
  (forall u b, m !! u = Some (Some b) -> is_Some (bufs w !! b)) ->
  (forall b, B !! b = ((fun x => (x.1 + ind p b, x.2)) <$> bufs w !! b) ≫= dropped q b) ->
  winv None (World B m) /\
  (forall b n x, B !! b = Some (n, x) -> exists n0, bufs w !! b = Some (n0, x)).
Proof.
  intros [Hb Hc] He Hm Hp HB.
  assert (Hback : forall b n x, B !! b = Some (n, x) ->
    exists n0, bufs w !! b = Some (n0, x) /\ n = n0 + ind p b - ind q b /\ (ind q b = 1 -> n <> 0)).
  { intros b n x Hx. rewrite HB in Hx. destruct (bufs w !! b) as [[n0 y]|]; [|done]. cbn in Hx. unfold dropped in Hx. cbn in Hx.
    unfold ind at 2 3. destruct (decide (q = Some b)); [destruct (Z.eqb_spec (n0 + ind p b - 1) 0); [done|]|];
      injection Hx as <- <-; exists n0; split_and!; try done; lia. }
  split; [split; cbn|].
  - intros b n x Hx. destruct (Hback b n x Hx) as (n0 & H0 & -> & Hnz). destruct (Hb _ _ _ H0) as (Hr & Hok & Hpos).
    pose proof (refs_nonneg b m) as Hn1. pose proof (refs_nonneg b (cows w)). rewrite Hm in Hn1.
    split_and!; [rewrite Hm; lia|done|left]. unfold ind in *.
    destruct (decide (p = Some b)), (decide (q = Some b)); try specialize (Hnz eq_refl); try lia.
    destruct Hpos as [?|Hf]; [lia|]. naive_solver.
  - intros u b Hu. destruct (Hp u b Hu) as [[n x] Hx]. rewrite HB, Hx. cbn. unfold dropped. cbn.
    destruct (decide (q = Some b)) as [->|]; [|by eexists].
    destruct (Z.eqb_spec (n + ind p b - 1) 0) as [H0|]; [|by eexists]. exfalso.
    destruct (Hb _ _ _ Hx) as (-> & _). apply refs_pos in Hu. rewrite Hm, ind_same in Hu. lia.
  - intros b n x Hx. destruct (Hback b n x Hx) as (n0 & H0 & _). by exists n0.
Qed.

(** *** Changing a pointer *)

(** [w'] keeps the invariant, gives [v] the bytes [cs], and leaves every other
    variable as it is. *)
Record post (w w' : world) (v : loc) (cs : list cell) : Prop := {
  po_inv : winv None w';
  po_val : val w' v = Some cs;
  po_others u : u <> v -> val w' u = val w u;
}.
Definition owned (w : world) (v b : loc) (x : BufferT) : Prop :=
  cows w !! v = Some (Some b) /\ bufs w !! b = Some (1, x).

Lemma val_some w v b n x : cows w !! v = Some (Some b) -> bufs w !! b = Some (n, x) -> val w v = Some (contents x).
Proof. intros Hv Hb. unfold val. rewrite Hv. cbn. by rewrite Hb. Qed.
Lemma val_none w v : cows w !! v = Some None -> val w v = Some [].
Proof. intros Hv. unfold val. by rewrite Hv. Qed.

(** Two worlds in which [u] has the same pointer and the same buffer. *)
Lemma val_same w w' u : cows w' !! u = cows w !! u ->
  (forall b, cows w !! u = Some (Some b) -> exists n n' x, bufs w !! b = Some (n, x) /\ bufs w' !! b = Some (n', x)) ->
  val w' u = val w u.
Proof.
  intros Hu Hb. unfold val. rewrite Hu. destruct (cows w !! u) as [[b|]|]; [|done..]. cbn.
  destruct (Hb b eq_refl) as (n & n' & x & -> & ->). done.
Qed.

(** Pointers after [v] was set. *)
Lemma linked e w v p u b : winv e w -> (forall b, p = Some b -> is_Some (bufs w !! b)) ->
  <[v := p]> (cows w) !! u = Some (Some b) -> is_Some (bufs w !! b).
Proof.
  intros Hw Hp Hu. destruct (decide (u = v)) as [->|Hne].
  - rewrite lookup_insert_eq in Hu. injection Hu as ->. by apply Hp.
  - rewrite lookup_insert_ne in Hu by done. by apply (wi_cows _ _ Hw u).
Qed.

Lemma assign_ok e w v p q : winv e w -> cows w !! v = Some q -> e = None \/ e = p ->
  (forall b, p = Some b -> is_Some (bufs w !! b)) ->
  exists w', assign v p w = Ret (tt, w') /\ winv None w' /\ cows w' = <[v := p]> (cows w) /\
    (forall b n x, bufs w' !! b = Some (n, x) -> exists n0, bufs w !! b = Some (n0, x)) /\
    (forall u, u <> v -> val w' u = val w u).
Proof.
  intros Hw Hv He Hp. unfold assign. destruct (add_ref_run w p Hp) as (B1 & H1 & HB1). step H1.
  rewrite (M_bind_eq _ _ _ _ _ (buffer_ok_run (set_bufs B1 w) v q Hv)).
  destruct (release_run (set_bufs B1 w) q) as (B2 & H2 & HB2).
  { intros b ->. cbn. rewrite HB1. destruct (wi_cows _ _ Hw _ _ Hv) as [x ->]. by eexists. }
  step H2. eexists. split; [done|]. cbn in HB2.
  assert (HB : forall b, B2 !! b = ((fun x => (x.1 + ind p b, x.2)) <$> bufs w !! b) ≫= dropped q b).
  { intros b. by rewrite HB2, HB1. }
  destruct (relink_ok e w (<[v := p]> (cows w)) p q B2 Hw He) as [Hw' Hback]; [|intros u b; by eapply linked|done|].
  { intros b. by apply refs_replace. }
  split_and!; [exact Hw'|done|exact Hback|]. intros u Hu. apply val_same; cbn; [by rewrite lookup_insert_ne|].
  intros b Hb. destruct (wi_cows _ _ Hw' u b) as [[n' x] Hx]; [cbn; by rewrite lookup_insert_ne|].
  cbn in Hx. destruct (Hback _ _ _ Hx) as [n Hn]. by exists n, n', x.
Qed.

Lemma new_object_ok w x : winv None w -> bok x ->
  exists b, new_object (Ret x) w = Ret (b, set_bufs (<[b := (0, x)]> (bufs w)) w) /\ bufs w !! b = None /\
    winv (Some b) (set_bufs (<[b := (0, x)]> (bufs w)) w).
Proof.
  intros [Hb Hc] Hx. set (b := fresh (dom (bufs w))). assert (bufs w !! b = None) as Hf by apply not_elem_of_dom, is_fresh.
  exists b. split_and!; [done..|]. split; cbn.
  - intros b' n y Hy. destruct (decide (b' = b)) as [->|Hne].
    + rewrite lookup_insert_eq in Hy. injection Hy as <- <-. split_and!; [|done|by right].
      symmetry. apply refs_zero. intros v Hv. apply Hc in Hv as [y Hy]. congruence.
    + rewrite lookup_insert_ne in Hy by done. apply Hb in Hy as (? & ? & [?|?]); [|done]. split_and!; [done..|by left].
  - intros v b' Hv. destruct (decide (b' = b)) as [->|Hne]; [rewrite lookup_insert_eq; by eexists|].
    rewrite lookup_insert_ne by done. by apply (Hc v).
Qed.

(** A new buffer for [v]. *)
Lemma own_new w v q x : winv None w -> cows w !! v = Some q -> bok x ->
  exists b w', (b ← new_object (Ret x); assign v (Some b)) w = Ret (tt, w') /\ owned w' v b x /\
    post w w' v (contents x) /\ cows w' = <[v := Some b]> (cows w) /\ bufs w !! b = None /\
    (forall b' n y, bufs w' !! b' = Some (n, y) -> b' = b \/ exists n', bufs w !! b' = Some (n', y)).
Proof.
  intros Hw Hv Hx. destruct (new_object_ok w x Hw Hx) as (b & Hn & Hf & Hw1).
  set (w1 := set_bufs (<[b := (0, x)]> (bufs w)) w) in *.
  destruct (assign_ok (Some b) w1 v (Some b) q Hw1 Hv) as (w' & Ha & Hw' & Hc' & Hback & Hval);
    [by right|intros ? [= <-]; cbn; rewrite lookup_insert_eq; by eexists|].
  exists b, w'. step Hn. assert (cows w' !! v = Some (Some b)) as Hv' by (rewrite Hc'; apply lookup_insert_eq).
  destruct (wi_cows _ _ Hw' _ _ Hv') as [[n y] Hy]. destruct (Hback _ _ _ Hy) as [n0 H0]. cbn in H0.
  rewrite lookup_insert_eq in H0. injection H0 as _ <-.
  assert (n = 1) as ->.
  { pose proof (wi_bufs _ _ Hw' _ _ _ Hy) as [-> _]. rewrite Hc'. cbn. rewrite (refs_replace b v _ q) by done.
    rewrite ind_same, refs_zero. 2: { intros u Hu. apply (wi_cows _ _ Hw) in Hu as [? ?]. congruence. }
    unfold ind. rewrite decide_False; [done|]. intros ->. apply (wi_cows _ _ Hw) in Hv as [? ?]. congruence. }
  split_and!; [done|done| |exact Hc'|done|].
  - split; [done|by eapply val_some|]. intros u Hu. rewrite Hval by done.
    apply val_same; [done|]. intros b' Hb'. destruct (wi_cows _ _ Hw _ _ Hb') as [[n y] Hby]. exists n, n, y. split; [done|].
    cbn. rewrite lookup_insert_ne; [done|]. congruence.
  - intros b' n y Hby. destruct (Hback _ _ _ Hby) as [n1 H1]. cbn in H1. destruct (decide (b' = b)) as [->|Hne]; [by left|].
    rewrite lookup_insert_ne in H1 by done. right. by eexists.
Qed.

(** A change of the buffer that only [v] owns. *)
Lemma on_owned {A} w v b x (m : M BufferT A) r x' : winv None w -> owned w v b x -> m x = Ret (r, x') -> bok x' ->
  exists w', on_buffer b m w = Ret (r, w') /\ owned w' v b x' /\ post w w' v (contents x') /\ cows w' = cows w.
Proof.
  intros [Hb Hc] [Hv Hx] Hm Hok. unfold on_buffer. step (deref_run _ _ _ Hx). cbn [fst snd].
  rewrite (M_bind_lift (r, x')) by exact Hm. cbn [fst snd]. rewrite M_bind_modify. eexists. split; [done|].
  assert (owned (set_bufs (<[b := (1, x')]> (bufs w)) w) v b x') as Ho by (split; [done|apply lookup_insert_eq]).
  split_and!; [done| |done]. split; [split; cbn| |].
  - intros b' n y Hy. destruct (decide (b' = b)) as [->|Hne].
    + rewrite lookup_insert_eq in Hy. injection Hy as <- <-. apply Hb in Hx as (? & _ & ?). by split_and!.
    + rewrite lookup_insert_ne in Hy by done. by apply Hb in Hy.
  - intros u b' Hu. destruct (decide (b' = b)) as [->|Hne]; [rewrite lookup_insert_eq; by eexists|].
    rewrite lookup_insert_ne by done. by apply (Hc u).
  - destruct Ho. by eapply val_some.
  - intros u Hu. apply val_same; [done|]. intros b' Hb'. destruct (Hc _ _ Hb') as [[n y] Hy].
    exists n, n, y. split; [done|]. cbn. rewrite lookup_insert_ne; [done|]. intros <-.
    apply Hb in Hx as (Hr & _). symmetry in Hr. by destruct Hu, (refs_unique b v u (cows w) Hr Hv Hb').
Qed.

(** *** New buffers *)

Lemma capacity_ctor_ok n c : 0 <= n -> n < 2 ^ 62 -> c < 2 ^ 62 ->
  exists x, BufferT_capacity n c = Ret x /\ bok x /\ size_ x = n /\ capacity_ x = Z.max n c /\ freed x = [] /\
    default [] (data_ x) = repeat None (Z.to_nat (Z.max n c)).
Proof.
  intros Hn Hn' Hc. unfold BufferT_capacity, new_array. destruct (Z.ltb_spec 0 (Z.max n c)).
  - rewrite (proj2 (Z.ltb_lt _ _)) by lia. eexists. split; [done|]. split_and!; try done. split; [|cbn; lia].
    split; cbn; [lia|]. rewrite repeat_length. lia.
  - eexists. split; [done|]. split_and!; try done; cbn; [split; [split; cbn; lia|cbn; lia]|].
    by replace (Z.max n c) with 0 by lia.
Qed.

Lemma fill_ok x data n : bok x -> size_ x = n -> 0 <= n <= Z.of_nat (length data) ->
  exists d, store (data_ x) 0 (take (Z.to_nat n) data) = Ret d /\ bok (set_data d x) /\
    contents (set_data d x) = take (Z.to_nat n) data.
Proof.
  intros [[Hs Hd] Hc] Hx Hn. destruct (data_ x) as [l|] eqn:Ed.
  - rewrite store_cells by (rewrite ?length_take; lia). eexists. split; [done|].
    split; [split; [split; cbn|cbn]|]; [lia| |lia|].
    + rewrite length_splice; rewrite ?length_take; lia.
    + unfold contents. cbn. rewrite Hx.
      pose proof (take_splice_end l 0 (take (Z.to_nat n) data)) as Ht. rewrite length_take in Ht. cbn in Ht.
      rewrite Nat.min_l in Ht by lia. apply Ht. lia.
  - assert (n = 0) as -> by lia. exists None. split; [done|]. split; [split; [split; cbn; lia|cbn; lia]|].
    unfold contents. cbn. by rewrite take_nil.
Qed.

Lemma data_ctor_ok data n c : 0 <= n <= Z.of_nat (length data) -> n < 2 ^ 62 -> c < 2 ^ 62 ->
  exists x, BufferT_data_capacity data n c = Ret x /\ bok x /\ contents x = take (Z.to_nat n) data /\
    size_ x = n /\ capacity_ x = Z.max n c /\ freed x = [].
Proof.
  intros Hn Hn' Hc. unfold BufferT_data_capacity.
  destruct (capacity_ctor_ok n c) as (x & -> & Hx & Hs & Hcap & Hf & _); [lia..|]. cbn.
  rewrite load_cells by lia. cbn. destruct (fill_ok x data n Hx Hs Hn) as (d & -> & Hd & Hcont). cbn.
  eexists. split; [done|]. by split_and!.
Qed.

Lemma winv_buf w v b : winv None w -> cows w !! v = Some (Some b) ->
  exists n x, bufs w !! b = Some (n, x) /\ 1 <= n /\ bok x /\ val w v = Some (contents x).
Proof.
  intros Hw Hv. destruct (wi_cows _ _ Hw _ _ Hv) as [[n x] Hx]. exists n, x.
  destruct (wi_bufs _ _ Hw _ _ _ Hx) as (-> & Hok & [?|?]); [|done]. split_and!; [done|lia|done|by eapply val_some].
Qed.

Lemma has_one_run w b n x : bufs w !! b = Some (n, x) -> HasOneRef b w = Ret (n =? 1, w).
Proof. intros Hb. unfold HasOneRef. by step (deref_run _ _ _ Hb). Qed.
Lemma its_buffer_run w v b : cows w !! v = Some (Some b) -> its_buffer v w = Ret (b, w).
Proof. intros Hv. unfold its_buffer. by step (buffer_ok_run _ _ _ Hv). Qed.

Lemma post_refl w v b n x : winv None w -> cows w !! v = Some (Some b) -> bufs w !! b = Some (n, x) -> post w w v (contents x).
Proof. intros. split; [done|by eapply val_some|done]. Qed.
Lemma post_trans w1 w2 w3 v c2 c3 : post w1 w2 v c2 -> post w2 w3 v c3 -> post w1 w3 v c3.
Proof. intros [? ? H1] [? ? H2]. split; [done..|]. intros u Hu. by rewrite H2, H1. Qed.

(** Afterwards [v] owns its buffer alone, with the same bytes; what the other
    variables point to is still there. *)
Lemma clone_ok w v b n x c : winv None w -> cows w !! v = Some (Some b) -> bufs w !! b = Some (n, x) -> c < 2 ^ 62 ->
  exists w' b' x', CloneDataIfReferenced v b c w = Ret (tt, w') /\ owned w' v b' x' /\ bok x' /\
    post w w' v (contents x) /\ contents x' = contents x /\ size_ x' = size_ x /\
    capacity_ x' = (if n =? 1 then capacity_ x else Z.max (size_ x) c) /\
    (if n =? 1 then w' = w /\ b' = b /\ x' = x else
       cows w' = <[v := Some b']> (cows w) /\ bufs w !! b' = None /\
       (forall a m y, bufs w' !! a = Some (m, y) -> a = b' \/ exists m', bufs w !! a = Some (m', y))).
Proof.
  intros Hw Hv Hx Hc. unfold CloneDataIfReferenced. step (has_one_run _ _ _ _ Hx).
  destruct (wi_bufs _ _ Hw _ _ _ Hx) as (_ & Hok & _).
  destruct (Z.eqb_spec n 1) as [->|Hn].
  { exists w, b, x. split_and!; try done. by eapply post_refl. }
  step (deref_run _ _ _ Hx). cbn [snd]. pose proof Hok as [[Hs Hd] Hcap].
  destruct (data_ctor_ok (default [] (data_ x)) (size_ x) c) as (x' & He & Hx' & Hcont & Hs' & Hcap' & _); [|lia..|].
  { destruct (data_ x); cbn in *; lia. }
  rewrite He. destruct (own_new w v (Some b) x' Hw Hv Hx') as (b' & w' & Ha & Ho & Hp & Hcw & Hf & Hback).
  exists w', b', x'. fold (contents x) in Hcont. rewrite Hcont in Hp. split_and!; try done.
Qed.

(** ** The operations act on the bytes of their variable alone *)

Lemma val_inv w v vs : winv None w -> val w v = Some vs ->
  (cows w !! v = Some None /\ vs = []) \/
  exists b n x, cows w !! v = Some (Some b) /\ bufs w !! b = Some (n, x) /\ 1 <= n /\ bok x /\ contents x = vs.
Proof.
  intros Hw Hv. destruct (cows w !! v) as [[b|]|] eqn:Ec; [right|left|].
  - destruct (winv_buf w v b Hw Ec) as (n & x & Hx & Hn & Hok & Hval). exists b, n, x. split_and!; try done. congruence.
  - rewrite (val_none _ _ Ec) in Hv. by injection Hv.
  - unfold val in Hv. by rewrite Ec in Hv.
Qed.

Lemma grown_lt cap n : 0 <= cap < 2 ^ 62 -> n < 2 ^ 61 -> grown true cap n < 2 ^ 62.
Proof. intros Hc Hn. unfold grown. destruct (Z.leb_spec n cap); [lia|]. Z.to_euclidean_division_equations; lia. Qed.

Lemma bok_size x : bok x -> 0 <= size_ x <= capacity_ x /\ capacity_ x < 2 ^ 62 /\ Z.of_nat (length (contents x)) = size_ x.
Proof. intros [Hok Hc]. split_and!; try apply Hok; [done|by apply length_contents]. Qed.

(** A new buffer for a variable without one. *)
Lemma assign_new w v r x : winv None w -> cows w !! v = Some None -> r = Ret x -> bok x ->
  exists w', (b ← new_object r; assign v (Some b)) w = Ret (tt, w') /\ post w w' v (contents x).
Proof. intros Hw Hv -> Hx. destruct (own_new w v None x Hw Hv Hx) as (b & w' & He & _ & Hp & _). by exists w'. Qed.

(** A change of the buffer of [v] after [v] made it its own. *)
Lemma change_owned w v b x (m : M BufferT unit) x' : winv None w -> owned w v b x ->
  m x = Ret (tt, x') -> bok x' ->
  exists w', (b ← its_buffer v; on_buffer b m) w = Ret (tt, w') /\ post w w' v (contents x').
Proof.
  intros Hw Ho Hm Hx'. step (its_buffer_run w v b (proj1 Ho)).
  destruct (on_owned w v b x m tt x' Hw Ho Hm Hx') as (w' & He & _ & Hp & _). by exists w'.
Qed.

Definition resized (n : Z) (vs vs' : list cell) : Prop :=
  Z.of_nat (length vs') = n /\ take (length vs) vs' = take (Z.to_nat n) vs.

Lemma resize_ok x n : bok x -> 0 <= n < 2 ^ 61 ->
  exists x', Buffer.SetSize false n x = Ret (tt, x') /\ bok x' /\ resized n (contents x) (contents x').
Proof.
  intros Hx Hn. destruct (bok_size x Hx) as (Hs & Hc & Hl). destruct Hx as [Hok _].
  destruct (SetSize_ok false x n Hok) as (x' & He & Hok' & Hs' & Ht & Hcap & _); [lia|].
  exists x'. split; [done|]. split; [split; [done|rewrite Hcap; apply grown_lt; lia]|].
  pose proof (length_contents x' Hok') as Hl'. split; [lia|]. rewrite <- Ht.
  destruct (Z.min_spec n (size_ x)) as [[? ->]|[? ->]]; [rewrite !take_ge by lia; done|f_equal; lia].
Qed.

Lemma SetSize_post w v n vs : winv None w -> val w v = Some vs -> 0 <= n < 2 ^ 61 ->
  exists w' vs', SetSize v n w = Ret (tt, w') /\ post w w' v vs' /\ resized n vs vs'.
Proof.
  intros Hw Hv Hn. unfold SetSize. destruct (val_inv w v vs Hw Hv) as [[Hc ->]|(b & m & x & Hc & Hx & Hm & Hok & <-)];
    step (buffer_ok_run _ _ _ Hc).
  { destruct (Z.ltb_spec 0 n).
    - destruct (capacity_ctor_ok n n) as (x & He & Hx & Hs & _); [lia..|].
      destruct (assign_new w v _ x Hw Hc He Hx) as (w' & He' & Hp). exists w', (contents x). split_and!; [done..|].
      destruct (bok_size x Hx) as (_ & _ & Hl). split; [lia|]. by rewrite take_nil.
    - exists w, []. split; [done|]. split; [by split; [|apply val_none|]|]. split; [cbn; lia|by rewrite !take_nil]. }
  step (has_one_run _ _ _ _ Hx). destruct (bok_size x Hok) as (Hs & Hcap & Hl).
  assert (exists w1 b1 x1, (if m =? 1 then mret tt else
      x ← deref b;
      b' ← new_object (BufferT_data_capacity (default [] (data_ x.2)) (Z.min (size_ x.2) n) (Z.max (capacity_ x.2) n));
      assign v (Some b')) w = Ret (tt, w1) /\ owned w1 v b1 x1 /\ bok x1 /\
      post w w1 v (contents x1) /\ take (Z.to_nat n) (contents x1) = take (Z.to_nat n) (contents x) /\
      Z.min n (size_ x1) = Z.min n (size_ x)) as (w1 & b1 & x1 & He & Ho & Hok1 & Hp & Ht & Hmin).
  { destruct (Z.eqb_spec m 1) as [->|Hm1].
    - exists w, b, x. split_and!; try done.
    - step (deref_run _ _ _ Hx). cbn [snd].
      destruct (data_ctor_ok (default [] (data_ x)) (Z.min (size_ x) n) (Z.max (capacity_ x) n)) as (x1 & -> & Hok1 & Hcont & Hs1 & _); [|lia..|].
      { destruct Hok as [[_ Hd] _]. destruct (data_ x); cbn in *; lia. }
      destruct (own_new w v (Some b) x1 Hw Hc Hok1) as (b1 & w1 & He & Ho & Hp & _). exists w1, b1, x1.
      split_and!; try done; [|lia]. rewrite Hcont. unfold contents. rewrite !take_take. f_equal. lia. }
  step He. destruct (resize_ok x1 n Hok1 Hn) as (x2 & He2 & Hok2 & Hr2).
  destruct (change_owned w1 v b1 x1 _ x2 (po_inv _ _ _ _ Hp) Ho He2 Hok2) as (w2 & He3 & Hp3).
  exists w2, (contents x2). split_and!; [done|by eapply post_trans|]. destruct Hr2 as [Hl2 Ht2]. split; [done|].
  destruct (bok_size x1 Hok1) as (Hs1 & _ & Hl1).
  destruct (Z.le_gt_cases n (size_ x)).
  - rewrite <- Ht, <- Ht2. rewrite !take_ge by lia. done.
  - replace (length (contents x)) with (length (contents x1)) by lia. by rewrite Ht2, Ht.
Qed.

Lemma EnsureCapacity_post w v n vs : winv None w -> val w v = Some vs -> n < 2 ^ 61 ->
  exists w', EnsureCapacity v n w = Ret (tt, w') /\ post w w' v vs.
Proof.
  intros Hw Hv Hn. unfold EnsureCapacity. destruct (val_inv w v vs Hw Hv) as [[Hc ->]|(b & m & x & Hc & Hx & Hm & Hok & <-)];
    step (buffer_ok_run _ _ _ Hc).
  { destruct (Z.ltb_spec 0 n).
    - destruct (capacity_ctor_ok 0 n) as (x & He & Hx & Hs & _); [lia..|].
      destruct (assign_new w v _ x Hw Hc He Hx) as (w' & He' & Hp). exists w'. split; [done|].
      by assert (contents x = []) as <- by (unfold contents; by rewrite Hs).
    - exists w. split; [done|]. by split; [|apply val_none|]. }
  step (deref_run _ _ _ Hx). cbn [snd]. destruct (bok_size x Hok) as (Hs & Hcap & Hl).
  destruct (Z.leb_spec n (capacity_ x)); [exists w; split; [done|by eapply post_refl]|].
  destruct (clone_ok w v b m x (Z.max (capacity_ x) n) Hw Hc Hx) as (w1 & b1 & x1 & He & Ho & Hok1 & Hp & Hcont & Hs1 & _); [lia|].
  step He. destruct (ensure_ok false x1 n false (proj1 Hok1)) as (x2 & He2 & Hok2 & Hs2 & Hcont2 & Hcap2 & _); [lia|].
  destruct (bok_size x1 Hok1) as (Hs1' & Hc1' & _).
  destruct (change_owned w1 v b1 x1 _ x2 (po_inv _ _ _ _ Hp) Ho He2) as (w2 & He3 & Hp3).
  { split; [done|]. rewrite Hcap2. unfold grown. destruct (_ <=? _); lia. }
  exists w2. split; [done|]. rewrite <- Hcont, <- Hcont2. by eapply post_trans.
Qed.

Lemma Clear_post w v vs : winv None w -> val w v = Some vs ->
  exists w', Clear v w = Ret (tt, w') /\ post w w' v [].
Proof.
  intros Hw Hv. unfold Clear. destruct (val_inv w v vs Hw Hv) as [[Hc ->]|(b & m & x & Hc & Hx & Hm & Hok & <-)];
    step (buffer_ok_run _ _ _ Hc).
  { exists w. split; [done|]. by split; [|apply val_none|]. }
  step (has_one_run _ _ _ _ Hx). destruct (bok_size x Hok) as (Hs & Hcap & Hl). destruct (Z.eqb_spec m 1) as [->|Hm1].
  - destruct (Clear_ok false x (proj1 Hok)) as (x' & He & Hok' & Hcont & Hcap' & _).
    destruct (on_owned w v b x _ _ x' Hw (conj Hc Hx) He) as (w' & He' & _ & Hp & _).
    { split; [done|]. lia. }
    exists w'. rewrite Hcont in Hp. done.
  - step (deref_run _ _ _ Hx). cbn [snd]. destruct (capacity_ctor_ok 0 (capacity_ x)) as (x' & -> & Hx' & Hs' & _); [lia..|].
    destruct (own_new w v (Some b) x' Hw Hc Hx') as (b' & w' & He & _ & Hp & _). exists w'. split; [done|].
    by assert (contents x' = []) as <- by (unfold contents; by rewrite Hs').
Qed.

Lemma set_at_post w v i c vs : winv None w -> val w v = Some vs -> 0 <= i < Z.of_nat (length vs) ->
  exists w', set_at v i c w = Ret (tt, w') /\ post w w' v (<[Z.to_nat i := Some c]> vs).
Proof.
  intros Hw Hv Hi. unfold set_at, data. destruct (val_inv w v vs Hw Hv) as [[Hc ->]|(b & m & x & Hc & Hx & Hm & Hok & <-)];
    [cbn in Hi; lia|].
  destruct (bok_size x Hok) as (Hs & Hcap & Hl).
  destruct (clone_ok w v b m x (capacity_ x) Hw Hc Hx) as (w1 & b1 & x1 & He & Ho & Hok1 & Hp & Hcont & Hs1 & Hcap1 & _); [lia|].
  destruct (set_index_ok x1 i c (proj1 Hok1)) as (x2 & He2 & Hok2 & Hcont2 & Hcap2 & _); [lia|].
  destruct (bok_size x1 Hok1) as (_ & Hc1' & _).
  destruct (on_owned w1 v b1 x1 _ _ x2 (po_inv _ _ _ _ Hp) Ho He2) as (w2 & He3 & _ & Hp3 & _).
  { split; [done|]. lia. }
  exists w2. rewrite <- Hcont, <- Hcont2. split; [|by eapply post_trans].
  assert (data v w = Ret (Some b1, w1)) as Hd.
  { unfold data. step (buffer_ok_run _ _ _ Hc). step (deref_run _ _ _ Hx). cbn [snd]. step He.
    by step (its_buffer_run _ _ _ (proj1 Ho)). }
  fold (data v). by step Hd.
Qed.

(** *** Copying bytes in *)

(** [n] bytes at the source are [cs]: memory of the caller, or the buffer of
    another variable. *)
Definition source_ok (w : world) (v : loc) (s : csrc) (n : Z) (cs : list cell) : Prop :=
  match s with
  | CBytes cs0 => n <= Z.of_nat (length cs0) /\ cs = take (Z.to_nat n) cs0
  | CPtr b k => exists u m y, u <> v /\ cows w !! u = Some (Some b) /\ bufs w !! b = Some (m, y) /\
      k = length (freed y) /\ n <= size_ y /\ cs = take (Z.to_nat n) (contents y)
  end.

Lemma source_block y n : bok y -> n <= size_ y ->
  n <= Z.of_nat (length (default [] (data_ y))) /\ take (Z.to_nat n) (contents y) = take (Z.to_nat n) (default [] (data_ y)).
Proof.
  intros Hy Hn. destruct (bok_size y Hy) as (Hs & _ & Hl). unfold contents in *. rewrite length_take in Hl.
  rewrite take_take, Nat.min_l by lia. split; [lia|done].
Qed.

Lemma source_cells_ok w v s n cs : winv None w -> source_ok w v s n cs ->
  exists cs0, source_cells s w = Ret (cs0, w) /\ n <= Z.of_nat (length cs0) /\ cs = take (Z.to_nat n) cs0.
Proof.
  intros Hw Hs. destruct s as [cs0|b k]; cbn in Hs; [by exists cs0|].
  destruct Hs as (u & m & y & _ & Hu & Hy & -> & Hn & ->). exists (default [] (data_ y)).
  destruct (wi_bufs _ _ Hw _ _ _ Hy) as (_ & Hok & _). destruct (source_block y n Hok Hn) as [Hl Ht].
  split_and!; [|done..]. cbn [source_cells]. step (deref_run _ _ _ Hy). cbn. unfold lift. by rewrite decide_True by done.
Qed.

(** The source as seen from the buffer that [v] alone owns. *)
Lemma resolve_ok w w1 v s n cs b1 x1 : source_ok w v s n cs -> winv None w1 -> owned w1 v b1 x1 ->
  (forall u, u <> v -> cows w1 !! u = cows w !! u) ->
  (forall a m y, bufs w1 !! a = Some (m, y) -> a <> b1 -> exists m', bufs w !! a = Some (m', y)) ->
  exists cs0, resolve s b1 w1 = Ret (Bytes cs0, w1) /\ n <= Z.of_nat (length cs0) /\ cs = take (Z.to_nat n) cs0.
Proof.
  intros Hs Hw1 [Hv1 Hb1] Hcow Hback. destruct s as [cs0|b k]; cbn in Hs; [by exists cs0|].
  destruct Hs as (u & m & y & Huv & Hu & Hy & -> & Hn & ->). cbn [resolve]. rewrite <- Hcow in Hu by done.
  assert (b <> b1) as Hne.
  { intros ->. destruct (wi_bufs _ _ Hw1 _ _ _ Hb1) as (Hr & _). symmetry in Hr. by destruct Huv, (refs_unique b1 v u (cows w1) Hr Hv1 Hu). }
  rewrite decide_False by done. destruct (wi_cows _ _ Hw1 _ _ Hu) as [[m1 y1] Hy1].
  destruct (Hback _ _ _ Hy1 Hne) as [m2 Hy2]. rewrite Hy in Hy2. injection Hy2 as _ <-.
  destruct (wi_bufs _ _ Hw1 _ _ _ Hy1) as (_ & Hok & _). destruct (source_block y n Hok Hn) as [Hl Ht].
  exists (default [] (data_ y)). step (deref_run _ _ _ Hy1). cbn [snd]. rewrite decide_True by done. by split_and!.
Qed.

Lemma SetData_post w v cs vs : winv None w -> val w v = Some vs -> Z.of_nat (length cs) < 2 ^ 61 ->
  exists w', SetData v (CBytes cs) (Z.of_nat (length cs)) w = Ret (tt, w') /\ post w w' v cs.
Proof.
  intros Hw Hv Hn. unfold SetData. set (n := Z.of_nat (length cs)).
  assert (take (Z.to_nat n) cs = cs) as Htk by (apply take_ge; lia).
  destruct (val_inv w v vs Hw Hv) as [[Hc ->]|(b & m & x & Hc & Hx & Hm & Hok & <-)];
    step (buffer_ok_run _ _ _ Hc).
  { destruct (Z.ltb_spec 0 n).
    - rewrite (M_bind_eq _ _ w cs w) by done.
      destruct (data_ctor_ok cs n n) as (x & He & Hx & Hcont & _); [lia..|].
      destruct (assign_new w v (BufferT_data cs n) x Hw Hc He Hx) as (w' & He' & Hp). exists w'. split; [done|].
      by rewrite Hcont, Htk in Hp.
    - assert (cs = []) as -> by (destruct cs; [done|cbn in *; lia]).
      destruct (assign_ok None w v None None Hw Hc) as (w' & He & Hw' & Hc' & _ & Hval); [by left|done|].
      exists w'. split; [done|]. split; [done| |done]. apply val_none. rewrite Hc'. apply lookup_insert_eq. }
  step (has_one_run _ _ _ _ Hx). destruct (bok_size x Hok) as (Hs & Hcap & Hl). destruct (Z.eqb_spec m 1) as [->|Hm1].
  - rewrite (M_bind_eq _ _ w (Bytes cs) w) by done.
    destruct (SetData_ok false x (Bytes cs) n cs (proj1 Hok)) as (x' & He & Hok' & Hcont & Hcap' & _); [lia|done|by split; [lia|]|].
    destruct (on_owned w v b x _ _ x' Hw (conj Hc Hx) He) as (w' & He' & _ & Hp & _).
    { split; [done|]. rewrite Hcap'. apply grown_lt; lia. }
    exists w'. rewrite Hcont in Hp. done.
  - step (deref_run _ _ _ Hx). rewrite (M_bind_eq _ _ w cs w) by done. cbn [snd].
    destruct (data_ctor_ok cs n (capacity_ x)) as (x' & -> & Hx' & Hcont & _); [lia..|].
    destruct (own_new w v (Some b) x' Hw Hc Hx') as (b' & w' & He & _ & Hp & _). exists w'. split; [done|].
    by rewrite Hcont, Htk in Hp.
Qed.

Lemma AppendData_post w v s n cs vs : winv None w -> val w v = Some vs -> source_ok w v s n cs -> 0 <= n ->
  Z.of_nat (length vs) + n < 2 ^ 61 ->
  exists w', AppendData v s n w = Ret (tt, w') /\ post w w' v (vs ++ cs).
Proof.
  intros Hw Hv Hs Hn Hlt. unfold AppendData.
  destruct (val_inv w v vs Hw Hv) as [[Hc ->]|(b & m & x & Hc & Hx & Hm & Hok & <-)];
    step (buffer_ok_run _ _ _ Hc).
  { destruct (source_cells_ok w v s n cs Hw Hs) as (cs0 & He0 & Hl0 & ->). step He0.
    destruct (data_ctor_ok cs0 n n) as (x & He & Hx & Hcont & _); [cbn in Hlt; lia..|].
    destruct (assign_new w v (BufferT_data cs0 n) x Hw Hc He Hx) as (w' & He' & Hp). exists w'. split; [done|].
    by rewrite Hcont in Hp. }
  step (deref_run _ _ _ Hx). cbn [snd]. destruct (bok_size x Hok) as (Hsz & Hcap & Hl). rewrite u64_small by lia.
  destruct (clone_ok w v b m x (Z.max (capacity_ x) (size_ x + n)) Hw Hc Hx)
    as (w1 & b1 & x1 & He & Ho & Hok1 & Hp & Hcont & Hs1 & Hcap1 & Hback); [lia|].
  step He. step (its_buffer_run _ _ _ (proj1 Ho)).
  destruct (resolve_ok w w1 v s n cs b1 x1 Hs (po_inv _ _ _ _ Hp) Ho) as (cs0 & Hres & Hl0 & ->).
  { intros u Hu. destruct (m =? 1); [by destruct Hback as (-> & _)|]. destruct Hback as (-> & _). by rewrite lookup_insert_ne. }
  { intros a k y Ha Hab. destruct (m =? 1); [destruct Hback as (-> & _); by eexists|].
    destruct Hback as (_ & _ & Hback). destruct (Hback _ _ _ Ha) as [|?]; [done|done]. }
  step Hres. destruct (bok_size x1 Hok1) as (Hsz1 & Hc1 & _).
  destruct (append_ok false x1 (Bytes cs0) n (take (Z.to_nat n) cs0) (proj1 Hok1)) as (x2 & He2 & Hok2 & Hcont2 & _ & Hcap2 & _);
    [lia|lia|done|].
  destruct (on_owned w1 v b1 x1 _ _ x2 (po_inv _ _ _ _ Hp) Ho He2) as (w2 & He3 & _ & Hp3 & _).
  { split; [done|]. rewrite Hcap2. apply grown_lt; lia. }
  exists w2. split; [done|]. rewrite <- Hcont, <- Hcont2. by eapply post_trans.
Qed.

Lemma AppendData_buf_post w v u vs us : winv None w -> val w v = Some vs -> val w u = Some us -> u <> v ->
  Z.of_nat (length vs) + Z.of_nat (length us) < 2 ^ 61 ->
  exists w', AppendData_buf v u w = Ret (tt, w') /\ post w w' v (vs ++ us).
Proof.
  intros Hw Hv Hu Hne Hlt. unfold AppendData_buf.
  destruct (val_inv w u us Hw Hu) as [[Hc ->]|(b & m & y & Hc & Hy & Hm & Hok & <-)]; step (buffer_ok_run _ _ _ Hc).
  - destruct (AppendData_post w v (CBytes []) 0 [] vs Hw Hv) as (w' & He & Hp); [done|lia|cbn in Hlt; lia|]. by exists w'.
  - step (deref_run _ _ _ Hy). cbn [snd]. destruct (bok_size y Hok) as (Hs & Hcap & Hl).
    apply AppendData_post; [done|done| |lia|lia]. exists u, m, y.
    split_and!; [done..|lia|]. symmetry. apply take_ge. lia.
Qed.

(** *** Copying, moving and destroying variables *)

Lemma target_of w v p vs : winv None w -> cows w !! v = Some p -> val w v = Some vs ->
  forall b, p = Some b -> is_Some (bufs w !! b).
Proof. intros Hw Hc _ b ->. by apply (wi_cows _ _ Hw v). Qed.

Lemma val_pointer w v vs : winv None w -> val w v = Some vs -> exists p, cows w !! v = Some p.
Proof. intros Hw Hv. unfold val in Hv. destruct (cows w !! v) as [p|]; [by exists p|done]. Qed.

(** Equal pointers have equal bytes, also after the counts have changed. *)
Lemma val_follow w w' v u p : winv None w' -> cows w !! u = Some p -> cows w' !! v = Some p ->
  (forall b n x, bufs w' !! b = Some (n, x) -> exists n0, bufs w !! b = Some (n0, x)) -> val w' v = val w u.
Proof.
  intros Hw' Hu Hv Hback. unfold val. rewrite Hu, Hv. destruct p as [b|]; [|done]. cbn.
  destruct (wi_cows _ _ Hw' _ _ Hv) as [[n x] Hx]. rewrite Hx. by destruct (Hback _ _ _ Hx) as [n0 ->].
Qed.

Lemma copy_assign_post w v u vs us : winv None w -> val w v = Some vs -> val w u = Some us ->
  exists w', copy_assign v u w = Ret (tt, w') /\ post w w' v us.
Proof.
  intros Hw Hv Hu. unfold copy_assign. destruct (decide (v = u)) as [->|Hne]; [by exists w|].
  destruct (val_pointer w u us Hw Hu) as [p Hp]. destruct (val_pointer w v vs Hw Hv) as [q Hq].
  step (buffer_ok_run _ _ _ Hp).
  destruct (assign_ok None w v p q Hw Hq) as (w' & He & Hw' & Hc' & Hback & Hval); [by left|by eapply target_of|].
  exists w'. split; [done|]. split; [done| |done]. rewrite <- Hu. eapply val_follow; [done|done| |done].
  rewrite Hc'. apply lookup_insert_eq.
Qed.

Lemma Cow_from_ok e w v p : winv e w -> cows w !! v = None -> e = None \/ e = p ->
  (forall b, p = Some b -> is_Some (bufs w !! b)) ->
  exists w', Cow_from v p w = Ret (tt, w') /\ winv None w' /\ cows w' = <[v := p]> (cows w) /\
    (forall b n x, bufs w' !! b = Some (n, x) -> exists n0, bufs w !! b = Some (n0, x)) /\
    (forall u, u <> v -> val w' u = val w u).
Proof.
  intros Hw Hv He Hp. unfold Cow_from. destruct (add_ref_run w p Hp) as (B & H1 & HB). step H1.
  eexists. split; [done|].
  destruct (relink_ok e w (<[v := p]> (cows w)) p None B Hw He) as [Hw' Hback].
  { intros b. rewrite refs_insert_new by done. unfold ind at 3. rewrite decide_False by done. lia. }
  { intros u b. by eapply linked. }
  { intros b. rewrite HB. destruct (bufs w !! b) as [x|]; cbn; [|done]. unfold dropped. by rewrite decide_False. }
  split_and!; [exact Hw'|done|exact Hback|]. intros u Hu. unfold val at 2.
  destruct (cows w !! u) as [q|] eqn:Eq.
  - etrans; [apply (val_follow w _ u u q Hw' Eq); [cbn; by rewrite lookup_insert_ne|done]|]. unfold val. by rewrite Eq.
  - unfold val. cbn. by rewrite lookup_insert_ne, Eq.
Qed.

Lemma Cow_copy_post w v u us : winv None w -> cows w !! v = None -> val w u = Some us ->
  exists w', Cow_copy v u w = Ret (tt, w') /\ post w w' v us.
Proof.
  intros Hw Hv Hu. destruct (val_pointer w u us Hw Hu) as [p Hp]. unfold Cow_copy. step (buffer_ok_run _ _ _ Hp).
  destruct (Cow_from_ok None w v p Hw Hv) as (w' & He & Hw' & Hc' & Hback & Hval); [by left|by eapply target_of|].
  exists w'. split; [done|]. split; [done| |done]. rewrite <- Hu. eapply val_follow; [done|done| |done].
  rewrite Hc'. apply lookup_insert_eq.
Qed.

Lemma Cow_empty_post w v : winv None w -> cows w !! v = None ->
  exists w', Cow_empty v w = Ret (tt, w') /\ post w w' v [].
Proof.
  intros Hw Hv. destruct (Cow_from_ok None w v None Hw Hv) as (w' & He & Hw' & Hc' & _ & Hval); [by left|done|].
  exists w'. split.
  - rewrite <- He. unfold Cow_from. cbn. by rewrite M_bind_mret.
  - split; [done| |done]. apply val_none. rewrite Hc'. apply lookup_insert_eq.
Qed.

(** A constructor that makes a buffer. *)
Lemma Cow_new w v x : winv None w -> cows w !! v = None -> bok x ->
  exists b w', (b ← new_object (Ret x); Cow_from v (Some b)) w = Ret (tt, w') /\ owned w' v b x /\ post w w' v (contents x).
Proof.
  intros Hw Hv Hx. destruct (new_object_ok w x Hw Hx) as (b & Hn & Hf & Hw1).
  set (w1 := set_bufs (<[b := (0, x)]> (bufs w)) w) in *.
  destruct (Cow_from_ok (Some b) w1 v (Some b) Hw1 Hv) as (w' & Ha & Hw' & Hc' & Hback & Hval);
    [by right|intros ? [= <-]; cbn; rewrite lookup_insert_eq; by eexists|].
  exists b, w'. step Hn. assert (cows w' !! v = Some (Some b)) as Hv' by (rewrite Hc'; apply lookup_insert_eq).
  destruct (wi_cows _ _ Hw' _ _ Hv') as [[n y] Hy]. destruct (Hback _ _ _ Hy) as [n0 H0]. cbn in H0.
  rewrite lookup_insert_eq in H0. injection H0 as _ <-.
  assert (n = 1) as ->.
  { pose proof (wi_bufs _ _ Hw' _ _ _ Hy) as [-> _]. rewrite Hc'. cbn. rewrite refs_insert_new by done.
    rewrite ind_same, refs_zero; [done|]. intros u Hu. apply (wi_cows _ _ Hw) in Hu as [? ?]. congruence. }
  split_and!; [done|done|]. split; [done|by eapply val_some|]. intros u Hu. rewrite Hval by done.
  apply val_same; [done|]. intros b' Hb'. destruct (wi_cows _ _ Hw _ _ Hb') as [[n y] Hby]. exists n, n, y. split; [done|].
  cbn. rewrite lookup_insert_ne; [done|]. congruence.
Qed.

Lemma Cow_size_post w v n : winv None w -> cows w !! v = None -> 0 <= n < 2 ^ 61 ->
  exists w' vs, Cow_size v n w = Ret (tt, w') /\ post w w' v vs /\ Z.of_nat (length vs) = n.
Proof.
  intros Hw Hv Hn. unfold Cow_size. destruct (Z.ltb_spec 0 n).
  - destruct (capacity_ctor_ok n n) as (x & He & Hx & Hs & _); [lia..|]. unfold BufferT_size. rewrite He.
    destruct (Cow_new w v x Hw Hv Hx) as (b & w' & He' & _ & Hp). exists w', (contents x). split_and!; [done..|].
    by destruct (bok_size x Hx) as (_ & _ & ->).
  - destruct (Cow_empty_post w v Hw Hv) as (w' & He & Hp). exists w', []. split_and!; [|done|cbn; lia].
    rewrite <- He. unfold Cow_from. cbn. by rewrite M_bind_mret.
Qed.

Lemma Cow_data_post w v cs : winv None w -> cows w !! v = None -> Z.of_nat (length cs) < 2 ^ 61 ->
  exists w', Cow_data v cs (Z.of_nat (length cs)) w = Ret (tt, w') /\ post w w' v cs.
Proof.
  intros Hw Hv Hn. set (n := Z.of_nat (length cs)) in *. unfold Cow_data, Cow_data_capacity, Cow_capacity.
  rewrite orb_diag. destruct (Z.ltb_spec 0 n).
  - destruct (capacity_ctor_ok n n) as (x & -> & Hx & Hs & _); [lia..|].
    destruct (Cow_new w v x Hw Hv Hx) as (b & w1 & He & Ho & Hp). step He. step (buffer_ok_run _ _ _ (proj1 Ho)).
    destruct (fill_ok x cs n Hx Hs) as (d & Hd & Hdx & Hcont); [lia|].
    destruct (on_owned w1 v b x (x ← get; cs ← lift (load cs n); d ← lift (store (data_ x) 0 cs); put (set_data d x)) tt
      (set_data d x) (po_inv _ _ _ _ Hp) Ho) as (w2 & He2 & _ & Hp2 & _); [|done|].
    { rewrite M_bind_get. rewrite (M_bind_lift (take (Z.to_nat n) cs)) by (apply load_cells; lia).
      by rewrite (M_bind_lift d). }
    exists w2. split; [done|]. rewrite Hcont, take_ge in Hp2 by lia. by eapply post_trans.
  - assert (cs = []) as -> by (destruct cs; [done|cbn in *; lia]).
    destruct (Cow_empty_post w v Hw Hv) as (w1 & He & Hp). exists w1. split; [|done].
    assert (Cow_from v None w = Ret (tt, w1)) as He' by (rewrite <- He; unfold Cow_from; cbn; by rewrite M_bind_mret).
    step He'. assert (cows w1 !! v = Some None) as Hc1.
    { unfold Cow_empty, modify in He. injection He as <-. apply lookup_insert_eq. }
    by step (buffer_ok_run _ _ _ Hc1).
Qed.

Lemma delete_Cow_post w v vs : winv None w -> val w v = Some vs ->
  exists w', delete_Cow v w = Ret (tt, w') /\ winv None w' /\ val w' v = None /\
    (forall u, u <> v -> val w' u = val w u).
Proof.
  intros Hw Hv. destruct (val_pointer w v vs Hw Hv) as [q Hq]. unfold delete_Cow. step (buffer_ok_run _ _ _ Hq).
  destruct (release_run w q) as (B & He & HB); [by eapply target_of|]. step He. eexists. split; [done|].
  destruct (relink_ok None w (delete v (cows w)) None q B Hw) as [Hw' Hback]; [by left| | | |].
  { intros b. rewrite (refs_delete b v q) by done. unfold ind at 2. rewrite decide_False by done. lia. }
  { intros u b Hu. apply lookup_delete_Some in Hu as [_ Hu]. by apply (wi_cows _ _ Hw u). }
  { intros b. rewrite HB. destruct (bufs w !! b) as [[n x]|]; cbn; [|done]. by rewrite Z.add_0_r. }
  split_and!; [exact Hw'| |].
  - unfold val. cbn. by rewrite lookup_delete_eq.
  - intros u Hu. unfold val at 2. destruct (cows w !! u) as [p|] eqn:Ep.
    + etrans; [apply (val_follow w _ u u p Hw' Ep); [cbn; by rewrite lookup_delete_ne|done]|]. unfold val. by rewrite Ep.
    + unfold val. cbn. by rewrite lookup_delete_ne, Ep.
Qed.

(** Pointers change hands, the buffers stay. *)
Lemma permute_ok w m : winv None w -> (forall b, refs b m = refs b (cows w)) ->
  (forall u b, m !! u = Some (Some b) -> is_Some (bufs w !! b)) -> winv None (World (bufs w) m).
Proof.
  intros Hw Hm Hp. apply (relink_ok None w m None None (bufs w) Hw); [by left| |done|].
  - intros b. rewrite Hm. unfold ind. rewrite decide_False by done. lia.
  - intros b. destruct (bufs w !! b) as [[n x]|]; cbn; [|done]. unfold dropped, ind. cbn. by rewrite !decide_False, Z.add_0_r.
Qed.

Lemma ind_none b : ind None b = 0.
Proof. unfold ind. by rewrite decide_False. Qed.

Lemma val_other w w' u : bufs w' = bufs w -> cows w' !! u = cows w !! u -> val w' u = val w u.
Proof. intros Hb Hc. unfold val. by rewrite Hc, Hb. Qed.

Lemma move_assign_post w v u vs us : winv None w -> v <> u -> val w v = Some vs -> val w u = Some us ->
  exists w', move_assign v u w = Ret (tt, w') /\ winv None w' /\ val w' v = Some us /\ val w' u = Some [] /\
    (forall x, x <> v -> x <> u -> val w' x = val w x).
Proof.
  intros Hw Hne Hv Hu. destruct (val_pointer w u us Hw Hu) as [p Hp]. destruct (val_pointer w v vs Hw Hv) as [q Hq].
  unfold move_assign. step (buffer_ok_run _ _ _ Hp). rewrite M_bind_modify.
  assert (cows (set_cow u None w) !! v = Some q) as Hq1 by (cbn; by rewrite lookup_insert_ne).
  step (buffer_ok_run _ _ _ Hq1). rewrite M_bind_modify.
  destruct (release_run (set_cow v p (set_cow u None w)) q) as (B & He & HB); [by eapply (target_of w v)|].
  eexists. split; [exact He|]. cbn in HB.
  destruct (relink_ok None w (<[v := p]> (<[u := None]> (cows w))) None q B Hw) as [Hw' Hback]; [by left| | | |].
  { intros b. rewrite (refs_replace b v p q) by done. rewrite (refs_replace b u None p) by done. rewrite !ind_none. lia. }
  { intros x b Hx. destruct (decide (x = v)) as [->|Hxv].
    - rewrite lookup_insert_eq in Hx. injection Hx as ->. by apply (wi_cows _ _ Hw u).
    - rewrite lookup_insert_ne in Hx by done. eapply linked; [done| |exact Hx]. done. }
  { intros b. rewrite HB. destruct (bufs w !! b) as [[n x]|]; cbn; [|done]. by rewrite ind_none, Z.add_0_r. }
  split_and!; [exact Hw'| | |].
  - rewrite <- Hu. apply (val_follow w _ v u p Hw' Hp); [cbn; apply lookup_insert_eq|done].
  - apply val_none. cbn. rewrite lookup_insert_ne by done. apply lookup_insert_eq.
  - intros x Hxv Hxu. unfold val at 2. destruct (cows w !! x) as [r|] eqn:Er.
    + etrans; [apply (val_follow w _ x x r Hw' Er); [cbn; by rewrite !lookup_insert_ne|done]|]. unfold val. by rewrite Er.
    + unfold val. cbn. by rewrite !lookup_insert_ne, Er.
Qed.

Lemma swap_post w v u vs us : winv None w -> v <> u -> val w v = Some vs -> val w u = Some us ->
  exists w', swap v u w = Ret (tt, w') /\ winv None w' /\ val w' v = Some us /\ val w' u = Some vs /\
    (forall x, x <> v -> x <> u -> val w' x = val w x).
Proof.
  intros Hw Hne Hv Hu. destruct (val_pointer w u us Hw Hu) as [p Hp]. destruct (val_pointer w v vs Hw Hv) as [q Hq].
  unfold swap. step (buffer_ok_run _ _ _ Hq). step (buffer_ok_run _ _ _ Hp). rewrite M_bind_modify.
  eexists. split; [done|].
  assert (winv None (World (bufs w) (<[u := q]> (<[v := p]> (cows w))))) as Hw'.
  { apply permute_ok; [done| |].
    - intros b. rewrite (refs_replace b u q p) by by rewrite lookup_insert_ne. rewrite (refs_replace b v p q) by done. lia.
    - intros x b Hx. destruct (decide (x = u)) as [->|Hxu].
      + rewrite lookup_insert_eq in Hx. injection Hx as ->. by apply (wi_cows _ _ Hw v).
      + rewrite lookup_insert_ne in Hx by done. eapply linked; [done| |exact Hx]. by eapply (target_of w u). }
  split_and!; [exact Hw'| | |].
  - rewrite <- Hu. eapply (val_follow w _ v u p Hw' Hp); [cbn; rewrite lookup_insert_ne by done; apply lookup_insert_eq|].
    intros b n x Hx. by exists n.
  - rewrite <- Hv. eapply (val_follow w _ u v q Hw' Hq); [cbn; apply lookup_insert_eq|]. intros b n x Hx. by exists n.
  - intros x Hxv Hxu. apply val_other; [done|]. cbn. by rewrite !lookup_insert_ne.
Qed.

Lemma Cow_move_post w v u us : winv None w -> cows w !! v = None -> val w u = Some us ->
  exists w', Cow_move v u w = Ret (tt, w') /\ winv None w' /\ val w' v = Some us /\ val w' u = Some [] /\
    (forall x, x <> v -> x <> u -> val w' x = val w x).
Proof.
  intros Hw Hv Hu. destruct (val_pointer w u us Hw Hu) as [p Hp].
  assert (v <> u) as Hne by congruence. unfold Cow_move. step (buffer_ok_run _ _ _ Hp). rewrite M_bind_modify.
  eexists. split; [done|].
  assert (winv None (World (bufs w) (<[u := None]> (<[v := p]> (cows w))))) as Hw'.
  { apply permute_ok; [done| |].
    - intros b. rewrite (refs_replace b u None p) by by rewrite lookup_insert_ne.
      rewrite refs_insert_new by done. rewrite ind_none. lia.
    - intros x b Hx. destruct (decide (x = u)) as [->|Hxu]; [by rewrite lookup_insert_eq in Hx|].
      rewrite lookup_insert_ne in Hx by done. eapply linked; [done| |exact Hx]. by eapply (target_of w u). }
  split_and!; [exact Hw'| | |].
  - rewrite <- Hu. eapply (val_follow w _ v u p Hw' Hp); [cbn; rewrite lookup_insert_ne by done; apply lookup_insert_eq|].
    intros b n x Hx. by exists n.
  - apply val_none. cbn. apply lookup_insert_eq.
  - intros x Hxv Hxu. apply val_other; [done|]. cbn. by rewrite !lookup_insert_ne.
Qed.

(** ** Reading *)

Lemma size_val w v vs : winv None w -> val w v = Some vs -> size v w = Ret (Z.of_nat (length vs), w).
Proof.
  intros Hw Hv. unfold size. destruct (val_inv w v vs Hw Hv) as [[Hc ->]|(b & m & x & Hc & Hx & Hm & Hok & <-)];
    step (buffer_ok_run _ _ _ Hc); [done|]. step (deref_run _ _ _ Hx). by destruct (bok_size x Hok) as (_ & _ & ->).
Qed.

Lemma get_at_val w v vs i c : winv None w -> val w v = Some vs -> 0 <= i -> vs !! Z.to_nat i = Some c ->
  get_at v i w = Ret (c, w).
Proof.
  intros Hw Hv Hi Hc'. unfold get_at. destruct (val_inv w v vs Hw Hv) as [[Hc ->]|(b & m & x & Hc & Hx & Hm & Hok & <-)]; [done|].
  step (its_buffer_run _ _ _ Hc). step (deref_run _ _ _ Hx). cbn [snd]. unfold contents in Hc'.
  apply lookup_take_Some in Hc' as [Hc' _]. unfold at_index. run. destruct (data_ x) as [l|]; [|done]. cbn in Hc'. by rewrite Hc'.
Qed.

Lemma cells_eq_ok (a b : list byte) : length a = length b -> cells_eq (Some <$> a) (Some <$> b) = Ret (bool_decide (a = b)).
Proof.
  revert b. induction a as [|x a IH]; intros [|y b] Hl; try done. cbn. destruct (decide (x = y)) as [->|Hne].
  - rewrite IH by (by injection Hl). f_equal. apply bool_decide_ext. naive_solver.
  - by rewrite bool_decide_false by naive_solver.
Qed.

(** Two variables with written bytes are equal when their bytes are, unless just
    one of them has no buffer. *)
Lemma operator_eq_val w v u p q (a b : list byte) : winv None w -> val w v = Some (Some <$> a) -> val w u = Some (Some <$> b) ->
  cows w !! v = Some (Some p) -> cows w !! u = Some (Some q) -> operator_eq v u w = Ret (bool_decide (a = b), w).
Proof.
  intros Hw Hv Hu Hp Hq. unfold operator_eq. step (buffer_ok_run _ _ _ Hp). step (buffer_ok_run _ _ _ Hq).
  destruct (decide (Some p = Some q)) as [[= ->]|Hne].
  - rewrite bool_decide_true; [done|]. destruct (winv_buf w v q Hw Hp) as (n & x & Hx & _ & _ & Hv').
    rewrite (val_some w u q n x Hq Hx) in Hu. rewrite Hv in Hv'.
    assert (Some <$> a = Some <$> b) as Hab by congruence. by apply (inj (fmap Some)) in Hab.
  - destruct (winv_buf w v p Hw Hp) as (n & x & Hx & _ & Hokx & Hvx). destruct (winv_buf w u q Hw Hq) as (m & y & Hy & _ & Hoky & Hvy).
    step (deref_run _ _ _ Hx). step (deref_run _ _ _ Hy). cbn [snd]. unfold lift, buffer_eq.
    destruct (bok_size x Hokx) as (_ & _ & <-). destruct (bok_size y Hoky) as (_ & _ & <-).
    rewrite Hv in Hvx. rewrite Hu in Hvy. injection Hvx as <-. injection Hvy as <-. rewrite !length_fmap.
    destruct (Z.eqb_spec (Z.of_nat (length a)) (Z.of_nat (length b))) as [Hl|Hl].
    + rewrite cells_eq_ok by lia. done.
    + rewrite bool_decide_false; [done|]. by intros ->.
Qed.

(** ** Programs over variables *)

Inductive cop :=
  | CEmpty (v : loc) | CData (v : loc) (cs : list cell) | CSize (v : loc) (n : Z)
  | CCopy (v u : loc) | CMoveNew (v u : loc) | CDelete (v : loc)
  | CAssign (v u : loc) | CMove (v u : loc) | CSwap (v u : loc)
  | CSetSize (v : loc) (n : Z) | CReserve (v : loc) (n : Z) | CClear (v : loc)
  | CStore (v : loc) (i : Z) (c : byte)
  | CSet (v : loc) (cs : list cell) | CAppend (v : loc) (cs : list cell) | CAppendBuf (v u : loc).

Definition do_cop (o : cop) : M world unit :=
  match o with
  | CEmpty v => Cow_empty v
  | CData v cs => Cow_data v cs (Z.of_nat (length cs))
  | CSize v n => Cow_size v n
  | CCopy v u => Cow_copy v u
  | CMoveNew v u => Cow_move v u
  | CDelete v => delete_Cow v
  | CAssign v u => copy_assign v u
  | CMove v u => move_assign v u
  | CSwap v u => swap v u
  | CSetSize v n => SetSize v n
  | CReserve v n => EnsureCapacity v n
  | CClear v => Clear v
  | CStore v i c => set_at v i c
  | CSet v cs => SetData v (CBytes cs) (Z.of_nat (length cs))
  | CAppend v cs => AppendData v (CBytes cs) (Z.of_nat (length cs))
  | CAppendBuf v u => AppendData_buf v u
  end.
Fixpoint do_cops (os : list cop) : M world unit :=
  match os with [] => mret tt | o :: os => _ ← do_cop o; do_cops os end.

(** The same program over variables that hold their own bytes. *)
#[local] Notation env := (gmap loc (list cell)).
Inductive cop_spec (e : env) : cop -> env -> Prop :=
  | s_empty v : e !! v = None -> cop_spec e (CEmpty v) (<[v := []]> e)
  | s_data v cs : e !! v = None -> Z.of_nat (length cs) < 2 ^ 61 -> cop_spec e (CData v cs) (<[v := cs]> e)
  | s_size v n cs : e !! v = None -> 0 <= n < 2 ^ 61 -> Z.of_nat (length cs) = n -> cop_spec e (CSize v n) (<[v := cs]> e)
  | s_copy v u us : e !! v = None -> e !! u = Some us -> cop_spec e (CCopy v u) (<[v := us]> e)
  | s_move_new v u us : e !! v = None -> e !! u = Some us -> cop_spec e (CMoveNew v u) (<[u := []]> (<[v := us]> e))
  | s_delete v vs : e !! v = Some vs -> cop_spec e (CDelete v) (delete v e)
  | s_assign v u vs us : e !! v = Some vs -> e !! u = Some us -> cop_spec e (CAssign v u) (<[v := us]> e)
  | s_move v u vs us : v <> u -> e !! v = Some vs -> e !! u = Some us -> cop_spec e (CMove v u) (<[u := []]> (<[v := us]> e))
  | s_swap v u vs us : v <> u -> e !! v = Some vs -> e !! u = Some us -> cop_spec e (CSwap v u) (<[u := vs]> (<[v := us]> e))
  | s_set_size v n vs vs' : e !! v = Some vs -> 0 <= n < 2 ^ 61 -> resized n vs vs' -> cop_spec e (CSetSize v n) (<[v := vs']> e)
  | s_reserve v n vs : e !! v = Some vs -> n < 2 ^ 61 -> cop_spec e (CReserve v n) e
  | s_clear v vs : e !! v = Some vs -> cop_spec e (CClear v) (<[v := []]> e)
  | s_store v i c vs : e !! v = Some vs -> 0 <= i < Z.of_nat (length vs) ->
      cop_spec e (CStore v i c) (<[v := <[Z.to_nat i := Some c]> vs]> e)
  | s_set v cs vs : e !! v = Some vs -> Z.of_nat (length cs) < 2 ^ 61 -> cop_spec e (CSet v cs) (<[v := cs]> e)
  | s_append v cs vs : e !! v = Some vs -> Z.of_nat (length vs) + Z.of_nat (length cs) < 2 ^ 61 ->
      cop_spec e (CAppend v cs) (<[v := vs ++ cs]> e)
  | s_append_buf v u vs us : u <> v -> e !! v = Some vs -> e !! u = Some us ->
      Z.of_nat (length vs) + Z.of_nat (length us) < 2 ^ 61 -> cop_spec e (CAppendBuf v u) (<[v := vs ++ us]> e).

Inductive cops_spec : list cop -> env -> env -> Prop :=
  | cops_nil e : cops_spec [] e e
  | cops_cons o os e e1 e2 : cop_spec e o e1 -> cops_spec os e1 e2 -> cops_spec (o :: os) e e2.

(** The program has a meaning over such variables, whatever the bytes are that
    growing leaves open. *)
Fixpoint meaningful (os : list cop) (e : env) : Prop :=
  match os with
  | [] => True
  | o :: os => (exists e', cop_spec e o e') /\ forall e', cop_spec e o e' -> meaningful os e'
  end.

(** The variables of [w] hold the bytes of [e]. *)
Definition holds (w : world) (e : env) : Prop := forall v, val w v = e !! v.

Lemma holds_none w e v : holds w e -> winv None w -> e !! v = None -> cows w !! v = None.
Proof.
  intros He Hw Hv. rewrite <- He in Hv. destruct (cows w !! v) as [[b|]|] eqn:Ec; [|by rewrite (val_none _ _ Ec) in Hv|done].
  destruct (winv_buf w v b Hw Ec) as (n & x & _ & _ & _ & H). congruence.
Qed.

Lemma holds_post w w' e v cs : holds w e -> post w w' v cs -> holds w' (<[v := cs]> e).
Proof.
  intros He [_ Hv Ho] u. destruct (decide (u = v)) as [->|Hne]; [by rewrite lookup_insert_eq|].
  rewrite lookup_insert_ne by done. by rewrite Ho.
Qed.
Lemma holds_two w w' e v u vs us : holds w e -> v <> u -> val w' v = Some vs -> val w' u = Some us ->
  (forall x, x <> v -> x <> u -> val w' x = val w x) -> holds w' (<[u := us]> (<[v := vs]> e)).
Proof.
  intros He Hne Hv Hu Ho x. destruct (decide (x = u)) as [->|Hxu]; [by rewrite lookup_insert_eq|].
  rewrite lookup_insert_ne by done. destruct (decide (x = v)) as [->|Hxv]; [by rewrite lookup_insert_eq|].
  rewrite lookup_insert_ne by done. by rewrite Ho.
Qed.

(** One operation.  The state it reaches is one the specification allows. *)
Lemma post_step o w e v cs : winv None w -> holds w e -> cop_spec e o (<[v := cs]> e) ->
  (exists w', do_cop o w = Ret (tt, w') /\ post w w' v cs) ->
  exists w' e1, do_cop o w = Ret (tt, w') /\ winv None w' /\ holds w' e1 /\ cop_spec e o e1.
Proof.
  intros Hw He Hs (w' & Hm & Hp). exists w', (<[v := cs]> e).
  split_and!; [done|apply Hp|by eapply holds_post|done].
Qed.

Lemma do_cop_ok o w e e' : winv None w -> holds w e -> cop_spec e o e' ->
  exists w' e1, do_cop o w = Ret (tt, w') /\ winv None w' /\ holds w' e1 /\ cop_spec e o e1.
Proof.
  intros Hw He Hs. pose proof (fun v => holds_none w e v He Hw) as Hnone.
  assert (forall v x, e !! v = Some x -> val w v = Some x) as Hval by (intros v x <-; apply He).
  pose proof Hs as Hs0. destruct Hs.
  - apply (post_step _ w e v []); [done..|]. apply Cow_empty_post; auto.
  - apply (post_step _ w e v cs); [done..|]. apply Cow_data_post; auto.
  - destruct (Cow_size_post w v n Hw) as (w' & vs & Hm & Hp & Hl); [by auto|done|].
    apply (post_step _ w e v vs); [done..|by constructor|by exists w'].
  - apply (post_step _ w e v us); [done..|]. apply (Cow_copy_post w v u); auto.
  - destruct (Cow_move_post w v u us Hw) as (w' & Hm & Hw' & Hv & Hu & Ho); [by auto..|].
    exists w', (<[u := []]> (<[v := us]> e)). split_and!; [done..| |done]. apply (holds_two w); try done. congruence.
  - destruct (delete_Cow_post w v vs Hw) as (w' & Hm & Hw' & Hv & Ho); [by auto|].
    exists w', (delete v e). split_and!; [done..| |done]. intros x. destruct (decide (x = v)) as [->|Hne].
    + by rewrite lookup_delete_eq.
    + rewrite lookup_delete_ne, Ho by done. apply He.
  - apply (post_step _ w e v us); [done..|]. eapply copy_assign_post; eauto.
  - destruct (move_assign_post w v u vs us Hw) as (w' & Hm & Hw' & Hv & Hu & Ho); [by auto..|].
    exists w', (<[u := []]> (<[v := us]> e)). split_and!; [done..| |done]. by apply (holds_two w).
  - destruct (swap_post w v u vs us Hw) as (w' & Hm & Hw' & Hv & Hu & Ho); [by auto..|].
    exists w', (<[u := vs]> (<[v := us]> e)). split_and!; [done..| |done]. by apply (holds_two w).
  - destruct (SetSize_post w v n vs Hw) as (w' & vs2 & Hm & Hp & Hr); [by auto|done|].
    apply (post_step _ w e v vs2); [done..|by econstructor|by exists w'].
  - destruct (EnsureCapacity_post w v n vs Hw) as (w' & Hm & Hp); [by auto|done|]. exists w', e. split_and!; [done|apply Hp| |done].
    rewrite <- (insert_id e v vs) by done. by eapply holds_post.
  - apply (post_step _ w e v []); [done..|]. eapply Clear_post; eauto.
  - apply (post_step _ w e v (<[Z.to_nat i := Some c]> vs)); [done..|]. apply set_at_post; auto.
  - apply (post_step _ w e v cs); [done..|]. eapply SetData_post; eauto.
  - apply (post_step _ w e v (vs ++ cs)); [done..|]. apply AppendData_post; [done|by auto| |lia|done].
    split; [lia|]. symmetry. apply take_ge. lia.
  - apply (post_step _ w e v (vs ++ us)); [done..|]. apply AppendData_buf_post; auto.
Qed.

Lemma do_cops_ok os w e : winv None w -> holds w e -> meaningful os e ->
  exists w' e', do_cops os w = Ret (tt, w') /\ winv None w' /\ holds w' e' /\ cops_spec os e e'.
Proof.
  revert w e. induction os as [|o os IH]; intros w e Hw He Hm.
  { exists w, e. split_and!; [done..|constructor]. }
  destruct Hm as [[e0 Hs] Hm]. destruct (do_cop_ok o w e e0 Hw He Hs) as (w1 & e1 & Hr & Hw1 & He1 & Hs1).
  destruct (IH w1 e1 Hw1 He1 (Hm _ Hs1)) as (w2 & e2 & Hr2 & Hw2 & He2 & Hs2).
  exists w2, e2. cbn [do_cops]. step Hr. split_and!; [done..|by econstructor].
Qed.

(** C23: Copy-on-write buffers behave as if every variable had bytes of its own,
    and no buffer is lost.  For any program over [CopyOnWriteBuffer] variables
    (constructing, copying, moving, swapping and destroying them, changing
    sizes and contents, appending one to another) no step touches a buffer that
    was freed or lies outside one; each variable ends up with the bytes the
    program gives it when nothing is shared; and at the end every buffer that
    exists is owned by as many variables as its counter says, at least one. *)
Theorem cow_value_semantics os : meaningful os ∅ ->
  exists w' e', do_cops os (World ∅ ∅) = Ret (tt, w') /\ cops_spec os ∅ e' /\
    (forall v, val w' v = e' !! v) /\
    (forall b n x, bufs w' !! b = Some (n, x) -> 1 <= n /\ n = refs b (cows w')).
Proof.
  intros Hm. destruct (do_cops_ok os (World ∅ ∅) ∅) as (w' & e' & Hr & Hw & He & Hs); [by split|done|done|].
  exists w', e'. split_and!; [done..|]. intros b n x Hx. apply (wi_bufs _ _ Hw) in Hx as (-> & _ & [?|?]); [lia|done].
Qed.

(** [b.AppendData(b)] reads a block that growing has freed. *)
Example append_to_itself :
  do_cops [CData 1 (Some <$> [x61; x62]); CAppendBuf 1 1] (World ∅ ∅) = Ub UseAfterFree.
Proof. vm_compute. reflexivity. Qed.

(** A variable without a buffer is not equal to one whose buffer is empty. *)
Example empty_not_equal :
  (fun r => match r with Ret (b, _) => Some b | _ => None end)
    ((_ ← Cow_empty 1; _ ← Cow_capacity 2 0 10; operator_eq 1 2) (World ∅ ∅)) = Some false.
Proof. vm_compute. reflexivity. Qed.

(** Appending nothing to a variable without a buffer gives it one of capacity
    0, which the class says it never has. *)
Example append_nothing :
  (fun r => match r with Ret (p, w) => Some (p, (fun x => capacity_ x.2) <$> bufs w !! 1%positive) | _ => None end)
    ((_ ← Cow_empty 1; _ ← AppendData 1 (CBytes []) 0; buffer_ 1) (World ∅ ∅)) = Some (Some 1%positive, Some 0).
Proof. vm_compute. reflexivity. Qed.

Definition some_cops : list cop :=
  [CData 1 (Some <$> [x61; x62]); CCopy 2 1; CStore 2 0 x7a; CAppendBuf 1 2; CCopy 3 1; CClear 1; CDelete 2].

(** The environment after an operation. *)
Ltac next_env := let e := fresh "e" in let H := fresh "Hs" in intros e H; inversion H; subst; clear H; simplify_map_eq.

Lemma some_cops_meaningful : meaningful some_cops ∅.
Proof.
  cbn [some_cops meaningful]. split; [by eexists; constructor|]. next_env.
  split; [by eexists; econstructor|]. next_env.
  split; [eexists; eapply s_store; [by simplify_map_eq|cbn; lia]|]. next_env.
  split; [eexists; eapply s_append_buf; by simplify_map_eq|]. next_env.
  split; [eexists; eapply s_copy; by simplify_map_eq|]. next_env.
  split; [eexists; eapply s_clear; by simplify_map_eq|]. next_env.
  split; [eexists; eapply s_delete; by simplify_map_eq|]. done.
Qed.

Lemma cow_value_semantics_witness : meaningful some_cops ∅ /\
  exists w' e', do_cops some_cops (World ∅ ∅) = Ret (tt, w') /\ cops_spec some_cops ∅ e' /\
    (forall v, val w' v = e' !! v) /\
    (forall b n x, bufs w' !! b = Some (n, x) -> 1 <= n /\ n = refs b (cows w')).
Proof. split; [exact some_cops_meaningful|exact (cow_value_semantics some_cops some_cops_meaningful)]. Defined.
