(* ===== verification/ByteOrder.v ===== *)
(** * [rtc_base/byte_order.h]: numbers in memory

    The host is little-endian (arm64 and x86-64 macOS): an integer of [n] bytes
    lies in memory as [le_to_bytes n], and the macros of libkern/OSByteOrder.h
    swap the bytes for the big-endian conversions and do nothing for the
    little-endian ones. *)

From S2P Require Import Prelude Sds.
#[local] Open Scope Z_scope.
#[local] Open Scope xrtc_scope.

(** The big-endian reading of bytes. *)
Definition be_of_bytes (bs : list byte) : Z := le_of_bytes (rev bs).
Definition be_to_bytes (n : nat) (z : Z) : list byte := rev (le_to_bytes n z).

(** [OSSwapInt16], [OSSwapInt32], [OSSwapInt64]. *)
Definition bswap (n : nat) (v : Z) : Z := be_of_bytes (le_to_bytes n v).

Definition htobe16 (v : Z) : Z := bswap 2 v.
Definition htobe32 (v : Z) : Z := bswap 4 v.
Definition htobe64 (v : Z) : Z := bswap 8 v.
Definition be16toh (v : Z) : Z := bswap 2 v.
Definition be32toh (v : Z) : Z := bswap 4 v.
Definition be64toh (v : Z) : Z := bswap 8 v.
Definition htole16 (v : Z) : Z := u16 v.
Definition htole32 (v : Z) : Z := u32 v.
Definition htole64 (v : Z) : Z := u64 v.
Definition le16toh (v : Z) : Z := u16 v.
Definition le32toh (v : Z) : Z := u32 v.
Definition le64toh (v : Z) : Z := u64 v.

(** [memory] is what the pointer reaches; a store gives the memory after it. *)
Definition Set8 (memory : list byte) (offset v : Z) : res (list byte) := store memory offset [z2b v].
Definition Get8 (memory : list byte) (offset : Z) : res Z := bs ← load memory offset 1; Ret (le_of_bytes bs).

Definition SetBE16 (memory : list byte) (v : Z) : res (list byte) := store memory 0 (le_to_bytes 2 (htobe16 v)).
Definition SetBE32 (memory : list byte) (v : Z) : res (list byte) := store memory 0 (le_to_bytes 4 (htobe32 v)).
Definition SetBE64 (memory : list byte) (v : Z) : res (list byte) := store memory 0 (le_to_bytes 8 (htobe64 v)).
Definition GetBE16 (memory : list byte) : res Z := bs ← load memory 0 2; Ret (be16toh (le_of_bytes bs)).
Definition GetBE32 (memory : list byte) : res Z := bs ← load memory 0 4; Ret (be32toh (le_of_bytes bs)).
Definition GetBE64 (memory : list byte) : res Z := bs ← load memory 0 8; Ret (be64toh (le_of_bytes bs)).

Definition SetLE16 (memory : list byte) (v : Z) : res (list byte) := store memory 0 (le_to_bytes 2 (htole16 v)).
Definition SetLE32 (memory : list byte) (v : Z) : res (list byte) := store memory 0 (le_to_bytes 4 (htole32 v)).
Definition SetLE64 (memory : list byte) (v : Z) : res (list byte) := store memory 0 (le_to_bytes 8 (htole64 v)).
Definition GetLE16 (memory : list byte) : res Z := bs ← load memory 0 2; Ret (le16toh (le_of_bytes bs)).
Definition GetLE32 (memory : list byte) : res Z := bs ← load memory 0 4; Ret (le32toh (le_of_bytes bs)).
Definition GetLE64 (memory : list byte) : res Z := bs ← load memory 0 8; Ret (le64toh (le_of_bytes bs)).

Definition IsHostBigEndian : bool := false.

Definition HostToNetwork16 (n : Z) : Z := htobe16 n.
Definition HostToNetwork32 (n : Z) : Z := htobe32 n.
Definition HostToNetwork64 (n : Z) : Z := htobe64 n.
Definition NetworkToHost16 (n : Z) : Z := be16toh n.
Definition NetworkToHost32 (n : Z) : Z := be32toh n.
Definition NetworkToHost64 (n : Z) : Z := be64toh n.

(** ** Facts *)

Lemma length_be_to_bytes n z : length (be_to_bytes n z) = n.
Proof. unfold be_to_bytes. by rewrite length_rev, length_le_to_bytes. Qed.

(** What a conversion to network order leaves in memory, and what one from
    network order makes of it. *)
Lemma bswap_bytes n v : le_to_bytes n (bswap n v) = be_to_bytes n v.
Proof.
  unfold bswap, be_of_bytes, be_to_bytes.
  rewrite <- (length_le_to_bytes n v) at 1. by rewrite <- (length_rev (le_to_bytes n v)), le_to_of_bytes.
Qed.

Lemma bswap_of_bytes n bs : length bs = n -> bswap n (le_of_bytes bs) = be_of_bytes bs.
Proof. intros <-. unfold bswap. by rewrite le_to_of_bytes. Qed.

Lemma be_of_to_bytes n z : 0 <= z < 256 ^ Z.of_nat n -> be_of_bytes (be_to_bytes n z) = z.
Proof. intros Hz. unfold be_of_bytes, be_to_bytes. by rewrite rev_involutive, le_of_to_bytes. Qed.

Lemma be_to_of_bytes bs : be_to_bytes (length bs) (be_of_bytes bs) = bs.
Proof. unfold be_of_bytes, be_to_bytes. by rewrite <- length_rev, le_to_of_bytes, rev_involutive. Qed.

Lemma be_of_bytes_range bs : 0 <= be_of_bytes bs < 256 ^ Z.of_nat (length bs).
Proof. unfold be_of_bytes. rewrite <- length_rev. apply le_of_bytes_range. Qed.

Lemma bswap_range n v : 0 <= bswap n v < 256 ^ Z.of_nat n.
Proof. pose proof (be_of_bytes_range (le_to_bytes n v)) as H. by rewrite length_le_to_bytes in H. Qed.

Lemma bswap_bswap n v : 0 <= v < 256 ^ Z.of_nat n -> bswap n (bswap n v) = v.
Proof.
  intros Hv. unfold bswap at 1. rewrite bswap_bytes. unfold be_of_bytes, be_to_bytes.
  by rewrite rev_involutive, le_of_to_bytes.
Qed.

Lemma le_of_bytes_app xs ys : le_of_bytes (xs ++ ys) = le_of_bytes xs + 256 ^ Z.of_nat (length xs) * le_of_bytes ys.
Proof.
  induction xs as [|x xs IH]; [by rewrite Z.mul_1_l|]. cbn [app length le_of_bytes].
  rewrite IH, Nat2Z.inj_succ, Z.pow_succ_r by lia. ring.
Qed.

Lemma be_of_bytes_app xs ys : be_of_bytes (xs ++ ys) = 256 ^ Z.of_nat (length ys) * be_of_bytes xs + be_of_bytes ys.
Proof. unfold be_of_bytes. rewrite rev_app_distr, le_of_bytes_app, length_rev. lia. Qed.

Lemma be_of_bytes_cons x ys : be_of_bytes (x :: ys) = 256 ^ Z.of_nat (length ys) * b2z x + be_of_bytes ys.
Proof.
  change (x :: ys) with ([x] ++ ys). rewrite be_of_bytes_app.
  assert (be_of_bytes [x] = b2z x) as -> by (unfold be_of_bytes; cbn; lia). done.
Qed.
