(* ===== verification/ByteBuffer.v ===== *)
(** * [rtc_base/byte_buffer.h], [byte_buffer.cc]: numbers in network byte order

    [ByteBufferWriter] appends to a [BufferT<char>]; [ByteBufferReader] walks
    over memory that somebody else owns.  A read is given a pointer to its
    destination: [None] is a null pointer, [Some v] a variable holding [v]. *)

From S2P Require Import Prelude Sds CLib ByteOrder Buffer.
#[local] Open Scope Z_scope.
#[local] Open Scope xrtc_scope.

(** ** The writer *)

Definition kDefaultCapacity : Z := 4096.

Definition WriteBytes (val : list byte) : M BufferT unit :=
  AppendData false (Bytes (map Some val)) (Z.of_nat (length val)).

Definition WriteUInt8 (val : Z) : M BufferT unit := WriteBytes (le_to_bytes 1 val).
Definition WriteUInt16 (val : Z) : M BufferT unit :=
  let v := HostToNetwork16 val in WriteBytes (le_to_bytes 2 v).
Definition WriteUInt24 (val : Z) : M BufferT unit :=
  let v := HostToNetwork32 val in
  let start := le_to_bytes 4 v in
  let start := drop 1 start in
  WriteBytes (take 3 start).
Definition WriteUInt32 (val : Z) : M BufferT unit :=
  let v := HostToNetwork32 val in WriteBytes (le_to_bytes 4 v).
Definition WriteUInt64 (val : Z) : M BufferT unit :=
  let v := HostToNetwork64 val in WriteBytes (le_to_bytes 8 v).

(** [fuel] bounds the bytes with a continuation bit. *)
Fixpoint WriteUVarint_loop (fuel : nat) (val : Z) {struct fuel} : M BufferT unit :=
  if 128 <=? val then
    match fuel with
    | O => lift OutOfFuel
    | S fuel =>
        let byte := z2b (Z.lor (schar (z2b val)) 128) in
        _ ← WriteBytes [byte];
        WriteUVarint_loop fuel (Z.shiftr val 7)
    end
  else
    let last_byte := z2b val in
    WriteBytes [last_byte].
Definition WriteUVarint (val : Z) : M BufferT unit := WriteUVarint_loop 9 val.

Definition WriteString (val : list byte) : M BufferT unit := WriteBytes val.

(** The result is the index in the block that the pointer points to. *)
Definition ReserveWriteBuffer (len : Z) : M BufferT Z :=
  b ← get;
  _ ← SetSize false (u64 (size_ b + len));
  mret 0.

Definition Resize (size : Z) : M BufferT unit := SetSize false size.
Definition ByteBufferWriter_Clear : M BufferT unit := Clear false.
Definition Capacity : M BufferT Z := b ← get; mret (capacity_ b).
Definition ByteBufferWriter_Length : M BufferT Z := b ← get; mret (size_ b).
Definition ByteBufferWriter_Data : M BufferT (option (list cell)) := b ← get; mret (data_ b).

Definition ByteBufferWriter_Construct (bytes : option (list byte)) (size : Z) : M BufferT unit :=
  match bytes with
  | Some bytes => AppendData false (Bytes (map Some bytes)) size
  | None => EnsureCapacity false size
  end.
Definition ByteBufferWriter : M BufferT unit := ByteBufferWriter_Construct None kDefaultCapacity.
Definition ByteBufferWriter_bytes (bytes : option (list byte)) (len : Z) : M BufferT unit :=
  ByteBufferWriter_Construct bytes len.

(** ** The reader *)

Record ByteBufferReader := MkReader {
  bytes_ : list cell;   (* what [bytes_] points to *)
  rsize_ : Z;           (* [size_] *)
  start_ : Z;
  end_ : Z;
}.

Definition Construct (bytes : list cell) (len : Z) : ByteBufferReader := MkReader bytes len 0 len.
Definition ByteBufferReader_cstr (bytes : list byte) : res ByteBufferReader :=
  len ← strlen bytes; Ret (Construct (map Some bytes) len).
Definition ByteBufferReader_Buffer (buf : BufferT) : ByteBufferReader :=
  Construct (default [] (data_ buf)) (size_ buf).
Definition ByteBufferReader_Writer (buf : BufferT) : ByteBufferReader :=
  Construct (default [] (data_ buf)) (size_ buf).

(** The unprocessed data. *)
Definition Data (r : ByteBufferReader) : list cell := drop (Z.to_nat (start_ r)) (bytes_ r).
Definition Length (r : ByteBufferReader) : Z := u64 (end_ r - start_ r).

Definition advance (n : Z) (r : ByteBufferReader) : ByteBufferReader :=
  MkReader (bytes_ r) (rsize_ r) (start_ r + n) (end_ r).

(** The bytes that were copied to [val], or [None] when it returns false. *)
Definition ReadBytes (len : Z) : M ByteBufferReader (option (list cell)) :=
  r ← get;
  if Length r <? len then mret None
  else
    cs ← lift (Buffer.load (Data r) len);
    _ ← modify (advance len);
    mret (Some cs).

(** The value of an integer variable with the cells [cs]. *)
Definition value (cs : list cell) : res Z :=
  match mapM id cs with Some bs => Ret (le_of_bytes bs) | None => Ub Uninitialised end.

(** A read of [len] bytes into a variable whose first bytes hold [pre], that
    [conv] makes into the result. *)
Definition ReadUInt (pre : list cell) (len : Z) (conv : Z -> Z) (val : option Z)
    : M ByteBufferReader (bool * option Z) :=
  match val with
  | None => mret (false, None)
  | Some old =>
      cs ← ReadBytes len;
      match cs with
      | None => mret (false, Some old)
      | Some cs => v ← lift (value (pre ++ cs)); mret (true, Some (conv v))
      end
  end.

Definition ReadUInt8 : option Z -> M ByteBufferReader (bool * option Z) := ReadUInt [] 1 id.
Definition ReadUInt16 : option Z -> M ByteBufferReader (bool * option Z) := ReadUInt [] 2 NetworkToHost16.
(** [v] is zero and [read_into] points to its second byte. *)
Definition ReadUInt24 : option Z -> M ByteBufferReader (bool * option Z) :=
  ReadUInt [Some x00] 3 NetworkToHost32.
Definition ReadUInt32 : option Z -> M ByteBufferReader (bool * option Z) := ReadUInt [] 4 NetworkToHost32.
Definition ReadUInt64 : option Z -> M ByteBufferReader (bool * option Z) := ReadUInt [] 8 NetworkToHost64.

(** [for (int i = 0; i < 64; i += 7)]: [n] rounds are left. *)
Fixpoint ReadUVarint_loop (n : nat) (i v old : Z) : M ByteBufferReader (bool * option Z) :=
  match n with
  | O => mret (false, Some old)
  | S n =>
      cs ← ReadBytes 1;
      match cs with
      | None => mret (false, Some old)
      | Some cs =>
          byte ← lift (value cs);
          let byte := u64 (wrapS 8 byte) in
          let v := Z.lor v (u64 (Z.shiftl (Z.land byte 127) i)) in
          if byte <? 128 then mret (true, Some v) else ReadUVarint_loop n (i + 7) v old
      end
  end.
Definition ReadUVarint (val : option Z) : M ByteBufferReader (bool * option Z) :=
  match val with None => mret (false, None) | Some old => ReadUVarint_loop 10 0 0 old end.

Definition ReadString (val : option (list byte)) (len : Z) : M ByteBufferReader (bool * option (list byte)) :=
  match val with
  | None => mret (false, None)
  | Some old =>
      r ← get;
      if Length r <? len then mret (false, Some old)
      else
        cs ← lift (Buffer.load (Data r) len);
        bs ← lift (match mapM id cs with Some bs => Ret bs | None => Ub Uninitialised end);
        _ ← modify (advance len);
        mret (true, Some (old ++ bs))
  end.

Definition Consume (size : Z) : M ByteBufferReader bool :=
  r ← get;
  if Length r <? size then mret false else _ ← modify (advance size); mret true.

(** ** The wire format *)

(** A varint: seven bits at a time from the low end, the top bit of a byte says
    that more follow. *)
Fixpoint varint (n : nat) (v : Z) : list byte :=
  match n with
  | O => [z2b v]
  | S n => if v <? 128 then [z2b v] else z2b (v mod 128 + 128) :: varint n (v / 128)
  end.

Inductive field :=
  | F8 (v : Z) | F16 (v : Z) | F24 (v : Z) | F32 (v : Z) | F64 (v : Z)
  | FVarint (v : Z)
  | FString (s : list byte).

Definition field_ok (f : field) : Prop :=
  match f with
  | F8 v => 0 <= v < 2 ^ 8 | F16 v => 0 <= v < 2 ^ 16 | F24 v => 0 <= v < 2 ^ 24 | F32 v => 0 <= v < 2 ^ 32
  | F64 v | FVarint v => 0 <= v < 2 ^ 64
  | FString _ => True
  end.

Definition encode (f : field) : list byte :=
  match f with
  | F8 v => be_to_bytes 1 v | F16 v => be_to_bytes 2 v | F24 v => be_to_bytes 3 v | F32 v => be_to_bytes 4 v
  | F64 v => be_to_bytes 8 v
  | FVarint v => varint 9 v
  | FString s => s
  end.
Definition encodes (fs : list field) : list byte := concat (map encode fs).

Definition write_field (f : field) : M BufferT unit :=
  match f with
  | F8 v => WriteUInt8 v | F16 v => WriteUInt16 v | F24 v => WriteUInt24 v | F32 v => WriteUInt32 v
  | F64 v => WriteUInt64 v | FVarint v => WriteUVarint v | FString s => WriteString s
  end.
Fixpoint write_fields (fs : list field) : M BufferT unit :=
  match fs with [] => mret tt | f :: fs => _ ← write_field f; write_fields fs end.

(** Reads a field of the kind of [f] into fresh variables; [None]: the read
    returned false. *)
Definition got {A} (make : A -> field) (r : bool * option A) : option field :=
  match r with (true, Some v) => Some (make v) | _ => None end.
Definition read_field (f : field) : M ByteBufferReader (option field) :=
  match f with
  | F8 _ => r ← ReadUInt8 (Some 0); mret (got F8 r)
  | F16 _ => r ← ReadUInt16 (Some 0); mret (got F16 r)
  | F24 _ => r ← ReadUInt24 (Some 0); mret (got F24 r)
  | F32 _ => r ← ReadUInt32 (Some 0); mret (got F32 r)
  | F64 _ => r ← ReadUInt64 (Some 0); mret (got F64 r)
  | FVarint _ => r ← ReadUVarint (Some 0); mret (got FVarint r)
  | FString s => r ← ReadString (Some []) (Z.of_nat (length s)); mret (got FString r)
  end.
Fixpoint read_fields (fs : list field) : M ByteBufferReader (option (list field)) :=
  match fs with
  | [] => mret (Some [])
  | f :: fs =>
      o ← read_field f;
      match o with
      | None => mret None
      | Some g => os ← read_fields fs; mret (option_map (cons g) os)
      end
  end.

(** ** What the writes append *)

Definition writes (m : M BufferT unit) (bs : list byte) : Prop :=
  forall b, buf_ok b -> size_ b + Z.of_nat (length bs) < 2 ^ 62 ->
  exists b', m b = Ret (tt, b') /\ buf_ok b' /\ contents b' = contents b ++ map Some bs.

Lemma WriteBytes_writes bs : writes (WriteBytes bs) bs.
Proof.
  intros b Hb Hlt. unfold WriteBytes.
  destruct (append_ok false b (Bytes (map Some bs)) (Z.of_nat (length bs)) (map Some bs)) as (b' & He & Hok & Hc & _);
    [done|lia|done| |by exists b'].
  cbn. rewrite length_map. split; [lia|]. by rewrite take_ge by (rewrite length_map; lia).
Qed.

Lemma writes_nil : writes (mret tt) [].
Proof. intros b Hb _. exists b. by rewrite app_nil_r. Qed.

Lemma writes_app m bs m' bs' : writes m bs -> writes m' bs' -> writes (_ ← m; m') (bs ++ bs').
Proof.
  intros Hm Hm' b Hb Hlt. rewrite length_app in Hlt.
  destruct (Hm b Hb) as (b1 & He & Hb1 & Hc1); [lia|].
  destruct (Hm' b1 Hb1) as (b2 & He2 & Hb2 & Hc2).
  { rewrite <- (length_contents _ Hb1), Hc1, length_app, length_map, Nat2Z.inj_add, length_contents by done. lia. }
  exists b2. step He. by rewrite Hc2, Hc1, map_app, app_assoc.
Qed.

Lemma uvarint_writes n v : 0 <= v < 2 ^ (7 * (Z.of_nat n + 1)) -> writes (WriteUVarint_loop n v) (varint n v).
Proof.
  revert v. induction n as [|n IH]; intros v Hv; cbn [WriteUVarint_loop varint].
  - change (2 ^ _) with 128 in Hv. rewrite (proj2 (Z.leb_gt 128 v)) by lia. apply WriteBytes_writes.
  - destruct (Z.leb_spec 128 v) as [Hge|Hlt].
    2: { rewrite (proj2 (Z.ltb_lt v 128)) by lia. apply WriteBytes_writes. }
    rewrite (proj2 (Z.ltb_ge v 128)) by lia.
    assert (z2b (Z.lor (schar (z2b v)) 128) = z2b (v mod 128 + 128)) as ->.
    { apply (inj b2z). rewrite !b2z_z2b. unfold schar. rewrite b2z_z2b.
      pose proof (Z.mod_pos_bound v 256 ltac:(lia)) as Hr.
      replace (v mod 128) with ((v mod 256) mod 128) by (Z.to_euclidean_division_equations; lia).
      generalize dependent (v mod 256). intros r Hr.
      assert (Forall (fun r => Z.lor (wrapS 8 r) 128 mod 256 = (r mod 128 + 128) mod 256) (seqZ 0 256)) as Hall
        by (apply (bool_decide_unpack _); vm_compute; exact I).
      rewrite Forall_forall in Hall. apply Hall. apply elem_of_seqZ. lia. }
    change (z2b (v mod 128 + 128) :: varint n (v / 128)) with ([z2b (v mod 128 + 128)] ++ varint n (v / 128)).
    apply writes_app; [apply WriteBytes_writes|]. rewrite Z.shiftr_div_pow2 by lia. apply IH.
    split; [apply Z.div_pos; lia|]. apply Z.div_lt_upper_bound; [lia|].
    replace (7 * (Z.of_nat (S n) + 1)) with (7 + 7 * (Z.of_nat n + 1)) in Hv by lia.
    rewrite Z.pow_add_r in Hv by lia. lia.
Qed.

Lemma write_field_writes f : field_ok f -> writes (write_field f) (encode f).
Proof.
  destruct f as [v|v|v|v|v|v|s]; cbn [field_ok write_field encode]; intros Hf.
  - apply (WriteBytes_writes (be_to_bytes 1 v)).
  - unfold WriteUInt16, HostToNetwork16, htobe16. rewrite bswap_bytes. apply WriteBytes_writes.
  - unfold WriteUInt24, HostToNetwork32, htobe32. rewrite bswap_bytes. apply (WriteBytes_writes (be_to_bytes 3 v)).
  - unfold WriteUInt32, HostToNetwork32, htobe32. rewrite bswap_bytes. apply WriteBytes_writes.
  - unfold WriteUInt64, HostToNetwork64, htobe64. rewrite bswap_bytes. apply WriteBytes_writes.
  - apply uvarint_writes. split; [lia|]. cbn. lia.
  - apply WriteBytes_writes.
Qed.

Lemma write_fields_writes fs : Forall field_ok fs -> writes (write_fields fs) (encodes fs).
Proof.
  induction 1 as [|f fs Hf _ IH]; [apply writes_nil|]. cbn. by apply writes_app; [apply write_field_writes|].
Qed.

(** ** What the reads return *)

(** The reader is about to read [rest]. *)
Record rd (r : ByteBufferReader) (rest : list byte) : Prop := {
  rd_range : 0 <= start_ r /\ start_ r + Z.of_nat (length rest) = end_ r /\ end_ r < 2 ^ 62;
  rd_data : take (length rest) (Data r) = map Some rest;
}.

Lemma Length_rd r rest : rd r rest -> Length r = Z.of_nat (length rest).
Proof. intros [Hr _]. unfold Length. rewrite u64_small by lia. lia. Qed.

Lemma rd_construct bs n : n <= Z.of_nat (length bs) < 2 ^ 62 -> 0 <= n ->
  rd (Construct (map Some bs) n) (take (Z.to_nat n) bs).
Proof.
  intros Hn H0. split; cbn.
  - rewrite length_take. lia.
  - rewrite length_take, <- firstn_map, Nat.min_l by lia. done.
Qed.

Lemma rd_advance r pre rest : rd r (pre ++ rest) -> rd (advance (Z.of_nat (length pre)) r) rest.
Proof.
  intros [Hr Hd]. rewrite length_app in Hr, Hd. split; cbn; [lia|].
  unfold Data in *. cbn. rewrite Z2Nat.inj_add, Nat2Z.id, <- drop_drop by lia.
  rewrite <- (Nat.add_sub (length rest) (length pre)), Nat.add_comm, <- skipn_firstn_comm, Hd, map_app.
  by rewrite drop_app_length' by by rewrite length_map.
Qed.

Lemma load_rd r pre rest : rd r (pre ++ rest) ->
  Buffer.load (Data r) (Z.of_nat (length pre)) = Ret (map Some pre).
Proof.
  intros [_ Hd]. rewrite length_app in Hd.
  assert (length pre + length rest <= length (Data r))%nat as Hl.
  { apply (f_equal length) in Hd. rewrite length_take, length_map, length_app in Hd. lia. }
  unfold Buffer.load. rewrite (proj2 (Z.leb_le _ _)) by lia. rewrite Nat2Z.id. f_equal.
  apply (f_equal (take (length pre))) in Hd. rewrite take_take, Nat.min_l in Hd by lia. rewrite Hd, map_app.
  by rewrite take_app_length' by by rewrite length_map.
Qed.

Lemma ReadBytes_ok r pre rest n : rd r (pre ++ rest) -> n = Z.of_nat (length pre) ->
  ReadBytes n r = Ret (Some (map Some pre), advance n r) /\ rd (advance n r) rest.
Proof.
  intros Hr ->. split; [|by eapply rd_advance]. unfold ReadBytes. rewrite M_bind_get.
  rewrite (Length_rd _ _ Hr), length_app, (proj2 (Z.ltb_ge _ _)) by lia.
  by rewrite (M_bind_lift _ _ _ _ (load_rd _ _ _ Hr)).
Qed.

Lemma ReadBytes_short r rest n : rd r rest -> Z.of_nat (length rest) < n -> ReadBytes n r = Ret (None, r).
Proof.
  intros Hr Hn. unfold ReadBytes. rewrite M_bind_get, (Length_rd _ _ Hr), (proj2 (Z.ltb_lt _ _)) by lia. done.
Qed.

Lemma mapM_Some (bs : list byte) : mapM (M := option) id (map Some bs) = Some bs.
Proof. induction bs as [|b bs IH]; [done|]. cbn. unfold mbind in *. cbn in IH. by rewrite IH. Qed.

Lemma value_ok bs : value (map Some bs) = Ret (le_of_bytes bs).
Proof. unfold value. by rewrite mapM_Some. Qed.

Lemma ReadUInt_ok r pre n conv old bs rest : rd r (bs ++ rest) -> n = Z.of_nat (length bs) ->
  ReadUInt (map Some pre) n conv (Some old) r = Ret ((true, Some (conv (le_of_bytes (pre ++ bs)))), advance n r) /\
  rd (advance n r) rest.
Proof.
  intros Hr Hn. destruct (ReadBytes_ok _ _ _ _ Hr Hn) as [He Hr']. split; [|done].
  unfold ReadUInt. step He. by rewrite <- map_app, (M_bind_lift _ _ _ _ (value_ok _)).
Qed.

Lemma ReadUInt_short r pre n conv old rest : rd r rest -> Z.of_nat (length rest) < n ->
  ReadUInt pre n conv (Some old) r = Ret ((false, Some old), r).
Proof. intros Hr Hn. unfold ReadUInt. by step (ReadBytes_short _ _ _ Hr Hn). Qed.

(** One byte of a varint. *)
Lemma uvarint_byte x i : 0 <= x < 2 ^ (64 - i) -> 0 <= i <= 64 ->
  u64 (Z.shiftl (Z.land (u64 (wrapS 8 (x mod 128))) 127) i) = (x mod 128) * 2 ^ i /\
  u64 (Z.shiftl (Z.land (u64 (wrapS 8 (x mod 128 + 128))) 127) i) = (x mod 128) * 2 ^ i.
Proof.
  intros Hx Hi. pose proof (Z.mod_pos_bound x 128 ltac:(lia)) as Hr.
  assert (0 <= (x mod 128) * 2 ^ i < 2 ^ 64) as Hs.
  { assert (x mod 128 <= x) by (apply Z.mod_le; lia). replace 64 with ((64 - i) + i) by lia.
    rewrite Z.pow_add_r by lia. pose proof (Z.pow_pos_nonneg 2 i). nia. }
  change 127 with (Z.ones 7). rewrite !Z.land_ones, !Z.shiftl_mul_pow2 by lia. change (2 ^ 7) with 128.
  assert (u64 (wrapS 8 (x mod 128)) mod 128 = x mod 128) as ->.
  { rewrite (wrapS_small 8) by lia. rewrite u64_small by lia. apply Z.mod_small. lia. }
  assert (u64 (wrapS 8 (x mod 128 + 128)) mod 128 = x mod 128) as ->.
  { generalize dependent (x mod 128). intros y Hy _. unfold wrapS, wrapU. cbn.
    Z.to_euclidean_division_equations; lia. }
  split; by apply u64_small.
Qed.

Lemma uvarint_ok n m : forall x v old r rest, let i := 7 * (9 - Z.of_nat n) in
  (n <= 9)%nat -> m = S n -> 0 <= x < 2 ^ (64 - i) -> 0 <= v < 2 ^ i -> rd r (varint n x ++ rest) ->
  exists r', ReadUVarint_loop m i v old r = Ret ((true, Some (v + x * 2 ^ i)), r') /\ rd r' rest.
Proof.
  revert m. induction n as [|n IH]; intros m x v old r rest i Hn -> Hx Hv Hr.
  - cbn [ReadUVarint_loop]. change (64 - i) with 1 in Hx. cbn [varint app] in Hr.
    destruct (ReadBytes_ok r [z2b x] rest 1 Hr eq_refl) as [He Hr']. step He. rewrite (M_bind_lift x).
    2: { rewrite value_ok. cbn. rewrite b2z_z2b_small by lia. f_equal. lia. }
    destruct (uvarint_byte x i) as [Hb _]; [exact Hx|unfold i; lia|]. rewrite (Z.mod_small x 128) in Hb by lia. rewrite Hb.
    rewrite (wrapS_small 8), u64_small, (proj2 (Z.ltb_lt x 128)), lor_disjoint by (unfold i in *; lia).
    by eexists.
  - assert (0 <= i < 63) as Hi by (unfold i; lia).
    set (S9 := S n) in *. cbn [ReadUVarint_loop]. unfold S9 in Hr. cbn [varint] in Hr.
    destruct (Z.ltb_spec x 128) as [Hlt|Hge].
    + destruct (ReadBytes_ok r [z2b x] rest 1 Hr eq_refl) as [He Hr']. step He. rewrite (M_bind_lift x).
      2: { rewrite value_ok. cbn. rewrite b2z_z2b_small by lia. f_equal. lia. }
      destruct (uvarint_byte x i) as [Hb _]; [exact Hx|lia|]. rewrite (Z.mod_small x 128) in Hb by lia. rewrite Hb.
      rewrite (wrapS_small 8), u64_small, (proj2 (Z.ltb_lt x 128)), lor_disjoint by lia.
      by eexists.
    + destruct (ReadBytes_ok r [z2b (x mod 128 + 128)] (varint n (x / 128) ++ rest) 1 Hr eq_refl) as [He Hr'].
      pose proof (Z.mod_pos_bound x 128 ltac:(lia)) as Hm.
      step He. rewrite (M_bind_lift (x mod 128 + 128)).
      2: { rewrite value_ok. cbn. rewrite b2z_z2b_small by lia. f_equal. lia. }
      destruct (uvarint_byte x i) as [_ Hb]; [exact Hx|lia|]. rewrite Hb, lor_disjoint by lia.
      rewrite (proj2 (Z.ltb_ge _ 128)).
      2: { unfold wrapS, wrapU. cbn. Z.to_euclidean_division_equations; lia. }
      destruct (IH (S n) (x / 128) (v + x mod 128 * 2 ^ i) old (advance 1 r) rest) as (r' & He' & Hr''); [lia|done| | |done|].
      * replace (64 - i) with (7 + (64 - 7 * (9 - Z.of_nat n))) in Hx by (unfold i; lia).
        rewrite Z.pow_add_r in Hx by lia. split; [apply Z.div_pos; lia|]. apply Z.div_lt_upper_bound; lia.
      * replace (7 * (9 - Z.of_nat n)) with (7 + i) by (unfold i; lia). rewrite Z.pow_add_r by lia.
        change (2 ^ 7) with 128. nia.
      * replace (7 * (9 - Z.of_nat n)) with (i + 7) in He' by (unfold i; lia).
        exists r'. split; [|done]. unfold S9. rewrite He'. do 4 f_equal. rewrite Z.pow_add_r by lia.
        change (2 ^ 7) with 128. pose proof (Z.div_mod x 128). lia.
Qed.

(** Fewer bytes than the varint has: the read fails. *)
Lemma uvarint_short n m : forall x i v old r pre suf,
  varint n x = pre ++ suf -> suf <> [] -> rd r pre ->
  exists r', ReadUVarint_loop m i v old r = Ret ((false, Some old), r').
Proof.
  revert m. induction n as [|n IH]; intros m x i v old r pre suf Hv Hs Hr.
  all: destruct m as [|m]; [by exists r|]; cbn [ReadUVarint_loop].
  all: destruct pre as [|b pre]; [by step (ReadBytes_short r [] 1 Hr ltac:(cbn; lia)); exists r|].
  - cbn in Hv. injection Hv as _ Hv. destruct pre; [|done]. cbn in Hv. by subst.
  - cbn [varint] in Hv. destruct (Z.ltb_spec x 128) as [Hlt|Hge].
    { injection Hv as _ Hv. destruct pre; [|done]. cbn in Hv. by subst. }
    injection Hv as <- Hv. pose proof (Z.mod_pos_bound x 128 ltac:(lia)) as Hm.
    destruct (ReadBytes_ok r [z2b (x mod 128 + 128)] pre 1 Hr eq_refl) as [He Hr'].
    step He. rewrite (M_bind_lift (x mod 128 + 128)).
    2: { rewrite value_ok. cbn. rewrite b2z_z2b_small by lia. f_equal. lia. }
    rewrite (proj2 (Z.ltb_ge _ 128)); [by eapply IH|].
    unfold wrapS, wrapU. cbn. Z.to_euclidean_division_equations; lia.
Qed.

Lemma ReadString_ok r s rest old : rd r (s ++ rest) ->
  exists r', ReadString (Some old) (Z.of_nat (length s)) r = Ret ((true, Some (old ++ s)), r') /\ rd r' rest.
Proof.
  intros Hr. eexists. split; [|by eapply rd_advance]. cbn [ReadString]. rewrite M_bind_get.
  rewrite (Length_rd _ _ Hr), length_app, (proj2 (Z.ltb_ge _ _)) by lia.
  rewrite (M_bind_lift _ _ _ _ (load_rd _ _ _ Hr)), (M_bind_lift s) by (by rewrite mapM_Some). done.
Qed.

Lemma read_field_ok f r rest : field_ok f -> rd r (encode f ++ rest) ->
  exists r', read_field f r = Ret (Some f, r') /\ rd r' rest.
Proof.
  intros Hf Hr. destruct f as [v|v|v|v|v|v|s]; cbn [field_ok] in Hf; cbn [encode] in Hr; cbn [read_field].
  all: try (match type of Hr with rd _ (?bs ++ _) =>
      match goal with |- context [ReadUInt8] => destruct (ReadUInt_ok r [] 1 id 0 bs rest Hr eq_refl) as [He Hr']
      | |- context [ReadUInt16] => destruct (ReadUInt_ok r [] 2 NetworkToHost16 0 bs rest Hr eq_refl) as [He Hr']
      | |- context [ReadUInt24] => destruct (ReadUInt_ok r [x00] 3 NetworkToHost32 0 bs rest Hr eq_refl) as [He Hr']
      | |- context [ReadUInt32] => destruct (ReadUInt_ok r [] 4 NetworkToHost32 0 bs rest Hr eq_refl) as [He Hr']
      | |- context [ReadUInt64] => destruct (ReadUInt_ok r [] 8 NetworkToHost64 0 bs rest Hr eq_refl) as [He Hr'] end end;
      eexists; split; [rewrite (M_bind_eq _ _ _ _ _ He); cbn [got mret]; unfold mret, M_ret; do 4 f_equal|exact Hr']).
  - change (be_of_bytes (be_to_bytes 1 v) = v). by apply be_of_to_bytes.
  - unfold NetworkToHost16, be16toh. cbn [app]. rewrite bswap_of_bytes by done. by apply be_of_to_bytes.
  - unfold NetworkToHost32, be32toh. rewrite bswap_of_bytes by done. cbn [app]. rewrite be_of_bytes_cons.
    rewrite be_of_to_bytes by done. cbn. lia.
  - unfold NetworkToHost32, be32toh. cbn [app]. rewrite bswap_of_bytes by done. by apply be_of_to_bytes.
  - unfold NetworkToHost64, be64toh. cbn [app]. rewrite bswap_of_bytes by done. by apply be_of_to_bytes.
  - destruct (uvarint_ok 9 10 v 0 0 r rest) as (r' & He & Hr'); [lia|done|cbn; lia|cbn; lia|done|].
    exists r'. split; [|done]. cbn [ReadUVarint]. change (7 * (9 - Z.of_nat 9)) with 0 in He. step He.
    cbn [got]. unfold mret, M_ret. do 4 f_equal. lia.
  - destruct (ReadString_ok r s rest [] Hr) as (r' & He & Hr'). exists r'. split; [by step He|done].
Qed.

Lemma read_field_short f r pre suf : encode f = pre ++ suf -> suf <> [] -> rd r pre ->
  exists r', read_field f r = Ret (None, r').
Proof.
  intros He Hs Hr. assert (length pre < length (encode f))%nat as Hl.
  { rewrite He, length_app. destruct suf; [done|]. cbn. lia. }
  destruct f as [v|v|v|v|v|v|s]; cbn [encode] in *; rewrite ?length_be_to_bytes in Hl; cbn [read_field].
  1-5: exists r; erewrite M_bind_eq by (apply (ReadUInt_short _ _ _ _ _ pre); [exact Hr|lia]); reflexivity.
  - destruct (uvarint_short 9 10 v 0 0 0 r pre suf He Hs Hr) as [r' Hr']. exists r'. by step Hr'.
  - exists r. cbn [ReadString]. unfold mbind at 1, M_bind at 1.
    rewrite M_bind_get, (Length_rd _ _ Hr), (proj2 (Z.ltb_lt _ _)) by lia. done.
Qed.

Lemma read_fields_ok fs : forall r rest, Forall field_ok fs -> rd r (encodes fs ++ rest) ->
  exists r', read_fields fs r = Ret (Some fs, r') /\ rd r' rest.
Proof.
  induction fs as [|f fs IH]; intros r rest Hok Hr; [by exists r|]. inversion Hok as [|? ? Hf Hfs]; subst.
  change (encodes (f :: fs)) with (encode f ++ encodes fs) in Hr. rewrite <- app_assoc in Hr.
  destruct (read_field_ok f r _ Hf Hr) as (r1 & He & Hr1). destruct (IH r1 rest Hfs Hr1) as (r2 & He2 & Hr2).
  exists r2. split; [|done]. cbn [read_fields]. step He. by step He2.
Qed.

Lemma read_fields_short fs : forall r n, Forall field_ok fs -> (n < length (encodes fs))%nat ->
  rd r (take n (encodes fs)) -> exists r', read_fields fs r = Ret (None, r').
Proof.
  induction fs as [|f fs IH]; intros r n Hok Hn Hr; [cbn in Hn; lia|]. inversion Hok as [|? ? Hf Hfs]; subst.
  change (encodes (f :: fs)) with (encode f ++ encodes fs) in *. rewrite length_app in Hn. cbn [read_fields].
  destruct (decide (n < length (encode f))%nat) as [Hlt|Hge].
  - rewrite take_app_le in Hr by lia.
    destruct (read_field_short f r (take n (encode f)) (drop n (encode f))) as [r' He];
      [by rewrite take_drop| |done|exists r'; by step He].
    intros Hd. apply (f_equal length) in Hd. rewrite length_drop in Hd. cbn in Hd. lia.
  - rewrite take_app_ge in Hr by lia. destruct (read_field_ok f r _ Hf Hr) as (r1 & He & Hr1).
    destruct (IH r1 (n - length (encode f))%nat Hfs) as [r2 He2]; [lia|done|].
    exists r2. step He. by step He2.
Qed.

(** A new writer. *)
Lemma ByteBufferWriter_ok :
  exists b, ByteBufferWriter BufferT_empty = Ret (tt, b) /\ buf_ok b /\ contents b = [] /\ size_ b = 0.
Proof. eexists. split; [vm_compute; reflexivity|]. split_and!; [|done|done]. split; cbn; [lia|]. vm_compute. reflexivity. Qed.

(** Numbers of 8, 16, 24, 32 and 64 bits, varints up to 2^64 - 1 and
    strings, written one after the other into a new [ByteBufferWriter], are in
    its buffer as their big-endian bytes, base-128 groups and characters; a
    [ByteBufferReader] on that buffer reads every one of them back and stops at
    the end; and when any number of bytes is missing at the end some read
    returns false, so no other value is ever made up from a truncated packet. *)
Theorem byte_buffer_roundtrip fs :
  Forall field_ok fs -> Z.of_nat (length (encodes fs)) < 2 ^ 61 ->
  (exists b r, (_ ← ByteBufferWriter; write_fields fs) BufferT_empty = Ret (tt, b) /\
    contents b = map Some (encodes fs) /\
    read_fields fs (ByteBufferReader_Writer b) = Ret (Some fs, r) /\ Length r = 0) /\
  (forall n, (n < length (encodes fs))%nat ->
    exists r, read_fields fs (Construct (map Some (encodes fs)) (Z.of_nat n)) = Ret (None, r)).
Proof.
  intros Hok Hlen. split.
  - destruct ByteBufferWriter_ok as (b0 & He0 & Hb0 & Hc0 & Hs0).
    destruct (write_fields_writes fs Hok b0 Hb0) as (b & He & Hb & Hc); [lia|]. rewrite Hc0 in Hc. cbn [app] in Hc.
    pose proof (length_contents _ Hb) as Hl. rewrite Hc, length_map in Hl.
    destruct (read_fields_ok fs (ByteBufferReader_Writer b) []) as (r & Hr & Hrd); [done| |].
    { rewrite app_nil_r. split; cbn; [lia|]. unfold Data. cbn. rewrite drop_0.
      rewrite <- (Nat2Z.id (length _)), Hl. exact Hc. }
    exists b, r. split_and!; [by step He0|done|done|]. by rewrite (Length_rd _ _ Hrd).
  - intros n Hn. apply (read_fields_short fs _ n Hok Hn).
    rewrite <- (Nat2Z.id n) at 2. apply rd_construct; lia.
Qed.

Lemma byte_buffer_roundtrip_witness :
  let fs := [F8 200; F16 40000; F24 70000; FVarint 300; FString (string_bytes "hi"); F32 4000000000; FVarint (2 ^ 64 - 1)] in
  encodes fs = map z2b [200; 156; 64; 1; 17; 112; 172; 2; 104; 105; 238; 107; 40; 0;
                        255; 255; 255; 255; 255; 255; 255; 255; 255; 1] /\
  exists b r, (_ ← ByteBufferWriter; write_fields fs) BufferT_empty = Ret (tt, b) /\
    contents b = map Some (encodes fs) /\
    read_fields fs (ByteBufferReader_Writer b) = Ret (Some fs, r) /\ Length r = 0.
Proof.
  split; [vm_compute; reflexivity|]. refine (proj1 (byte_buffer_roundtrip _ _ _)).
  - repeat constructor; cbn; lia.
  - vm_compute. reflexivity.
Defined.

(** [ReserveWriteBuffer] gives the start of the buffer, not of the bytes it has
    reserved: what is written there replaces what was in the buffer. *)
Example reserve_overwrites :
  (_ ← WriteBytes (string_bytes "abcd"); p ← ReserveWriteBuffer 2; _ ← set_index p x78; b ← get; mret (p, take 4 (contents b)))
    BufferT_empty ≫= (fun '(o, _) => Ret o)
  = Ret (0, map Some (string_bytes "xbcd")).
Proof. reflexivity. Qed.

(** A failed read of a varint has consumed the bytes it looked at; a failed
    read of fixed size has not. *)
Example failed_varint_consumes :
  (o ← ReadUVarint (Some 7); r ← get; mret (o, start_ r)) (Construct (map Some [x80; x80]) 2) ≫= (fun '(o, _) => Ret o)
    = Ret ((false, Some 7), 2) /\
  (o ← ReadUInt32 (Some 7); r ← get; mret (o, start_ r)) (Construct (map Some [x80; x80]) 2) ≫= (fun '(o, _) => Ret o)
    = Ret ((false, Some 7), 0).
Proof. split; reflexivity. Qed.

(** Ten bytes are the limit, and the tenth counts for one bit only. *)
Example uvarint_limit :
  ReadUVarint (Some 0) (Construct (map Some (repeat xff 10 ++ [x00])) 11) =
    Ret ((false, Some 0), MkReader (map Some (repeat xff 10 ++ [x00])) 11 10 11) /\
  exists r, ReadUVarint (Some 0) (Construct (map Some (repeat x80 9 ++ [x02])) 10) = Ret ((true, Some 0), r).
Proof. split; [reflexivity|]. eexists. vm_compute. reflexivity. Qed.
