(* ===== verification/ByteIo.v ===== *)
(** * [rtc_base/byte_io.h]: integers of any whole number of bytes

    [ByteReader<T, B>] and [ByteWriter<T, B>] for an integer type of [sz] bytes
    and [B] of them on the wire.  A value of [T] is the pattern of its bits
    until it is reinterpreted; a left shift into the sign bit gives that pattern
    (C++14).  [data] is the memory from the pointer on. *)

From S2P Require Import Prelude Sds ByteOrder.
#[local] Open Scope Z_scope.
#[local] Open Scope xrtc_scope.

(** [data[i]], and [data[i] = v]. *)
Definition io_byte (data : list byte) (i : Z) : res Z := bs ← load data i 1; Ret (le_of_bytes bs).
Definition set_byte (data : list byte) (i v : Z) : res (list byte) := store data i [z2b v].

Section byte_io.
Context (sz : Z).

Definition width : Z := 8 * sz.
(** [static_cast<T>(data[i]) << k]. *)
Definition shifted (data : list byte) (i k : Z) : res Z := b ← io_byte data i; Ret (wrapU width (Z.shiftl b k)).

(** ** Unsigned, any [B] *)

(** [for (unsigned int i = 0; i < B; ++i)]: [n] rounds are left. *)
Fixpoint InternalReadBigEndian_loop (n : nat) (B i val : Z) (data : list byte) : res Z :=
  match n with
  | O => Ret val
  | S n => v ← shifted data i ((B - 1 - i) * 8); InternalReadBigEndian_loop n B (i + 1) (Z.lor val v) data
  end.
Definition InternalReadBigEndian (B : Z) (data : list byte) : res Z :=
  InternalReadBigEndian_loop (Z.to_nat B) B 0 0 data.
Fixpoint InternalReadLittleEndian_loop (n : nat) (i val : Z) (data : list byte) : res Z :=
  match n with
  | O => Ret val
  | S n => v ← shifted data i (i * 8); InternalReadLittleEndian_loop n (i + 1) (Z.lor val v) data
  end.
Definition InternalReadLittleEndian (B : Z) (data : list byte) : res Z :=
  InternalReadLittleEndian_loop (Z.to_nat B) 0 0 data.

Fixpoint WriteBigEndian_loop (n : nat) (B i val : Z) (data : list byte) : res (list byte) :=
  match n with
  | O => Ret data
  | S n => data ← set_byte data i (Z.shiftr val ((B - 1 - i) * 8)); WriteBigEndian_loop n B (i + 1) val data
  end.
Fixpoint WriteLittleEndian_loop (n : nat) (i val : Z) (data : list byte) : res (list byte) :=
  match n with
  | O => Ret data
  | S n => data ← set_byte data i (Z.shiftr val (i * 8)); WriteLittleEndian_loop n (i + 1) val data
  end.

(** ** Unsigned, 1, 2, 4 and 8 bytes *)

(** The bytes at [data[i]], [data[i + 1]], ... shifted by the numbers [ks] and
    or-ed. *)
Fixpoint or_shifted (ks : list Z) (i : Z) (data : list byte) : res Z :=
  match ks with
  | [] => Ret 0
  | k :: ks => v ← shifted data i k; vs ← or_shifted ks (i + 1) data; Ret (Z.lor v vs)
  end.
(** [data[0] = val >> k0; data[1] = val >> k1; ...]. *)
Fixpoint store_shifted (ks : list Z) (i val : Z) (data : list byte) : res (list byte) :=
  match ks with
  | [] => Ret data
  | k :: ks => data ← set_byte data i (Z.shiftr val k); store_shifted ks (i + 1) val data
  end.

Definition ReadBigEndian_1 : list byte -> res Z := fun data => io_byte data 0.
Definition ReadLittleEndian_1 : list byte -> res Z := fun data => io_byte data 0.
Definition WriteBigEndian_1 (data : list byte) (val : Z) : res (list byte) := set_byte data 0 val.
Definition WriteLittleEndian_1 (data : list byte) (val : Z) : res (list byte) := set_byte data 0 val.

Definition ReadBigEndian_2 : list byte -> res Z := or_shifted [8; 0] 0.
Definition ReadLittleEndian_2 : list byte -> res Z := or_shifted [0; 8] 0.
Definition WriteBigEndian_2 (data : list byte) (val : Z) : res (list byte) := store_shifted [8; 0] 0 val data.
Definition WriteLittleEndian_2 (data : list byte) (val : Z) : res (list byte) := store_shifted [0; 8] 0 val data.

Definition ReadBigEndian_4 : list byte -> res Z := or_shifted [24; 16; 8; 0] 0.
Definition ReadLittleEndian_4 : list byte -> res Z := or_shifted [0; 8; 16; 24] 0.
Definition WriteBigEndian_4 (data : list byte) (val : Z) : res (list byte) := store_shifted [24; 16; 8; 0] 0 val data.
Definition WriteLittleEndian_4 (data : list byte) (val : Z) : res (list byte) := store_shifted [0; 8; 16; 24] 0 val data.

Definition ReadBigEndian_8 : list byte -> res Z := or_shifted [56; 48; 40; 32; 24; 16; 8; 0] 0.
Definition ReadLittleEndian_8 : list byte -> res Z := or_shifted [0; 8; 16; 24; 32; 40; 48; 56] 0.
Definition WriteBigEndian_8 (data : list byte) (val : Z) : res (list byte) :=
  store_shifted [56; 48; 40; 32; 24; 16; 8; 0] 0 val data.
Definition WriteLittleEndian_8 (data : list byte) (val : Z) : res (list byte) :=
  store_shifted [0; 8; 16; 24; 32; 40; 48; 56] 0 val data.

(** The specialisation that [B] selects. *)
Definition special {A} (B : Z) (one two four eight other : A) : A :=
  if B =? 1 then one else if B =? 2 then two else if B =? 4 then four else if B =? 8 then eight else other.

Definition ReadBigEndian_unsigned (B : Z) : list byte -> res Z :=
  special B ReadBigEndian_1 ReadBigEndian_2 ReadBigEndian_4 ReadBigEndian_8 (InternalReadBigEndian B).
Definition ReadLittleEndian_unsigned (B : Z) : list byte -> res Z :=
  special B ReadLittleEndian_1 ReadLittleEndian_2 ReadLittleEndian_4 ReadLittleEndian_8 (InternalReadLittleEndian B).
Definition WriteBigEndian_unsigned (B : Z) : list byte -> Z -> res (list byte) :=
  special B WriteBigEndian_1 WriteBigEndian_2 WriteBigEndian_4 WriteBigEndian_8
    (fun data val => WriteBigEndian_loop (Z.to_nat B) B 0 val data).
Definition WriteLittleEndian_unsigned (B : Z) : list byte -> Z -> res (list byte) :=
  special B WriteLittleEndian_1 WriteLittleEndian_2 WriteLittleEndian_4 WriteLittleEndian_8
    (fun data val => WriteLittleEndian_loop (Z.to_nat B) 0 val data).

(** ** Signed *)

Definition ReinterpretAsSigned (unsigned_val : Z) : Z :=
  let kUnsignedHighestBitMask := wrapU width (Z.shiftl 1 (width - 1)) in
  let kSignedHighestBitMask := - 2 ^ (width - 1) in
  if negb (Z.land unsigned_val kUnsignedHighestBitMask =? 0) then
    let val := Z.land unsigned_val (wrapU width (Z.lnot kUnsignedHighestBitMask)) in
    Z.lor val kSignedHighestBitMask
  else unsigned_val.

(** The shift of the [int] 1 is undefined from 32 on. *)
Definition SignExtend (B val : Z) : res Z :=
  let kMsb := u8 (Z.shiftr val ((B - 1) * 8)) in
  if negb (Z.land kMsb 128 =? 0) then
    let shift := Z.rem B sz * 8 in
    if 32 <=? shift then Ub SignedOverflow
    else
      let kUsedBitsMask := wrapU width (Z.shiftl 1 shift - 1) in
      Ret (Z.lor (wrapU width (Z.lnot kUsedBitsMask)) val)
  else Ret val.

Definition ReadBigEndian_signed (B : Z) (data : list byte) : res Z :=
  unsigned_val ← ReadBigEndian_unsigned B data;
  unsigned_val ← (if B <? sz then SignExtend B unsigned_val else Ret unsigned_val);
  Ret (ReinterpretAsSigned unsigned_val).
Definition ReadLittleEndian_signed (B : Z) (data : list byte) : res Z :=
  unsigned_val ← ReadLittleEndian_unsigned B data;
  unsigned_val ← (if B <? sz then SignExtend B unsigned_val else Ret unsigned_val);
  Ret (ReinterpretAsSigned unsigned_val).

Definition ReinterpretAsUnsigned (val : Z) : Z := wrapU width val.
Definition WriteBigEndian_signed (B : Z) (data : list byte) (val : Z) : res (list byte) :=
  WriteBigEndian_unsigned B data (ReinterpretAsUnsigned val).
Definition WriteLittleEndian_signed (B : Z) (data : list byte) (val : Z) : res (list byte) :=
  WriteLittleEndian_unsigned B data (ReinterpretAsUnsigned val).
End byte_io.

(** ** The loops are the unrolled forms *)

Fixpoint ks_be (n : nat) : list Z := match n with O => [] | S n => 8 * Z.of_nat n :: ks_be n end.
Fixpoint ks_le (n : nat) (k : Z) : list Z := match n with O => [] | S n => k :: ks_le n (k + 8) end.

Section loops.
Context (sz : Z).

Lemma read_be_loop n : forall B i val data, B - i = Z.of_nat n ->
  InternalReadBigEndian_loop sz n B i val data = (r ← or_shifted sz (ks_be n) i data; Ret (Z.lor val r)).
Proof.
  induction n as [|n IH]; intros B i val data Hn; [by cbn; rewrite Z.lor_0_r|].
  cbn [InternalReadBigEndian_loop ks_be or_shifted]. replace ((B - 1 - i) * 8) with (8 * Z.of_nat n) by lia.
  destruct (shifted sz data i (8 * Z.of_nat n)) as [v| | |]; [|done..]. cbn [mbind res_bind].
  rewrite IH by lia. destruct (or_shifted sz (ks_be n) (i + 1) data); [|done..]. cbn. by rewrite Z.lor_assoc.
Qed.

Lemma read_le_loop n : forall i val data,
  InternalReadLittleEndian_loop sz n i val data = (r ← or_shifted sz (ks_le n (i * 8)) i data; Ret (Z.lor val r)).
Proof.
  induction n as [|n IH]; intros i val data; [by cbn; rewrite Z.lor_0_r|].
  cbn [InternalReadLittleEndian_loop ks_le or_shifted].
  destruct (shifted sz data i (i * 8)) as [v| | |]; [|done..]. cbn [mbind res_bind].
  rewrite IH. replace ((i + 1) * 8) with (i * 8 + 8) by lia.
  destruct (or_shifted sz (ks_le n (i * 8 + 8)) (i + 1) data); [|done..]. cbn. by rewrite Z.lor_assoc.
Qed.

Lemma write_be_loop n : forall B i val data, B - i = Z.of_nat n ->
  WriteBigEndian_loop n B i val data = store_shifted (ks_be n) i val data.
Proof.
  induction n as [|n IH]; intros B i val data Hn; [done|]. cbn [WriteBigEndian_loop ks_be store_shifted].
  replace ((B - 1 - i) * 8) with (8 * Z.of_nat n) by lia. destruct (set_byte data i _); [|done..]. apply IH. lia.
Qed.

Lemma write_le_loop n : forall i val data,
  WriteLittleEndian_loop n i val data = store_shifted (ks_le n (i * 8)) i val data.
Proof.
  induction n as [|n IH]; intros i val data; [done|]. cbn [WriteLittleEndian_loop ks_le store_shifted].
  destruct (set_byte data i _); [|done..]. cbn [mbind res_bind]. rewrite IH. do 2 f_equal. lia.
Qed.

(** ** What they read and write *)

Lemma byte_at_ok pre b post : io_byte (pre ++ b :: post) (Z.of_nat (length pre)) = Ret (b2z b).
Proof.
  unfold io_byte. rewrite load_ok by (rewrite ?length_app; cbn; lia).
  rewrite Nat2Z.id, drop_app_length. change (take (Z.to_nat 1) (b :: post)) with [b]. cbn [mbind res_bind le_of_bytes].
  f_equal. lia.
Qed.

Lemma set_byte_ok pre b post v :
  set_byte (pre ++ b :: post) (Z.of_nat (length pre)) v = Ret (pre ++ z2b v :: post).
Proof.
  unfold set_byte. rewrite store_ok by (rewrite ?length_app; cbn; lia). f_equal. unfold splice.
  rewrite Nat2Z.id, take_app_length, <- drop_drop, drop_app_length. done.
Qed.

Lemma shifted_ok pre b post k : 0 <= k -> k + 8 <= width sz ->
  shifted sz (pre ++ b :: post) (Z.of_nat (length pre)) k = Ret (b2z b * 2 ^ k).
Proof.
  intros Hk Hw. unfold shifted. rewrite byte_at_ok. cbn. f_equal. rewrite Z.shiftl_mul_pow2 by done.
  apply wrapU_small. pose proof (b2z_range b). pose proof (Z.pow_pos_nonneg 2 k).
  pose proof (Z.pow_le_mono_r 2 (k + 8) (width sz) ltac:(lia) Hw) as Hp. rewrite Z.pow_add_r in Hp by lia.
  change (2 ^ 8) with 256 in Hp. nia.
Qed.

Lemma pow256 n : 256 ^ Z.of_nat n = 2 ^ (8 * Z.of_nat n).
Proof. change 256 with (2 ^ 8). rewrite <- Z.pow_mul_r by lia. done. Qed.

Lemma or_be bs : forall pre post, 8 * Z.of_nat (length bs) <= width sz ->
  or_shifted sz (ks_be (length bs)) (Z.of_nat (length pre)) (pre ++ bs ++ post) = Ret (be_of_bytes bs).
Proof.
  induction bs as [|b bs IH]; intros pre post Hw; [done|]. cbn [length ks_be or_shifted app] in *.
  rewrite shifted_ok by lia. cbn [mbind res_bind].
  replace (Z.of_nat (length pre) + 1) with (Z.of_nat (length (pre ++ [b]))) by (rewrite length_app; cbn; lia).
  specialize (IH (pre ++ [b]) post ltac:(lia)). rewrite <- app_assoc in IH. cbn [app] in IH. rewrite IH.
  cbn [mbind res_bind]. f_equal. pose proof (be_of_bytes_range bs) as Hr. rewrite pow256 in Hr.
  rewrite Z.lor_comm, lor_disjoint, be_of_bytes_cons, pow256 by lia. ring.
Qed.

Lemma or_le bs : forall k pre post, 0 <= k -> k + 8 * Z.of_nat (length bs) <= width sz ->
  or_shifted sz (ks_le (length bs) k) (Z.of_nat (length pre)) (pre ++ bs ++ post) = Ret (le_of_bytes bs * 2 ^ k).
Proof.
  induction bs as [|b bs IH]; intros k pre post Hk Hw; [done|]. cbn [length ks_le or_shifted app] in *.
  rewrite shifted_ok by lia. cbn [mbind res_bind].
  replace (Z.of_nat (length pre) + 1) with (Z.of_nat (length (pre ++ [b]))) by (rewrite length_app; cbn; lia).
  specialize (IH (k + 8) (pre ++ [b]) post ltac:(lia) ltac:(lia)). rewrite <- app_assoc in IH. cbn [app] in IH. rewrite IH.
  cbn [mbind res_bind]. f_equal. pose proof (b2z_range b). pose proof (Z.pow_pos_nonneg 2 k).
  rewrite lor_disjoint; [|rewrite Z.pow_add_r by lia; change (2 ^ 8) with 256; nia|lia].
  cbn [le_of_bytes]. rewrite Z.pow_add_r by lia. change (2 ^ 8) with 256. ring.
Qed.
End loops.

Lemma le_to_bytes_snoc n : forall z, le_to_bytes (S n) z = le_to_bytes n z ++ [z2b (z / 256 ^ Z.of_nat n)].
Proof.
  induction n as [|n IH]; intros z; [cbn; by rewrite Z.div_1_r|].
  change (le_to_bytes (S (S n)) z) with (z2b z :: le_to_bytes (S n) (z / 256)). rewrite IH. cbn [le_to_bytes app].
  rewrite Nat2Z.inj_succ, Z.pow_succ_r, Z.div_div by lia. done.
Qed.
Lemma be_to_bytes_cons n z : be_to_bytes (S n) z = z2b (z / 256 ^ Z.of_nat n) :: be_to_bytes n z.
Proof. unfold be_to_bytes. by rewrite le_to_bytes_snoc, rev_app_distr. Qed.

Lemma store_be v old : forall pre post,
  store_shifted (ks_be (length old)) (Z.of_nat (length pre)) v (pre ++ old ++ post) =
  Ret (pre ++ be_to_bytes (length old) v ++ post).
Proof.
  induction old as [|b old IH]; intros pre post; [done|]. cbn [length ks_be store_shifted app].
  rewrite set_byte_ok. cbn [mbind res_bind]. rewrite be_to_bytes_cons, pow256, Z.shiftr_div_pow2 by lia.
  replace (Z.of_nat (length pre) + 1) with (Z.of_nat (length (pre ++ [b]))) by (rewrite length_app; cbn; lia).
  specialize (IH (pre ++ [z2b (v / 2 ^ (8 * Z.of_nat (length old)))]) post).
  rewrite !length_app in *. rewrite <- !app_assoc in IH. exact IH.
Qed.

Lemma store_le v old : forall k pre post, 0 <= k ->
  store_shifted (ks_le (length old) k) (Z.of_nat (length pre)) v (pre ++ old ++ post) =
  Ret (pre ++ le_to_bytes (length old) (v / 2 ^ k) ++ post).
Proof.
  induction old as [|b old IH]; intros k pre post Hk; [done|]. cbn [length ks_le store_shifted app le_to_bytes].
  rewrite set_byte_ok. cbn [mbind res_bind]. rewrite Z.shiftr_div_pow2 by lia.
  replace (Z.of_nat (length pre) + 1) with (Z.of_nat (length (pre ++ [b]))) by (rewrite length_app; cbn; lia).
  specialize (IH (k + 8) (pre ++ [z2b (v / 2 ^ k)]) post ltac:(lia)).
  rewrite Z.pow_add_r, <- Z.div_div in IH by lia. change (2 ^ 8) with 256 in IH.
  rewrite !length_app in *. rewrite <- !app_assoc in IH. exact IH.
Qed.

(** The specialisations agree with the loops. *)
Section unsigned.
Context (sz : Z) (B : Z) (HB : 1 <= B <= sz) (Hsz : sz <= 8).

Lemma special_read_be data : B <> 1 -> ReadBigEndian_unsigned sz B data = or_shifted sz (ks_be (Z.to_nat B)) 0 data.
Proof.
  pose proof (read_be_loop sz (Z.to_nat B) B 0 0 data ltac:(lia)) as Hl.
  assert ((r ← or_shifted sz (ks_be (Z.to_nat B)) 0 data; Ret (Z.lor 0 r)) = or_shifted sz (ks_be (Z.to_nat B)) 0 data) as Hid
    by (by destruct (or_shifted _ _ _ _)).
  rewrite Hid in Hl. unfold ReadBigEndian_unsigned, InternalReadBigEndian. revert Hl. clear HB Hid.
  intros Hl Hne. unfold special. rewrite (proj2 (Z.eqb_neq B 1)) by done.
  destruct (Z.eqb_spec B 2) as [->|]; [done|]. destruct (Z.eqb_spec B 4) as [->|]; [done|].
  destruct (Z.eqb_spec B 8) as [->|]; [done|]. exact Hl.
Qed.

Lemma special_read_le data : B <> 1 -> ReadLittleEndian_unsigned sz B data = or_shifted sz (ks_le (Z.to_nat B) 0) 0 data.
Proof.
  pose proof (read_le_loop sz (Z.to_nat B) 0 0 data) as Hl. change (0 * 8) with 0 in Hl.
  assert ((r ← or_shifted sz (ks_le (Z.to_nat B) 0) 0 data; Ret (Z.lor 0 r)) = or_shifted sz (ks_le (Z.to_nat B) 0) 0 data) as Hid
    by (by destruct (or_shifted _ _ _ _)).
  rewrite Hid in Hl. intros Hne. unfold ReadLittleEndian_unsigned, InternalReadLittleEndian, special.
  rewrite (proj2 (Z.eqb_neq B 1)) by done.
  destruct (Z.eqb_spec B 2) as [->|]; [done|]. destruct (Z.eqb_spec B 4) as [->|]; [done|].
  destruct (Z.eqb_spec B 8) as [->|]; [done|]. exact Hl.
Qed.

Lemma special_write_be data v : B <> 1 -> WriteBigEndian_unsigned B data v = store_shifted (ks_be (Z.to_nat B)) 0 v data.
Proof.
  pose proof (write_be_loop (Z.to_nat B) B 0 v data ltac:(lia)) as Hl. intros Hne.
  unfold WriteBigEndian_unsigned, special. rewrite (proj2 (Z.eqb_neq B 1)) by done.
  destruct (Z.eqb_spec B 2) as [->|]; [done|]. destruct (Z.eqb_spec B 4) as [->|]; [done|].
  destruct (Z.eqb_spec B 8) as [->|]; [done|]. exact Hl.
Qed.

Lemma special_write_le data v : B <> 1 -> WriteLittleEndian_unsigned B data v = store_shifted (ks_le (Z.to_nat B) 0) 0 v data.
Proof.
  pose proof (write_le_loop (Z.to_nat B) 0 v data) as Hl. intros Hne.
  unfold WriteLittleEndian_unsigned, special. rewrite (proj2 (Z.eqb_neq B 1)) by done.
  destruct (Z.eqb_spec B 2) as [->|]; [done|]. destruct (Z.eqb_spec B 4) as [->|]; [done|].
  destruct (Z.eqb_spec B 8) as [->|]; [done|]. exact Hl.
Qed.

Lemma read_unsigned bs post : Z.of_nat (length bs) = B ->
  ReadBigEndian_unsigned sz B (bs ++ post) = Ret (be_of_bytes bs) /\
  ReadLittleEndian_unsigned sz B (bs ++ post) = Ret (le_of_bytes bs).
Proof.
  intros Hl. destruct (decide (B = 1)) as [H1|H1].
  - rewrite H1 in *. destruct bs as [|b [|? ?]]; try (cbn in Hl; lia).
    cbn [special app]. unfold ReadBigEndian_unsigned, ReadLittleEndian_unsigned, ReadBigEndian_1, ReadLittleEndian_1.
    cbn [special Z.eqb Pos.eqb]. pose proof (byte_at_ok [] b post) as Hb.
    cbn [app length] in Hb. change (Z.of_nat 0) with 0 in Hb. rewrite Hb. unfold be_of_bytes. cbn [rev app le_of_bytes]. split; f_equal; lia.
  - rewrite special_read_be, special_read_le by done. replace (Z.to_nat B) with (length bs) by lia.
    pose proof (or_be sz bs [] post) as Hb. pose proof (or_le sz bs 0 [] post) as Hle. unfold width in *.
    cbn [app length] in *. change (Z.of_nat 0) with 0 in *.
    rewrite Hb, Hle by lia. split; [done|]. f_equal. change (2 ^ 0) with 1. lia.
Qed.

Lemma write_unsigned old post v : Z.of_nat (length old) = B ->
  WriteBigEndian_unsigned B (old ++ post) v = Ret (be_to_bytes (Z.to_nat B) v ++ post) /\
  WriteLittleEndian_unsigned B (old ++ post) v = Ret (le_to_bytes (Z.to_nat B) v ++ post).
Proof.
  intros Hl. destruct (decide (B = 1)) as [H1|H1].
  - rewrite H1 in *. destruct old as [|b [|? ?]]; try (cbn in Hl; lia).
    unfold WriteBigEndian_unsigned, WriteLittleEndian_unsigned, WriteBigEndian_1, WriteLittleEndian_1.
    cbn [special Z.eqb Pos.eqb app]. pose proof (set_byte_ok [] b post v) as Hb.
    cbn [app length] in Hb. change (Z.of_nat 0) with 0 in Hb. by rewrite Hb.
  - rewrite special_write_be, special_write_le by done. replace (Z.to_nat B) with (length old) by lia.
    pose proof (store_be v old [] post) as Hb. pose proof (store_le v old 0 [] post) as Hle.
    cbn [app length] in *. change (Z.of_nat 0) with 0 in *.
    rewrite Hb, Hle by lia. split; [done|]. change (2 ^ 0) with 1. by rewrite Z.div_1_r.
Qed.
End unsigned.

(** ** Signs *)

Lemma land_pow2 u k : 0 <= k -> 0 <= u < 2 ^ (k + 1) -> Z.land u (2 ^ k) = if u <? 2 ^ k then 0 else 2 ^ k.
Proof.
  intros Hk Hu. rewrite Z.pow_add_r in Hu by lia. apply Z.bits_inj'. intros i Hi. rewrite Z.land_spec, Z.pow2_bits_eqb by lia.
  assert (Z.testbit u k = negb (u <? 2 ^ k)) as Ht.
  { apply eq_true_iff_eq. rewrite Z.testbit_true, negb_true_iff, Z.ltb_ge by lia. pose proof (Z.pow_pos_nonneg 2 k).
    destruct (Z.lt_ge_cases u (2 ^ k)).
    - rewrite Z.div_small by lia. change (0 mod 2) with 0. lia.
    - replace (u / 2 ^ k) with 1 by (apply (Z.div_unique u (2 ^ k) 1 (u - 2 ^ k)); lia). change (1 mod 2) with 1. lia. }
  destruct (Z.eqb_spec k i) as [->|Hne].
  - rewrite Ht, andb_true_r. destruct (u <? 2 ^ i); cbn [negb]; [by rewrite Z.bits_0|by rewrite Z.pow2_bits_true].
  - rewrite andb_false_r. destruct (u <? 2 ^ k); [by rewrite Z.bits_0|]. by rewrite Z.pow2_bits_false.
Qed.

Lemma pow2_double k : 0 <= k -> 2 ^ (k + 1) = 2 * 2 ^ k.
Proof. intros. rewrite Z.pow_add_r by lia. change (2 ^ 1) with 2. lia. Qed.

(** Two's complement. *)
Lemma reinterpret_signed sz u : 1 <= sz -> 0 <= u < 2 ^ width sz -> ReinterpretAsSigned sz u = wrapS (width sz) u.
Proof.
  intros Hsz Hu. unfold ReinterpretAsSigned. set (k := width sz - 1). assert (0 <= k) as Hk by (unfold k, width; lia).
  replace (width sz) with (k + 1) in * by (unfold k; lia). clearbody k. pose proof (pow2_double k Hk) as Hd.
  pose proof (Z.pow_pos_nonneg 2 k).
  rewrite Z.shiftl_1_l, (wrapU_small (k + 1) (2 ^ k)), land_pow2 by lia.
  destruct (Z.ltb_spec u (2 ^ k)) as [Hlt|Hge]; cbn [negb Z.eqb].
  - rewrite wrapS_small; [done|lia|]. replace (k + 1 - 1) with k by lia. lia.
  - rewrite (proj2 (Z.eqb_neq (2 ^ k) 0)) by lia. cbn [negb].
    assert (wrapU (k + 1) (Z.lnot (2 ^ k)) = Z.ones k) as ->.
    { unfold wrapU. rewrite Z.ones_equiv. pose proof (Z.add_lnot_diag (2 ^ k)).
      replace (Z.lnot (2 ^ k)) with (Z.pred (2 ^ k) + (-1) * 2 ^ (k + 1)) by lia.
      rewrite Z_mod_plus_full. apply Z.mod_small. lia. }
    rewrite Z.land_ones by done.
    assert (u mod 2 ^ k = u - 2 ^ k) as ->
      by (symmetry; apply (Z.mod_unique_pos u (2 ^ k) 1); lia).
    replace (- 2 ^ k) with (-1 * 2 ^ k) by lia. rewrite lor_disjoint by lia.
    unfold wrapS. replace (k + 1 - 1) with k by lia.
    rewrite <- (Z.mod_unique_pos (u + 2 ^ k) (2 ^ (k + 1)) 1 (u - 2 ^ k)); lia.
Qed.

Lemma sign_extend sz B u : sz <= 8 -> 1 <= B < sz -> 0 <= u < 2 ^ (8 * B) ->
  SignExtend sz B u =
    if u <? 2 ^ (8 * B - 1) then Ret u
    else if 4 <=? B then Ub SignedOverflow else Ret (2 ^ width sz - 2 ^ (8 * B) + u).
Proof.
  intros Hsz HB Hu. unfold SignExtend. set (k := 8 * (B - 1)). rewrite Z.shiftr_div_pow2 by lia.
  replace ((B - 1) * 8) with k by (unfold k; lia).
  assert (2 ^ (8 * B) = 256 * 2 ^ k) as Hp by (unfold k; replace (8 * B) with (8 + 8 * (B - 1)) by lia; rewrite Z.pow_add_r by lia; done).
  assert (2 ^ (8 * B - 1) = 128 * 2 ^ k) as Hp1 by (unfold k; replace (8 * B - 1) with (7 + 8 * (B - 1)) by lia; rewrite Z.pow_add_r by lia; done).
  pose proof (Z.pow_pos_nonneg 2 k ltac:(lia) ltac:(unfold k; lia)).
  assert (0 <= u / 2 ^ k < 256) as Hm by (split; [apply Z.div_pos; lia|apply Z.div_lt_upper_bound; lia]).
  rewrite (wrapU_small 8) by lia. change 128 with (2 ^ 7) at 1. rewrite land_pow2 by (change (2 ^ (7 + 1)) with 256; lia).
  change (2 ^ 7) with 128. rewrite Hp1.
  assert (u / 2 ^ k <? 128 = (u <? 128 * 2 ^ k)) as ->.
  { apply eq_true_iff_eq. rewrite !Z.ltb_lt. split; intros.
    - pose proof (Z.div_mod u (2 ^ k)). pose proof (Z.mod_pos_bound u (2 ^ k)). nia.
    - apply Z.div_lt_upper_bound; lia. }
  destruct (Z.ltb_spec u (128 * 2 ^ k)) as [Hlt|Hge]; [done|]. cbn [negb Z.eqb].
  rewrite Z.rem_small by lia. destruct (Z.leb_spec 4 B) as [H4|H4]; [by rewrite (proj2 (Z.leb_le _ _)) by lia|].
  rewrite (proj2 (Z.leb_gt 32 _)) by lia. f_equal. replace (B * 8) with (8 * B) by lia.
  assert (2 ^ width sz = 2 ^ (width sz - 8 * B) * 2 ^ (8 * B)) as Hw
    by (rewrite <- Z.pow_add_r by (unfold width; lia); f_equal; lia).
  pose proof (Z.pow_pos_nonneg 2 (width sz - 8 * B) ltac:(lia) ltac:(unfold width; lia)).
  rewrite Z.shiftl_1_l. rewrite (wrapU_small (width sz) (2 ^ (8 * B) - 1)) by nia.
  assert (wrapU (width sz) (Z.lnot (2 ^ (8 * B) - 1)) = (2 ^ (width sz - 8 * B) - 1) * 2 ^ (8 * B)) as ->.
  { unfold wrapU. pose proof (Z.add_lnot_diag (2 ^ (8 * B) - 1)).
    replace (Z.lnot (2 ^ (8 * B) - 1)) with ((2 ^ (width sz - 8 * B) - 1) * 2 ^ (8 * B) + (-1) * 2 ^ width sz) by lia.
    rewrite Z_mod_plus_full. apply Z.mod_small. nia. }
  rewrite Z.lor_comm, lor_disjoint by lia. lia.
Qed.

Lemma le_of_to_bytes_mod n : forall z, le_of_bytes (le_to_bytes n z) = z mod 256 ^ Z.of_nat n.
Proof.
  induction n as [|n IH]; intros z; [cbn; by rewrite Z.mod_1_r|]. cbn [le_to_bytes le_of_bytes].
  rewrite IH, b2z_z2b, Nat2Z.inj_succ, Z.pow_succ_r, Z.rem_mul_r by lia. done.
Qed.

(** The pattern that a signed value leaves on the wire, read as a signed value. *)
Lemma signed_back sz B v : sz <= 8 -> 1 <= B <= sz -> - 2 ^ (8 * B - 1) <= v < 2 ^ (8 * B - 1) ->
  (u ← (if B <? sz then SignExtend sz B (v mod 2 ^ (8 * B)) else Ret (v mod 2 ^ (8 * B))); Ret (ReinterpretAsSigned sz u)) =
  if (B <? sz) && (4 <=? B) && (v <? 0) then Ub SignedOverflow else Ret v.
Proof.
  intros Hsz HB Hv. pose proof (pow2_double (8 * B - 1) ltac:(lia)) as Hd. replace (8 * B - 1 + 1) with (8 * B) in Hd by lia.
  set (h := 2 ^ (8 * B - 1)) in *. pose proof (Z.pow_pos_nonneg 2 (8 * B - 1) ltac:(lia) ltac:(lia)) as Hh. fold h in Hh.
  assert (v mod 2 ^ (8 * B) = if v <? 0 then v + 2 ^ (8 * B) else v) as ->.
  { destruct (Z.ltb_spec v 0).
    - symmetry. apply (Z.mod_unique_pos v (2 ^ (8 * B)) (-1)); lia.
    - apply Z.mod_small. lia. }
  set (u := if v <? 0 then v + 2 ^ (8 * B) else v).
  assert (0 <= u < 2 ^ (8 * B)) as Hu by (unfold u; destruct (Z.ltb_spec v 0); lia).
  assert (2 ^ (8 * B) <= 2 ^ width sz) as Hw by (apply Z.pow_le_mono_r; unfold width; lia).
  destruct (Z.ltb_spec B sz) as [Hlt|Hge].
  - rewrite sign_extend by (done || lia). fold h. cbn [andb].
    pose proof (Z.pow_le_mono_r 2 (8 * B + 1) (width sz) ltac:(lia) ltac:(unfold width; lia)) as Hw1.
    rewrite pow2_double in Hw1 by lia.
    pose proof (pow2_double (width sz - 1) ltac:(unfold width; lia)) as Hdw. replace (width sz - 1 + 1) with (width sz) in Hdw by lia.
    unfold u in *. destruct (Z.ltb_spec v 0) as [Hneg|Hpos].
    + rewrite (proj2 (Z.ltb_ge _ h)) by lia. rewrite andb_true_r. destruct (4 <=? B); [done|]. cbn [mbind res_bind]. f_equal.
      rewrite reinterpret_signed by lia. unfold wrapS.
      rewrite <- (Z.mod_unique_pos _ (2 ^ width sz) 1 (v + 2 ^ (width sz - 1))); lia.
    + rewrite (proj2 (Z.ltb_lt _ h)), andb_false_r by lia. cbn [mbind res_bind]. f_equal.
      rewrite reinterpret_signed, wrapS_small; unfold width in *; lia.
  - assert (B = sz) as -> by lia. cbn [andb mbind res_bind]. f_equal. change (8 * sz) with (width sz) in *.
    rewrite reinterpret_signed by lia. unfold u in *. destruct (Z.ltb_spec v 0).
    + unfold wrapS. fold h. rewrite <- (Z.mod_unique_pos _ (2 ^ width sz) 1 (v + h)); lia.
    + apply wrapS_small; [unfold width; lia|]. fold h. lia.
Qed.

(** For every integer type and every number [B] of bytes that the templates
    admit, unsigned values of [8 B] bits and signed ones of that width are
    written to the first [B] bytes of the memory only, big-endian or
    little-endian as asked (whether the unrolled specialisation or the loop is
    chosen), and are read back.  The exception is reading a negative number of
    4 to 7 bytes into 64 bits: the mask of the sign extension shifts an int by 32
    or more, which is undefined. *)
Theorem byte_io_roundtrip sz B data v :
  1 <= B <= sz -> sz <= 8 -> B <= Z.of_nat (length data) ->
  let rest := drop (Z.to_nat B) data in
  (0 <= v < 2 ^ (8 * B) -> exists be le,
    WriteBigEndian_unsigned B data v = Ret (be ++ rest) /\ WriteLittleEndian_unsigned B data v = Ret (le ++ rest) /\
    be = rev le /\ be_of_bytes be = v /\ Z.of_nat (length be) = B /\
    ReadBigEndian_unsigned sz B (be ++ rest) = Ret v /\ ReadLittleEndian_unsigned sz B (le ++ rest) = Ret v) /\
  (- 2 ^ (8 * B - 1) <= v < 2 ^ (8 * B - 1) -> exists be le,
    WriteBigEndian_signed sz B data v = Ret (be ++ rest) /\ WriteLittleEndian_signed sz B data v = Ret (le ++ rest) /\
    be = rev le /\ be_of_bytes be = v mod 2 ^ (8 * B) /\ Z.of_nat (length be) = B /\
    let expected := if (B <? sz) && (4 <=? B) && (v <? 0) then Ub SignedOverflow else Ret v in
    ReadBigEndian_signed sz B (be ++ rest) = expected /\ ReadLittleEndian_signed sz B (le ++ rest) = expected).
Proof.
  intros HB Hsz Hdata rest.
  assert (Z.of_nat (length (take (Z.to_nat B) data)) = B) as Hl by (rewrite length_take; lia).
  assert (forall w, WriteBigEndian_unsigned B data w = Ret (be_to_bytes (Z.to_nat B) w ++ rest) /\
    WriteLittleEndian_unsigned B data w = Ret (le_to_bytes (Z.to_nat B) w ++ rest)) as Hw.
  { intros w. destruct (write_unsigned sz B HB (take (Z.to_nat B) data) rest w Hl) as [W1 W2].
    unfold rest in W1, W2. by rewrite take_drop in W1, W2. }
  assert (forall w, ReadBigEndian_unsigned sz B (be_to_bytes (Z.to_nat B) w ++ rest) = Ret (w mod 2 ^ (8 * B)) /\
    ReadLittleEndian_unsigned sz B (le_to_bytes (Z.to_nat B) w ++ rest) = Ret (w mod 2 ^ (8 * B)) /\
    be_of_bytes (be_to_bytes (Z.to_nat B) w) = w mod 2 ^ (8 * B)) as Hr.
  { intros w. assert (be_of_bytes (be_to_bytes (Z.to_nat B) w) = w mod 2 ^ (8 * B)) as He.
    { unfold be_of_bytes, be_to_bytes. rewrite rev_involutive, le_of_to_bytes_mod, pow256. do 2 f_equal. lia. }
    destruct (read_unsigned sz B HB (be_to_bytes (Z.to_nat B) w) rest) as [H1 _]; [rewrite length_be_to_bytes; lia|].
    destruct (read_unsigned sz B HB (le_to_bytes (Z.to_nat B) w) rest) as [_ H2]; [rewrite length_le_to_bytes; lia|].
    rewrite H1, H2, He, le_of_to_bytes_mod, pow256. split_and!; [done| |done]. do 3 f_equal. lia. }
  split; intros Hv.
  - destruct (Hw v) as [W1 W2], (Hr v) as (R1 & R2 & R3). rewrite Z.mod_small in R1, R2, R3 by lia.
    eexists _, _. split; [exact W1|]. split; [exact W2|]. split_and!; [done|done|rewrite length_be_to_bytes; lia|done|done].
  - unfold WriteBigEndian_signed, WriteLittleEndian_signed, ReinterpretAsUnsigned.
    destruct (Hw (wrapU (width sz) v)) as [W1 W2], (Hr (wrapU (width sz) v)) as (R1 & R2 & R3).
    assert (wrapU (width sz) v mod 2 ^ (8 * B) = v mod 2 ^ (8 * B)) as Hm.
    { unfold wrapU. replace (width sz) with (8 * B + (width sz - 8 * B)) by lia.
      rewrite Z.pow_add_r, Z.rem_mul_r by (unfold width; lia).
      rewrite (Z.mul_comm (2 ^ (8 * B)) (_ mod _)), Z_mod_plus_full. apply Zmod_mod. }
    rewrite Hm in *. eexists _, _. split; [exact W1|]. split; [exact W2|].
    split_and!; [done|done|rewrite length_be_to_bytes; lia| |].
    + unfold ReadBigEndian_signed. rewrite R1. cbn [mbind res_bind]. by apply signed_back.
    + unfold ReadLittleEndian_signed. rewrite R2. cbn [mbind res_bind]. by apply signed_back.
Qed.

Lemma byte_io_roundtrip_witness :
  let data := repeat x00 5 in let rest := drop 3 data in let v := -30000 in
  exists be le,
    WriteBigEndian_signed 4 3 data v = Ret (be ++ rest) /\ WriteLittleEndian_signed 4 3 data v = Ret (le ++ rest) /\
    be = rev le /\ be_of_bytes be = v mod 2 ^ 24 /\ Z.of_nat (length be) = 3 /\
    ReadBigEndian_signed 4 3 (be ++ rest) = Ret v /\ ReadLittleEndian_signed 4 3 (le ++ rest) = Ret v.
Proof. apply (byte_io_roundtrip 4 3 (repeat x00 5) (-30000)); [lia|lia|cbn; lia|cbn; lia]. Defined.

Example negative_40_bits : ReadBigEndian_signed 8 5 (repeat xff 5) = Ub SignedOverflow.
Proof. reflexivity. Qed.
