(* ===== verification/SigSlot.v ===== *)
(** * [rtc_base/third_party/sigslot/sigslot.h]: signals and slots

    A signal keeps the list of its connections and, while it fires, an iterator
    into that list; an object with slots keeps the set of the signals it is
    connected to.  Each side undoes the other's half when it goes away.  The
    methods called by a signal are code of the client: they may connect,
    disconnect, fire and destroy signals and objects, the ones involved
    included.  A run is therefore a machine that steps through the operations
    that are under way, the innermost first.

    Signals and objects are named by their addresses, which may be used again
    after a deletion; the nodes of the lists are numbered as they are allocated.
    The mutex policy is [single_threaded] (no locks). *)

From Stdlib Require Import Sorted.
From S2P Require Import Prelude.
#[local] Open Scope Z_scope.
#[local] Open Scope xrtc_scope.

(** ** Data *)

(** A node of [connections_list]; [pmethod] names the member function. *)
Record _opaque_connection := Conn { node : nat; pdest : loc; pmethod : Z }.
#[export] Instance connection_eq_dec : EqDecision _opaque_connection.
Proof. solve_decision. Defined.

(** [_signal_base]; the iterator [end()] is [None]. *)
Record _signal_base := Sig {
  m_connected_slots : list _opaque_connection;
  m_current_iterator : option nat;
}.

Record sigworld := SigWorld {
  signals : gmap loc _signal_base;
  m_senders : gmap loc (gset loc);             (* the living [has_slots] objects *)
  next_node : nat;
  calls : list (loc * _opaque_connection);     (* the calls made: the signal and the connection *)
}.

Definition set_signal (s : loc) (x : _signal_base) (w : sigworld) : sigworld :=
  SigWorld (<[s := x]> (signals w)) (m_senders w) (next_node w) (calls w).
Definition set_senders (d : loc) (ss : gset loc) (w : sigworld) : sigworld :=
  SigWorld (signals w) (<[d := ss]> (m_senders w)) (next_node w) (calls w).

Definition get_signal (s : loc) : M sigworld _signal_base :=
  w ← get; match signals w !! s with Some x => mret x | None => ub_ UseAfterFree end.
Definition get_senders (d : loc) : M sigworld (gset loc) :=
  w ← get; match m_senders w !! d with Some ss => mret ss | None => ub_ UseAfterFree end.

(** ** [has_slots], the half that records the senders *)

Definition do_signal_connect (p sender : loc) : M sigworld unit :=
  ss ← get_senders p; modify (set_senders p ({[sender]} ∪ ss)).
Definition do_signal_disconnect (p sender : loc) : M sigworld unit :=
  ss ← get_senders p; modify (set_senders p (ss ∖ {[sender]})).

(** ** [_signal_base] *)

(** The node that [++] leads to from node [n]. *)
Fixpoint next_of (n : nat) (cs : list _opaque_connection) : option nat :=
  match cs with
  | [] => None
  | c :: cs => if decide (node c = n) then node <$> head cs else next_of n cs
  end.

(** [m_connected_slots.erase(it)], the current iterator moved on when it is [it]. *)
Definition erase (c : _opaque_connection) (x : _signal_base) : _signal_base :=
  Sig (filter (fun c' => node c' <> node c) (m_connected_slots x))
      (if decide (m_current_iterator x = Some (node c)) then next_of (node c) (m_connected_slots x)
       else m_current_iterator x).

Definition push (c : _opaque_connection) (x : _signal_base) : _signal_base :=
  Sig (m_connected_slots x ++ [c]) (m_current_iterator x).

(** [m_connected_slots.push_back(...)]. *)
Definition push_back (s pd : loc) (pm : Z) : M sigworld unit :=
  x ← get_signal s;
  w ← get;
  put (SigWorld (<[s := push (Conn (next_node w) pd pm) x]> (signals w)) (m_senders w) (S (next_node w)) (calls w)).

Definition disconnect (s pclass : loc) : M sigworld unit :=
  x ← get_signal s;
  match list_find (fun c => pdest c = pclass) (m_connected_slots x) with
  | None => mret tt
  | Some (_, it) => _ ← modify (set_signal s (erase it x)); do_signal_disconnect pclass s
  end.

(** [while (!m_connected_slots.empty())]: the calls of the body leave the list
    alone, so the loop goes through the list that it found. *)
Fixpoint disconnect_all_loop (s : loc) (cs : list _opaque_connection) : M sigworld unit :=
  match cs with
  | [] => mret tt
  | c :: cs =>
      x ← get_signal s;
      _ ← modify (set_signal s (Sig cs (m_current_iterator x)));
      _ ← do_signal_disconnect (pdest c) s;
      disconnect_all_loop s cs
  end.
Definition disconnect_all (s : loc) : M sigworld unit :=
  x ← get_signal s;
  _ ← disconnect_all_loop s (m_connected_slots x);
  x ← get_signal s;
  modify (set_signal s (Sig (m_connected_slots x) None)).

(** [itNext] is taken before [it] is erased, so the loop visits every node. *)
Fixpoint slot_disconnect_loop (its : list _opaque_connection) (pslot : loc) (x : _signal_base) : _signal_base :=
  match its with
  | [] => x
  | it :: its => slot_disconnect_loop its pslot (if decide (pdest it = pslot) then erase it x else x)
  end.
Definition do_slot_disconnect (s pslot : loc) : M sigworld unit :=
  x ← get_signal s; modify (set_signal s (slot_disconnect_loop (m_connected_slots x) pslot x)).

(** [itEnd] is the end of the list as it grows; [i] is the position of [it]. *)
Fixpoint slot_duplicate_loop (fuel : nat) (s : loc) (i : nat) (oldtarget newtarget : loc) : M sigworld unit :=
  match fuel with
  | O => lift OutOfFuel
  | S fuel =>
      x ← get_signal s;
      match m_connected_slots x !! i with
      | None => mret tt
      | Some it =>
          _ ← (if decide (pdest it = oldtarget) then push_back s newtarget (pmethod it) else mret tt);
          slot_duplicate_loop fuel s (S i) oldtarget newtarget
      end
  end.
Definition do_slot_duplicate (s oldtarget newtarget : loc) : M sigworld unit :=
  x ← get_signal s;
  slot_duplicate_loop (2 * length (m_connected_slots x) + 1) s 0 oldtarget newtarget.

(** The constructor, the copy constructor and the destructor. *)
Definition new_signal (s : loc) : M sigworld unit := modify (set_signal s (Sig [] None)).
Fixpoint copy_connections (s : loc) (cs : list _opaque_connection) : M sigworld unit :=
  match cs with
  | [] => mret tt
  | c :: cs =>
      _ ← do_signal_connect (pdest c) s;
      _ ← push_back s (pdest c) (pmethod c);
      copy_connections s cs
  end.
Definition copy_signal (o s : loc) : M sigworld unit :=
  x ← get_signal o; _ ← new_signal s; copy_connections s (m_connected_slots x).
Definition delete_signal (s : loc) : M sigworld unit :=
  _ ← disconnect_all s;
  modify (fun w => SigWorld (delete s (signals w)) (m_senders w) (next_node w) (calls w)).

Definition is_empty (s : loc) : M sigworld bool :=
  x ← get_signal s; mret (bool_decide (m_connected_slots x = [])).

(** [signal_with_thread_policy::connect]. *)
Definition connect (s pclass : loc) (pmemfun : Z) : M sigworld unit :=
  _ ← push_back s pclass pmemfun; do_signal_connect pclass s.

(** ** [has_slots], the half that disconnects *)

Fixpoint slot_disconnects (senders : list loc) (p : loc) : M sigworld unit :=
  match senders with
  | [] => mret tt
  | s :: senders => _ ← do_slot_disconnect s p; slot_disconnects senders p
  end.

(** [while (!self->m_senders.empty())], the set swapped with an empty one. *)
Fixpoint do_disconnect_all (fuel : nat) (p : loc) : M sigworld unit :=
  match fuel with
  | O => lift OutOfFuel
  | S fuel =>
      senders ← get_senders p;
      if decide (senders = ∅) then mret tt
      else
        _ ← modify (set_senders p ∅);
        _ ← slot_disconnects (elements senders) p;
        do_disconnect_all fuel p
  end.

Definition new_slots (d : loc) : M sigworld unit := modify (set_senders d ∅).
Fixpoint slot_duplicates (senders : list loc) (o d : loc) : M sigworld unit :=
  match senders with
  | [] => mret tt
  | s :: senders =>
      _ ← do_slot_duplicate s o d;
      _ ← do_signal_connect d s;
      slot_duplicates senders o d
  end.
Definition copy_slots (o d : loc) : M sigworld unit :=
  senders ← get_senders o; _ ← new_slots d; slot_duplicates (elements senders) o d.
Definition delete_slots (d : loc) : M sigworld unit :=
  _ ← do_disconnect_all 2 d;
  modify (fun w => SigWorld (signals w) (delete d (m_senders w)) (next_node w) (calls w)).

(** ** Firing *)

(** What the client does: at top level, or in the methods that are called. *)
Inductive sigop :=
  | NewSignal (s : loc) | CopySignal (o s : loc) | DeleteSignal (s : loc)
  | NewSlots (d : loc) | CopySlots (o d : loc) | DeleteSlots (d : loc)
  | Connect (s d : loc) (m : Z) | Disconnect (s d : loc) | DisconnectAll (s : loc)
  | Emit (s : loc).

(** What remains to be done: operations of the client, and the loops of [emit]
    that are under way. *)
Inductive frame := Op (o : sigop) | Firing (s : loc).
#[export] Instance sigop_eq_dec : EqDecision sigop.
Proof. solve_decision. Defined.
#[export] Instance frame_eq_dec : EqDecision frame.
Proof. solve_decision. Defined.

(** [m_current_iterator = m_connected_slots.begin()]. *)
Definition emit_begin (s : loc) : M sigworld unit :=
  x ← get_signal s;
  modify (set_signal s (Sig (m_connected_slots x) (node <$> head (m_connected_slots x)))).

(** One round of the loop of [emit]: the connection to call, the iterator moved
    past it; [None] when the iterator is at the end.  The object called must be
    alive. *)
Definition emit_next (s : loc) : M sigworld (option _opaque_connection) :=
  x ← get_signal s;
  match m_current_iterator x with
  | None => mret None
  | Some n =>
      match list_find (fun c => node c = n) (m_connected_slots x) with
      | None => ub_ UseAfterFree
      | Some (_, conn) =>
          _ ← modify (set_signal s (Sig (m_connected_slots x) (next_of n (m_connected_slots x))));
          _ ← get_senders (pdest conn);
          _ ← modify (fun w => SigWorld (signals w) (m_senders w) (next_node w) (calls w ++ [(s, conn)]));
          mret (Some conn)
      end
  end.

Definition sig_op (o : sigop) : M sigworld (list frame) :=
  match o with
  | NewSignal s => _ ← new_signal s; mret []
  | CopySignal o s => _ ← copy_signal o s; mret []
  | DeleteSignal s => _ ← delete_signal s; mret []
  | NewSlots d => _ ← new_slots d; mret []
  | CopySlots o d => _ ← copy_slots o d; mret []
  | DeleteSlots d => _ ← delete_slots d; mret []
  | Connect s d m => _ ← connect s d m; mret []
  | Disconnect s d => _ ← disconnect s d; mret []
  | DisconnectAll s => _ ← disconnect_all s; mret []
  | Emit s => _ ← emit_begin s; mret [Firing s]
  end.

Section machine.
(** The client: the operations that a method performs, given the calls made so
    far, the last one its own; and the operations that it keeps away from. *)
Context (method : list (loc * _opaque_connection) -> list sigop).
Context (allowed : sigworld -> list frame -> sigop -> bool).

Definition sig_step (k : list frame) : M sigworld (list frame) :=
  match k with
  | [] => mret []
  | Op o :: k =>
      w ← get;
      if allowed w k o then fs ← sig_op o; mret (fs ++ k) else mret k
  | Firing s :: k =>
      conn ← emit_next s;
      match conn with
      | None => mret k
      | Some _ => w ← get; mret (map Op (method (calls w)) ++ Firing s :: k)
      end
  end.

Fixpoint sig_run (n : nat) (k : list frame) : M sigworld (list frame) :=
  match n with
  | O => mret k
  | S n => k ← sig_step k; sig_run n k
  end.
End machine.

(** ** What a client must observe

    It uses living objects, does not connect a signal to the same object twice,
    and does not destroy a signal that is firing. *)
Definition connectedb (w : sigworld) (s d : loc) : bool :=
  match signals w !! s with Some x => bool_decide (d ∈ pdest <$> m_connected_slots x) | None => false end.

Definition admissible (w : sigworld) (k : list frame) (o : sigop) : bool :=
  let signal s := bool_decide (s ∈ dom (signals w)) in
  let object d := bool_decide (d ∈ dom (m_senders w)) in
  match o with
  | NewSignal s => negb (signal s)
  | CopySignal o s => signal o && negb (signal s)
  | DeleteSignal s => signal s && bool_decide (Firing s ∉ k)
  | NewSlots d => negb (object d)
  | CopySlots o d => object o && negb (object d)
  | DeleteSlots d => object d
  | Connect s d _ => signal s && object d && negb (connectedb w s d)
  | Disconnect s _ | DisconnectAll s | Emit s => signal s
  end.

(** ** The invariant *)

Definition dests (x : _signal_base) : list loc := pdest <$> m_connected_slots x.
Definition nodes (x : _signal_base) : list nat := node <$> m_connected_slots x.

(** The two halves of a connection. *)
Definition connected (w : sigworld) (s d : loc) : Prop := exists x, signals w !! s = Some x /\ d ∈ dests x.
Definition sends (w : sigworld) (s d : loc) : Prop := exists ss, m_senders w !! d = Some ss /\ s ∈ ss.

Record signal_ok (n : nat) (x : _signal_base) : Prop := {
  once : NoDup (dests x);
  sorted : StronglySorted lt (nodes x);
  below : Forall (fun k => k < n)%nat (nodes x);
  valid : forall k, m_current_iterator x = Some k -> k ∈ nodes x;
}.

Record sig_inv (w : sigworld) : Prop := {
  dual : forall s d, connected w s d <-> sends w s d;
  signals_ok : forall s x, signals w !! s = Some x -> signal_ok (next_node w) x;
}.

(** What operations other than its own loop do to a signal: connections are
    erased, and connections with new nodes and objects appended. *)
Inductive moves : nat -> _signal_base -> nat -> _signal_base -> Prop :=
  | moves_refl n n' x : (n <= n')%nat -> moves n x n' x
  | moves_erase n n' c x x' : moves n (erase c x) n' x' -> moves n x n' x'
  | moves_push n n' c x x' :
      (n <= node c)%nat -> pdest c ∉ dests x -> moves (S (node c)) (push c x) n' x' -> moves n x n' x'.

Lemma moves_le n x n' x' : moves n x n' x' -> (n <= n')%nat.
Proof. induction 1; lia. Qed.

Lemma moves_weaken n0 n x n' x' n1 : moves n x n' x' -> (n0 <= n)%nat -> (n' <= n1)%nat -> moves n0 x n1 x'.
Proof.
  intros Hm. revert n0. induction Hm; intros n0 Hn0 Hn1.
  - constructor. lia.
  - eapply moves_erase. by apply IHHm.
  - eapply moves_push; [|done|apply IHHm]; lia.
Qed.

Lemma moves_trans n x n' x' n'' x'' : moves n x n' x' -> moves n' x' n'' x'' -> moves n x n'' x''.
Proof.
  induction 1; intros H2.
  - by eapply moves_weaken.
  - eapply moves_erase. by apply IHmoves.
  - eapply moves_push; [done|done|]. by apply IHmoves.
Qed.

Lemma dests_erase c x : dests (erase c x) = pdest <$> filter (fun c' => node c' <> node c) (m_connected_slots x).
Proof. done. Qed.
Lemma dests_push c x : dests (push c x) = dests x ++ [pdest c].
Proof. unfold dests, push. cbn. by rewrite fmap_app. Qed.

Lemma elem_nodes k (cs : list _opaque_connection) : k ∈ node <$> cs <-> exists c, c ∈ cs /\ node c = k.
Proof. rewrite list_elem_of_fmap. naive_solver. Qed.

(** The nodes of a sublist. *)
Lemma sorted_sublist (P : _opaque_connection -> Prop) `{forall a, Decision (P a)} (cs : list _opaque_connection) :
  StronglySorted lt (node <$> cs) -> StronglySorted lt (node <$> filter P cs).
Proof.
  induction cs as [|c cs IH]; [done|]. cbn [fmap list_fmap]. intros [Hs Hf]%StronglySorted_inv.
  rewrite filter_cons. destruct (decide (P c)); [|auto]. cbn. constructor; [by apply IH|].
  rewrite Forall_forall in *. intros k (c' & Hc & <-)%elem_nodes. apply Hf, elem_nodes.
  apply list_elem_of_filter in Hc. naive_solver.
Qed.

(** [++] goes to the least node above. *)
Lemma next_of_spec n (cs : list _opaque_connection) : StronglySorted lt (node <$> cs) ->
  match next_of n cs with
  | Some k => n ∈ node <$> cs -> k ∈ node <$> cs /\ (n < k)%nat /\ Forall (fun c => node c <= n \/ k <= node c)%nat cs
  | None => n ∈ node <$> cs -> Forall (fun c => node c <= n)%nat cs
  end.
Proof.
  induction cs as [|c cs IH]; intros Hs; [by intros ?%elem_of_nil|].
  cbn [fmap list_fmap] in Hs. apply StronglySorted_inv in Hs as [Hs Hf]. cbn [next_of].
  specialize (IH Hs). rewrite Forall_forall in Hf. destruct (decide (node c = n)) as [<-|Hne].
  - destruct cs as [|c' cs]; [by repeat constructor|]. cbn [head fmap option_fmap option_map]. intros _.
    assert (node c < node c')%nat by (apply Hf; left). split_and!; [right; left|done|].
    apply StronglySorted_inv in Hs as [_ Hf']. rewrite Forall_forall in Hf'.
    constructor; [lia|]. constructor; [lia|]. apply Forall_forall. intros d Hd. right.
    enough (node c' < node d)%nat by lia. apply Hf', elem_nodes. eauto.
  - destruct (next_of n cs) as [k|].
    + intros [->|Hn]%elem_of_cons; [done|]. destruct (IH Hn) as (H1 & H2 & H3). split_and!; [by right|done|].
      constructor; [|done]. left. specialize (Hf n Hn). lia.
    + intros [->|Hn]%elem_of_cons; [done|]. constructor; [|by apply IH]. specialize (Hf n Hn). lia.
Qed.

Lemma erase_ok n c x : signal_ok n x -> signal_ok n (erase c x).
Proof.
  intros [H1 H2 H3 H4]. split.
  - rewrite dests_erase. unfold dests in H1. clear -H1. revert H1. generalize (m_connected_slots x) as cs.
    induction cs as [|a cs IH]; [done|]. intros [Ha Hn]%NoDup_cons. rewrite filter_cons. destruct (decide _); [|auto].
    cbn. constructor; [|auto]. intros (b & Hab & Hb)%list_elem_of_fmap. apply list_elem_of_filter in Hb as [_ Hb].
    apply Ha. rewrite Hab. by apply list_elem_of_fmap_2.
  - by apply sorted_sublist.
  - rewrite Forall_forall in *. intros k (c' & [_ Hc]%list_elem_of_filter & <-)%elem_nodes. apply H3, elem_nodes. eauto.
  - intros k. cbn. destruct (decide _) as [Hc|Hc].
    + intros Hk. pose proof (next_of_spec (node c) (m_connected_slots x) H2) as Hs. rewrite Hk in Hs.
      destruct (Hs (H4 _ Hc)) as ((c' & Hc' & <-)%elem_nodes & Hlt & _). apply elem_nodes. exists c'. split; [|done].
      apply list_elem_of_filter. split; [lia|done].
    + intros Hk. destruct (proj1 (elem_nodes _ _) (H4 k Hk)) as (c' & Hc' & <-). apply elem_nodes. exists c'. split; [|done].
      apply list_elem_of_filter. split; [|done]. intros Heq. apply Hc. by rewrite Hk, Heq.
Qed.

Lemma push_ok n c x : signal_ok n x -> (n <= node c)%nat -> pdest c ∉ dests x -> signal_ok (S (node c)) (push c x).
Proof.
  intros [H1 H2 H3 H4] Hn Hd. assert (nodes (push c x) = nodes x ++ [node c]) as Hnodes by (unfold nodes; cbn; by rewrite fmap_app).
  split.
  - rewrite dests_push. apply NoDup_app. split_and!; [done| |apply NoDup_singleton]. by intros d Hd' ->%list_elem_of_singleton.
  - rewrite Hnodes. clear -H2 H3 Hn. induction (nodes x) as [|a l IH]; [repeat constructor|].
    apply StronglySorted_inv in H2 as [Hs Hf]. inversion H3; subst. cbn. constructor; [by apply IH|].
    apply Forall_app_2; [done|]. constructor; [lia|done].
  - rewrite Hnodes. apply Forall_app_2; [|by repeat constructor]. eapply Forall_impl; [exact H3|]. cbn. lia.
  - intros k Hk. rewrite Hnodes. apply elem_of_app. left. by apply H4.
Qed.

Lemma signal_ok_le n n' x : signal_ok n x -> (n <= n')%nat -> signal_ok n' x.
Proof. intros [H1 H2 H3 H4] Hn. split; [done..| |done]. eapply Forall_impl; [exact H3|]. cbn. lia. Qed.

Lemma moves_ok n x n' x' : moves n x n' x' -> signal_ok n x -> signal_ok n' x'.
Proof. induction 1; eauto using signal_ok_le, erase_ok, push_ok. Qed.

(** ** The halves of the operations *)

Lemma node_inj (cs : list _opaque_connection) c c' :
  StronglySorted lt (node <$> cs) -> c ∈ cs -> c' ∈ cs -> node c = node c' -> c = c'.
Proof.
  intros Hs. induction cs as [|a cs IH]; [by intros ?%elem_of_nil|].
  cbn in Hs. apply StronglySorted_inv in Hs as [Hs Hf]. rewrite Forall_forall in Hf.
  assert (forall b, b ∈ cs -> node a < node b)%nat as Hlt by (intros b Hb; apply Hf, elem_nodes; eauto).
  intros [->|Hc]%elem_of_cons [->|Hc']%elem_of_cons Heq; [done| | |by apply IH].
  - specialize (Hlt _ Hc'). lia.
  - specialize (Hlt _ Hc). lia.
Qed.

Lemma slot_disconnect_moves its p n x : moves n x n (slot_disconnect_loop its p x).
Proof.
  revert x. induction its as [|it its IH]; intros x; [by constructor|]. cbn [slot_disconnect_loop].
  destruct (decide _); [by eapply moves_erase|done].
Qed.

Lemma slot_disconnect_loop_elem its p x c :
  c ∈ m_connected_slots (slot_disconnect_loop its p x) <->
  c ∈ m_connected_slots x /\ forall it, it ∈ its -> pdest it = p -> node it <> node c.
Proof.
  revert x. induction its as [|it its IH]; intros x; cbn [slot_disconnect_loop].
  { split; [|naive_solver]. intros Hc. split; [done|]. by intros it ?%elem_of_nil. }
  setoid_rewrite elem_of_cons. rewrite IH. destruct (decide (pdest it = p)); [|naive_solver].
  unfold erase. cbn. rewrite list_elem_of_filter. naive_solver.
Qed.

Lemma slot_disconnect_dests n x p d : signal_ok n x ->
  d ∈ dests (slot_disconnect_loop (m_connected_slots x) p x) <-> d ∈ dests x /\ d <> p.
Proof.
  intros Hx. unfold dests. rewrite !list_elem_of_fmap. setoid_rewrite slot_disconnect_loop_elem. split.
  - intros (c & -> & Hc & Hnot). split; [eauto|]. intros Hp. by apply (Hnot c).
  - intros [(c & -> & Hc) Hne]. exists c. split_and!; [done|done|]. intros it Hit Hp Heq. apply Hne.
    by rewrite <- (node_inj _ it c (sorted _ _ Hx) Hit Hc Heq).
Qed.

(** Nothing but moves, and no call. *)
Record stays (w w' : sigworld) : Prop := {
  stays_next : (next_node w <= next_node w')%nat;
  stays_calls : calls w' = calls w;
  stays_signals t : match signals w !! t, signals w' !! t with
                    | Some x, Some x' => moves (next_node w) x (next_node w') x'
                    | None, None => True
                    | _, _ => False
                    end;
}.

#[export] Instance stays_preorder : PreOrder stays.
Proof.
  split.
  - intros w. split; [done..|]. intros t. destruct (signals w !! t); [by constructor|done].
  - intros w w' w'' [H1 H2 H3] [H4 H5 H6]. split; [lia|congruence|]. intros t. specialize (H3 t). specialize (H6 t).
    destruct (signals w !! t), (signals w' !! t), (signals w'' !! t); try done. by eapply moves_trans.
Qed.

Lemma stays_alive w w' t x : stays w w' -> signals w !! t = Some x ->
  exists x', signals w' !! t = Some x' /\ moves (next_node w) x (next_node w') x'.
Proof. intros [_ _ Hs] Hx. specialize (Hs t). rewrite Hx in Hs. destruct (signals w' !! t); [eauto|done]. Qed.

Definition all_ok (w : sigworld) : Prop := forall s x, signals w !! s = Some x -> signal_ok (next_node w) x.

Lemma stays_ok w w' : stays w w' -> all_ok w -> all_ok w'.
Proof.
  intros [_ _ Hs] Hok t x' Hx'. specialize (Hs t). rewrite Hx' in Hs.
  destruct (signals w !! t) eqn:Hx; [|done]. eapply moves_ok; eauto.
Qed.

Lemma set_signal_stays w s x x' :
  signals w !! s = Some x -> moves (next_node w) x (next_node w) x' -> stays w (set_signal s x' w).
Proof.
  intros Hx Hm. split; [done..|]. intros t. cbn. destruct (decide (t = s)) as [->|Hne].
  - by rewrite Hx, lookup_insert_eq.
  - rewrite lookup_insert_ne by done. destruct (signals w !! t); [by constructor|done].
Qed.
Lemma set_senders_stays w d ss : stays w (set_senders d ss w).
Proof. split; [done..|]. intros t. cbn. destruct (signals w !! t); [by constructor|done]. Qed.

Lemma connected_set_signal w s x t d :
  connected (set_signal s x w) t d <-> t = s /\ d ∈ dests x \/ t <> s /\ connected w t d.
Proof.
  unfold connected. cbn. destruct (decide (t = s)) as [->|Hne].
  - rewrite lookup_insert_eq. naive_solver.
  - rewrite lookup_insert_ne by done. naive_solver.
Qed.
Lemma sends_set_senders w p ss s d :
  sends (set_senders p ss w) s d <-> d = p /\ s ∈ ss \/ d <> p /\ sends w s d.
Proof.
  unfold sends. cbn. destruct (decide (d = p)) as [->|Hne].
  - rewrite lookup_insert_eq. naive_solver.
  - rewrite lookup_insert_ne by done. naive_solver.
Qed.

Lemma get_signal_ok w s x : signals w !! s = Some x -> get_signal s w = Ret (x, w).
Proof. intros Hx. unfold get_signal. rewrite M_bind_get. by rewrite Hx. Qed.
Lemma get_senders_ok w d ss : m_senders w !! d = Some ss -> get_senders d w = Ret (ss, w).
Proof. intros Hx. unfold get_senders. rewrite M_bind_get. by rewrite Hx. Qed.

Lemma connected_some w s x d : signals w !! s = Some x -> connected w s d <-> d ∈ dests x.
Proof. unfold connected. naive_solver. Qed.
Lemma sends_some w s d ss : m_senders w !! d = Some ss -> sends w s d <-> s ∈ ss.
Proof. unfold sends. naive_solver. Qed.

(** The objects that exist are the same. *)
Definition same_objects (w w' : sigworld) : Prop := dom (m_senders w') = dom (m_senders w).

Lemma push_back_spec w s x pd pm : signals w !! s = Some x -> pd ∉ dests x -> exists w',
  push_back s pd pm w = Ret (tt, w') /\ stays w w' /\ m_senders w' = m_senders w /\
  signals w' !! s = Some (push (Conn (next_node w) pd pm) x) /\
  (forall t d, connected w' t d <-> connected w t d \/ t = s /\ d = pd).
Proof.
  intros Hx Hpd. eexists. split.
  { unfold push_back. rewrite (M_bind_eq _ _ _ _ _ (get_signal_ok w s x Hx)), M_bind_get. reflexivity. }
  split_and!; [|done|by cbn; rewrite lookup_insert_eq|].
  - split; [cbn; lia|done|]. intros t. cbn. destruct (decide (t = s)) as [->|Hne].
    + rewrite Hx, lookup_insert_eq. eapply (moves_push _ _ (Conn (next_node w) pd pm)); [done|done|by constructor].
    + rewrite lookup_insert_ne by done. destruct (signals w !! t); [constructor; lia|done].
  - intros t d. unfold connected at 1. cbn. destruct (decide (t = s)) as [->|Hne].
    + rewrite lookup_insert_eq, (connected_some w s x d Hx). split.
      * intros (x' & [= <-] & Hd). rewrite dests_push, elem_of_app, list_elem_of_singleton in Hd. naive_solver.
      * intros Hd. eexists. split; [done|]. rewrite dests_push, elem_of_app, list_elem_of_singleton. naive_solver.
    + rewrite lookup_insert_ne by done. unfold connected. naive_solver.
Qed.

Lemma signal_connect_spec w p s ss : m_senders w !! p = Some ss -> exists w',
  do_signal_connect p s w = Ret (tt, w') /\ stays w w' /\ signals w' = signals w /\ same_objects w w' /\
  (forall t d, sends w' t d <-> sends w t d \/ t = s /\ d = p).
Proof.
  intros Hp. eexists. split.
  { unfold do_signal_connect. rewrite (M_bind_eq _ _ _ _ _ (get_senders_ok w p ss Hp)). reflexivity. }
  split_and!; [apply set_senders_stays|done| |].
  - unfold same_objects. cbn. rewrite dom_insert_L. apply elem_of_dom_2 in Hp. set_solver.
  - intros t d. rewrite sends_set_senders, elem_of_union, elem_of_singleton. destruct (decide (d = p)) as [->|Hd].
    + rewrite (sends_some w t p ss Hp). naive_solver.
    + naive_solver.
Qed.

Lemma signal_disconnect_spec w p s ss : m_senders w !! p = Some ss -> exists w',
  do_signal_disconnect p s w = Ret (tt, w') /\ stays w w' /\ signals w' = signals w /\ same_objects w w' /\
  (forall t d, sends w' t d <-> sends w t d /\ ~ (t = s /\ d = p)).
Proof.
  intros Hp. eexists. split.
  { unfold do_signal_disconnect. rewrite (M_bind_eq _ _ _ _ _ (get_senders_ok w p ss Hp)). reflexivity. }
  split_and!; [apply set_senders_stays|done| |].
  - unfold same_objects. cbn. rewrite dom_insert_L. apply elem_of_dom_2 in Hp. set_solver.
  - intros t d. rewrite sends_set_senders, elem_of_difference, elem_of_singleton. destruct (decide (d = p)) as [->|Hd].
    + rewrite (sends_some w t p ss Hp). naive_solver.
    + naive_solver.
Qed.

(** ** The operations *)

Lemma dest_inj (cs : list _opaque_connection) c c' :
  NoDup (pdest <$> cs) -> c ∈ cs -> c' ∈ cs -> pdest c = pdest c' -> c = c'.
Proof.
  induction cs as [|a cs IH]; [by intros _ ?%elem_of_nil|]. cbn. intros [Ha Hn]%NoDup_cons.
  assert (forall b, b ∈ cs -> pdest a <> pdest b) as Hne by (intros b Hb Hab; apply Ha; rewrite Hab; by apply list_elem_of_fmap_2).
  intros [->|Hc]%elem_of_cons [->|Hc']%elem_of_cons Heq; [done| | |by apply IH].
  - by destruct (Hne c').
  - by destruct (Hne c).
Qed.

Lemma alive_object w s x d : sig_inv w -> signals w !! s = Some x -> d ∈ dests x -> exists ss, m_senders w !! d = Some ss.
Proof.
  intros Hw Hx Hd. assert (sends w s d) as (ss & Hss & _) by (apply (dual _ Hw), (connected_some w s x d Hx), Hd). eauto.
Qed.

Lemma connect_spec w s x d m : sig_inv w -> signals w !! s = Some x -> d ∉ dests x -> is_Some (m_senders w !! d) ->
  exists w', connect s d m w = Ret (tt, w') /\ stays w w' /\ same_objects w w' /\ sig_inv w'.
Proof.
  intros Hw Hx Hd [ss Hss]. destruct (push_back_spec w s x d m Hx Hd) as (w1 & R1 & S1 & O1 & _ & C1).
  destruct (signal_connect_spec w1 d s ss) as (w2 & R2 & S2 & Hs2 & O2 & N2); [by rewrite O1|].
  exists w2. assert (stays w w2) by by transitivity w1. split_and!; [|done| |].
  - unfold connect. by rewrite (M_bind_eq _ _ _ _ _ R1).
  - unfold same_objects in *. by rewrite O2, O1.
  - split; [|eapply stays_ok; [done|exact (signals_ok _ Hw)]]. intros t d'. rewrite N2. unfold connected. rewrite Hs2.
    fold (connected w1 t d'). rewrite C1. unfold sends. rewrite O1. fold (sends w t d'). by rewrite (dual _ Hw).
Qed.

Lemma disconnect_spec w s x p : sig_inv w -> signals w !! s = Some x ->
  exists w', disconnect s p w = Ret (tt, w') /\ stays w w' /\ same_objects w w' /\ sig_inv w'.
Proof.
  intros Hw Hx. unfold disconnect. rewrite (M_bind_eq _ _ _ _ _ (get_signal_ok w s x Hx)).
  destruct (list_find _ _) as [[i it]|] eqn:Hf; [|by exists w].
  apply list_find_Some in Hf as (Hit%list_elem_of_lookup_2 & Hp & _). rewrite M_bind_modify.
  destruct (alive_object w s x p Hw Hx) as [ss Hss]; [subst p; by apply list_elem_of_fmap_2|].
  destruct (signal_disconnect_spec (set_signal s (erase it x) w) p s ss Hss) as (w2 & R2 & S2 & Hs2 & O2 & N2).
  assert (stays w w2) as Hst.
  { transitivity (set_signal s (erase it x) w); [|done]. eapply set_signal_stays; [done|]. eapply moves_erase. by constructor. }
  exists w2. split_and!; [done|done|done|]. split; [|eapply stays_ok; [done|exact (signals_ok _ Hw)]].
  pose proof (signals_ok _ Hw _ _ Hx) as Hok. intros t d. rewrite N2. unfold connected. rewrite Hs2.
  fold (connected (set_signal s (erase it x) w) t d). rewrite connected_set_signal.
  change (sends (set_signal s (erase it x) w) t d) with (sends w t d). rewrite <- (dual _ Hw).
  assert (d ∈ dests (erase it x) <-> d ∈ dests x /\ d <> p) as Hd.
  { rewrite dests_erase. unfold dests. rewrite !list_elem_of_fmap. setoid_rewrite list_elem_of_filter. split.
    - intros (c & -> & Hne & Hc). split; [eauto|]. intros Hcp. apply Hne. f_equal.
      apply (dest_inj _ c it (once _ _ Hok)); [done|done|congruence].
    - intros [(c & -> & Hc) Hne]. exists c. split_and!; [done| |done]. intros Hn. apply Hne.
      by rewrite (node_inj _ c it (sorted _ _ Hok) Hc Hit Hn). }
  rewrite Hd. destruct (decide (t = s)) as [->|]; [rewrite (connected_some w s x d Hx)|]; naive_solver.
Qed.

Lemma slot_disconnects_spec ss p w : all_ok w -> Forall (fun s => is_Some (signals w !! s)) ss -> exists w',
  slot_disconnects ss p w = Ret (tt, w') /\ stays w w' /\ m_senders w' = m_senders w /\
  (forall t d, connected w' t d <-> connected w t d /\ ~ (t ∈ ss /\ d = p)).
Proof.
  revert w. induction ss as [|s ss IH]; intros w Hw Hall; cbn [slot_disconnects].
  { exists w. split_and!; [done|done|done|]. intros t d. split; [|naive_solver]. intros Hc. split; [done|].
    by intros [?%elem_of_nil _]. }
  apply Forall_cons in Hall as [[x Hx] Hall].
  set (w1 := set_signal s (slot_disconnect_loop (m_connected_slots x) p x) w).
  assert (stays w w1) as S1 by (eapply set_signal_stays; [done|apply slot_disconnect_moves]).
  destruct (IH w1) as (w2 & R2 & S2 & O2 & C2).
  { by eapply stays_ok. }
  { eapply Forall_impl; [exact Hall|]. intros t [y Hy]. destruct (stays_alive w w1 t y S1 Hy) as (y' & Hy' & _). eauto. }
  exists w2. split_and!.
  - unfold do_slot_disconnect. rewrite (M_bind_eq _ _ w tt w1); [done|].
    rewrite (M_bind_eq _ _ _ _ _ (get_signal_ok w s x Hx)). done.
  - by transitivity w1.
  - by rewrite O2.
  - intros t d. rewrite C2. unfold w1. rewrite connected_set_signal, (slot_disconnect_dests _ x p d (Hw _ _ Hx)), elem_of_cons.
    destruct (decide (t = s)) as [->|]; [rewrite (connected_some w s x d Hx)|]; naive_solver.
Qed.

Lemma disconnect_slots_spec w p ss : sig_inv w -> m_senders w !! p = Some ss -> exists w',
  do_disconnect_all 2 p w = Ret (tt, w') /\ stays w w' /\ same_objects w w' /\ sig_inv w' /\
  (forall t, ~ connected w' t p).
Proof.
  intros Hw Hss. cbn [do_disconnect_all]. rewrite (M_bind_eq _ _ _ _ _ (get_senders_ok w p ss Hss)).
  destruct (decide (ss = ∅)) as [->|Hne].
  { exists w. split_and!; [done..|]. intros t (ss' & Hss' & Ht)%(dual _ Hw). simplify_eq. set_solver. }
  rewrite M_bind_modify. set (w1 := set_senders p ∅ w).
  destruct (slot_disconnects_spec (elements ss) p w1) as (w2 & R2 & S2 & O2 & C2).
  { intros t x Hx. by apply (signals_ok _ Hw t). }
  { apply Forall_forall. intros s Hs%elem_of_elements. cbn.
    assert (connected w s p) as (x & Hx & _) by (apply (dual _ Hw); exists ss; done). eauto. }
  assert (stays w w2) as Hst by (transitivity w1; [apply set_senders_stays|done]).
  assert (m_senders w2 !! p = Some ∅) as Hp by (rewrite O2; cbn; by rewrite lookup_insert_eq).
  assert (forall t d, connected w2 t d <-> connected w t d /\ d <> p) as HC.
  { intros t d. rewrite C2, elem_of_elements. change (connected w1 t d) with (connected w t d).
    destruct (decide (d = p)) as [->|]; [|naive_solver].
    rewrite (dual _ Hw), (sends_some w t p ss Hss). naive_solver. }
  exists w2. rewrite (M_bind_eq _ _ _ _ _ R2), (M_bind_eq _ _ _ _ _ (get_senders_ok w2 p ∅ Hp)), decide_True by done.
  split_and!; [done|done| | |].
  - unfold same_objects. rewrite O2. cbn. rewrite dom_insert_L. apply elem_of_dom_2 in Hss. set_solver.
  - split; [|eapply stays_ok; [done|exact (signals_ok _ Hw)]]. intros t d. rewrite HC. unfold sends. rewrite O2.
    fold (sends w1 t d). unfold w1. rewrite sends_set_senders, (dual _ Hw). set_solver.
  - intros t. rewrite HC. naive_solver.
Qed.

Lemma disconnect_all_loop_spec s cs w x :
  signals w !! s = Some x -> Forall (fun d => is_Some (m_senders w !! d)) (pdest <$> cs) -> exists w' x',
  disconnect_all_loop s cs w = Ret (tt, w') /\ next_node w' = next_node w /\ calls w' = calls w /\ same_objects w w' /\
  (forall t, t <> s -> signals w' !! t = signals w !! t) /\ signals w' !! s = Some x' /\
  (cs = [] \/ m_connected_slots x' = []) /\ (cs = [] -> w' = w) /\
  (forall t d, sends w' t d <-> sends w t d /\ ~ (t = s /\ d ∈ pdest <$> cs)).
Proof.
  revert w x. induction cs as [|c cs IH]; intros w x Hx Hall; cbn [disconnect_all_loop].
  { exists w, x. split_and!; try done; [by left|]. intros t d. cbn. rewrite elem_of_nil. naive_solver. }
  cbn [fmap list_fmap] in *. apply Forall_cons in Hall as [[ss Hss] Hall].
  rewrite (M_bind_eq _ _ _ _ _ (get_signal_ok w s x Hx)), M_bind_modify.
  set (w1 := set_signal s (Sig cs (m_current_iterator x)) w).
  destruct (signal_disconnect_spec w1 (pdest c) s ss Hss) as (w2 & R2 & S2 & Hs2 & O2 & N2).
  rewrite (M_bind_eq _ _ _ _ _ R2).
  assert (signals w2 !! s = Some (Sig cs (m_current_iterator x))) as Hx2 by (rewrite Hs2; cbn; by rewrite lookup_insert_eq).
  destruct (IH w2 _ Hx2) as (w3 & x3 & R3 & A3 & B3 & O3 & F3 & X3 & E3 & Z3 & N3).
  { eapply Forall_impl; [exact Hall|]. intros d Hd. apply elem_of_dom. rewrite O2. by apply elem_of_dom. }
  apply M_bind_ret in R2 as (? & ? & [= <- <-]%(eq_trans (eq_sym (get_senders_ok w1 (pdest c) ss Hss))) & [= R2]).
  exists w3, x3. split_and!; [done| | | | |done| |done|].
  - by rewrite A3, <- R2.
  - by rewrite B3, <- R2.
  - unfold same_objects in *. by rewrite O3, O2.
  - intros t Ht. rewrite F3, Hs2 by done. cbn. by rewrite lookup_insert_ne.
  - right. destruct E3 as [->|]; [|done]. by rewrite (Z3 eq_refl), Hx2 in X3; simplify_eq.
  - intros t d. rewrite N3, N2, elem_of_cons. change (sends w1 t d) with (sends w t d). naive_solver.
Qed.

(** As [stays], except for the signals of [P]. *)
Record stays_but (P : loc -> Prop) (w w' : sigworld) : Prop := {
  but_next : (next_node w <= next_node w')%nat;
  but_calls : calls w' = calls w;
  but_signals t : P t \/ match signals w !! t, signals w' !! t with
                         | Some x, Some x' => moves (next_node w) x (next_node w') x'
                         | None, None => True
                         | _, _ => False
                         end;
}.

Lemma stays_stays_but P w w' : stays w w' -> stays_but P w w'.
Proof. intros [H1 H2 H3]. split; [done..|]. intros t. right. apply H3. Qed.

Lemma disconnect_all_spec s w x : sig_inv w -> signals w !! s = Some x -> exists w',
  disconnect_all s w = Ret (tt, w') /\ stays_but (eq s) w w' /\ same_objects w w' /\ sig_inv w' /\
  signals w' !! s = Some (Sig [] None).
Proof.
  intros Hw Hx. unfold disconnect_all. rewrite (M_bind_eq _ _ _ _ _ (get_signal_ok w s x Hx)).
  destruct (disconnect_all_loop_spec s (m_connected_slots x) w x Hx) as (w1 & x1 & R1 & A1 & B1 & O1 & F1 & X1 & E1 & Z1 & N1).
  { apply Forall_forall. intros d Hd. by destruct (alive_object w s x d Hw Hx Hd); eauto. }
  assert (m_connected_slots x1 = []) as Hnil.
  { destruct E1 as [E1|]; [|done]. rewrite (Z1 E1) in X1. by simplify_eq. }
  rewrite (M_bind_eq _ _ _ _ _ R1), (M_bind_eq _ _ _ _ _ (get_signal_ok w1 s x1 X1)), Hnil.
  exists (set_signal s (Sig [] None) w1). split_and!; [done| |done| |by cbn; rewrite lookup_insert_eq].
  - split; [cbn; lia|done|]. intros t. destruct (decide (s = t)) as [|Hne]; [by left|right]. cbn.
    rewrite lookup_insert_ne, F1 by done. destruct (signals w !! t); [constructor; lia|done].
  - split.
    + intros t d. rewrite connected_set_signal. change (sends (set_signal s (Sig [] None) w1) t d) with (sends w1 t d).
      rewrite N1, <- (dual _ Hw). unfold dests at 1. cbn. rewrite elem_of_nil. destruct (decide (t = s)) as [->|Hne].
      * rewrite (connected_some w s x d Hx). unfold dests. naive_solver.
      * unfold connected. rewrite F1 by done. naive_solver.
    + intros t y. cbn. destruct (decide (t = s)) as [->|Hne].
      * rewrite lookup_insert_eq. intros [= <-]. repeat constructor. done.
      * rewrite lookup_insert_ne, F1, A1 by done. apply Hw.
Qed.

Lemma delete_signal_spec s w x : sig_inv w -> signals w !! s = Some x -> exists w',
  delete_signal s w = Ret (tt, w') /\ stays_but (eq s) w w' /\ same_objects w w' /\ sig_inv w' /\ signals w' !! s = None.
Proof.
  intros Hw Hx. destruct (disconnect_all_spec s w x Hw Hx) as (w1 & R1 & S1 & O1 & I1 & X1).
  unfold delete_signal. rewrite (M_bind_eq _ _ _ _ _ R1). eexists. split; [reflexivity|]. split_and!; [|done| |apply lookup_delete_eq].
  - destruct S1 as [H1 H2 H3]. split; [done..|]. intros t. destruct (H3 t) as [->|H4]; [by left|]. cbn.
    destruct (decide (s = t)); [by left|right]. by rewrite lookup_delete_ne.
  - split.
    + intros t d. change (sends _ t d) with (sends w1 t d). rewrite <- (dual _ I1). unfold connected. cbn.
      destruct (decide (t = s)) as [->|]; [|by rewrite lookup_delete_ne]. rewrite lookup_delete_eq, X1. split; [naive_solver|].
      intros (y & [= <-] & Hd). by apply elem_of_nil in Hd.
    + intros t y. cbn. destruct (decide (t = s)) as [->|]; [by rewrite lookup_delete_eq|]. rewrite lookup_delete_ne by done. apply I1.
Qed.

Lemma copy_connections_spec s cs w x : signals w !! s = Some x -> all_ok w ->
  (forall t d, connected w t d <-> sends w t d) ->
  Forall (fun d => is_Some (m_senders w !! d) /\ d ∉ dests x) (pdest <$> cs) -> NoDup (pdest <$> cs) -> exists w',
  copy_connections s cs w = Ret (tt, w') /\ stays w w' /\ same_objects w w' /\ sig_inv w'.
Proof.
  revert w x. induction cs as [|c cs IH]; intros w x Hx Hok Hdual Hall Hnd; cbn [copy_connections].
  { exists w. split_and!; [done..|]. by split. }
  cbn [fmap list_fmap] in *. apply Forall_cons in Hall as [[[ss Hss] Hc] Hall]. apply NoDup_cons in Hnd as [Hcs Hnd].
  destruct (signal_connect_spec w (pdest c) s ss Hss) as (w1 & R1 & S1 & Hs1 & O1 & N1). rewrite (M_bind_eq _ _ _ _ _ R1).
  destruct (push_back_spec w1 s x (pdest c) (pmethod c)) as (w2 & R2 & S2 & O2 & X2 & C2); [by rewrite Hs1|done|].
  rewrite (M_bind_eq _ _ _ _ _ R2).
  assert (stays w w2) as S3 by by transitivity w1.
  destruct (IH w2 _ X2) as (w3 & R3 & S4 & O3 & I3).
  - by eapply stays_ok.
  - intros t d. rewrite C2. unfold connected. rewrite Hs1. fold (connected w t d). unfold sends. rewrite O2. fold (sends w1 t d).
    rewrite N1. by rewrite Hdual.
  - rewrite Forall_forall in *. intros d Hd. destruct (Hall d Hd) as [Ha Hb]. split.
    + rewrite O2. apply elem_of_dom. rewrite O1. by apply elem_of_dom.
    + rewrite dests_push, elem_of_app, list_elem_of_singleton. cbn. intros [?| ->]; [done|]. done.
  - done.
  - exists w3. split_and!; [done|by transitivity w2| |done]. unfold same_objects in *. by rewrite O3, O2.
Qed.

(** A new signal is empty. *)
Lemma new_signal_inv s w : sig_inv w -> signals w !! s = None -> sig_inv (set_signal s (Sig [] None) w).
Proof.
  intros Hw Hs. split.
  - intros t d. rewrite connected_set_signal. change (sends (set_signal s (Sig [] None) w) t d) with (sends w t d).
    rewrite <- (dual _ Hw). unfold dests. cbn. rewrite elem_of_nil. split; [naive_solver|].
    intros (y & Hy & Hd). right. split; [congruence|]. by exists y.
  - intros t y. cbn. destruct (decide (t = s)) as [->|Hne].
    + rewrite lookup_insert_eq. intros [= <-]. repeat constructor. done.
    + rewrite lookup_insert_ne by done. apply Hw.
Qed.

Lemma new_signal_stays s w : stays_but (eq s) w (set_signal s (Sig [] None) w).
Proof.
  split; [done..|]. intros t. destruct (decide (s = t)); [by left|right]. cbn. rewrite lookup_insert_ne by done.
  destruct (signals w !! t); [by constructor|done].
Qed.

Lemma copy_signal_spec o s w x : sig_inv w -> signals w !! o = Some x -> signals w !! s = None -> exists w',
  copy_signal o s w = Ret (tt, w') /\ stays_but (eq s) w w' /\ same_objects w w' /\ sig_inv w'.
Proof.
  intros Hw Hx Hs. unfold copy_signal. rewrite (M_bind_eq _ _ _ _ _ (get_signal_ok w o x Hx)).
  unfold new_signal. rewrite M_bind_modify. set (w1 := set_signal s (Sig [] None) w).
  pose proof (new_signal_inv s w Hw Hs) as I1.
  destruct (copy_connections_spec s (m_connected_slots x) w1 (Sig [] None)) as (w2 & R2 & S2 & O2 & I2).
  - cbn. by rewrite lookup_insert_eq.
  - exact (signals_ok _ I1).
  - exact (dual _ I1).
  - apply Forall_forall. intros d Hd. split; [|apply not_elem_of_nil]. destruct (alive_object w o x d Hw Hx Hd). eauto.
  - apply (once _ _ (signals_ok _ Hw _ _ Hx)).
  - exists w2. split_and!; [done| |done|done]. destruct (new_signal_stays s w) as [H1 H2 H3], S2 as [H4 H5 H6].
    split; [cbn in *; lia|by rewrite H5|]. intros t. destruct (H3 t) as [|H7]; [by left|right]. specialize (H6 t).
    fold w1 in H7. destruct (signals w !! t), (signals w1 !! t), (signals w2 !! t); try done.
    eapply moves_trans; [exact H7|exact H6].
Qed.

Lemma slot_duplicate_none fuel s i o d w x : signals w !! s = Some x ->
  (forall j c, (i <= j)%nat -> m_connected_slots x !! j = Some c -> pdest c <> o) ->
  (length (m_connected_slots x) - i < fuel)%nat -> slot_duplicate_loop fuel s i o d w = Ret (tt, w).
Proof.
  intros Hx. revert i. induction fuel as [|fuel IH]; intros i Hno Hf; [lia|]. cbn [slot_duplicate_loop].
  rewrite (M_bind_eq _ _ _ _ _ (get_signal_ok w s x Hx)). destruct (_ !! i) as [it|] eqn:Hi; [|done].
  rewrite decide_False by (by apply (Hno i)). rewrite M_bind_mret. apply IH.
  - intros j c Hj. apply Hno. lia.
  - apply lookup_lt_Some in Hi. lia.
Qed.

Lemma slot_duplicate_loop_spec fuel s i o d w x : signals w !! s = Some x -> signal_ok (next_node w) x ->
  o <> d -> d ∉ dests x ->
  (exists j c, (i <= j)%nat /\ m_connected_slots x !! j = Some c /\ pdest c = o) ->
  (length (m_connected_slots x) + 1 - i < fuel)%nat -> exists w',
  slot_duplicate_loop fuel s i o d w = Ret (tt, w') /\ stays w w' /\ m_senders w' = m_senders w /\
  (forall t d', connected w' t d' <-> connected w t d' \/ t = s /\ d' = d).
Proof.
  intros Hx Hok Hod Hd. revert i. induction fuel as [|fuel IH]; intros i (j & c & Hj & Hc & Ho) Hf; [lia|].
  cbn [slot_duplicate_loop]. rewrite (M_bind_eq _ _ _ _ _ (get_signal_ok w s x Hx)).
  pose proof (lookup_lt_Some _ _ _ Hc) as Hlt. destruct (_ !! i) as [it|] eqn:Hi; [|apply lookup_ge_None in Hi; lia].
  destruct (decide (pdest it = o)) as [Hit|Hit].
  - destruct (push_back_spec w s x d (pmethod it) Hx Hd) as (w1 & R1 & S1 & O1 & X1 & C1).
    rewrite (M_bind_eq _ _ _ _ _ R1). exists w1. split; [|done]. eapply slot_duplicate_none; [exact X1| |].
    + intros k c' Hk [Hc'|(_ & Hc')]%lookup_app_Some.
      * intros Ho'. assert (i = k); [|lia]. eapply (NoDup_lookup (dests x)); [apply Hok| |];
          unfold dests; rewrite list_lookup_fmap; [by rewrite Hi|by rewrite Hc'; cbn; congruence].
      * apply list_lookup_singleton_Some in Hc' as [_ <-]. cbn. congruence.
    + unfold push. cbn. rewrite length_app. cbn. lia.
  - rewrite M_bind_mret. apply IH; [|lia]. exists j, c. split_and!; [|done|done].
    destruct (decide (i = j)) as [->|]; [|lia]. by simplify_eq.
Qed.

Lemma slot_duplicates_spec ss o d w : all_ok w -> (forall t d', connected w t d' <-> sends w t d') -> o <> d ->
  NoDup ss -> is_Some (m_senders w !! d) -> Forall (fun s => connected w s o /\ ~ connected w s d) ss -> exists w',
  slot_duplicates ss o d w = Ret (tt, w') /\ stays w w' /\ same_objects w w' /\ sig_inv w'.
Proof.
  intros Hok Hdual Hod Hnd Hd Hall. revert w Hok Hdual Hnd Hd Hall.
  induction ss as [|s ss IH]; intros w Hok Hdual Hnd [sd Hsd] Hall; cbn [slot_duplicates].
  { exists w. split_and!; [done..|by split]. }
  apply Forall_cons in Hall as [[(x & Hx & (c & Hco & (j & Hj)%list_elem_of_lookup)%list_elem_of_fmap) Hnc] Hall].
  apply NoDup_cons in Hnd as [Hs Hnd]. rewrite (connected_some w s x d Hx) in Hnc.
  destruct (slot_duplicate_loop_spec (2 * length (m_connected_slots x) + 1) s 0 o d w x) as (w1 & R1 & S1 & O1 & C1);
    [done|exact (Hok _ _ Hx)|done|done|exists j, c; split_and!; [lia|done|done]|apply lookup_lt_Some in Hj; lia|].
  destruct (signal_connect_spec w1 d s sd) as (w2 & R2 & S2 & Hs2 & O2 & N2); [by rewrite O1|].
  assert (stays w w2) as S3 by by transitivity w1.
  assert (forall t d', connected w2 t d' <-> connected w t d' \/ t = s /\ d' = d) as C2.
  { intros t d'. rewrite <- C1. unfold connected. by rewrite Hs2. }
  destruct (IH w2) as (w3 & R3 & S4 & O3 & I3).
  - by eapply stays_ok.
  - intros t d'. rewrite C2, N2. unfold sends. rewrite O1. fold (sends w t d'). by rewrite Hdual.
  - done.
  - apply elem_of_dom. rewrite O2, O1. by apply elem_of_dom_2 in Hsd.
  - rewrite Forall_forall in *. intros t Ht. destruct (Hall t Ht) as [Ha Hb]. rewrite !C2. split; [by left|].
    intros [?|[-> _]]; done.
  - exists w3. split_and!; [|by transitivity w2| |done].
    + unfold do_slot_duplicate. erewrite M_bind_eq; [|rewrite (M_bind_eq _ _ _ _ _ (get_signal_ok w s x Hx)); exact R1].
      by rewrite (M_bind_eq _ _ _ _ _ R2).
    + unfold same_objects in *. by rewrite O3, O2, O1.
Qed.

Lemma new_slots_inv d w : sig_inv w -> m_senders w !! d = None -> sig_inv (set_senders d ∅ w).
Proof.
  intros Hw Hd. split; [|exact (signals_ok _ Hw)]. intros s d'. rewrite sends_set_senders.
  change (connected (set_senders d ∅ w) s d') with (connected w s d'). rewrite (dual _ Hw).
  destruct (decide (d' = d)) as [->|]; [|naive_solver]. split; [|set_solver]. intros (ss & Hss & _). congruence.
Qed.

Lemma copy_slots_spec o d w ss : sig_inv w -> m_senders w !! o = Some ss -> m_senders w !! d = None -> exists w',
  copy_slots o d w = Ret (tt, w') /\ stays w w' /\ sig_inv w'.
Proof.
  intros Hw Hss Hd. unfold copy_slots. rewrite (M_bind_eq _ _ _ _ _ (get_senders_ok w o ss Hss)).
  unfold new_slots. rewrite M_bind_modify. pose proof (new_slots_inv d w Hw Hd) as I1. set (w1 := set_senders d ∅ w) in *.
  destruct (slot_duplicates_spec (elements ss) o d w1) as (w2 & R2 & S2 & _ & I2).
  - exact (signals_ok _ I1).
  - exact (dual _ I1).
  - congruence.
  - apply NoDup_elements.
  - cbn. rewrite lookup_insert_eq. eauto.
  - apply Forall_forall. intros s Hs%elem_of_elements. change (connected w1 s) with (connected w s). rewrite !(dual _ Hw).
    split; [by exists ss|]. intros (sd & Hsd & _). congruence.
  - exists w2. split_and!; [done| |done]. transitivity w1; [apply set_senders_stays|done].
Qed.

Lemma delete_slots_spec d w ss : sig_inv w -> m_senders w !! d = Some ss -> exists w',
  delete_slots d w = Ret (tt, w') /\ stays w w' /\ sig_inv w'.
Proof.
  intros Hw Hss. destruct (disconnect_slots_spec w d ss Hw Hss) as (w1 & R1 & S1 & O1 & I1 & N1).
  unfold delete_slots. rewrite (M_bind_eq _ _ _ _ _ R1). eexists. split; [reflexivity|]. split.
  - transitivity w1; [done|]. split; [done..|]. intros t. cbn. destruct (signals w1 !! t); [by constructor|done].
  - split; [|exact (signals_ok _ I1)]. intros s d'. change (connected _ s d') with (connected w1 s d'). unfold sends. cbn.
    destruct (decide (d' = d)) as [->|Hne].
    + rewrite lookup_delete_eq. split; [by intros ?%N1|naive_solver].
    + rewrite lookup_delete_ne by done. apply (dual _ I1).
Qed.

Lemma emit_begin_spec s w x : sig_inv w -> signals w !! s = Some x ->
  emit_begin s w = Ret (tt, set_signal s (Sig (m_connected_slots x) (node <$> head (m_connected_slots x))) w) /\
  sig_inv (set_signal s (Sig (m_connected_slots x) (node <$> head (m_connected_slots x))) w).
Proof.
  intros Hw Hx. split; [unfold emit_begin; by rewrite (M_bind_eq _ _ _ _ _ (get_signal_ok w s x Hx))|].
  pose proof (signals_ok _ Hw _ _ Hx) as [H1 H2 H3 H4]. split.
  - intros t d. rewrite connected_set_signal. change (sends (set_signal s _ w) t d) with (sends w t d). rewrite <- (dual _ Hw).
    change (dests (Sig _ _)) with (dests x). destruct (decide (t = s)) as [->|]; [rewrite (connected_some w s x d Hx)|]; naive_solver.
  - intros t y. cbn. destruct (decide (t = s)) as [->|Hne].
    + rewrite lookup_insert_eq. intros [= <-]. split; [done..|]. intros k. unfold nodes. cbn.
      destruct (m_connected_slots x); [done|]. cbn. intros [= <-]. left.
    + rewrite lookup_insert_ne by done. apply Hw.
Qed.

(** What an operation may do to a signal other than [moves]. *)
Definition touched (o : sigop) (t : loc) : Prop :=
  match o with
  | NewSignal s | CopySignal _ s | DeleteSignal s | DisconnectAll s | Emit s => s = t
  | _ => False
  end.

Lemma stays_but_dom P w w' t : stays_but P w w' -> ~ P t -> t ∈ dom (signals w) -> t ∈ dom (signals w').
Proof.
  intros [_ _ Hs] Hn Ht. destruct (Hs t) as [|H]; [done|]. rewrite elem_of_dom in *. destruct Ht as [x Hx]. rewrite Hx in H.
  destruct (signals w' !! t); [eauto|done].
Qed.

Lemma sig_op_spec w k o : sig_inv w -> admissible w k o = true -> exists w',
  sig_op o w = Ret (match o with Emit s => [Firing s] | _ => [] end, w') /\ sig_inv w' /\ stays_but (touched o) w w' /\
  (forall s, o = Emit s \/ o = DisconnectAll s -> s ∈ dom (signals w')).
Proof.
  intros Hw Ha. destruct o; cbn in Ha; unfold sig_op;
    repeat match type of Ha with _ && _ = true => apply andb_prop in Ha as [Ha ?Ha'] end;
    rewrite ?negb_true_iff, ?bool_decide_eq_true, ?bool_decide_eq_false, ?not_elem_of_dom, ?elem_of_dom in *.
  - eexists. split; [reflexivity|]. split_and!; [by apply new_signal_inv|apply new_signal_stays|naive_solver].
  - destruct Ha as [x Hx]. destruct (copy_signal_spec _ s w x Hw Hx Ha') as (w' & R & S & _ & I).
    exists w'. rewrite (M_bind_eq _ _ _ _ _ R). naive_solver.
  - destruct Ha as [x Hx]. destruct (delete_signal_spec s w x Hw Hx) as (w' & R & S & _ & I & _).
    exists w'. rewrite (M_bind_eq _ _ _ _ _ R). naive_solver.
  - eexists. split; [reflexivity|]. split_and!; [by apply new_slots_inv|apply stays_stays_but, set_senders_stays|naive_solver].
  - destruct Ha as [ss Hss]. destruct (copy_slots_spec _ d w ss Hw Hss Ha') as (w' & R & S%(stays_stays_but (touched (CopySlots o d))) & I).
    exists w'. rewrite (M_bind_eq _ _ _ _ _ R). naive_solver.
  - destruct Ha as [ss Hss]. destruct (delete_slots_spec d w ss Hw Hss) as (w' & R & S%(stays_stays_but (touched (DeleteSlots d))) & I).
    exists w'. rewrite (M_bind_eq _ _ _ _ _ R). naive_solver.
  - destruct Ha as [x Hx]. unfold connectedb in Ha'. rewrite Hx, bool_decide_eq_false in Ha'.
    destruct (connect_spec w s x d m Hw Hx Ha' Ha'0) as (w' & R & S%(stays_stays_but (touched (Connect s d m))) & _ & I).
    exists w'. rewrite (M_bind_eq _ _ _ _ _ R). naive_solver.
  - destruct Ha as [x Hx]. destruct (disconnect_spec w s x d Hw Hx) as (w' & R & S%(stays_stays_but (touched (Disconnect s d))) & _ & I).
    exists w'. rewrite (M_bind_eq _ _ _ _ _ R). naive_solver.
  - destruct Ha as [x Hx]. destruct (disconnect_all_spec s w x Hw Hx) as (w' & R & S & _ & I & X).
    exists w'. rewrite (M_bind_eq _ _ _ _ _ R). split_and!; [done|done|done|]. intros t [?|[= <-]]; [done|]. apply elem_of_dom. eauto.
  - destruct Ha as [x Hx]. destruct (emit_begin_spec s w x Hw Hx) as [R I].
    eexists. rewrite (M_bind_eq _ _ _ _ _ R). split_and!; [done|done| |].
    + split; [done..|]. intros t. destruct (decide (s = t)); [by left|right]. cbn. rewrite lookup_insert_ne by done.
      destruct (signals w !! t); [by constructor|done].
    + intros t [[= <-]|?]; [|done]. apply elem_of_dom. cbn. rewrite lookup_insert_eq. eauto.
Qed.

(** The state in which the method of [c] starts. *)
Definition called (s : loc) (x : _signal_base) (c : _opaque_connection) (w : sigworld) : sigworld :=
  SigWorld (<[s := Sig (m_connected_slots x) (next_of (node c) (m_connected_slots x))]> (signals w))
    (m_senders w) (next_node w) (calls w ++ [(s, c)]).

Lemma emit_next_spec s w x : sig_inv w -> signals w !! s = Some x ->
  match m_current_iterator x with
  | None => emit_next s w = Ret (None, w)
  | Some n => exists c, c ∈ m_connected_slots x /\ node c = n /\ pdest c ∈ dom (m_senders w) /\
                emit_next s w = Ret (Some c, called s x c w) /\ sig_inv (called s x c w)
  end.
Proof.
  intros Hw Hx. pose proof (signals_ok _ Hw _ _ Hx) as Hok. unfold emit_next.
  rewrite (M_bind_eq _ _ _ _ _ (get_signal_ok w s x Hx)). destruct (m_current_iterator x) as [n|] eqn:Hcur; [|done].
  destruct (proj1 (elem_nodes _ _) (valid _ _ Hok n Hcur)) as (c0 & Hc0 & Hn0).
  destruct (list_find_elem_of (fun c => node c = n) _ c0 Hc0 Hn0) as [[i c] Hf]. rewrite Hf.
  apply list_find_Some in Hf as (Hc%list_elem_of_lookup_2 & <- & _). rewrite M_bind_modify.
  destruct (alive_object w s x (pdest c) Hw Hx) as [ss Hss]; [by apply list_elem_of_fmap_2|].
  rewrite (M_bind_eq _ _ _ ss (set_signal s (Sig (m_connected_slots x) (next_of (node c) (m_connected_slots x))) w))
    by (unfold get_senders; rewrite M_bind_get; cbn; by rewrite Hss).
  rewrite M_bind_modify. exists c. split_and!; [done|done|by apply elem_of_dom_2 in Hss|done|]. split.
  - intros t d. change (connected (called s x c w) t d) with
      (connected (set_signal s (Sig (m_connected_slots x) (next_of (node c) (m_connected_slots x))) w) t d).
    rewrite connected_set_signal. change (sends (called s x c w) t d) with (sends w t d). rewrite <- (dual _ Hw).
    change (dests (Sig _ _)) with (dests x). destruct (decide (t = s)) as [->|]; [rewrite (connected_some w s x d Hx)|]; naive_solver.
  - intros t y. cbn. destruct (decide (t = s)) as [->|Hne].
    + rewrite lookup_insert_eq. intros [= <-]. destruct Hok as [H1 H2 H3 H4]. split; [done..|]. cbn. intros k Hk.
      pose proof (next_of_spec (node c) (m_connected_slots x) H2) as Hs. rewrite Hk in Hs. apply Hs. by apply H4.
    + rewrite lookup_insert_ne by done. apply Hw.
Qed.

(** ** The machine *)

Section runs.
Context (method : list (loc * _opaque_connection) -> list sigop).
Context (allowed : sigworld -> list frame -> sigop -> bool).
Context (Hallowed : forall w k o, allowed w k o = true -> admissible w k o = true).

(** Signals that are firing exist. *)
Definition firing_alive (k : list frame) (w : sigworld) : Prop := forall s, Firing s ∈ k -> s ∈ dom (signals w).

(** The three kinds of step. *)
Lemma sig_step_cases w f k : sig_inv w -> firing_alive (f :: k) w ->
  (exists o, f = Op o /\ allowed w k o = false /\ sig_step method allowed (f :: k) w = Ret (k, w)) \/
  (exists o w', f = Op o /\ allowed w k o = true /\ sig_inv w' /\ stays_but (touched o) w w' /\
     (forall s, o = Emit s \/ o = DisconnectAll s -> s ∈ dom (signals w')) /\
     sig_step method allowed (f :: k) w = Ret ((match o with Emit s => [Firing s] | _ => [] end) ++ k, w')) \/
  (exists s x, f = Firing s /\ signals w !! s = Some x /\ m_current_iterator x = None /\
     sig_step method allowed (f :: k) w = Ret (k, w)) \/
  (exists s x c, f = Firing s /\ signals w !! s = Some x /\ m_current_iterator x = Some (node c) /\
     c ∈ m_connected_slots x /\ pdest c ∈ dom (m_senders w) /\ sig_inv (called s x c w) /\
     sig_step method allowed (f :: k) w = Ret (map Op (method (calls w ++ [(s, c)])) ++ Firing s :: k, called s x c w)).
Proof.
  intros Hw Hk. destruct f as [o|s]; unfold sig_step.
  - rewrite M_bind_get. destruct (allowed w k o) eqn:Ha; [right; left|left; by exists o].
    destruct (sig_op_spec w k o Hw (Hallowed _ _ _ Ha)) as (w' & R & I & S & D).
    exists o, w'. rewrite (M_bind_eq _ _ _ _ _ R). done.
  - right. right. destruct (proj1 (elem_of_dom (signals w) s) (Hk s (list_elem_of_here _ _))) as [x Hx].
    pose proof (emit_next_spec s w x Hw Hx) as Hn. destruct (m_current_iterator x) as [n|] eqn:Hcur.
    + destruct Hn as (c & Hc & <- & Hd & R & I). right. exists s, x, c.
      rewrite (M_bind_eq _ _ _ _ _ R), M_bind_get. done.
    + left. exists s, x. by rewrite (M_bind_eq _ _ _ _ _ Hn).
Qed.

Lemma firing_alive_ops ops k w : firing_alive k w -> firing_alive (map Op ops ++ k) w.
Proof.
  intros Hk s [(o & ? & _)%list_elem_of_fmap|?]%elem_of_app; [done|auto].
Qed.

Lemma sig_step_inv k w : sig_inv w -> firing_alive k w -> exists k' w',
  sig_step method allowed k w = Ret (k', w') /\ sig_inv w' /\ firing_alive k' w'.
Proof.
  intros Hw Hk. destruct k as [|f k]; [by exists [], w|].
  assert (firing_alive k w) as Hk' by (intros s Hs; apply Hk; by right).
  destruct (sig_step_cases w f k Hw Hk) as [(o & -> & _ & R)|[(o & w' & -> & Ha & I & S & D & R)|[(s & x & -> & Hx & _ & R)|
    (s & x & c & -> & Hx & _ & _ & _ & I & R)]]]; eexists _, _; (split; [exact R|]); (split; [done|]); [done| |done|].
  - assert (firing_alive k w') as Hkw.
    { intros t Ht. destruct (decide (o = Emit t \/ o = DisconnectAll t)) as [Ho|Ho]; [by apply D|].
      apply (stays_but_dom _ _ _ t S); [|by apply Hk']. destruct o; cbn; try by intros [].
      - apply Hallowed in Ha. cbn in Ha. rewrite negb_true_iff, bool_decide_eq_false in Ha. intros <-. by apply Ha, Hk'.
      - apply Hallowed in Ha. cbn in Ha. rewrite andb_true_iff, negb_true_iff, bool_decide_eq_false in Ha. intros <-. by apply Ha, Hk'.
      - apply Hallowed in Ha. cbn in Ha. rewrite andb_true_iff, !bool_decide_eq_true in Ha. intros <-. by apply (proj2 Ha).
      - intros ->. apply Ho. by right.
      - intros ->. apply Ho. by left. }
    destruct o; try done. cbn. intros t [[= ->]|Ht]%elem_of_cons; [apply D; by left|by apply Hkw].
  - apply firing_alive_ops. intros t Ht. cbn. rewrite dom_insert. apply elem_of_union. right. by apply Hk.
Qed.

Lemma sig_run_inv n k w : sig_inv w -> firing_alive k w -> exists k' w',
  sig_run method allowed n k w = Ret (k', w') /\ sig_inv w' /\ firing_alive k' w'.
Proof.
  revert k w. induction n as [|n IH]; intros k w Hw Hk; [by exists k, w|].
  destruct (sig_step_inv k w Hw Hk) as (k1 & w1 & R1 & I1 & K1). cbn [sig_run]. rewrite (M_bind_eq _ _ _ _ _ R1). by apply IH.
Qed.
End runs.

Definition empty_sigworld : sigworld := SigWorld ∅ ∅ 0 [].

Lemma empty_sigworld_inv : sig_inv empty_sigworld.
Proof.
  split; [|done]. intros s d. split; by intros (? & ? & _).
Qed.

(** C31: Whatever the client does in its methods and outside, as long as it uses
    living objects, connects an object to a signal only once at a time and does
    not destroy a signal while it fires, no iterator is followed that an
    operation has invalidated and no method is called on, nor any set or list
    touched of, an object that is gone: objects and signals may be connected,
    disconnected, copied and destroyed, and signals fired, in the middle of an
    emission.  All along, a signal lists an object exactly when the object knows
    the signal. *)
Theorem sigslot_safe method n ops :
  exists k w, sig_run method admissible n (map Op ops) empty_sigworld = Ret (k, w) /\
    (forall s d, connected w s d <-> sends w s d) /\
    (forall s x, signals w !! s = Some x ->
       NoDup (dests x) /\ (forall i, m_current_iterator x = Some i -> i ∈ nodes x)).
Proof.
  destruct (sig_run_inv method admissible ltac:(done) n (map Op ops) empty_sigworld empty_sigworld_inv) as (k & w & R & I & _).
  { intros s (o & ? & _)%list_elem_of_fmap. done. }
  exists k, w. split_and!; [done|apply I|]. intros s x Hx. destruct (signals_ok _ I s x Hx). done.
Qed.

(** ** What an emission delivers *)

(** The client, moreover, does not fire [s] again or disconnect all of it in the
    methods called. *)
Definition quiet (s : loc) (w : sigworld) (k : list frame) (o : sigop) : bool :=
  admissible w k o && bool_decide (o <> Emit s) && bool_decide (o <> DisconnectAll s).

(** The nodes of [s] among the calls. *)
Definition called_nodes (s : loc) (cs : list (loc * _opaque_connection)) : list nat :=
  (fun p => node p.2) <$> filter (fun p => p.1 = s) cs.

(** The emission that found the connections of [x] has made the calls [cs], and
    the signal is now [y]. *)
Record progress (s : loc) (x : _signal_base) (cs : list (loc * _opaque_connection)) (y : _signal_base) : Prop := {
  in_order : StronglySorted lt (called_nodes s cs);
  passed : forall m, m_current_iterator y = Some m -> Forall (fun k => k < m)%nat (called_nodes s cs);
  reached : forall c, c ∈ m_connected_slots x -> c ∈ m_connected_slots y ->
    (forall m, m_current_iterator y = Some m -> node c < m)%nat -> (s, c) ∈ cs;
}.

Lemma erase_progress s x cs n c y : signal_ok n y -> progress s x cs y -> progress s x cs (erase c y).
Proof.
  intros Hok [H1 H2 H3]. destruct Hok as [K1 K2 K3 K4].
  pose proof (next_of_spec (node c) (m_connected_slots y) K2) as Hs. split; [done| |].
  - cbn. intros m. destruct (decide _) as [Hc|Hc]; [|apply H2]. intros Hm. rewrite Hm in Hs.
    destruct (Hs (K4 _ Hc)) as (_ & Hlt & _). eapply Forall_impl; [exact (H2 _ Hc)|]. cbn. lia.
  - cbn. intros c' Hx [Hne Hy]%list_elem_of_filter Hcur. apply (H3 c' Hx Hy). intros m Hm.
    destruct (decide (m_current_iterator y = Some (node c))) as [Hc|Hc]; [|by apply Hcur].
    simplify_eq. destruct (next_of (node c) (m_connected_slots y)) as [m|] eqn:Hn.
    + destruct (Hs (K4 _ Hc)) as (_ & _ & Hall). rewrite Forall_forall in Hall. specialize (Hcur m eq_refl).
      destruct (Hall c' Hy); lia.
    + pose proof (Hs (K4 _ Hc)) as Hall. rewrite Forall_forall in Hall. specialize (Hall c' Hy). cbn in Hall. lia.
Qed.

Lemma moves_progress s x cs b n y n' y' : moves n y n' y' -> signal_ok n y -> (b <= n)%nat -> signal_ok b x ->
  progress s x cs y -> progress s x cs y'.
Proof.
  intros Hm Hok Hb Hx. revert Hok Hb. induction Hm as [|n n' c y y' Hm IH|n n' c y y' Hn Hd Hm IH]; intros Hok Hb Hp; [done| |].
  - apply IH; [by apply erase_ok|done|by eapply erase_progress].
  - apply IH; [by eapply push_ok|lia|]. destruct Hp as [H1 H2 H3]. split; [done|done|]. cbn.
    intros c' Hc' [Hy|Hy%list_elem_of_singleton]%elem_of_app Hcur; [by apply H3|subst c'].
    pose proof (below _ _ Hx) as Hbelow. rewrite Forall_forall in Hbelow.
    assert (node c < b)%nat by (apply Hbelow, elem_nodes; eauto). lia.
Qed.

(** A call of the emission itself. *)
Lemma call_progress s x cs n c y : signal_ok n y -> m_current_iterator y = Some (node c) -> c ∈ m_connected_slots y ->
  progress s x cs y ->
  progress s x (cs ++ [(s, c)]) (Sig (m_connected_slots y) (next_of (node c) (m_connected_slots y))).
Proof.
  intros Hok Hcur Hc [H1 H2 H3]. destruct Hok as [K1 K2 K3 K4].
  pose proof (next_of_spec (node c) (m_connected_slots y) K2) as Hs.
  assert (called_nodes s (cs ++ [(s, c)]) = called_nodes s cs ++ [node c]) as Hcs.
  { unfold called_nodes. rewrite filter_app, filter_cons_True, filter_nil, fmap_app by done. done. }
  split; rewrite ?Hcs; cbn [m_current_iterator m_connected_slots].
  - specialize (H2 _ Hcur). clear -H1 H2. induction (called_nodes s cs) as [|a l IH]; [repeat constructor|].
    apply StronglySorted_inv in H1 as [Hs Hf]. apply Forall_cons in H2 as [Ha H2]. cbn. constructor; [by apply IH|].
    by apply Forall_app_2; [|constructor].
  - intros m Hm. rewrite Hm in Hs. destruct (Hs (K4 _ Hcur)) as (_ & Hlt & _). apply Forall_app_2; [|by constructor].
    eapply Forall_impl; [exact (H2 _ Hcur)|]. cbn. lia.
  - intros c' Hx Hy Hlt. apply elem_of_app. destruct (decide (c' = c)) as [->|Hne]; [right; left|left].
    apply H3; [done|done|]. intros m Hm. simplify_eq. destruct (next_of (node c) (m_connected_slots y)) as [m|] eqn:Hn.
    + destruct (Hs (K4 _ Hcur)) as (_ & _ & Hall). rewrite Forall_forall in Hall. specialize (Hlt m eq_refl).
      destruct (Hall c' Hy); [|lia]. destruct (decide (node c' = node c)) as [Heq|]; [|lia]. by destruct Hne; apply (node_inj _ c' c K2).
    + pose proof (Hs (K4 _ Hcur)) as Hall. rewrite Forall_forall in Hall. specialize (Hall c' Hy). cbn in Hall.
      destruct (decide (node c' = node c)) as [Heq|]; [|lia]. by destruct Hne; apply (node_inj _ c' c K2).
Qed.

(** A call of another signal. *)
Lemma other_progress s x cs y t c : t <> s -> progress s x cs y -> progress s x (cs ++ [(t, c)]) y.
Proof.
  intros Hne [H1 H2 H3].
  assert (called_nodes s (cs ++ [(t, c)]) = called_nodes s cs) as Hcs.
  { unfold called_nodes. rewrite filter_app, filter_cons_False, filter_nil, app_nil_r by done. done. }
  split; rewrite ?Hcs; [done|done|]. intros c' Hx Hy Hlt. apply elem_of_app. left. by apply H3.
Qed.

(** What holds while the emission runs. *)
Record emitting (s : loc) (b : nat) (x : _signal_base) (calls0 : list (loc * _opaque_connection))
    (k : list frame) (w : sigworld) : Prop := {
  em_inv : sig_inv w;
  em_alive : firing_alive k w;
  em_next : (b <= next_node w)%nat;
  em_stack : k = [] /\ (forall y, signals w !! s = Some y -> m_current_iterator y = None) \/
             (exists fs, k = fs ++ [Firing s] /\ Firing s ∉ fs);
  em_progress : exists y cs, signals w !! s = Some y /\ calls w = calls0 ++ cs /\ progress s x cs y;
}.

Lemma emitting_op s b x c0 o k w w' fs : signal_ok b x ->
  sig_inv w' -> stays_but (touched o) w w' -> (forall t, o = Emit t -> fs = [Firing t]) -> ((forall t, o <> Emit t) -> fs = []) ->
  firing_alive (fs ++ k) w' -> quiet s w k o = true ->
  emitting s b x c0 (Op o :: k) w -> emitting s b x c0 (fs ++ k) w'.
Proof.
  intros Hx I S Hf1 Hf2 Ha Hq [H1 H2 H3 [[? _]|(fs0 & Hk & Hfs0)] (y & cs & Hy & Hcs & Hp)]; [done|].
  unfold quiet in Hq. rewrite !andb_true_iff, !bool_decide_eq_true in Hq. destruct Hq as [[Hadm He] Hda].
  destruct fs0 as [|f0 fs0]; [by injection Hk|]. injection Hk as <- Hk. apply not_elem_of_cons in Hfs0 as [_ Hfs0].
  assert (~ touched o s) as Ht.
  { destruct o; cbn in *; try (intros []; fail); intros ->.
    - rewrite negb_true_iff, bool_decide_eq_false in Hadm. by apply elem_of_dom_2 in Hy.
    - rewrite andb_true_iff, negb_true_iff, bool_decide_eq_false in Hadm. apply (proj2 Hadm). by apply elem_of_dom_2 in Hy.
    - rewrite andb_true_iff, !bool_decide_eq_true in Hadm. apply (proj2 Hadm). rewrite Hk. apply elem_of_app. right. left.
    - done.
    - done. }
  destruct S as [S1 S2 S3]. destruct (S3 s) as [|Hm]; [done|]. rewrite Hy in Hm.
  destruct (signals w' !! s) as [y'|] eqn:Hy'; [|done]. split; [done|done|lia| |].
  - right. exists (fs ++ fs0). split; [by rewrite Hk, app_assoc|]. rewrite not_elem_of_app. split; [|done].
    destruct o as [| | | | | | | | |t]; try (rewrite Hf2 by done; apply not_elem_of_nil). rewrite (Hf1 t eq_refl).
    rewrite list_elem_of_singleton. intros [= ->]. by apply He.
  - exists y', cs. split_and!; [done|by rewrite S2|]. eapply moves_progress; [exact Hm|exact (signals_ok _ H1 _ _ Hy)|exact H3|exact Hx|done].
Qed.

Lemma map_op_no_firing s ops : Firing s ∉ map Op ops.
Proof. by intros (o & ? & _)%list_elem_of_fmap. Qed.

(** The stack below the innermost frame. *)
Lemma stack_tail s f k fs : f :: k = fs ++ [Firing s] -> Firing s ∉ fs ->
  f = Firing s /\ k = [] \/ f <> Firing s /\ exists fs', k = fs' ++ [Firing s] /\ Firing s ∉ fs'.
Proof.
  destruct fs as [|f0 fs]; intros Hk Hfs; injection Hk as -> Hk; [by left|right].
  apply not_elem_of_cons in Hfs as [Hne Hfs]. split; [done|]. by exists fs.
Qed.

Lemma emitting_step method s b x c0 k w k' w' : signal_ok b x -> emitting s b x c0 k w ->
  sig_step method (quiet s) k w = Ret (k', w') -> emitting s b x c0 k' w'.
Proof.
  intros Hx Hem. pose proof Hem as [H1 H2 H3 H4 (y & cs & Hy & Hcs & Hp)]. destruct k as [|f k]; [by intros [= <- <-]|].
  assert (forall w k o, quiet s w k o = true -> admissible w k o = true) as Hadm.
  { intros w0 k0 o Hq. unfold quiet in Hq. rewrite !andb_true_iff in Hq. apply Hq. }
  destruct H4 as [[? _]|(fs & Hk & Hfs)]; [done|]. pose proof (stack_tail s f k fs Hk Hfs) as Htail.
  destruct (sig_step_inv method (quiet s) Hadm (f :: k) w H1 H2) as (k1 & w1 & R1 & I1 & A1). rewrite R1. intros [= -> ->].
  destruct (sig_step_cases method (quiet s) Hadm w f k H1 H2) as [(o & -> & _ & R)|[(o & w2 & -> & Ha & I & S & D & R)|
    [(t & z & -> & Hz & Hcur & R)|(t & z & c & -> & Hz & Hcur & Hc & _ & _ & R)]]]; rewrite R in R1; injection R1 as <- <-.
  - destruct Htail as [[? _]|[_ Htail]]; [done|]. split; [done|done|done|by right|]. by exists y, cs.
  - eapply (emitting_op s b x c0 o k w); [done|done|done| | |done|done|done].
    + by intros t ->.
    + intros Ho. destruct o; try done. by destruct (Ho s0).
  - destruct Htail as [[[= ->] ->]|[Hne Htail]].
    + split; [done|done|done| |by exists y, cs]. left. split; [done|]. intros y' Hy'. congruence.
    + split; [done|done|done|by right|by exists y, cs].
  - assert (exists fs', map Op (method (calls w ++ [(t, c)])) ++ Firing t :: k = fs' ++ [Firing s] /\ Firing s ∉ fs') as Hstack.
    { destruct Htail as [[[= ->] ->]|[Hne (fs' & -> & Hfs')]].
      - exists (map Op (method (calls w ++ [(s, c)]))). split; [done|apply map_op_no_firing].
      - exists (map Op (method (calls w ++ [(t, c)])) ++ Firing t :: fs'). split; [by rewrite <- app_assoc|].
        rewrite not_elem_of_app, not_elem_of_cons. split_and!; [apply map_op_no_firing|congruence|done]. }
    split; [done|done|done|by right|]. destruct (decide (t = s)) as [->|Hne].
    + simplify_eq. eexists _, (cs ++ [(s, c)]). cbn. rewrite lookup_insert_eq, Hcs, app_assoc. split_and!; [done|done|].
      by eapply call_progress; [apply (signals_ok _ H1 _ _ Hy)|..].
    + exists y, (cs ++ [(t, c)]). cbn. rewrite lookup_insert_ne, Hcs, app_assoc by done. split_and!; [done|done|].
      by apply other_progress.
Qed.

Lemma emitting_run method s b x c0 n : signal_ok b x -> forall k w k' w', emitting s b x c0 k w ->
  sig_run method (quiet s) n k w = Ret (k', w') -> emitting s b x c0 k' w'.
Proof.
  intros Hx. induction n as [|n IH]; intros k w k' w' Hem; [by intros [= <- <-]|]. cbn [sig_run].
  intros (k1 & w1 & R1 & R2)%M_bind_ret. eapply IH; [|exact R2]. by eapply emitting_step.
Qed.

(** C32: An emission that runs to its end, while the methods called connect,
    disconnect, copy and destroy objects and signals and fire other signals, but
    neither fire this signal again nor disconnect all of it, calls the
    connections of the signal in the order in which they were made, none of them
    twice, and calls every one that it found and that is still connected at the
    end: no slot is skipped because another one, the current one included, was
    disconnected. *)
Theorem emit_delivers method s w x w1 n w' :
  sig_inv w -> signals w !! s = Some x -> emit_begin s w = Ret (tt, w1) ->
  sig_run method (quiet s) n [Firing s] w1 = Ret ([], w') ->
  exists cs, calls w' = calls w ++ cs /\ StronglySorted lt (called_nodes s cs) /\
    (forall y c, signals w' !! s = Some y -> c ∈ m_connected_slots x -> c ∈ m_connected_slots y -> (s, c) ∈ cs).
Proof.
  intros Hw Hx HR Hrun. destruct (emit_begin_spec s w x Hw Hx) as [R I]. rewrite R in HR. injection HR as <-.
  pose proof (signals_ok _ Hw _ _ Hx) as Hok.
  assert (emitting s (next_node w) x (calls w) [Firing s]
    (set_signal s (Sig (m_connected_slots x) (node <$> head (m_connected_slots x))) w)) as Hem.
  { split; [done| |done| |].
    - intros t [= ->]%list_elem_of_singleton. cbn. rewrite dom_insert. set_solver.
    - right. exists []. split; [done|apply not_elem_of_nil].
    - eexists _, []. cbn. rewrite lookup_insert_eq, app_nil_r. split_and!; [done|done|]. split; [constructor|constructor|].
      cbn. intros c Hc _ Hlt. destruct Hok as [_ Hs _ _]. unfold nodes in Hs.
      destruct (m_connected_slots x) as [|c0 l]; [by apply elem_of_nil in Hc|]. cbn in *. specialize (Hlt _ eq_refl).
      apply StronglySorted_inv in Hs as [_ Hf]. rewrite Forall_forall in Hf. apply elem_of_cons in Hc as [->|Hc]; [lia|].
      assert (node c0 < node c)%nat by (apply Hf, elem_nodes; eauto). lia. }
  destruct (emitting_run method s _ x _ n Hok _ _ _ _ Hem Hrun) as [_ _ _ [[_ Hnone]|(fs & Hnil & _)] (y & cs & Hy & Hcs & [P1 P2 P3])];
    [|by destruct fs].
  exists cs. split_and!; [done|done|]. intros y' c Hy' Hc Hc'. simplify_eq. apply P3; [done|done|].
  intros m Hm. by rewrite (Hnone y Hy) in Hm.
Qed.

(** ** Concrete runs *)

(** One signal, 1, and four objects, the first three connected. *)
Definition demo_setup : list sigop :=
  [NewSignal 1; NewSlots 1; NewSlots 2; NewSlots 3; NewSlots 4; Connect 1 1 0; Connect 1 2 0; Connect 1 3 0]%positive.
Definition world_after (ops : list sigop) : sigworld :=
  match sig_run (fun _ => []) admissible 100 (map Op ops) empty_sigworld with Ret (_, w) => w | _ => empty_sigworld end.
Definition objects_called (w : sigworld) : list loc := pdest ∘ snd <$> calls w.

(** The first object called destroys itself and the second one, and connects the
    fourth. *)
Definition demo_method (cs : list (loc * _opaque_connection)) : list sigop :=
  match cs with [_] => [DeleteSlots 1; DeleteSlots 2; Connect 1 4 0]%positive | _ => [] end.

Lemma world_after_inv ops : sig_inv (world_after ops).
Proof.
  unfold world_after. destruct (sig_run_inv (fun _ => []) admissible ltac:(done) 100 (map Op ops) empty_sigworld empty_sigworld_inv)
    as (k & w & -> & I & _); [|done]. by intros s (o & ? & _)%list_elem_of_fmap.
Qed.

Definition state_of {A} (r : res (A * sigworld)) : sigworld := match r with Ret (_, w) => w | _ => empty_sigworld end.
Definition demo_start : sigworld := state_of (emit_begin 1 (world_after demo_setup)).
Definition demo_end : sigworld := state_of (sig_run demo_method (quiet 1) 20 [Firing 1%positive] demo_start).

Lemma emit_delivers_witness :
  objects_called demo_end = [1; 3; 4]%positive /\
  exists cs, calls demo_end = calls (world_after demo_setup) ++ cs /\ StronglySorted lt (called_nodes 1 cs) /\ (1%positive, Conn 2 3 0) ∈ cs.
Proof.
  split; [by vm_compute|].
  assert (signals (world_after demo_setup) !! 1%positive = Some (Sig [Conn 0 1 0; Conn 1 2 0; Conn 2 3 0] None)) as Hx by by vm_compute.
  assert (signals demo_end !! 1%positive = Some (Sig [Conn 2 3 0; Conn 3 4 0] None)) as Hy by by vm_compute.
  destruct (emit_delivers demo_method 1 (world_after demo_setup) _ demo_start 20 demo_end (world_after_inv _) Hx)
    as (cs & Hcs & Hs & Hall); [by vm_compute|by vm_compute|].
  exists cs. split; [exact Hcs|]. split; [exact Hs|]. apply (Hall _ _ Hy); repeat (left || right).
Defined.

(** Connected twice, the object is forgotten by one [disconnect] only, but no
    longer knows the signal: destroyed, it is still called. *)
Example connected_twice :
  (sig_run (fun _ => []) (fun _ _ _ => true) 20
     (map Op [NewSignal 1; NewSlots 1; Connect 1 1 0; Connect 1 1 0; Disconnect 1 1; DeleteSlots 1; Emit 1]%positive)
     empty_sigworld) = Ub UseAfterFree.
Proof. by vm_compute. Qed.

(** A signal destroyed by a method that it calls. *)
Example destroyed_while_firing :
  sig_run (fun _ => [DeleteSignal 1%positive]) (fun _ _ _ => true) 20 (map Op (demo_setup ++ [Emit 1%positive])) empty_sigworld =
  Ub UseAfterFree.
Proof. by vm_compute. Qed.

(** Firing a signal again from the first method called ends the outer emission:
    the other two objects are called once, not twice. *)
Example fired_again :
  let method cs := match cs with [_] => [Emit 1%positive] | _ => [] end in
  exists w, sig_run method admissible 40 (map Op (demo_setup ++ [Emit 1%positive])) empty_sigworld = Ret ([], w) /\
    objects_called w = [1; 1; 2; 3]%positive.
Proof. eexists. split; [vm_compute; reflexivity|reflexivity]. Qed.

(** A slot connected during an emission is called by it, unless it was the last
    slot that connected it. *)
Example connected_during n (Hn : n = 1%nat \/ n = 3%nat) :
  let method cs := if decide (length cs = n) then [Connect 1 4 0]%positive else [] in
  exists w, sig_run method admissible 40 (map Op (demo_setup ++ [Emit 1%positive])) empty_sigworld = Ret ([], w) /\
    objects_called w = (if decide (n = 3%nat) then [1; 2; 3] else [1; 2; 3; 4])%positive.
Proof. destruct Hn as [-> | ->]; eexists; (split; [vm_compute; reflexivity|reflexivity]). Qed.
