(* ===== verification/EventLoop.v ===== *)
(** * [base/event_loop.cpp]: watchers over libev

    libev is a submodule outside the sources, so it is the class [LibEv]: the
    operations the code calls on an [ev_io] and an [ev_timer], with the laws its
    manual states for the bits the code tests.  [EventLoop] keeps no state of
    its own besides the loop; the state of a watcher is its libev structure. *)

From Stdlib Require Import Floats.SpecFloat.
From S2P Require Import Prelude.
#[local] Open Scope Z_scope.
#[local] Open Scope xrtc_scope.

Class LibEv := {
  EV_NONE : Z;
  EV_READ : Z;
  EV_WRITE : Z;
  ev_io : Type;
  ev_io_init : ev_io;                     (* [ev_init] on fresh storage *)
  ev_is_active : ev_io -> bool;
  ev_events : ev_io -> Z;                 (* [io->events] *)
  ev_fd : ev_io -> Z;                     (* [io->fd] *)
  ev_io_set : ev_io -> Z -> Z -> ev_io;
  ev_io_start : ev_io -> ev_io;
  ev_io_stop : ev_io -> ev_io;
  ev_timer : Type;
  ev_timer_init : ev_timer;
  ev_timer_active : ev_timer -> bool;
  ev_timer_repeat : ev_timer -> spec_float;
  ev_timer_at : ev_timer -> spec_float;
  ev_timer_set : ev_timer -> spec_float -> spec_float -> ev_timer;
  ev_timer_set_repeat : ev_timer -> spec_float -> ev_timer;  (* [timer->repeat = r] *)
  ev_timer_start : ev_timer -> ev_timer;
  ev_timer_stop : ev_timer -> ev_timer;
  ev_timer_again : ev_timer -> ev_timer;
}.

(** An [ev_io] waits for event [e] when the bit is set in its [events]. *)
Definition ev_waits `{LibEv} (io : ev_io) (e : Z) : bool :=
  negb (Z.land (ev_events io) e =? 0).

(** What the libev manual promises of these operations: [ev_io_set] and
    [ev_io_start]/[ev_io_stop] act on the fd and event bits and on the active
    flag only, and a fresh watcher is not active.  libev may keep further bits
    in [events]; nothing is assumed about them. *)
Class LibEvLaws `{LibEv} : Prop := {
  ev_none : EV_NONE = 0;
  ev_read_pos : 0 < EV_READ;
  ev_write_pos : 0 < EV_WRITE;
  ev_read_write : Z.land EV_READ EV_WRITE = 0;
  ev_init_inactive : ev_is_active ev_io_init = false;
  ev_set_fd io fd es : ev_fd (ev_io_set io fd es) = fd;
  ev_set_waits io fd es e : e = EV_READ \/ e = EV_WRITE ->
    ev_waits (ev_io_set io fd es) e = negb (Z.land es e =? 0);
  ev_set_active io fd es : ev_is_active (ev_io_set io fd es) = ev_is_active io;
  ev_start_active io : ev_is_active (ev_io_start io) = true;
  ev_start_fd io : ev_fd (ev_io_start io) = ev_fd io;
  ev_start_waits io e : e = EV_READ \/ e = EV_WRITE ->
    ev_waits (ev_io_start io) e = ev_waits io e;
  ev_stop_active io : ev_is_active (ev_io_stop io) = false;
  ev_stop_fd io : ev_fd (ev_io_stop io) = ev_fd io;
  ev_stop_waits io e : e = EV_READ \/ e = EV_WRITE ->
    ev_waits (ev_io_stop io) e = ev_waits io e;
}.

Section event_loop.
Context `{LibEv}.

(** [enum { READ = 0x01, WRITE = 0x02 }]. *)
Definition READ : Z := 1.
Definition WRITE : Z := 2.

Definition TRANS_TO_EV_MASK (mask : Z) : Z :=
  Z.lor (if negb (Z.land mask READ =? 0) then EV_READ else 0)
        (if negb (Z.land mask WRITE =? 0) then EV_WRITE else 0).

Definition TRANS_FROM_EV_MASK (mask : Z) : Z :=
  Z.lor (if negb (Z.land mask EV_READ =? 0) then READ else 0)
        (if negb (Z.land mask EV_WRITE =? 0) then WRITE else 0).

(** [class IOWatcher]: the callback and its argument are the [data] the loop
    hands back; [D] is their type. *)
Record IOWatcher (D : Type) := MkIOWatcher { io : ev_io; w_data : D }.
Arguments MkIOWatcher {D}.
Arguments io {D}.
Arguments w_data {D}.

Definition create_io_event {D} (data : D) : IOWatcher D := MkIOWatcher ev_io_init data.

Definition start_io_event {D} (w : IOWatcher D) (fd mask : Z) : IOWatcher D :=
  let i := io w in
  if ev_is_active i then
    let active_events := TRANS_FROM_EV_MASK (ev_events i) in
    let new_events := Z.lor active_events mask in
    if new_events =? active_events then w
    else
      let libev_events := TRANS_TO_EV_MASK new_events in
      let i := ev_io_stop i in
      let i := ev_io_set i fd libev_events in
      MkIOWatcher (ev_io_start i) (w_data w)
  else
    let libev_events := TRANS_TO_EV_MASK mask in
    let i := ev_io_set i fd libev_events in
    MkIOWatcher (ev_io_start i) (w_data w).

Definition stop_io_event {D} (w : IOWatcher D) (fd mask : Z) : IOWatcher D :=
  let i := io w in
  let active_events := TRANS_FROM_EV_MASK (ev_events i) in
  let new_events := Z.land active_events (Z.lnot mask) in
  if new_events =? active_events then w
  else
    let new_events := TRANS_TO_EV_MASK new_events in
    let i := ev_io_stop i in
    if negb (new_events =? EV_NONE)
    then MkIOWatcher (ev_io_start (ev_io_set i fd new_events)) (w_data w)
    else MkIOWatcher i (w_data w).

(** [generic_io_cb]: the fd and the translated events handed to the callback. *)
Definition generic_io_cb {D} (w : IOWatcher D) (events : Z) : D * Z * Z :=
  (w_data w, ev_fd (io w), TRANS_FROM_EV_MASK events).

(** ** Timers *)

Record TimerWatcher (D : Type) := MkTimerWatcher {
  timer : ev_timer;
  t_data : D;
  need_repeat : bool;
}.
Arguments MkTimerWatcher {D}.
Arguments timer {D}.
Arguments t_data {D}.
Arguments need_repeat {D}.

Definition create_timer {D} (data : D) (need_repeat : bool) : TimerWatcher D :=
  MkTimerWatcher ev_timer_init data need_repeat.

(** [float(usec) / 1000000], in binary32. *)
Definition float_of_Z (z : Z) : spec_float := binary_normalize 24 128 z 0 false.
Definition usec_to_sec (usec : Z) : spec_float :=
  SFdiv 24 128 (float_of_Z (u32 usec)) (float_of_Z 1000000).

Definition start_timer {D} (w : TimerWatcher D) (usec : Z) : TimerWatcher D :=
  let t := timer w in
  let sec := usec_to_sec usec in
  if negb (need_repeat w) then
    let t := ev_timer_stop t in
    let t := ev_timer_set t sec (S754_zero false) in
    MkTimerWatcher (ev_timer_start t) (t_data w) (need_repeat w)
  else
    let t := ev_timer_set_repeat t sec in
    MkTimerWatcher (ev_timer_again t) (t_data w) (need_repeat w).

Definition stop_timer {D} (w : TimerWatcher D) : TimerWatcher D :=
  MkTimerWatcher (ev_timer_stop (timer w)) (t_data w) (need_repeat w).

(** ** Interest: what a watcher waits for *)

(** [READ]/[WRITE] bits of an active watcher, nothing for an inactive one. *)
Definition interest {D} (w : IOWatcher D) : Z :=
  if ev_is_active (io w) then TRANS_FROM_EV_MASK (ev_events (io w)) else 0.

(** The masks the callers pass. *)
Definition is_mask (m : Z) : Prop := 0 <= m <= 3.

End event_loop.

Arguments MkIOWatcher {H D}.
Arguments io {H D}.
Arguments w_data {H D}.
Arguments MkTimerWatcher {H D}.
Arguments timer {H D}.
Arguments t_data {H D}.
Arguments need_repeat {H D}.

Section laws.
Context `{LibEvLaws}.

Lemma is_mask_cases m : is_mask m -> m = 0 \/ m = 1 \/ m = 2 \/ m = 3.
Proof. unfold is_mask. lia. Qed.

Lemma trans_from_waits (i : ev_io) :
  TRANS_FROM_EV_MASK (ev_events i) =
  Z.lor (if ev_waits i EV_READ then READ else 0) (if ev_waits i EV_WRITE then WRITE else 0).
Proof. done. Qed.

Lemma trans_from_mask (i : ev_io) : is_mask (TRANS_FROM_EV_MASK (ev_events i)).
Proof.
  rewrite trans_from_waits. destruct (ev_waits i EV_READ), (ev_waits i EV_WRITE); done.
Qed.

Lemma trans_to_values :
  TRANS_TO_EV_MASK 0 = 0 /\ TRANS_TO_EV_MASK 1 = EV_READ /\
  TRANS_TO_EV_MASK 2 = EV_WRITE /\ TRANS_TO_EV_MASK 3 = Z.lor EV_READ EV_WRITE.
Proof.
  split_and!; [done| |done..].
  change (TRANS_TO_EV_MASK 1) with (Z.lor EV_READ 0). apply Z.lor_0_r.
Qed.

Lemma trans_to_bits m :
  is_mask m ->
  negb (Z.land (TRANS_TO_EV_MASK m) EV_READ =? 0) = Z.testbit m 0 /\
  negb (Z.land (TRANS_TO_EV_MASK m) EV_WRITE =? 0) = Z.testbit m 1.
Proof.
  pose proof ev_read_pos. pose proof ev_write_pos. pose proof ev_read_write as Hrw.
  pose proof Hrw as Hwr. rewrite Z.land_comm in Hwr.
  destruct trans_to_values as (E0 & E1 & E2 & E3).
  intros [-> | [-> | [-> | ->]]]%is_mask_cases; rewrite ?E0, ?E1, ?E2, ?E3;
    rewrite ?Z.land_0_l, ?Z.land_lor_distr_l, ?Hrw, ?Hwr, ?Z.land_diag,
      ?Z.lor_0_l, ?Z.lor_0_r; split; try done; apply negb_true_iff, Z.eqb_neq; lia.
Qed.

(** The translation there and back, through a started watcher. *)
Lemma trans_roundtrip (i : ev_io) fd m :
  is_mask m ->
  TRANS_FROM_EV_MASK (ev_events (ev_io_start (ev_io_set i fd (TRANS_TO_EV_MASK m)))) = m.
Proof.
  intros Hm. rewrite trans_from_waits.
  rewrite !ev_start_waits, !ev_set_waits by auto.
  destruct (trans_to_bits m Hm) as [-> ->].
  apply is_mask_cases in Hm as [-> | [-> | [-> | ->]]]; done.
Qed.

Lemma trans_to_none m : is_mask m -> (TRANS_TO_EV_MASK m =? EV_NONE) = (m =? 0).
Proof.
  intros Hm. rewrite ev_none. pose proof (trans_to_bits m Hm) as [Hr Hw].
  apply is_mask_cases in Hm as Hc.
  destruct (Z.eqb_spec (TRANS_TO_EV_MASK m) 0) as [E|E].
  - rewrite E in Hr, Hw. destruct Hc as [-> | [-> | [-> | ->]]]; done.
  - destruct Hc as [-> | [-> | [-> | ->]]]; [|done..]. done.
Qed.

Lemma interest_mask {D} (w : IOWatcher D) : is_mask (interest w).
Proof. unfold interest. case_match; [apply trans_from_mask | done]. Qed.

(** Registering events adds them to what the watcher waits for. *)
Lemma start_io_event_interest {D} (w : IOWatcher D) fd m :
  is_mask m -> interest (start_io_event w fd m) = Z.lor (interest w) m.
Proof.
  intros Hm. unfold start_io_event, interest at 2.
  destruct (ev_is_active (io w)) eqn:Ha.
  - set (a := TRANS_FROM_EV_MASK _).
    assert (is_mask (Z.lor a m)) as Hl.
    { pose proof (trans_from_mask (io w)) as Ht. fold a in Ht.
      apply is_mask_cases in Ht as [-> | [-> | [-> | ->]]];
        apply is_mask_cases in Hm as [-> | [-> | [-> | ->]]]; done. }
    destruct (Z.eqb_spec (Z.lor a m) a) as [E|E].
    + unfold interest. by rewrite Ha.
    + unfold interest. cbn. rewrite ev_start_active. by apply trans_roundtrip.
  - unfold interest. cbn. rewrite ev_start_active. by apply trans_roundtrip.
Qed.

(** Unregistering events of an active watcher removes exactly them, and stops
    the watcher when none is left. *)
Lemma stop_io_event_interest {D} (w : IOWatcher D) fd m :
  is_mask m -> ev_is_active (io w) = true ->
  interest (stop_io_event w fd m) = Z.land (interest w) (Z.lnot m).
Proof.
  intros Hm Ha. unfold stop_io_event, interest at 2. rewrite Ha.
  set (a := TRANS_FROM_EV_MASK _).
  assert (is_mask (Z.land a (Z.lnot m))) as Hl.
  { pose proof (trans_from_mask (io w)) as Ht. fold a in Ht.
    apply is_mask_cases in Ht as [-> | [-> | [-> | ->]]];
      apply is_mask_cases in Hm as [-> | [-> | [-> | ->]]]; done. }
  destruct (Z.eqb_spec (Z.land a (Z.lnot m)) a) as [E|E].
  { unfold interest. by rewrite Ha. }
  rewrite trans_to_none by done.
  destruct (Z.eqb_spec (Z.land a (Z.lnot m)) 0) as [->|E0]; cbn; unfold interest; cbn.
  - by rewrite ev_stop_active.
  - rewrite ev_start_active. by apply trans_roundtrip.
Qed.

Lemma interest_active {D} (w : IOWatcher D) : interest w <> 0 -> ev_is_active (io w) = true.
Proof. unfold interest. by case_match. Qed.

Lemma start_io_event_data {D} (w : IOWatcher D) fd m : w_data (start_io_event w fd m) = w_data w.
Proof. unfold start_io_event. repeat case_match; done. Qed.
Lemma stop_io_event_data {D} (w : IOWatcher D) fd m : w_data (stop_io_event w fd m) = w_data w.
Proof. unfold stop_io_event. repeat case_match; done. Qed.
End laws.

(** ** Properties *)

(** [start_io_event] makes a watcher wait for exactly the events it waited
    for before plus the requested ones; [stop_io_event] on an active watcher
    removes exactly the given ones, and leaves the watcher inactive when and
    only when nothing is left to wait for. *)
Theorem io_event_interest `{LibEvLaws} {D} (w : IOWatcher D) fd m :
  is_mask m ->
  interest (start_io_event w fd m) = Z.lor (interest w) m /\
  ev_is_active (io (start_io_event w fd m)) = true /\
  (interest w <> 0 ->
    interest (stop_io_event w fd m) = Z.land (interest w) (Z.lnot m) /\
    (interest (stop_io_event w fd m) <> 0 ->
      ev_is_active (io (stop_io_event w fd m)) = true)).
Proof.
  intros Hm. split_and!.
  - by apply start_io_event_interest.
  - unfold start_io_event. destruct (ev_is_active (io w)) eqn:Ha.
    + case_match; [done|]. apply ev_start_active.
    + apply ev_start_active.
  - intros Hi. split; [|apply interest_active].
    apply stop_io_event_interest; [done|]. by apply interest_active.
Qed.

(** [stop_io_event] does not test that the watcher is active: called on a
    stopped watcher that last waited for READ and WRITE, it starts it again. *)
Theorem stop_io_event_restarts `{LibEvLaws} {D} (w : IOWatcher D) fd :
  ev_is_active (io w) = false ->
  ev_waits (io w) EV_READ = true -> ev_waits (io w) EV_WRITE = true ->
  interest w = 0 /\ interest (stop_io_event w fd WRITE) = READ.
Proof.
  intros Ha Hr Hw. split; [unfold interest; by rewrite Ha|].
  unfold stop_io_event. rewrite trans_from_waits, Hr, Hw.
  change (Z.land (Z.lor READ WRITE) (Z.lnot WRITE)) with 1.
  change (1 =? Z.lor READ WRITE) with false. cbv iota.
  rewrite trans_to_none by done. unfold interest. cbn. rewrite ev_start_active.
  by apply trans_roundtrip.
Qed.

(** ** A model of libev, to run the code on *)

Record sim_io := SimIo { sim_active : bool; sim_fd : Z; sim_events : Z }.
Record sim_timer := SimTimer {
  sim_t_active : bool; sim_t_at : spec_float; sim_t_repeat : spec_float }.

#[local] Instance libev_sim : LibEv := {
  EV_NONE := 0;
  EV_READ := 1;
  EV_WRITE := 2;
  ev_io := sim_io;
  ev_io_init := SimIo false 0 0;
  ev_is_active := sim_active;
  ev_events := sim_events;
  ev_fd := sim_fd;
  ev_io_set i fd es := SimIo (sim_active i) fd es;
  ev_io_start i := SimIo true (sim_fd i) (sim_events i);
  ev_io_stop i := SimIo false (sim_fd i) (sim_events i);
  ev_timer := sim_timer;
  ev_timer_init := SimTimer false (S754_zero false) (S754_zero false);
  ev_timer_active := sim_t_active;
  ev_timer_repeat := sim_t_repeat;
  ev_timer_at := sim_t_at;
  ev_timer_set t a r := SimTimer (sim_t_active t) a r;
  ev_timer_set_repeat t r := SimTimer (sim_t_active t) (sim_t_at t) r;
  ev_timer_start t := SimTimer true (sim_t_at t) (sim_t_repeat t);
  ev_timer_stop t := SimTimer false (sim_t_at t) (sim_t_repeat t);
  ev_timer_again t := SimTimer true (sim_t_repeat t) (sim_t_repeat t);
}.

#[local] Instance libev_sim_laws : LibEvLaws.
Proof. by constructor. Qed.

Lemma io_event_interest_witness :
  let w := start_io_event (create_io_event tt) 7 READ in
  interest (start_io_event w 7 WRITE) = 3 /\
  interest (stop_io_event w 7 READ) = 0.
Proof.
  intros w. split.
  - by apply (io_event_interest w 7 WRITE).
  - by apply (io_event_interest w 7 READ).
Defined.

Lemma stop_io_event_restarts_witness :
  interest (stop_io_event (MkIOWatcher (H := libev_sim) (SimIo false 7 3) tt) 7 WRITE) = READ.
Proof. by apply (stop_io_event_restarts (MkIOWatcher (H := libev_sim) (SimIo false 7 3) tt) 7). Defined.
