(* ===== verification/LoopLife.v ===== *)
(** * [base/event_loop.cpp]: the loops themselves, and the end of watchers

    Which libev loop an [EventLoop] runs, stops and destroys, the clock that it
    reads, and the functions that delete watchers.  Loops are named by their
    addresses; what libev answers (a new loop, the default loop, the time) is an
    argument of the operation that asks. *)

From Stdlib Require Import Floats.SpecFloat.
From S2P Require Import Prelude EventLoop.
#[local] Open Scope Z_scope.
#[local] Open Scope xrtc_scope.

(** ** Watchers *)

Section watchers.
Context `{LibEv}.

(** The libev structure when its watcher is freed. *)
Definition delete_io_event {D} (w : IOWatcher D) : ev_io := ev_io_stop (io w).
Definition delete_timer {D} (w : TimerWatcher D) : ev_timer := timer (stop_timer w).

(** What the callback of a timer is given. *)
Definition generic_time_cb {D} (w : TimerWatcher D) : D := t_data w.
End watchers.

(** The memory of an I/O watcher is never freed while libev may still use it. *)
Lemma delete_io_event_inactive `{LibEvLaws} {D} (w : IOWatcher D) : ev_is_active (delete_io_event w) = false.
Proof. apply ev_stop_active. Qed.

(** ** Loops *)

Record EventLoop := MkEventLoop { _owner : loc; _loop : option loc }.

Record loopworld := LoopWorld {
  loops : gset loc;               (* the loops that exist *)
  default_loop : option loc;      (* the one of them that is libev's default loop *)
  els : gmap loc EventLoop;
  runs : list (loc * bool);       (* [ev_run] (true) and [ev_break] calls *)
}.

Definition get_el (e : loc) : M loopworld EventLoop :=
  w ← get; match els w !! e with Some x => mret x | None => ub_ UseAfterFree end.

(** libev is given a loop: it must exist. *)
Definition use_loop (l : loc) : M loopworld unit :=
  w ← get; if decide (l ∈ loops w) then mret tt else ub_ UseAfterFree.

Definition ev_loop_new (r : option loc) : M loopworld (option loc) :=
  _ ← modify (fun w => LoopWorld (match r with Some l => {[l]} ∪ loops w | None => loops w end) (default_loop w) (els w) (runs w));
  mret r.
(** The default loop, created by the first call. *)
Definition ev_default_loop (r : option loc) : M loopworld (option loc) :=
  w ← get;
  match default_loop w with
  | Some l => mret (Some l)
  | None =>
      _ ← put (LoopWorld (match r with Some l => {[l]} ∪ loops w | None => loops w end) r (els w) (runs w));
      mret r
  end.
Definition ev_loop_destroy (l : loc) : M loopworld unit :=
  _ ← use_loop l;
  modify (fun w => LoopWorld (loops w ∖ {[l]}) (if decide (default_loop w = Some l) then None else default_loop w) (els w) (runs w)).

Definition set_el (e : loc) (x : EventLoop) (w : loopworld) : loopworld :=
  LoopWorld (loops w) (default_loop w) (<[e := x]> (els w)) (runs w).

Definition new_EventLoop (e owner : loc) (r : option loc) : M loopworld unit :=
  l ← ev_loop_new r; modify (set_el e (MkEventLoop owner l)).
Definition delete_EventLoop (e : loc) : M loopworld unit :=
  x ← get_el e;
  _ ← (match _loop x with Some l => ev_loop_destroy l | None => mret tt end);
  modify (fun w => LoopWorld (loops w) (default_loop w) (delete e (els w)) (runs w)).
Definition el_init (e : loc) (r : option loc) : M loopworld Z :=
  x ← get_el e;
  l ← ev_default_loop r;
  _ ← modify (set_el e (MkEventLoop (_owner x) l));
  mret (match l with Some _ => 0 | None => -1 end).
Definition el_start (e : loc) : M loopworld unit :=
  x ← get_el e;
  match _loop x with
  | Some l => _ ← use_loop l; modify (fun w => LoopWorld (loops w) (default_loop w) (els w) (runs w ++ [(l, true)]))
  | None => mret tt
  end.
Definition el_stop (e : loc) : M loopworld unit :=
  x ← get_el e;
  match _loop x with
  | Some l => _ ← use_loop l; modify (fun w => LoopWorld (loops w) (default_loop w) (els w) (runs w ++ [(l, false)]))
  | None => mret tt
  end.
Definition el_owner (e : loc) : M loopworld loc := x ← get_el e; mret (_owner x).

(** A [double] converted to [unsigned long long]. *)
Definition trunc (f : spec_float) : option Z :=
  match f with
  | S754_zero _ => Some 0
  | S754_finite s m e =>
      let a := if 0 <=? e then Z.pos m * 2 ^ e else Z.pos m / 2 ^ (- e) in Some (if s then - a else a)
  | _ => None
  end.
Definition to_ulong (f : spec_float) : res Z :=
  match trunc f with
  | Some z => if decide (0 <= z < 2 ^ 64) then Ret z else Ub BadArgument
  | None => Ub BadArgument
  end.
(** [ev_now(_loop) * 1000000]: [t] is what [ev_now] returns; it reads the loop. *)
Definition el_now (e : loc) (t : spec_float) : M loopworld Z :=
  x ← get_el e;
  match _loop x with
  | None => ub_ NullDeref
  | Some l => _ ← use_loop l; lift (to_ulong (SFmul 53 1024 t (binary_normalize 53 1024 1000000 0 false)))
  end.

(** ** Ownership *)

(** The operations of the program, which never calls [init]. *)
Inductive loop_op := LNew (e owner : loc) (r : option loc) | LDelete (e : loc) | LStart (e : loc) | LStop (e : loc).

(** An object is made at an unused address, libev gives a loop that does not
    exist yet, and objects that are used exist. *)
Definition loop_op_ok (w : loopworld) (o : loop_op) : Prop :=
  match o with
  | LNew e _ r => els w !! e = None /\ match r with Some l => l ∉ loops w | None => True end
  | LDelete e | LStart e | LStop e => is_Some (els w !! e)
  end.
Definition do_loop_op (o : loop_op) : M loopworld unit :=
  match o with
  | LNew e owner r => new_EventLoop e owner r
  | LDelete e => delete_EventLoop e
  | LStart e => el_start e
  | LStop e => el_stop e
  end.

(** The loops that exist are those of the objects, and every object has its own. *)
Record loops_owned (w : loopworld) : Prop := {
  owned l : l ∈ loops w <-> exists e x, els w !! e = Some x /\ _loop x = Some l;
  own e1 e2 x1 x2 l : els w !! e1 = Some x1 -> els w !! e2 = Some x2 -> _loop x1 = Some l -> _loop x2 = Some l -> e1 = e2;
}.

Lemma get_el_ok w e x : els w !! e = Some x -> get_el e w = Ret (x, w).
Proof. intros Hx. unfold get_el. rewrite M_bind_get. by rewrite Hx. Qed.
Lemma use_loop_ok w l : l ∈ loops w -> use_loop l w = Ret (tt, w).
Proof. intros Hl. unfold use_loop. rewrite M_bind_get. by rewrite decide_True. Qed.

Lemma el_use_ok w e b : loops_owned w -> is_Some (els w !! e) ->
  exists w', (if b : bool then el_start e else el_stop e) w = Ret (tt, w') /\ loops w' = loops w /\ els w' = els w.
Proof.
  intros Hw [x Hx]. destruct b; unfold el_start, el_stop; rewrite (M_bind_eq _ _ _ _ _ (get_el_ok w e x Hx));
    (destruct (_loop x) as [l|] eqn:Hl; [|by exists w]); rewrite (M_bind_eq _ _ w tt w) by (apply use_loop_ok, (owned w Hw); eauto);
    eexists; done.
Qed.

(** As long as [init] is not called, every loop belongs to one [EventLoop] and
    is destroyed with it, once; a running or stopped loop exists. *)
Theorem loop_lifetime w o : loops_owned w -> loop_op_ok w o -> exists w', do_loop_op o w = Ret (tt, w') /\ loops_owned w'.
Proof.
  intros Hw Hok. destruct o as [e owner r|e|e|e]; cbn [do_loop_op loop_op_ok] in *.
  - destruct Hok as [He Hr]. eexists. split; [reflexivity|]. split; cbn.
    + intros l. destruct r as [l'|]; [rewrite elem_of_union, elem_of_singleton|]; rewrite (owned w Hw); split.
      * intros [->|(e' & x & Hx & Hl)]; [by exists e, (MkEventLoop owner (Some l')); rewrite lookup_insert_eq|].
        exists e', x. rewrite lookup_insert_ne by congruence. done.
      * intros (e' & x & [[<- <-]|[Hne Hx]]%lookup_insert_Some & Hl); [left; by injection Hl|right; eauto].
      * intros (e' & x & Hx & Hl). exists e', x. rewrite lookup_insert_ne by congruence. done.
      * intros (e' & x & [[<- <-]|[Hne Hx]]%lookup_insert_Some & Hl); [done|eauto].
    + assert (forall e' x l, els w !! e' = Some x -> _loop x = Some l -> r <> Some l) as Hnew.
      { intros e' x l Hx Hl ->. apply Hr, (owned w Hw). eauto. }
      intros e1 e2 x1 x2 l [[<- <-]|[Hn1 H1]]%lookup_insert_Some [[<- <-]|[Hn2 H2]]%lookup_insert_Some; cbn; intros L1 L2.
      * done.
      * by destruct (Hnew e2 x2 l).
      * by destruct (Hnew e1 x1 l).
      * by apply (own w Hw e1 e2 x1 x2 l).
  - destruct Hok as [x Hx]. unfold delete_EventLoop. rewrite (M_bind_eq _ _ _ _ _ (get_el_ok w e x Hx)).
    destruct (_loop x) as [l|] eqn:Hl.
    + assert (l ∈ loops w) as Hin by (apply (owned w Hw); eauto). unfold ev_loop_destroy.
      erewrite M_bind_eq; [|rewrite (M_bind_eq _ _ _ _ _ (use_loop_ok w l Hin)); reflexivity].
      eexists. split; [reflexivity|]. split; cbn.
      * intros l'. rewrite elem_of_difference, elem_of_singleton, (owned w Hw). split.
        -- intros [(e' & x' & Hx' & Hl') Hne]. exists e', x'. rewrite lookup_delete_ne by congruence. done.
        -- intros (e' & x' & [Hne Hx']%lookup_delete_Some & Hl'). split; [eauto|]. intros ->. by apply Hne, (own w Hw e e' x x' l).
      * intros e1 e2 x1 x2 l' [_ H1]%lookup_delete_Some [_ H2]%lookup_delete_Some. by apply (own w Hw).
    + rewrite M_bind_mret. eexists. split; [reflexivity|]. split; cbn.
      * intros l'. rewrite (owned w Hw). split.
        -- intros (e' & x' & Hx' & Hl'). exists e', x'. rewrite lookup_delete_ne by congruence. done.
        -- intros (e' & x' & [Hne Hx']%lookup_delete_Some & Hl'). eauto.
      * intros e1 e2 x1 x2 l' [_ H1]%lookup_delete_Some [_ H2]%lookup_delete_Some. by apply (own w Hw).
  - destruct (el_use_ok w e true Hw Hok) as (w' & R & Hl & He). exists w'. split; [done|].
    split; [intros l; rewrite Hl, He; apply Hw|rewrite He; apply Hw].
  - destruct (el_use_ok w e false Hw Hok) as (w' & R & Hl & He). exists w'. split; [done|].
    split; [intros l; rewrite Hl, He; apply Hw|rewrite He; apply Hw].
Qed.

Definition no_loops : loopworld := LoopWorld ∅ None ∅ [].
Lemma no_loops_owned : loops_owned no_loops.
Proof. split; [|by intros ? ? ? ? ?]. intros l. split; [set_solver|by intros (e & x & ? & _)]. Qed.

Lemma loop_lifetime_witness : exists w', do_loop_op (LNew 1 2 (Some 3%positive)) no_loops = Ret (tt, w') /\ loops_owned w'.
Proof. apply (loop_lifetime no_loops (LNew 1 2 (Some 3%positive)) no_loops_owned). split; [done|set_solver]. Defined.

(** [init] forgets the loop that the constructor made: it is never destroyed. *)
Example init_leaks :
  exists w, (_ ← new_EventLoop 1 9 (Some 3); _ ← el_init 1 (Some 4); delete_EventLoop 1)%positive no_loops = Ret (tt, w) /\
    loops w = {[3%positive]}.
Proof. eexists. split; [reflexivity|]. vm_compute. reflexivity. Qed.

(** Two objects that call [init] share the default loop: the second one to be
    used outlives it. *)
Example init_shared :
  (_ ← new_EventLoop 1 9 (Some 3); _ ← new_EventLoop 2 9 (Some 4);
   _ ← el_init 1 (Some 5); _ ← el_init 2 None; _ ← delete_EventLoop 1; el_start 2)%positive no_loops = Ub UseAfterFree.
Proof. by vm_compute. Qed.

Example now_micros :
  (_ ← new_EventLoop 1 9 (Some 3%positive); el_now 1 (S754_finite false 6755399441055744 (-52))) no_loops =
  Ret (1500000, LoopWorld {[3%positive]} None {[1%positive := MkEventLoop 9 (Some 3%positive)]} []).
Proof. by vm_compute. Qed.
