(* ===== verification/Socket.v ===== *)
(** * [base/socket.cpp]: wrappers around the socket system calls

    A system call is its result, chosen by the kernel and passed to the model
    of the wrapper; the wrappers that close descriptors return the list of the
    descriptors they closed. *)

From S2P Require Import Prelude.
#[local] Open Scope Z_scope.
#[local] Open Scope xrtc_scope.

(** Results of the calls that move data: [-1] with an [errno], or the bytes. *)
Inductive sysread := ReadErr (errno : Z) | ReadBytes (bs : list byte).
Inductive syswrite := WriteErr (errno : Z) | Wrote (n : nat).

Section socket.
Context (EAGAIN EWOULDBLOCK : Z).

(** [create_tcp_socket(addr, port)]; [addr] is [None] for a null pointer. The
    result and the descriptors closed on the way. *)
Definition create_tcp_socket (socket setsockopt : Z) (addr : option string)
    (inet_aton : string -> Z) (bind listen : Z) : Z * list Z :=
  let sock := socket in
  if sock =? -1 then (-1, [])
  else if setsockopt =? -1 then (-1, [sock])
  else if match addr with Some a => inet_aton a =? 0 | None => false end
  then (-1, [sock])
  else if bind =? -1 then (-1, [sock])
  else if listen =? -1 then (-1, [sock])
  else (sock, []).

(** [generic_accept]: [accept] is called once, before the loop. [None]: the
    loop is still running when the fuel is spent. *)
Fixpoint generic_accept_loop (fuel : nat) (sock cfd errno : Z) : option (Z * list Z) :=
  match fuel with
  | O => None
  | S fuel =>
      if cfd =? -1 then
        if (EAGAIN =? errno) || (EWOULDBLOCK =? errno)
        then generic_accept_loop fuel sock cfd errno
        else Some (-1, [sock])
      else Some (cfd, [])
  end.

Definition generic_accept (fuel : nat) (sock : Z) (accept : Z * Z) : option (Z * list Z) :=
  let '(cfd, errno) := accept in generic_accept_loop fuel sock cfd errno.

(** [tcp_accept]: the connection and, when it succeeded, the peer's address as
    [inet_ntop] and [ntohs] render it. *)
Definition tcp_accept (fuel : nat) (fd : Z) (accept : Z * Z) (peer : string * Z)
    : option (Z * option (string * Z) * list Z) :=
  '(cfd, closed) ← generic_accept fuel fd accept;
  if cfd =? -1 then Some (-1, None, closed) else Some (cfd, Some peer, closed).

Definition sock_set_non_block (getfl setfl : Z) : Z :=
  if getfl <? 0 then -1 else if setfl <? 0 then -1 else 0.

Definition sock_set_tcp_nodelay (setsockopt : Z) : Z :=
  if setsockopt <? 0 then -1 else 0.

(** [sock_peer_to_string]: the return value and the address left in [ip] and
    [port]; [None] stands for a failing [getpeername]. *)
Definition sock_peer_to_string (getpeername : option (string * Z)) : Z * (string * Z) :=
  match getpeername with
  | None => (-1, (EmptyString, 0))
  | Some peer => (0, peer)
  end.

(** [sock_read_data]: [-1] for an error or a closed connection, [0] when
    nothing is there yet, else the number of bytes stored. *)
Definition sock_read_data (r : sysread) : Z * list byte :=
  match r with
  | ReadErr errno => if EAGAIN =? errno then (0, []) else (-1, [])
  | ReadBytes [] => (-1, [])
  | ReadBytes bs => (i32 (Z.of_nat (length bs)), bs)
  end.

Definition sock_write_data (r : syswrite) : Z :=
  match r with
  | WriteErr errno => if EAGAIN =? errno then 0 else -1
  | Wrote n => i32 (Z.of_nat n)
  end.

End socket.

(** ** Properties *)

(** [create_tcp_socket] does not leak: it either returns the socket and
    closes nothing, or returns -1 after closing exactly the socket it had
    created (nothing when [socket] itself failed). *)
Theorem create_tcp_socket_no_leak socket setsockopt addr aton bind listen :
  socket <> -1 ->
  create_tcp_socket socket setsockopt addr aton bind listen = (socket, []) \/
  create_tcp_socket socket setsockopt addr aton bind listen = (-1, [socket]).
Proof.
  intros Hs. unfold create_tcp_socket. apply Z.eqb_neq in Hs as ->.
  repeat case_match; auto.
Qed.

Lemma create_tcp_socket_no_leak_witness :
  create_tcp_socket 5 0 (Some "127.0.0.1") (fun _ => 1) (-1) 0 = (5, []) \/
  create_tcp_socket 5 0 (Some "127.0.0.1") (fun _ => 1) (-1) 0 = (-1, [5]).
Proof. by apply create_tcp_socket_no_leak. Defined.

Lemma generic_accept_loop_spin EAGAIN EWOULDBLOCK fuel sock errno :
  errno = EAGAIN \/ errno = EWOULDBLOCK ->
  generic_accept_loop EAGAIN EWOULDBLOCK fuel sock (-1) errno = None.
Proof.
  intros He. induction fuel as [|fuel IH]; [done|]. simpl.
  by destruct He as [-> | ->]; rewrite Z.eqb_refl, ?orb_true_r.
Qed.

(** [generic_accept] ends after one iteration exactly when [accept] did not
    report EAGAIN or EWOULDBLOCK. Otherwise its loop never ends, for no amount
    of fuel, because [accept] is not called again inside it; and every other
    error closes the listening socket. *)
Theorem generic_accept_cases EAGAIN EWOULDBLOCK sock cfd errno :
  (cfd <> -1 -> forall n, generic_accept EAGAIN EWOULDBLOCK (S n) sock (cfd, errno) = Some (cfd, [])) /\
  (cfd = -1 -> errno = EAGAIN \/ errno = EWOULDBLOCK ->
     forall n, generic_accept EAGAIN EWOULDBLOCK n sock (cfd, errno) = None) /\
  (cfd = -1 -> errno <> EAGAIN -> errno <> EWOULDBLOCK ->
     forall n, generic_accept EAGAIN EWOULDBLOCK (S n) sock (cfd, errno) = Some (-1, [sock])).
Proof.
  split_and!.
  - intros Hc n. simpl. by apply Z.eqb_neq in Hc as ->.
  - intros -> He n. by apply generic_accept_loop_spin.
  - intros -> H1 H2 n. simpl.
    by rewrite (proj2 (Z.eqb_neq EAGAIN errno)), (proj2 (Z.eqb_neq EWOULDBLOCK errno)) by congruence.
Qed.

Lemma generic_accept_cases_witness :
  (forall n, generic_accept 35 35 n 3 (-1, 35) = None) /\
  (forall n, generic_accept 35 35 (S n) 3 (-1, 24) = Some (-1, [3])).
Proof.
  split; intros n.
  - by apply (generic_accept_cases 35 35 3 (-1) 35); auto.
  - by apply (generic_accept_cases 35 35 3 (-1) 24).
Defined.
