(* ===== verification/Defs.v ===== *)
(** * [base/xhead.h] and [base/xrtcserver_def.h]: the packet header, the command
    numbers and the message that travels between the signaling workers, the RTC
    server and the RTC workers *)

From stdpp Require Import pretty.
From S2P Require Import Prelude Sds.
#[local] Open Scope Z_scope.
#[local] Open Scope xrtc_scope.

Definition XHEAD_SIZE : Z := 36.
Definition XHEAD_MAGIC_NUM : Z := 0xfb202202.

Record xhead_t := Xhead {
  id : Z;              (* uint16_t *)
  version : Z;         (* uint16_t *)
  xh_log_id : Z;       (* uint32_t *)
  provider : list byte; (* char[16] *)
  magic_num : Z;       (* uint32_t *)
  reserved : Z;        (* uint32_t *)
  body_len : Z;        (* uint32_t *)
}.

(** [(xhead_t* )p]: the fields at their offsets in the 36 bytes at [p]. *)
Definition xhead_of_bytes (bs : list byte) : xhead_t := Xhead
  (le_of_bytes (take 2 bs))
  (le_of_bytes (take 2 (drop 2 bs)))
  (le_of_bytes (take 4 (drop 4 bs)))
  (take 16 (drop 8 bs))
  (le_of_bytes (take 4 (drop 24 bs)))
  (le_of_bytes (take 4 (drop 28 bs)))
  (le_of_bytes (take 4 (drop 32 bs))).

Definition xhead_to_bytes (h : xhead_t) : list byte :=
  le_to_bytes 2 (id h) ++ le_to_bytes 2 (version h) ++ le_to_bytes 4 (xh_log_id h) ++
  provider h ++ le_to_bytes 4 (magic_num h) ++ le_to_bytes 4 (reserved h) ++
  le_to_bytes 4 (body_len h).

(** Reading the header through a pointer into a block. *)
Definition xhead_at (b : list byte) (off : Z) : res xhead_t :=
  bs ← load b off XHEAD_SIZE; Ret (xhead_of_bytes bs).

Definition CMDNO_PUSH : Z := 1.
Definition CMDNO_PULL : Z := 2.
Definition CMDNO_ANSWER : Z := 3.
Definition CMDNO_STOPPUSH : Z := 4.
Definition CMDNO_STOPPULL : Z := 5.

Definition MAX_RES_BUF : Z := 4096.

(** [Cert] stands for [rtc::RTCCertificate]; objects the message points to are
    named by their address. *)
Record RtcMsg (Cert : Type) := MkRtcMsg {
  cmdno : Z;
  stream_name : string;
  audio : Z;
  video : Z;
  uid : Z;
  certificate : option Cert;
  log_id : Z;
  woeker : option Z;
  conn : option positive;
  msg_fd : Z;
  sdp : string;
  err_no : Z;
}.
Arguments MkRtcMsg {Cert}.
Arguments cmdno {Cert}.
Arguments stream_name {Cert}.
Arguments audio {Cert}.
Arguments video {Cert}.
Arguments uid {Cert}.
Arguments certificate {Cert}.
Arguments log_id {Cert}.
Arguments woeker {Cert}.
Arguments conn {Cert}.
Arguments msg_fd {Cert}.
Arguments sdp {Cert}.
Arguments err_no {Cert}.

(** Field updates. *)
Definition set_certificate {Cert} (c : option Cert) (m : RtcMsg Cert) : RtcMsg Cert :=
  MkRtcMsg (cmdno m) (stream_name m) (audio m) (video m) (uid m) c (log_id m)
    (woeker m) (conn m) (msg_fd m) (sdp m) (err_no m).
Definition set_sdp {Cert} (s : string) (m : RtcMsg Cert) : RtcMsg Cert :=
  MkRtcMsg (cmdno m) (stream_name m) (audio m) (video m) (uid m) (certificate m) (log_id m)
    (woeker m) (conn m) (msg_fd m) s (err_no m).

Definition RtcMsg_to_string {Cert} (m : RtcMsg Cert) : string :=
  ("cmdno: " +:+ pretty (cmdno m) +:+
   ", stream_name: " +:+ stream_name m +:+
   ", audio: " +:+ pretty (audio m) +:+
   ", video: " +:+ pretty (video m) +:+
   ", uid: " +:+ pretty (uid m) +:+
   ", log_id: " +:+ pretty (log_id m))%string.

(** ** The header as bytes *)

(** The widths of the fields. *)
Record xhead_ok (h : xhead_t) : Prop := {
  xh_id : 0 <= id h < 2 ^ 16;
  xh_version : 0 <= version h < 2 ^ 16;
  xh_log : 0 <= xh_log_id h < 2 ^ 32;
  xh_provider : length (provider h) = 16%nat;
  xh_magic : 0 <= magic_num h < 2 ^ 32;
  xh_reserved : 0 <= reserved h < 2 ^ 32;
  xh_body : 0 <= body_len h < 2 ^ 32;
}.

Lemma length_xhead_to_bytes h : xhead_ok h -> length (xhead_to_bytes h) = 36%nat.
Proof.
  intros []. unfold xhead_to_bytes. rewrite !length_app, !length_le_to_bytes, xh_provider0. done.
Qed.

Lemma le_bytes_range n bs : length bs = n -> 0 <= le_of_bytes bs < 256 ^ Z.of_nat n.
Proof. intros <-. apply le_of_bytes_range. Qed.

Lemma xhead_of_bytes_ok bs : length bs = 36%nat -> xhead_ok (xhead_of_bytes bs).
Proof.
  intros Hl. constructor; simpl.
  1,2: apply (le_bytes_range 2); rewrite length_take, ?length_drop; lia.
  2: rewrite length_take, length_drop; lia.
  all: apply (le_bytes_range 4); rewrite length_take, length_drop; lia.
Qed.

(** Parsing an encoded header gives the header back, whatever follows it. *)
Lemma xhead_of_to_bytes h rest : xhead_ok h -> xhead_of_bytes (xhead_to_bytes h ++ rest) = h.
Proof.
  intros [Hi Hv Hl Hp Hm Hr Hb]. destruct h as [i v l p mg r b]; simpl in *.
  explode Hp. unfold xhead_of_bytes, xhead_to_bytes.
  cbn [id version xh_log_id provider magic_num reserved body_len].
  f_equal; try reflexivity.
  1,2: by apply (le_of_to_bytes 2).
  all: by apply (le_of_to_bytes 4).
Qed.

(** Encoding a parsed header gives its 36 bytes back. *)
Lemma xhead_to_of_bytes bs : length bs = 36%nat -> xhead_to_bytes (xhead_of_bytes bs) = bs.
Proof.
  intros Hl. explode Hl. unfold xhead_to_bytes, xhead_of_bytes.
  cbn [id version xh_log_id provider magic_num reserved body_len take drop].
  rewrite !(le_to_of_bytes [_; _; _; _] : le_to_bytes 4 _ = _),
    !(le_to_of_bytes [_; _] : le_to_bytes 2 _ = _). done.
Qed.

Lemma xhead_at_ok b off :
  0 <= off -> off + 36 <= Z.of_nat (length b) ->
  xhead_at b off = Ret (xhead_of_bytes (take 36 (drop (Z.to_nat off) b))).
Proof. intros. unfold xhead_at, XHEAD_SIZE. by rewrite load_ok by lia. Qed.

(** Parsing looks at the first 36 bytes only. *)
Lemma xhead_of_bytes_prefix xs ys :
  (36 <= length xs)%nat -> xhead_of_bytes (xs ++ ys) = xhead_of_bytes xs.
Proof.
  intros Hl. unfold xhead_of_bytes.
  assert (Ht : forall n k, (n + k <= 36)%nat -> take n (drop k (xs ++ ys)) = take n (drop k xs)).
  { intros n k Hk. rewrite drop_app_le by lia. apply take_app_le. rewrite length_drop. lia. }
  rewrite !Ht, take_app_le by lia. done.
Qed.

#[export] Hint Resolve xhead_of_bytes_ok : xrtc.
#[export] Hint Rewrite @length_xhead_to_bytes using done : xrtc.
