(* ===== verification/SignalingWorker.v ===== *)
(** * [server/tcp_connection.cpp] and [server/signaling_worker.cpp]

    A signaling worker owns the connections of one event loop.  Connections are
    objects on a heap, [_conns] is the table of pointers indexed by descriptor,
    and every callback of the loop is a function of the worker's state and of
    the results of the system calls it makes.  What the callbacks do to the
    world (descriptors closed, bytes written, messages handed to the RTC server)
    is the list [effects]. *)

From S2P Require Import Prelude Sds Defs LockFreeQueue EventLoop Socket.
#[local] Open Scope Z_scope.
#[local] Open Scope xrtc_scope.

(** jsoncpp is a submodule outside the sources: the calls the worker makes of
    it. A reader succeeds, reports an error or throws (nesting beyond its stack
    limit); an access throws when [None]. *)
Inductive parse_result (V : Type) := Parsed (v : V) | ParseError | ParseThrows.
Arguments Parsed {V}.
Arguments ParseError {V}.
Arguments ParseThrows {V}.

Inductive jfield := JInt (z : Z) | JString (s : string).

Class JsonCpp := {
  Value : Type;
  json_parse : list byte -> parse_result Value;
  json_index : Value -> string -> option Value;
  asInt : Value -> option Z;
  asUInt64 : Value -> option Z;
  asString : Value -> option string;
  writeString : list (string * jfield) -> list byte;
}.

Section worker.
Context `{Compiler} `{LibEv} `{JsonCpp} {Cert Q : Type} `{FifoQueue Z Q}.
Context (junk : nat -> byte) (malloc_ok : Z -> bool) (EAGAIN : Z).

(** ** State *)

Definition STATE_HEAD : Z := 0.
Definition STATE_BODY : Z := 1.

Record TcpConnection := MkConn {
  fd : Z;
  ip : string;
  port : Z;
  _io_watcher : IOWatcher unit;            (* data: the worker *)
  timer_watcher : TimerWatcher positive;   (* data: the connection *)
  querybuf : sdshdr;
  bytes_expected : Z;                      (* size_t *)
  bytes_processed : Z;                     (* size_t *)
  currentState : Z;
  last_active_time : Z;                    (* unsigned long long *)
  reply_msgs : list (list byte);
}.

Inductive effect :=
  | EClose (fd : Z)
  | EWrite (fd : Z) (bs : list byte)
  | ERtc (m : RtcMsg Cert).

Record Worker := MkWorker {
  _worker_id : Z;
  connection_timeout_ms : Z;
  _thread : option bool;     (* [None]: null; [Some j]: a thread, joinable when [j] *)
  loop_now : Z;
  loop_stopped : bool;
  notify_pipe : list Z;
  pipe_open : bool;
  _q_conn : Q;
  _conns : list (option positive);
  conn_heap : gmap positive TcpConnection;
  _q_rtc_msg : list (RtcMsg Cert);
  effects : list effect;
}.

Definition QUIT : Z := 0.
Definition NEW_CONN : Z := 1.
Definition RTC_MSG : Z := 2.

(** ** Field updates *)

Definition set_thread b w := MkWorker (_worker_id w) (connection_timeout_ms w) b (loop_now w)
  (loop_stopped w) (notify_pipe w) (pipe_open w) (_q_conn w) (_conns w) (conn_heap w)
  (_q_rtc_msg w) (effects w).
Definition set_loop (stopped open : bool) w := MkWorker (_worker_id w) (connection_timeout_ms w)
  (_thread w) (loop_now w) stopped (notify_pipe w) open (_q_conn w) (_conns w) (conn_heap w)
  (_q_rtc_msg w) (effects w).
Definition set_pipe p w := MkWorker (_worker_id w) (connection_timeout_ms w) (_thread w)
  (loop_now w) (loop_stopped w) p (pipe_open w) (_q_conn w) (_conns w) (conn_heap w)
  (_q_rtc_msg w) (effects w).
Definition set_q_conn q w := MkWorker (_worker_id w) (connection_timeout_ms w) (_thread w)
  (loop_now w) (loop_stopped w) (notify_pipe w) (pipe_open w) q (_conns w) (conn_heap w)
  (_q_rtc_msg w) (effects w).
Definition set_conns t w := MkWorker (_worker_id w) (connection_timeout_ms w) (_thread w)
  (loop_now w) (loop_stopped w) (notify_pipe w) (pipe_open w) (_q_conn w) t (conn_heap w)
  (_q_rtc_msg w) (effects w).
Definition set_heap h w := MkWorker (_worker_id w) (connection_timeout_ms w) (_thread w)
  (loop_now w) (loop_stopped w) (notify_pipe w) (pipe_open w) (_q_conn w) (_conns w) h
  (_q_rtc_msg w) (effects w).
Definition set_q_rtc_msg q w := MkWorker (_worker_id w) (connection_timeout_ms w) (_thread w)
  (loop_now w) (loop_stopped w) (notify_pipe w) (pipe_open w) (_q_conn w) (_conns w)
  (conn_heap w) q (effects w).
Definition add_effect e w := MkWorker (_worker_id w) (connection_timeout_ms w) (_thread w)
  (loop_now w) (loop_stopped w) (notify_pipe w) (pipe_open w) (_q_conn w) (_conns w)
  (conn_heap w) (_q_rtc_msg w) (effects w ++ [e]).

Definition set_watcher i c := MkConn (fd c) (ip c) (port c) i (timer_watcher c) (querybuf c)
  (bytes_expected c) (bytes_processed c) (currentState c) (last_active_time c) (reply_msgs c).
Definition set_querybuf q c := MkConn (fd c) (ip c) (port c) (_io_watcher c) (timer_watcher c) q
  (bytes_expected c) (bytes_processed c) (currentState c) (last_active_time c) (reply_msgs c).
Definition set_framing st proc exp c := MkConn (fd c) (ip c) (port c) (_io_watcher c)
  (timer_watcher c) (querybuf c) exp proc st (last_active_time c) (reply_msgs c).
Definition set_last_active t c := MkConn (fd c) (ip c) (port c) (_io_watcher c) (timer_watcher c)
  (querybuf c) (bytes_expected c) (bytes_processed c) (currentState c) t (reply_msgs c).
Definition set_reply_msgs r c := MkConn (fd c) (ip c) (port c) (_io_watcher c) (timer_watcher c)
  (querybuf c) (bytes_expected c) (bytes_processed c) (currentState c) (last_active_time c) r.

(** ** Accesses *)

Definition get_conn (p : positive) : M Worker TcpConnection := fun w =>
  match conn_heap w !! p with Some c => Ret (c, w) | None => Ub UseAfterFree end.

Definition put_conn (p : positive) (c : TcpConnection) : M Worker unit :=
  _ ← get_conn p; modify (fun w => set_heap (<[p := c]> (conn_heap w)) w).

Definition emit (e : effect) : M Worker unit := modify (add_effect e).

(** [_conns[i] = x] on a [std::vector]. *)
Definition store_slot (i : Z) (x : option positive) : M Worker unit := fun w =>
  if decide (0 <= i < Z.of_nat (length (_conns w)))
  then Ret (tt, set_conns (<[Z.to_nat i := x]> (_conns w)) w) else Ub OutOfBounds.

(** [fd < lo || fd >= _conns.size() || !_conns[fd]], and the pointer otherwise. *)
Definition find_conn (lo f : Z) : M Worker (option positive) := fun w =>
  if decide (lo <= f /\ f < Z.of_nat (length (_conns w)))
  then Ret (mjoin (_conns w !! Z.to_nat f), w) else Ret (None, w).

(** ** [tcp_connection.cpp] *)

(** [new TcpConnection(fd)] at address [p]. *)
Definition new_TcpConnection (p : positive) (f : Z) : M Worker unit :=
  q ← lift (sdsempty junk malloc_ok);
  modify (fun w => set_heap
    (<[p := MkConn f "" 0 (create_io_event tt) (create_timer p true) q XHEAD_SIZE 0
              STATE_HEAD 0 []]> (conn_heap w)) w).

(** [delete c]: the destructor closes the descriptor again and frees the
    buffers. *)
Definition delete_TcpConnection (p : positive) : M Worker unit :=
  c ← get_conn p;
  _ ← emit (EClose (fd c));
  modify (fun w => set_heap (delete p (conn_heap w)) w).

(** ** Closing connections *)

Definition _remove_conn (p : positive) : M Worker unit :=
  c ← get_conn p;
  _ ← store_slot (fd c) None;
  delete_TcpConnection p.

Definition _close_conn (p : positive) : M Worker unit :=
  c ← get_conn p;
  _ ← emit (EClose (fd c));
  _remove_conn p.

Definition _process_timeout (p : positive) : M Worker unit :=
  w ← get;
  c ← get_conn p;
  if u32 (connection_timeout_ms w) <=? u64 (loop_now w - last_active_time c)
  then _close_conn p else mret tt.

(** [conn_timer_cb]: the data of the timer is the connection. *)
Definition conn_timer_cb (t : TimerWatcher positive) : M Worker unit :=
  _process_timeout (t_data t).

(** ** Requests *)

(** Running [asX] of a member, inside the [try] blocks. *)
Definition member {A} (root : Value) (name : string) (as_ : Value -> option A) : option A :=
  json_index root name ≫= as_.

(** [send_ret] is what [rtc_server->send_rtc_msg] returns. *)
Definition _process_push (cmd : Z) (p : positive) (root : Value) (log send_ret : Z) : M Worker Z :=
  match member root "uid" asUInt64 with None => mret (-1) | Some uid =>
  match member root "stream_name" asString with None => mret (-1) | Some stream_name =>
  match member root "audio" asInt with None => mret (-1) | Some audio =>
  match member root "video" asInt with None => mret (-1) | Some video =>
    w ← get;
    c ← get_conn p;
    _ ← emit (ERtc (MkRtcMsg cmd stream_name audio video uid None log
                      (Some (_worker_id w)) (Some p) (fd c) "" 0));
    mret send_ret
  end end end end.

(** The branches other than [CMDNO_PUSH] reach the end of the function without
    a [return], and the caller tests the result. *)
Definition _process_request (p : positive) (header body : list byte) (send_ret : Z) : M Worker Z :=
  let log := xh_log_id (xhead_of_bytes header) in
  match json_parse body with
  | ParseThrows => lift Abort
  | ParseError => mret (-1)
  | Parsed root =>
      match member root "cmdno" asInt with
      | None => mret (-1)
      | Some cmdno =>
          if cmdno =? CMDNO_PUSH then _process_push cmdno p root (i32 log) send_ret
          else ub_ MissingReturn
      end
  end.

(** The [while] of [_process_query_buffer], one unit of fuel per iteration. *)
Fixpoint _process_query_buffer (fuel : nat) (p : positive) (send_ret : Z) : M Worker Z :=
  match fuel with
  | O => lift OutOfFuel
  | S fuel =>
      c ← get_conn p;
      if u64 (bytes_expected c + bytes_processed c) <=? sdslen (querybuf c) then
        head ← lift (xhead_at (sds_buf (querybuf c)) 0);
        if STATE_HEAD =? currentState c then
          if negb (XHEAD_MAGIC_NUM =? magic_num head) then mret (-1)
          else
            _ ← put_conn p (set_framing STATE_BODY XHEAD_SIZE (body_len head) c);
            _process_query_buffer fuel p send_ret
        else
          header ← lift (load (sds_buf (querybuf c)) 0 XHEAD_SIZE);
          body ← lift (load (sds_buf (querybuf c)) XHEAD_SIZE (body_len head));
          ret ← _process_request p header body send_ret;
          if negb (ret =? 0) then mret (-1)
          else
            c ← get_conn p;
            _ ← put_conn p (set_framing (currentState c) 65535 (bytes_expected c) c);
            _process_query_buffer fuel p send_ret
      else mret 0
  end.

(** [r] is the result of [read(fd, querybuf + qb_len, read_len)]. *)
Definition _read_conn (fuel : nat) (f : Z) (r : sysread) (send_ret : Z) : M Worker unit :=
  o ← find_conn 0 f;
  match o with
  | None => mret tt
  | Some p =>
      c ← get_conn p;
      let read_len := i32 (bytes_expected c) in
      let qb_len := i32 (sdslen (querybuf c)) in
      q ← lift (sdsMakeRoomFor junk malloc_ok (querybuf c) (u64 read_len));
      let '(nread, bs) := sock_read_data EAGAIN r in
      b ← lift (store (sds_buf q) qb_len bs);
      w ← get;
      let q := Sds (sds_len q) (sds_free q) b in
      _ ← put_conn p (set_last_active (loop_now w) (set_querybuf q c));
      if nread =? -1 then _close_conn p
      else
        _ ← (if 0 <? nread then
               q ← lift (sdsIncrLen q nread);
               c ← get_conn p;
               put_conn p (set_querybuf q c)
             else mret tt);
        ret ← _process_query_buffer fuel p send_ret;
        if negb (ret =? 0) then _close_conn p else mret tt
  end.

(** ** Replies *)

(** The loop of [_write_conn]; [ws] are the results of the successive [write]s,
    and each of them is offered the whole front message. [false]: the
    connection was closed. *)
Fixpoint write_loop (ws : list syswrite) (p : positive) (f cur_pos : Z) : M Worker bool :=
  c ← get_conn p;
  match reply_msgs c with
  | [] => mret true
  | msg :: rest =>
      match ws with
      | [] => lift OutOfFuel
      | w :: ws =>
          _ ← emit (EWrite f (match w with Wrote n => take n msg | WriteErr _ => [] end));
          let ret := sock_write_data EAGAIN w in
          if ret <? 0 then _ ← _close_conn p; mret false
          else if ret =? 0 then write_loop ws p f cur_pos
          else if u64 (Z.of_nat (length msg)) <=? u64 (i32 (ret + cur_pos)) then
            _ ← put_conn p (set_reply_msgs rest c);
            write_loop ws p f 0
          else write_loop ws p f (i32 (cur_pos + ret))
      end
  end.

Definition _write_conn (f : Z) (ws : list syswrite) : M Worker unit :=
  o ← find_conn 1 f;
  match o with
  | None => mret tt
  | Some p =>
      open ← write_loop ws p f 0;
      if (open : bool) then
        w ← get;
        c ← get_conn p;
        let c := set_last_active (loop_now w) c in
        let c := match reply_msgs c with
                 | [] => set_watcher (stop_io_event (_io_watcher c) (fd c) WRITE) c
                 | _ => c
                 end in
        put_conn p c
      else mret tt
  end.

(** [conn_io_cb] with the translated events of the loop. *)
Definition conn_io_cb (fuel : nat) (f events : Z) (r : sysread) (ws : list syswrite)
    (send_ret : Z) : M Worker unit :=
  _ ← (if negb (Z.land events READ =? 0) then _read_conn fuel f r send_ret else mret tt);
  if negb (Z.land events WRITE =? 0) then _write_conn f ws else mret tt.

Definition _add_reply (p : positive) (res_msg : list byte) : M Worker unit :=
  c ← get_conn p;
  let c := set_reply_msgs (reply_msgs c ++ [res_msg]) c in
  put_conn p (set_watcher (start_io_event (_io_watcher c) (fd c) WRITE) c).

(** The fields of the JSON answer. *)
Definition response_fields (m : RtcMsg Cert) : list (string * jfield) :=
  ("err_no"%string, JInt (err_no m)) ::
  (if negb (err_no m =? 0)
   then [("err_msg"%string, JString "process sdp error"); ("offer"%string, JString "")]
   else [("err_msg"%string, JString "process sdp success"); ("offer"%string, JString (sdp m))]).

(** The answer: the request's header with [body_len] overwritten, then the
    body; the block has room for [MAX_RES_BUF] bytes of body. *)
Definition response_bytes (header body : list byte) : res (list byte) :=
  let blk := fresh_bytes junk 0 (Z.to_nat (XHEAD_SIZE + MAX_RES_BUF)) in
  blk ← store blk 0 header;
  blk ← store blk 32 (le_to_bytes 4 (u32 (Z.of_nat (length body))));
  blk ← store blk XHEAD_SIZE body;
  load blk 0 (u64 (XHEAD_SIZE + Z.of_nat (length body))).

Definition _response_server_offer (m : RtcMsg Cert) : M Worker unit :=
  match conn m with
  | None => mret tt
  | Some p =>
      w ← get;
      if decide (msg_fd m <= 0 \/ Z.of_nat (length (_conns w)) <= msg_fd m) then mret tt
      else if decide (mjoin (_conns w !! Z.to_nat (msg_fd m)) <> Some p) then mret tt
      else
        c ← get_conn p;
        header ← lift (load (sds_buf (querybuf c)) 0 XHEAD_SIZE);
        if negb (malloc_ok (XHEAD_SIZE + MAX_RES_BUF)) then lift Abort
        else
          let res_body := writeString (response_fields m) in
          res_msg ← lift (response_bytes header res_body);
          _add_reply p res_msg
  end.

(** ** Notifications *)

(** [write_ok]: the [write] on the notification pipe wrote the four bytes. *)
Definition notify (write_ok : bool) (msg : Z) : M Worker Z :=
  if write_ok then _ ← modify (fun w => set_pipe (notify_pipe w ++ [msg]) w); mret 0
  else mret (-1).

Definition notify_new_conn (write_ok : bool) (f : Z) : M Worker Z :=
  w ← get;
  q ← lift (q_produce f (_q_conn w));
  _ ← modify (set_q_conn q);
  notify write_ok NEW_CONN.

Definition push_rtc_msg (m : RtcMsg Cert) : M Worker unit :=
  modify (fun w => set_q_rtc_msg (_q_rtc_msg w ++ [m]) w).

Definition pop_rtc_msg : M Worker (option (RtcMsg Cert)) :=
  w ← get;
  match _q_rtc_msg w with
  | [] => mret None
  | m :: rest => _ ← modify (set_q_rtc_msg rest); mret (Some m)
  end.

Definition send_rtc_msg (write_ok : bool) (m : RtcMsg Cert) : M Worker Z :=
  _ ← push_rtc_msg m; notify write_ok RTC_MSG.

(** The function has no [return] after the switch; nobody uses its result. *)
Definition _process_rtc_msg : M Worker unit :=
  o ← pop_rtc_msg;
  match o with
  | None => mret tt
  | Some m => _ ← (if cmdno m =? CMDNO_PUSH then _response_server_offer m else mret tt); lift off_end
  end.

(** What the system calls of [_new_conn] return, and the address of the new
    connection. *)
Record new_conn_env := NewConnEnv {
  e_getfl : Z; e_setfl : Z; e_nodelay : Z;
  e_peer : option (string * Z);
  e_addr : positive;
}.

Definition _new_conn (e : new_conn_env) (f : Z) : M Worker unit :=
  if f <? 0 then mret tt
  else if (sock_set_non_block (e_getfl e) (e_setfl e) <? 0)
          || (sock_set_tcp_nodelay (e_nodelay e) <? 0)
  then emit (EClose f)
  else
    let p := e_addr e in
    _ ← new_TcpConnection p f;
    let '(ret, (addr, prt)) := sock_peer_to_string (e_peer e) in
    if ret <? 0 then emit (EClose f)
    else
      c ← get_conn p;
      w ← get;
      _ ← put_conn p (MkConn (fd c) addr prt
            (start_io_event (_io_watcher c) f READ)
            (start_timer (timer_watcher c) 100000)
            (querybuf c) (bytes_expected c) (bytes_processed c) (currentState c)
            (loop_now w) (reply_msgs c));
      _ ← (if Z.of_nat (length (_conns w)) <=? f
           then modify (fun w => set_conns
             (resize (Z.to_nat (i32 (f * 2))) None (_conns w)) w)
           else mret tt);
      store_slot f (Some p).

Definition _stop : M Worker unit :=
  w ← get;
  match _thread w with None => mret tt | Some _ => modify (set_loop true false) end.

Definition _process_notify (e : new_conn_env) (msg : Z) : M Worker unit :=
  if msg =? QUIT then _stop
  else if msg =? NEW_CONN then
    w ← get;
    '(o, q) ← lift (q_consume (_q_conn w));
    _ ← modify (set_q_conn q);
    match o with Some f => _new_conn e f | None => mret tt end
  else if msg =? RTC_MSG then _process_rtc_msg
  else mret tt.

(** [signaling_warker_recv_notify]: one [int] is read from the pipe. *)
Definition signaling_warker_recv_notify (e : new_conn_env) : M Worker unit :=
  w ← get;
  match notify_pipe w with
  | [] => mret tt
  | msg :: rest => _ ← modify (set_pipe rest); _process_notify e msg
  end.

Definition start : M Worker bool :=
  w ← get;
  match _thread w with
  | Some _ => mret false
  | None => _ ← modify (set_thread (Some true)); mret true
  end.

Definition stop (write_ok : bool) : M Worker unit := _ ← notify write_ok QUIT; mret tt.

Definition join : M Worker unit :=
  w ← get;
  match _thread w with Some true => modify (set_thread (Some false)) | _ => mret tt end.

(** The constructor. *)
Definition SignalingServerWorker (worker_id timeout : Z) : Worker :=
  MkWorker worker_id timeout None 0 false [] false q_new [] ∅ [] [].

(** [init]: the success path ends without a [return]: if it returns at all
    ([off_end]), then no value ([None]). *)
Definition init (pipe_ok : bool) : M Worker (option Z) :=
  if pipe_ok then _ ← modify (set_loop false true); _ ← lift off_end; mret None else mret (Some (-1)).

(** The loop over [_conns] of the destructor. *)
Fixpoint close_all (ps : list (option positive)) : M Worker unit :=
  match ps with
  | [] => mret tt
  | None :: ps => close_all ps
  | Some p :: ps => _ ← _close_conn p; close_all ps
  end.

(** The destructor; [std::thread::join] throws on a thread that was joined
    already, and a destructor does not let exceptions out. *)
Definition destroy_worker : M Worker unit :=
  w ← get;
  _ ← close_all (_conns w);
  _ ← modify (set_conns []);
  _ ← modify (set_loop true false);
  match _thread w with
  | None => mret tt
  | Some true => modify (set_thread None)
  | Some false => lift Abort
  end.

End worker.

(** ** A concrete parser, to instantiate the interface

    A body of four bytes or more is an object with the fields of a push
    request (the byte 255 first: nesting too deep); a shorter one is an error. *)

Definition json_sim_parse (body : list byte) : parse_result (list (string * jfield)) :=
  match body with
  | cmd :: uid :: audio :: video :: name =>
      if b2z cmd =? 255 then ParseThrows
      else Parsed [("cmdno", JInt (b2z cmd)); ("uid", JInt (b2z uid));
                   ("audio", JInt (b2z audio)); ("video", JInt (b2z video));
                   ("stream_name", JString (bytes_string name))]%string
  | _ => ParseError
  end.

Definition json_sim_write (fields : list (string * jfield)) : list byte :=
  fields ≫= fun '(k, v) => string_bytes k ++
    match v with JInt z => le_to_bytes 4 (u32 z) | JString s => string_bytes s end.

#[local] Instance json_sim : JsonCpp := {
  Value := jfield + list (string * jfield);
  json_parse body := match json_sim_parse body with
    | Parsed v => Parsed (inr v) | ParseError => ParseError | ParseThrows => ParseThrows end;
  json_index v k := match v with
    | inr fs => inl ∘ snd ∘ snd <$> list_find (fun kv => kv.1 = k) fs | inl _ => None end;
  asInt v := match v with inl (JInt z) => Some z | _ => None end;
  asUInt64 v := match v with inl (JInt z) => Some z | _ => None end;
  asString v := match v with inl (JString s) => Some s | _ => None end;
  writeString := json_sim_write;
}.
