(* ===== verification/WorkerFraming.v ===== *)
(** * How a signaling worker cuts the byte stream of a client into requests

    The facts about [_read_conn] and [_process_query_buffer]: what a connection
    knows depends only on the bytes received so far, however the network cut
    them into reads. *)

From S2P Require Import Prelude Sds Defs LockFreeQueue EventLoop Socket SignalingWorker.
#[local] Open Scope Z_scope.
#[local] Open Scope xrtc_scope.

Section framing.
Context `{Compiler} `{LibEv} `{JsonCpp} {Cert Q : Type} `{FifoQueue Z Q}.
Context (junk : nat -> byte) (malloc_ok : Z -> bool) (EAGAIN : Z).
Context (malloc_grants : forall n, 0 <= n < 2 ^ 32 -> malloc_ok n = true).

Notation Worker := (Worker (Cert := Cert) (Q := Q)).
Implicit Types (w : Worker) (c : TcpConnection) (p : positive).

(** ** Accesses that succeed *)

Lemma get_conn_eq w p c : conn_heap w !! p = Some c -> get_conn p w = Ret (c, w).
Proof. unfold get_conn. by intros ->. Qed.

Lemma put_conn_eq w p c0 c :
  conn_heap w !! p = Some c0 ->
  put_conn p c w = Ret (tt, set_heap (<[p := c]> (conn_heap w)) w).
Proof. intros Hc. unfold put_conn. step (get_conn_eq _ _ _ Hc). done. Qed.

Lemma find_conn_eq w lo f p :
  lo <= f -> 0 <= f -> _conns w !! Z.to_nat f = Some (Some p) ->
  find_conn lo f w = Ret (Some p, w).
Proof.
  intros Hlo Hf Hp. unfold find_conn. pose proof (lookup_lt_Some _ _ _ Hp).
  rewrite decide_True by lia. by rewrite Hp.
Qed.

(** ** The framing state *)

(** The announced length of the body, once the header is there. *)
Definition stream_body_len (xs : list byte) : Z := body_len (xhead_of_bytes xs).

Definition stream_magic_ok (xs : list byte) : bool :=
  magic_num (xhead_of_bytes xs) =? XHEAD_MAGIC_NUM.

(** [(currentState, bytes_processed, bytes_expected)] after the bytes [xs]. *)
Definition frame_of (xs : list byte) : Z * Z * Z :=
  if Z.of_nat (length xs) <? 36 then (STATE_HEAD, 0, XHEAD_SIZE)
  else if Z.of_nat (length xs) <? 36 + stream_body_len xs
  then (STATE_BODY, XHEAD_SIZE, stream_body_len xs)
  else (STATE_BODY, 65535, stream_body_len xs).

(** The whole packet is there. *)
Definition complete (xs : list byte) : bool :=
  (36 <=? Z.of_nat (length xs)) && (36 + stream_body_len xs <=? Z.of_nat (length xs)).

Definition framing (c : TcpConnection) : Z * Z * Z :=
  (currentState c, bytes_processed c, bytes_expected c).

Lemma stream_body_len_range xs : (36 <= length xs)%nat -> 0 <= stream_body_len xs < 2 ^ 32.
Proof.
  intros Hl. unfold stream_body_len. rewrite <- (take_drop 36 xs).
  rewrite xhead_of_bytes_prefix by (rewrite length_take; lia).
  apply xhead_of_bytes_ok. rewrite length_take. lia.
Qed.

Lemma stream_body_len_app xs ys :
  (36 <= length xs)%nat -> stream_body_len (xs ++ ys) = stream_body_len xs.
Proof. intros. unfold stream_body_len. by rewrite xhead_of_bytes_prefix. Qed.

Lemma stream_magic_ok_app xs ys :
  (36 <= length xs)%nat -> stream_magic_ok (xs ++ ys) = stream_magic_ok xs.
Proof. intros. unfold stream_magic_ok. by rewrite xhead_of_bytes_prefix. Qed.

(** The header and the body inside the query buffer. *)
Lemma buf_prefix q xs n :
  sds_ok q -> sds_val q = xs -> (n <= length xs)%nat -> take n (sds_buf q) = take n xs.
Proof.
  intros Hq <- Hn. unfold sds_val in *. rewrite take_take. f_equal.
  rewrite length_take in Hn. lia.
Qed.

Lemma buf_head q xs :
  sds_ok q -> sds_val q = xs -> (36 <= length xs)%nat ->
  xhead_at (sds_buf q) 0 = Ret (xhead_of_bytes xs).
Proof.
  intros Hq Hv Hl. pose proof (sds_val_length q Hq) as Hlen. pose proof Hq as [].
  rewrite Hv in Hlen. rewrite xhead_at_ok, drop_0 by lia.
  rewrite (buf_prefix q xs) by done. f_equal.
  rewrite <- (take_drop 36 xs) at 2. rewrite xhead_of_bytes_prefix; [done|].
  rewrite length_take. lia.
Qed.

Lemma buf_load q xs off n :
  sds_ok q -> sds_val q = xs -> 0 <= off -> 0 <= n -> off + n <= Z.of_nat (length xs) ->
  load (sds_buf q) off n = Ret (take (Z.to_nat n) (drop (Z.to_nat off) xs)).
Proof.
  intros Hq Hv Ho Hn Hl. pose proof (sds_val_length q Hq) as Hlen. pose proof Hq as [].
  rewrite Hv in Hlen. rewrite load_ok by lia. f_equal.
  rewrite <- Hv. unfold sds_val. rewrite take_drop_commute, take_drop_commute, take_take.
  do 2 f_equal. lia.
Qed.

(** ** One iteration of [_process_query_buffer] *)

Lemma pqb_wait fuel w p c send_ret :
  conn_heap w !! p = Some c -> sds_ok (querybuf c) ->
  sds_len (querybuf c) < wrapU 64 (bytes_expected c + bytes_processed c) ->
  _process_query_buffer (S fuel) p send_ret w = Ret (0, w).
Proof.
  intros Hc Hq Hlt. cbn [_process_query_buffer]. step (get_conn_eq _ _ _ Hc).
  rewrite sdslen_ok by done. by rewrite (proj2 (Z.leb_gt _ _)).
Qed.

Lemma pqb_head fuel w p c xs send_ret :
  conn_heap w !! p = Some c -> sds_ok (querybuf c) -> sds_val (querybuf c) = xs ->
  framing c = (STATE_HEAD, 0, XHEAD_SIZE) -> (36 <= length xs)%nat ->
  _process_query_buffer (S fuel) p send_ret w =
    if stream_magic_ok xs
    then _process_query_buffer fuel p send_ret
           (set_heap (<[p := set_framing STATE_BODY XHEAD_SIZE (stream_body_len xs) c]>
              (conn_heap w)) w)
    else Ret (-1, w).
Proof.
  intros Hc Hq Hv [= Hs Hp He] Hl. pose proof (sds_val_length _ Hq) as Hlen. rewrite Hv in Hlen.
  cbn [_process_query_buffer]. step (get_conn_eq _ _ _ Hc).
  rewrite sdslen_ok, Hs, Hp, He by done. rewrite u64_small by (unfold XHEAD_SIZE; lia).
  rewrite (proj2 (Z.leb_le _ _)) by (unfold XHEAD_SIZE; lia).
  rewrite (M_bind_lift _ _ _ _ (buf_head _ _ Hq Hv Hl)).
  change (STATE_HEAD =? STATE_HEAD) with true. cbv iota.
  unfold stream_magic_ok. rewrite (Z.eqb_sym XHEAD_MAGIC_NUM).
  destruct (_ =? XHEAD_MAGIC_NUM); cbn [negb]; [|done].
  by step (put_conn_eq _ _ _ _ Hc).
Qed.

Lemma pqb_body fuel w p c xs send_ret :
  conn_heap w !! p = Some c -> sds_ok (querybuf c) -> sds_val (querybuf c) = xs ->
  currentState c = STATE_BODY -> bytes_expected c = stream_body_len xs ->
  36 + stream_body_len xs <= Z.of_nat (length xs) -> (36 <= length xs)%nat ->
  wrapU 64 (bytes_expected c + bytes_processed c) <= Z.of_nat (length xs) ->
  _process_query_buffer (S fuel) p send_ret w =
    (ret ← _process_request p (take 36 xs)
             (take (Z.to_nat (stream_body_len xs)) (drop 36 xs)) send_ret;
     if negb (ret =? 0) then mret (-1)
     else c ← get_conn p;
          _ ← put_conn p (set_framing (currentState c) 65535 (bytes_expected c) c);
          _process_query_buffer fuel p send_ret) w.
Proof.
  intros Hc Hq Hv Hs He Hl Hl36 Hle. pose proof (sds_val_length _ Hq) as Hlen. rewrite Hv in Hlen.
  pose proof (stream_body_len_range xs Hl36).
  cbn [_process_query_buffer]. step (get_conn_eq _ _ _ Hc).
  rewrite sdslen_ok by done. rewrite (proj2 (Z.leb_le _ _)) by lia.
  rewrite (M_bind_lift _ _ _ _ (buf_head _ _ Hq Hv Hl36)). rewrite Hs.
  change (STATE_HEAD =? STATE_BODY) with false. cbv iota.
  unfold XHEAD_SIZE.
  rewrite (M_bind_lift _ _ _ _ (buf_load _ _ 0 36 Hq Hv ltac:(lia) ltac:(lia) ltac:(lia))).
  rewrite (M_bind_lift _ _ _ _ (buf_load _ _ 36 (body_len (xhead_of_bytes xs)) Hq Hv ltac:(lia)
    ltac:(unfold stream_body_len in *; lia) ltac:(unfold stream_body_len in *; lia))).
  done.
Qed.

(** ** What a request does *)

Inductive verdict :=
  | Accept (m : RtcMsg Cert)   (* handed to the RTC server *)
  | Reject                     (* malformed: the connection is closed *)
  | Throws                     (* an exception nobody catches *)
  | NoValue.                   (* no [return] statement is reached *)

(** The verdict on a packet that arrived on connection [p], descriptor [f], of
    worker [wid]. *)
Definition judge (wid : Z) (p : positive) (f : Z) (header body : list byte) : verdict :=
  match json_parse body with
  | ParseThrows => Throws
  | ParseError => Reject
  | Parsed root =>
      match member root "cmdno" asInt with
      | None => Reject
      | Some cmdno =>
          if cmdno =? CMDNO_PUSH then
            match member root "uid" asUInt64, member root "stream_name" asString,
                  member root "audio" asInt, member root "video" asInt with
            | Some uid, Some name, Some audio, Some video =>
                Accept (MkRtcMsg cmdno name audio video uid None
                  (wrapS 32 (xh_log_id (xhead_of_bytes header))) (Some wid) (Some p) f "" 0)
            | _, _, _, _ => Reject
            end
          else NoValue
      end
  end.

(** The verdict on the first packet of a stream. *)
Definition judge_stream (wid : Z) (p : positive) (f : Z) (xs : list byte) : verdict :=
  judge wid p f (take 36 xs) (take (Z.to_nat (stream_body_len xs)) (drop 36 xs)).

Lemma process_request_eq w p c header body send_ret :
  conn_heap w !! p = Some c ->
  _process_request p header body send_ret w =
    match judge (_worker_id w) p (fd c) header body with
    | Accept m => Ret (send_ret, add_effect (ERtc m) w)
    | Reject => Ret (-1, w)
    | Throws => Abort
    | NoValue => Ub MissingReturn
    end.
Proof.
  intros Hc. unfold _process_request, judge. destruct (json_parse body) as [root| |]; [|done..].
  destruct (member root "cmdno" asInt) as [cmd|]; [|done].
  destruct (cmd =? CMDNO_PUSH); [|done]. unfold _process_push.
  destruct (member root "uid" asUInt64); [|done].
  destruct (member root "stream_name" asString); [|done].
  destruct (member root "audio" asInt); [|done].
  destruct (member root "video" asInt); [|done].
  rewrite M_bind_get. step (get_conn_eq _ _ _ Hc). done.
Qed.

(** ** One read *)

(** Connection [p], descriptor [f], after the bytes [xs]. *)
Record conn_at (w : Worker) (f : Z) (p : positive) (c : TcpConnection) (xs : list byte) : Prop := {
  at_fd : 0 <= f /\ fd c = f;
  at_slot : _conns w !! Z.to_nat f = Some (Some p);
  at_heap : conn_heap w !! p = Some c;
  at_sds : sds_ok (querybuf c);
  at_val : sds_val (querybuf c) = xs;
  at_frame : framing c = frame_of xs;
}.

Lemma read_conn_eq fuel w f p c xs bs send_ret :
  conn_at w f p c xs -> bs <> [] ->
  Z.of_nat (length bs) <= bytes_expected c < 2 ^ 31 ->
  Z.of_nat (length xs) + bytes_expected c < 2 ^ 30 ->
  exists q, sds_ok q /\ sds_val q = xs ++ bs /\
    _read_conn junk malloc_ok EAGAIN fuel f (ReadBytes bs) send_ret w =
      (ret ← _process_query_buffer fuel p send_ret;
       if negb (ret =? 0) then _close_conn p else mret tt)
      (set_heap (<[p := set_querybuf q (set_last_active (loop_now w) c)]> (conn_heap w)) w).
Proof.
  intros [[Hf Hfd] Hslot Hc Hq Hv _] Hbs He Hxs.
  pose proof (sds_val_length _ Hq) as Hlen. rewrite Hv in Hlen.
  destruct (sdsMakeRoomFor_ok junk malloc_ok malloc_grants (querybuf c) (bytes_expected c))
    as (q1 & Hmk & Hq1 & Hl1 & Hv1 & Hr1); [done|lia|lia|].
  destruct (sdsIncrLen_ok q1 bs) as (b & q2 & Hst & Hin & Hq2 & Hv2 & _); [done|lia|].
  pose proof Hq1 as [].
  exists q2. split; [done|]. split; [by rewrite Hv2, Hv1, Hv|].
  unfold _read_conn. step (find_conn_eq w 0 f p Hf Hf Hslot). step (get_conn_eq _ _ _ Hc).
  rewrite (i32_small (bytes_expected c)), (u64_small (bytes_expected c)) by lia.
  rewrite (M_bind_lift _ _ _ _ Hmk). unfold sock_read_data.
  destruct bs as [|b0 bs]; [done|]. rewrite (i32_small (Z.of_nat _)) by lia.
  rewrite sdslen_ok, i32_small, <- Hl1 by (done || lia).
  rewrite (M_bind_lift _ _ _ _ Hst), M_bind_get. step (put_conn_eq _ _ _ _ Hc).
  rewrite (proj2 (Z.eqb_neq _ _)), (proj2 (Z.ltb_lt 0 _)) by (simpl; lia).
  unfold mbind at 1, M_bind at 1. rewrite (M_bind_lift _ _ _ _ Hin).
  erewrite M_bind_eq; [|apply get_conn_eq; simpl; by rewrite lookup_insert_eq].
  erewrite put_conn_eq; [|simpl; by rewrite lookup_insert_eq].
  cbn [conn_heap set_heap]. rewrite insert_insert_eq. done.
Qed.

Lemma set_heap_id w p c :
  conn_heap w !! p = Some c -> set_heap (<[p := c]> (conn_heap w)) w = w.
Proof. intros Hc. destruct w; simpl in *. unfold set_heap; simpl. by rewrite insert_id. Qed.

(** ** The loop, from each phase *)

Section accepted.
Context (w : Worker) (p : positive) (c : TcpConnection) (ys : list byte) (m : RtcMsg Cert).
Context (Hc : conn_heap w !! p = Some c) (Hq : sds_ok (querybuf c)).
Context (Hv : sds_val (querybuf c) = ys) (Hsmall : Z.of_nat (length ys) < 2 ^ 30).
Context (Hjudge : complete ys = true -> judge_stream (_worker_id w) p (fd c) ys = Accept m).

Lemma len_ys : sds_len (querybuf c) = Z.of_nat (length ys).
Proof. by rewrite <- Hv, (sds_val_length _ Hq). Qed.

(** The body is complete: one request, and the loop stops as long as the bytes
    after it stay below the bound [65535] stands for. *)
Lemma pqb_request fuel :
  (36 <= length ys)%nat -> framing c = (STATE_BODY, XHEAD_SIZE, stream_body_len ys) ->
  36 + stream_body_len ys <= Z.of_nat (length ys) < 65535 + stream_body_len ys ->
  _process_query_buffer (S (S fuel)) p 0 w =
    Ret (0, add_effect (ERtc m)
              (set_heap (<[p := set_framing STATE_BODY 65535 (stream_body_len ys) c]>
                 (conn_heap w)) w)).
Proof.
  intros Hl [= Hs Hpr He] Hlen. pose proof (stream_body_len_range ys Hl) as Hb.
  rewrite (pqb_body _ w p c ys) by (try done; try lia; rewrite ?He, ?Hpr;
    unfold XHEAD_SIZE; rewrite u64_small; lia).
  assert (Hcy : complete ys = true).
  { unfold complete. by rewrite !(proj2 (Z.leb_le _ _)) by lia. }
  specialize (Hjudge Hcy). unfold judge_stream in Hjudge.
  erewrite M_bind_eq; [|rewrite (process_request_eq _ _ _ _ _ _ Hc), Hjudge; done].
  change (negb (0 =? 0)) with false. cbv iota.
  step (get_conn_eq (add_effect (ERtc m) w) _ _ Hc). step (put_conn_eq (add_effect (ERtc m) w) _ _ _ Hc).
  erewrite pqb_wait; [by rewrite Hs, He|simpl; by rewrite lookup_insert_eq|done|].
  simpl. rewrite He, u64_small, len_ys; lia.
Qed.

Lemma pqb_body_phase fuel :
  (36 <= length ys)%nat -> framing c = (STATE_BODY, XHEAD_SIZE, stream_body_len ys) ->
  Z.of_nat (length ys) < 65535 + stream_body_len ys ->
  exists c', framing c' = frame_of ys /\ querybuf c' = querybuf c /\ (fd c' = fd c /\ reply_msgs c' = reply_msgs c) /\
    _process_query_buffer (S (S fuel)) p 0 w =
      Ret (0, (if complete ys then add_effect (ERtc m) else fun w => w)
                (set_heap (<[p := c']> (conn_heap w)) w)).
Proof.
  intros Hl Hf Hlen. pose proof (stream_body_len_range ys Hl) as Hb. unfold frame_of, complete.
  rewrite (proj2 (Z.ltb_ge (Z.of_nat (length ys)) 36)), (proj2 (Z.leb_le 36 _)) by lia.
  cbn [andb]. destruct (Z.leb_spec (36 + stream_body_len ys) (Z.of_nat (length ys))).
  - exists (set_framing STATE_BODY 65535 (stream_body_len ys) c).
    rewrite (proj2 (Z.ltb_ge _ _)) by lia. split_and!; try done. apply pqb_request; done || lia.
  - exists c. rewrite (proj2 (Z.ltb_lt _ _)) by lia. rewrite set_heap_id by done.
    split_and!; try done. apply pqb_wait with c; try done.
    rewrite len_ys. injection Hf as Hs Hpr He. rewrite Hpr, He. unfold XHEAD_SIZE.
    rewrite u64_small; lia.
Qed.
End accepted.

(** From any earlier phase to the phase of [ys]: one request is made exactly
    when the packet becomes complete. *)
Lemma pqb_progress fuel w p c xs ys m :
  conn_heap w !! p = Some c -> sds_ok (querybuf c) -> sds_val (querybuf c) = ys ->
  Z.of_nat (length ys) < 2 ^ 30 -> xs `prefix_of` ys -> framing c = frame_of xs ->
  (complete ys = true -> judge_stream (_worker_id w) p (fd c) ys = Accept m) ->
  ((36 <= length ys)%nat -> stream_magic_ok ys = true /\
     Z.of_nat (length ys) < 65535 + stream_body_len ys) ->
  exists c', framing c' = frame_of ys /\ querybuf c' = querybuf c /\ (fd c' = fd c /\ reply_msgs c' = reply_msgs c) /\
    _process_query_buffer (S (S (S fuel))) p 0 w =
      Ret (0, (if complete ys && negb (complete xs) then add_effect (ERtc m) else fun w => w)
                (set_heap (<[p := c']> (conn_heap w)) w)).
Proof.
  intros Hc Hq Hv Hsm [zs ->] Hf Hj Hy. pose proof (sds_val_length _ Hq) as Hlen.
  rewrite Hv in Hlen. rewrite length_app in *.
  assert (Hwait : sds_len (querybuf c) < wrapU 64 (bytes_expected c + bytes_processed c) ->
    framing c = frame_of (xs ++ zs) -> complete (xs ++ zs) && negb (complete xs) = false ->
    exists c', framing c' = frame_of (xs ++ zs) /\ querybuf c' = querybuf c /\ (fd c' = fd c /\ reply_msgs c' = reply_msgs c) /\
    _process_query_buffer (S (S (S fuel))) p 0 w =
      Ret (0, (if complete (xs ++ zs) && negb (complete xs) then add_effect (ERtc m) else fun w => w)
                (set_heap (<[p := c']> (conn_heap w)) w))).
  { intros Hlt Hfr ->. exists c. rewrite set_heap_id by done. split_and!; try done.
    by apply pqb_wait with c. }
  destruct (decide (length xs < 36)%nat) as [Hx|Hx].
  - assert (Hfx : frame_of xs = (STATE_HEAD, 0, XHEAD_SIZE)).
    { unfold frame_of. by rewrite (proj2 (Z.ltb_lt _ 36)) by lia. }
    assert (Hcx : complete xs = false).
    { unfold complete. by rewrite (proj2 (Z.leb_gt 36 _)) by lia. }
    destruct (decide (length xs + length zs < 36)%nat) as [Hys|Hys].
    + apply Hwait.
      * rewrite Hfx in Hf. injection Hf as _ Hp He. rewrite Hp, He. unfold XHEAD_SIZE.
        rewrite u64_small; lia.
      * rewrite Hf, Hfx. unfold frame_of. rewrite length_app.
        by rewrite (proj2 (Z.ltb_lt _ 36)) by lia.
      * unfold complete. rewrite length_app. by rewrite (proj2 (Z.leb_gt 36 _)) by lia.
    + destruct Hy as [Hmagic Hlt]; [lia|]. rewrite Hcx, andb_true_r.
      rewrite (pqb_head _ w p c (xs ++ zs)), Hmagic by (rewrite ?length_app; done || lia || congruence).
      set (c1 := set_framing _ _ _ c). set (w1 := set_heap _ w).
      destruct (pqb_body_phase w1 p c1 (xs ++ zs) m) with (fuel := fuel)
        as (c' & Hf' & Hq' & [Hfd' Hrep'] & ->); try done; rewrite ?length_app; try lia.
      { simpl. by rewrite lookup_insert_eq. }
      exists c'. split_and!; try done. unfold w1. do 2 f_equal.
      destruct (complete _); unfold set_heap; simpl; by rewrite insert_insert_eq.
  - assert (Hcx : complete xs = (36 + stream_body_len xs <=? Z.of_nat (length xs))).
    { unfold complete. by rewrite (proj2 (Z.leb_le 36 _)) by lia. }
    destruct Hy as [Hmagic Hlt]; [lia|]. pose proof (stream_body_len_range xs ltac:(lia)) as Hb.
    rewrite (stream_body_len_app xs zs) in Hlt by lia.
    unfold frame_of in Hf. rewrite (proj2 (Z.ltb_ge _ 36)) in Hf by lia.
    destruct (Z.ltb_spec (Z.of_nat (length xs)) (36 + stream_body_len xs)) as [Hnx|Hnx].
    + rewrite Hcx, (proj2 (Z.leb_gt _ _)), andb_true_r by lia.
      destruct (pqb_body_phase w p c (xs ++ zs) m) with (fuel := S fuel)
        as (c' & Hf' & Hq' & [Hfd' Hrep'] & He); try done; rewrite ?length_app; try lia;
        rewrite ?(stream_body_len_app xs zs) by lia; try done.
      exists c'. by rewrite He.
    + apply Hwait.
      * injection Hf as _ Hp He. rewrite Hp, He, u64_small; lia.
      * rewrite Hf. unfold frame_of. rewrite length_app, (stream_body_len_app xs zs) by lia.
        by rewrite !(proj2 (Z.ltb_ge _ _)) by lia.
      * by rewrite Hcx, (proj2 (Z.leb_le (36 + _) _)), andb_false_r by lia.
Qed.

(** ** A sequence of reads *)

(** The loop delivers the reads [reads] of descriptor [f], one callback each. *)
Fixpoint feed (fuel : nat) (f : Z) (reads : list (list byte)) : M Worker unit :=
  match reads with
  | [] => mret tt
  | bs :: reads =>
      _ ← _read_conn junk malloc_ok EAGAIN fuel f (ReadBytes bs) 0;
      feed fuel f reads
  end.

(** What the kernel promises: a [read] returns at least one byte here and at
    most as many as were asked for, [bytes_expected] of the connection. *)
Fixpoint reads_fit (xs : list byte) (reads : list (list byte)) : Prop :=
  match reads with
  | [] => True
  | bs :: reads =>
      bs <> [] /\ Z.of_nat (length bs) <= (frame_of xs).2 /\ reads_fit (xs ++ bs) reads
  end.

(** A stream the worker can digest: the magic number is right, the announced
    body is below 256 MiB, and less than [65499] bytes follow the packet. *)
Definition digestible (zs : list byte) : Prop :=
  (36 <= length zs)%nat ->
  stream_magic_ok zs = true /\ stream_body_len zs < 2 ^ 28 /\
  Z.of_nat (length zs) < 65535 + stream_body_len zs.

Lemma digestible_prefix xs zs : xs `prefix_of` zs -> digestible zs -> digestible xs.
Proof.
  intros [ys ->] Hd Hl. rewrite <- (stream_magic_ok_app xs ys), <- (stream_body_len_app xs ys) by done.
  red in Hd. rewrite length_app in Hd. destruct Hd as (? & ? & ?); [lia|]. split_and!; lia || done.
Qed.

Lemma complete_prefix xs zs : xs `prefix_of` zs -> complete xs = true -> complete zs = true.
Proof.
  intros [ys ->]. unfold complete. rewrite !andb_true_iff, !Z.leb_le, length_app. intros [? ?].
  rewrite stream_body_len_app by lia. lia.
Qed.

Lemma judge_stream_prefix wid p f xs zs :
  xs `prefix_of` zs -> complete xs = true ->
  judge_stream wid p f xs = judge_stream wid p f zs.
Proof.
  intros [ys ->]. unfold complete. rewrite !andb_true_iff, !Z.leb_le. intros [? ?].
  pose proof (stream_body_len_range xs ltac:(lia)).
  unfold judge_stream. rewrite stream_body_len_app, take_app_le, drop_app_le by lia.
  by rewrite take_app_le by (rewrite length_drop; lia).
Qed.

Lemma frame_of_expected xs :
  digestible xs -> 0 < Z.of_nat (length xs) + (frame_of xs).2 < 2 ^ 30 /\
    (frame_of xs).2 < 2 ^ 29.
Proof.
  intros Hd. unfold frame_of.
  destruct (Z.ltb_spec (Z.of_nat (length xs)) 36); [simpl; unfold XHEAD_SIZE; lia|].
  pose proof (stream_body_len_range xs ltac:(lia)). destruct Hd as (_ & ? & ?); [lia|].
  destruct (_ <? _); simpl; lia.
Qed.

Lemma read_step fuel w f p c xs bs m :
  conn_at w f p c xs -> bs <> [] -> Z.of_nat (length bs) <= (frame_of xs).2 ->
  digestible (xs ++ bs) ->
  (complete (xs ++ bs) = true -> judge_stream (_worker_id w) p f (xs ++ bs) = Accept m) ->
  exists w' c',
    _read_conn junk malloc_ok EAGAIN (S (S (S fuel))) f (ReadBytes bs) 0 w = Ret (tt, w') /\
    conn_at w' f p c' (xs ++ bs) /\ _worker_id w' = _worker_id w /\
    (reply_msgs c' = reply_msgs c /\ notify_pipe w' = notify_pipe w /\ _q_rtc_msg w' = _q_rtc_msg w) /\
    effects w' = effects w ++
      (if complete (xs ++ bs) && negb (complete xs) then [ERtc m] else []).
Proof.
  intros Hat Hbs Hfit Hd Hj. pose proof Hat as [[Hf Hfd] Hslot Hc Hq Hv Hfr].
  pose proof (frame_of_expected xs (digestible_prefix xs _ (prefix_app_r _ _ _ (reflexivity _)) Hd)).
  assert (He : bytes_expected c = (frame_of xs).2) by (rewrite <- Hfr; done).
  destruct (read_conn_eq (S (S (S fuel))) w f p c xs bs 0 Hat Hbs) as (q & Hq' & Hv' & ->); [lia..|].
  set (c1 := set_querybuf q _). set (w1 := set_heap _ w).
  destruct (pqb_progress fuel w1 p c1 xs (xs ++ bs) m) as (c' & Hf' & Hqc & [Hfd' Hrep] & Hpqb);
    try done.
  - simpl. by rewrite lookup_insert_eq.
  - rewrite length_app. lia.
  - by apply prefix_app_r.
  - simpl. by rewrite Hfd.
  - intros Hl. destruct (Hd Hl) as (? & ? & ?). done.
  - step Hpqb. change (negb (0 =? 0)) with false. cbv iota. eexists _, c'. split; [done|].
    set (b := _ && _). assert (Hslot' : forall w', _conns w' = _conns w ->
      conn_heap w' !! p = Some c' -> conn_at w' f p c' (xs ++ bs)).
    { intros w' Hcs Hh. constructor; try done; rewrite ?Hcs, ?Hqc, ?Hfd'; done. }
    split; [apply Hslot'; destruct b; simpl; try done; by rewrite insert_insert_eq, lookup_insert_eq|].
    split; [by destruct b|]. split; [split; [by rewrite Hrep|by destruct b]|].
    destruct b; simpl; by rewrite ?app_nil_r.
Qed.

Lemma feed_spec fuel reads w f p c xs m :
  conn_at w f p c xs -> reads_fit xs reads -> digestible (xs ++ concat reads) ->
  (complete (xs ++ concat reads) = true ->
   judge_stream (_worker_id w) p f (xs ++ concat reads) = Accept m) ->
  exists w' c',
    feed (S (S (S fuel))) f reads w = Ret (tt, w') /\
    conn_at w' f p c' (xs ++ concat reads) /\
    effects w' = effects w ++
      (if complete (xs ++ concat reads) && negb (complete xs) then [ERtc m] else []).
Proof.
  revert w c xs. induction reads as [|bs reads IH]; intros w c xs Hat Hfit Hd Hj; cbn [feed concat].
  - rewrite app_nil_r. exists w, c. rewrite andb_negb_r, app_nil_r. done.
  - destruct Hfit as (Hbs & Hle & Hfit). cbn [concat] in Hd, Hj. rewrite app_assoc in *.
    assert (Hpre : xs ++ bs `prefix_of` (xs ++ bs) ++ concat reads) by by apply prefix_app_r.
    destruct (read_step fuel w f p c xs bs m) as (w1 & c1 & Hrd & Hat1 & Hid & _ & Heff); try done.
    { by eapply digestible_prefix. }
    { intros Hcx. rewrite (judge_stream_prefix _ _ _ _ _ Hpre Hcx).
      apply Hj. by eapply complete_prefix. }
    step Hrd.
    destruct (IH w1 c1 (xs ++ bs)) as (w2 & c2 & Hfeed & Hat2 & Heff2); try done.
    { by rewrite Hid. }
    exists w2, c2. split_and!; [done..|]. rewrite Heff2, Heff, <- app_assoc. f_equal.
    assert (complete xs = true -> complete (xs ++ bs) = true)
      by (apply complete_prefix, prefix_app_r; done).
    pose proof (complete_prefix _ _ Hpre).
    destruct (complete xs), (complete (xs ++ bs)), (complete (_ ++ concat reads)); simpl;
      naive_solver.
Qed.

(** C5: whatever way the network cuts the bytes of a well-formed request into
    reads, the worker ends in the state of the whole stream, and has handed
    exactly one message to the RTC server when the packet is complete, and none
    before: the message is the one its header and body determine.  The stream is
    [digestible]: its magic number is right, it announces a body of less than
    2^28 bytes, and fewer than 65499 bytes follow the packet; the request, when
    it is complete, is one that [_process_request] accepts; and a read returns
    at least one byte and at most what was asked for.  For such a stream no read
    makes the loop of [_process_query_buffer] run more than three times (for
    others it may not end: [framing_loop]; a rejected packet is the subject of
    [framing_reject]). *)
Theorem framing_segmentation fuel reads w f p c m :
  conn_at w f p c [] -> reads_fit [] reads -> digestible (concat reads) ->
  (complete (concat reads) = true -> judge_stream (_worker_id w) p f (concat reads) = Accept m) ->
  exists w' c',
    feed (3 + fuel) f reads w = Ret (tt, w') /\
    conn_at w' f p c' (concat reads) /\
    effects w' = effects w ++ (if complete (concat reads) then [ERtc m] else []).
Proof.
  intros Hat Hfit Hd Hj.
  destruct (feed_spec fuel reads w f p c [] m) as (w' & c' & ? & ? & He); try done.
  exists w', c'. rewrite app_nil_l in *. by rewrite andb_true_r in He.
Qed.

(** ** A malformed packet *)

Lemma close_conn_eq w p c :
  conn_heap w !! p = Some c -> 0 <= fd c < Z.of_nat (length (_conns w)) ->
  _close_conn p w =
    Ret (tt, set_heap (delete p (conn_heap w))
               (set_conns (<[Z.to_nat (fd c) := None]> (_conns w))
                  (add_effect (EClose (fd c)) (add_effect (EClose (fd c)) w)))).
Proof.
  intros Hc Hfd. unfold _close_conn. step (get_conn_eq _ _ _ Hc). unfold emit.
  rewrite M_bind_modify. unfold _remove_conn. step (get_conn_eq (add_effect _ w) _ _ Hc).
  unfold store_slot. run. simpl. rewrite decide_True by done. simpl.
  unfold delete_TcpConnection. erewrite M_bind_eq; [|by apply get_conn_eq]. done.
Qed.

(** The worker rejects the stream [ys] received over [xs]: the header is
    complete with a wrong magic number, or the body is and is malformed. *)
Definition rejects (wid : Z) (p : positive) (f : Z) (xs ys : list byte) : Prop :=
  ((length xs < 36 <= length ys)%nat /\ stream_magic_ok ys = false) \/
  (stream_magic_ok ys = true /\ (36 <= length ys)%nat /\ complete xs = false /\
   complete ys = true /\ judge_stream wid p f ys = Reject).

Lemma pqb_reject fuel w p c xs ys :
  conn_heap w !! p = Some c -> sds_ok (querybuf c) -> sds_val (querybuf c) = ys ->
  xs `prefix_of` ys -> framing c = frame_of xs -> rejects (_worker_id w) p (fd c) xs ys ->
  exists w' c', _process_query_buffer (S (S fuel)) p 0 w = Ret (-1, w') /\
    effects w' = effects w /\ _conns w' = _conns w /\
    conn_heap w' = <[p := c']> (conn_heap w) /\ fd c' = fd c.
Proof.
  intros Hc Hq Hv Hpre Hf [[[Hx Hy] Hm]|(Hm & Hy & Hcx & Hcy & Hj)].
  - assert (Hfx : frame_of xs = (STATE_HEAD, 0, XHEAD_SIZE)).
    { unfold frame_of. by rewrite (proj2 (Z.ltb_lt _ 36)) by lia. }
    rewrite (pqb_head _ w p c ys), Hm by (done || congruence).
    exists w, c. by rewrite insert_id.
  - assert (Hcy' := Hcy). unfold complete in Hcy'. rewrite andb_true_iff, !Z.leb_le in Hcy'.
    pose proof (stream_body_len_range ys Hy).
    assert (Hbody : forall n w1 c1, conn_heap w1 !! p = Some c1 -> querybuf c1 = querybuf c ->
      fd c1 = fd c -> _worker_id w1 = _worker_id w ->
      framing c1 = (STATE_BODY, XHEAD_SIZE, stream_body_len ys) ->
      _process_query_buffer (S n) p 0 w1 = Ret (-1, w1)).
    { intros n w1 c1 Hc1 Hq1 Hfd1 Hid1 [= Hs1 Hp1 He1].
      rewrite (pqb_body _ w1 p c1 ys) by (rewrite ?Hq1, ?He1, ?Hp1; try done; try lia;
        unfold XHEAD_SIZE; rewrite u64_small; lia).
      unfold judge_stream in Hj.
      erewrite M_bind_eq; [|rewrite (process_request_eq _ _ _ _ _ _ Hc1), Hfd1, Hid1, Hj; done].
      done. }
    destruct (decide (length xs < 36)%nat) as [Hx|Hx].
    + assert (Hfx : frame_of xs = (STATE_HEAD, 0, XHEAD_SIZE)).
      { unfold frame_of. by rewrite (proj2 (Z.ltb_lt _ 36)) by lia. }
      rewrite (pqb_head _ w p c ys), Hm by (done || congruence).
      set (c1 := set_framing _ _ _ c). exists (set_heap (<[p := c1]> (conn_heap w)) w), c1.
      rewrite (Hbody _ _ c1) by (simpl; by rewrite ?lookup_insert_eq). done.
    + destruct Hpre as [zs ->]. rewrite stream_body_len_app in * by lia.
      assert (Hfx : framing c = (STATE_BODY, XHEAD_SIZE, stream_body_len xs)).
      { rewrite Hf. unfold complete in Hcx. apply andb_false_iff in Hcx.
        rewrite !Z.leb_gt in Hcx. unfold frame_of.
        by rewrite (proj2 (Z.ltb_ge _ 36)), (proj2 (Z.ltb_lt _ (36 + _))) by lia. }
      exists w, c. rewrite (Hbody _ _ c) by done. by rewrite insert_id.
Qed.


(** ** The loop that never ends *)

(** C30: the value [65535] that marks a finished packet is no bound: once
    [65535 + body_len] bytes have arrived on the connection (the client went on
    sending), each iteration of [_process_query_buffer] hands the same request
    to the RTC server again and the loop never ends. *)
Theorem framing_loop w p c ys m :
  conn_heap w !! p = Some c -> sds_ok (querybuf c) -> sds_val (querybuf c) = ys ->
  (36 <= length ys)%nat -> framing c = (STATE_BODY, 65535, stream_body_len ys) ->
  65535 + stream_body_len ys <= Z.of_nat (length ys) ->
  judge_stream (_worker_id w) p (fd c) ys = Accept m ->
  (forall fuel, _process_query_buffer (S fuel) p 0 w =
     _process_query_buffer fuel p 0 (add_effect (ERtc m) w)) /\
  (forall fuel, _process_query_buffer fuel p 0 w = OutOfFuel).
Proof.
  intros Hc Hq Hv Hl Hfr Hlen Hj. assert (Hfr' := Hfr). injection Hfr' as Hs Hp He.
  pose proof (stream_body_len_range ys Hl).
  assert (Hiter : forall w', conn_heap w' = conn_heap w -> _worker_id w' = _worker_id w ->
    forall fuel, _process_query_buffer (S fuel) p 0 w' =
      _process_query_buffer fuel p 0 (add_effect (ERtc m) w')).
  { intros w' Hh Hid fuel. rewrite <- Hh in Hc.
    rewrite (pqb_body _ w' p c ys) by (try done; try lia; rewrite ?He, ?Hp, ?u64_small; lia).
    unfold judge_stream in Hj. rewrite <- Hid in Hj.
    erewrite M_bind_eq; [|rewrite (process_request_eq _ _ _ _ _ _ Hc), Hj; done].
    change (negb (0 =? 0)) with false. cbv iota.
    step (get_conn_eq (add_effect (ERtc m) w') _ _ Hc).
    step (put_conn_eq (add_effect (ERtc m) w') _ _ _ Hc). rewrite set_heap_id; [done|].
    simpl. rewrite Hc. f_equal. destruct c. simpl in *. by subst. }
  split; [by apply Hiter|]. intros fuel. revert w Hc Hj Hiter.
  induction fuel as [|fuel IH]; intros w Hc Hj Hiter; [done|].
  rewrite Hiter by done. by apply IH.
Qed.

End framing.

#[local] Existing Instance lenient.


(** ** The theorems at work: a worker with one client on descriptor 7 *)

#[local] Existing Instance libev_sim.
#[local] Existing Instance json_sim.
#[local] Instance fd_fifo : FifoQueue Z lfq := lfq_fifo 0.

Definition zero_junk : nat -> byte := fun _ => x00.
Definition always_ok : Z -> bool := fun _ => true.

Lemma always_grants n : 0 <= n < 2 ^ 32 -> always_ok n = true.
Proof. done. Qed.

(** [init]; [start]; a connection is handed over and accepted. *)
Definition sim_setup : M (Worker (Cert := unit) (Q := lfq)) unit :=
  _ ← init true;
  _ ← start;
  _ ← notify_new_conn true 7;
  signaling_warker_recv_notify zero_junk always_ok (NewConnEnv 0 0 0 (Some ("10.0.0.1"%string, 4242)) 1%positive).

Definition sim_worker : Worker (Cert := unit) (Q := lfq) :=
  match sim_setup (SignalingServerWorker 3 60000000) with
  | Ret (_, w) => w
  | _ => SignalingServerWorker 3 60000000
  end.

Definition sim_conn : TcpConnection :=
  match conn_heap sim_worker !! 1%positive with
  | Some c => c
  | None => MkConn 0 "" 0 (create_io_event tt) (create_timer 1%positive true) (Sds 0 0 []) 0 0 0 0 []
  end.

(** A packet: a header and a push request of six bytes. *)
Definition sim_packet (magic : Z) : list byte :=
  xhead_to_bytes (Xhead 1 1 77 (repeat x70 16) magic 0 6) ++ [x01; x09; x01; x01; x61; x62].

Definition sim_reads : list (list byte) :=
  [take 20 (sim_packet XHEAD_MAGIC_NUM); drop 20 (sim_packet XHEAD_MAGIC_NUM)].

Definition sim_push : RtcMsg unit := MkRtcMsg CMDNO_PUSH "ab" 1 1 9 None 77 (Some 3) (Some 1%positive) 7 "" 0.

Lemma sim_conn_at : conn_at sim_worker 7 1 sim_conn [].
Proof. constructor; vm_compute; try constructor; done. Qed.

Lemma framing_segmentation_witness :
  complete (concat sim_reads) = true /\
  exists w' c',
    feed zero_junk always_ok 11 3 7 sim_reads sim_worker = Ret (tt, w') /\
    conn_at w' 7 1 c' (concat sim_reads) /\
    effects w' = effects sim_worker ++ (if complete (concat sim_reads) then [ERtc sim_push] else []).
Proof.
  split; [by vm_compute|].
  apply (framing_segmentation zero_junk always_ok 11 always_grants 0 sim_reads sim_worker 7 1
           sim_conn sim_push).
  - apply sim_conn_at.
  - by vm_compute.
  - intros _. by vm_compute.
  - intros _. by vm_compute.
Defined.


(** The packet of [sim_reads] and 65499 bytes after it. *)
Definition sim_flood : list byte := sim_packet XHEAD_MAGIC_NUM ++ repeat x00 (Z.to_nat 65499).

Definition sim_flooded : TcpConnection :=
  set_framing STATE_BODY 65535 6
    (set_querybuf (Sds (Z.of_nat (length sim_flood)) 0 (sim_flood ++ [x00])) sim_conn).

Lemma sim_flooded_ok :
  sds_ok (querybuf sim_flooded) /\ sds_val (querybuf sim_flooded) = sim_flood.
Proof.
  assert (Hl : Z.of_nat (length sim_flood) = 65541).
  { unfold sim_flood. rewrite length_app, repeat_length. by vm_compute. }
  split.
  - constructor; cbn [querybuf sim_flooded set_framing set_querybuf sds_len sds_free sds_buf];
      rewrite ?length_app, ?Nat2Z.inj_add, ?Hl; try done.
  - unfold sds_val. cbn [querybuf sim_flooded set_framing set_querybuf sds_len sds_buf].
    rewrite Nat2Z.id. apply take_app_length.
Qed.

Lemma framing_loop_witness :
  let w := set_heap {[1%positive := sim_flooded]} sim_worker in
  (forall fuel, _process_query_buffer (S fuel) 1 0 w =
     _process_query_buffer fuel 1 0 (add_effect (ERtc sim_push) w)) /\
  (forall fuel, _process_query_buffer fuel 1 0 w = OutOfFuel).
Proof.
  intros w. apply (framing_loop w 1 sim_flooded sim_flood sim_push).
  - done.
  - apply sim_flooded_ok.
  - apply sim_flooded_ok.
  - apply Nat.leb_le. by vm_compute.
  - by vm_compute.
  - apply Z.leb_le. by vm_compute.
  - by vm_compute.
Defined.
