(* ===== verification/WorkerInv.v ===== *)
(** * The invariant of a signaling worker

    Every pointer in the table of connections is to a live connection that
    knows its own slot, whose buffer is well formed, whose framing state is the
    one of the bytes received and which waits for WRITE exactly when replies
    are queued.  Every event of the loop preserves it, whatever the system
    calls return, so no callback touches a deleted connection. *)

From S2P Require Import Prelude Sds Defs LockFreeQueue EventLoop Socket SignalingWorker WorkerFraming.
#[local] Open Scope Z_scope.
#[local] Open Scope xrtc_scope.

Section inv.
Context `{Compiler} `{LibEvLaws} `{JsonCpp} {Cert Q : Type} `{FifoQueue Z Q}.
Context (junk : nat -> byte) (malloc_ok : Z -> bool) (EAGAIN : Z).
Context (malloc_grants : forall n, 0 <= n < 2 ^ 32 -> malloc_ok n = true).

Notation Worker := (Worker (Cert := Cert) (Q := Q)).
Implicit Types (w : Worker) (c : TcpConnection) (p : positive) (t : list (option positive)).
Implicit Types (h : gmap positive TcpConnection).

(** ** The invariant *)

(** What a connection waits for. *)
Definition awaits (c : TcpConnection) : Z :=
  match reply_msgs c with [] => READ | _ => Z.lor READ WRITE end.

Record conn_ok (c : TcpConnection) : Prop := {
  ck_sds : sds_ok (querybuf c);
  ck_frame : framing c = frame_of (sds_val (querybuf c));
  ck_digestible : digestible (sds_val (querybuf c));
  ck_interest : interest (_io_watcher c) = awaits c;
}.

Definition table_ok (t : list (option positive)) (h : gmap positive TcpConnection) : Prop :=
  forall i p, t !! i = Some (Some p) ->
    exists c, h !! p = Some c /\ fd c = Z.of_nat i /\ conn_ok c.

(** Descriptors waiting to become connections: 0 would be stored outside the
    table when it is empty, and doubling one of [2^30] or more overflows. *)
Definition fds_ok (q : Q) : Prop := q_ok q /\ Forall (fun f => 0 < f < 2 ^ 30) (q_view q).

Record worker_ok (w : Worker) : Prop := {
  wk_table : table_ok (_conns w) (conn_heap w);
  wk_queue : fds_ok (_q_conn w);
}.

(** [p] is the connection of its own slot. *)
Definition registered (w : Worker) (p : positive) (c : TcpConnection) : Prop :=
  conn_heap w !! p = Some c /\ 0 <= fd c /\ _conns w !! Z.to_nat (fd c) = Some (Some p).

(** ** The table under updates *)

Lemma table_update t h p c c' :
  table_ok t h -> h !! p = Some c -> fd c' = fd c -> conn_ok c' -> table_ok t (<[p := c']> h).
Proof.
  intros Ht Hc Hfd Hok i p' Hi. destruct (Ht i p' Hi) as (c1 & Hc1 & Hf1 & Hok1).
  destruct (decide (p = p')) as [<-|].
  - exists c'. rewrite lookup_insert_eq. simplify_eq. rewrite Hfd. done.
  - exists c1. by rewrite lookup_insert_ne.
Qed.

Lemma table_remove t h p c :
  table_ok t h -> h !! p = Some c -> table_ok (<[Z.to_nat (fd c) := None]> t) (delete p h).
Proof.
  intros Ht Hc i p' Hi. apply list_lookup_insert_Some in Hi as [(? & ? & ?)|[Hne Hi]]; [done|].
  destruct (Ht i p' Hi) as (c1 & Hc1 & Hf1 & Hok1). exists c1.
  destruct (decide (p = p')) as [<-|]; [|by rewrite lookup_delete_ne].
  simplify_eq. rewrite Hf1, Nat2Z.id in Hne. done.
Qed.

Lemma table_fresh t h p c : table_ok t h -> h !! p = None -> table_ok t (<[p := c]> h).
Proof.
  intros Ht Hp i p' Hi. destruct (Ht i p' Hi) as (c1 & Hc1 & ?). exists c1.
  rewrite lookup_insert_ne by congruence. done.
Qed.

Lemma table_insert t h p c i :
  table_ok t h -> h !! p = Some c -> fd c = Z.of_nat i -> conn_ok c ->
  table_ok (<[i := Some p]> t) h.
Proof.
  intros Ht Hp Hfd Hok j p' Hj.
  apply list_lookup_insert_Some in Hj as [(-> & [= ->] & ?)|[? Hj]]; [by exists c|by apply Ht].
Qed.

Lemma table_resize t h n : table_ok t h -> table_ok (resize n None t) h.
Proof.
  intros Ht i p Hi. apply Ht.
  destruct (decide (i < n)%nat) as [Hlt|]; [|by rewrite lookup_resize_old in Hi by lia].
  destruct (decide (i < length t)%nat) as [Hl|]; [by rewrite lookup_resize in Hi|].
  by rewrite lookup_resize_new in Hi by lia.
Qed.

Lemma worker_registered w i p :
  worker_ok w -> _conns w !! i = Some (Some p) ->
  exists c, registered w p c /\ fd c = Z.of_nat i /\ conn_ok c.
Proof.
  intros [Ht _] Hi. destruct (Ht i p Hi) as (c & Hc & Hf & Hok). exists c.
  split; [|done]. unfold registered. rewrite Hf, Nat2Z.id. split_and!; done || lia.
Qed.

Lemma find_conn_cases w lo f :
  0 <= lo ->
  find_conn lo f w = Ret (None, w) \/
  exists p, lo <= f /\ _conns w !! Z.to_nat f = Some (Some p).
Proof.
  intros Hlo. unfold find_conn. case_decide as Hf; [|by left].
  destruct (lookup_lt_is_Some_2 (_conns w) (Z.to_nat f)) as [[p|] Hslot]; [lia| |];
    rewrite Hslot; [right; exists p; split; [lia|done]|by left].
Qed.

(** The parts the invariant reads. *)
Lemma worker_ok_same w w' :
  worker_ok w -> _conns w' = _conns w -> conn_heap w' = conn_heap w -> _q_conn w' = _q_conn w ->
  worker_ok w'.
Proof. intros [] Hc Hh Hq. constructor; by rewrite ?Hc, ?Hh, ?Hq. Qed.

Lemma worker_ok_put w p c c' :
  worker_ok w -> conn_heap w !! p = Some c -> fd c' = fd c -> conn_ok c' ->
  worker_ok (set_heap (<[p := c']> (conn_heap w)) w).
Proof. intros [] ???. constructor; [by eapply table_update|done]. Qed.

(** ** Outcomes *)

(** A run ends in a state where [P], or not at all, or in one of the two ways
    the code leaves defined behaviour without touching memory it should not. *)
Definition safe {A} (P : A -> Worker -> Prop) (r : res (A * Worker)) : Prop :=
  match r with
  | Ret (a, w) => P a w
  | Abort | OutOfFuel => True
  | Ub u => u = MissingReturn
  end.

Lemma safe_bind {A B} (P : A -> Worker -> Prop) (R : B -> Worker -> Prop) (m : M Worker A) f w :
  safe P (m w) -> (forall a w', P a w' -> safe R (f a w')) -> safe R ((m ≫= f) w).
Proof. intros Hm Hf. unfold mbind, M_bind. destruct (m w) as [[a w']| |u|]; by auto. Qed.

Lemma safe_mono {A} (P R : A -> Worker -> Prop) r :
  safe P r -> (forall a w, P a w -> R a w) -> safe R r.
Proof. intros Hr HPR. destruct r as [[a w]| |u|]; simpl in *; auto. Qed.

(** ** Closing *)

Lemma close_conn_safe w p c :
  worker_ok w -> registered w p c -> safe (fun _ w' => worker_ok w') (_close_conn p w).
Proof.
  intros [Ht Hq] (Hc & Hfd & Hs). pose proof (lookup_lt_Some _ _ _ Hs).
  rewrite (close_conn_eq w p c) by (done || lia).
  constructor; [by apply table_remove|done].
Qed.

(** ** Reading *)

(** The connection [p] after the loop of [_process_query_buffer]. *)
Definition pqb_post (w : Worker) (p : positive) (c : TcpConnection) (ret : Z) (w' : Worker) : Prop :=
  exists c', conn_heap w' = <[p := c']> (conn_heap w) /\ _conns w' = _conns w /\
    _q_conn w' = _q_conn w /\ querybuf c' = querybuf c /\ fd c' = fd c /\
    _io_watcher c' = _io_watcher c /\ reply_msgs c' = reply_msgs c /\
    (ret = 0 -> framing c' = frame_of (sds_val (querybuf c)) /\
                digestible (sds_val (querybuf c))).

(** The states of the loop over the received bytes [ys]. *)
Inductive phase (ys : list byte) : Z * Z * Z -> Prop :=
  | phase_head : phase ys (STATE_HEAD, 0, XHEAD_SIZE)
  | phase_body : (36 <= length ys)%nat -> stream_magic_ok ys = true ->
      phase ys (STATE_BODY, XHEAD_SIZE, stream_body_len ys)
  | phase_done : (36 <= length ys)%nat -> stream_magic_ok ys = true ->
      36 + stream_body_len ys <= Z.of_nat (length ys) ->
      phase ys (STATE_BODY, 65535, stream_body_len ys).

Lemma phase_cases ys c :
  phase ys (framing c) ->
  (currentState c = STATE_HEAD /\ bytes_processed c = 0 /\ bytes_expected c = 36) \/
  ((36 <= length ys)%nat /\ stream_magic_ok ys = true /\
   currentState c = STATE_BODY /\ bytes_processed c = 36 /\
   bytes_expected c = stream_body_len ys) \/
  ((36 <= length ys)%nat /\ stream_magic_ok ys = true /\
   36 + stream_body_len ys <= Z.of_nat (length ys) /\
   currentState c = STATE_BODY /\ bytes_processed c = 65535 /\
   bytes_expected c = stream_body_len ys).
Proof.
  intros Hph. remember (framing c) as fr eqn:E. unfold framing in E.
  destruct Hph; injection E as <- <- <-; auto 10.
Qed.

Lemma phase_frame_of xs : digestible xs -> phase xs (frame_of xs).
Proof.
  intros Hd. unfold frame_of. destruct (Z.ltb_spec (Z.of_nat (length xs)) 36); [constructor|].
  destruct Hd as (? & ? & ?); [lia|].
  destruct (Z.ltb_spec (Z.of_nat (length xs)) (36 + stream_body_len xs)); constructor; done || lia.
Qed.

Lemma phase_extend xs zs fr : phase xs fr -> phase (xs ++ zs) fr.
Proof.
  intros []; [constructor| |];
    rewrite <- (stream_body_len_app xs zs) by done; constructor;
    rewrite ?length_app, ?stream_magic_ok_app, ?stream_body_len_app by done; done || lia.
Qed.

(** The loop stops in the phase the received bytes determine. *)
Lemma phase_wait ys st pr ex :
  phase ys (st, pr, ex) -> Z.of_nat (length ys) < wrapU 64 (ex + pr) ->
  ((36 <= length ys)%nat -> stream_body_len ys < 2 ^ 28) ->
  (st, pr, ex) = frame_of ys /\ digestible ys.
Proof.
  intros Hp Hlt Hb. unfold frame_of, digestible. unfold XHEAD_SIZE in *.
  inversion Hp as [Hs|Hl Hm Hs|Hl Hm Hc Hs]; clear Hp; simplify_eq; unfold XHEAD_SIZE in *.
  - rewrite u64_small in Hlt by lia.
    rewrite (proj2 (Z.ltb_lt _ 36)) by lia. split; [done|lia].
  - pose proof (stream_body_len_range ys Hl). rewrite u64_small in Hlt by lia.
    rewrite (proj2 (Z.ltb_ge _ 36)), (proj2 (Z.ltb_lt _ (36 + _))) by lia.
    specialize (Hb Hl). split; [done|]. intros _. split_and!; done || lia.
  - pose proof (stream_body_len_range ys Hl). rewrite u64_small in Hlt by lia.
    rewrite !(proj2 (Z.ltb_ge _ _)) by lia.
    specialize (Hb Hl). split; [done|]. intros _. split_and!; done || lia.
Qed.

Lemma pqb_safe fuel send_ret w p c ys :
  conn_heap w !! p = Some c -> sds_ok (querybuf c) -> sds_val (querybuf c) = ys ->
  phase ys (framing c) -> ((36 <= length ys)%nat -> stream_body_len ys < 2 ^ 28) ->
  safe (pqb_post w p c) (_process_query_buffer fuel p send_ret w).
Proof.
  revert w c. induction fuel as [|fuel IH]; intros w c Hc Hq Hv Hph Hb; [done|].
  pose proof (sds_val_length _ Hq) as Hlen. rewrite Hv in Hlen.
  assert (Hpost : forall ret, (ret = 0 -> framing c = frame_of ys /\ digestible ys) ->
    pqb_post w p c ret w) by (intros ret Hret; exists c; rewrite insert_id, Hv by done; split_and!; done).
  destruct (Z.ltb_spec (sds_len (querybuf c)) (wrapU 64 (bytes_expected c + bytes_processed c)))
    as [Hlt|Hge].
  { rewrite (pqb_wait _ w p c) by done. apply Hpost. intros _.
    apply phase_wait; [done|lia|done]. }
  assert (Hstep : forall c' w', conn_heap w' = <[p := c']> (conn_heap w) -> _conns w' = _conns w ->
    _q_conn w' = _q_conn w -> querybuf c' = querybuf c -> fd c' = fd c ->
    _io_watcher c' = _io_watcher c -> reply_msgs c' = reply_msgs c ->
    phase ys (framing c') ->
    safe (pqb_post w p c) (_process_query_buffer fuel p send_ret w')).
  { intros c' w' Hh ? ? Hq' ? ? ? Hph'.
    eapply safe_mono; [apply (IH w' c')|]; rewrite ?Hq'; try done.
    - rewrite Hh. by rewrite lookup_insert_eq.
    - intros ret w2 (c2 & Hh2 & ? & ? & ? & ? & ? & ? & Hr). exists c2.
      rewrite Hh2, Hh, insert_insert_eq. split_and!; try congruence. by rewrite Hq' in Hr. }
  destruct (phase_cases ys c Hph) as [(Hs & Hp & He)|[(Hl & Hm & Hs & Hp & He)|
    (Hl & Hm & Hcomp & Hs & Hp & He)]]; rewrite Hp, He in Hge.
  - rewrite u64_small in Hge by lia.
    rewrite (pqb_head _ w p c ys) by (try done; try lia; unfold framing; by rewrite Hs, Hp, He).
    destruct (stream_magic_ok ys) eqn:Hm; [|apply Hpost; lia].
    eapply Hstep; try done. apply phase_body; [lia|done].
  - pose proof (stream_body_len_range ys Hl). rewrite u64_small in Hge by lia.
    rewrite (pqb_body _ w p c ys) by (try done; rewrite ?Hp, ?He, ?u64_small; lia).
    unfold mbind at 1, M_bind at 1. rewrite (process_request_eq _ _ _ _ _ _ Hc).
    destruct (judge _ _ _ _ _) as [m| | |]; try done; [|apply Hpost; lia].
    destruct (negb (send_ret =? 0)) eqn:?; [exists c; rewrite insert_id by done; split_and!; done|].
    step (get_conn_eq (add_effect (ERtc m) w) _ _ Hc).
    step (put_conn_eq (add_effect (ERtc m) w) _ _ _ Hc).
    eapply Hstep; try done. unfold framing; simpl. rewrite Hs, He. apply phase_done; done || lia.
  - pose proof (stream_body_len_range ys Hl). rewrite u64_small in Hge by lia.
    rewrite (pqb_body _ w p c ys) by (try done; rewrite ?Hp, ?He, ?u64_small; lia).
    unfold mbind at 1, M_bind at 1. rewrite (process_request_eq _ _ _ _ _ _ Hc).
    destruct (judge _ _ _ _ _) as [m| | |]; try done; [|apply Hpost; lia].
    destruct (negb (send_ret =? 0)) eqn:?; [exists c; rewrite insert_id by done; split_and!; done|].
    step (get_conn_eq (add_effect (ERtc m) w) _ _ Hc).
    step (put_conn_eq (add_effect (ERtc m) w) _ _ _ Hc).
    eapply Hstep; try done. unfold framing; simpl. rewrite Hs, He. by apply phase_done.
Qed.

(** What the kernel and the client do: a [read] returns at most as many bytes
    as it was asked for, and no header announces a body of 256 MiB. *)
Definition read_fits (c : TcpConnection) (r : sysread) : Prop :=
  match r with
  | ReadErr _ => True
  | ReadBytes bs =>
      let ys := sds_val (querybuf c) ++ bs in
      Z.of_nat (length bs) <= bytes_expected c /\
      ((36 <= length ys)%nat -> stream_body_len ys < 2 ^ 28)
  end.

Lemma registered_conn_at w p c :
  registered w p c -> conn_ok c -> conn_at w (fd c) p c (sds_val (querybuf c)).
Proof. intros (? & ? & ?) []. constructor; done. Qed.

(** Nothing was read: an error, the end of the stream, or no data yet. *)
Lemma read_conn_nothing fuel w p c r n send_ret :
  registered w p c -> conn_ok c -> sock_read_data EAGAIN r = (n, []) -> n <= 0 ->
  exists q, sds_ok q /\ sds_val q = sds_val (querybuf c) /\
    _read_conn junk malloc_ok EAGAIN fuel (fd c) r send_ret w =
      (if n =? -1 then _close_conn p
       else ret ← _process_query_buffer fuel p send_ret;
            if negb (ret =? 0) then _close_conn p else mret tt)
      (set_heap (<[p := set_querybuf q (set_last_active (loop_now w) c)]> (conn_heap w)) w).
Proof.
  intros (Hc & Hfd & Hslot) [Hq Hfr Hd _] Hr Hn.
  pose proof (sds_val_length _ Hq) as Hlen.
  pose proof (frame_of_expected _ Hd) as Hexp. rewrite <- Hfr in Hexp. unfold framing in Hexp.
  simpl in Hexp. assert (0 <= bytes_expected c).
  { pose proof (phase_frame_of _ Hd) as Hph. rewrite <- Hfr in Hph. pose proof stream_body_len_range.
    destruct (phase_cases _ _ Hph) as [(? & ? & ->)|[(? & ? & ? & ? & ->)|(? & ? & ? & ? & ? & ->)]];
      [lia|by apply stream_body_len_range..]. }
  destruct (sdsMakeRoomFor_ok junk malloc_ok malloc_grants (querybuf c) (bytes_expected c))
    as (q1 & Hmk & Hq1 & Hl1 & Hv1 & Hr1); [done|lia|lia|]. pose proof Hq1 as [].
  exists q1. split; [done|]. split; [done|].
  unfold _read_conn. step (find_conn_eq w 0 _ p Hfd Hfd Hslot). step (get_conn_eq _ _ _ Hc).
  rewrite (i32_small (bytes_expected c)), (u64_small (bytes_expected c)) by lia.
  rewrite (M_bind_lift _ _ _ _ Hmk), Hr.
  rewrite sdslen_ok, i32_small by (done || lia).
  rewrite (M_bind_lift (splice (sds_buf q1) (Z.to_nat (sds_len (querybuf c))) [])) by
    (apply store_ok; simpl; lia).
  rewrite M_bind_get. step (put_conn_eq _ _ _ _ Hc).
  rewrite (proj2 (Z.ltb_ge 0 n)) by lia.
  replace (splice _ _ []) with (sds_buf q1); [by destruct q1; case_match|].
  unfold splice. simpl. by rewrite Nat.add_0_r, take_drop.
Qed.

Lemma read_continue_safe fuel send_ret w p c q xs :
  worker_ok w -> registered w p c -> conn_ok c -> sds_ok q -> sds_val q = xs ->
  phase xs (framing c) -> ((36 <= length xs)%nat -> stream_body_len xs < 2 ^ 28) ->
  safe (fun _ w' => worker_ok w')
    ((ret ← _process_query_buffer fuel p send_ret;
      if negb (ret =? 0) then _close_conn p else mret tt)
     (set_heap (<[p := set_querybuf q (set_last_active (loop_now w) c)]> (conn_heap w)) w)).
Proof.
  intros Hw (Hc & Hfd & Hslot) [Hq Hfr Hd Hint] Hq' Hv Hph Hb.
  pose proof Hw as [Ht Hqc]. set (c1 := set_querybuf q _). set (w1 := set_heap _ w).
  eapply safe_bind; [apply (pqb_safe fuel send_ret w1 p c1 xs); try done|].
  { simpl. by rewrite lookup_insert_eq. }
  intros ret w2 (c2 & Hh2 & Hcs2 & Hq2 & Hqb & Hf2 & Hwt & Hrep & Hret). simpl in *.
  rewrite insert_insert_eq in Hh2.
  destruct (Z.eqb_spec ret 0) as [Heq|Hne]; simpl.
  - destruct (Hret Heq) as [Hfr2 Hd2].
    constructor; [|by rewrite Hq2]. rewrite Hcs2, Hh2. eapply table_update; [done..|].
    constructor; rewrite ?Hqb; try done. unfold awaits. by rewrite Hwt, Hrep.
  - pose proof (lookup_lt_Some _ _ _ Hslot).
    rewrite (close_conn_eq w2 p c2) by (rewrite ?Hcs2, ?Hf2, ?Hh2, ?lookup_insert_eq; done || lia).
    constructor; simpl; [|by rewrite Hq2].
    rewrite Hcs2, Hh2, delete_insert_eq, Hf2. by apply table_remove.
Qed.

Lemma read_conn_safe fuel send_ret w f r :
  worker_ok w ->
  (forall p c, registered w p c -> fd c = f -> read_fits c r) ->
  safe (fun _ w' => worker_ok w') (_read_conn junk malloc_ok EAGAIN fuel f r send_ret w).
Proof.
  intros Hw Hfit. destruct (find_conn_cases w 0 f) as [Hnone|(p & Hf & Hslot)]; [lia| |].
  { unfold _read_conn. by step Hnone. }
  destruct (worker_registered w _ _ Hw Hslot) as (c & Hreg & Hfd & Hok).
  rewrite Z2Nat.id in Hfd by lia. subst f. specialize (Hfit p c Hreg eq_refl).
  pose proof Hok as [Hq Hfr Hd Hint]. assert (Hph := phase_frame_of _ Hd). rewrite <- Hfr in Hph.
  assert (Hnothing : forall n, sock_read_data EAGAIN r = (n, []) -> n <= 0 ->
    safe (fun _ w' => worker_ok w') (_read_conn junk malloc_ok EAGAIN fuel (fd c) r send_ret w)).
  { intros n Hr Hn.
    destruct (read_conn_nothing fuel w p c r n send_ret) as (q & Hq' & Hv' & ->); try done.
    destruct (n =? -1).
    - apply close_conn_safe with (set_querybuf q (set_last_active (loop_now w) c)).
      + destruct Hreg as (Hc & ? & ?). eapply worker_ok_put; [done..|].
        constructor; simpl; by rewrite ?Hv'.
      + destruct Hreg as (? & ? & ?). split; [apply lookup_insert_eq|done].
    - eapply (read_continue_safe _ _ _ _ _ _ (sds_val (querybuf c))); try done. intros Hl.
      by destruct (Hd Hl) as (? & ? & ?). }
  destruct r as [e|[|b bs]].
  - destruct (EAGAIN =? e) eqn:He; [apply (Hnothing 0)|apply (Hnothing (-1))];
      unfold sock_read_data; by rewrite ?He.
  - by apply (Hnothing (-1)).
  - destruct Hfit as [Hle Hb]. pose proof (frame_of_expected _ Hd) as Hexp.
    rewrite <- Hfr in Hexp. unfold framing in Hexp. simpl in Hexp.
    pose proof (sds_val_length _ Hq).
    destruct (read_conn_eq junk malloc_ok EAGAIN malloc_grants fuel w (fd c) p c _ (b :: bs) send_ret
      (registered_conn_at _ _ _ Hreg Hok)) as (q & Hq' & Hv' & ->); [done|lia..|].
    eapply (read_continue_safe _ _ _ _ _ _ (sds_val (querybuf c) ++ b :: bs)); try done.
    by apply phase_extend.
Qed.

(** ** Writing *)

Lemma write_loop_safe ws w0 p c rs cur w :
  worker_ok w0 -> registered w0 p c -> _conns w = _conns w0 -> _q_conn w = _q_conn w0 ->
  conn_heap w = <[p := set_reply_msgs rs c]> (conn_heap w0) ->
  safe (fun open w' => if (open : bool)
          then _conns w' = _conns w0 /\ _q_conn w' = _q_conn w0 /\
               conn_heap w' = <[p := set_reply_msgs [] c]> (conn_heap w0)
          else worker_ok w')
    (write_loop EAGAIN ws p (fd c) cur w).
Proof.
  intros Hw Hreg. pose proof Hw as [Ht Hqc]. destruct Hreg as (Hc & Hfd & Hslot).
  revert rs cur w. induction ws as [|r ws IH]; intros rs cur w Hcs Hq Hh; cbn [write_loop];
    (assert (Hp : conn_heap w !! p = Some (set_reply_msgs rs c))
       by (rewrite Hh; apply lookup_insert_eq)); step (get_conn_eq _ _ _ Hp); simpl;
    destruct rs as [|msg rest]; try done.
  unfold emit. rewrite M_bind_modify. match goal with |- context[add_effect ?e w] => set (w1 := add_effect e w) end.
  assert (Hp1 : conn_heap w1 !! p = Some (set_reply_msgs (msg :: rest) c)) by done.
  destruct (sock_write_data EAGAIN r <? 0).
  - pose proof (lookup_lt_Some _ _ _ Hslot).
    erewrite M_bind_eq; [|apply (close_conn_eq w1 p _ Hp1); simpl; rewrite Hcs; lia].
    constructor; simpl; [|by rewrite Hq]. rewrite Hcs, Hh, delete_insert_eq. by apply table_remove.
  - destruct (sock_write_data EAGAIN r =? 0); [by apply (IH (msg :: rest))|].
    case_match; [|by apply (IH (msg :: rest))].
    step (put_conn_eq _ _ _ (set_reply_msgs rest (set_reply_msgs (msg :: rest) c)) Hp1).
    apply (IH rest); try done. simpl. by rewrite Hh, insert_insert_eq.
Qed.

Lemma awaits_write c : is_mask WRITE /\ Z.land (awaits c) (Z.lnot WRITE) = READ /\
  Z.lor (awaits c) WRITE = Z.lor READ WRITE /\ awaits c <> 0.
Proof. unfold awaits. by destruct (reply_msgs c). Qed.

Lemma write_conn_safe w f ws :
  worker_ok w -> safe (fun _ w' => worker_ok w') (_write_conn EAGAIN f ws w).
Proof.
  intros Hw. unfold _write_conn.
  destruct (find_conn_cases w 1 f) as [Hnone|(p & Hf & Hslot)]; [lia|by step Hnone|].
  step (find_conn_eq w 1 f p Hf ltac:(lia) Hslot).
  destruct (worker_registered w _ _ Hw Hslot) as (c & Hreg & Hfd & Hok).
  rewrite Z2Nat.id in Hfd by lia. subst f. pose proof Hreg as (Hc & _ & _).
  eapply safe_bind.
  { apply (write_loop_safe ws w p c (reply_msgs c)); try done. rewrite insert_id; [done|].
    rewrite Hc. f_equal. by destruct c. }
  intros [|] w1; [|done]. intros (Hcs & Hq & Hh).
  assert (Hp : conn_heap w1 !! p = Some (set_reply_msgs [] c)) by (rewrite Hh; apply lookup_insert_eq).
  rewrite M_bind_get. step (get_conn_eq _ _ _ Hp). cbn [reply_msgs set_last_active set_reply_msgs].
  erewrite put_conn_eq; [|done]. simpl. destruct Hw as [Ht Hqc]. constructor; simpl; [|by rewrite Hq].
  rewrite Hcs, Hh, insert_insert_eq. eapply table_update; [done..|]. destruct Hok as [? ? ? Hint].
  destruct (awaits_write c) as (Hmask & Hland & _ & Hne).
  constructor; simpl; try done. rewrite stop_io_event_interest, Hint; try done.
  apply interest_active. by rewrite Hint.
Qed.

(** ** Replies *)

Lemma add_reply_safe w p c msg :
  worker_ok w -> registered w p c -> conn_ok c ->
  safe (fun _ w' => worker_ok w') (_add_reply p msg w).
Proof.
  intros Hw Hreg [? ? ? Hint]. pose proof Hreg as (Hc & _ & _). unfold _add_reply.
  step (get_conn_eq _ _ _ Hc). erewrite put_conn_eq; [|done]. simpl.
  destruct (awaits_write c) as (Hmask & _ & Hlor & Hne).
  eapply worker_ok_put; [done..|]. constructor; simpl; try done.
  rewrite start_io_event_interest, Hint, Hlor by done. unfold awaits. simpl.
  by destruct (reply_msgs c).
Qed.

(** The header of an answer: the request's, with the length of the answer. *)
Definition reply_header (header body : list byte) : list byte :=
  take 32 header ++ le_to_bytes 4 (Z.of_nat (length body)).

Lemma response_bytes_ok header body :
  length header = 36%nat -> Z.of_nat (length body) <= MAX_RES_BUF ->
  response_bytes junk header body = Ret (reply_header header body ++ body).
Proof.
  unfold MAX_RES_BUF. intros Hh Hb. unfold response_bytes, XHEAD_SIZE, MAX_RES_BUF.
  set (blk := fresh_bytes _ _ _).
  assert (Hblk : length blk = 4132%nat) by (unfold blk; by rewrite length_fresh_bytes by lia).
  pose proof (length_le_to_bytes 4 (u32 (Z.of_nat (length body)))) as H4.
  rewrite store_ok by lia. cbn [mbind res_bind]. unfold mbind at 1, res_bind at 1.
  rewrite store_ok by (rewrite ?length_splice, ?H4 by lia; lia). unfold mbind at 1, res_bind at 1.
  rewrite store_ok by (rewrite ?length_splice, ?H4 by (rewrite ?length_splice; lia); lia).
  unfold mbind, res_bind. rewrite u64_small by lia.
  rewrite load_ok by (rewrite ?length_splice by (rewrite ?length_splice, ?H4; rewrite ?length_splice; lia); lia).
  f_equal. rewrite drop_0. change (Z.to_nat 0) with 0%nat.
  replace (Z.to_nat (36 + Z.of_nat (length body))) with (Z.to_nat 36 + length body)%nat by lia.
  rewrite take_splice_end by (rewrite ?length_splice, ?H4; rewrite ?length_splice; lia).
  rewrite u32_small in * by lia. f_equal. unfold reply_header.
  replace (Z.to_nat 36) with (Z.to_nat 32 + length (le_to_bytes 4 (Z.of_nat (length body))))%nat
    by (rewrite H4; lia).
  rewrite take_splice_end by (rewrite ?length_splice; lia). f_equal.
  unfold splice. rewrite take_0, app_nil_l, take_app_le by lia. done.
Qed.

(** What the RTC server answers: the JSON text fits the buffer, and the request
    it answers came on this connection. *)
Definition reply_fits (w : Worker) (m : RtcMsg Cert) : Prop :=
  Z.of_nat (length (writeString (response_fields m))) <= MAX_RES_BUF /\
  forall p c, conn m = Some p -> registered w p c -> fd c = msg_fd m ->
    (36 <= length (sds_val (querybuf c)))%nat.

Lemma response_server_offer_safe w m :
  worker_ok w -> reply_fits w m ->
  safe (fun _ w' => worker_ok w') (_response_server_offer junk malloc_ok m w).
Proof.
  intros Hw [Hfit Hhead]. unfold _response_server_offer.
  destruct (conn m) as [p|] eqn:Hm; [|done]. rewrite M_bind_get.
  case_decide as Hrange; [done|]. case_decide as Heq; [done|].
  destruct (lookup_lt_is_Some_2 (_conns w) (Z.to_nat (msg_fd m))) as [s Hslot]; [lia|].
  rewrite Hslot in Heq. assert (s = Some p) as -> by (destruct (decide (s = Some p)); [done|]; by destruct Heq).
  destruct (worker_registered w _ _ Hw Hslot) as (c & Hreg & Hfd & Hok).
  rewrite Z2Nat.id in Hfd by lia. pose proof Hreg as (Hc & _ & _).
  specialize (Hhead p c eq_refl Hreg Hfd). pose proof Hok as [Hq _ _ _].
  step (get_conn_eq _ _ _ Hc).
  rewrite (M_bind_lift _ _ _ _ (buf_load _ _ 0 36 Hq eq_refl ltac:(lia) ltac:(lia) ltac:(lia))).
  rewrite malloc_grants by (unfold XHEAD_SIZE, MAX_RES_BUF; lia). simpl.
  erewrite M_bind_lift; [by eapply add_reply_safe|]. apply response_bytes_ok; [|done].
  rewrite drop_0, length_take. lia.
Qed.

(** ** New connections *)

Lemma fresh_conn_ok (f : Z) ip port q io tm now :
  sds_ok q -> sds_val q = [] -> interest io = READ ->
  conn_ok (MkConn f ip port io tm q XHEAD_SIZE 0 STATE_HEAD now []).
Proof.
  intros Hq Hv Hi. constructor; try done; simpl; rewrite Hv; [done|]. unfold digestible. simpl. lia.
Qed.

Lemma new_conn_safe w e f :
  worker_ok w -> conn_heap w !! e_addr e = None -> 0 < f < 2 ^ 30 ->
  safe (fun _ w' => worker_ok w') (_new_conn junk malloc_ok e f w).
Proof.
  intros Hw Hp Hf. pose proof Hw as [Ht Hqc]. unfold _new_conn.
  rewrite (proj2 (Z.ltb_ge f 0)) by lia. case_match; [by eapply worker_ok_same|].
  destruct (sdsempty_ok junk malloc_ok malloc_grants) as (q & Hq & Hqok & Hv & _).
  set (c0 := MkConn f "" 0 (create_io_event tt) (create_timer (e_addr e) true) q XHEAD_SIZE 0
               STATE_HEAD 0 []).
  set (w1 := set_heap (<[e_addr e := c0]> (conn_heap w)) w).
  assert (Hnew : new_TcpConnection junk malloc_ok (e_addr e) f w = Ret (tt, w1))
    by (unfold new_TcpConnection; by rewrite (M_bind_lift _ _ _ _ Hq)).
  assert (Ht1 : table_ok (_conns w) (conn_heap w1)) by by apply table_fresh.
  step Hnew. destruct (sock_peer_to_string _) as [ret [addr prt]].
  destruct (ret <? 0); [by constructor|].
  assert (Hp1 : conn_heap w1 !! e_addr e = Some c0) by apply lookup_insert_eq.
  step (get_conn_eq _ _ _ Hp1). rewrite M_bind_get. cbn [_io_watcher timer_watcher querybuf
    bytes_expected bytes_processed currentState reply_msgs c0].
  match goal with |- context[put_conn _ ?c'] => set (c1 := c') end.
  assert (Hc1 : conn_ok c1).
  { apply fresh_conn_ok; try done. rewrite start_io_event_interest by done.
    unfold interest. simpl. by rewrite ev_init_inactive. }
  step (put_conn_eq _ _ _ c1 Hp1). set (w2 := set_heap _ w1).
  assert (Ht2 : table_ok (_conns w) (conn_heap w2)).
  { simpl. rewrite insert_insert_eq. by apply table_fresh. }
  assert (Hp2 : conn_heap w2 !! e_addr e = Some c1) by (simpl; apply lookup_insert_eq).
  rewrite i32_small by lia.
  assert (Hstore : forall t', table_ok t' (conn_heap w2) -> f < Z.of_nat (length t') ->
    safe (fun _ w' => worker_ok w') (store_slot f (Some (e_addr e)) (set_conns t' w2))).
  { intros t' Ht' Hlen. unfold store_slot. rewrite decide_True by (simpl; lia).
    constructor; simpl; [|done]. apply table_insert with c1; try done. simpl. lia. }
  change (_conns w1) with (_conns w). destruct (Z.leb_spec (Z.of_nat (length (_conns w))) f);
    cbv iota.
  - rewrite M_bind_modify. apply Hstore; [by apply table_resize|]. rewrite length_resize. lia.
  - rewrite M_bind_mret. apply (Hstore (_conns w)); done.
Qed.

(** ** The events of the loop *)

(** What can happen to a worker: a callback of its event loop, the passing of
    time between callbacks, or one of the two messages other threads send it. *)
Inductive event :=
  | EvIo (fuel : nat) (f events : Z) (r : sysread) (ws : list syswrite) (send_ret : Z)
  | EvTimer (tm : TimerWatcher positive)
  | EvNotify (e : new_conn_env)
  | EvTick (now : Z)
  | EvNewConn (write_ok : bool) (f : Z)
  | EvRtcMsg (write_ok : bool) (m : RtcMsg Cert).

Definition set_now (now : Z) (w : Worker) : Worker :=
  MkWorker (_worker_id w) (connection_timeout_ms w) (_thread w) now (loop_stopped w)
    (notify_pipe w) (pipe_open w) (_q_conn w) (_conns w) (conn_heap w) (_q_rtc_msg w) (effects w).

Definition run_event (ev : event) : M Worker unit :=
  match ev with
  | EvIo fuel f events r ws send_ret => conn_io_cb junk malloc_ok EAGAIN fuel f events r ws send_ret
  | EvTimer tm => conn_timer_cb tm
  | EvNotify e => signaling_warker_recv_notify junk malloc_ok e
  | EvTick now => modify (set_now now)
  | EvNewConn ok f => _ ← notify_new_conn ok f; mret tt
  | EvRtcMsg ok m => _ ← send_rtc_msg ok m; mret tt
  end.

(** What the surroundings promise for each event. *)
Definition event_ok (w : Worker) (ev : event) : Prop :=
  match ev with
  | EvIo _ f _ r _ _ => forall p c, registered w p c -> fd c = f -> read_fits c r
  | EvTimer tm => exists c, registered w (t_data tm) c
  | EvNotify e =>
      conn_heap w !! e_addr e = None /\
      forall m, head (_q_rtc_msg w) = Some m -> reply_fits w m
  | EvTick _ => True
  | EvNewConn _ f => 0 < f < 2 ^ 30
  | EvRtcMsg _ m => True
  end.

Lemma timer_safe w (tm : TimerWatcher positive) :
  worker_ok w -> (exists c, registered w (t_data tm) c) ->
  safe (fun _ w' => worker_ok w') (conn_timer_cb tm w).
Proof.
  intros Hw [c Hreg]. pose proof Hreg as (Hc & _ & _). unfold conn_timer_cb, _process_timeout.
  rewrite M_bind_get. step (get_conn_eq _ _ _ Hc).
  case_match; [by eapply close_conn_safe|done].
Qed.

Lemma notify_safe w e :
  worker_ok w -> event_ok w (EvNotify e) ->
  safe (fun _ w' => worker_ok w') (signaling_warker_recv_notify junk malloc_ok e w).
Proof.
  intros Hw [Haddr Hrtc]. unfold signaling_warker_recv_notify. rewrite M_bind_get.
  destruct (notify_pipe w) as [|msg rest]; [done|]. rewrite M_bind_modify.
  set (w1 := set_pipe rest w). assert (Hw1 : worker_ok w1) by by eapply worker_ok_same.
  unfold _process_notify. destruct (msg =? QUIT).
  { unfold _stop. rewrite M_bind_get. case_match; [by eapply worker_ok_same|done]. }
  destruct (msg =? NEW_CONN).
  - rewrite M_bind_get. destruct Hw1 as [Ht [Hq Hfds]].
    destruct (q_consume_ok (_q_conn w1) Hq) as (q' & Hcons & Hq' & Hview).
    rewrite (M_bind_lift _ _ _ _ Hcons), M_bind_modify.
    assert (Hw2 : worker_ok (set_q_conn q' w1)).
    { constructor; [done|]. split; [done|]. simpl. rewrite Hview. destruct (q_view _); [done|].
      by inversion Hfds. }
    destruct (q_view (_q_conn w1)) as [|f fs]; simpl; [done|].
    apply new_conn_safe; [done..|]. by inversion Hfds.
  - destruct (msg =? RTC_MSG); [|done]. unfold _process_rtc_msg, pop_rtc_msg.
    unfold mbind at 1, M_bind at 1. rewrite M_bind_get. change (_q_rtc_msg w1) with (_q_rtc_msg w).
    destruct (_q_rtc_msg w) as [|m ms]; [done|]. rewrite M_bind_modify. cbn beta iota.
    unfold mret at 1, M_ret at 1. cbn beta iota. apply (safe_bind (fun _ w' => worker_ok w')).
    2: { intros [] w' Hw'. unfold off_end. by destruct returns_off_end. }
    case_match; [|by eapply worker_ok_same].
    apply response_server_offer_safe; [by eapply worker_ok_same|]. by apply Hrtc.
Qed.

Lemma event_safe w ev :
  worker_ok w -> event_ok w ev -> safe (fun _ w' => worker_ok w') (run_event ev w).
Proof.
  intros Hw Hev. destruct ev as [fuel f events r ws send_ret|tm|e|now|ok f|ok m]; cbn [run_event].
  - unfold conn_io_cb. eapply (safe_bind (fun _ w' => worker_ok w')).
    + case_match; [by apply read_conn_safe|done].
    + intros _ w' Hw'. case_match; [by apply write_conn_safe|done].
  - by apply timer_safe.
  - by apply notify_safe.
  - by eapply worker_ok_same.
  - unfold notify_new_conn. destruct Hw as [Ht [Hq Hfds]].
    destruct (q_produce_ok f (_q_conn w) Hq) as (q' & Hp & Hq' & Hv).
    unfold mbind at 1, M_bind at 1. rewrite M_bind_get, (M_bind_lift _ _ _ _ Hp), M_bind_modify.
    assert (Hok : fds_ok q') by (split; [done|]; rewrite Hv; apply Forall_app_2; [done|by apply Forall_singleton]).
    by destruct ok; constructor.
  - unfold send_rtc_msg, push_rtc_msg, notify. by destruct ok; eapply worker_ok_same.
Qed.

(** ** Runs *)

(** A run of the worker from a state over a sequence of events, each of them
    admissible when it happens. *)
Inductive run_events : Worker -> list event -> Worker -> Prop :=
  | run_nil w : run_events w [] w
  | run_cons w ev w1 evs w2 :
      event_ok w ev -> run_event ev w = Ret (tt, w1) -> run_events w1 evs w2 ->
      run_events w (ev :: evs) w2.

Lemma run_events_ok w evs w' : worker_ok w -> run_events w evs w' -> worker_ok w'.
Proof.
  intros Hw Hrun. induction Hrun as [|w ev w1 evs w2 Hev Hr Hrun IH]; [done|].
  apply IH. pose proof (event_safe w ev Hw Hev) as Hs. by rewrite Hr in Hs.
Qed.

Lemma ctor_ok wid timeout : worker_ok (SignalingServerWorker wid timeout).
Proof.
  constructor; [intros i p Hi; simpl in Hi; by rewrite lookup_nil in Hi|].
  destruct q_new_ok as [Hq Hv]. split; [done|]. simpl. by rewrite Hv.
Qed.

(** C4: in any order of callbacks, messages and clock ticks that are
    [event_ok], a worker never touches a deleted connection, writes outside its
    table or past a buffer, or dereferences a null pointer: from the constructor
    on, the next event ends in a state that satisfies the invariant, or does not
    end, or throws, or flows off the end of a function without [return]
    ([_process_request] for a command that is no push, and [_process_rtc_msg]
    with a compiler that does not return there).  [event_ok] asks for this: the
    header of a packet announces a body of less than 2^28 bytes (a larger one
    is not refused, and its length is converted to an int: [huge_body_overflows]),
    and a read returns no more bytes than were asked for ([read_fits]); the
    answer that is about to be sent is no longer than [MAX_RES_BUF], and
    36 bytes arrived on the connection it goes to ([reply_fits]; a longer one
    is written past the end of the packet, [response_addressed]); an accepted
    descriptor is positive and below 2^30; a timer that fires is that of a
    connection in the table; a new connection gets an address that is not in
    use.  Memory is granted for every request below 4 GiB; otherwise the peers
    send what they like and the system calls fail as they like. *)
Theorem worker_memory_safe wid timeout evs w ev :
  run_events (SignalingServerWorker wid timeout) evs w -> event_ok w ev ->
  worker_ok w /\
  match run_event ev w with
  | Ret (_, w') => worker_ok w'
  | Abort | OutOfFuel => True
  | Ub u => u = MissingReturn
  end.
Proof.
  intros Hrun Hev. assert (Hw : worker_ok w) by (eapply run_events_ok; [apply ctor_ok|done]).
  split; [done|]. by apply event_safe.
Qed.

(** C14: a connection of the table waits for WRITE exactly when it has replies
    to send, always waits for READ, and its framing state is the function of
    the bytes received that [frame_of] gives. *)
Theorem worker_connections wid timeout evs w i p :
  run_events (SignalingServerWorker wid timeout) evs w -> _conns w !! i = Some (Some p) ->
  exists c, conn_heap w !! p = Some c /\ fd c = Z.of_nat i /\
    framing c = frame_of (sds_val (querybuf c)) /\
    Z.testbit (interest (_io_watcher c)) 0 = true /\
    (Z.testbit (interest (_io_watcher c)) 1 = true <-> reply_msgs c <> []).
Proof.
  intros Hrun Hi. assert (Hw : worker_ok w) by (eapply run_events_ok; [apply ctor_ok|done]).
  destruct (worker_registered w i p Hw Hi) as (c & (Hc & _ & _) & Hfd & [_ Hfr _ Hint]).
  exists c. rewrite Hint. unfold awaits. split_and!; try done; by destruct (reply_msgs c).
Qed.

End inv.

(** ** A run: a client connects, sends half a header, the rest, and is timed *)

#[local] Existing Instance libev_sim.
#[local] Existing Instance libev_sim_laws.
#[local] Existing Instance json_sim.
#[local] Existing Instance fd_fifo.
#[local] Existing Instance lenient.

#[local] Notation SimWorker := (SignalingWorker.Worker (Cert := unit) (Q := lfq (T := Z))).

Definition sim_accept : new_conn_env :=
  NewConnEnv 0 0 0 (Some ("10.0.0.1"%string, 4242)) 1%positive.

Definition sim_events : list (event (Cert := unit)) :=
  [EvNewConn true 7; EvNotify sim_accept; EvTick 50;
   EvIo 3 7 READ (ReadBytes (take 20 (sim_packet XHEAD_MAGIC_NUM))) [] 0].

(** The state after a list of events. *)
Fixpoint sim_run (evs : list (event (Cert := unit))) (w : SimWorker) : SimWorker :=
  match evs with
  | [] => w
  | ev :: evs =>
      match run_event zero_junk always_ok 11 ev w with Ret (_, w') => sim_run evs w' | _ => w end
  end.

Definition sim_start : SimWorker :=
  SignalingServerWorker 3 60000000.

(** A worker with connection 1 on descriptor 7 only. *)
Lemma sim_only (w : SimWorker) c c1 p :
  _conns w = replicate 7 None ++ Some 1%positive :: replicate 6 None ->
  conn_heap w !! 1%positive = Some c -> registered w p c1 -> c1 = c.
Proof.
  intros Hcs Hc (Hc1 & Hf & Hs). rewrite Hcs in Hs.
  assert (Hin : Some p ∈ replicate 7 None ++ Some 1%positive :: replicate 6 None)
    by (by eapply list_elem_of_lookup_2).
  simpl in Hin. repeat (apply elem_of_cons in Hin as [Hin|Hin]; simplify_eq; try done).
  by apply elem_of_nil in Hin.
Qed.

Lemma sim_events_run :
  run_events zero_junk always_ok 11 sim_start sim_events (sim_run sim_events sim_start).
Proof.
  repeat (eapply run_cons; [|vm_compute; reflexivity|]); [..|apply run_nil].
  - done.
  - split; [done|]. intros m Hm. by vm_compute in Hm.
  - done.
  - intros p c1 Hreg _. eapply sim_only in Hreg as ->; [|done..].
    split; [done|]. vm_compute. lia.
Qed.

Lemma worker_memory_safe_witness :
  worker_ok (sim_run sim_events sim_start) /\
  match run_event zero_junk always_ok 11
          (EvIo 3 7 READ (ReadBytes (drop 20 (sim_packet XHEAD_MAGIC_NUM))) [] 0)
          (sim_run sim_events sim_start) with
  | Ret (_, w') => worker_ok w'
  | Abort | OutOfFuel => True
  | Ub u => u = MissingReturn
  end.
Proof.
  apply (worker_memory_safe zero_junk always_ok 11 always_grants 3 60000000 sim_events
           (sim_run sim_events sim_start)
           (EvIo 3 7 READ (ReadBytes (drop 20 (sim_packet XHEAD_MAGIC_NUM))) [] 0)).
  - apply sim_events_run.
  - intros p c1 Hreg _. eapply sim_only in Hreg as ->; [|vm_compute; reflexivity..].
    split; [done|]. intros _. by vm_compute.
Defined.

Lemma worker_connections_witness :
  exists c, conn_heap (sim_run sim_events sim_start) !! 1%positive = Some c /\ fd c = 7 /\
    framing c = frame_of (sds_val (querybuf c)) /\
    Z.testbit (interest (_io_watcher c)) 0 = true /\
    (Z.testbit (interest (_io_watcher c)) 1 = true <-> reply_msgs c <> []).
Proof.
  apply (worker_connections zero_junk always_ok 11 always_grants 3 60000000 sim_events
           (sim_run sim_events sim_start) 7 1).
  - apply sim_events_run.
  - by vm_compute.
Defined.

(** A header that announces 2^32 - 6 bytes: the length to read is -6, the buffer
    shrinks to 61 bytes of data, and the next 100 bytes of the peer are read
    behind its first 36, past its end (where [read] takes so large a count). *)
Definition huge_header : list byte := xhead_to_bytes (Xhead 1 1 77 (repeat x70 16) XHEAD_MAGIC_NUM 0 4294967290).
Example huge_body_overflows :
  let w := sim_run [EvNewConn true 7; EvNotify sim_accept; EvIo 3 7 READ (ReadBytes huge_header) [] 0] sim_start in
  run_event zero_junk always_ok 11 (EvIo 3 7 READ (ReadBytes (repeat x41 100)) [] 0) w = Ub OutOfBounds.
Proof. vm_compute. reflexivity. Qed.
