(* ===== verification/WorkerReply.v ===== *)
(** * Replies, timeouts and the end of a signaling worker

    What leaves the worker on a connection: the answers of the RTC server,
    framed by [_response_server_offer] and sent by [_write_conn]; when a silent
    connection is closed; and what the destructor closes. *)

From S2P Require Import Prelude Sds Defs LockFreeQueue EventLoop Socket SignalingWorker WorkerFraming WorkerInv.
#[local] Open Scope Z_scope.
#[local] Open Scope xrtc_scope.

Section reply.
Context `{Compiler} `{LibEvLaws} `{JsonCpp} {Cert Q : Type} `{FifoQueue Z Q}.
Context (junk : nat -> byte) (malloc_ok : Z -> bool) (EAGAIN : Z).
Context (malloc_grants : forall n, 0 <= n < 2 ^ 32 -> malloc_ok n = true).

Notation Worker := (Worker (Cert := Cert) (Q := Q)).
Implicit Types (w : Worker) (c : TcpConnection) (p : positive).

(** ** What the peer receives *)

(** The bytes written on descriptor [f]. *)
Definition sent (f : Z) (es : list (effect (Cert := Cert))) : list byte :=
  es ≫= fun e => match e with
    | EWrite g bs => if decide (g = f) then bs else []
    | EClose _ | ERtc _ => [] end.

Lemma sent_app f es es' : sent f (es ++ es') = sent f es ++ sent f es'.
Proof. unfold sent. apply bind_app. Qed.

Lemma sent_write f bs : sent f [EWrite f bs] = bs.
Proof. unfold sent. simpl. by rewrite decide_True, app_nil_r. Qed.

(** The worker after the effects [es], the latest last. *)
Definition with_effects (es : list (effect (Cert := Cert))) (w : Worker) : Worker :=
  MkWorker (_worker_id w) (connection_timeout_ms w) (_thread w) (loop_now w)
    (loop_stopped w) (notify_pipe w) (pipe_open w) (_q_conn w) (_conns w)
    (conn_heap w) (_q_rtc_msg w) (effects w ++ es).

Definition writes_to (f : Z) (e : effect (Cert := Cert)) : Prop :=
  match e with EWrite g _ => g = f | _ => False end.

(** The kernel takes every message whole, or is not ready yet. *)
Inductive whole_writes : list syswrite -> list (list byte) -> Prop :=
  | whole_nil : whole_writes [] []
  | whole_again ws msgs : whole_writes ws msgs -> whole_writes (WriteErr EAGAIN :: ws) msgs
  | whole_write m ws msgs :
      whole_writes ws msgs -> whole_writes (Wrote (length m) :: ws) (m :: msgs).

(** A message the 32-bit lengths of the loop can count. *)
Definition msg_fits (m : list byte) : Prop := 0 < Z.of_nat (length m) < 2 ^ 31.

(** ** One write of the loop *)

Section one_write.
Context (w : Worker) (p : positive) (c : TcpConnection) (msg : list byte) (rest : list (list byte)).
Context (Hc : conn_heap w !! p = Some c) (Hr : reply_msgs c = msg :: rest).

Lemma write_loop_again ws cur :
  write_loop EAGAIN (WriteErr EAGAIN :: ws) p (fd c) cur w =
    write_loop EAGAIN ws p (fd c) cur (add_effect (EWrite (fd c) []) w).
Proof.
  cbn [write_loop]. step (get_conn_eq _ _ _ Hc). rewrite Hr. unfold emit. rewrite M_bind_modify.
  unfold sock_write_data. rewrite Z.eqb_refl. done.
Qed.

Lemma write_loop_wrote n ws cur :
  (0 < n)%nat -> 0 <= cur -> cur + Z.of_nat n < 2 ^ 31 -> Z.of_nat (length msg) < 2 ^ 31 ->
  write_loop EAGAIN (Wrote n :: ws) p (fd c) cur w =
    if Z.of_nat (length msg) <=? cur + Z.of_nat n
    then write_loop EAGAIN ws p (fd c) 0
           (set_heap (<[p := set_reply_msgs rest c]> (conn_heap w))
              (add_effect (EWrite (fd c) (take n msg)) w))
    else write_loop EAGAIN ws p (fd c) (cur + Z.of_nat n)
           (add_effect (EWrite (fd c) (take n msg)) w).
Proof.
  intros Hn Hcur Hsum Hm. cbn [write_loop]. step (get_conn_eq _ _ _ Hc). rewrite Hr.
  unfold emit. rewrite M_bind_modify. set (w1 := add_effect _ w).
  unfold sock_write_data. rewrite i32_small by lia.
  rewrite (proj2 (Z.ltb_ge _ 0)), (proj2 (Z.eqb_neq _ 0)) by lia.
  rewrite (i32_small (Z.of_nat n + cur)), (i32_small (cur + Z.of_nat n)) by lia.
  rewrite !u64_small, (Z.add_comm (Z.of_nat n)) by lia.
  case_match; [|done]. by step (put_conn_eq w1 _ _ (set_reply_msgs rest c) Hc).
Qed.
End one_write.

Lemma write_loop_done w p c ws cur :
  conn_heap w !! p = Some c -> reply_msgs c = [] ->
  write_loop EAGAIN ws p (fd c) cur w = Ret (true, w).
Proof.
  intros Hc Hr. destruct ws; cbn [write_loop]; step (get_conn_eq _ _ _ Hc); by rewrite Hr.
Qed.

Lemma write_loop_whole ws msgs w p c :
  whole_writes ws msgs -> conn_heap w !! p = Some c -> reply_msgs c = msgs ->
  Forall msg_fits msgs ->
  exists es, sent (fd c) es = concat msgs /\ Forall (writes_to (fd c)) es /\
    write_loop EAGAIN ws p (fd c) 0 w =
      Ret (true, set_heap (<[p := set_reply_msgs [] c]> (conn_heap w)) (with_effects es w)).
Proof.
  intros Hws. revert w c. induction Hws as [|ws msgs Hws IH|m ws msgs Hws IH]; intros w c Hc Hr Hfit.
  - exists []. split_and!; [done..|]. rewrite (write_loop_done w p c) by done. do 2 f_equal.
    unfold with_effects. rewrite app_nil_r. unfold set_heap. simpl. rewrite insert_id; [by destruct w|].
    rewrite Hc. f_equal. destruct c; simpl in *; by subst.
  - destruct msgs as [|m msgs].
    { exists []. split_and!; [done..|]. rewrite (write_loop_done w p c) by done. do 2 f_equal.
      unfold with_effects. rewrite app_nil_r. unfold set_heap. simpl. rewrite insert_id; [by destruct w|].
      rewrite Hc. f_equal. destruct c; simpl in *; by subst. }
    rewrite (write_loop_again w p c m msgs) by done.
    destruct (IH (add_effect (EWrite (fd c) []) w) c) as (es & Hes & Hto & ->); try done.
    exists (EWrite (fd c) [] :: es). split_and!; [|by constructor|].
    + change (EWrite (fd c) [] :: es) with ([EWrite (fd c) []] ++ es).
      by rewrite sent_app, sent_write, Hes.
    + unfold set_heap, add_effect, with_effects. simpl. by rewrite <- app_assoc.
  - apply Forall_cons in Hfit as [[Hm0 Hm] Hfit].
    rewrite (write_loop_wrote w p c m msgs) by (done || lia).
    rewrite (proj2 (Z.leb_le _ _)) by lia. rewrite take_ge by lia.
    set (w1 := set_heap _ _).
    destruct (IH w1 (set_reply_msgs msgs c)) as (es & Hes & Hto & Heq); try done.
    { unfold w1. simpl. apply lookup_insert_eq. }
    change (fd (set_reply_msgs msgs c)) with (fd c) in *. rewrite Heq.
    exists (EWrite (fd c) m :: es). split_and!; [|by constructor|].
    + change (EWrite (fd c) m :: es) with ([EWrite (fd c) m] ++ es).
      by rewrite sent_app, sent_write, Hes.
    + unfold w1, set_heap, add_effect, with_effects. simpl. by rewrite <- app_assoc, insert_insert_eq.
Qed.

(** ** Sending *)

(** The connection once its answers are sent. *)
Definition drained (now : Z) (c : TcpConnection) : TcpConnection :=
  set_watcher (stop_io_event (_io_watcher c) (fd c) WRITE) (set_last_active now (set_reply_msgs [] c)).

Lemma write_conn_whole w p c ws :
  registered w p c -> conn_ok c -> 1 <= fd c ->
  whole_writes ws (reply_msgs c) -> Forall msg_fits (reply_msgs c) ->
  exists es, sent (fd c) es = concat (reply_msgs c) /\ Forall (writes_to (fd c)) es /\
    _write_conn EAGAIN (fd c) ws w =
      Ret (tt, set_heap (<[p := drained (loop_now w) c]> (conn_heap w)) (with_effects es w)) /\
    interest (_io_watcher (drained (loop_now w) c)) = READ.
Proof.
  intros (Hc & Hfd & Hslot) Hok Hlo Hws Hfit. pose proof Hok as [_ _ _ Hint].
  destruct (write_loop_whole ws _ w p c Hws Hc eq_refl Hfit) as (es & Hes & Hto & Hloop).
  exists es. split_and!; [done..| |].
  - unfold _write_conn. step (find_conn_eq w 1 (fd c) p Hlo ltac:(lia) Hslot). step Hloop.
    rewrite M_bind_get. erewrite M_bind_eq; [|apply get_conn_eq; simpl; apply lookup_insert_eq].
    cbn [reply_msgs set_last_active set_reply_msgs].
    erewrite put_conn_eq; [|simpl; apply lookup_insert_eq]. simpl. by rewrite insert_insert_eq.
  - destruct (awaits_write c) as (Hmask & Hland & _ & Hne).
    cbn [drained _io_watcher set_watcher]. rewrite stop_io_event_interest, Hint; try done. apply interest_active. by rewrite Hint.
Qed.

(** C10: when the kernel accepts each message whole (after any number of
    [EAGAIN]s), the peer receives the queued answers one after the other, in
    order and nothing else; the queue of answers is then empty, WRITE is no
    longer waited for and the connection counts as active now ([drained]), and
    nothing else changes: the framing fields and the timer of the connection,
    the other connections, the table, the queues, the pipe and the loop of the
    worker are what they were, and nothing is written to another descriptor,
    closed or asked.  (The descriptor is not 0, and the lengths of the messages
    fit an int and are not 0.) *)
Theorem write_conn_delivers w p c ws :
  registered w p c -> conn_ok c -> 1 <= fd c ->
  whole_writes ws (reply_msgs c) -> Forall msg_fits (reply_msgs c) ->
  exists es, sent (fd c) es = concat (reply_msgs c) /\ Forall (writes_to (fd c)) es /\
    _write_conn EAGAIN (fd c) ws w =
      Ret (tt, set_heap (<[p := drained (loop_now w) c]> (conn_heap w)) (with_effects es w)) /\
    interest (_io_watcher (drained (loop_now w) c)) = READ.
Proof. intros. by apply write_conn_whole. Qed.

(** A partial write loses data. When the kernel takes [n] bytes of an
    answer and then accepts at least the number of bytes that were left, the
    answer counts as sent, but the second [write] starts at its first byte
    again: the peer receives its first [n] bytes and then its first [k], which
    is the answer only if the remainder happens to equal its beginning. *)
Theorem write_loop_partial w p c msg n k :
  conn_heap w !! p = Some c -> reply_msgs c = [msg] -> Z.of_nat (length msg) < 2 ^ 30 ->
  (0 < n < length msg)%nat -> (length msg - n <= k <= length msg)%nat ->
  exists w', write_loop EAGAIN [Wrote n; Wrote k] p (fd c) 0 w = Ret (true, w') /\
    conn_heap w' !! p = Some (set_reply_msgs [] c) /\
    effects w' = effects w ++ [EWrite (fd c) (take n msg); EWrite (fd c) (take k msg)] /\
    (sent (fd c) [EWrite (fd c) (take n msg); EWrite (fd c) (take k msg)] = msg <->
     k = (length msg - n)%nat /\ take (length msg - n) msg = drop n msg).
Proof.
  intros Hc Hr Hm Hn Hk.
  rewrite (write_loop_wrote w p c msg []), (proj2 (Z.leb_gt _ _)) by (done || lia).
  set (w1 := add_effect _ w).
  rewrite (write_loop_wrote w1 p c msg []), (proj2 (Z.leb_le _ _)) by (done || lia).
  set (w2 := set_heap _ _).
  change (fd c) with (fd (set_reply_msgs [] c)) at 1.
  rewrite (write_loop_done w2 p (set_reply_msgs [] c)) by (done || apply lookup_insert_eq).
  exists w2. split; [done|]. split; [apply lookup_insert_eq|].
  split; [simpl; by rewrite <- app_assoc|].
  unfold sent. simpl. rewrite !decide_True, app_nil_r by done.
  rewrite <- (take_drop n msg) at 3. split.
  - intros Heq. apply app_inj_1 in Heq as [_ Heq]; [|done].
    assert (k = (length msg - n)%nat) as ->.
    { apply (f_equal length) in Heq. rewrite length_take, length_drop in Heq. lia. }
    done.
  - intros [-> ->]. done.
Qed.

(** ** Answers *)

Lemma response_bytes_too_long header body :
  length header = 36%nat -> MAX_RES_BUF < Z.of_nat (length body) ->
  response_bytes junk header body = Ub OutOfBounds.
Proof.
  intros Hh Hb.
  unfold response_bytes, XHEAD_SIZE, MAX_RES_BUF in *.
  set (blk := fresh_bytes _ _ _).
  assert (Hblk : length blk = 4132%nat) by (unfold blk; by rewrite length_fresh_bytes by lia).
  pose proof (length_le_to_bytes 4 (u32 (Z.of_nat (length body)))) as H4.
  rewrite store_ok by lia. unfold mbind at 1, res_bind at 1.
  rewrite store_ok by (rewrite ?length_splice, ?H4 by lia; lia). unfold mbind at 1, res_bind at 1.
  unfold store at 1. rewrite decide_False; [done|].
  rewrite ?length_splice, ?H4 by (rewrite ?length_splice; lia). lia.
Qed.

(** C16: the packet of an answer repeats the header of the request except for
    [body_len], which is the length of the body that follows it: the framing
    rules of the protocol, applied to the packet, find exactly this body. A body
    longer than [MAX_RES_BUF] is written past the end of the buffer. *)
Theorem response_bytes_framed header body :
  length header = 36%nat ->
  (Z.of_nat (length body) <= MAX_RES_BUF ->
   exists pkt, response_bytes junk header body = Ret pkt /\
     complete pkt = true /\ stream_body_len pkt = Z.of_nat (length body) /\
     length pkt = (36 + length body)%nat /\ drop 36 pkt = body /\
     let h := xhead_of_bytes header in let h' := xhead_of_bytes pkt in
     id h' = id h /\ version h' = version h /\ xh_log_id h' = xh_log_id h /\
     provider h' = provider h /\ magic_num h' = magic_num h /\ reserved h' = reserved h) /\
  (MAX_RES_BUF < Z.of_nat (length body) ->
   response_bytes junk header body = Ub OutOfBounds).
Proof.
  intros Hh. split; intros Hb.
  - rewrite response_bytes_ok by done. eexists. split; [done|]. unfold MAX_RES_BUF in Hb.
    explode Hh. unfold reply_header. cbn [take].
    assert (Hlen : stream_body_len (([b; b0; b1; b2; b3; b4; b5; b6; b7; b8; b9; b10; b11; b12;
      b13; b14; b15; b16; b17; b18; b19; b20; b21; b22; b23; b24; b25; b26; b27; b28; b29; b30]
      ++ le_to_bytes 4 (Z.of_nat (length body))) ++ body) = Z.of_nat (length body)).
    { unfold stream_body_len, xhead_of_bytes. cbn [body_len].
      apply (le_of_to_bytes 4). lia. }
    pose proof (length_le_to_bytes 4 (Z.of_nat (length body))) as H4.
    split; [unfold complete; rewrite Hlen, !length_app, H4; cbn [length];
            by rewrite !(proj2 (Z.leb_le _ _)) by lia|].
    split; [exact Hlen|]. split; [by rewrite !length_app, H4|].
    split; [by apply drop_app_length'; rewrite length_app, H4|].
    unfold xhead_of_bytes. destruct (le_to_bytes 4 _) as [|x [|? [|? [|? [|]]]]]; try done.
  - by apply response_bytes_too_long.
Qed.

(** The object [p] that the message names is in the table under the descriptor
    of the message, and [c] is what it holds. *)
Definition addressee w (m : RtcMsg Cert) p c : Prop :=
  conn m = Some p /\ registered w p c /\ fd c = msg_fd m /\ 0 < msg_fd m.

(** Up to the packet. *)
Lemma response_to_addressee w m p c :
  worker_ok w -> addressee w m p c -> (36 <= length (sds_val (querybuf c)))%nat ->
  conn_ok c /\ _response_server_offer junk malloc_ok m w =
    (pkt ← lift (response_bytes junk (take 36 (sds_val (querybuf c))) (writeString (response_fields m)));
     _add_reply p pkt) w.
Proof.
  intros Hw (Hm & Hreg & Hfd & Hpos) Hhead.
  pose proof (worker_registered w (Z.to_nat (fd c)) p Hw) as Hr.
  pose proof Hreg as (Hc & Hfd0 & Hslot). specialize (Hr Hslot).
  destruct Hr as (c2 & (Hc2 & _) & _ & Hok). assert (c2 = c) as -> by congruence. split; [done|].
  pose proof Hok as [Hq _ _ _]. pose proof (lookup_lt_Some _ _ _ Hslot).
  unfold _response_server_offer. rewrite Hm, M_bind_get, decide_False by lia.
  rewrite <- Hfd, decide_False by (rewrite Hslot; naive_solver).
  step (get_conn_eq _ _ _ Hc).
  rewrite (M_bind_lift _ _ _ _ (buf_load _ _ 0 36 Hq eq_refl ltac:(lia) ltac:(lia) ltac:(lia))).
  by rewrite malloc_grants by (unfold XHEAD_SIZE, MAX_RES_BUF; lia).
Qed.

(** A text that fits. *)
Lemma response_to_addressee_ok w m p c :
  worker_ok w -> addressee w m p c -> (36 <= length (sds_val (querybuf c)))%nat ->
  Z.of_nat (length (writeString (response_fields m))) <= MAX_RES_BUF ->
  exists c' pkt, _response_server_offer junk malloc_ok m w =
      Ret (tt, set_heap (<[p := c']> (conn_heap w)) w) /\
    response_bytes junk (take 36 (sds_val (querybuf c))) (writeString (response_fields m)) = Ret pkt /\
    c' = set_watcher (_io_watcher c') (set_reply_msgs (reply_msgs c ++ [pkt]) c) /\
    interest (_io_watcher c') = Z.lor READ WRITE.
Proof.
  intros Hw Ha Hhead Hfit.
  destruct (response_to_addressee w m p c Hw Ha Hhead) as [Hok ->].
  destruct Ha as (_ & (Hc & _) & _). pose proof Hok as [_ _ _ Hint].
  pose proof (response_bytes_ok junk (take 36 (sds_val (querybuf c))) (writeString (response_fields m))
    ltac:(rewrite length_take; lia) Hfit) as Hpkt.
  rewrite (M_bind_lift _ _ _ _ Hpkt). unfold _add_reply. step (get_conn_eq _ _ _ Hc).
  erewrite put_conn_eq by done. eexists _, _. split; [done|]. split; [done|]. split; [done|].
  destruct (awaits_write c) as (Hmask & _ & Hlor & Hne). simpl.
  by rewrite start_io_event_interest, Hint, Hlor.
Qed.

(** C9: an answer is queued on the object that its request named, and only
    while that object is in the table under the descriptor of the request, as a
    packet made of the first 36 bytes the connection received and the text of
    the answer; otherwise it is dropped.  The worker is unchanged otherwise, and
    no other connection ever is.  A text longer than [MAX_RES_BUF] is written
    past the end of the packet.  (The address and the descriptor are all that
    identifies the client: a connection accepted later that was given both again
    gets the answer of its predecessor, [reused_address].  The first two clauses
    are about connections on which at least the 36 bytes of a header arrived; a
    packet can be allocated.) *)
Theorem response_addressed w m :
  worker_ok w ->
  (forall p c, addressee w m p c -> (36 <= length (sds_val (querybuf c)))%nat ->
    Z.of_nat (length (writeString (response_fields m))) <= MAX_RES_BUF ->
    exists c' pkt, _response_server_offer junk malloc_ok m w =
        Ret (tt, set_heap (<[p := c']> (conn_heap w)) w) /\
      response_bytes junk (take 36 (sds_val (querybuf c))) (writeString (response_fields m)) = Ret pkt /\
      c' = set_watcher (_io_watcher c') (set_reply_msgs (reply_msgs c ++ [pkt]) c) /\
      interest (_io_watcher c') = Z.lor READ WRITE) /\
  (forall p c, addressee w m p c -> (36 <= length (sds_val (querybuf c)))%nat ->
    MAX_RES_BUF < Z.of_nat (length (writeString (response_fields m))) ->
    _response_server_offer junk malloc_ok m w = Ub OutOfBounds) /\
  ((forall p c, ~ addressee w m p c) -> _response_server_offer junk malloc_ok m w = Ret (tt, w)).
Proof.
  intros Hw. split_and!.
  - intros p c Ha Hhead Hfit. by apply response_to_addressee_ok.
  - intros p c Ha Hhead Hbig. destruct (response_to_addressee w m p c Hw Ha Hhead) as [_ ->].
    pose proof (response_bytes_too_long (take 36 (sds_val (querybuf c))) (writeString (response_fields m))) as Hb.
    unfold mbind, M_bind, lift. by rewrite Hb by (rewrite ?length_take; lia).
  - intros Hno. unfold _response_server_offer. destruct (conn m) as [p|] eqn:Hm; [|done].
    rewrite M_bind_get. case_decide as Hrange; [done|]. case_decide as Heq; [done|].
    destruct (lookup_lt_is_Some_2 (_conns w) (Z.to_nat (msg_fd m))) as [s Hslot]; [lia|].
    rewrite Hslot in Heq.
    assert (s = Some p) as -> by (destruct (decide (s = Some p)); [done|]; by destruct Heq).
    destruct (worker_registered w _ _ Hw Hslot) as (c & Hreg & Hfd & _).
    rewrite Z2Nat.id in Hfd by lia. destruct (Hno p c). split_and!; try done. lia.
Qed.

(** The same, with what the later files use of it. *)
Lemma response_queued w m p c :
  worker_ok w -> reply_fits w m -> conn m = Some p -> registered w p c -> fd c = msg_fd m -> 0 < msg_fd m ->
  exists c' pkt, _response_server_offer junk malloc_ok m w =
      Ret (tt, set_heap (<[p := c']> (conn_heap w)) w) /\
    response_bytes junk (take 36 (sds_val (querybuf c))) (writeString (response_fields m)) = Ret pkt /\
    reply_msgs c' = reply_msgs c ++ [pkt] /\ interest (_io_watcher c') = Z.lor READ WRITE /\
    fd c' = fd c /\ querybuf c' = querybuf c.
Proof.
  intros Hw [Hfit Hhead] Hm Hreg Hfd Hpos.
  destruct (response_to_addressee_ok w m p c Hw) as (c' & pkt & He & Hpkt & Hc' & Hi); [done|by apply (Hhead p)|done|].
  exists c', pkt. split_and!; [done|done|by rewrite Hc'|done|by rewrite Hc'|by rewrite Hc'].
Qed.

(** ** Timeouts *)


(** ** The destructor *)

(** The slots in use, from slot [k] on. *)
Fixpoint used_slots (k : nat) (t : list (option positive)) : list Z :=
  match t with
  | [] => []
  | None :: t => used_slots (S k) t
  | Some _ :: t => Z.of_nat k :: used_slots (S k) t
  end.

Definition close_effects (fds : list Z) : list (effect (Cert := Cert)) :=
  fds ≫= fun f => [EClose f; EClose f].

Lemma replicate_middle k t :
  replicate k None ++ None :: t = replicate (S k) None ++ t :> list (option positive).
Proof. by rewrite cons_middle, app_assoc, <- replicate_cons_app. Qed.

Lemma close_all_ok t : forall k w,
  worker_ok w -> _conns w = replicate k None ++ t ->
  exists w', close_all t w = Ret (tt, w') /\ worker_ok w' /\
    effects w' = effects w ++ close_effects (used_slots k t) /\ _thread w' = _thread w /\
    (forall p, Some p ∈ t -> conn_heap w' !! p = None) /\
    (forall p, conn_heap w !! p = None -> conn_heap w' !! p = None).
Proof.
  induction t as [|[p|] t IH]; intros k w Hw Hcs; cbn [close_all used_slots].
  - exists w. rewrite app_nil_r. split_and!; try done. intros p Hp. by apply elem_of_nil in Hp.
  - assert (Hslot : _conns w !! k = Some (Some p)).
    { rewrite Hcs. rewrite list_lookup_middle; [done|]. by rewrite length_replicate. }
    destruct (worker_registered w k p Hw Hslot) as (c & Hreg & Hfd & _).
    pose proof Hreg as (Hc & _ & _). pose proof (lookup_lt_Some _ _ _ Hslot).
    pose proof (close_conn_safe w p c Hw Hreg) as Hs.
    rewrite (close_conn_eq w p c) in Hs by (done || lia). simpl in Hs.
    erewrite M_bind_eq; [|apply (close_conn_eq w p c); done || lia]. set (w1 := set_heap _ _) in *.
    destruct (IH (S k) w1) as (w' & Hall & Hw' & Heff & Hth & Hgone & Hkeep); [done| |].
    { unfold w1. simpl. rewrite Hcs, Hfd, Nat2Z.id.
      rewrite <- (Nat.add_0_r k) at 1. rewrite <- (length_replicate k (None (A := positive))) at 1.
      rewrite insert_app_r. apply replicate_middle. }
    exists w'. rewrite Hall. split_and!; try done.
    + rewrite Heff. unfold w1. simpl. rewrite Hfd, <- !app_assoc. done.
    + intros p' Hp'. apply elem_of_cons in Hp' as [[= ->]|Hp']; [|by apply Hgone].
      apply Hkeep. unfold w1. simpl. apply lookup_delete_eq.
    + intros p' Hp'. apply Hkeep. unfold w1. simpl. rewrite lookup_delete_None. auto.
  - destruct (IH (S k) w Hw) as (w' & Hall & Hw' & Heff & Hth & Hgone & Hkeep).
    { by rewrite Hcs, replicate_middle. }
    exists w'. split_and!; try done. intros p Hp.
    apply elem_of_cons in Hp as [Hp|Hp]; [done|by apply Hgone].
Qed.

(** The destructor closes every connection of the table, in the order of
    the descriptors and each of them twice, and deletes the objects; then it
    joins the thread, which ends the program when [join] was called before. *)
Theorem destroy_worker_closes w :
  worker_ok w ->
  (_thread w = Some false -> destroy_worker w = Abort) /\
  (_thread w <> Some false -> exists w', destroy_worker w = Ret (tt, w') /\
     effects w' = effects w ++ close_effects (used_slots 0 (_conns w)) /\
     _conns w' = [] /\ _thread w' = None /\
     (forall p, Some p ∈ _conns w -> conn_heap w' !! p = None)).
Proof.
  intros Hw. destruct (close_all_ok (_conns w) 0 w Hw eq_refl)
    as (w1 & Hall & _ & Heff & Hth & Hgone & _).
  unfold destroy_worker. rewrite M_bind_get. rewrite (M_bind_eq _ _ _ _ _ Hall).
  rewrite !M_bind_modify. split; intros Ht.
  - by rewrite Ht.
  - destruct (_thread w) as [[|]|] eqn:E; [| |]; [eexists; split; [done|]|done|eexists; split; [done|]];
      simpl; done.
Qed.

End reply.

(** ** A run with an answer *)

#[local] Existing Instance libev_sim.
#[local] Existing Instance libev_sim_laws.
#[local] Existing Instance json_sim.
#[local] Existing Instance lenient.
#[local] Existing Instance fd_fifo.
#[local] Notation SimWorker := (SignalingWorker.Worker (Cert := unit) (Q := lfq (T := Z))).

Definition sim_answer : RtcMsg unit :=
  MkRtcMsg CMDNO_PUSH "ab" 1 1 9 None 77 (Some 3) (Some 1%positive) 7 "v=0" 0.

(** The request is complete ([sim_asked]); its answer comes back and is queued
    ([sim_answered]). *)
Definition sim_rest : event (Cert := unit) :=
  EvIo 3 7 READ (ReadBytes (drop 20 (sim_packet XHEAD_MAGIC_NUM))) [] 0.
Definition sim_answering : list (event (Cert := unit)) :=
  [EvRtcMsg true sim_answer; EvNotify (NewConnEnv 0 0 0 None 2%positive)].
Definition sim_asked : SimWorker := sim_run [sim_rest] (sim_run sim_events sim_start).
Definition sim_answered : SimWorker := sim_run sim_answering sim_asked.

Definition conn_of (w : SimWorker) : TcpConnection :=
  match conn_heap w !! 1%positive with Some c => c | None => sim_conn end.

(** One event of a run, computed. *)
Lemma sim_run_cons (w : SimWorker) ev evs :
  event_ok w ev ->
  match run_event zero_junk always_ok 11 ev w with Ret _ => true | _ => false end = true ->
  run_events zero_junk always_ok 11 (sim_run [ev] w) evs (sim_run evs (sim_run [ev] w)) ->
  run_events zero_junk always_ok 11 w (ev :: evs) (sim_run (ev :: evs) w).
Proof.
  intros Hev Hret Hrun. cbn [sim_run] in *.
  destruct (run_event _ _ _ ev w) as [[[] w']| | |] eqn:E; try done. by eapply run_cons.
Qed.

Lemma sim_run_last (w : SimWorker) ev :
  event_ok w ev ->
  match run_event zero_junk always_ok 11 ev w with Ret _ => true | _ => false end = true ->
  run_events zero_junk always_ok 11 w [ev] (sim_run [ev] w).
Proof. intros Hev Hret. apply sim_run_cons; [done..|]. apply run_nil. Qed.

Lemma sim_rest_run : run_events zero_junk always_ok 11 (sim_run sim_events sim_start) [sim_rest] sim_asked.
Proof.
  unfold sim_asked. apply sim_run_last; [|by vm_compute].
  intros p c1 Hreg _. eapply sim_only in Hreg as ->; [|vm_compute; reflexivity..].
  split; [done|]. intros _. by vm_compute.
Qed.

Lemma sim_asked_ok : worker_ok sim_asked.
Proof.
  eapply run_events_ok; [apply always_grants| |apply sim_rest_run].
  eapply run_events_ok; [apply always_grants|apply ctor_ok|apply sim_events_run].
Qed.

Lemma sim_answer_fits (w : SimWorker) :
  _conns w = _conns sim_asked -> conn_heap w = conn_heap sim_asked -> reply_fits w sim_answer.
Proof.
  intros Hcs Hh. split; [by vm_compute|]. intros p c _ Hreg _.
  eapply sim_only in Hreg as ->; [|rewrite Hcs; by vm_compute|rewrite Hh; by vm_compute].
  apply Nat.leb_le. by vm_compute.
Qed.

Lemma sim_answered_run :
  run_events zero_junk always_ok 11 sim_asked sim_answering sim_answered.
Proof.
  unfold sim_answered, sim_answering.
  apply sim_run_cons; [done|by vm_compute|]. apply sim_run_last; [|by vm_compute].
  split; [by vm_compute|]. intros m Hm.
  assert (m = sim_answer) as -> by (vm_compute in Hm; by simplify_eq).
  apply sim_answer_fits; by vm_compute.
Qed.

Lemma sim_answered_ok : worker_ok sim_answered.
Proof.
  eapply run_events_ok; [apply always_grants|apply sim_asked_ok|apply sim_answered_run].
Qed.

Lemma sim_registered (w : SimWorker) :
  worker_ok w -> _conns w = replicate 7 None ++ Some 1%positive :: replicate 6 None ->
  registered w 1 (conn_of w) /\ fd (conn_of w) = 7 /\ conn_ok (conn_of w).
Proof.
  intros Hw Hcs. destruct (worker_registered w 7 1 Hw) as (c & Hreg & Hfd & Hok); [by rewrite Hcs|].
  unfold conn_of. destruct Hreg as (Hc & ? & ?). rewrite Hc. done.
Qed.

(** The queued packet. *)
Definition sim_pkt : list byte := concat (reply_msgs (conn_of sim_answered)).

Lemma sim_reply : reply_msgs (conn_of sim_answered) = [sim_pkt].
Proof. by vm_compute. Qed.

Lemma write_conn_delivers_witness :
  let c := conn_of sim_answered in
  let c' := drained (loop_now sim_answered) c in
  exists es, sent (fd c) es = concat (reply_msgs c) /\ Forall (writes_to (fd c)) es /\
    _write_conn 11 (fd c) [WriteErr 11; Wrote 80] sim_answered =
      Ret (tt, set_heap (<[1%positive := c']> (conn_heap sim_answered)) (with_effects es sim_answered)) /\
    interest (_io_watcher c') = READ.
Proof.
  destruct (sim_registered sim_answered sim_answered_ok) as (Hreg & Hfd & Hok); [by vm_compute|].
  apply (write_conn_delivers 11 sim_answered 1 (conn_of sim_answered) [WriteErr 11; Wrote 80] Hreg Hok).
  - rewrite Hfd. done.
  - rewrite sim_reply. replace 80%nat with (length sim_pkt) by by vm_compute.
    apply whole_again. apply whole_write. apply whole_nil.
  - rewrite sim_reply. apply Forall_singleton. unfold msg_fits.
    replace (length sim_pkt) with 80%nat by by vm_compute. clear; done.
Defined.

Lemma write_loop_partial_witness :
  let c := MkConn 7 "10.0.0.1" 4242 (create_io_event tt) (create_timer 1%positive true)
             (Sds 0 0 [x00]) 36 0 0 0 [[x01; x02; x03]] in
  let w : SimWorker := set_heap {[1%positive := c]} sim_start in
  exists w', write_loop 11 [Wrote 2; Wrote 1] 1 7 0 w = Ret (true, w') /\
    conn_heap w' !! 1%positive = Some (set_reply_msgs [] c) /\
    effects w' = effects w ++ [EWrite 7 [x01; x02]; EWrite 7 [x01]] /\
    (sent 7 [EWrite (Cert := unit) 7 [x01; x02]; EWrite 7 [x01]] = [x01; x02; x03] <->
     1%nat = 1%nat /\ [x01] = [x03]).
Proof.
  intros c w. apply (write_loop_partial 11 w 1 c [x01; x02; x03] 2 1); try done; simpl; lia.
Defined.

Lemma response_bytes_framed_witness :
  let header := take 36 (sim_packet XHEAD_MAGIC_NUM) in
  (exists pkt, response_bytes zero_junk header [x7b; x7d] = Ret pkt /\ drop 36 pkt = [x7b; x7d]) /\
  response_bytes zero_junk header (repeat x20 (Z.to_nat 4097)) = Ub OutOfBounds.
Proof.
  intros header. split.
  - destruct (response_bytes_framed zero_junk header [x7b; x7d]) as [Hok _]; [done|].
    destruct Hok as (pkt & Hr & _ & _ & _ & Hd & _); [done|]. by exists pkt.
  - apply (response_bytes_framed zero_junk header (repeat x20 (Z.to_nat 4097))); [done|].
    rewrite repeat_length. done.
Defined.

Lemma response_addressed_witness :
  let c := conn_of sim_asked in
  exists c' pkt, _response_server_offer zero_junk always_ok sim_answer sim_asked =
      Ret (tt, set_heap (<[1%positive := c']> (conn_heap sim_asked)) sim_asked) /\
    response_bytes zero_junk (take 36 (sds_val (querybuf c)))
      (writeString (response_fields sim_answer)) = Ret pkt /\
    c' = set_watcher (_io_watcher c') (set_reply_msgs (reply_msgs c ++ [pkt]) c) /\
    interest (_io_watcher c') = Z.lor READ WRITE.
Proof.
  destruct (sim_registered sim_asked sim_asked_ok) as (Hreg & Hfd & Hok); [by vm_compute|].
  destruct (response_addressed zero_junk always_ok always_grants sim_asked sim_answer sim_asked_ok) as [Hyes _].
  assert (Hmsg : fd (conn_of sim_asked) = msg_fd sim_answer) by (rewrite Hfd; reflexivity).
  assert (Hlen : (36 <= length (sds_val (querybuf (conn_of sim_asked))))%nat) by (apply Nat.leb_le; by vm_compute).
  assert (Hfit : Z.of_nat (length (writeString (response_fields sim_answer))) <= MAX_RES_BUF) by by vm_compute.
  exact (Hyes 1%positive (conn_of sim_asked) (conj eq_refl (conj Hreg (conj Hmsg eq_refl))) Hlen Hfit).
Defined.

(** The client that asked goes away, and another one is given its descriptor and,
    by the allocator, the address of its object; the answer that comes back then
    is queued for the new client. *)
Definition sim_reused : list (event (Cert := unit)) :=
  [EvIo 3 7 READ (ReadBytes []) [] 0; EvNewConn true 7;
   EvNotify (NewConnEnv 0 0 0 (Some ("10.0.0.2"%string, 999)) 1%positive);
   EvIo 3 7 READ (ReadBytes (take 40 (sim_packet XHEAD_MAGIC_NUM))) [] 0;
   EvRtcMsg true sim_answer; EvNotify (NewConnEnv 0 0 0 None 2%positive)].

Example reused_address :
  let c := conn_of (sim_run sim_reused sim_asked) in
  (ip c, port c, length (sds_val (querybuf c)), map (@length byte) (reply_msgs c)) = ("10.0.0.2"%string, 999, 40%nat, [80%nat]).
Proof. vm_compute. reflexivity. Qed.

(** The client of [sim_asked] stays silent for a minute. *)
Definition sim_silent : SimWorker := set_now 60000060 sim_asked.

Lemma set_now_ok (w : SimWorker) now : worker_ok w -> worker_ok (set_now now w).
Proof. intros Hw. by eapply worker_ok_same. Qed.


Lemma destroy_worker_closes_witness :
  exists w', destroy_worker sim_asked = Ret (tt, w') /\
    effects w' = effects sim_asked ++ [EClose 7; EClose 7] /\
    _conns w' = [] /\ _thread w' = None /\
    (forall p, Some p ∈ _conns sim_asked -> conn_heap w' !! p = None).
Proof.
  assert (Hth : _thread sim_asked = None) by by vm_compute.
  assert (Hslots : close_effects (Cert := unit) (used_slots 0 (_conns sim_asked)) = [EClose 7; EClose 7])
    by by vm_compute.
  destruct (destroy_worker_closes sim_asked sim_asked_ok) as [_ Hd].
  rewrite Hth, Hslots in Hd. by apply Hd.
Defined.
