(* ===== verification/WorkerTrace.v ===== *)
(** * What a signaling worker hands on

    The requests a worker gives to the RTC server and the answers it takes from
    its queue, over any event: the requests name the worker that made them, and
    the answers leave the queue from its front. *)

From S2P Require Import Prelude Sds Defs LockFreeQueue EventLoop Socket SignalingWorker WorkerFraming WorkerInv.
#[local] Open Scope Z_scope.
#[local] Open Scope xrtc_scope.

Section trace.
Context `{Compiler} `{LibEv} `{JsonCpp} {Cert Q : Type} `{FifoQueue Z Q}.
Context (junk : nat -> byte) (malloc_ok : Z -> bool) (EAGAIN : Z).

Notation Worker := (Worker (Cert := Cert) (Q := Q)).
Notation Msg := (RtcMsg Cert).
Implicit Types (w : Worker) (m : Msg) (p : positive).

(** The messages among the effects of a worker. *)
Definition requests (es : list (effect (Cert := Cert))) : list Msg :=
  omap (fun e => match e with ERtc m => Some m | _ => None end) es.

Lemma requests_app es es' : requests (es ++ es') = requests es ++ requests es'.
Proof. unfold requests. apply omap_app. Qed.

(** A request as worker [i] makes it: for a push, not answered yet. *)
Definition asked_by (i : Z) (m : Msg) : Prop :=
  woeker m = Some i /\ cmdno m = CMDNO_PUSH /\ certificate m = None /\ sdp m = ""%string.

Record hands_on (w w' : Worker) : Prop := {
  ho_id : _worker_id w' = _worker_id w;
  ho_asked : exists ms, requests (effects w') = requests (effects w) ++ ms /\
    Forall (asked_by (_worker_id w)) ms;
  ho_taken : exists ms, _q_rtc_msg w = ms ++ _q_rtc_msg w';
}.

#[export] Instance hands_on_preorder : PreOrder hands_on.
Proof.
  split.
  - intros w. split; [done| |by exists []]. exists []. by rewrite app_nil_r.
  - intros w1 w2 w3 [Hi1 (a1 & Ha1 & Hf1) (t1 & Ht1)] [Hi2 (a2 & Ha2 & Hf2) (t2 & Ht2)].
    split; [congruence| |].
    + exists (a1 ++ a2). rewrite Ha2, Ha1, app_assoc. split; [done|].
      apply Forall_app_2; [done|]. by rewrite <- Hi1.
    + exists (t1 ++ t2). by rewrite Ht1, Ht2, app_assoc.
Qed.

(** Changes outside the trace. *)
Lemma hands_on_same w w' :
  _worker_id w' = _worker_id w -> effects w' = effects w -> _q_rtc_msg w' = _q_rtc_msg w ->
  hands_on w w'.
Proof.
  intros Hi He Hq. split; [done| |exists []; by rewrite Hq].
  exists []. by rewrite He, app_nil_r.
Qed.

Notation keeps := (keeps hands_on).

Lemma modify_same (f : Worker -> Worker) :
  (forall w, _worker_id (f w) = _worker_id w) -> (forall w, effects (f w) = effects w) ->
  (forall w, _q_rtc_msg (f w) = _q_rtc_msg w) -> keeps (modify f).
Proof. intros. apply keeps_modify. intros w. by apply hands_on_same. Qed.
#[local] Hint Extern 1 (Prelude.keeps hands_on (modify _)) => (apply modify_same; done) : keeps.

Lemma get_conn_keeps p : keeps (get_conn p).
Proof. intros w a w' Hr. unfold get_conn in Hr. destruct (_ !! _); by simplify_eq. Qed.
Lemma find_conn_keeps lo f : keeps (find_conn lo f).
Proof. intros w a w' Hr. unfold find_conn in Hr. case_decide; by simplify_eq. Qed.
Lemma store_slot_keeps i x : keeps (store_slot i x).
Proof. intros w a w' Hr. unfold store_slot in Hr. case_decide; simplify_eq. by apply hands_on_same. Qed.
#[local] Hint Resolve get_conn_keeps find_conn_keeps store_slot_keeps : keeps.

Lemma put_conn_keeps p c : keeps (put_conn p c).
Proof. unfold put_conn. keeps. Qed.

Lemma emit_keeps (e : effect) :
  match e with ERtc _ => False | _ => True end -> keeps (emit e).
Proof.
  intros He. apply keeps_modify. intros w. split; [done| |by exists []].
  exists []. destruct e; try done; simpl; by rewrite requests_app.
Qed.
#[local] Hint Extern 1 (Prelude.keeps hands_on (emit _)) => (apply emit_keeps; done) : keeps.
#[local] Hint Resolve put_conn_keeps : keeps.

Lemma close_conn_keeps p : keeps (_close_conn p).
Proof. unfold _close_conn, _remove_conn, delete_TcpConnection. keeps. Qed.
#[local] Hint Resolve close_conn_keeps : keeps.

(** The only place where a request leaves: it names this worker. *)
Lemma process_push_keeps p root log send_ret : keeps (_process_push CMDNO_PUSH p root log send_ret).
Proof.
  unfold _process_push.
  do 4 (destruct (member root _ _); [|apply keeps_ret, _]). apply keeps_get_bind. intros w b w' Hr.
  apply M_bind_ret in Hr as (c & w1 & Hc & Hr). unfold get_conn in Hc.
  destruct (_ !! p); simplify_eq. injection Hr as _ <-.
  split; [done| |by exists []]. eexists. simpl. rewrite requests_app. split; [done|].
  by repeat constructor.
Qed.
#[local] Hint Resolve process_push_keeps : keeps.

Lemma process_request_keeps p header body send_ret : keeps (_process_request p header body send_ret).
Proof. unfold _process_request. keeps.  Qed.
#[local] Hint Resolve process_request_keeps : keeps.

Lemma query_buffer_keeps fuel p send_ret : keeps (_process_query_buffer fuel p send_ret).
Proof. induction fuel as [|fuel IH]; cbn [_process_query_buffer]; keeps. Qed.
#[local] Hint Resolve query_buffer_keeps : keeps.

Lemma read_conn_keeps fuel f r send_ret : keeps (_read_conn junk malloc_ok EAGAIN fuel f r send_ret).
Proof. unfold _read_conn. keeps. Qed.

Lemma write_loop_keeps ws p f pos : keeps (write_loop EAGAIN ws p f pos).
Proof. revert pos. induction ws as [|x ws IH]; intros pos; cbn [write_loop]; keeps. Qed.
#[local] Hint Resolve read_conn_keeps write_loop_keeps : keeps.

Lemma write_conn_keeps f ws : keeps (_write_conn EAGAIN f ws).
Proof. unfold _write_conn. keeps. Qed.
#[local] Hint Resolve write_conn_keeps : keeps.

Lemma conn_io_keeps fuel f events r ws send_ret :
  keeps (conn_io_cb junk malloc_ok EAGAIN fuel f events r ws send_ret).
Proof. unfold conn_io_cb. keeps. Qed.

Lemma timer_keeps t : keeps (conn_timer_cb t).
Proof. unfold conn_timer_cb, _process_timeout. keeps. Qed.

Lemma response_keeps m : keeps (_response_server_offer junk malloc_ok m).
Proof. unfold _response_server_offer, _add_reply. keeps. Qed.
#[local] Hint Resolve response_keeps : keeps.

Lemma pop_keeps : keeps pop_rtc_msg.
Proof.
  unfold pop_rtc_msg. apply keeps_get_bind. intros w b w' Hr.
  destruct (_q_rtc_msg w) as [|m ms] eqn:Hq; inv_M Hr; [done|].
  split; [done| |by exists [m]]. exists []. by rewrite app_nil_r.
Qed.
#[local] Hint Resolve pop_keeps : keeps.

Lemma notify_keeps e : keeps (signaling_warker_recv_notify junk malloc_ok e).
Proof.
  unfold signaling_warker_recv_notify, _process_notify, _stop, _process_rtc_msg, _new_conn,
    new_TcpConnection. keeps.
Qed.

(** The events of a worker that come from outside the two servers. *)
Definition from_outside (ev : event (Cert := Cert)) : Prop :=
  match ev with EvRtcMsg _ _ => False | _ => True end.

Lemma run_event_hands_on ev w w' :
  from_outside ev -> run_event junk malloc_ok EAGAIN ev w = Ret (tt, w') -> hands_on w w'.
Proof.
  intros Hev. assert (Hk : keeps (run_event junk malloc_ok EAGAIN ev)); [|by apply Hk].
  destruct ev; cbn [run_event]; try done;
    [apply conn_io_keeps|apply timer_keeps|apply notify_keeps|..].
  - keeps.
  - unfold notify_new_conn, notify. keeps.
Qed.

End trace.
