(* ===== verification/StringEncode.v ===== *)
(** * [rtc_base/string_encode.cc] and [rtc_base/ssl_fingerprint.cc]

    Hexadecimal encoding with an optional delimiter and its inverse, the
    splitting and joining of delimited strings, and the fingerprint of a
    certificate as RFC 4572 writes it.  A [std::string] is its list of bytes;
    [None] for a delimiter is the character 0. *)

From S2P Require Import Prelude.
#[local] Open Scope Z_scope.
#[local] Open Scope xrtc_scope.

(** ** Hexadecimal digits *)

Definition HEX : list byte := string_bytes "0123456789abcdef".

Definition hex_encode (val : Z) : byte :=
  if val <? 16 then default x00 (HEX !! Z.to_nat val) else x21.

(** [None]: not a hexadecimal digit. *)
Definition hex_decode (ch : byte) : option Z :=
  let c := b2z ch in
  if (b2z x30 <=? c) && (c <=? b2z x39) then Some (c - b2z x30)
  else if (b2z x41 <=? c) && (c <=? b2z x46) then Some (c - b2z x41 + 10)
  else if (b2z x61 <=? c) && (c <=? b2z x66) then Some (c - b2z x61 + 10)
  else None.

Definition hex_encode_output_length (srclen : nat) (delimiter : option byte) : nat :=
  match delimiter with
  | Some _ => if (0 <? srclen)%nat then srclen * 3 - 1 else srclen * 2
  | None => srclen * 2
  end.

(** The characters the loop of [hex_encode_with_delimiter] stores one after the
    other from [buffer[0]] on. *)
Fixpoint hex_encode_loop (source : list byte) (delimiter : option byte) : list byte :=
  match source with
  | [] => []
  | ch :: rest =>
      [hex_encode (Z.land (Z.shiftr (b2z ch) 4) 15); hex_encode (Z.land (b2z ch) 15)] ++
      match delimiter, rest with
      | Some d, _ :: _ => [d]
      | _, _ => []
      end ++ hex_encode_loop rest delimiter
  end.

(** The string is allocated first, and the loop writes into it. *)
Definition hex_encode_with_delimiter (source : list byte) (delimiter : option byte) : res (list byte) :=
  let s := replicate (hex_encode_output_length (length source) delimiter) x00 in
  let out := hex_encode_loop source delimiter in
  if decide (length out <= length s)%nat then Ret (splice s 0 out) else Ub OutOfBounds.

(** The loop of [hex_decode_with_delimiter]: [None] for the result 0. *)
Fixpoint hex_decode_loop (source : list byte) (delimiter : option byte) : option (list byte) :=
  match source with
  | [] => Some []
  | [_] => None
  | c1 :: c2 :: rest =>
      match hex_decode c1, hex_decode c2 with
      | Some h1, Some h2 =>
          let b := z2b (Z.lor (Z.shiftl h1 4) h2) in
          match delimiter, rest with
          | Some d, c :: ((_ :: _) as rest') =>
              if decide (c = d) then cons b <$> hex_decode_loop rest' delimiter else None
          | _, _ => cons b <$> hex_decode_loop rest delimiter
          end
      | _, _ => None
      end
  end.

(** The bytes written at the start of the buffer of [buflen] bytes; their
    number is the return value, and no byte counts as written on an error. *)
Definition hex_decode_with_delimiter (buflen : nat) (source : list byte) (delimiter : option byte)
    : list byte :=
  if (buflen =? 0)%nat then []
  else
    let srclen := length source in
    let needed := match delimiter with
                  | Some _ => Nat.div (srclen + 1) 3 | None => Nat.div srclen 2 end in
    if (buflen <? needed)%nat then [] else default [] (hex_decode_loop source delimiter).

(** ** Delimited strings *)

(** The loop of [split]: [field] is [source[last..i)]. *)
Fixpoint split_loop (source : list byte) (delimiter : byte) (field : list byte) : list (list byte) :=
  match source with
  | [] => [field]
  | c :: source =>
      if decide (c = delimiter) then field :: split_loop source delimiter []
      else split_loop source delimiter (field ++ [c])
  end.
Definition split (source : list byte) (delimiter : byte) : list (list byte) :=
  split_loop source delimiter [].

(** [tokenize] leaves the empty fields out. *)
Fixpoint tokenize_loop (source : list byte) (delimiter : byte) (field : list byte) : list (list byte) :=
  let emit := match field with [] => [] | _ => [field] end in
  match source with
  | [] => emit
  | c :: source =>
      if decide (c = delimiter) then emit ++ tokenize_loop source delimiter []
      else tokenize_loop source delimiter (field ++ [c])
  end.
Definition tokenize (source : list byte) (delimiter : byte) : list (list byte) :=
  tokenize_loop source delimiter [].

(** The first token and what follows the run of delimiters after it. *)
Fixpoint skip_delimiters (source : list byte) (delimiter : byte) : list byte :=
  match source with
  | c :: rest => if decide (c = delimiter) then skip_delimiters rest delimiter else source
  | [] => []
  end.
Fixpoint tokenize_first (source : list byte) (delimiter : byte) : option (list byte * list byte) :=
  match source with
  | [] => None
  | c :: source =>
      if decide (c = delimiter) then Some ([], skip_delimiters source delimiter)
      else '(token, rest) ← tokenize_first source delimiter; Some (c :: token, rest)
  end.

Fixpoint join_loop (source : list (list byte)) (delimiter : byte) (first : bool) : list byte :=
  match source with
  | [] => []
  | s :: source => (if first then [] else [delimiter]) ++ s ++ join_loop source delimiter false
  end.
Definition join (source : list (list byte)) (delimiter : byte) : list byte :=
  join_loop source delimiter true.

Definition ToString_bool (b : bool) : string := if b then "true" else "false".
Definition FromString_bool (s : string) : option bool :=
  if decide (s = "false") then Some false else if decide (s = "true") then Some true else None.

(** ** [message_digest.cc], [ssl_fingerprint.cc] *)

Definition IsFips180DigestAlgorithm (alg : string) : bool :=
  bool_decide (alg = "sha-1" \/ alg = "sha-224" \/ alg = "sha-256" \/ alg = "sha-384" \/ alg = "sha-512").

(** [MessageDigest::kMaxSize]. *)
Definition kMaxSize : nat := 64.

Record SSLFingerprint := MkFingerprint { algorithm : string; digest : list byte }.

(** [::toupper] in the C locale. *)
Definition toupper (c : byte) : byte :=
  if (b2z x61 <=? b2z c) && (b2z c <=? b2z x7a) then z2b (b2z c - 32) else c.

Definition GetRfc4572Fingerprint (f : SSLFingerprint) : res (list byte) :=
  s ← hex_encode_with_delimiter (digest f) (Some x3a); Ret (map toupper s).

Definition SSLFingerprint_ToString (f : SSLFingerprint) : res (list byte) :=
  s ← GetRfc4572Fingerprint f; Ret (string_bytes (algorithm f) ++ [x20] ++ s).

Definition CreateUniqueFromRfc4572 (alg : string) (fingerprint : list byte) : option SSLFingerprint :=
  if decide (alg = "") then None
  else if negb (IsFips180DigestAlgorithm alg) then None
  else match fingerprint with
  | [] => None
  | _ =>
      match hex_decode_with_delimiter kMaxSize fingerprint (Some x3a) with
      | [] => None
      | value => Some (MkFingerprint alg value)
      end
  end.

(** ** Hexadecimal: lemmas *)

Lemma hex_nibbles (b : byte) :
  let hi := Z.land (Z.shiftr (b2z b) 4) 15 in let lo := Z.land (b2z b) 15 in
  hex_decode (hex_encode hi) = Some hi /\ hex_decode (hex_encode lo) = Some lo /\
  hex_decode (toupper (hex_encode hi)) = Some hi /\ hex_decode (toupper (hex_encode lo)) = Some lo /\
  z2b (Z.lor (Z.shiftl hi 4) lo) = b.
Proof. destruct b; vm_compute; auto 6. Qed.

Lemma hex_encode_loop_length source d :
  length (hex_encode_loop source d) = hex_encode_output_length (length source) d.
Proof.
  unfold hex_encode_output_length. induction source as [|b source IH]; [by destruct d|].
  cbn [hex_encode_loop]. rewrite !length_app, IH. destruct source, d; simpl; lia.
Qed.

(** Writing into the allocated string gives the characters of the loop. *)
Lemma hex_encode_with_delimiter_eq source d :
  hex_encode_with_delimiter source d = Ret (hex_encode_loop source d).
Proof.
  unfold hex_encode_with_delimiter. rewrite length_replicate.
  rewrite decide_True by (by rewrite hex_encode_loop_length). f_equal.
  unfold splice. rewrite drop_ge, app_nil_r; [done|].
  by rewrite length_replicate, hex_encode_loop_length.
Qed.

(** Decoding undoes encoding, also after a change of letter case ([f]). *)
Lemma hex_decode_encode_loop (f : byte -> byte) source d :
  (forall b, hex_decode (f (hex_encode (Z.land (Z.shiftr (b2z b) 4) 15))) =
             Some (Z.land (Z.shiftr (b2z b) 4) 15)) ->
  (forall b, hex_decode (f (hex_encode (Z.land (b2z b) 15))) = Some (Z.land (b2z b) 15)) ->
  (forall x, d = Some x -> f x = x) ->
  hex_decode_loop (map f (hex_encode_loop source d)) d = Some source.
Proof.
  intros Hhi Hlo Hd. induction source as [|b source IH]; [done|].
  destruct (hex_nibbles b) as (_ & _ & _ & _ & Hb).
  destruct source as [|b' source].
  - destruct d; cbn [hex_encode_loop app map hex_decode_loop]; by rewrite Hhi, Hlo, Hb.
  - assert (exists c1 c2 rest, map f (hex_encode_loop (b' :: source) d) = c1 :: c2 :: rest)
      as (c1 & c2 & rest & Htail) by (cbn [hex_encode_loop app map]; eauto).
    rewrite Htail in IH.
    assert (Henc : map f (hex_encode_loop (b :: b' :: source) d) =
      f (hex_encode (Z.land (Z.shiftr (b2z b) 4) 15)) :: f (hex_encode (Z.land (b2z b) 15)) ::
      match d with Some x => [f x] | None => [] end ++ c1 :: c2 :: rest).
    { rewrite <- Htail. by destruct d. }
    rewrite Henc. destruct d as [x|]; cbn [app hex_decode_loop]; rewrite Hhi, Hlo, Hb.
    + rewrite (Hd x eq_refl), decide_True by done. cbn [hex_decode_loop] in IH.
      by rewrite IH.
    + cbn [hex_decode_loop] in IH. by rewrite IH.
Qed.

Lemma needed_encoded source d :
  match d with Some _ => Nat.div (length (hex_encode_loop source d) + 1) 3
             | None => Nat.div (length (hex_encode_loop source d)) 2 end = length source.
Proof.
  rewrite hex_encode_loop_length. unfold hex_encode_output_length. destruct d as [x|].
  - destruct source as [|b source]; [done|]. cbn [Nat.ltb Nat.leb length].
    replace (S (length source) * 3 - 1 + 1)%nat with (S (length source) * 3)%nat by lia.
    by rewrite Nat.div_mul.
  - by rewrite Nat.div_mul.
Qed.

(** ** Splitting and joining: lemmas *)

Lemma split_loop_app d field xs rest :
  d ∉ xs -> split_loop (xs ++ rest) d field = split_loop rest d (field ++ xs).
Proof.
  revert field. induction xs as [|x xs IH]; intros field Hd; simpl; [by rewrite app_nil_r|].
  apply not_elem_of_cons in Hd as [Hx Hd]. rewrite decide_False by done.
  by rewrite IH, <- app_assoc by done.
Qed.

Lemma split_join_loop d f fs :
  d ∉ f -> Forall (fun x => d ∉ x) fs ->
  split_loop (f ++ join_loop fs d false) d [] = f :: fs.
Proof.
  intros Hf Hfs. revert f Hf. induction Hfs as [|g fs Hg Hfs IH]; intros f Hf.
  - simpl. rewrite split_loop_app by done. done.
  - cbn [join_loop app]. rewrite split_loop_app by done. cbn [split_loop app].
    rewrite decide_True by done. by rewrite IH.
Qed.

Lemma join_split_loop d s field :
  exists f fs, split_loop s d field = f :: fs /\ f ++ join_loop fs d false = field ++ s.
Proof.
  revert field. induction s as [|c s IH]; intros field; cbn [split_loop].
  - exists field, []. done.
  - case_decide as Hc.
    + subst c. destruct (IH []) as (f & fs & -> & Hj). exists field, (f :: fs). split; [done|].
      cbn [join_loop app]. by rewrite Hj.
    + destruct (IH (field ++ [c])) as (f & fs & -> & Hj). exists f, fs. split; [done|].
      by rewrite Hj, <- app_assoc.
Qed.

Lemma tokenize_split_loop d s field :
  tokenize_loop s d field = filter (fun f => f <> []) (split_loop s d field).
Proof.
  revert field. induction s as [|c s IH]; intros field; cbn [tokenize_loop split_loop].
  - destruct field; [done|]. by rewrite filter_cons_True.
  - case_decide.
    + rewrite IH. destruct field; [done|]. by rewrite (filter_cons_True _ (_ :: _)).
    + apply IH.
Qed.

(** ** Properties *)

(** Hexadecimal encoding never writes outside the string it allocates, and
    decoding with the same delimiter into a large enough buffer gives the bytes
    back, with or without a delimiter and whatever the delimiter is. *)
Theorem hex_roundtrip source d buflen :
  (length source <= buflen)%nat ->
  exists s, hex_encode_with_delimiter source d = Ret s /\
    length s = hex_encode_output_length (length source) d /\
    hex_decode_with_delimiter buflen s d = source.
Proof.
  intros Hlen. rewrite hex_encode_with_delimiter_eq. eexists. split; [done|].
  split; [apply hex_encode_loop_length|]. unfold hex_decode_with_delimiter.
  destruct (Nat.eqb_spec buflen 0) as [Hz|Hz]; [destruct source; [done|simpl in Hlen; lia]|].
  cbv zeta. rewrite needed_encoded. rewrite (proj2 (Nat.ltb_ge _ _)) by done.
  rewrite <- (map_id (hex_encode_loop source d)).
  rewrite (hex_decode_encode_loop (fun b => b)); [done| | |done].
  - intros b. apply (hex_nibbles b).
  - intros b. apply (hex_nibbles b).
Qed.

Lemma hex_roundtrip_witness :
  exists s, hex_encode_with_delimiter [x00; xff; x1a] (Some x3a) = Ret s /\
    length s = 8%nat /\ hex_decode_with_delimiter 3 s (Some x3a) = [x00; xff; x1a].
Proof. apply (hex_roundtrip [x00; xff; x1a] (Some x3a) 3). simpl. lia. Defined.

(** A fingerprint survives being printed in the upper-case form of RFC 4572
    and parsed again, for every FIPS 180 algorithm and every digest of 1 to 64
    bytes. *)
Theorem fingerprint_roundtrip f :
  IsFips180DigestAlgorithm (algorithm f) = true -> (0 < length (digest f) <= kMaxSize)%nat ->
  exists s, GetRfc4572Fingerprint f = Ret s /\
    length s = (3 * length (digest f) - 1)%nat /\
    CreateUniqueFromRfc4572 (algorithm f) s = Some f.
Proof.
  intros Halg Hlen. unfold GetRfc4572Fingerprint. rewrite hex_encode_with_delimiter_eq.
  eexists. split; [done|].
  assert (Hl : length (map toupper (hex_encode_loop (digest f) (Some x3a))) =
    (3 * length (digest f) - 1)%nat).
  { rewrite length_map, hex_encode_loop_length. unfold hex_encode_output_length.
    rewrite (proj2 (Nat.ltb_lt _ _)) by lia. lia. }
  split; [done|]. unfold CreateUniqueFromRfc4572.
  rewrite decide_False by (intros Hn; by rewrite Hn in Halg). rewrite Halg. cbn [negb].
  destruct (map toupper _) as [|x xs] eqn:Hs; [simpl in Hl; lia|]. rewrite <- Hs.
  unfold hex_decode_with_delimiter. rewrite (proj2 (Nat.eqb_neq kMaxSize 0)) by done. cbv zeta.
  pose proof (needed_encoded (digest f) (Some x3a)) as Hneed. cbv beta iota in Hneed.
  rewrite length_map, Hneed.
  rewrite (proj2 (Nat.ltb_ge _ _)) by lia.
  rewrite (hex_decode_encode_loop toupper).
  - simpl. destruct f as [alg [|b bs]]; [simpl in Hlen; lia|]. done.
  - intros b. apply (hex_nibbles b).
  - intros b. apply (hex_nibbles b).
  - by intros y [= <-].
Qed.

Lemma fingerprint_roundtrip_witness :
  let f := MkFingerprint "sha-256" (map z2b (seqZ 200 32)) in
  exists s, GetRfc4572Fingerprint f = Ret s /\ length s = 95%nat /\
    CreateUniqueFromRfc4572 "sha-256" s = Some f.
Proof.
  intros f. apply (fingerprint_roundtrip f); [by vm_compute|]. vm_compute. lia.
Defined.

(** [split] and [join] are inverse to each other (on fields without the
    delimiter, and there is always at least one field), and [tokenize] is
    [split] without the empty fields. *)
Theorem split_join d :
  (forall fs, fs <> [] -> Forall (fun f => d ∉ f) fs -> split (join fs d) d = fs) /\
  (forall s, join (split s d) d = s) /\
  (forall s, tokenize s d = filter (fun f => f <> []) (split s d)).
Proof.
  split_and!.
  - intros [|f fs] Hne Hfs; [done|]. apply Forall_cons in Hfs as [Hf Hfs].
    by apply split_join_loop.
  - intros s. destruct (join_split_loop d s []) as (f & fs & Hs & Hj).
    unfold split, join. rewrite Hs. by cbn [join_loop app].
  - intros s. apply tokenize_split_loop.
Qed.

Lemma split_join_witness : split (join [[x61]; []; [x62; x63]] x2c) x2c = [[x61]; []; [x62; x63]].
Proof.
  apply (split_join x2c); [done|].
  repeat (apply Forall_cons; split); [..|apply Forall_nil; done];
    intros Hin; repeat (apply elem_of_cons in Hin as [?|Hin]; [done|]);
    by apply elem_of_nil in Hin.
Defined.
