(* ===== verification/Logging.v ===== *)
(** * [rtc_base/logging.cc]: log messages and the sinks they are handed to

    The static state of [rtc::LogMessage] with its list of sinks, which is
    threaded through the sinks themselves ([next_]); [RTC_LOG] from its test of
    [IsNoop] to the calls of [OnLogMessage].  Times, thread numbers and the texts
    of floating point numbers are given with each call. *)

From stdpp Require Import pretty.
From S2P Require Import Prelude StringEncode.
#[local] Open Scope Z_scope.
#[local] Open Scope xrtc_scope.

(** [rtc::LoggingSeverity]. *)
Definition LS_VERBOSE : Z := 0.
Definition LS_INFO : Z := 1.
Definition LS_WARNING : Z := 2.
Definition LS_ERROR : Z := 3.
Definition LS_NONE : Z := 4.

(** ** State *)

Record LogSink := MkSink { next_ : option positive; min_severity_ : Z }.

(** The static variables, the sinks that exist, and what has been done: the
    calls of [OnLogMessage] and the texts written to stderr. *)
Record LogState := MkLogState {
  g_min_sev : Z;
  g_dbg_sev : Z;
  streams_ : option positive;
  streams_empty_ : bool;
  thread_ : bool;
  timestamp_ : bool;
  log_to_stderr_ : bool;
  log_path_prefix_ : string;
  g_start : option Z;           (* the static of [LogStartTime] *)
  sinks : gmap positive LogSink;
  delivered : list (positive * string * Z);
  stderr_out : list string;
}.

Definition set_levels (mn dbg : Z) (s : LogState) : LogState :=
  MkLogState mn dbg (streams_ s) (streams_empty_ s) (thread_ s) (timestamp_ s) (log_to_stderr_ s)
    (log_path_prefix_ s) (g_start s) (sinks s) (delivered s) (stderr_out s).
Definition set_streams (st : option positive) (e : bool) (h : gmap positive LogSink) (s : LogState) : LogState :=
  MkLogState (g_min_sev s) (g_dbg_sev s) st e (thread_ s) (timestamp_ s) (log_to_stderr_ s)
    (log_path_prefix_ s) (g_start s) h (delivered s) (stderr_out s).
Definition set_format (th ts err : bool) (prefix : string) (start : option Z) (s : LogState) : LogState :=
  MkLogState (g_min_sev s) (g_dbg_sev s) (streams_ s) (streams_empty_ s) th ts err prefix start
    (sinks s) (delivered s) (stderr_out s).
Definition add_delivered (p : positive) (str : string) (sev : Z) (s : LogState) : LogState :=
  MkLogState (g_min_sev s) (g_dbg_sev s) (streams_ s) (streams_empty_ s) (thread_ s) (timestamp_ s)
    (log_to_stderr_ s) (log_path_prefix_ s) (g_start s) (sinks s) (delivered s ++ [(p, str, sev)]) (stderr_out s).
Definition add_stderr (str : string) (s : LogState) : LogState :=
  MkLogState (g_min_sev s) (g_dbg_sev s) (streams_ s) (streams_empty_ s) (thread_ s) (timestamp_ s)
    (log_to_stderr_ s) (log_path_prefix_ s) (g_start s) (sinks s) (delivered s) (stderr_out s ++ [str]).

(** At the start of the program, built with [-DNDEBUG]. *)
Definition log_static (h : gmap positive LogSink) : LogState :=
  MkLogState LS_VERBOSE LS_VERBOSE None true false false true "" None h [] [].

(** ** Levels and sinks *)

(** A walk along [next_], one unit of fuel per sink: a list without repetition
    is no longer than the number of sinks. *)
Definition list_fuel (s : LogState) : nat := size (sinks s).

Fixpoint walk {A} (fuel : nat) (h : gmap positive LogSink) (f : A -> positive -> LogSink -> A) (a : A)
    (entry : option positive) : res A :=
  match entry with
  | None => Ret a
  | Some p =>
      match fuel with
      | O => OutOfFuel
      | S fuel =>
          match h !! p with
          | None => Ub UseAfterFree
          | Some k => walk fuel h f (f a p k) (next_ k)
          end
      end
  end.

Definition UpdateMinLogSeverity : M LogState unit :=
  s ← get;
  mn ← lift (walk (list_fuel s) (sinks s) (fun mn _ k => Z.min mn (min_severity_ k)) (g_dbg_sev s) (streams_ s));
  modify (set_levels mn (g_dbg_sev s)).

Definition GetMinLogSeverity (s : LogState) : Z := g_min_sev s.
Definition GetLogToDebug (s : LogState) : Z := g_dbg_sev s.
Definition LogCheckLevel (sev : Z) (s : LogState) : bool := GetMinLogSeverity s <=? sev.

Definition LogThreads (on : bool) : M LogState unit :=
  modify (fun s => set_format on (timestamp_ s) (log_to_stderr_ s) (log_path_prefix_ s) (g_start s) s).
Definition LogTimestamps (on : bool) : M LogState unit :=
  modify (fun s => set_format (thread_ s) on (log_to_stderr_ s) (log_path_prefix_ s) (g_start s) s).
Definition SetLogPathPrefix (prefix : string) : M LogState unit :=
  modify (fun s => set_format (thread_ s) (timestamp_ s) (log_to_stderr_ s) prefix (g_start s) s).
Definition SetLogToStderr (on : bool) : M LogState unit :=
  modify (fun s => set_format (thread_ s) (timestamp_ s) on (log_path_prefix_ s) (g_start s) s).

Definition LogToDebug (min_sev : Z) : M LogState unit :=
  _ ← modify (fun s => set_levels (g_min_sev s) min_sev s);
  UpdateMinLogSeverity.

(** [None] is the null pointer: every sink counts. *)
Definition GetLogToStream (stream : option positive) : M LogState Z :=
  s ← get;
  lift (walk (list_fuel s) (sinks s)
    (fun sev p k => if bool_decide (stream = None \/ stream = Some p) then Z.min sev (min_severity_ k) else sev)
    LS_NONE (streams_ s)).

Definition AddLogToStream (stream : positive) (min_sev : Z) : M LogState unit :=
  s ← get;
  match sinks s !! stream with
  | None => ub_ UseAfterFree
  | Some _ =>
      _ ← modify (set_streams (Some stream) false (<[stream := MkSink (streams_ s) min_sev]> (sinks s)));
      UpdateMinLogSeverity
  end.

(** [for (entry = &streams_; *entry != nullptr; entry = &( *entry)->next_)]: the
    pointer to a pointer is the sink whose [next_] it is, or [None] for
    [streams_]. *)
Fixpoint unlink_loop (fuel : nat) (stream : positive) (prev entry : option positive) : M LogState unit :=
  match entry with
  | None => mret tt
  | Some p =>
      match fuel with
      | O => fun _ => OutOfFuel
      | S fuel =>
          s ← get;
          match sinks s !! p with
          | None => ub_ UseAfterFree
          | Some k =>
              if decide (p = stream) then
                match prev with
                | None => modify (set_streams (next_ k) (streams_empty_ s) (sinks s))
                | Some q =>
                    match sinks s !! q with
                    | None => ub_ UseAfterFree
                    | Some kq =>
                        modify (set_streams (streams_ s) (streams_empty_ s)
                                  (<[q := MkSink (next_ k) (min_severity_ kq)]> (sinks s)))
                    end
                end
              else unlink_loop fuel stream (Some p) (next_ k)
          end
      end
  end.

Definition RemoveLogToStream (stream : positive) : M LogState unit :=
  s ← get;
  _ ← unlink_loop (list_fuel s) stream None (streams_ s);
  _ ← modify (fun s => set_streams (streams_ s) (bool_decide (streams_ s = None)) (sinks s) s);
  UpdateMinLogSeverity.

(** The options of [ConfigureLogging], one token after the other: the current
    level and the level of the debug output. *)
Fixpoint configure_loop (tokens : list string) (current_level debug_level : Z) : M LogState Z :=
  match tokens with
  | [] => mret debug_level
  | token :: tokens =>
      let next c d := configure_loop tokens c d in
      if decide (token = ""%string) then next current_level debug_level
      else if decide (token = "tstamp"%string) then _ ← LogTimestamps true; next current_level debug_level
      else if decide (token = "thread"%string) then _ ← LogThreads true; next current_level debug_level
      else if decide (token = "verbose"%string) then next LS_VERBOSE debug_level
      else if decide (token = "info"%string) then next LS_INFO debug_level
      else if decide (token = "warning"%string) then next LS_WARNING debug_level
      else if decide (token = "error"%string) then next LS_ERROR debug_level
      else if decide (token = "none"%string) then next LS_NONE debug_level
      else if decide (token = "debug"%string) then next current_level current_level
      else next current_level debug_level
  end.

Definition ConfigureLogging (params : string) : M LogState unit :=
  s ← get;
  debug_level ← configure_loop (map bytes_string (tokenize (string_bytes params) x20)) LS_VERBOSE (GetLogToDebug s);
  LogToDebug debug_level.

Definition IsNoop (severity : Z) (s : LogState) : bool :=
  if (g_dbg_sev s <=? severity) || (g_min_sev s <=? severity) then false else streams_empty_ s.

(** ** Texts *)

Definition GetSeverityStr (sev : Z) : string :=
  if sev =? LS_VERBOSE then "VERBOSE" else if sev =? LS_INFO then "INFO"
  else if sev =? LS_WARNING then "WARNING" else if sev =? LS_ERROR then "ERROR" else "NONE".

(** [strstr] and [strrchr]: the rest of the string from the match on. *)
Fixpoint strstr (s needle : string) : option string :=
  if String.prefix needle s then Some s
  else match s with EmptyString => None | String _ s => strstr s needle end.

Fixpoint strrchr (s : string) (c : Ascii.ascii) : option string :=
  match s with
  | EmptyString => None
  | String x rest =>
      match strrchr rest c with
      | Some r => Some r
      | None => if decide (x = c) then Some s else None
      end
  end.

Definition tail (s : string) : string := match s with EmptyString => "" | String _ s => s end.

(** The later of two pointers into a string is the one with less after it. *)
Definition FilenameFromPath (prefix file : string) : string :=
  let end1 := if decide (prefix = ""%string) then strrchr file (Ascii.ascii_of_nat 47) else strstr file prefix in
  let end2 := strrchr file (Ascii.ascii_of_nat 92) in
  match end1, end2 with
  | None, None => file
  | Some e1, Some e2 => if (String.length e1 <? String.length e2)%nat then tail e1 else tail e2
  | Some e1, None => tail e1
  | None, Some e2 => tail e2
  end.

(** ["%03" PRId64]. *)
Fixpoint zeros (n : nat) : string := match n with O => "" | S n => "0" +:+ zeros n end.
Definition pad3 (z : Z) : string :=
  let sign : string := if z <? 0 then "-" else "" in
  let digits := pretty (Z.abs z) in
  sign +:+ zeros (3 - String.length sign - String.length digits) +:+ digits.

(** An argument of a log statement. *)
Inductive LogArg :=
  | kInt (z : Z)                       (* and the other integer types *)
  | kDouble (text : string)
  | kCharP (s : option string)         (* [None]: a null pointer *)
  | kStdString (s : string).

Definition render (a : LogArg) : string :=
  match a with
  | kInt z => pretty z
  | kDouble text => text
  | kCharP (Some s) => s
  | kCharP None => "(null)"
  | kStdString s => s
  end.

(** A log statement: where it is, and what the clock and the thread say. *)
Record LogCall := MkCall {
  c_file : option string;
  c_line : Z;
  c_sev : Z;
  c_now : Z;        (* [SystemTimeMillis()] *)
  c_start : Z;      (* the same, inside the first [LogStartTime()] *)
  c_tid : Z;
  c_args : list LogArg;
}.

(** The severity and the line travel in one word. *)
Definition line_and_sev_ (line sev : Z) : Z := Z.lor (u32 (Z.shiftl (u32 line) 3)) sev.
Definition meta_Line (w : Z) : Z := i32 (Z.shiftr w 3).
Definition meta_Severity (w : Z) : Z := Z.land w 7.

Definition LogStartTime (now : Z) : M LogState Z :=
  s ← get;
  match g_start s with
  | Some t => mret t
  | None =>
      _ ← modify (set_format (thread_ s) (timestamp_ s) (log_to_stderr_ s) (log_path_prefix_ s) (Some now));
      mret now
  end.

(** The constructor without an error context (all that [RTC_LOG] uses): the text
    it puts into [print_stream_]. *)
Definition LogMessage (c : LogCall) (line sev : Z) : M LogState string :=
  s ← get;
  stamp ← (if timestamp_ s then
             start ← LogStartTime (c_start c);
             let time := c_now c - start in
             mret ("[" +:+ pad3 (Z.quot time 1000) +:+ ":" +:+ pad3 (Z.rem time 1000) +:+ "]")
           else mret ""%string);
  let id : string := if thread_ s then "[" +:+ pretty (c_tid c) +:+ "] " else "" in
  let place : string :=
    match c_file c with
    | None => ""
    | Some file => "(" +:+ FilenameFromPath (log_path_prefix_ s) file +:+ ":" +:+ pretty line +:+ "): "
    end in
  mret (GetSeverityStr sev +:+ ": " +:+ stamp +:+ id +:+ place).

Definition newline : string := String (Ascii.ascii_of_nat 10) "".

(** [extra_] is empty without an error context. *)
Definition FinishPrintStream (print_stream_ : string) : string := print_stream_ +:+ newline.

(** [pref]: the preference "logToStdErr" when it could be asked for. *)
Definition OutputToDebug (pref : option bool) (str : string) : M LogState unit :=
  s ← get;
  let log_to_stderr := match pref with Some b => b | None => log_to_stderr_ s end in
  if log_to_stderr then modify (add_stderr str) else mret tt.

(** The loop over the sinks, under [g_log_mutex_]. *)
Fixpoint deliver (fuel : nat) (entry : option positive) (str : string) (sev : Z) : M LogState unit :=
  match entry with
  | None => mret tt
  | Some p =>
      match fuel with
      | O => fun _ => OutOfFuel
      | S fuel =>
          s ← get;
          match sinks s !! p with
          | None => ub_ UseAfterFree
          | Some k =>
              _ ← (if min_severity_ k <=? sev then modify (add_delivered p str sev) else mret tt);
              deliver fuel (next_ k) str sev
          end
      end
  end.

Definition destroy_LogMessage (pref : option bool) (print_stream_ : string) (severity_ : Z) : M LogState unit :=
  let str := FinishPrintStream print_stream_ in
  s ← get;
  _ ← (if g_dbg_sev s <=? severity_ then OutputToDebug pref str else mret tt);
  s ← get;
  deliver (list_fuel s) (streams_ s) str severity_.

(** The variadic [Log]: constructor, arguments, destructor. *)
Definition Log (pref : option bool) (c : LogCall) (w : Z) : M LogState unit :=
  head ← LogMessage c (meta_Line w) (meta_Severity w);
  destroy_LogMessage pref (head +:+ foldr (fun a t => render a +:+ t) "" (c_args c)) (meta_Severity w).

Definition RTC_LOG (pref : option bool) (c : LogCall) : M LogState unit :=
  s ← get;
  if IsNoop (c_sev c) s then mret tt
  else Log pref c (line_and_sev_ (c_line c) (c_sev c)).

(** ** The list of sinks as a list *)

(** [h] holds the sinks [reg] (sink and level), linked from [e]. *)
Fixpoint chain (h : gmap positive LogSink) (e : option positive) (reg : list (positive * Z)) : Prop :=
  match reg with
  | [] => e = None
  | (p, sev) :: reg => e = Some p /\ exists n, h !! p = Some (MkSink n sev) /\ chain h n reg
  end.

Definition min_level (dbg : Z) (reg : list (positive * Z)) : Z := foldl (fun m x => Z.min m x.2) dbg reg.

(** The sinks are [reg], the most recent first, and the cached values agree. *)
Record log_inv (s : LogState) (reg : list (positive * Z)) : Prop := {
  li_chain : chain (sinks s) (streams_ s) reg;
  li_nodup : NoDup (map fst reg);
  li_empty : streams_empty_ s = bool_decide (reg = []);
  li_min : g_min_sev s = min_level (g_dbg_sev s) reg;
}.

Lemma chain_dom h e reg p : chain h e reg -> p ∈ map fst reg -> p ∈ dom h.
Proof.
  revert e. induction reg as [|[q sev] reg IH]; intros e Hc Hp; [by apply elem_of_nil in Hp|].
  destruct Hc as (_ & n & Hq & Hc). cbn [map fst] in Hp. apply elem_of_cons in Hp as [->|Hp]; [by apply elem_of_dom|by eapply IH].
Qed.

(** A list without repetition fits the fuel of a walk. *)
Lemma chain_length h e reg : chain h e reg -> NoDup (map fst reg) -> (length reg <= size h)%nat.
Proof.
  intros Hc Hn. rewrite <- (length_map fst reg), <- (size_list_to_set (C := gset positive) _ Hn), <- size_dom.
  apply subseteq_size. intros p Hp. apply elem_of_list_to_set in Hp. by eapply chain_dom.
Qed.

Lemma walk_ok {A} (g : A -> positive -> Z -> A) fuel h e reg (a : A) :
  chain h e reg -> (length reg <= fuel)%nat ->
  walk fuel h (fun a p k => g a p (min_severity_ k)) a e = Ret (foldl (fun a x => g a x.1 x.2) a reg).
Proof.
  revert e a fuel. induction reg as [|[p sev] reg IH]; intros e a fuel Hc Hf; cbn [chain] in Hc.
  { subst e. by destruct fuel. }
  destruct Hc as (-> & n & Hp & Hc). destruct fuel as [|fuel]; [simpl in Hf; lia|]. cbn [walk]. rewrite Hp.
  cbn [next_ min_severity_ foldl fst snd]. apply IH; [done|simpl in Hf; lia].
Qed.

(** Cells outside the list do not matter. *)
Lemma chain_insert h e reg p k : chain h e reg -> p ∉ map fst reg -> chain (<[p := k]> h) e reg.
Proof.
  revert e. induction reg as [|[q sev] reg IH]; intros e Hc Hp; [done|]. cbn [map fst] in Hp.
  apply not_elem_of_cons in Hp as [Hne Hp]. destruct Hc as (-> & n & Hq & Hc). split; [done|].
  exists n. rewrite lookup_insert_ne by done. split; [done|by apply IH].
Qed.

Lemma update_min_ok s reg :
  chain (sinks s) (streams_ s) reg -> NoDup (map fst reg) -> streams_empty_ s = bool_decide (reg = []) ->
  exists s', UpdateMinLogSeverity s = Ret (tt, s') /\ log_inv s' reg /\ g_dbg_sev s' = g_dbg_sev s /\
    delivered s' = delivered s /\ sinks s' = sinks s /\ thread_ s' = thread_ s /\ timestamp_ s' = timestamp_ s /\
    log_path_prefix_ s' = log_path_prefix_ s /\ g_start s' = g_start s.
Proof.
  intros Hc Hn He. unfold UpdateMinLogSeverity. rewrite M_bind_get.
  rewrite (M_bind_lift _ _ _ _ (walk_ok (fun mn _ sev => Z.min mn sev) _ _ _ reg _ Hc (chain_length _ _ _ Hc Hn))).
  eexists. split; [reflexivity|]. split; [by split|done].
Qed.

(** ** Texts *)

Lemma meta_roundtrip line sev :
  0 <= line < 2 ^ 29 -> 0 <= sev < 8 ->
  meta_Line (line_and_sev_ line sev) = line /\ meta_Severity (line_and_sev_ line sev) = sev.
Proof.
  intros Hl Hs. unfold meta_Line, meta_Severity, line_and_sev_.
  rewrite (u32_small line), Z.shiftl_mul_pow2 by lia. change (2 ^ 3) with 8. rewrite u32_small by lia. split.
  - rewrite Z.shiftr_lor, !Z.shiftr_div_pow2 by lia. change (2 ^ 3) with 8.
    rewrite Z.div_mul, (Z.div_small sev), Z.lor_0_r by lia. apply i32_small. lia.
  - change 7 with (Z.ones 3). rewrite Z.land_lor_distr_l, !Z.land_ones by lia. change (2 ^ 3) with 8.
    rewrite Z_mod_mult, Z.lor_0_l. by apply Z.mod_small.
Qed.

(** The whole text of a statement in state [s], and the state after it has
    looked at the clock. *)
Definition start_of (s : LogState) (c : LogCall) : Z := default (c_start c) (g_start s).

Definition stamp_of (s : LogState) (c : LogCall) : string :=
  if timestamp_ s then
    let time := c_now c - start_of s c in
    "[" +:+ pad3 (Z.quot time 1000) +:+ ":" +:+ pad3 (Z.rem time 1000) +:+ "]"
  else "".

Definition text_of (s : LogState) (c : LogCall) : string :=
  ((GetSeverityStr (c_sev c) +:+ ": " +:+ stamp_of s c +:+
    (if thread_ s then "[" +:+ pretty (c_tid c) +:+ "] " else "") +:+
    match c_file c with
    | None => ""
    | Some file => "(" +:+ FilenameFromPath (log_path_prefix_ s) file +:+ ":" +:+ pretty (c_line c) +:+ "): "
    end) +:+ foldr (fun a t => render a +:+ t) "" (c_args c)) +:+ newline.

Definition after_start (s : LogState) (c : LogCall) : LogState :=
  if timestamp_ s then set_format (thread_ s) (timestamp_ s) (log_to_stderr_ s) (log_path_prefix_ s) (Some (start_of s c)) s
  else s.

Lemma LogMessage_eq c s :
  exists head, LogMessage c (c_line c) (c_sev c) s = Ret (head, after_start s c) /\
    (head +:+ foldr (fun a t => render a +:+ t) "" (c_args c)) +:+ newline = text_of s c.
Proof.
  unfold LogMessage, text_of, after_start, stamp_of, LogStartTime, start_of. rewrite M_bind_get.
  destruct s as [mn dbg st e th [|] err prefix [t|] h d o]; cbn [timestamp_ g_start default thread_ log_path_prefix_ log_to_stderr_];
    eexists; (split; [reflexivity|reflexivity]).
Qed.

Lemma after_start_same s c :
  sinks (after_start s c) = sinks s /\ streams_ (after_start s c) = streams_ s /\
  streams_empty_ (after_start s c) = streams_empty_ s /\ g_min_sev (after_start s c) = g_min_sev s /\
  g_dbg_sev (after_start s c) = g_dbg_sev s /\ delivered (after_start s c) = delivered s.
Proof. unfold after_start. by destruct (timestamp_ s). Qed.

(** ** A statement reaches the sinks that want it *)

Definition deliveries (reg : list (positive * Z)) (str : string) (sev : Z) : list (positive * string * Z) :=
  map (fun x => (x.1, str, sev)) (filter (fun x => x.2 <= sev) reg).

Definition same_logging (s s' : LogState) : Prop :=
  sinks s' = sinks s /\ streams_ s' = streams_ s /\ streams_empty_ s' = streams_empty_ s /\
  g_min_sev s' = g_min_sev s /\ g_dbg_sev s' = g_dbg_sev s /\ thread_ s' = thread_ s /\
  timestamp_ s' = timestamp_ s /\ log_path_prefix_ s' = log_path_prefix_ s.

Lemma same_logging_inv s s' reg : same_logging s s' -> log_inv s reg -> log_inv s' reg.
Proof. intros (H1 & H2 & H3 & H4 & H5 & _) [Hc Hn He Hm]. split; by rewrite ?H1, ?H2, ?H3, ?H4, ?H5. Qed.

Lemma deliver_ok fuel e reg str sev s :
  chain (sinks s) e reg -> (length reg <= fuel)%nat ->
  exists s', deliver fuel e str sev s = Ret (tt, s') /\ same_logging s s' /\ g_start s' = g_start s /\
    delivered s' = delivered s ++ deliveries reg str sev.
Proof.
  revert e fuel s. induction reg as [|[p lv] reg IH]; intros e fuel s Hc Hf; cbn [chain] in Hc.
  { subst e. exists s. unfold deliveries. cbn. rewrite app_nil_r. by destruct fuel. }
  destruct Hc as (-> & n & Hp & Hc). destruct fuel as [|fuel]; [simpl in Hf; lia|]. simpl in Hf.
  cbn [deliver]. rewrite M_bind_get, Hp. cbn [min_severity_ next_]. unfold deliveries. rewrite filter_cons. cbn [snd].
  destruct (Z.leb_spec lv sev); [rewrite decide_True by done; rewrite M_bind_modify|rewrite decide_False by lia; rewrite M_bind_mret].
  - destruct (IH n fuel (add_delivered p str sev s)) as (s' & Hr & Hs & Hst & Hd); [done|lia|].
    exists s'. split; [exact Hr|]. split; [exact Hs|]. split; [exact Hst|]. rewrite Hd. cbn. by rewrite <- app_assoc.
  - destruct (IH n fuel s) as (s' & Hr & Hs & Hst & Hd); [done|lia|]. by exists s'.
Qed.

(** [RTC_LOG] hands its text to exactly the sinks whose level it reaches, and
    [IsNoop] suppresses only statements that nobody wants. *)
Lemma rtc_log_ok s reg pref c :
  log_inv s reg -> 0 <= c_line c < 2 ^ 29 -> 0 <= c_sev c < 8 ->
  exists s', RTC_LOG pref c s = Ret (tt, s') /\ log_inv s' reg /\ same_logging s s' /\
    delivered s' = delivered s ++ deliveries reg (text_of s c) (c_sev c) /\
    g_start s' = (if IsNoop (c_sev c) s then g_start s else g_start (after_start s c)).
Proof.
  intros Hinv Hl Hs. pose proof Hinv as [Hc Hn He Hm]. unfold RTC_LOG. rewrite M_bind_get.
  destruct (IsNoop (c_sev c) s) eqn:Hnoop.
  { exists s. split; [done|]. split; [done|]. split; [done|]. split; [|done].
    unfold IsNoop in Hnoop. destruct (_ || _); [done|]. rewrite He in Hnoop. apply bool_decide_eq_true in Hnoop as ->.
    by rewrite app_nil_r. }
  unfold Log. destruct (meta_roundtrip _ _ Hl Hs) as [-> ->].
  destruct (LogMessage_eq c s) as (head & Hhead & Htext). step Hhead.
  destruct (after_start_same s c) as (Hk & Hst & Hem & Hmn & Hdb & Hde).
  unfold destroy_LogMessage, FinishPrintStream. rewrite Htext, M_bind_get. set (s1 := after_start s c) in *.
  assert (Hfmt : thread_ s1 = thread_ s /\ timestamp_ s1 = timestamp_ s /\ log_path_prefix_ s1 = log_path_prefix_ s).
  { unfold s1, after_start. destruct (timestamp_ s) eqn:E; cbn; by rewrite ?E. }
  match goal with |- context [mbind _ ?d s1] => assert (exists s2, d s1 = Ret (tt, s2) /\ same_logging s1 s2 /\
    g_start s2 = g_start s1 /\ delivered s2 = delivered s1) as (s2 & Hd2 & Hs2 & Hg2 & He2) end.
  { destruct (_ <=? _); [|by exists s1]. unfold OutputToDebug. rewrite M_bind_get. destruct (match pref with Some b => b | None => _ end); [by exists (add_stderr (text_of s c) s1)|by exists s1]. }
  step Hd2. rewrite M_bind_get. pose proof Hs2 as (Hk2 & Hst2 & _).
  destruct (deliver_ok (list_fuel s2) (streams_ s2) reg (text_of s c) (c_sev c) s2) as (s3 & Hr & Hs3 & Hg3 & Hd3).
  { by rewrite Hk2, Hst2, Hk, Hst. } { unfold list_fuel. rewrite Hk2, Hk. by eapply chain_length. }
  assert (Hsame : same_logging s s3).
  { unfold same_logging in *. destruct Hs2 as (?&?&?&?&?&?&?&?), Hs3 as (?&?&?&?&?&?&?&?), Hfmt as (?&?&?). split_and!; congruence. }
  exists s3. split; [done|]. split; [by eapply same_logging_inv|]. split; [done|]. split; [congruence|]. by rewrite Hg3, Hg2.
Qed.

(** ** The calls that configure logging *)

Lemma add_log_ok s reg p sev :
  log_inv s reg -> is_Some (sinks s !! p) -> p ∉ map fst reg ->
  exists s', AddLogToStream p sev s = Ret (tt, s') /\ log_inv s' ((p, sev) :: reg) /\ g_dbg_sev s' = g_dbg_sev s /\
    delivered s' = delivered s /\ thread_ s' = thread_ s /\ timestamp_ s' = timestamp_ s /\
    log_path_prefix_ s' = log_path_prefix_ s /\ g_start s' = g_start s.
Proof.
  intros [Hc Hn He Hm] [k Hk] Hp. unfold AddLogToStream. rewrite M_bind_get, Hk, M_bind_modify.
  set (s1 := set_streams _ _ _ s).
  destruct (update_min_ok s1 ((p, sev) :: reg)) as (s2 & Hr & Hi & Hd & Hde & _ & Hf); [| |done|].
  { split; [done|]. exists (streams_ s). cbn. rewrite lookup_insert_eq. split; [done|by apply chain_insert]. }
  { by constructor. }
  exists s2. split; [exact Hr|]. split; [exact Hi|]. split; [exact Hd|]. split; [exact Hde|exact Hf].
Qed.

Lemma unlink_ok fuel p e pre reg s prev :
  chain (sinks s) (streams_ s) (pre ++ reg) -> NoDup (map fst (pre ++ reg)) ->
  chain (sinks s) e reg -> prev = fst <$> last pre -> (length reg <= fuel)%nat ->
  exists s', unlink_loop fuel p prev e s = Ret (tt, s') /\ streams_empty_ s' = streams_empty_ s /\
    chain (sinks s') (streams_ s') (pre ++ filter (fun x => x.1 <> p) reg) /\ g_dbg_sev s' = g_dbg_sev s /\
    delivered s' = delivered s.
Proof.
  revert e pre prev fuel. induction reg as [|[q lv] reg IH]; intros e pre prev fuel Hall Hnd Hc -> Hf; cbn [chain] in Hc.
  { subst e. exists s. cbn [filter]. by destruct fuel. }
  destruct Hc as (-> & n & Hq & Hc). destruct fuel as [|fuel]; [simpl in Hf; lia|]. simpl in Hf.
  cbn [unlink_loop]. rewrite M_bind_get, Hq. cbn [next_]. rewrite filter_cons. cbn [fst].
  assert (Hsplit : forall pre0 h e0 x, chain h e0 (pre0 ++ x) -> exists e1, chain h e1 x).
  { clear. induction pre0 as [|[r l] pre0 IH]; intros h e0 x H; [by exists e0|]. destruct H as (_ & n & _ & H). by eapply IH. }
  destruct (decide (q = p)) as [->|Hne].
  - rewrite decide_False by naive_solver.
    assert (Hrest : filter (fun x => x.1 <> p) reg = reg).
    { rewrite map_app in Hnd. apply NoDup_app in Hnd as (_ & _ & Hnd). cbn [map fst] in Hnd. apply NoDup_cons in Hnd as [Hnp _].
      clear -Hnp. induction reg as [|[r l] reg IH]; [done|]. cbn [map fst] in Hnp. apply not_elem_of_cons in Hnp as [Hr Hnp].
      rewrite filter_cons, decide_True by (cbn; congruence). by rewrite IH. }
    rewrite Hrest. destruct (last pre) as [[r lr]|] eqn:Hlast; cbn [fmap option_fmap option_map fst].
    + apply last_Some in Hlast as [pre' ->]. rewrite <- app_assoc in Hall. cbn [app] in Hall.
      (* the predecessor [r] *)
      assert (Hr : exists nr, sinks s !! r = Some (MkSink nr lr)).
      { destruct (Hsplit _ _ _ _ Hall) as [e1 (_ & nr & Hr & _)]. by exists nr. }
      destruct Hr as [nr Hr]. rewrite Hr. cbn [min_severity_]. eexists. split; [reflexivity|]. split; [done|].
      split; [|done]. cbn [sinks streams_ set_streams]. rewrite <- !app_assoc. cbn [app].
      rewrite <- app_assoc, map_app in Hnd. cbn [app map fst] in Hnd. apply NoDup_app in Hnd as (_ & Hdis & Hnd).
      apply NoDup_cons in Hnd as [Hrn Hnd]. apply NoDup_cons in Hnd as [_ Hnd].
      revert Hall Hdis. generalize (streams_ s). induction pre' as [|[t lt] pre' IHp]; intros e0 Hall Hdis.
      * destruct Hall as (-> & n0 & Hr0 & _). split; [done|]. exists n. rewrite lookup_insert_eq. split; [done|].
        apply chain_insert; [done|]. intros Hin. apply Hrn. by right.
      * destruct Hall as (-> & n0 & Ht & Hall). split; [done|]. exists n0. rewrite lookup_insert_ne.
        { split; [done|]. apply IHp; [done|]. intros x Hx. apply Hdis. by right. }
        intros ->. apply (Hdis t); [by left|by left].
    + apply last_None in Hlast as ->. eexists. split; [reflexivity|]. done.
  - rewrite decide_True by done.
    destruct (IH n (pre ++ [(q, lv)]) (Some q) fuel) as (s' & Hr & He' & Hc' & Hd' & Hde'); [by rewrite <- app_assoc..|done|by rewrite last_snoc|lia|].
    exists s'. rewrite <- app_assoc in Hc'. done.
Qed.

Lemma remove_log_ok s reg p :
  log_inv s reg -> exists s', RemoveLogToStream p s = Ret (tt, s') /\ log_inv s' (filter (fun x => x.1 <> p) reg) /\
    delivered s' = delivered s.
Proof.
  intros [Hc Hn He Hm]. unfold RemoveLogToStream. rewrite M_bind_get.
  destruct (unlink_ok (list_fuel s) p (streams_ s) [] reg s None) as (s1 & Hr & _ & Hc1 & Hd1 & Hde1); [done..|by eapply chain_length|].
  step Hr. rewrite M_bind_modify. set (s2 := set_streams _ _ _ s1). cbn [app] in Hc1.
  destruct (update_min_ok s2 (filter (fun x => x.1 <> p) reg)) as (s3 & Hu & Hi & _ & Hde & _).
  - exact Hc1.
  - clear -Hn. induction reg as [|[q lv] reg IH]; [done|]. cbn [map fst] in Hn. apply NoDup_cons in Hn as [Hq Hn].
    rewrite filter_cons. case_decide; [|by apply IH]. cbn [map fst]. constructor; [|by apply IH].
    intros (x & Hx & Hin)%list_elem_of_fmap. apply Hq, list_elem_of_fmap. exists x.
    split; [done|]. by apply list_elem_of_filter in Hin as [_ ?].
  - cbn. destruct (filter _ reg) as [|[q lv] l]; cbn [chain] in Hc1; [by rewrite Hc1|]. destruct Hc1 as (-> & _). done.
  - exists s3. split; [exact Hu|]. split; [exact Hi|]. rewrite Hde. exact Hde1.
Qed.

Lemma log_to_debug_ok s reg sev :
  log_inv s reg -> exists s', LogToDebug sev s = Ret (tt, s') /\ log_inv s' reg /\ g_dbg_sev s' = sev /\
    delivered s' = delivered s /\ sinks s' = sinks s /\ thread_ s' = thread_ s /\ timestamp_ s' = timestamp_ s /\
    log_path_prefix_ s' = log_path_prefix_ s /\ g_start s' = g_start s.
Proof.
  intros [Hc Hn He Hm]. unfold LogToDebug. rewrite M_bind_modify. set (s1 := set_levels _ _ s).
  destruct (update_min_ok s1 reg) as (s2 & Hr & Hi & Hd & Hde & Hf); [done..|].
  exists s2. split; [exact Hr|]. split; [exact Hi|]. split; [exact Hd|]. split; [exact Hde|exact Hf].
Qed.

(** A sink that is added twice becomes its own successor: the walk that follows
    does not end, and it holds [g_log_mutex_]. *)
Lemma add_twice_loops s reg p sev sev' k :
  log_inv s reg -> sinks s !! p = Some k -> p ∉ map fst reg -> exists s1,
    AddLogToStream p sev s = Ret (tt, s1) /\ AddLogToStream p sev' s1 = OutOfFuel.
Proof.
  intros Hi Hk Hp. unfold AddLogToStream at 1. rewrite M_bind_get, Hk, M_bind_modify.
  set (s0 := set_streams _ _ _ s). pose proof Hi as [Hc Hn _ _].
  assert (Hc0 : chain (sinks s0) (streams_ s0) ((p, sev) :: reg)).
  { split; [done|]. exists (streams_ s). cbn. rewrite lookup_insert_eq. split; [done|by apply chain_insert]. }
  destruct (update_min_ok s0 ((p, sev) :: reg)) as (s1 & Hr & [[Hst1 _] _ _ _] & _ & _ & Hk1 & _); [done|by constructor|done|].
  exists s1. split; [exact Hr|]. unfold AddLogToStream. rewrite M_bind_get, Hk1. cbn [sinks set_streams s0].
  rewrite lookup_insert_eq, M_bind_modify. unfold UpdateMinLogSeverity. rewrite M_bind_get.
  cbn [sinks streams_ set_streams]. rewrite Hst1. set (h := <[p := _]> _).
  assert (Hloop : forall fuel (f : Z -> positive -> LogSink -> Z) (a : Z), walk fuel h f a (Some p) = OutOfFuel).
  { induction fuel as [|fuel IH]; intros f a; [done|]. cbn [walk]. unfold h. rewrite lookup_insert_eq. apply IH. }
  unfold mbind at 1, M_bind at 1, lift. by rewrite Hloop.
Qed.

(** ** Refinement: the list of sinks *)

(** What the program does to the logging state. *)
Inductive log_op :=
  | OpAdd (p : positive) (sev : Z)
  | OpRemove (p : positive)
  | OpDebug (sev : Z)
  | OpThreads (on : bool)
  | OpTimestamps (on : bool)
  | OpPrefix (prefix : string)
  | OpStatement (pref : option bool) (c : LogCall).

Definition run_op (o : log_op) : M LogState unit :=
  match o with
  | OpAdd p sev => AddLogToStream p sev
  | OpRemove p => RemoveLogToStream p
  | OpDebug sev => LogToDebug sev
  | OpThreads on => LogThreads on
  | OpTimestamps on => LogTimestamps on
  | OpPrefix prefix => SetLogPathPrefix prefix
  | OpStatement pref c => RTC_LOG pref c
  end.

(** The specification: a list of sinks with their levels. *)
Definition spec_op (o : log_op) (reg : list (positive * Z)) : list (positive * Z) :=
  match o with
  | OpAdd p sev => (p, sev) :: reg
  | OpRemove p => filter (fun x => x.1 <> p) reg
  | _ => reg
  end.

(** A sink is added once, while it exists; lines and severities are those the
    compiler and the macros produce. *)
Definition op_ok (s : LogState) (reg : list (positive * Z)) (o : log_op) : Prop :=
  match o with
  | OpAdd p _ => is_Some (sinks s !! p) /\ p ∉ map fst reg
  | OpStatement _ c => 0 <= c_line c < 2 ^ 29 /\ 0 <= c_sev c < 8
  | _ => True
  end.

Inductive log_step : LogState * list (positive * Z) -> LogState * list (positive * Z) -> Prop :=
  | log_step_op o s reg s' : op_ok s reg o -> run_op o s = Ret (tt, s') -> log_step (s, reg) (s', spec_op o reg).

Lemma op_inv o s reg :
  log_inv s reg -> op_ok s reg o -> exists s', run_op o s = Ret (tt, s') /\ log_inv s' (spec_op o reg) /\
    delivered s' = delivered s ++
      match o with OpStatement _ c => deliveries reg (text_of s c) (c_sev c) | _ => [] end.
Proof.
  intros Hi Ho. destruct o as [p sev|p|sev|on|on|prefix|pref c]; cbn [run_op spec_op op_ok] in *; rewrite ?app_nil_r.
  - destruct (add_log_ok s reg p sev Hi (proj1 Ho) (proj2 Ho)) as (s' & ? & ? & _ & ? & _). by exists s'.
  - destruct (remove_log_ok s reg p Hi) as (s' & ? & ? & ?). by exists s'.
  - destruct (log_to_debug_ok s reg sev Hi) as (s' & ? & ? & _ & ? & _). by exists s'.
  - eexists. split; [reflexivity|]. split; [by destruct Hi|done].
  - eexists. split; [reflexivity|]. split; [by destruct Hi|done].
  - eexists. split; [reflexivity|]. split; [by destruct Hi|done].
  - destruct (rtc_log_ok s reg pref c Hi (proj1 Ho) (proj2 Ho)) as (s' & ? & ? & _ & ? & _). by exists s'.
Qed.

Lemma static_inv h : log_inv (log_static h) [].
Proof. by split; [|constructor|..]. Qed.

Lemma log_run_inv h s reg : rtc log_step (log_static h, []) (s, reg) -> log_inv s reg.
Proof.
  intros Hr. remember (log_static h, []) as a eqn:Ha. remember (s, reg) as b eqn:Hb.
  assert (Hgen : log_inv a.1 a.2 -> log_inv b.1 b.2).
  { clear Ha Hb. induction Hr as [a|a a' b Hd Hr IH]; [done|]. intros Hi. apply IH. destruct Hd as [o s0 r0 s1 Ho Hrun].
    destruct (op_inv o s0 r0 Hi Ho) as (s2 & Hrun2 & Hi2 & _). rewrite Hrun in Hrun2. by injection Hrun2 as <-. }
  rewrite Ha, Hb in Hgen. apply Hgen, static_inv.
Qed.

(** C29: the intrusive list of sinks and the cached level implement a list of
    sinks with levels: whatever sinks have been added and removed and however
    logging has been configured, each call returns, and a log statement is
    handed to exactly the sinks whose level it reaches, each once, the most
    recently added first; the shortcut [IsNoop] never loses a message.  This
    holds as long as no sink is added that is in the list already (it would
    become its own successor and the next walk would not end, with the mutex
    held: [add_twice_loops]), a sink lives while it is in the list, and the
    severity and the line of a statement are in their ranges. *)
Theorem logging_refines_list h s reg o :
  rtc log_step (log_static h, []) (s, reg) -> op_ok s reg o ->
  exists s', run_op o s = Ret (tt, s') /\ log_step (s, reg) (s', spec_op o reg) /\
    delivered s' = delivered s ++
      match o with
      | OpStatement _ c => map (fun x => (x.1, text_of s c, c_sev c)) (filter (fun x => x.2 <= c_sev c) reg)
      | _ => []
      end.
Proof.
  intros Hr Ho. destruct (op_inv o s reg (log_run_inv h s reg Hr) Ho) as (s' & Hrun & _ & Hd).
  exists s'. split; [done|]. split; [by constructor|exact Hd].
Qed.

(** Two sinks, one of which only wants errors. *)
Definition sim_sinks : gmap positive LogSink := {[1%positive := MkSink None 0; 2%positive := MkSink None 0]}.
Definition sim_call : LogCall :=
  MkCall (Some "/home/u/src/main.cpp"%string) 94 LS_INFO 1500 200 7 [kStdString "main: "; kCharP None; kInt (-3)].
Definition sim_do (o : log_op) (s : LogState) : LogState :=
  match run_op o s with Ret (_, s) => s | _ => s end.
Definition sim_one : LogState := sim_do (OpAdd 1 LS_INFO) (log_static sim_sinks).
Definition sim_two : LogState := sim_do (OpAdd 2 LS_ERROR) sim_one.

Lemma sim_two_run : rtc log_step (log_static sim_sinks, []) (sim_two, [(2%positive, LS_ERROR); (1%positive, LS_INFO)]).
Proof.
  eapply rtc_l; [apply (log_step_op (OpAdd 1 LS_INFO) _ [] sim_one)|].
  { split; [by eexists|]. apply not_elem_of_nil. } { by vm_compute. }
  eapply rtc_l; [apply (log_step_op (OpAdd 2 LS_ERROR) _ [(1%positive, LS_INFO)] sim_two)|apply rtc_refl].
  { split; [by eexists|]. by apply not_elem_of_cons; split; [|apply not_elem_of_nil]. } { by vm_compute. }
Qed.

Lemma logging_refines_list_witness :
  exists s', run_op (OpStatement None sim_call) sim_two = Ret (tt, s') /\
    log_step (sim_two, [(2%positive, LS_ERROR); (1%positive, LS_INFO)])
      (s', [(2%positive, LS_ERROR); (1%positive, LS_INFO)]) /\
    delivered s' = [(1%positive, "INFO: (main.cpp:94): main: (null)-3" +:+ newline, LS_INFO)].
Proof.
  apply (logging_refines_list sim_sinks sim_two _ (OpStatement None sim_call) sim_two_run). done.
Defined.
