(* ===== verification/RandomString.v ===== *)
(** * [rtc_base/helpers.cc] and [ice/]: random strings, identifiers, ICE credentials

    The random generator in use is a function from a state and a length to the
    bytes it produced ([None] when it failed) and its next state: OpenSSL's is a
    parameter, the test generator is modelled. *)

From S2P Require Import Prelude.
#[local] Open Scope Z_scope.
#[local] Open Scope xrtc_scope.

Definition kBase64 : list byte :=
  string_bytes "ABCDEFGHIJKLMNOPQRSTUVWXYZabcdefghijklmnopqrstuvwxyz0123456789+/".
Definition kHex : list byte := string_bytes "0123456789abcdef".
Definition kUuidDigit17 : list byte := string_bytes "89ab".

(** ** [TestRandomGenerator] *)

(** [seed_ = seed_ * 214013L + 2531011L], and the value [GetRandom] returns. *)
Definition GetRandom (seed_ : Z) : Z * Z :=
  let seed_ := i32 (seed_ * 214013 + 2531011) in
  (Z.land (Z.shiftr seed_ 16) 0x7fff, seed_).

Fixpoint test_Generate (seed_ : Z) (len : nat) : list byte * Z :=
  match len with
  | O => ([], seed_)
  | S len =>
      let '(r, seed_) := GetRandom seed_ in
      let '(bs, seed_) := test_Generate seed_ len in (z2b r :: bs, seed_)
  end.

(** ** Strings *)

Section rng.
(** [Rng().Generate]: the bytes and the next state of the generator. *)
Context {G : Type} (Generate : nat -> M G (option (list byte))).

(** [table[bytes[i] % table_size]]. *)
Definition pick (table : list byte) (table_size : Z) (b : byte) : res byte :=
  match table !! Z.to_nat (b2z b mod table_size) with
  | Some c => Ret c
  | None => Ub OutOfBounds
  end.

Fixpoint pick_all (table : list byte) (table_size : Z) (bs : list byte) : res (list byte) :=
  match bs with
  | [] => Ret []
  | b :: bs => c ← pick table table_size b; cs ← pick_all table table_size bs; Ret (c :: cs)
  end.

(** The overload with an explicit table; [None] is the result [false]. *)
Definition CreateRandomString_table (len : nat) (table : list byte) (table_size : Z)
    : M G (option (list byte)) :=
  if table_size =? 0 then ub_ DivByZero
  else if negb (256 mod table_size =? 0) then mret None
  else
    o ← Generate len;
    match o with
    | None => mret None
    | Some bytes => str ← lift (pick_all table table_size bytes); mret (Some str)
    end.

(** [RTC_CHECK] ends the program when the generator failed. *)
Definition CreateRandomString (len : nat) : M G (list byte) :=
  o ← CreateRandomString_table len kBase64 64;
  match o with Some str => mret str | None => lift Abort end.

Definition CreateRandomData (length : nat) : M G (option (list byte)) := Generate length.

(** [bytes[i]] of the array of 31 bytes. *)
Definition byte_at (bytes : list byte) (i : nat) : res byte :=
  match bytes !! i with Some b => Ret b | None => Ub OutOfBounds end.

Fixpoint hex_digits (bytes : list byte) (idx : list nat) : res (list byte) :=
  match idx with
  | [] => Ret []
  | i :: idx => b ← byte_at bytes i; c ← pick kHex 16 b; cs ← hex_digits bytes idx; Ret (c :: cs)
  end.

Definition CreateRandomUuid : M G (list byte) :=
  o ← Generate 31;
  match o with
  | None => lift Abort
  | Some bytes =>
      s0 ← lift (hex_digits bytes (seq 0 8));
      s1 ← lift (hex_digits bytes (seq 8 4));
      s2 ← lift (hex_digits bytes (seq 12 3));
      b ← lift (byte_at bytes 15);
      v ← lift (pick kUuidDigit17 4 b);
      s3 ← lift (hex_digits bytes (seq 16 3));
      s4 ← lift (hex_digits bytes (seq 19 12));
      mret (s0 ++ [x2d] ++ s1 ++ [x2d] ++ [x34] ++ s2 ++ [x2d] ++ [v] ++ s3 ++ [x2d] ++ s4)
  end.

Definition CreateRandomId : M G Z :=
  o ← Generate 4;
  match o with Some bytes => mret (le_of_bytes bytes) | None => lift Abort end.

(** The operands of [|] are evaluated in the order the compiler chooses; here
    from left to right. *)
Definition CreateRandomId64 : M G Z :=
  hi ← CreateRandomId; lo ← CreateRandomId; mret (Z.lor (Z.shiftl hi 32) lo).

Fixpoint CreateRandomNonZeroId (fuel : nat) : M G Z :=
  match fuel with
  | O => lift OutOfFuel
  | S fuel => id ← CreateRandomId; if id =? 0 then CreateRandomNonZeroId fuel else mret id
  end.

(** ** [ice_def.cpp], [ice_credentials.cpp] *)

Definition ICE_UFRAG_LEN : nat := 4.
Definition ICE_PASSWORD_LEN : nat := 24.

Record IceParameters := MkIce { ice_ufrag : list byte; ice_password : list byte }.

(** The arguments of the constructor are evaluated in an unspecified order;
    here from left to right. *)
Definition create_random_ice_credentials : M G IceParameters :=
  ufrag ← CreateRandomString ICE_UFRAG_LEN;
  password ← CreateRandomString ICE_PASSWORD_LEN;
  mret (MkIce ufrag password).

(** ** Lemmas *)

(** A generator that fills the buffer, whenever it does not fail. *)
Definition fills (n : nat) : Prop :=
  forall g o g', Generate n g = Ret (o, g') -> forall bs, o = Some bs -> length bs = n.

Definition total : Prop := forall n g, exists o g', Generate n g = Ret (o, g').

Lemma pick_ok table b :
  0 < Z.of_nat (length table) ->
  exists c, pick table (Z.of_nat (length table)) b = Ret c /\ c ∈ table.
Proof.
  intros Ht. pose proof (b2z_range b). pose proof (Z.mod_pos_bound (b2z b) _ Ht).
  destruct (lookup_lt_is_Some_2 table (Z.to_nat (b2z b mod Z.of_nat (length table)))) as [c Hc]; [lia|].
  exists c. unfold pick. rewrite Hc. split; [done|]. by eapply list_elem_of_lookup_2.
Qed.

Lemma pick_all_ok table bs :
  0 < Z.of_nat (length table) ->
  exists cs, pick_all table (Z.of_nat (length table)) bs = Ret cs /\ length cs = length bs /\
    Forall (fun c => c ∈ table) cs.
Proof.
  intros Ht. induction bs as [|b bs IH]; [exists []; repeat constructor|].
  destruct (pick_ok table b Ht) as (c & Hc & Hin). destruct IH as (cs & Hcs & Hl & Hall).
  exists (c :: cs). simpl. rewrite Hc. simpl. rewrite Hcs. simpl. rewrite Hl. split_and!; [done..|by apply Forall_cons].
Qed.

Lemma hex_digits_ok bytes idx :
  Forall (fun i => (i < length bytes)%nat) idx ->
  exists cs, hex_digits bytes idx = Ret cs /\ length cs = length idx /\ Forall (fun c => c ∈ kHex) cs.
Proof.
  intros Hi. induction Hi as [|i idx Hi His IH]; [exists []; repeat constructor|].
  destruct (lookup_lt_is_Some_2 bytes i Hi) as [b Hb].
  destruct (pick_ok kHex b) as (c & Hc & Hin); [done|]. destruct IH as (cs & Hcs & Hl & Hall).
  change (Z.of_nat (length kHex)) with 16 in Hc.
  exists (c :: cs). cbn [hex_digits]. unfold byte_at. rewrite Hb. cbn [mbind res_bind].
  unfold mbind, res_bind. rewrite Hc, Hcs. simpl. rewrite Hl. split_and!; [done..|by apply Forall_cons].
Qed.

Lemma create_random_string_eq len g :
  total -> fills len ->
  (exists str g', CreateRandomString len g = Ret (str, g') /\ length str = len /\
     Forall (fun c => c ∈ kBase64) str) \/
  CreateRandomString len g = Abort.
Proof.
  intros Ht Hf. destruct (Ht len g) as (o & g' & Hg).
  assert (Heq : CreateRandomString len g =
    match o with
    | None => Abort
    | Some bytes => (str ← lift (pick_all kBase64 64 bytes); mret str) g'
    end).
  { unfold CreateRandomString, CreateRandomString_table, mbind, M_bind.
    change (64 =? 0) with false. change (negb (256 mod 64 =? 0)) with false. cbv iota.
    cbv beta. rewrite Hg. destruct o as [bytes|]; [|done]. by destruct (lift _ _) as [[]| | |]. }
  rewrite Heq. destruct o as [bytes|]; [left|by right].
  destruct (pick_all_ok kBase64 bytes) as (cs & Hcs & Hl & Hall); [done|].
  change (Z.of_nat (length kBase64)) with 64 in Hcs.
  rewrite (M_bind_lift _ _ _ _ Hcs). exists cs, g'. split; [done|].
  split; [|done]. rewrite Hl. by eapply Hf.
Qed.

Lemma ice_credentials_defined g :
  total -> fills ICE_UFRAG_LEN -> fills ICE_PASSWORD_LEN -> defined (create_random_ice_credentials g).
Proof.
  intros Ht Hu Hp. unfold create_random_ice_credentials.
  destruct (create_random_string_eq _ g Ht Hu) as [(u & g1 & E1 & _)|E1];
    unfold mbind at 1, M_bind at 1; rewrite E1; [|done].
  destruct (create_random_string_eq _ g1 Ht Hp) as [(v & g2 & E2 & _)|E2];
    unfold mbind, M_bind; by rewrite E2.
Qed.

End rng.

(** ** Properties *)

(** ICE credentials: unless the generator fails (and the program ends),
    the user fragment has exactly 4 and the password exactly 24 characters, at
    least the 4 and 22 the ICE standard asks for, and every character is an
    [ice-char] (a letter, a digit, [+] or [/]). *)
Theorem ice_credentials_valid {G} (Generate : nat -> M G (option (list byte))) g :
  total Generate -> (forall n, fills Generate n) ->
  match create_random_ice_credentials Generate g with
  | Ret (ice, _) =>
      length (ice_ufrag ice) = 4%nat /\ length (ice_password ice) = 24%nat /\
      Forall (fun c => c ∈ kBase64) (ice_ufrag ice ++ ice_password ice)
  | Abort => True
  | _ => False
  end.
Proof.
  intros Ht Hf. unfold create_random_ice_credentials.
  destruct (create_random_string_eq Generate ICE_UFRAG_LEN g Ht (Hf _)) as [(u & g1 & Hu & Hlu & Hau)|Hu];
    [step Hu|unfold mbind, M_bind; by rewrite Hu].
  destruct (create_random_string_eq Generate ICE_PASSWORD_LEN g1 Ht (Hf _)) as [(p & g2 & Hp & Hlp & Hap)|Hp];
    [step Hp|unfold mbind at 1, M_bind at 1; by rewrite Hp].
  cbn. split_and!; [done..|]. by apply Forall_app.
Qed.

(** The test generator as a random generator. *)
Definition test_rng (n : nat) : M Z (option (list byte)) := fun seed_ =>
  let '(bs, seed_) := test_Generate seed_ n in Ret (Some bs, seed_).

Lemma test_Generate_length seed_ n : length (test_Generate seed_ n).1 = n.
Proof.
  revert seed_. induction n as [|n IH]; intros seed_; [done|]. cbn [test_Generate].
  destruct (GetRandom seed_) as [r s]. specialize (IH s). destruct (test_Generate s n). simpl in *. lia.
Qed.

Lemma test_rng_ok : total test_rng /\ forall n, fills test_rng n.
Proof.
  split.
  - intros n g. unfold test_rng. destruct (test_Generate g n) as [bs s]. eauto.
  - intros n g o g' Hg bs ->. unfold test_rng in Hg.
    pose proof (test_Generate_length g n). destruct (test_Generate g n). by simplify_eq/=.
Qed.

Lemma ice_credentials_valid_witness :
  match create_random_ice_credentials test_rng 7 with
  | Ret (ice, _) =>
      length (ice_ufrag ice) = 4%nat /\ length (ice_password ice) = 24%nat /\
      Forall (fun c => c ∈ kBase64) (ice_ufrag ice ++ ice_password ice)
  | Abort => True
  | _ => False
  end.
Proof. apply (ice_credentials_valid test_rng 7); apply test_rng_ok. Defined.

(** A UUID has the version 4 form: 36 characters, dashes at positions 8,
    13, 18 and 23, the digit 4 at 14, one of 8, 9, a, b at 19, and lower-case
    hexadecimal digits everywhere else; 31 random bytes are enough for it. *)
Theorem uuid_format {G} (Generate : nat -> M G (option (list byte))) g bytes g' :
  Generate 31%nat g = Ret (Some bytes, g') -> length bytes = 31%nat ->
  exists s, CreateRandomUuid Generate g = Ret (s, g') /\ length s = 36%nat /\
    forall i c, s !! i = Some c ->
      if existsb (Nat.eqb i) [8; 13; 18; 23]%nat then c = x2d
      else if (i =? 14)%nat then c = x34
      else if (i =? 19)%nat then c ∈ kUuidDigit17
      else c ∈ kHex.
Proof.
  intros Hg Hl. unfold CreateRandomUuid. step Hg.
  assert (Hd : forall a n, (a + n <= 31)%nat -> exists cs, hex_digits bytes (seq a n) = Ret cs /\
    length cs = n /\ Forall (fun c => c ∈ kHex) cs).
  { intros a n Han. destruct (hex_digits_ok bytes (seq a n)) as (cs & ? & Hn & ?).
    - apply Forall_seq. intros. lia.
    - exists cs. by rewrite length_seq in Hn. }
  destruct (Hd 0 8)%nat as (s0 & H0 & L0 & F0); [lia|].
  destruct (Hd 8 4)%nat as (s1 & H1 & L1 & F1); [lia|].
  destruct (Hd 12 3)%nat as (s2 & H2 & L2 & F2); [lia|].
  destruct (Hd 16 3)%nat as (s3 & H3 & L3 & F3); [lia|].
  destruct (Hd 19 12)%nat as (s4 & H4 & L4 & F4); [lia|].
  destruct (lookup_lt_is_Some_2 bytes 15) as [b Hb]; [lia|].
  destruct (pick_ok kUuidDigit17 b) as (v & Hv & Hin); [done|].
  change (Z.of_nat (length kUuidDigit17)) with 4 in Hv.
  rewrite (M_bind_lift _ _ _ _ H0), (M_bind_lift _ _ _ _ H1), (M_bind_lift _ _ _ _ H2).
  rewrite (M_bind_lift b) by (unfold byte_at; by rewrite Hb).
  rewrite (M_bind_lift _ _ _ _ Hv), (M_bind_lift _ _ _ _ H3), (M_bind_lift _ _ _ _ H4).
  eexists. split; [done|]. clear H0 H1 H2 H3 H4 Hd Hg.
  explode L0. explode L1. explode L2. explode L3. explode L4.
  split; [done|]. rewrite !Forall_cons in *.
  intros i c Hi. do 36 (destruct i as [|i]; [cbn in Hi; simplify_eq; cbn -[kHex kUuidDigit17]; tauto|]).
  by cbn in Hi.
Qed.

Lemma uuid_format_witness :
  exists s, CreateRandomUuid test_rng 7 = Ret (s, (test_Generate 7 31).2) /\ length s = 36%nat /\
    forall i c, s !! i = Some c ->
      if existsb (Nat.eqb i) [8; 13; 18; 23]%nat then c = x2d
      else if (i =? 14)%nat then c = x34
      else if (i =? 19)%nat then c ∈ kUuidDigit17
      else c ∈ kHex.
Proof.
  apply (uuid_format test_rng 7 (test_Generate 7 31).1); by vm_compute.
Defined.
