(* ===== verification/Sdp.v ===== *)
(** * [pc/]: codecs, the session description and its text, the peer connection

    An offer is a [SessionDescription] built by [PeerConnection::create_offer]
    and printed by [to_string].  A [std::map] is an association list kept in key
    order; a certificate is the answers OpenSSL gives about it. *)

From stdpp Require Import pretty.
From Stdlib Require Import Sorting.Sorted.
From S2P Require Import Prelude StringEncode RandomString.
#[local] Open Scope Z_scope.
#[local] Open Scope xrtc_scope.
#[local] Open Scope string_scope.

(** [std::to_string] and [<<] on an [int]. *)
Definition dec (z : Z) : string := pretty z.

Definition crlf : string := String (Ascii.ascii_of_nat 13) (String (Ascii.ascii_of_nat 10) "").

(** ** [codec_info.h] *)

Record FeedBackParam := MkFeedBack { fb_id : string; fb_param : string }.

Definition CodecParam := list (string * string).

(** [m[k] = v] on a [std::map]. *)
Fixpoint map_set (m : CodecParam) (k v : string) : CodecParam :=
  match m with
  | [] => [(k, v)]
  | (k', v') :: m' =>
      match String.compare k k' with
      | Lt => (k, v) :: m
      | Eq => (k, v) :: m'
      | Gt => (k', v') :: map_set m' k v
      end
  end.

(** [channels] is there in an [AudioCodecInfo] only. *)
Record CodecInfo := MkCodec {
  id : Z;
  name : string;
  clock_rate : Z;
  fb_params : list FeedBackParam;
  codec_params : CodecParam;
  channels : option Z;
}.

(** [as_audio()->channels]: the base class answers a null pointer. *)
Definition audio_channels (c : CodecInfo) : res Z :=
  match channels c with Some n => Ret n | None => Ub NullDeref end.

(** ** [session_description.h] *)

Inductive SdpType := OFFER | ANSWER.
Inductive MediaType := AUDIO | VIDEO.
Inductive RtpDirection := SendOnly | ReceiveOnly | SendReceive | Inactive.
Inductive ConnectionRole := NONE | ACTIVE | PASSIVE | ACTPASS | HOLECONN.

#[export] Instance MediaType_eq_dec : EqDecision MediaType.
Proof. solve_decision. Defined.

Record MediaContentDescription := MkMedia {
  type : MediaType;
  _codecs : list CodecInfo;
  _direction : RtpDirection;
  _rtcp_mux : bool;
}.

Definition mid (d : MediaContentDescription) : string :=
  match type d with AUDIO => "audio" | VIDEO => "video" end.

Definition set_direction (dir : RtpDirection) (d : MediaContentDescription) : MediaContentDescription :=
  MkMedia (type d) (_codecs d) dir (_rtcp_mux d).

Definition with_rtcp_mux (mux : bool) (d : MediaContentDescription) : MediaContentDescription :=
  MkMedia (type d) (_codecs d) (_direction d) mux.
(** The function has no [return]; nobody uses its value. *)
Definition set_rtcp_mux `{Compiler} (mux : bool) (d : MediaContentDescription) : res MediaContentDescription :=
  _ ← off_end; Ret (with_rtcp_mux mux d).

Record ContentGroup := MkGroup { semantic : string; contents : list string }.

Definition has_content (g : ContentGroup) (c : string) : bool := bool_decide (c ∈ contents g).
Definition add_content (g : ContentGroup) (c : string) : ContentGroup :=
  if has_content g c then g else MkGroup (semantic g) (contents g ++ [c]).

Record TransportDescription := MkTransport {
  t_mid : string;
  t_ufrag : string;
  t_password : string;
  identity_fingerprint : option SSLFingerprint;
  role : ConnectionRole;
}.

Record SessionDescription := MkSession {
  _type : SdpType;
  _media_descs : list MediaContentDescription;
  _content_groups : list ContentGroup;
  _transports : list TransportDescription;
}.

(** ** [session_description.cpp] *)

Definition k_media_protocol_dtls_savpf : string := "UDP/TLS/RTP/SAVPF".

Definition AudioContentDescription : MediaContentDescription :=
  let audio_codec := MkCodec 111 "opus" 48000 [MkFeedBack "transport-cc" ""]
    (map_set (map_set [] "minptime" "10") "useinbandfec" "1") (Some 2) in
  MkMedia AUDIO [audio_codec] Inactive true.

Definition VideoContentDescription : MediaContentDescription :=
  let video_codec := MkCodec 107 "h264" 90000
    [MkFeedBack "goog-remb" ""; MkFeedBack "transport-cc" ""; MkFeedBack "ccm" "fir";
     MkFeedBack "nack" ""; MkFeedBack "nack" "pli"]
    (map_set (map_set (map_set [] "level-asymmetry-allowed" "1") "packetization-mode" "1")
       "profile-level-id" "42e01") None in
  let rtx_codec := MkCodec 99 "rtx" 90000 [] (map_set [] "apt" (dec (id video_codec))) None in
  MkMedia VIDEO [video_codec; rtx_codec] Inactive true.

Definition new_SessionDescription (t : SdpType) : SessionDescription := MkSession t [] [] [].

Definition add_media_desc (d : MediaContentDescription) (s : SessionDescription) : SessionDescription :=
  MkSession (_type s) (_media_descs s ++ [d]) (_content_groups s) (_transports s).
Definition add_content_group (g : ContentGroup) (s : SessionDescription) : SessionDescription :=
  MkSession (_type s) (_media_descs s) (_content_groups s ++ [g]) (_transports s).

Definition k_connection_role_map (r : ConnectionRole) : string :=
  match r with
  | NONE => "none" | ACTIVE => "active" | PASSIVE => "passive" | ACTPASS => "actpass"
  | HOLECONN => "holeconn"
  end.

(** What OpenSSL answers about a certificate. *)
Record RTCCertificate := MkCert {
  GetSignatureDigestAlgorithm : option string;
  ComputeDigest : string -> option (list byte);
  CertificateExpirationTime : Z;
}.

(** [SSLFingerprint::Create] and [CreateFromCertificate]. *)
Definition SSLFingerprint_Create (alg : string) (c : RTCCertificate) : option SSLFingerprint :=
  digest ← ComputeDigest c alg; Some (MkFingerprint alg digest).
Definition CreateFromCertificate (c : RTCCertificate) : option SSLFingerprint :=
  alg ← GetSignatureDigestAlgorithm c; SSLFingerprint_Create alg c.

Definition add_transport_info (m : string) (params : IceParameters) (certificate : option RTCCertificate)
    (s : SessionDescription) : bool * SessionDescription :=
  let add fp := (true, MkSession (_type s) (_media_descs s) (_content_groups s)
    (_transports s ++ [MkTransport m (bytes_string (ice_ufrag params))
       (bytes_string (ice_password params)) fp
       match _type s with OFFER => ACTPASS | ANSWER => ACTIVE end])) in
  match certificate with
  | None => add None
  | Some c =>
      match CreateFromCertificate c with
      | None => (false, s)
      | Some fp => add (Some fp)
      end
  end.

Fixpoint find_transport (m : string) (ts : list TransportDescription) : option TransportDescription :=
  match ts with
  | [] => None
  | t :: ts => if decide (t_mid t = m) then Some t else find_transport m ts
  end.
Definition get_transport (s : SessionDescription) (m : string) : option TransportDescription :=
  find_transport m (_transports s).

Definition get_group_by_name (s : SessionDescription) (n : string) : list ContentGroup :=
  filter (fun g => semantic g = n) (_content_groups s).

(** The output of the helpers that write to the stream. *)
Fixpoint fmtp_params (first : bool) (ps : CodecParam) : string :=
  match ps with
  | [] => ""
  | (k, v) :: ps => (if first then "" else ";") +:+ k +:+ "=" +:+ v +:+ fmtp_params false ps
  end.
Definition add_fmtp_line (c : CodecInfo) : string :=
  match codec_params c with
  | [] => ""
  | ps => "a=fmtp:" +:+ dec (id c) +:+ " " +:+ fmtp_params true ps +:+ crlf
  end.

Definition add_rtcp_fb_line (c : CodecInfo) : string :=
  String.concat "" (map (fun p => "a=rtcp-fb:" +:+ dec (id c) +:+ " " +:+ fb_id p +:+
    (if decide (fb_param p = "") then "" else " " +:+ fb_param p) +:+ crlf) (fb_params c)).

Definition build_rtp_direction (d : MediaContentDescription) : string :=
  match _direction d with
  | SendReceive => "a=sendrecv" +:+ crlf
  | SendOnly => "a=sendonly" +:+ crlf
  | ReceiveOnly => "a=recvonly" +:+ crlf
  | Inactive => "a=inactive" +:+ crlf
  end.

Fixpoint build_rtp_map (t : MediaType) (cs : list CodecInfo) : res string :=
  match cs with
  | [] => Ret ""
  | c :: cs =>
      ch ← (if decide (t = AUDIO) then n ← audio_channels c; Ret ("/" +:+ dec n) else Ret "");
      rest ← build_rtp_map t cs;
      Ret ("a=rtpmap:" +:+ dec (id c) +:+ " " +:+ name c +:+ "/" +:+ dec (clock_rate c) +:+ ch +:+ crlf
           +:+ add_rtcp_fb_line c +:+ add_fmtp_line c +:+ rest)
  end.

Definition transport_lines (t : TransportDescription) : res string :=
  fp ← match identity_fingerprint t with
       | None => Ret ""
       | Some fp =>
           hex ← GetRfc4572Fingerprint fp;
           Ret ("a=fingerprint:" +:+ algorithm fp +:+ " " +:+ bytes_string hex +:+ crlf +:+
                "a=setup:" +:+ k_connection_role_map (role t) +:+ crlf)
       end;
  Ret ("a=ice-ufrag:" +:+ t_ufrag t +:+ crlf +:+ "a=ice-pwd:" +:+ t_password t +:+ crlf +:+ fp).

Definition media_section (s : SessionDescription) (d : MediaContentDescription) : res string :=
  let fmt := String.concat "" (map (fun c => " " +:+ dec (id c)) (_codecs d)) in
  tr ← match get_transport s (mid d) with Some t => transport_lines t | None => Ret "" end;
  maps ← build_rtp_map (type d) (_codecs d);
  Ret ("m=" +:+ mid d +:+ " 9 " +:+ k_media_protocol_dtls_savpf +:+ fmt +:+ crlf +:+
       "c=IN IP4 0.0.0.0" +:+ crlf +:+ "a=rtcp:9 IN IP4 0.0.0.0" +:+ crlf +:+
       "a=mid:" +:+ mid d +:+ crlf +:+ build_rtp_direction d +:+
       (if _rtcp_mux d then "a=rtcp-mux" +:+ crlf else "") +:+ tr +:+ maps).

Fixpoint media_sections (s : SessionDescription) (ds : list MediaContentDescription) : res string :=
  match ds with
  | [] => Ret ""
  | d :: ds => m ← media_section s d; rest ← media_sections s ds; Ret (m +:+ rest)
  end.

Definition bundle_lines (groups : list ContentGroup) : string :=
  match groups with [] => "" | g :: _ => "a=group:" +:+ semantic g end +:+
  String.concat "" (map (fun g =>
    String.concat "" (map (fun c => " " +:+ c) (contents g)) +:+ crlf) groups).

Definition to_string (s : SessionDescription) : res string :=
  media ← media_sections s (_media_descs s);
  Ret ("v=0" +:+ crlf +:+ "o=- 1234567890 1234567890 IN IP4 127.0.0.1" +:+ crlf +:+ "s=-" +:+ crlf +:+
       "t=0 0" +:+ crlf +:+ bundle_lines (get_group_by_name s "BUNDLE") +:+
       "a=msid-semantic: WMS *" +:+ crlf +:+ media).

(** ** [peer_connection.cpp] *)

Record RTCOfferAnswerOptions := MkOpts {
  send_audio : bool; send_video : bool; recv_audio : bool; recv_video : bool;
  use_rtp_mux : bool; use_rtcp_mux : bool; dtls_on : bool;
}.

(** [_certificate] is a plain pointer. *)
Record PeerConnection := MkPc {
  _local_desc : option SessionDescription;
  pc_certificate : option positive;
}.

Definition get_rtp_dir (send recv : bool) : RtpDirection :=
  if send && recv then SendReceive else if send then SendOnly
  else if recv then ReceiveOnly else Inactive.

Definition PeerConnection_init (certificate : option positive) (pc : PeerConnection) : PeerConnection :=
  MkPc (_local_desc pc) certificate.

Section offer.
Context `{Compiler} {G : Type} (Generate : nat -> M G (option (list byte))).
(** The certificates that are still alive. *)
Context (certs : gmap positive RTCCertificate).

(** [*_certificate], where it is dereferenced. *)
Definition deref_cert (p : option positive) : res (option RTCCertificate) :=
  match p with
  | None => Ret None
  | Some p => match certs !! p with Some c => Ret (Some c) | None => Ub UseAfterFree end
  end.

Definition add_media (on send recv mux : bool) (d : MediaContentDescription) (ice : IceParameters)
    (cert : option positive) (s : SessionDescription) : res SessionDescription :=
  if on then
    d ← set_rtcp_mux mux (set_direction (get_rtp_dir send recv) d);
    c ← deref_cert cert;
    Ret (add_transport_info (mid d) ice c (add_media_desc d s)).2
  else Ret s.

Definition add_bundle (s : SessionDescription) : SessionDescription :=
  let group := foldl add_content (MkGroup "BUNDLE" []) (map mid (_media_descs s)) in
  match contents group with [] => s | _ => add_content_group group s end.

Definition create_offer (opts : RTCOfferAnswerOptions) (pc : PeerConnection)
    : M G (string * PeerConnection) :=
  if dtls_on opts && bool_decide (pc_certificate pc = None) then mret ("", pc)
  else
    ice ← create_random_ice_credentials Generate;
    let s := new_SessionDescription OFFER in
    s ← lift (add_media (recv_audio opts) (send_audio opts) (recv_audio opts) (use_rtcp_mux opts)
                AudioContentDescription ice (pc_certificate pc) s);
    s ← lift (add_media (recv_video opts) (send_video opts) (recv_video opts) (use_rtcp_mux opts)
                VideoContentDescription ice (pc_certificate pc) s);
    let s := if use_rtp_mux opts then add_bundle s else s in
    text ← lift (to_string s);
    mret (text, MkPc (Some s) (pc_certificate pc)).

End offer.

(** ** The offer, line by line *)

(** A text of lines, each ended by CRLF. *)
Fixpoint text_of (lines : list string) : string :=
  match lines with [] => "" | l :: ls => l +:+ crlf +:+ text_of ls end.

Definition direction_line (send recv : bool) : string :=
  match send, recv with
  | true, true => "a=sendrecv" | true, false => "a=sendonly"
  | false, true => "a=recvonly" | false, false => "a=inactive"
  end.

Definition transport_ref (ice : IceParameters) (alg hex : string) : list string :=
  ["a=ice-ufrag:" +:+ bytes_string (ice_ufrag ice); "a=ice-pwd:" +:+ bytes_string (ice_password ice);
   "a=fingerprint:" +:+ alg +:+ " " +:+ hex; "a=setup:actpass"].

Definition section_ref (m fmts : string) (send recv mux : bool) (transport codecs : list string)
    : list string :=
  ["m=" +:+ m +:+ " 9 UDP/TLS/RTP/SAVPF" +:+ fmts; "c=IN IP4 0.0.0.0"; "a=rtcp:9 IN IP4 0.0.0.0";
   "a=mid:" +:+ m; direction_line send recv] ++
  (if mux then ["a=rtcp-mux"] else []) ++ transport ++ codecs.

Definition audio_codecs_ref : list string :=
  ["a=rtpmap:111 opus/48000/2"; "a=rtcp-fb:111 transport-cc";
   "a=fmtp:111 minptime=10;useinbandfec=1"].
Definition video_codecs_ref : list string :=
  ["a=rtpmap:107 h264/90000"; "a=rtcp-fb:107 goog-remb"; "a=rtcp-fb:107 transport-cc";
   "a=rtcp-fb:107 ccm fir"; "a=rtcp-fb:107 nack"; "a=rtcp-fb:107 nack pli";
   "a=fmtp:107 level-asymmetry-allowed=1;packetization-mode=1;profile-level-id=42e01";
   "a=rtpmap:99 rtx/90000"; "a=fmtp:99 apt=107"].

(** The lines of an offer, from its options, the ICE credentials and the
    fingerprint. *)
Definition offer_ref (o : RTCOfferAnswerOptions) (ice : IceParameters) (alg hex : string) : list string :=
  let tr := transport_ref ice alg hex in
  ["v=0"; "o=- 1234567890 1234567890 IN IP4 127.0.0.1"; "s=-"; "t=0 0"] ++
  (if use_rtp_mux o && (recv_audio o || recv_video o)
   then ["a=group:BUNDLE" +:+ (if recv_audio o then " audio" else "") +:+
         (if recv_video o then " video" else "")] else []) ++
  ["a=msid-semantic: WMS *"] ++
  (if recv_audio o
   then section_ref "audio" " 111" (send_audio o) true (use_rtcp_mux o) tr audio_codecs_ref else []) ++
  (if recv_video o
   then section_ref "video" " 107 99" (send_video o) true (use_rtcp_mux o) tr video_codecs_ref else []).

Lemma text_of_app ls ls' : text_of (ls ++ ls') = text_of ls +:+ text_of ls'.
Proof. induction ls as [|l ls IH]; [done|]. cbn [app text_of]. by rewrite IH, !string_app_assoc. Qed.

(** ** Building and printing *)

(** The transport of an offered medium. *)
Definition offered_transport (m : string) (ice : IceParameters) (fp : SSLFingerprint) : TransportDescription :=
  MkTransport m (bytes_string (ice_ufrag ice)) (bytes_string (ice_password ice)) (Some fp) ACTPASS.

Lemma transport_lines_eq m ice fp hex :
  GetRfc4572Fingerprint fp = Ret hex ->
  transport_lines (offered_transport m ice fp) =
    Ret (text_of (transport_ref ice (algorithm fp) (bytes_string hex))).
Proof.
  intros Hh. unfold transport_lines, offered_transport. cbn [identity_fingerprint]. rewrite Hh.
  unfold mbind, res_bind. f_equal. cbn [text_of transport_ref t_ufrag t_password role].
  by rewrite !string_app_assoc, string_app_nil_r.
Qed.

(** A media section with a known transport. *)
Lemma audio_section_eq s send mux t tr :
  get_transport s "audio" = Some t -> transport_lines t = Ret (text_of tr) ->
  media_section s (with_rtcp_mux mux (set_direction (get_rtp_dir send true) AudioContentDescription)) =
    Ret (text_of (section_ref "audio" " 111" send true mux tr audio_codecs_ref)).
Proof.
  intros Ht Htr. unfold media_section. change (mid _) with "audio". rewrite Ht, Htr.
  unfold section_ref. rewrite !text_of_app. unfold mbind, res_bind. generalize (text_of tr). intros x.
  destruct send, mux; vm_compute; reflexivity.
Qed.

Lemma video_section_eq s send mux t tr :
  get_transport s "video" = Some t -> transport_lines t = Ret (text_of tr) ->
  media_section s (with_rtcp_mux mux (set_direction (get_rtp_dir send true) VideoContentDescription)) =
    Ret (text_of (section_ref "video" " 107 99" send true mux tr video_codecs_ref)).
Proof.
  intros Ht Htr. unfold media_section. change (mid _) with "video". rewrite Ht, Htr.
  unfold section_ref. rewrite !text_of_app. unfold mbind, res_bind. generalize (text_of tr). intros x.
  destruct send, mux; vm_compute; reflexivity.
Qed.

(** The description of an offer. *)
Definition offered_media (o : RTCOfferAnswerOptions) : list MediaContentDescription :=
  (if recv_audio o then [with_rtcp_mux (use_rtcp_mux o)
     (set_direction (get_rtp_dir (send_audio o) true) AudioContentDescription)] else []) ++
  (if recv_video o then [with_rtcp_mux (use_rtcp_mux o)
     (set_direction (get_rtp_dir (send_video o) true) VideoContentDescription)] else []).

Definition offered (o : RTCOfferAnswerOptions) (ice : IceParameters) (fp : SSLFingerprint)
    : SessionDescription :=
  let mids := map mid (offered_media o) in
  MkSession OFFER (offered_media o)
    (if use_rtp_mux o then match mids with [] => [] | _ => [MkGroup "BUNDLE" mids] end else [])
    (map (fun m => offered_transport m ice fp) mids).

Section offers.
Context `{Compiler} {G : Type} (Generate : nat -> M G (option (list byte))).
Context (certs : gmap positive RTCCertificate).

Lemma offered_eq o ice p c fp :
  returns_off_end = true -> certs !! p = Some c -> CreateFromCertificate c = Some fp ->
  (s ← add_media certs (recv_audio o) (send_audio o) (recv_audio o) (use_rtcp_mux o)
         AudioContentDescription ice (Some p) (new_SessionDescription OFFER);
   s ← add_media certs (recv_video o) (send_video o) (recv_video o) (use_rtcp_mux o)
         VideoContentDescription ice (Some p) s;
   Ret (if use_rtp_mux o then add_bundle s else s)) = Ret (offered o ice fp).
Proof.
  intros Hret Hp Hfp. unfold add_media, set_rtcp_mux, off_end, deref_cert. rewrite Hret, Hp.
  destruct o as [sa sv ra rv um ur dt]. cbn [recv_audio recv_video send_audio send_video use_rtp_mux use_rtcp_mux].
  destruct ra, rv, um; cbn [mbind res_bind]; unfold add_transport_info; rewrite ?Hfp; reflexivity.
Qed.

Lemma offered_text o ice fp hex :
  GetRfc4572Fingerprint fp = Ret hex ->
  to_string (offered o ice fp) =
    Ret (text_of (offer_ref o ice (algorithm fp) (bytes_string hex))).
Proof.
  intros Hh. pose proof (transport_lines_eq "audio" ice fp hex Hh) as Ha.
  pose proof (transport_lines_eq "video" ice fp hex Hh) as Hv.
  unfold to_string, offer_ref. set (s := offered o ice fp).
  assert (Hsec : media_sections s (offered_media o) = Ret (text_of (
    (if recv_audio o then section_ref "audio" " 111" (send_audio o) true (use_rtcp_mux o)
       (transport_ref ice (algorithm fp) (bytes_string hex)) audio_codecs_ref else []) ++
    (if recv_video o then section_ref "video" " 107 99" (send_video o) true (use_rtcp_mux o)
       (transport_ref ice (algorithm fp) (bytes_string hex)) video_codecs_ref else [])))).
  { assert (Hta : recv_audio o = true -> get_transport s "audio" = Some (offered_transport "audio" ice fp)).
    { intros Hr. unfold s, offered, get_transport, offered_media. rewrite Hr. done. }
    assert (Htv : recv_video o = true -> get_transport s "video" = Some (offered_transport "video" ice fp)).
    { intros Hr. unfold s, offered, get_transport, offered_media. rewrite Hr.
      by destruct (recv_audio o). }
    clearbody s. unfold offered_media.
    destruct (recv_audio o) eqn:Hra, (recv_video o) eqn:Hrv; cbn [app media_sections];
      rewrite ?(audio_section_eq s _ _ _ _ (Hta eq_refl) Ha), ?(video_section_eq s _ _ _ _ (Htv eq_refl) Hv);
      unfold mbind, res_bind; rewrite ?text_of_app, ?string_app_nil_r, ?app_nil_r; done. }
  change (_media_descs s) with (offered_media o). rewrite Hsec. unfold mbind, res_bind. f_equal.
  cbv zeta.
  generalize ((if recv_audio o then section_ref "audio" " 111" (send_audio o) true (use_rtcp_mux o)
       (transport_ref ice (algorithm fp) (bytes_string hex)) audio_codecs_ref else []) ++
    (if recv_video o then section_ref "video" " 107 99" (send_video o) true (use_rtcp_mux o)
       (transport_ref ice (algorithm fp) (bytes_string hex)) video_codecs_ref else []))%list as ls.
  intros ls. rewrite !text_of_app. generalize (text_of ls) as x. unfold s. clear. intros x.
  destruct o as [sa sv ra rv um ur dt]; simpl. destruct ra, rv, um; reflexivity.
Qed.

Lemma create_offer_eq o pc p c fp hex g ice g' :
  returns_off_end = true -> pc_certificate pc = Some p -> certs !! p = Some c -> CreateFromCertificate c = Some fp ->
  GetRfc4572Fingerprint fp = Ret hex ->
  create_random_ice_credentials Generate g = Ret (ice, g') ->
  create_offer Generate certs o pc g =
    Ret ((text_of (offer_ref o ice (algorithm fp) (bytes_string hex)),
          MkPc (Some (offered o ice fp)) (Some p)), g').
Proof.
  intros Hret Hpc Hp Hfp Hh Hice. unfold create_offer. rewrite Hpc.
  rewrite bool_decide_eq_false_2, andb_false_r by done. step Hice.
  pose proof (offered_eq o ice p c fp Hret Hp Hfp) as Hs.
  apply res_bind_ret in Hs as (s1 & H1 & Hs). apply res_bind_ret in Hs as (s2 & H2 & [= Hs]).
  rewrite (M_bind_lift _ _ _ _ H1), (M_bind_lift _ _ _ _ H2), Hs.
  by rewrite (M_bind_lift _ _ _ _ (offered_text o ice fp hex Hh)).
Qed.

(** ** Offers never leave defined behaviour *)

(** A medium whose codecs can be printed: audio codecs have channels. *)
Definition printable (d : MediaContentDescription) : Prop :=
  type d = AUDIO -> Forall (fun c => defined (audio_channels c)) (_codecs d).

Lemma build_rtp_map_defined ty cs :
  (ty = AUDIO -> Forall (fun c => defined (audio_channels c)) cs) -> defined (build_rtp_map ty cs).
Proof.
  intros Hcs. induction cs as [|c cs IH]; [done|]. cbn [build_rtp_map]. apply defined_bind.
  - case_decide as Hty; [|done]. pose proof (Hcs Hty) as Hf. apply Forall_cons in Hf as [Hc _].
    by apply defined_bind.
  - intros ch _. apply defined_bind; [|done]. apply IH. intros Hty.
    pose proof (Hcs Hty) as Hf. by apply Forall_cons in Hf as [_ ?].
Qed.

Lemma transport_lines_defined tr : defined (transport_lines tr).
Proof.
  unfold transport_lines. apply defined_bind; [|done]. destruct (identity_fingerprint tr) as [fp|]; [|done].
  apply defined_bind; [|done]. unfold GetRfc4572Fingerprint. by rewrite hex_encode_with_delimiter_eq.
Qed.

Lemma to_string_defined s : Forall printable (_media_descs s) -> defined (to_string s).
Proof.
  intros Hs. unfold to_string. apply defined_bind; [|done].
  induction Hs as [|d ds Hd _ IH]; [done|]. cbn [media_sections].
  apply defined_bind; [|intros; by apply defined_bind]. unfold media_section. apply defined_bind.
  - destruct (get_transport s (mid d)); [apply transport_lines_defined|done].
  - intros tr _. apply defined_bind; [by apply build_rtp_map_defined|done].
Qed.

Lemma add_media_defined on send recv mux d ice p c s :
  certs !! p = Some c -> printable d -> Forall printable (_media_descs s) ->
  add_media certs on send recv mux d ice (Some p) s = Ub MissingReturn \/
  exists s', add_media certs on send recv mux d ice (Some p) s = Ret s' /\ Forall printable (_media_descs s').
Proof.
  intros Hp Hd Hs. unfold add_media, set_rtcp_mux, off_end, deref_cert. rewrite Hp. destruct on; [|right; by exists s].
  destruct returns_off_end; [right|by left]. eexists. split; [done|]. unfold add_transport_info.
  destruct (CreateFromCertificate c); apply Forall_app_2; try done; by apply Forall_singleton.
Qed.

Lemma create_offer_tame o pc p c g :
  pc_certificate pc = Some p -> certs !! p = Some c -> defined (create_random_ice_credentials Generate g) ->
  tame (create_offer Generate certs o pc g).
Proof.
  intros Hpc Hp Hice. unfold create_offer. rewrite Hpc.
  rewrite bool_decide_eq_false_2, andb_false_r by done. apply tame_M_bind; [by apply defined_tame|].
  intros ice g' _.
  destruct (add_media_defined (recv_audio o) (send_audio o) (recv_audio o) (use_rtcp_mux o)
    AudioContentDescription ice p c (new_SessionDescription OFFER)) as [H1|(s1 & H1 & Hs1)];
    [done|by repeat constructor|done|unfold mbind, M_bind; by rewrite H1|].
  rewrite (M_bind_lift _ _ _ _ H1).
  destruct (add_media_defined (recv_video o) (send_video o) (recv_video o) (use_rtcp_mux o)
    VideoContentDescription ice p c s1) as [H2|(s2 & H2 & Hs2)]; [done|done|done|unfold mbind, M_bind; by rewrite H2|].
  rewrite (M_bind_lift _ _ _ _ H2). apply tame_M_bind; [|done]. apply tame_lift, defined_tame, to_string_defined.
  destruct (use_rtp_mux o); [|done]. unfold add_bundle. by case_match.
Qed.

End offers.

(** ** Codec parameters as a map *)

Fixpoint map_get (m : CodecParam) (k : string) : option string :=
  match m with
  | [] => None
  | (k', v) :: m => if decide (k = k') then Some v else map_get m k
  end.

Definition key_lt (a b : string * string) : Prop := String.compare a.1 b.1 = Lt.

Lemma compare_refl k : String.compare k k = Eq.
Proof. pose proof (String.compare_antisym k k) as H. by destruct (String.compare k k). Qed.

Lemma map_get_set m k v k2 :
  map_get (map_set m k v) k2 = if decide (k2 = k) then Some v else map_get m k2.
Proof.
  induction m as [|[k' v'] m IH]; [done|]. cbn [map_set].
  destruct (String.compare k k') eqn:Hc; cbn [map_get].
  - apply String.compare_eq_iff in Hc. subst k'. by case_decide.
  - done.
  - rewrite IH. destruct (decide (k2 = k')) as [->|]; [|done].
    rewrite decide_False; [done|]. intros ->.
    by rewrite compare_refl in Hc.
Qed.

Lemma map_set_sorted m k v : Sorted key_lt m -> Sorted key_lt (map_set m k v).
Proof.
  induction 1 as [|[k' v'] m Hs IH Hhd]; [repeat constructor|]. cbn [map_set].
  destruct (String.compare k k') eqn:Hc.
  - apply String.compare_eq_iff in Hc. subst k'. constructor; [done|].
    destruct Hhd; constructor. done.
  - repeat constructor; done.
  - constructor; [done|]. assert (Hlt : String.compare k' k = Lt)
      by (by rewrite String.compare_antisym, Hc).
    destruct Hhd as [|[k2 v2] m Hk]; cbn [map_set]; [by constructor|].
    by destruct (String.compare k k2) eqn:?; constructor.
Qed.

(** ** Properties *)

(** The payload types of a description. *)
Definition payload_types (s : SessionDescription) : list Z :=
  _media_descs s ≫= fun d => map id (_codecs d).

Section properties.
Context `{Compiler} {G : Type} (Generate : nat -> M G (option (list byte))).
Context (certs : gmap positive RTCCertificate).

(** C13: with DTLS on, [create_offer] prints exactly the lines of [offer_ref]:
    the session header, the BUNDLE group of the media that are offered, and for
    each medium, audio first, its codecs, direction, ICE credentials, the
    certificate's fingerprint and [actpass]. Without a certificate the offer is
    empty; a certificate that was freed is read all the same.  ([set_rtcp_mux]
    has no [return]: all this needs a compiler that lets it return; with another
    one, an offer of any medium is undefined.) *)
Theorem create_offer_text o pc g ice g' :
  dtls_on o = true -> create_random_ice_credentials Generate g = Ret (ice, g') ->
  (forall p c fp, returns_off_end = true -> pc_certificate pc = Some p -> certs !! p = Some c ->
     CreateFromCertificate c = Some fp ->
     exists hex pc', GetRfc4572Fingerprint fp = Ret hex /\
       create_offer Generate certs o pc g =
         Ret ((text_of (offer_ref o ice (algorithm fp) (bytes_string hex)), pc'), g')) /\
  (pc_certificate pc = None -> create_offer Generate certs o pc g = Ret (("", pc), g)) /\
  (forall p, pc_certificate pc = Some p -> recv_audio o = true \/ recv_video o = true ->
     if returns_off_end then certs !! p = None -> create_offer Generate certs o pc g = Ub UseAfterFree
     else create_offer Generate certs o pc g = Ub MissingReturn).
Proof.
  intros Hd Hice. split_and!.
  - intros p c fp Hret Hpc Hp Hfp.
    assert (exists hex, GetRfc4572Fingerprint fp = Ret hex) as [hex Hh].
    { unfold GetRfc4572Fingerprint. rewrite hex_encode_with_delimiter_eq. by eexists. }
    exists hex. eexists. split; [done|]. by apply (create_offer_eq Generate certs o pc p c fp hex g ice g').
  - intros Hpc. unfold create_offer. by rewrite Hd, Hpc.
  - intros p Hpc Hon. unfold create_offer. rewrite Hpc, Hd. cbn [andb].
    rewrite bool_decide_eq_false_2 by done. step Hice.
    unfold add_media, set_rtcp_mux, off_end, deref_cert. destruct returns_off_end; [intros Hp; rewrite Hp|];
      (destruct (recv_audio o); [done|]; destruct (recv_video o); [done|naive_solver]).
Qed.

(** C27: the description behind an offer is consistent: the media are distinct,
    the BUNDLE group lists exactly them, no payload type is used twice, the
    retransmission codec refers to a codec of the same medium, the parameters
    of a codec are in key order, and every medium has a transport with the same
    credentials and fingerprint.  (For a compiler that lets [set_rtcp_mux], which
    has no [return], return.) *)
Theorem create_offer_consistent o pc p c fp g ice g' :
  returns_off_end = true -> pc_certificate pc = Some p -> certs !! p = Some c -> CreateFromCertificate c = Some fp ->
  create_random_ice_credentials Generate g = Ret (ice, g') ->
  exists text s, create_offer Generate certs o pc g = Ret ((text, MkPc (Some s) (Some p)), g') /\
    NoDup (map mid (_media_descs s)) /\ NoDup (payload_types s) /\
    (forall gr, gr ∈ _content_groups s -> contents gr = map mid (_media_descs s)) /\
    (forall d, d ∈ _media_descs s ->
       get_transport s (mid d) = Some (offered_transport (mid d) ice fp) /\
       forall cd, cd ∈ _codecs d -> Sorted key_lt (codec_params cd) /\
         (forall apt, map_get (codec_params cd) "apt" = Some apt -> apt ∈ map (fun c => dec (id c)) (_codecs d)) /\
         (type d = AUDIO <-> is_Some (channels cd))).
Proof.
  intros Hret Hpc Hp Hfp Hice.
  assert (exists hex, GetRfc4572Fingerprint fp = Ret hex) as [hex Hh].
  { unfold GetRfc4572Fingerprint. rewrite hex_encode_with_delimiter_eq. by eexists. }
  eexists _, _. split; [by apply (create_offer_eq Generate certs o pc p c fp hex g ice g')|].
  clear. unfold offered, offered_media. cbn [_media_descs _content_groups get_transport _transports].
  assert (Haudio : Sorted key_lt (map_set (map_set [] "minptime" "10") "useinbandfec" "1"))
    by (repeat apply map_set_sorted; constructor).
  assert (Hvideo : Sorted key_lt (map_set (map_set (map_set [] "level-asymmetry-allowed" "1")
    "packetization-mode" "1") "profile-level-id" "42e01")) by (repeat apply map_set_sorted; constructor).
  assert (Hrtx : Sorted key_lt (map_set [] "apt" (dec 107))) by (repeat apply map_set_sorted; constructor).
  split; [destruct (recv_audio o), (recv_video o); apply (bool_decide_unpack _); by vm_compute|].
  split; [destruct (recv_audio o), (recv_video o); apply (bool_decide_unpack _); by vm_compute|].
  split.
  - intros gr. destruct (recv_audio o), (recv_video o), (use_rtp_mux o); cbn; set_solver.
  - intros d Hd. apply elem_of_app in Hd.
    assert (Hd' : (recv_audio o = true /\ d = with_rtcp_mux (use_rtcp_mux o)
       (set_direction (get_rtp_dir (send_audio o) true) AudioContentDescription)) \/
      (recv_video o = true /\ d = with_rtcp_mux (use_rtcp_mux o)
       (set_direction (get_rtp_dir (send_video o) true) VideoContentDescription)))
      by (destruct Hd as [Hd|Hd]; [left; destruct (recv_audio o)|right; destruct (recv_video o)];
          [apply list_elem_of_singleton in Hd; split; [reflexivity|exact Hd]|by apply elem_of_nil in Hd|
           apply list_elem_of_singleton in Hd; split; [reflexivity|exact Hd]|by apply elem_of_nil in Hd]).
    clear Hd.
    destruct Hd' as [[Hr ->]|[Hr ->]]; (split; [rewrite Hr; by destruct (recv_audio o)|]);
      intros cd Hcd; cbn [_codecs with_rtcp_mux set_direction AudioContentDescription VideoContentDescription] in *;
      repeat (apply elem_of_cons in Hcd as [->|Hcd]); try (by apply elem_of_nil in Hcd);
      (split; [done|]); (split; [|split; [intros Ht; first [discriminate Ht|eexists; reflexivity]|
        intros [? Hx]; first [discriminate Hx|reflexivity]]]);
      intros apt Hapt; vm_compute in Hapt; try discriminate.
    injection Hapt as <-. apply (bool_decide_unpack _). by vm_compute.
Qed.

End properties.

(** ** An offer *)

#[local] Existing Instance lenient.

(** A self-signed SHA-256 certificate. *)
Definition sim_cert : RTCCertificate :=
  MkCert (Some "sha-256") (fun _ => Some (map z2b (seqZ 0 32))) 2000000000.
Definition sim_fp : SSLFingerprint := MkFingerprint "sha-256" (map z2b (seqZ 0 32)).
Definition sim_opts : RTCOfferAnswerOptions := MkOpts false false true true true true true.
Definition sim_ice : IceParameters :=
  match create_random_ice_credentials test_rng 7 with Ret (ice, _) => ice | _ => MkIce [] [] end.
Definition sim_seed : Z :=
  match create_random_ice_credentials test_rng 7 with Ret (_, g) => g | _ => 0 end.

Lemma sim_ice_eq : create_random_ice_credentials test_rng 7 = Ret (sim_ice, sim_seed).
Proof. by vm_compute. Qed.

Definition sim_certs : gmap positive RTCCertificate := {[1%positive := sim_cert]}.
Lemma sim_cert_at : sim_certs !! 1%positive = Some sim_cert.
Proof. by vm_compute. Qed.

Lemma create_offer_text_witness :
  (exists hex pc', GetRfc4572Fingerprint sim_fp = Ret hex /\
     create_offer (H := lenient) test_rng sim_certs sim_opts (MkPc None (Some 1%positive)) 7 =
       Ret ((text_of (offer_ref sim_opts sim_ice "sha-256" (bytes_string hex)), pc'), sim_seed)) /\
  create_offer test_rng ∅ sim_opts (MkPc None None) 7 = Ret (("", MkPc None None), 7) /\
  create_offer test_rng ∅ sim_opts (MkPc None (Some 1%positive)) 7 = Ub UseAfterFree /\
  create_offer (H := strict) test_rng sim_certs sim_opts (MkPc None (Some 1%positive)) 7 = Ub MissingReturn.
Proof.
  split_and!.
  - destruct (create_offer_text (H := lenient) test_rng sim_certs sim_opts
      (MkPc None (Some 1%positive)) 7 sim_ice sim_seed eq_refl sim_ice_eq) as (Hok & _ & _).
    exact (Hok 1%positive sim_cert sim_fp eq_refl eq_refl sim_cert_at eq_refl).
  - by apply (create_offer_text (H := lenient) test_rng ∅ sim_opts (MkPc None None) 7 sim_ice sim_seed eq_refl sim_ice_eq).
  - destruct (create_offer_text (H := lenient) test_rng ∅ sim_opts (MkPc None (Some 1%positive)) 7 sim_ice sim_seed
      eq_refl sim_ice_eq) as (_ & _ & Hfree).
    exact (Hfree 1%positive eq_refl (or_introl eq_refl) (lookup_empty _)).
  - destruct (create_offer_text (H := strict) test_rng sim_certs sim_opts (MkPc None (Some 1%positive)) 7 sim_ice sim_seed
      eq_refl sim_ice_eq) as (_ & _ & Hnone).
    exact (Hnone 1%positive eq_refl (or_introl eq_refl)).
Defined.

Lemma create_offer_consistent_witness :
  exists text s, create_offer test_rng sim_certs sim_opts (MkPc None (Some 1%positive)) 7 =
      Ret ((text, MkPc (Some s) (Some 1%positive)), sim_seed) /\
    NoDup (map mid (_media_descs s)) /\ NoDup (payload_types s).
Proof.
  destruct (create_offer_consistent (H := lenient) test_rng sim_certs sim_opts
    (MkPc None (Some 1%positive)) 1 sim_cert sim_fp 7 sim_ice sim_seed eq_refl eq_refl sim_cert_at eq_refl sim_ice_eq)
    as (text & s & He & Hm & Hp & _).
  exists text, s. exact (conj He (conj Hm Hp)).
Defined.
