(* ===== verification/RtcWorker.v ===== *)
(** * [stream/] and [server/rtc_worker.cpp]: push streams and the RTC workers

    An RTC worker takes the messages the RTC server sends it, creates a stream
    for a push request and sends the message back, with the offer, to the
    signaling worker it came from.  Streams are objects on a heap; certificates
    are owned by the RTC server and named by their address. *)

From S2P Require Import Prelude LockFreeQueue RandomString Sdp Defs.
#[local] Open Scope Z_scope.
#[local] Open Scope xrtc_scope.

Section rtc_worker.
Context `{Compiler} {G Q : Type} `{FifoQueue (RtcMsg positive) Q}.
Context (Generate : nat -> M G (option (list byte))).

Notation Msg := (RtcMsg positive).

(** ** [rtc_stream.cpp], [push_stream.cpp] *)

Record PushStream := MkStream {
  _uid : Z;
  _stream_name : string;
  _audio : bool;
  _video : bool;
  _log_id : Z;
  _pc : PeerConnection;
}.

(** The constructor leaves [_certificate] unset; [start] is called before it is
    read. *)
Definition new_PushStream (uid : Z) (stream_name : string) (audio video : bool) (log_id : Z) : PushStream :=
  MkStream uid stream_name audio video log_id (MkPc None None).

Definition RtcStream_start (certificate : option positive) (s : PushStream) : PushStream :=
  MkStream (_uid s) (_stream_name s) (_audio s) (_video s) (_log_id s)
    (PeerConnection_init certificate (_pc s)).

(** The options of [PushStream::create_offer]. *)
Definition push_opts (s : PushStream) : RTCOfferAnswerOptions :=
  MkOpts false false (_audio s) (_video s) true true true.

Definition PushStream_create_offer (certs : gmap positive RTCCertificate) (s : PushStream)
    : M G (string * PushStream) :=
  '(offer, pc) ← create_offer Generate certs (push_opts s) (_pc s);
  mret (offer, MkStream (_uid s) (_stream_name s) (_audio s) (_video s) (_log_id s) pc).

(** ** State *)

Record RtcStreamManager := MkManager {
  _push_streams : gmap string positive;
  stream_heap : gmap positive PushStream;
}.

Record RtcWorker := MkRtcWorker {
  rw_worker_id : Z;
  rw_thread : option bool;
  rw_stopped : bool;
  rw_pipe : list Z;
  rw_pipe_open : bool;
  rw_q_msg : Q;
  _rtc_stream_mgr : RtcStreamManager;
  rng : G;
  rw_sent : list (Z * Msg);  (* messages handed to signaling workers *)
}.

Definition QUIT : Z := 0.
Definition RTC_MSG : Z := 1.

Definition rw_set_thread t w := MkRtcWorker (rw_worker_id w) t (rw_stopped w) (rw_pipe w)
  (rw_pipe_open w) (rw_q_msg w) (_rtc_stream_mgr w) (rng w) (rw_sent w).
Definition rw_set_loop stopped open w := MkRtcWorker (rw_worker_id w) (rw_thread w) stopped (rw_pipe w)
  open (rw_q_msg w) (_rtc_stream_mgr w) (rng w) (rw_sent w).
Definition rw_set_pipe p w := MkRtcWorker (rw_worker_id w) (rw_thread w) (rw_stopped w) p
  (rw_pipe_open w) (rw_q_msg w) (_rtc_stream_mgr w) (rng w) (rw_sent w).
Definition rw_set_q q w := MkRtcWorker (rw_worker_id w) (rw_thread w) (rw_stopped w) (rw_pipe w)
  (rw_pipe_open w) q (_rtc_stream_mgr w) (rng w) (rw_sent w).
Definition rw_set_mgr m g w := MkRtcWorker (rw_worker_id w) (rw_thread w) (rw_stopped w) (rw_pipe w)
  (rw_pipe_open w) (rw_q_msg w) m g (rw_sent w).
Definition rw_add_sent x w := MkRtcWorker (rw_worker_id w) (rw_thread w) (rw_stopped w) (rw_pipe w)
  (rw_pipe_open w) (rw_q_msg w) (_rtc_stream_mgr w) (rng w) (rw_sent w ++ [x]).

(** ** [rtc_stream_manager.cpp] *)

Definition find_push_stream (name : string) (m : RtcStreamManager) : option positive :=
  _push_streams m !! name.

(** [delete stream] *)
Definition delete_stream (p : positive) (m : RtcStreamManager) : res RtcStreamManager :=
  match stream_heap m !! p with
  | Some _ => Ret (MkManager (_push_streams m) (delete p (stream_heap m)))
  | None => Ub UseAfterFree
  end.

(** [p] is the address of the new stream. *)
Definition create_push_stream (certs : gmap positive RTCCertificate) (p : positive) (uid : Z)
    (stream_name : string) (audio video : bool) (log_id : Z) (certificate : option positive)
    : M RtcWorker (Z * string) :=
  w ← get;
  m ← (match find_push_stream stream_name (_rtc_stream_mgr w) with
       | None => mret (_rtc_stream_mgr w)
       | Some old =>
           lift (delete_stream old (MkManager (delete stream_name (_push_streams (_rtc_stream_mgr w)))
                                      (stream_heap (_rtc_stream_mgr w))))
       end);
  let stream := RtcStream_start certificate (new_PushStream uid stream_name audio video log_id) in
  '((offer, stream), g) ← lift (PushStream_create_offer certs stream (rng w));
  _ ← modify (rw_set_mgr (MkManager (_push_streams m) (<[p := stream]> (stream_heap m))) g);
  mret (0, offer).

(** ** [rtc_worker.cpp] *)

(** The constructor; [g] is the state of the random generator. *)
Definition new_RtcWorker (worker_id : Z) (g : G) : RtcWorker :=
  MkRtcWorker worker_id None false [] false q_new (MkManager ∅ ∅) g [].

Definition rw_init (pipe_ok : bool) : M RtcWorker Z :=
  if pipe_ok then _ ← modify (rw_set_loop false true); mret 0 else mret (-1).

Definition rw_start : M RtcWorker bool :=
  w ← get;
  match rw_thread w with
  | Some _ => mret false
  | None => _ ← modify (rw_set_thread (Some true)); mret true
  end.

Definition rw_notify (write_ok : bool) (msg : Z) : M RtcWorker Z :=
  if write_ok then _ ← modify (fun w => rw_set_pipe (rw_pipe w ++ [msg]) w); mret 0 else mret (-1).

Definition rw_stop (write_ok : bool) : M RtcWorker unit := _ ← rw_notify write_ok QUIT; mret tt.

Definition rw_join : M RtcWorker unit :=
  w ← get;
  match rw_thread w with Some true => modify (rw_set_thread (Some false)) | _ => mret tt end.

Definition rw_push_msg (m : Msg) : M RtcWorker unit :=
  w ← get; q ← lift (q_produce m (rw_q_msg w)); modify (rw_set_q q).

Definition rw_pop_msg : M RtcWorker (option Msg) :=
  w ← get; '(o, q) ← lift (q_consume (rw_q_msg w)); _ ← modify (rw_set_q q); mret o.

Definition rw_send_rtc_msg (write_ok : bool) (m : Msg) : M RtcWorker Z :=
  _ ← rw_push_msg m; rw_notify write_ok RTC_MSG.

Definition rw_process_push (certs : gmap positive RTCCertificate) (p : positive) (m : Msg)
    : M RtcWorker unit :=
  '(ret, offer) ← create_push_stream certs p (uid m) (stream_name m) (negb (audio m =? 0))
                    (negb (video m =? 0)) (u32 (log_id m)) (certificate m);
  if negb (ret =? 0) then mret tt
  else
    let m := set_sdp offer m in
    match woeker m with
    | None => mret tt
    | Some sw => modify (rw_add_sent (sw, m))
    end.

(** The handlers of the other commands are empty. *)
Definition rw_process_rtc_msg (certs : gmap positive RTCCertificate) (p : positive) : M RtcWorker unit :=
  o ← rw_pop_msg;
  match o with
  | None => mret tt
  | Some m => if cmdno m =? CMDNO_PUSH then rw_process_push certs p m else mret tt
  end.

Definition rw__stop : M RtcWorker unit :=
  w ← get;
  match rw_thread w with None => mret tt | Some _ => modify (rw_set_loop true false) end.

Definition rw_process_notify (certs : gmap positive RTCCertificate) (p : positive) (msg : Z)
    : M RtcWorker unit :=
  if msg =? QUIT then rw__stop
  else if msg =? RTC_MSG then rw_process_rtc_msg certs p
  else mret tt.

(** [rtc_worker_recv_notify]: one [int] is read from the pipe. *)
Definition rtc_worker_recv_notify (certs : gmap positive RTCCertificate) (p : positive) : M RtcWorker unit :=
  w ← get;
  match rw_pipe w with
  | [] => mret tt
  | msg :: rest => _ ← modify (rw_set_pipe rest); rw_process_notify certs p msg
  end.

(** The destructor; deleting a [std::thread] that is joinable ends the program. *)
Definition destroy_rtc_worker : M RtcWorker unit :=
  w ← get;
  match rw_thread w with
  | Some true => lift Abort
  | _ => modify (fun w => rw_set_thread None (rw_set_loop true (rw_pipe_open w) w))
  end.

End rtc_worker.

(** ** Properties *)

Section properties.
Context `{Compiler} {G Q : Type} `{FifoQueue (RtcMsg positive) Q}.
Context (Generate : nat -> M G (option (list byte))).

Notation Msg := (RtcMsg positive).
Notation RtcWorker := (RtcWorker (G := G) (Q := Q)).
Implicit Types (w : RtcWorker) (m : Msg).

(** The offer a push request is answered with. *)
Definition push_offer (m : Msg) (ice : IceParameters) (fp : StringEncode.SSLFingerprint)
    (hex : list byte) : string :=
  text_of (offer_ref (MkOpts false false (negb (audio m =? 0)) (negb (video m =? 0)) true true true)
             ice (StringEncode.algorithm fp) (bytes_string hex)).

(** The streams that exist are not in the map, so nothing deletes them. *)
Definition mgr_ok (w : RtcWorker) : Prop := _push_streams (_rtc_stream_mgr w) = ∅.

Lemma process_push_eq certs p w m cp c fp hex ice g' :
  returns_off_end = true -> mgr_ok w -> certificate m = Some cp -> certs !! cp = Some c -> CreateFromCertificate c = Some fp ->
  StringEncode.GetRfc4572Fingerprint fp = Ret hex ->
  create_random_ice_credentials Generate (rng w) = Ret (ice, g') ->
  exists st, rw_process_push Generate certs p m w =
    Ret (tt, match woeker m with
             | None => rw_set_mgr (MkManager ∅ (<[p := st]> (stream_heap (_rtc_stream_mgr w)))) g' w
             | Some sw => rw_add_sent (sw, set_sdp (push_offer m ice fp hex) m)
                 (rw_set_mgr (MkManager ∅ (<[p := st]> (stream_heap (_rtc_stream_mgr w)))) g' w)
             end).
Proof.
  intros Hret Hm Hcp Hc Hfp Hh Hice. unfold rw_process_push, create_push_stream.
  set (st0 := RtcStream_start (certificate m) (new_PushStream (uid m) (stream_name m)
    (negb (audio m =? 0)) (negb (video m =? 0)) (u32 (log_id m)))).
  pose proof (create_offer_eq Generate certs (push_opts st0) (_pc st0) cp c fp hex (rng w) ice g'
    Hret Hcp Hc Hfp Hh Hice) as Hoff.
  assert (Hps : exists st, PushStream_create_offer Generate certs st0 (rng w) =
    Ret ((push_offer m ice fp hex, st), g')).
  { unfold PushStream_create_offer. step Hoff. by eexists. }
  destruct Hps as [st Hps]. exists st.
  unfold mbind at 1, M_bind at 1. rewrite M_bind_get. unfold find_push_stream.
  unfold mgr_ok in Hm. rewrite Hm, lookup_empty, M_bind_mret.
  rewrite (M_bind_lift _ _ _ _ Hps), M_bind_modify, Hm. unfold mret, M_ret. cbn beta iota.
  match goal with |- context[woeker (set_sdp ?t m)] => change (woeker (set_sdp t m)) with (woeker m) end.
  by destruct (woeker m).
Qed.

(** Handling the notification of the oldest message. *)
Lemma recv_notify_push certs p w m rest pipe cp c fp ice g' :
  returns_off_end = true -> mgr_ok w -> q_ok (rw_q_msg w) -> q_view (rw_q_msg w) = m :: rest -> rw_pipe w = RTC_MSG :: pipe ->
  certificate m = Some cp -> certs !! cp = Some c -> CreateFromCertificate c = Some fp ->
  create_random_ice_credentials Generate (rng w) = Ret (ice, g') ->
  exists w' hex, rtc_worker_recv_notify Generate certs p w = Ret (tt, w') /\
    StringEncode.GetRfc4572Fingerprint fp = Ret hex /\
    q_ok (rw_q_msg w') /\ q_view (rw_q_msg w') = rest /\ rw_pipe w' = pipe /\ mgr_ok w' /\
    rw_sent w' = rw_sent w ++
      (if cmdno m =? CMDNO_PUSH
       then match woeker m with
            | Some sw => [(sw, set_sdp (push_offer m ice fp hex) m)]
            | None => []
            end
       else []).
Proof.
  intros Hret Hm Hq Hv Hp Hcp Hc Hfp Hice.
  assert (exists hex, StringEncode.GetRfc4572Fingerprint fp = Ret hex) as [hex Hh].
  { unfold StringEncode.GetRfc4572Fingerprint. rewrite StringEncode.hex_encode_with_delimiter_eq.
    by eexists. }
  unfold rtc_worker_recv_notify. rewrite M_bind_get, Hp, M_bind_modify.
  unfold rw_process_notify. change (RTC_MSG =? QUIT) with false. change (RTC_MSG =? RTC_MSG) with true.
  cbv iota. unfold rw_process_rtc_msg, rw_pop_msg. set (w1 := rw_set_pipe pipe w).
  destruct (q_consume_ok (rw_q_msg w1) Hq) as (q' & Hcons & Hq' & Hv').
  change (rw_q_msg w1) with (rw_q_msg w) in *. rewrite Hv in *. simpl in Hcons, Hv'.
  erewrite M_bind_eq; [|rewrite M_bind_get, (M_bind_lift _ _ _ _ Hcons), M_bind_modify; done].
  cbn beta iota. set (w2 := rw_set_q q' w1).
  destruct (cmdno m =? CMDNO_PUSH).
  - destruct (process_push_eq certs p w2 m cp c fp hex ice g') as [st Hst]; try done.
    eexists _, hex. split; [done|]. by destruct (woeker m); rewrite ?app_nil_r.
  - exists w2, hex. split; [done|]. rewrite app_nil_r. done.
Qed.

(** C12: a push request is answered: when its notification is handled, the
    oldest message of the queue goes back to the signaling worker it names,
    unchanged but for the SDP, which is the offer for the media it asks for;
    other commands are taken from the queue and dropped.  (For a compiler that
    lets [set_rtcp_mux], which has no [return], return.) *)
Theorem push_answered certs p w m rest pipe cp c fp ice g' :
  returns_off_end = true -> mgr_ok w -> q_ok (rw_q_msg w) -> q_view (rw_q_msg w) = m :: rest -> rw_pipe w = RTC_MSG :: pipe ->
  certificate m = Some cp -> certs !! cp = Some c -> CreateFromCertificate c = Some fp ->
  create_random_ice_credentials Generate (rng w) = Ret (ice, g') ->
  exists w' hex, rtc_worker_recv_notify Generate certs p w = Ret (tt, w') /\
    StringEncode.GetRfc4572Fingerprint fp = Ret hex /\
    q_ok (rw_q_msg w') /\ q_view (rw_q_msg w') = rest /\ rw_pipe w' = pipe /\ mgr_ok w' /\
    rw_sent w' = rw_sent w ++
      (if cmdno m =? CMDNO_PUSH
       then match woeker m with
            | Some sw => [(sw, set_sdp (push_offer m ice fp hex) m)]
            | None => []
            end
       else []).
Proof. intros. by eapply recv_notify_push. Qed.

(** ** Messages move, whatever happens *)

(** [x] answers [m]: to the worker that asked, the message with an SDP. *)
Definition answers (m : Msg) (x : Z * Msg) : Prop :=
  woeker m = Some x.1 /\ exists o, x.2 = set_sdp o m.

(** The messages a worker gets: pushes that name who asks. *)
Definition push_msg (m : Msg) : Prop := cmdno m = CMDNO_PUSH /\ is_Some (woeker m).

Lemma process_push_sent certs p m w w' sw :
  woeker m = Some sw -> rw_process_push Generate certs p m w = Ret (tt, w') ->
  rw_q_msg w' = rw_q_msg w /\ exists o, rw_sent w' = rw_sent w ++ [(sw, set_sdp o m)].
Proof.
  intros Hsw Hr. unfold rw_process_push in Hr. apply M_bind_ret in Hr as ([r o] & w1 & H1 & Hr).
  assert (Hw1 : r = 0 /\ rw_q_msg w1 = rw_q_msg w /\ rw_sent w1 = rw_sent w).
  { unfold create_push_stream in H1. rewrite M_bind_get in H1.
    apply M_bind_ret in H1 as (mgr & w2 & H2 & H1).
    assert (w2 = w) as -> by (destruct (find_push_stream _ _); [unfold lift in H2; destruct (delete_stream _ _); by simplify_eq|by injection H2]).
    apply M_bind_ret in H1 as ([[o' st] g] & w3 & H3 & H1). unfold lift in H3.
    destruct (PushStream_create_offer _ _ _ _) as [[[]]| | |]; simplify_eq. by inv_M H1. }
  destruct Hw1 as (-> & Hq & Hs). change (negb (0 =? 0)) with false in Hr. cbv iota in Hr.
  change (woeker (set_sdp o m)) with (woeker m) in Hr. rewrite Hsw in Hr.
  injection Hr as <-. cbn. rewrite Hq, Hs. eauto.
Qed.

(** Handling a notification answers at most the oldest message. *)
Lemma recv_notify_sent certs p w w' :
  q_ok (rw_q_msg w) -> Forall push_msg (q_view (rw_q_msg w)) ->
  rtc_worker_recv_notify Generate certs p w = Ret (tt, w') ->
  q_ok (rw_q_msg w') /\ exists ms xs, q_view (rw_q_msg w) = ms ++ q_view (rw_q_msg w') /\
    rw_sent w' = rw_sent w ++ xs /\ Forall2 answers ms xs.
Proof.
  intros Hq Hf Hr. unfold rtc_worker_recv_notify in Hr. rewrite M_bind_get in Hr.
  assert (Hnone : forall w', rw_q_msg w' = rw_q_msg w -> rw_sent w' = rw_sent w ->
    q_ok (rw_q_msg w') /\ exists ms xs, q_view (rw_q_msg w) = ms ++ q_view (rw_q_msg w') /\
      rw_sent w' = rw_sent w ++ xs /\ Forall2 answers ms xs).
  { intros w1 -> ->. split; [done|]. exists [], []. by rewrite app_nil_r. }
  destruct (rw_pipe w) as [|msg pipe]; [injection Hr as <-; by apply Hnone|].
  rewrite M_bind_modify in Hr. set (w1 := rw_set_pipe pipe w) in *.
  unfold rw_process_notify in Hr. destruct (msg =? QUIT).
  { unfold rw__stop in Hr. rewrite M_bind_get in Hr. case_match; injection Hr as <-; by apply Hnone. }
  destruct (msg =? RTC_MSG); [|injection Hr as <-; by apply Hnone].
  unfold rw_process_rtc_msg in Hr. apply M_bind_ret in Hr as (o & w2 & Hpop & Hr).
  unfold rw_pop_msg in Hpop. rewrite M_bind_get in Hpop. change (rw_q_msg w1) with (rw_q_msg w) in Hpop.
  destruct (q_consume_ok (rw_q_msg w) Hq) as (q' & Hcons & Hq' & Hv').
  rewrite (M_bind_lift _ _ _ _ Hcons), M_bind_modify in Hpop. injection Hpop as <- <-.
  destruct (q_view (rw_q_msg w)) as [|m rest]; simpl in *.
  { injection Hr as <-. cbn. rewrite Hv'. split; [done|]. exists [], []. by rewrite ?app_nil_r. }
  apply Forall_cons in Hf as [[Hcmd [sw Hsw]] Hf]. rewrite Hcmd, Z.eqb_refl in Hr.
  destruct (process_push_sent _ _ _ _ _ _ Hsw Hr) as (Hqe & o & Hs). rewrite Hqe, Hs. cbn. rewrite Hv'.
  split; [done|]. exists [m], [(sw, set_sdp o m)]. split_and!; [done..|]. repeat constructor; eauto.
Qed.

(** ** No undefined behaviour while the certificates live *)

(** Every message in the queue carries the live certificate [p0]. *)
Definition carries (p0 : positive) (w : RtcWorker) : Prop :=
  Forall (fun m => certificate m = Some p0) (q_view (rw_q_msg w)).

Lemma recv_notify_tame certs p w p0 c0 :
  total Generate -> fills Generate ICE_UFRAG_LEN -> fills Generate ICE_PASSWORD_LEN ->
  mgr_ok w -> q_ok (rw_q_msg w) -> carries p0 w -> certs !! p0 = Some c0 ->
  tame (rtc_worker_recv_notify Generate certs p w).
Proof.
  intros Ht Hu Hpw Hm Hq Hc Hp0. unfold rtc_worker_recv_notify. rewrite M_bind_get.
  destruct (rw_pipe w) as [|msg pipe]; [done|]. rewrite M_bind_modify. unfold rw_process_notify.
  set (w1 := rw_set_pipe pipe w).
  destruct (msg =? QUIT); [unfold rw__stop; rewrite M_bind_get; by case_match|].
  destruct (msg =? RTC_MSG); [|done]. unfold rw_process_rtc_msg, rw_pop_msg.
  unfold mbind at 1, M_bind at 1. rewrite M_bind_get. change (rw_q_msg w1) with (rw_q_msg w).
  destruct (q_consume_ok (rw_q_msg w) Hq) as (q' & Hcons & _ & _).
  rewrite (M_bind_lift _ _ _ _ Hcons), M_bind_modify. unfold mret at 1, M_ret at 1. cbn beta iota.
  unfold carries in Hc. destruct (q_view (rw_q_msg w)) as [|m rest]; [done|]. cbn [head].
  apply Forall_cons in Hc as [Hcert _]. destruct (cmdno m =? CMDNO_PUSH); [|done].
  unfold rw_process_push. apply tame_M_bind; [|intros [r o] w2 _; by repeat case_match].
  unfold create_push_stream. rewrite M_bind_get. unfold find_push_stream.
  change (_rtc_stream_mgr (rw_set_q q' w1)) with (_rtc_stream_mgr w). unfold mgr_ok in Hm.
  rewrite Hm, lookup_empty, M_bind_mret. apply tame_M_bind; [|by intros [[] ?]].
  apply tame_lift. unfold PushStream_create_offer. apply tame_M_bind; [|by intros []].
  apply (create_offer_tame Generate certs _ _ p0 c0); [done..|]. by apply ice_credentials_defined.
Qed.

(** ** Runs of a worker *)

(** What happens to an RTC worker: a notification is handled, while the RTC
    server keeps the certificates [certs] alive and the allocator answers a
    fresh address, or the server sends a message. *)
Inductive rw_step : RtcWorker -> RtcWorker -> Prop :=
  | rw_step_notify certs p w w' :
      stream_heap (_rtc_stream_mgr w) !! p = None ->
      rtc_worker_recv_notify Generate certs p w = Ret (tt, w') -> rw_step w w'
  | rw_step_send ok m r w w' : rw_send_rtc_msg ok m w = Ret (r, w') -> rw_step w w'
  | rw_step_stop ok w w' : rw_stop ok w = Ret (tt, w') -> rw_step w w'
  | rw_step_init ok r w w' : rw_init ok w = Ret (r, w') -> rw_step w w'
  | rw_step_start b w w' : rw_start w = Ret (b, w') -> rw_step w w'
  | rw_step_join w w' : rw_join w = Ret (tt, w') -> rw_step w w'.

Definition streams (w : RtcWorker) : gmap positive PushStream := stream_heap (_rtc_stream_mgr w).

Lemma process_push_streams certs p m w w' :
  mgr_ok w -> streams w !! p = None -> rw_process_push Generate certs p m w = Ret (tt, w') ->
  mgr_ok w' /\ streams w ⊆ streams w' /\ is_Some (streams w' !! p).
Proof.
  intros Hm Hp Hr. unfold rw_process_push, create_push_stream, find_push_stream in Hr.
  unfold mbind at 1, M_bind at 1 in Hr. rewrite M_bind_get in Hr.
  pose proof Hm as Hm'. unfold mgr_ok in Hm'. rewrite Hm', lookup_empty, M_bind_mret in Hr.
  destruct (PushStream_create_offer _ _ _ _) as [[[offer st] g]| | |] eqn:Hps; try done.
  cbn in Hr. rewrite Hm' in Hr.
  assert (Hins : streams w ⊆ <[p := st]> (streams w)) by by apply insert_subseteq.
  destruct (woeker m); injection Hr as <-; unfold mgr_ok, streams in *; simpl; rewrite lookup_insert_eq;
    (split; [done|]); (split; [done|by eexists]).
Qed.

Lemma rw_step_streams w w' : mgr_ok w -> rw_step w w' -> mgr_ok w' /\ streams w ⊆ streams w'.
Proof.
  intros Hm Hs. destruct Hs as [certs p w w' Hp Hr|ok m r w w' Hr|ok w w' Hr|ok r w w' Hr|b w w' Hr|w w' Hr].
  - unfold rtc_worker_recv_notify in Hr. rewrite M_bind_get in Hr.
    destruct (rw_pipe w) as [|msg pipe]; [by injection Hr as <-|]. rewrite M_bind_modify in Hr.
    unfold rw_process_notify in Hr. destruct (msg =? QUIT).
    { unfold rw__stop in Hr. rewrite M_bind_get in Hr. by case_match; injection Hr as <-. }
    destruct (msg =? RTC_MSG); [|by injection Hr as <-].
    unfold rw_process_rtc_msg in Hr. apply M_bind_ret in Hr as (o & w1 & Hpop & Hr).
    assert (Hw1 : _rtc_stream_mgr w1 = _rtc_stream_mgr w).
    { unfold rw_pop_msg in Hpop. rewrite M_bind_get in Hpop.
      apply M_bind_ret in Hpop as ([o' q'] & w2 & Hl & Hpop). unfold lift in Hl.
      destruct (q_consume _) as [[]| | |]; simplify_eq. rewrite M_bind_modify in Hpop.
      by injection Hpop as <- <-. }
    destruct o as [m|]; [|injection Hr as <-; unfold mgr_ok, streams; by rewrite Hw1].
    destruct (cmdno m =? CMDNO_PUSH); [|injection Hr as <-; unfold mgr_ok, streams; by rewrite Hw1].
    destruct (process_push_streams certs p m w1 w') as (? & Hsub & _); try done.
    + unfold mgr_ok. by rewrite Hw1.
    + unfold streams. by rewrite Hw1.
    + split; [done|]. unfold streams in *. by rewrite Hw1 in Hsub.
  - unfold rw_send_rtc_msg, rw_push_msg in Hr. apply M_bind_ret in Hr as (u & w1 & Hpush & Hr).
    rewrite M_bind_get in Hpush. apply M_bind_ret in Hpush as (q & w2 & Hl & Hpush).
    unfold lift in Hl. destruct (q_produce _ _); simplify_eq. injection Hpush as <- <-.
    unfold rw_notify in Hr. by destruct ok; injection Hr as <- <-.
  - unfold rw_stop, rw_notify in Hr. by destruct ok; cbn in Hr; injection Hr as <-.
  - unfold rw_init in Hr. by destruct ok; injection Hr as <- <-.
  - unfold rw_start in Hr. rewrite M_bind_get in Hr. by case_match; injection Hr as <- <-.
  - unfold rw_join in Hr. rewrite M_bind_get in Hr. by repeat case_match; injection Hr as <-.
Qed.

(** The map of push streams is never filled: whatever messages a worker
    receives, [find_push_stream] finds nothing, so a second push of the same
    name does not replace the first stream, and no stream is ever deleted. *)
Theorem push_streams_leak wid g w w' name :
  rtc rw_step (new_RtcWorker wid g) w -> rtc rw_step w w' ->
  find_push_stream name (_rtc_stream_mgr w) = None /\ streams w ⊆ streams w'.
Proof.
  intros H1 H2.
  assert (Hinv : forall a b, rtc rw_step a b -> mgr_ok a -> mgr_ok b /\ streams a ⊆ streams b).
  { intros a b Hab. induction Hab as [a|a b c Hs Hrest IH]; intros Ha; [done|].
    destruct (rw_step_streams a b Ha Hs) as [Hb Hsub]. destruct (IH Hb) as [Hc Hsub'].
    split; [done|]. by etrans. }
  destruct (Hinv _ _ H1 eq_refl) as [Hw _]. destruct (Hinv _ _ H2 Hw) as [_ Hsub].
  split; [|done]. unfold find_push_stream. by rewrite Hw.
Qed.

End properties.

(** ** A worker with one push request *)

#[local] Existing Instance lenient.

Definition null_msg : RtcMsg positive := MkRtcMsg 0 "" 0 0 0 None 0 None None 0 "" 0.
#[local] Instance msg_fifo : FifoQueue (RtcMsg positive) lfq := lfq_fifo null_msg.
#[local] Notation SimRtcWorker := (RtcWorker (G := Z) (Q := lfq (T := RtcMsg positive))).

Definition sim_request : RtcMsg positive :=
  MkRtcMsg CMDNO_PUSH "live" 1 1 9 (Some 1%positive) 77 (Some 3) (Some 1%positive) 7 "" 0.

Definition sim_fresh : SimRtcWorker :=
  match rw_init true (new_RtcWorker 0 7) with Ret (_, w) => w | _ => new_RtcWorker 0 7 end.
Definition sim_loaded : SimRtcWorker :=
  match rw_send_rtc_msg true sim_request sim_fresh with Ret (_, w) => w | _ => sim_fresh end.
Definition sim_hex : list byte :=
  match StringEncode.GetRfc4572Fingerprint sim_fp with Ret hex => hex | _ => [] end.

Lemma push_answered_witness :
  exists w' hex, rtc_worker_recv_notify test_rng sim_certs 1 sim_loaded = Ret (tt, w') /\
    StringEncode.GetRfc4572Fingerprint sim_fp = Ret hex /\
    q_ok (rw_q_msg w') /\ q_view (rw_q_msg w') = [] /\ rw_pipe w' = [] /\ mgr_ok w' /\
    rw_sent w' = [] ++ [(3, set_sdp (push_offer sim_request sim_ice sim_fp hex) sim_request)].
Proof.
  destruct (q_produce_ok sim_request (rw_q_msg sim_fresh)) as (q & Hp & Hq & Hv);
    [apply q_new_ok|].
  assert (Hload : sim_loaded = rw_set_pipe [RTC_MSG] (rw_set_q q sim_fresh)).
  { unfold sim_loaded, rw_send_rtc_msg, rw_push_msg. unfold mbind at 1, M_bind at 1.
    rewrite M_bind_get, (M_bind_lift _ _ _ _ Hp). done. }
  rewrite Hload.
  apply (push_answered test_rng sim_certs 1 (rw_set_pipe [RTC_MSG] (rw_set_q q sim_fresh)) sim_request
           [] [] 1 sim_cert sim_fp sim_ice sim_seed).
  - reflexivity.
  - done.
  - done.
  - change (q_view q = [sim_request]). rewrite Hv. by vm_compute.
  - done.
  - done.
  - apply sim_cert_at.
  - done.
  - apply sim_ice_eq.
Defined.

Lemma push_streams_leak_witness :
  find_push_stream "live" (_rtc_stream_mgr sim_loaded) = None /\
  exists w', rtc (rw_step test_rng) sim_loaded w' /\ streams sim_loaded ⊆ streams w' /\
    is_Some (streams w' !! 1%positive).
Proof.
  assert (Hrun : rtc (rw_step test_rng) (new_RtcWorker 0 7) sim_loaded).
  { eapply rtc_l; [apply (rw_step_init _ true 0); by vm_compute|].
    eapply rtc_l; [|apply rtc_refl]. apply (rw_step_send _ true sim_request 0). by vm_compute. }
  assert (Hstep : exists w', rw_step test_rng sim_loaded w' /\ is_Some (streams w' !! 1%positive)).
  { eexists. split.
    - apply (rw_step_notify _ sim_certs 1); [by vm_compute|]. vm_compute. reflexivity.
    - eexists. vm_compute. reflexivity. }
  destruct Hstep as (w' & Hs & Hin).
  destruct (push_streams_leak test_rng 0 7 sim_loaded w' "live" Hrun (rtc_l _ _ _ _ Hs (rtc_refl _ _)))
    as [Hf Hsub].
  split; [exact Hf|]. exists w'. split; [exact (rtc_l _ _ _ _ Hs (rtc_refl _ _))|]. exact (conj Hsub Hin).
Defined.
