(* ===== verification/RtcServer.v ===== *)
(** * [server/rtc_server.cpp], with [rtc_base/rtc_certificate.cc]

    The RTC server owns the certificate and the RTC workers.  Signaling workers
    push messages on its queue; its event loop checks the certificate and hands
    each message to the worker of its stream name. *)

From S2P Require Import Prelude Crc32 CertTime LockFreeQueue RandomString Sdp Defs RtcWorker.
#[local] Open Scope Z_scope.
#[local] Open Scope xrtc_scope.

(** ** [rtc_certificate.cc], [rtc_certificate_generator.cc] *)

Definition Expires (c : RTCCertificate) : Z :=
  let expires := CertificateExpirationTime c in
  if negb (expires =? -1) then u64 (u64 expires * 1000) else 0.

Definition HasExpired (c : RTCCertificate) (now : Z) : bool := Expires c <=? now.

Definition kYearInSeconds : Z := 365 * 24 * 60 * 60.
Definition k_year_in_ms : Z := 365 * 24 * 3600 * 1000.

(** [GenerateCertificate]; [SSLIdentity_Create] makes an identity for the given
    lifetime, of the default lifetime for [None]. *)
Definition GenerateCertificate (key_params : KeyParams) (expires_ms : option Z)
    (SSLIdentity_Create : option Z -> option RTCCertificate) : option RTCCertificate :=
  if negb (IsValid key_params) then None
  else match expires_ms with
  | None => SSLIdentity_Create None
  | Some ms => SSLIdentity_Create (Some (Z.min (ms / 1000) kYearInSeconds))
  end.

Section rtc_server.
Context {G Q : Type} `{FifoQueue (RtcMsg positive) Q}.
Context (Generate : nat -> M G (option (list byte))).

Notation Msg := (RtcMsg positive).
Notation RtcWorker := (RtcWorker (G := G) (Q := Q)).

(** ** State *)

Record RtcServer := MkRtcServer {
  worker_num : Z;
  rs_thread : option bool;
  rs_stopped : bool;
  rs_pipe : list Z;
  rs_pipe_open : bool;
  rs_q_msg : list Msg;
  rs_workers : list RtcWorker;
  _certificate : option positive;
  cert_heap : gmap positive RTCCertificate;
}.

Definition rs_set_thread t s := MkRtcServer (worker_num s) t (rs_stopped s) (rs_pipe s) (rs_pipe_open s)
  (rs_q_msg s) (rs_workers s) (_certificate s) (cert_heap s).
Definition rs_set_loop stopped open s := MkRtcServer (worker_num s) (rs_thread s) stopped (rs_pipe s) open
  (rs_q_msg s) (rs_workers s) (_certificate s) (cert_heap s).
Definition rs_set_pipe p s := MkRtcServer (worker_num s) (rs_thread s) (rs_stopped s) p (rs_pipe_open s)
  (rs_q_msg s) (rs_workers s) (_certificate s) (cert_heap s).
Definition rs_set_q q s := MkRtcServer (worker_num s) (rs_thread s) (rs_stopped s) (rs_pipe s)
  (rs_pipe_open s) q (rs_workers s) (_certificate s) (cert_heap s).
Definition rs_set_workers ws s := MkRtcServer (worker_num s) (rs_thread s) (rs_stopped s) (rs_pipe s)
  (rs_pipe_open s) (rs_q_msg s) ws (_certificate s) (cert_heap s).
Definition rs_set_num n s := MkRtcServer n (rs_thread s) (rs_stopped s) (rs_pipe s)
  (rs_pipe_open s) (rs_q_msg s) (rs_workers s) (_certificate s) (cert_heap s).
Definition rs_set_cert c h s := MkRtcServer (worker_num s) (rs_thread s) (rs_stopped s) (rs_pipe s)
  (rs_pipe_open s) (rs_q_msg s) (rs_workers s) c h.

(** A method of the worker at index [i]. *)
Definition on_worker {A} (i : nat) (f : M RtcWorker A) : M RtcServer A := fun s =>
  match rs_workers s !! i with
  | None => Ub OutOfBounds
  | Some w =>
      match f w with
      | Ret (a, w') => Ret (a, rs_set_workers (<[i := w']> (rs_workers s)) s)
      | Abort => Abort
      | Ub u => Ub u
      | OutOfFuel => OutOfFuel
      end
  end.

(** ** The code *)

Definition new_RtcServer : RtcServer := MkRtcServer 0 None false [] false [] [] None ∅.

(** What the system answers during a check of the certificate: the time in
    seconds, an identity, and the address of a new certificate. *)
Record cert_env := CertEnv {
  e_time : Z;
  e_identity : option Z -> option RTCCertificate;
  e_cert_addr : positive;
}.

(** Assigning to the reference releases the old certificate: the server has the
    only counted reference to it. *)
Definition _generate_and_check_certificate (e : cert_env) : M RtcServer Z :=
  s ← get;
  stale ← (match _certificate s with
           | None => mret true
           | Some p =>
               match cert_heap s !! p with
               | Some c => mret (HasExpired c (u64 (e_time e * 1000)))
               | None => ub_ UseAfterFree
               end
           end);
  _ ← (if (stale : bool) then
         let h := match _certificate s with
                  | Some p => delete p (cert_heap s) | None => cert_heap s end in
         match GenerateCertificate KeyParams_default (Some k_year_in_ms) (e_identity e) with
         | Some c => modify (rs_set_cert (Some (e_cert_addr e)) (<[e_cert_addr e := c]> h))
         | None => modify (rs_set_cert None h)
         end
       else mret tt);
  s ← get;
  match _certificate s with None => mret (-1) | Some _ => mret 0 end.

(** [new RtcWorker], [init], [start]; the worker is not deleted on a failure.
    [g]: the state of the worker's random generator. *)
Definition rs_create_worker (pipe_ok : bool) (g : G) (worker_id : Z) : M RtcServer Z :=
  match (r ← rw_init pipe_ok; if negb (r =? 0) then mret (-1)
         else b ← rw_start; if negb b then mret (-1) else mret 0) (new_RtcWorker worker_id g) with
  | Ret (r, w) =>
      if r =? 0 then
        _ ← modify (fun s => rs_set_workers (rs_workers s ++ [w]) s); mret 0
      else mret r
  | Abort => lift Abort
  | Ub u => ub_ u
  | OutOfFuel => lift OutOfFuel
  end.

(** The loop [for (i = 0; i < worker_num; ++i)], from [i] for [n] more
    workers; [pipes] tells which of their pipes could be created. *)
Fixpoint rs_create_workers (n : nat) (i : Z) (pipes : Z -> bool) (gs : Z -> G) : M RtcServer Z :=
  match n with
  | O => mret 0
  | S n =>
      r ← rs_create_worker (pipes i) (gs i) i;
      if negb (r =? 0) then mret (-1) else rs_create_workers n (i + 1) pipes gs
  end.

(** [conf]: [None] for a null file name, else what YAML makes of
    [worker_num]. *)
Definition rs_init (conf : option (option Z)) (e : cert_env) (pipe_ok : bool) (pipes : Z -> bool)
    (gs : Z -> G) : M RtcServer Z :=
  match conf with
  | None | Some None => mret (-1)
  | Some (Some n) =>
      _ ← modify (rs_set_num n);
      r ← _generate_and_check_certificate e;
      if negb (r =? 0) then mret (-1)
      else if negb pipe_ok then mret (-1)
      else _ ← modify (rs_set_loop false true); rs_create_workers (Z.to_nat n) 0 pipes gs
  end.

Definition rs_start : M RtcServer bool :=
  s ← get;
  match rs_thread s with
  | Some _ => mret false
  | None => _ ← modify (rs_set_thread (Some true)); mret true
  end.

Definition rs_notify (write_ok : bool) (msg : Z) : M RtcServer Z :=
  if write_ok then _ ← modify (fun s => rs_set_pipe (rs_pipe s ++ [msg]) s); mret 0 else mret (-1).

Definition rs_stop (write_ok : bool) : M RtcServer unit := _ ← rs_notify write_ok QUIT; mret tt.

Definition rs_join : M RtcServer unit :=
  s ← get;
  match rs_thread s with Some true => modify (rs_set_thread (Some false)) | _ => mret tt end.

Definition rs_push_msg (m : Msg) : M RtcServer unit :=
  modify (fun s => rs_set_q (rs_q_msg s ++ [m]) s).

Definition rs_pop_msg : M RtcServer (option Msg) :=
  s ← get;
  match rs_q_msg s with
  | [] => mret None
  | m :: rest => _ ← modify (rs_set_q rest); mret (Some m)
  end.

Definition rs_send_rtc_msg (write_ok : bool) (m : Msg) : M RtcServer Z :=
  _ ← rs_push_msg m; rs_notify write_ok RTC_MSG.

(** [worker->stop(); worker->join();] for every worker. *)
Fixpoint stop_workers (n : nat) (i : nat) (write_ok : nat -> bool) : M RtcServer unit :=
  match n with
  | O => mret tt
  | S n =>
      _ ← on_worker i (rw_stop (write_ok i));
      _ ← on_worker i rw_join;
      stop_workers n (S i) write_ok
  end.

Definition rs__stop (write_ok : nat -> bool) : M RtcServer unit :=
  _ ← modify (rs_set_loop true false);
  s ← get;
  stop_workers (length (rs_workers s)) 0 write_ok.

(** The index of the worker of a stream; [None]: a null pointer. *)
Definition _get_worker (name : string) (s : RtcServer) : res (option nat) :=
  let size := Z.of_nat (length (rs_workers s)) in
  if (size =? 0) || negb (size =? u64 (worker_num s)) then Ret None
  else
    let num := ComputeCrc32_string name in
    if u32 (worker_num s) =? 0 then Ub DivByZero
    else
      let index := num mod u32 (worker_num s) in
      if index <? size then Ret (Some (Z.to_nat index)) else Ub OutOfBounds.

(** [log_info]: messages of severity INFO are logged, so that the text of the
    log message is computed. *)
Definition rs_process_rtc_msg (log_info : bool) (e : cert_env) (write_ok : bool) : M RtcServer unit :=
  o ← rs_pop_msg;
  match o with
  | None => if log_info then ub_ NullDeref else mret tt
  | Some m =>
      r ← _generate_and_check_certificate e;
      if negb (r =? 0) then mret tt
      else
        s ← get;
        let m := set_certificate (_certificate s) m in
        i ← lift (_get_worker (stream_name m) s);
        match i with
        | None => mret tt
        | Some i => _ ← on_worker i (rw_send_rtc_msg write_ok m); mret tt
        end
  end.

Definition rs_process_notify (log_info : bool) (e : cert_env) (write_ok : nat -> bool) (msg : Z)
    : M RtcServer unit :=
  if msg =? QUIT then rs__stop write_ok
  else if msg =? RTC_MSG then rs_process_rtc_msg log_info e (write_ok 0%nat)
  else mret tt.

Definition rtc_server_recv_notify (log_info : bool) (e : cert_env) (write_ok : nat -> bool)
    : M RtcServer unit :=
  s ← get;
  match rs_pipe s with
  | [] => mret tt
  | msg :: rest => _ ← modify (rs_set_pipe rest); rs_process_notify log_info e write_ok msg
  end.

(** The destructor. *)
Fixpoint destroy_workers (ws : list RtcWorker) : res unit :=
  match ws with
  | [] => Ret tt
  | w :: ws => _ ← destroy_rtc_worker w; destroy_workers ws
  end.

Definition destroy_rtc_server : M RtcServer unit :=
  s ← get;
  match rs_thread s with
  | Some true => lift Abort
  | _ =>
      _ ← modify (fun s => rs_set_thread None (rs_set_loop true (rs_pipe_open s) s));
      _ ← lift (destroy_workers (rs_workers s));
      modify (rs_set_workers [])
  end.

End rtc_server.

(** ** Properties *)

Section properties.
Context {G Q : Type} `{FifoQueue (RtcMsg positive) Q}.
Context (Generate : nat -> M G (option (list byte))).

Notation Msg := (RtcMsg positive).
Notation RtcWorker := (RtcWorker (G := G) (Q := Q)).
Notation RtcServer := (RtcServer (G := G) (Q := Q)).
Implicit Types (s : RtcServer) (w : RtcWorker) (m : Msg).

(** *** The certificate *)

(** The certificate is there and valid at the time of the check. *)
Definition cert_fresh (s : RtcServer) (e : cert_env) : Prop :=
  exists p c, _certificate s = Some p /\ cert_heap s !! p = Some c /\
    HasExpired c (u64 (e_time e * 1000)) = false.

Definition cert_stale (s : RtcServer) (e : cert_env) : Prop :=
  _certificate s = None \/
  exists p c, _certificate s = Some p /\ cert_heap s !! p = Some c /\
    HasExpired c (u64 (e_time e * 1000)) = true.

(** The heap once the old certificate is released. *)
Definition released (s : RtcServer) : gmap positive RTCCertificate :=
  match _certificate s with Some p => delete p (cert_heap s) | None => cert_heap s end.

Lemma check_fresh s e : cert_fresh s e -> _generate_and_check_certificate e s = Ret (0, s).
Proof.
  intros (p & c & Hp & Hc & He). unfold _generate_and_check_certificate. rewrite M_bind_get, Hp, Hc.
  rewrite M_bind_mret, He. by rewrite M_bind_mret, M_bind_get, Hp.
Qed.

Lemma check_stale s e :
  cert_stale s e ->
  _generate_and_check_certificate e s =
    match e_identity e (Some kYearInSeconds) with
    | Some c => Ret (0, rs_set_cert (Some (e_cert_addr e)) (<[e_cert_addr e := c]> (released s)) s)
    | None => Ret (-1, rs_set_cert None (released s) s)
    end.
Proof.
  intros Hs. unfold _generate_and_check_certificate. rewrite M_bind_get.
  unfold GenerateCertificate. cbn [negb IsValid KeyParams_default].
  change (k_year_in_ms / 1000) with kYearInSeconds. rewrite Z.min_id. unfold released.
  destruct Hs as [Hn|(p & c & Hp & Hc & He)].
  - rewrite Hn, M_bind_mret. by destruct (e_identity e _); rewrite M_bind_modify, M_bind_get.
  - rewrite Hp, Hc, M_bind_mret, He. by destruct (e_identity e _); rewrite M_bind_modify, M_bind_get.
Qed.

(** The certificate check keeps a certificate that has not expired; a
    missing or expired one is replaced by a new one valid for a year, the old
    one being freed, and the check fails exactly when no new one can be made,
    leaving the server without any. *)
Theorem certificate_renewal s e :
  (cert_fresh s e -> _generate_and_check_certificate e s = Ret (0, s)) /\
  (cert_stale s e -> exists r s', _generate_and_check_certificate e s = Ret (r, s') /\
     (forall p, _certificate s = Some p -> p <> e_cert_addr e -> cert_heap s' !! p = None) /\
     rs_q_msg s' = rs_q_msg s /\ rs_workers s' = rs_workers s /\
     match e_identity e (Some 31536000) with
     | Some c => r = 0 /\ _certificate s' = Some (e_cert_addr e) /\ cert_heap s' !! e_cert_addr e = Some c
     | None => r = -1 /\ _certificate s' = None
     end).
Proof.
  split; [apply check_fresh|]. intros Hs. rewrite (check_stale s e Hs).
  change kYearInSeconds with 31536000. unfold released.
  destruct (e_identity e (Some 31536000)) as [c|]; eexists _, _; (split; [done|]); cbn [_certificate
    cert_heap rs_set_cert rs_q_msg rs_workers]; split_and!; try done.
  - intros p -> Hne. by rewrite lookup_insert_ne, lookup_delete_eq.
  - by rewrite lookup_insert_eq.
  - intros p -> Hne. by rewrite lookup_delete_eq.
Qed.

(** *** Routing *)

(** The worker of a stream name among [n]. *)
Definition route (n : Z) (name : string) : nat := Z.to_nat (ComputeCrc32_string name mod n).

Record ready (s : RtcServer) : Prop := {
  ready_num : 0 < worker_num s < 2 ^ 31;
  ready_workers : Z.of_nat (length (rs_workers s)) = worker_num s;
  ready_queues : Forall (fun w => q_ok (rw_q_msg w)) (rs_workers s);
}.

Lemma get_worker_ready s name :
  ready s -> _get_worker name s = Ret (Some (route (worker_num s) name)) /\
    (route (worker_num s) name < length (rs_workers s))%nat.
Proof.
  intros [Hn Hl _]. unfold _get_worker, route. rewrite Hl, u64_small, u32_small by lia.
  rewrite (proj2 (Z.eqb_neq _ 0)), Z.eqb_refl by lia. cbn [orb negb].
  pose proof (Z.mod_pos_bound (ComputeCrc32_string name) (worker_num s)).
  rewrite (proj2 (Z.ltb_lt _ _)) by lia. split; [done|lia].
Qed.

(** What a worker has received: [m] when it is the one at index [i]. *)
Definition receives (i j : nat) (w : RtcWorker) (ok : bool) (m : Msg) (w' : RtcWorker) : Prop :=
  q_ok (rw_q_msg w') /\
  q_view (rw_q_msg w') = q_view (rw_q_msg w) ++ (if decide (i = j) then [m] else []) /\
  rw_pipe w' = rw_pipe w ++ (if decide (i = j) then if ok then [RTC_MSG] else [] else []) /\
  rw_sent w' = rw_sent w /\ _rtc_stream_mgr w' = _rtc_stream_mgr w /\ rng w' = rng w.

Lemma worker_send w m ok :
  q_ok (rw_q_msg w) ->
  exists r w', rw_send_rtc_msg ok m w = Ret (r, w') /\ q_ok (rw_q_msg w') /\
    q_view (rw_q_msg w') = q_view (rw_q_msg w) ++ [m] /\
    rw_pipe w' = rw_pipe w ++ (if ok then [RTC_MSG] else []) /\ rw_sent w' = rw_sent w /\
    _rtc_stream_mgr w' = _rtc_stream_mgr w /\ rng w' = rng w.
Proof.
  intros Hq. destruct (q_produce_ok m (rw_q_msg w) Hq) as (q' & Hp & Hq' & Hv).
  unfold rw_send_rtc_msg, rw_push_msg. unfold mbind at 1, M_bind at 1.
  rewrite M_bind_get, (M_bind_lift _ _ _ _ Hp). unfold modify.
  destruct ok; eexists _, _; (split; [done|]); rewrite ?app_nil_r; done.
Qed.

Lemma process_msg_ok s log_info e ok m rest :
  ready s -> cert_fresh s e -> rs_q_msg s = m :: rest ->
  exists s', rs_process_rtc_msg log_info e ok s = Ret (tt, s') /\ ready s' /\
    rs_q_msg s' = rest /\ rs_pipe s' = rs_pipe s /\ worker_num s' = worker_num s /\
    _certificate s' = _certificate s /\ cert_heap s' = cert_heap s /\
    forall j w, rs_workers s !! j = Some w -> exists w', rs_workers s' !! j = Some w' /\
      receives (route (worker_num s) (stream_name m)) j w ok (set_certificate (_certificate s) m) w'.
Proof.
  intros Hr Hf Hq. unfold rs_process_rtc_msg, rs_pop_msg.
  unfold mbind at 1, M_bind at 1. rewrite M_bind_get, Hq, M_bind_modify. unfold mret, M_ret.
  cbn beta iota. set (s1 := rs_set_q rest s).
  assert (Hf1 : cert_fresh s1 e) by done. rewrite (M_bind_eq _ _ _ _ _ (check_fresh s1 e Hf1)).
  change (negb (0 =? 0)) with false. cbv iota. rewrite M_bind_get.
  assert (Hr1 : ready s1) by (by destruct Hr).
  destruct (get_worker_ready s1 (stream_name m) Hr1) as [Hget Hlt].
  change (stream_name (set_certificate (_certificate s1) m)) with (stream_name m).
  rewrite (M_bind_lift _ _ _ _ Hget). change (worker_num s1) with (worker_num s) in *.
  change (rs_workers s1) with (rs_workers s) in *. set (i := route (worker_num s) (stream_name m)) in *.
  destruct (lookup_lt_is_Some_2 (rs_workers s) i Hlt) as [w0 Hw0].
  pose proof Hr as [Hn Hl Hqs]. rewrite Forall_lookup in Hqs.
  destruct (worker_send w0 (set_certificate (_certificate s) m) ok (Hqs i w0 Hw0))
    as (r & w1 & Hsend & Hq1 & Hv1 & Hp1 & Hkeep).
  unfold mbind, M_bind, on_worker. change (rs_workers s1) with (rs_workers s). rewrite Hw0.
  change (_certificate s1) with (_certificate s). rewrite Hsend.
  eexists. split; [done|]. cbn [rs_q_msg rs_pipe worker_num _certificate cert_heap rs_set_workers rs_workers].
  split_and!; try done.
  - constructor; cbn; [done|by rewrite length_insert|]. apply Forall_insert; [|done].
    by apply Forall_lookup.
  - intros j w Hj. unfold receives. destruct (decide (i = j)) as [<-|Hne].
    + assert (w = w0) as -> by congruence. exists w1. rewrite list_lookup_insert_eq by done. done.
    + exists w. rewrite list_lookup_insert_ne by done. rewrite !app_nil_r.
      split; [done|]. split; [by eapply Hqs|done].
Qed.

(** The event loop handles one notification per environment. *)
Fixpoint handle (log_info : bool) (es : list cert_env) : M RtcServer unit :=
  match es with
  | [] => mret tt
  | e :: es => _ ← rtc_server_recv_notify log_info e (fun _ => true); handle log_info es
  end.


End properties.

(** *** Start-up and safety *)

Section safety.
Context `{Compiler} {G Q : Type} `{FifoQueue (RtcMsg positive) Q}.
Context (Generate : nat -> M G (option (list byte))).

Notation Msg := (RtcMsg positive).
Notation RtcWorker := (RtcWorker (G := G) (Q := Q)).
Notation RtcServer := (RtcServer (G := G) (Q := Q)).
Implicit Types (s : RtcServer) (w : RtcWorker) (m : Msg).

(** The worker [init] adds: its loop runs in a thread of its own. *)
Definition started_worker (g : G) (i : Z) : RtcWorker :=
  rw_set_thread (Some true) (rw_set_loop false true (new_RtcWorker i g)).

Lemma create_worker_eq ok g i s :
  rs_create_worker ok g i s =
    if ok then Ret (0, rs_set_workers (rs_workers s ++ [started_worker g i]) s) else Ret (-1, s).
Proof. by destruct ok. Qed.

Lemma create_workers_ok n i pipes gs s :
  (forall k, i <= k < i + Z.of_nat n -> pipes k = true) ->
  rs_create_workers n i pipes gs s =
    Ret (0, rs_set_workers (rs_workers s ++ map (fun k => started_worker (gs k) k) (seqZ i (Z.of_nat n))) s).
Proof.
  revert i s. induction n as [|n IH]; intros i s Hp; cbn [rs_create_workers].
  - simpl. rewrite app_nil_r. by destruct s.
  - erewrite M_bind_eq; [|rewrite create_worker_eq, (Hp i) by lia; done].
    change (negb (0 =? 0)) with false. cbv iota. rewrite IH by (intros; apply Hp; lia).
    do 2 f_equal. rewrite (seqZ_cons i) by lia. cbn [map].
    replace (Z.pred (Z.of_nat (S n))) with (Z.of_nat n) by lia.
    change (Z.succ i) with (i + 1). unfold rs_set_workers; simpl. by rewrite <- app_assoc.
Qed.

Lemma create_workers_fail n i pipes gs s k :
  i <= k < i + Z.of_nat n -> pipes k = false ->
  exists s', rs_create_workers n i pipes gs s = Ret (-1, s').
Proof.
  revert i s. induction n as [|n IH]; intros i s Hk Hp; [lia|]. cbn [rs_create_workers].
  destruct (pipes i) eqn:Hi.
  - erewrite M_bind_eq; [|rewrite create_worker_eq; done].
    change (negb (0 =? 0)) with false. cbv iota. apply IH; [|done].
    destruct (decide (i = k)); [congruence|lia].
  - erewrite M_bind_eq; [|rewrite create_worker_eq; done]. by eexists.
Qed.

(** [init] succeeds exactly when the configuration gives a number, a
    certificate can be made, and the server's pipe and those of all workers can
    be created; the server then has the configured workers, numbered from 0,
    each running, and a certificate. *)
Theorem rtc_server_init conf e ok pipes (gs : Z -> G) n c :
  conf = Some (Some n) -> e_identity e (Some 31536000) = Some c ->
  let s0 := rs_set_cert (Some (e_cert_addr e)) {[e_cert_addr e := c]} (rs_set_num n new_RtcServer) in
  (ok = true -> (forall k, 0 <= k < n -> pipes k = true) ->
   rs_init conf e ok pipes gs new_RtcServer =
     Ret (0, rs_set_workers (map (fun k => started_worker (gs k) k) (seqZ 0 n)) (rs_set_loop false true s0))) /\
  (ok = false \/ (exists k, 0 <= k < n /\ pipes k = false) ->
   exists s, rs_init conf e ok pipes gs new_RtcServer = Ret (-1, s)).
Proof.
  intros -> Hc s0. unfold rs_init.
  assert (Hcheck : _generate_and_check_certificate e (rs_set_num n new_RtcServer) = Ret (0, s0)).
  { rewrite check_stale by by left. change kYearInSeconds with 31536000. by rewrite Hc. }
  split.
  - intros -> Hp. rewrite M_bind_modify, (M_bind_eq _ _ _ _ _ Hcheck).
    change (negb (0 =? 0)) with false. cbv iota. cbn [negb]. rewrite M_bind_modify.
    rewrite create_workers_ok by (intros; apply Hp; lia). do 2 f_equal.
    cbn [rs_workers rs_set_loop rs_set_cert rs_set_num new_RtcServer s0 app].
    destruct (decide (0 <= n)); [by rewrite Z2Nat.id|].
    replace (Z.of_nat (Z.to_nat n)) with 0 by lia. by rewrite !seqZ_nil by lia.
  - intros Hbad. rewrite M_bind_modify, (M_bind_eq _ _ _ _ _ Hcheck).
    change (negb (0 =? 0)) with false. cbv iota. destruct ok; cbn [negb]; [|by eexists].
    rewrite M_bind_modify. destruct Hbad as [|(k & Hk & Hp)]; [done|].
    apply create_workers_fail with k; [lia|done].
Qed.

(** What the server relies on: a live certificate, a message in the queue for
    each notification in the pipe, working queues and worker numbers that fit. *)
Record rs_ok (s : RtcServer) : Prop := {
  ok_cert : forall p, _certificate s = Some p -> is_Some (cert_heap s !! p);
  ok_pipe : (length (filter (fun x => x = RTC_MSG) (rs_pipe s)) <= length (rs_q_msg s))%nat;
  ok_queues : Forall (fun w => q_ok (rw_q_msg w)) (rs_workers s);
  ok_num : -2 ^ 31 <= worker_num s < 2 ^ 31 /\ Z.of_nat (length (rs_workers s)) < 2 ^ 31;
}.

Lemma create_workers_rs_ok n i pipes gs s r s' :
  rs_ok s -> rs_create_workers n i pipes gs s = Ret (r, s') ->
  Z.of_nat (length (rs_workers s)) + Z.of_nat n < 2 ^ 31 -> rs_ok s'.
Proof.
  revert i s. induction n as [|n IH]; intros i s Hs Hr Hl; cbn [rs_create_workers] in Hr.
  { by injection Hr as _ <-. }
  apply M_bind_ret in Hr as (r1 & s1 & H1 & Hr). rewrite create_worker_eq in H1.
  destruct (pipes i); injection H1 as <- <-; cbn in Hr; [|by injection Hr as _ <-].
  eapply IH; [|exact Hr|cbn; rewrite length_app; simpl; lia].
  destruct Hs as [Hc Hp Hq [Hn Hlen]]. constructor; cbn; try done.
  - apply Forall_app_2; [done|]. apply Forall_singleton. apply q_new_ok.
  - rewrite length_app. simpl. lia.
Qed.

Lemma check_ok s e :
  rs_ok s -> exists r s', _generate_and_check_certificate e s = Ret (r, s') /\ rs_ok s' /\
    rs_q_msg s' = rs_q_msg s /\ rs_pipe s' = rs_pipe s.
Proof.
  intros [Hc Hp Hq Hn]. assert (Hcases : cert_fresh s e \/ cert_stale s e).
  { destruct (_certificate s) as [p|] eqn:Hs; [|by right; left].
    destruct (Hc p eq_refl) as [c Hcp].
    destruct (HasExpired c (u64 (e_time e * 1000))) eqn:He; [right; right|left]; by exists p, c. }
  destruct Hcases as [Hf|Hs].
  - rewrite (check_fresh s e Hf). eexists _, _. split; [done|]. by split_and!.
  - rewrite (check_stale s e Hs). destruct (e_identity e _) as [c|]; eexists _, _; (split; [done|]);
      split_and!; try done; constructor; try done; cbn.
    intros p [= <-]. rewrite lookup_insert_eq. by eexists.
Qed.

Lemma get_worker_ok s name :
  rs_ok s -> exists o, _get_worker name s = Ret o /\
    forall i, o = Some i -> (i < length (rs_workers s))%nat.
Proof.
  intros [_ _ _ [Hn Hl]]. unfold _get_worker.
  destruct (Z.eqb_spec (Z.of_nat (length (rs_workers s))) 0) as [|Hz]; [by eexists|].
  destruct (Z.eqb_spec (Z.of_nat (length (rs_workers s))) (u64 (worker_num s))) as [He|]; [|by eexists].
  cbn [orb negb]. assert (Hw : worker_num s = Z.of_nat (length (rs_workers s))).
  { destruct (decide (0 <= worker_num s)); [rewrite He; symmetry; apply u64_small; lia|].
    unfold wrapU in He.
    assert (worker_num s mod 2 ^ 64 = worker_num s + 2 ^ 64) by
      (symmetry; apply Z.mod_unique with (-1); lia). lia. }
  rewrite Hw, u32_small by lia. rewrite (proj2 (Z.eqb_neq _ 0)) by done.
  pose proof (Z.mod_pos_bound (ComputeCrc32_string name) (Z.of_nat (length (rs_workers s)))).
  rewrite (proj2 (Z.ltb_lt _ _)) by lia. eexists. split; [done|]. intros i [= <-]. lia.
Qed.

Lemma on_worker_ok {A} s i (f : M RtcWorker A) w :
  rs_ok s -> rs_workers s !! i = Some w ->
  (exists a w', f w = Ret (a, w') /\ q_ok (rw_q_msg w')) ->
  exists a s', on_worker i f s = Ret (a, s') /\ rs_ok s' /\ rs_q_msg s' = rs_q_msg s /\
    rs_pipe s' = rs_pipe s /\ length (rs_workers s') = length (rs_workers s).
Proof.
  intros [Hc Hp Hq Hn] Hi (a & w' & Hf & Hq'). unfold on_worker. rewrite Hi, Hf.
  eexists _, _. split; [done|]. cbn. rewrite length_insert. split_and!; try done.
  constructor; cbn; try done; [by apply Forall_insert|]. by rewrite length_insert.
Qed.

Lemma stop_workers_ok n i ok s :
  rs_ok s -> (i + n = length (rs_workers s))%nat ->
  exists s', stop_workers n i ok s = Ret (tt, s') /\ rs_ok s'.
Proof.
  revert i s. induction n as [|n IH]; intros i s Hs Hl; cbn [stop_workers]; [by exists s|].
  assert (Hlk : forall s', rs_ok s' -> (i < length (rs_workers s'))%nat ->
    exists w, rs_workers s' !! i = Some w /\ q_ok (rw_q_msg w)).
  { intros s' Hs' Hi. destruct (lookup_lt_is_Some_2 _ _ Hi) as [w Hw]. exists w.
    split; [done|]. pose proof (ok_queues s' Hs') as Hq. rewrite Forall_lookup in Hq. by eapply Hq. }
  destruct (Hlk s Hs) as (w & Hw & Hq); [lia|].
  destruct (on_worker_ok s i (rw_stop (ok i)) w Hs Hw) as (a & s1 & H1 & Hs1 & _ & _ & Hl1).
  { unfold rw_stop, rw_notify. by destruct (ok i); eexists _, _. }
  step H1. destruct (Hlk s1 Hs1) as (w1 & Hw1 & Hq1); [lia|].
  destruct (on_worker_ok s1 i rw_join w1 Hs1 Hw1) as (b & s2 & H2 & Hs2 & _ & _ & Hl2).
  { unfold rw_join. rewrite M_bind_get. by repeat case_match; eexists _, _. }
  step H2. apply IH; [done|lia].
Qed.

Lemma recv_notify_ok s log_info e ok :
  rs_ok s -> exists s', rtc_server_recv_notify log_info e ok s = Ret (tt, s') /\ rs_ok s'.
Proof.
  intros Hs. pose proof Hs as [Hc Hp Hq Hn]. unfold rtc_server_recv_notify. rewrite M_bind_get.
  destruct (rs_pipe s) as [|msg pipe] eqn:Hpipe; [by exists s|]. rewrite M_bind_modify.
  rewrite filter_cons in Hp. set (s1 := rs_set_pipe pipe s).
  assert (Hle : (length (filter (fun x => x = RTC_MSG) pipe) <= length (rs_q_msg s))%nat)
    by (case_decide; simpl in Hp; lia).
  assert (Hs1 : rs_ok s1) by by constructor. unfold rs_process_notify.
  destruct (msg =? QUIT).
  { unfold rs__stop. rewrite M_bind_modify, M_bind_get. apply stop_workers_ok; [|done].
    by destruct Hs1; constructor. }
  destruct (Z.eqb_spec msg RTC_MSG) as [->|]; [|by exists s1].
  rewrite decide_True in Hp by done. simpl in Hp.
  unfold rs_process_rtc_msg, rs_pop_msg. unfold mbind at 1, M_bind at 1. rewrite M_bind_get.
  change (rs_q_msg s1) with (rs_q_msg s). destruct (rs_q_msg s) as [|m rest] eqn:Hqm; [simpl in Hp; lia|].
  rewrite M_bind_modify. unfold mret, M_ret. cbn beta iota. set (s2 := rs_set_q rest s1).
  assert (Hs2 : rs_ok s2) by (constructor; try done; cbn; simpl in Hp; lia).
  destruct (check_ok s2 e Hs2) as (r & s3 & Hck & Hs3 & _). rewrite (M_bind_eq _ _ _ _ _ Hck).
  destruct (negb (r =? 0)); [by exists s3|]. rewrite M_bind_get.
  destruct (get_worker_ok s3 (stream_name (set_certificate (_certificate s3) m)) Hs3)
    as (o & Hget & Hlt). rewrite (M_bind_lift _ _ _ _ Hget). destruct o as [i|]; [|by exists s3].
  destruct (lookup_lt_is_Some_2 _ _ (Hlt i eq_refl)) as [w Hw].
  pose proof (ok_queues s3 Hs3) as Hq3. rewrite Forall_lookup in Hq3.
  destruct (on_worker_ok s3 i (rw_send_rtc_msg (ok 0%nat) (set_certificate (_certificate s3) m)) w Hs3 Hw)
    as (a & s4 & Hsend & Hs4 & _).
  { destruct (worker_send w (set_certificate (_certificate s3) m) (ok 0%nat) (Hq3 i w Hw))
      as (r' & w' & ? & ? & _). by eexists _, _. }
  step Hsend. by exists s4.
Qed.

(** ** Messages move, whatever happens *)

(** The check can succeed: no certificate is needed, or one can be made. *)
Definition check_works (e : cert_env) (s : RtcServer) : Prop :=
  cert_fresh s e \/ is_Some (e_identity e (Some kYearInSeconds)).

(** Such a check succeeds, and changes nothing but the certificate. *)
Lemma check_ret s e r s1 :
  check_works e s -> _generate_and_check_certificate e s = Ret (r, s1) ->
  r = 0 /\ exists c h, s1 = rs_set_cert c h s.
Proof.
  intros [Hf|[id Hid]] Hr.
  { rewrite (check_fresh s e Hf) in Hr. injection Hr as <- <-. split; [done|].
    exists (_certificate s), (cert_heap s). by destruct s. } unfold _generate_and_check_certificate in Hr. rewrite M_bind_get in Hr.
  apply M_bind_ret in Hr as (stale & s2 & Hs & Hr).
  assert (s2 = s) as ->.
  { destruct (_certificate s) as [p|]; [|by injection Hs]. destruct (_ !! p); [by injection Hs|done]. }
  apply M_bind_ret in Hr as (u & s3 & H3 & Hr). rewrite M_bind_get in Hr.
  destruct stale.
  - change (GenerateCertificate KeyParams_default (Some k_year_in_ms) (e_identity e))
      with (e_identity e (Some kYearInSeconds)) in H3.
    rewrite Hid in H3. injection H3 as _ <-. injection Hr as <- <-. eauto.
  - injection H3 as _ <-. destruct (_certificate s) as [p|] eqn:Hc; [|done].
    injection Hr as <- <-. split; [done|]. exists (_certificate s), (cert_heap s). by destruct s.
Qed.

(** From [s] to [s'] the messages [ms] left the queue of the server for the
    workers responsible for them, and nothing else moved. *)
Record moves (ms : list Msg) (s s' : RtcServer) : Prop := {
  mv_ready : ready s';
  mv_queue : rs_q_msg s = ms ++ rs_q_msg s';
  mv_num : worker_num s' = worker_num s;
  mv_workers : forall j w, rs_workers s !! j = Some w ->
    exists w', rs_workers s' !! j = Some w' /\ rw_sent w' = rw_sent w /\
      _rtc_stream_mgr w' = _rtc_stream_mgr w /\
      q_view (rw_q_msg w') = q_view (rw_q_msg w) ++
        map (set_certificate (_certificate s')) (filter (fun m => route (worker_num s) (stream_name m) = j) ms);
}.

(** Changes away from the messages. *)
Lemma moves_nothing s s' :
  ready s -> rs_q_msg s' = rs_q_msg s -> worker_num s' = worker_num s -> rs_workers s' = rs_workers s ->
  moves [] s s'.
Proof.
  intros [Hn Hl Hq] Hqm Hnum Hw. split; [split| | |]; rewrite ?Hw, ?Hnum; try done.
  intros j w Hj. exists w. by rewrite app_nil_r.
Qed.

(** A call on a worker that leaves its messages alone. *)
Lemma on_worker_moves {A} (f : M RtcWorker A) i s a s' :
  (forall w b w', f w = Ret (b, w') -> rw_q_msg w' = rw_q_msg w /\ rw_sent w' = rw_sent w /\
    _rtc_stream_mgr w' = _rtc_stream_mgr w) ->
  ready s -> on_worker i f s = Ret (a, s') -> moves [] s s'.
Proof.
  intros Hf [Hn Hl Hq] Hr. unfold on_worker in Hr.
  destruct (rs_workers s !! i) as [w|] eqn:Hi; [|done].
  destruct (f w) as [[b w']| | |] eqn:Hfw; simplify_eq. destruct (Hf _ _ _ Hfw) as (Hq' & Hs' & Hm').
  split; cbn; try done.
  - split; cbn; [done|by rewrite length_insert|]. apply Forall_insert; [done|]. rewrite Hq'.
    rewrite Forall_lookup in Hq. by eapply Hq.
  - intros j w1 Hj. destruct (decide (i = j)) as [<-|].
    + exists w'. rewrite list_lookup_insert_eq by by eapply lookup_lt_Some.
      simplify_eq. by rewrite Hq', Hs', Hm', app_nil_r.
    + exists w1. by rewrite list_lookup_insert_ne, app_nil_r.
Qed.

Lemma moves_nothing_trans ms s s1 s2 : moves [] s s1 -> moves ms s1 s2 -> moves ms s s2.
Proof.
  intros [Hr1 Hq1 Hn1 Hw1] [Hr2 Hq2 Hn2 Hw2]. split; [done| |congruence|].
  - by rewrite Hq1, <- Hq2.
  - intros j w Hj. destruct (Hw1 j w Hj) as (w1 & Hj1 & Hs1 & Hm1 & Hv1).
    destruct (Hw2 j w1 Hj1) as (w2 & Hj2 & Hs2 & Hm2 & Hv2). exists w2.
    do 2 (split; [congruence|]). split; [congruence|]. rewrite Hv2, Hv1, Hn1. by rewrite app_nil_r.
Qed.

Lemma stop_workers_moves n i ok s s' :
  ready s -> stop_workers n i ok s = Ret (tt, s') -> moves [] s s'.
Proof.
  revert i s. induction n as [|n IH]; intros i s Hs Hr; cbn [stop_workers] in Hr.
  { injection Hr as <-. by apply moves_nothing. }
  apply M_bind_ret in Hr as (a & s1 & H1 & Hr). apply M_bind_ret in Hr as (b & s2 & H2 & Hr).
  assert (Hm1 : moves [] s s1).
  { eapply on_worker_moves, H1; [|done]. intros w c w' Hw. unfold rw_stop, rw_notify in Hw.
    by destruct (ok i); injection Hw as _ <-. }
  assert (Hm2 : moves [] s1 s2).
  { eapply on_worker_moves, H2; [|apply Hm1]. intros w c w' Hw. unfold rw_join in Hw.
    rewrite M_bind_get in Hw. by repeat case_match; injection Hw as _ <-. }
  eapply moves_nothing_trans; [exact Hm1|]. eapply moves_nothing_trans; [exact Hm2|].
  eapply IH, Hr. apply Hm2.
Qed.

Lemma process_msg_moves s log_info e ok s' :
  ready s -> check_works e s ->
  rs_process_rtc_msg log_info e ok s = Ret (tt, s') -> exists ms, moves ms s s'.
Proof.
  intros Hs He Hr. unfold rs_process_rtc_msg, rs_pop_msg in Hr.
  unfold mbind at 1, M_bind at 1 in Hr. rewrite M_bind_get in Hr.
  destruct (rs_q_msg s) as [|m rest] eqn:Hq.
  { unfold mret, M_ret in Hr. destruct log_info; [done|]. injection Hr as <-.
    exists []. by apply moves_nothing. }
  rewrite M_bind_modify in Hr. unfold mret at 1, M_ret at 1 in Hr. cbn beta iota in Hr.
  apply M_bind_ret in Hr as (r & s1 & Hck & Hr).
  destruct (check_ret (rs_set_q rest s) e _ _ He Hck) as (-> & c & h & ->).
  change (negb (0 =? 0)) with false in Hr. cbv iota in Hr. rewrite M_bind_get in Hr.
  set (s2 := rs_set_cert c h (rs_set_q rest s)) in *.
  assert (Hs2 : ready s2) by by destruct Hs.
  destruct (get_worker_ready s2 (stream_name m) Hs2) as [Hget Hlt].
  change (stream_name (set_certificate _ m)) with (stream_name m) in Hr.
  rewrite (M_bind_lift _ _ _ _ Hget) in Hr. change (worker_num s2) with (worker_num s) in *.
  set (i := route (worker_num s) (stream_name m)) in *.
  apply M_bind_ret in Hr as (a & s3 & Hsend & Hr). injection Hr as <-.
  unfold on_worker in Hsend. change (rs_workers s2) with (rs_workers s) in *.
  destruct (rs_workers s !! i) as [w|] eqn:Hi; [|done]. pose proof Hs as [Hn Hl Hqs].
  pose proof Hqs as Hqs'. rewrite Forall_lookup in Hqs'.
  destruct (worker_send w (set_certificate c m) ok (Hqs' i w Hi)) as (r & w' & Hw' & Hq' & Hv' & _ & Hsent & Hmgr & _).
  change (_certificate s2) with c in Hsend.
  rewrite Hw' in Hsend. injection Hsend as _ <-. exists [m]. split; cbn; try done.
  - split; cbn; [done|by rewrite length_insert|]. by apply Forall_insert.
  - intros j w1 Hj. fold i.
    destruct (decide (i = j)) as [<-|].
    + exists w'. rewrite list_lookup_insert_eq by done. by simplify_eq.
    + exists w1. by rewrite list_lookup_insert_ne, app_nil_r.
Qed.

(** Handling a notification moves at most one message to its worker. *)
Lemma recv_notify_moves log_info e ok s s' :
  ready s -> check_works e s ->
  rtc_server_recv_notify log_info e ok s = Ret (tt, s') -> exists ms, moves ms s s'.
Proof.
  intros Hs He Hr. unfold rtc_server_recv_notify in Hr. rewrite M_bind_get in Hr.
  destruct (rs_pipe s) as [|msg pipe]; [injection Hr as <-; exists []; by apply moves_nothing|].
  rewrite M_bind_modify in Hr. set (s1 := rs_set_pipe pipe s) in *.
  assert (Hs1 : moves [] s s1) by by apply moves_nothing. unfold rs_process_notify in Hr.
  destruct (msg =? QUIT).
  - unfold rs__stop in Hr. rewrite M_bind_modify, M_bind_get in Hr. exists [].
    eapply moves_nothing_trans; [exact Hs1|]. eapply moves_nothing_trans, stop_workers_moves, Hr.
    + by apply moves_nothing; [apply Hs1|..].
    + by destruct Hs.
  - destruct (msg =? RTC_MSG).
    + apply process_msg_moves in Hr as [ms Hms]; [|apply Hs1|done]. exists ms.
      by eapply moves_nothing_trans.
    + injection Hr as <-. by exists [].
Qed.

(** While the certificate is fresh, it stays where it is. *)
Definition same_cert (s s' : RtcServer) : Prop :=
  _certificate s' = _certificate s /\ cert_heap s' = cert_heap s.
#[local] Instance same_cert_preorder : PreOrder same_cert.
Proof. split; [done|]. intros s1 s2 s3 [Hc1 Hh1] [Hc2 Hh2]. split; congruence. Qed.

#[local] Hint Extern 1 (keeps same_cert (modify _)) => (apply keeps_modify; done) : keeps.

Lemma on_worker_cert {A} i (f : M RtcWorker A) : keeps same_cert (on_worker i f).
Proof.
  intros s a s' Hr. unfold on_worker in Hr. destruct (_ !! i); [|done].
  destruct (f _) as [[]| | |]; by simplify_eq.
Qed.
#[local] Hint Resolve on_worker_cert : keeps.

Lemma stop_workers_cert n i ok : keeps same_cert (stop_workers n i ok).
Proof. revert i. induction n as [|n IH]; intros i; cbn [stop_workers]; keeps. Qed.
#[local] Hint Resolve stop_workers_cert : keeps.

Lemma recv_notify_cert log_info e ok s s' :
  cert_fresh s e -> rtc_server_recv_notify log_info e ok s = Ret (tt, s') -> same_cert s s'.
Proof.
  intros Hf Hr. unfold rtc_server_recv_notify in Hr. rewrite M_bind_get in Hr.
  destruct (rs_pipe s) as [|msg pipe]; [by injection Hr as <-|]. rewrite M_bind_modify in Hr.
  set (s1 := rs_set_pipe pipe s) in *. change (same_cert s1 s'). unfold rs_process_notify in Hr.
  destruct (msg =? QUIT); [|destruct (msg =? RTC_MSG); [|by injection Hr as <-]].
  - revert Hr. generalize s1, tt, s'. change (keeps same_cert (rs__stop ok)). unfold rs__stop. keeps.
  - unfold rs_process_rtc_msg in Hr. apply M_bind_ret in Hr as (o & s2 & Hp & Hr).
    assert (Hp' : same_cert s1 s2).
    { revert Hp. generalize s1, o, s2. change (keeps same_cert rs_pop_msg). unfold rs_pop_msg. keeps. }
    etrans; [exact Hp'|]. destruct o as [m|].
    + assert (Hf2 : cert_fresh s2 e).
      { destruct Hf as (p & c & Hp0 & Hc & He), Hp' as [Hc2 Hh2]. exists p, c. by rewrite Hc2, Hh2. }
      rewrite (M_bind_eq _ _ _ _ _ (check_fresh s2 e Hf2)) in Hr. change (negb (0 =? 0)) with false in Hr.
      cbv iota in Hr. revert Hr. set (f := mbind _ get). assert (Hk : keeps same_cert f); [|by apply Hk].
      unfold f. keeps.
    + destruct log_info; [done|by injection Hr as <-].
Qed.

(** What happens to a server that was initialised. *)
Inductive rs_step : RtcServer -> RtcServer -> Prop :=
  | rs_step_notify log_info e ok s s' :
      rtc_server_recv_notify log_info e ok s = Ret (tt, s') -> rs_step s s'
  | rs_step_send ok m r s s' : rs_send_rtc_msg ok m s = Ret (r, s') -> rs_step s s'
  | rs_step_start b s s' : rs_start s = Ret (b, s') -> rs_step s s'
  | rs_step_stop ok s s' : rs_stop ok s = Ret (tt, s') -> rs_step s s'
  | rs_step_join s s' : rs_join s = Ret (tt, s') -> rs_step s s'.

Lemma filter_quit (p : list Z) : filter (fun x => x = RTC_MSG) (p ++ [QUIT]) = filter (fun x => x = RTC_MSG) p.
Proof. by rewrite filter_app, app_nil_r. Qed.

Lemma rs_step_ok s s' : rs_ok s -> rs_step s s' -> rs_ok s'.
Proof.
  intros Hs Hstep. pose proof Hs as [Hc Hp Hq Hn].
  destruct Hstep as [log_info e ok s s' Hr|ok m r s s' Hr|b s s' Hr|ok s s' Hr|s s' Hr].
  - destruct (recv_notify_ok s log_info e ok Hs) as (s2 & Heq & Hs2). congruence.
  - unfold rs_send_rtc_msg, rs_push_msg, rs_notify in Hr.
    destruct ok; injection Hr as _ <-; constructor; try done; cbn;
      rewrite ?filter_app, ?length_app; simpl; lia.
  - unfold rs_start in Hr. rewrite M_bind_get in Hr. by case_match; injection Hr as _ <-.
  - unfold rs_stop, rs_notify in Hr. destruct ok; injection Hr as <-; [|done].
    constructor; try done. cbn. by rewrite filter_quit.
  - unfold rs_join in Hr. rewrite M_bind_get in Hr. by repeat case_match; injection Hr as <-.
Qed.



End safety.

(** *** A server with two workers *)

#[local] Existing Instance msg_fifo.
#[local] Existing Instance lenient.
#[local] Notation SimRtcServer := (RtcServer (G := Z) (Q := lfq (T := RtcMsg positive))).

Definition sim_env : cert_env := CertEnv 1000 (fun _ => Some sim_cert) 1.
(** Ten years later, when the certificate has expired. *)
Definition sim_late : cert_env := CertEnv 2315360000 (fun _ => Some sim_cert) 2.

Definition sim_server : SimRtcServer :=
  match rs_init (Some (Some 2)) sim_env true (fun _ => true) (fun _ => 7) new_RtcServer with
  | Ret (_, s) => s
  | _ => new_RtcServer
  end.

Definition sim_msgs : list (RtcMsg positive) :=
  [MkRtcMsg CMDNO_PUSH "a" 1 1 9 None 77 (Some 3) (Some 1%positive) 7 "" 0;
   MkRtcMsg CMDNO_PUSH "b" 1 1 9 None 78 (Some 3) (Some 2%positive) 8 "" 0;
   MkRtcMsg CMDNO_PUSH "a" 1 0 9 None 79 (Some 3) (Some 3%positive) 9 "" 0].

Definition sim_busy : SimRtcServer :=
  rs_set_pipe (replicate 3 RTC_MSG) (rs_set_q sim_msgs sim_server).

(** The certificate has expired and no new one can be made: the request leaves
    the queue of the server and reaches no worker. *)
Example request_dropped :
  match rtc_server_recv_notify false (CertEnv 2315360000 (fun _ => None) 2) (fun _ => true)
          (rs_set_pipe [RTC_MSG] (rs_set_q (take 1 sim_msgs) sim_server)) with
  | Ret (_, s) => rs_q_msg s = [] /\ map (fun w => q_view (rw_q_msg w)) (rs_workers s) = [[]; []]
  | _ => False
  end.
Proof. vm_compute. by split. Qed.

Lemma certificate_renewal_witness :
  _generate_and_check_certificate sim_env sim_server = Ret (0, sim_server) /\
  exists r s', _generate_and_check_certificate sim_late sim_server = Ret (r, s') /\
    (forall p, _certificate sim_server = Some p -> p <> 2%positive -> cert_heap s' !! p = None) /\
    rs_q_msg s' = rs_q_msg sim_server /\ rs_workers s' = rs_workers sim_server /\
    r = 0 /\ _certificate s' = Some 2%positive /\ cert_heap s' !! 2%positive = Some sim_cert.
Proof.
  split.
  - apply (certificate_renewal sim_server sim_env). exists 1%positive, sim_cert. by vm_compute.
  - apply (certificate_renewal sim_server sim_late). right. exists 1%positive, sim_cert. by vm_compute.
Defined.

Lemma rtc_server_init_witness :
  (exists s, rs_init (Some (Some 2)) sim_env true (fun _ => true) (fun _ => 7) new_RtcServer = Ret (0, s) /\
     length (rs_workers (Q := lfq (T := RtcMsg positive)) s) = 2%nat) /\
  exists s, rs_init (Some (Some 2)) sim_env true (fun k => k =? 0) (fun _ => 7)
              (new_RtcServer (Q := lfq (T := RtcMsg positive))) = Ret (-1, s).
Proof.
  split.
  - eexists. split; [by apply (rtc_server_init (Some (Some 2)) sim_env true (fun _ => true) (fun _ => 7) 2 sim_cert)|].
    done.
  - apply (rtc_server_init (Some (Some 2)) sim_env true (fun k => k =? 0) (fun _ => 7) 2 sim_cert); try done.
    right. exists 1. done.
Defined.

Lemma sim_server_ready : ready sim_server.
Proof.
  constructor; [by vm_compute|by vm_compute|].
  change (rs_workers sim_server) with [started_worker (Q := lfq (T := RtcMsg positive)) 7 0; started_worker 7 1].
  repeat constructor; apply q_new_ok.
Qed.



