(* ===== verification/CertLife.v ===== *)
(** * The life of the server's certificate

    [rtc_base/openssl_identity.cc] and [openssl_certificate.cc] between the
    lifetime that [RTCCertificateGenerator] asks for and the expiry that
    [RTCCertificate] reports.  What OpenSSL does is given: whether its calls
    succeed, the algorithm and the digests, and [X509_time_adj], which writes a
    time into a certificate. *)

From S2P Require Import Prelude CLib CertTime RandomString Sdp LockFreeQueue Defs RtcWorker RtcServer.
#[local] Open Scope Z_scope.
#[local] Open Scope xrtc_scope.

Definition kDefaultCertificateLifetimeInSeconds : Z := 60 * 60 * 24 * 30.
Definition kCertificateWindowInSeconds : Z := -60 * 60 * 24.

(** [SSLIdentityParams]; the name is not used here. *)
Record SSLIdentityParams := MkParams { not_before : Z; not_after : Z; key_params : KeyParams }.

(** The part of an [X509] that the expiry depends on. *)
Record X509 := MkX509 { x_notBefore : ASN1_TIME; x_notAfter : ASN1_TIME }.

Section openssl.
(** [X509_time_adj(dst, offset, &epoch_off)] with [epoch_off = 0]: the time, or
    a failure. *)
Context (X509_time_adj : Z -> option ASN1_TIME).

(** The other calls of OpenSSL succeed or not. *)
Definition MakeCertificate (calls_ok : bool) (params : SSLIdentityParams) : option X509 :=
  if negb calls_ok then None
  else nb ← X509_time_adj (not_before params); na ← X509_time_adj (not_after params); Some (MkX509 nb na).

Definition CreateInternal (key_ok calls_ok : bool) (params : SSLIdentityParams) : option X509 :=
  if key_ok then MakeCertificate calls_ok params else None.

(** [now] is a [time_t]. *)
Definition CreateWithExpiration (now : Z) (key_ok calls_ok : bool) (key : KeyParams) (certificate_lifetime : Z)
    : option X509 :=
  let params := MkParams (now + kCertificateWindowInSeconds) (now + certificate_lifetime) key in
  if not_after params <? not_before params then None else CreateInternal key_ok calls_ok params.

Definition SSLIdentity_Create (now : Z) (key_ok calls_ok : bool) (key : KeyParams) (lifetime : option Z) : option X509 :=
  CreateWithExpiration now key_ok calls_ok key (default kDefaultCertificateLifetimeInSeconds lifetime).

Definition CertificateExpirationTime (x : X509) : res Z := cert_expiration (x_notAfter x).

(** The identity of an environment, for the lifetime the generator asks for, is
    made by this code at its time. *)
Definition made_by_openssl (key_ok calls_ok : bool) (e : cert_env) : Prop :=
  match SSLIdentity_Create (e_time e) key_ok calls_ok KeyParams_default (Some kYearInSeconds) with
  | None => e_identity e (Some kYearInSeconds) = None
  | Some x => exists c v, e_identity e (Some kYearInSeconds) = Some c /\
      CertificateExpirationTime x = Ret v /\ Sdp.CertificateExpirationTime c = v
  end.

(** The manual of [X509_time_adj]: it writes the time as RFC 5280 asks for. *)
Definition writes_time : Prop :=
  forall n, 0 <= n -> rfc5280_year true (calendar (Z.to_nat n)) ->
    exists long_format rest,
      rfc5280_year long_format (calendar (Z.to_nat n)) /\
      X509_time_adj n = Some (MkAsn1Time (if long_format then V_ASN1_GENERALIZEDTIME else V_ASN1_UTCTIME)
        (rfc5280_text long_format (calendar (Z.to_nat n)) ++ rest)
        (Z.of_nat (length (rfc5280_text long_format (calendar (Z.to_nat n)))))).

End openssl.

(** ** Facts *)

Lemma year_bound n : 0 <= n < 2 ^ 37 -> rfc5280_year true (calendar (Z.to_nat n)).
Proof.
  intros Hn. destruct (calendar_valid (Z.to_nat n)) as [Hv Hs]. unfold rfc5280_year.
  set (t := calendar _) in *. pose proof (seconds_nonneg t Hv). destruct Hv as [Hy Hmo Hd Hh Hmi Hse].
  pose proof (month_days_range (tm_year t + 1900) (tm_mon t)).
  pose proof (day_number_range (tm_year t + 1900) (tm_mon t) (tm_mday t)) as Hr.
  unfold seconds, day_number in Hs. destruct (Z.ltb_spec (tm_year t + 1900) 10000); lia.
Qed.

Section life.
Context {G Q : Type} `{FifoQueue (RtcMsg positive) Q}.
Context (X509_time_adj : Z -> option ASN1_TIME).
Implicit Types (s : RtcServer (G := G) (Q := Q)).

(** The server has a certificate, which expires at second [t]. *)
Definition expires_at s (t : Z) : Prop :=
  exists p c, _certificate s = Some p /\ cert_heap s !! p = Some c /\ Expires c = t * 1000.

Lemma identity_expires (now lifetime : Z) :
  writes_time X509_time_adj -> 86400 <= now -> 0 <= lifetime -> now + lifetime < 2 ^ 37 ->
  exists x, SSLIdentity_Create X509_time_adj now true true KeyParams_default (Some lifetime) = Some x /\
    CertificateExpirationTime x = Ret (now + lifetime).
Proof.
  intros Hw Hnow Hlt Hmax. unfold SSLIdentity_Create, CreateWithExpiration.
  change (default _ (Some lifetime)) with lifetime. cbn [not_before not_after].
  unfold kCertificateWindowInSeconds. destruct (Z.ltb_spec (now + lifetime) (now + -60 * 60 * 24)); [lia|].
  unfold CreateInternal, MakeCertificate. cbn [negb not_before not_after].
  destruct (Hw (now + -60 * 60 * 24)) as (f1 & r1 & _ & ->); [lia|apply year_bound; lia|]. cbn [mbind option_bind].
  destruct (Hw (now + lifetime)) as (f & r & Hy & ->); [lia|apply year_bound; lia|].
  eexists. split; [reflexivity|]. unfold CertificateExpirationTime. cbn [x_notAfter].
  destruct (calendar_valid (Z.to_nat (now + lifetime))) as [Hv Hs].
  assert (Hread := ASN1TimeToSec_ok f _ r Hv Hy). rewrite Hs, Z2Nat.id in Hread by lia.
  unfold cert_expiration. by destruct f.
Qed.

Lemma made_expires e :
  writes_time X509_time_adj -> made_by_openssl X509_time_adj true true e ->
  86400 <= e_time e -> e_time e + 31536000 < 2 ^ 37 ->
  exists c, e_identity e (Some kYearInSeconds) = Some c /\ Expires c = (e_time e + 31536000) * 1000.
Proof.
  intros Hw Hm Hnow Hmax. unfold made_by_openssl in Hm. change kYearInSeconds with 31536000 in *.
  destruct (identity_expires (e_time e) 31536000 Hw) as (x & Hx & Hexp); [lia..|].
  rewrite Hx in Hm. destruct Hm as (c & v & Hc & Hv & Hcv). rewrite Hexp in Hv. injection Hv as <-.
  exists c. split; [done|]. unfold Expires. rewrite Hcv.
  destruct (Z.eqb_spec (e_time e + 31536000) (-1)); [lia|]. cbn [negb].
  rewrite (u64_small (e_time e + 31536000)) by lia. by rewrite u64_small by lia.
Qed.

Lemma renewed s e :
  writes_time X509_time_adj -> made_by_openssl X509_time_adj true true e ->
  86400 <= e_time e -> e_time e + 31536000 < 2 ^ 37 -> cert_stale s e ->
  exists s', _generate_and_check_certificate e s = Ret (0, s') /\ expires_at s' (e_time e + 31536000).
Proof.
  intros Hw Hm Hnow Hmax Hs. destruct (made_expires e Hw Hm Hnow Hmax) as (c & Hc & Hexp).
  rewrite (check_stale s e Hs), Hc. eexists. split; [done|]. exists (e_cert_addr e), c. cbn [_certificate cert_heap rs_set_cert].
  by rewrite lookup_insert_eq.
Qed.

(** Before its expiry the certificate is fresh, from then on it is stale. *)
Lemma expiry_decides s e t :
  expires_at s t -> 0 <= e_time e < 2 ^ 53 ->
  (e_time e < t -> cert_fresh s e) /\ (t <= e_time e -> cert_stale s e).
Proof.
  intros (p & c & Hp & Hc & Hexp) He. split; intros Ht; [exists p, c|right; exists p, c]; (split; [done|]); (split; [done|]);
    unfold HasExpired; rewrite Hexp, u64_small by lia; [apply Z.leb_gt|apply Z.leb_le]; lia.
Qed.

(** C24: a certificate made when the old one was missing or expired is kept for
    exactly one year: the lifetime asked for, the time OpenSSL writes into the
    certificate, the text that is parsed back and the comparison with the clock
    agree to the second.  Checks before the year is over leave the server as it
    is; the first check after it makes a new certificate for another year; when
    OpenSSL fails, the check fails and the server has none. *)
Theorem certificate_lifetime s e key_ok calls_ok :
  writes_time X509_time_adj -> made_by_openssl X509_time_adj key_ok calls_ok e -> cert_stale s e ->
  86400 <= e_time e -> e_time e + 31536000 < 2 ^ 37 ->
  if key_ok && calls_ok then
    exists s', _generate_and_check_certificate e s = Ret (0, s') /\ expires_at s' (e_time e + 31536000) /\
      forall e', 0 <= e_time e' < 2 ^ 36 ->
        (e_time e' < e_time e + 31536000 -> _generate_and_check_certificate e' s' = Ret (0, s')) /\
        (e_time e + 31536000 <= e_time e' -> made_by_openssl X509_time_adj true true e' ->
           exists s'', _generate_and_check_certificate e' s' = Ret (0, s'') /\ expires_at s'' (e_time e' + 31536000))
  else
    exists s', _generate_and_check_certificate e s = Ret (-1, s') /\ _certificate s' = None.
Proof.
  intros Hw Hm Hs Hnow Hmax. destruct (key_ok && calls_ok) eqn:Hok.
  - apply andb_prop in Hok as [-> ->]. destruct (renewed s e Hw Hm Hnow Hmax Hs) as (s' & Hr & Hexp).
    exists s'. split; [done|]. split; [done|]. intros e' He'.
    destruct (expiry_decides s' e' _ Hexp) as [Hf Hst]; [lia|]. split; intros Ht; [by apply check_fresh, Hf|].
    intros Hm'. apply renewed; [done|done|lia|lia|by apply Hst].
  - unfold made_by_openssl in Hm. rewrite (check_stale s e Hs).
    replace (SSLIdentity_Create _ _ _ _ _ _) with (@None X509) in Hm.
    + rewrite Hm. by eexists.
    + unfold SSLIdentity_Create, CreateWithExpiration, CreateInternal, MakeCertificate.
      destruct (_ <? _), key_ok, calls_ok; done.
Qed.

End life.

(** ** Witness: OpenSSL as its manual says *)

Definition sim_time_adj (n : Z) : option ASN1_TIME :=
  if n <? 0 then None
  else
    let t := calendar (Z.to_nat n) in
    let long_format := negb (tm_year t + 1900 <? 2050) in
    Some (MkAsn1Time (if long_format then V_ASN1_GENERALIZEDTIME else V_ASN1_UTCTIME)
      (rfc5280_text long_format t ++ [x00]) (Z.of_nat (length (rfc5280_text long_format t)))).

Lemma sim_writes_time : writes_time sim_time_adj.
Proof.
  intros n Hn Hy. unfold sim_time_adj. destruct (Z.ltb_spec n 0); [lia|]. eexists _, [x00]. split; [|reflexivity].
  unfold rfc5280_year in *. destruct (Z.ltb_spec (tm_year (calendar (Z.to_nat n)) + 1900) 2050); cbn [negb]; lia.
Qed.

(** A certificate with the given expiry; at noon of 2023-11-14. *)
Definition sim_life (now : Z) : cert_env :=
  CertEnv now (fun lifetime =>
    match SSLIdentity_Create sim_time_adj now true true KeyParams_default lifetime with
    | Some x => match CertificateExpirationTime x with
                | Ret v => Some (MkCert (Some "sha-256"%string) (fun _ => Some [x01]) v)
                | _ => None
                end
    | None => None
    end) 3.

Lemma sim_life_made now : 86400 <= now -> now + 31536000 < 2 ^ 37 -> made_by_openssl sim_time_adj true true (sim_life now).
Proof.
  intros Hnow Hmax. unfold made_by_openssl, sim_life. cbn [e_time e_identity]. change kYearInSeconds with 31536000.
  destruct (identity_expires sim_time_adj now 31536000 sim_writes_time Hnow) as (x & -> & Hx); [lia..|].
  rewrite Hx. by eexists _, _.
Qed.

Definition sim_new : RtcServer (G := Z) (Q := lfq (T := RtcMsg positive)) := new_RtcServer.

Lemma certificate_lifetime_witness :
  exists s', _generate_and_check_certificate (sim_life 1700000000) sim_new = Ret (0, s') /\
    expires_at s' 1731536000 /\
    forall e', 0 <= e_time e' < 2 ^ 36 ->
      (e_time e' < 1731536000 -> _generate_and_check_certificate e' s' = Ret (0, s')) /\
      (1731536000 <= e_time e' -> made_by_openssl sim_time_adj true true e' ->
         exists s'', _generate_and_check_certificate e' s' = Ret (0, s'') /\ expires_at s'' (e_time e' + 31536000)).
Proof.
  apply (certificate_lifetime sim_time_adj sim_new (sim_life 1700000000) true true).
  - apply sim_writes_time.
  - apply sim_life_made; lia.
  - by left.
  - done.
  - done.
Defined.
