(* ===== verification/SignalingServer.v ===== *)
(** * [server/signaling_server.cpp]: the acceptor and its workers

    The signaling server listens, accepts connections and hands each of them to
    the next worker.  Workers are the ones of [SignalingWorker]. *)

From S2P Require Import Prelude LockFreeQueue EventLoop Socket Defs SignalingWorker.
#[local] Open Scope Z_scope.
#[local] Open Scope xrtc_scope.

Section signaling_server.
Context `{Compiler} `{LibEv} `{JsonCpp} {Cert Q : Type} `{FifoQueue Z Q}.
Context (EAGAIN EWOULDBLOCK : Z).

Notation Worker := (Worker (Cert := Cert) (Q := Q)).

(** ** State *)

Record SignalingServerOptions := MkOptions {
  host : string;
  o_port : Z;
  worker_thread_num : Z;
  o_connection_timeout_ms : Z;
}.

Record SignalingServer := MkServer {
  _options : SignalingServerOptions;
  _listen_fd : Z;
  _notify_recv_fd : Z;
  _notify_send_fd : Z;
  ss_pipe : list Z;            (* notifications written and not yet read *)
  ss_stopped : bool;           (* [_el->stop()] was called *)
  ss_thread : option bool;
  _workers : list Worker;
  _next_worker_id : Z;
  closed : list Z;             (* descriptors the server closed *)
}.

Definition ss_set_options o s := MkServer o (_listen_fd s) (_notify_recv_fd s) (_notify_send_fd s)
  (ss_pipe s) (ss_stopped s) (ss_thread s) (_workers s) (_next_worker_id s) (closed s).
Definition ss_set_listen f s := MkServer (_options s) f (_notify_recv_fd s) (_notify_send_fd s)
  (ss_pipe s) (ss_stopped s) (ss_thread s) (_workers s) (_next_worker_id s) (closed s).
Definition ss_set_notify_fds r w s := MkServer (_options s) (_listen_fd s) r w
  (ss_pipe s) (ss_stopped s) (ss_thread s) (_workers s) (_next_worker_id s) (closed s).
Definition ss_set_pipe p s := MkServer (_options s) (_listen_fd s) (_notify_recv_fd s)
  (_notify_send_fd s) p (ss_stopped s) (ss_thread s) (_workers s) (_next_worker_id s) (closed s).
Definition ss_set_stopped b s := MkServer (_options s) (_listen_fd s) (_notify_recv_fd s)
  (_notify_send_fd s) (ss_pipe s) b (ss_thread s) (_workers s) (_next_worker_id s) (closed s).
Definition ss_set_thread t s := MkServer (_options s) (_listen_fd s) (_notify_recv_fd s)
  (_notify_send_fd s) (ss_pipe s) (ss_stopped s) t (_workers s) (_next_worker_id s) (closed s).
Definition ss_set_workers ws s := MkServer (_options s) (_listen_fd s) (_notify_recv_fd s)
  (_notify_send_fd s) (ss_pipe s) (ss_stopped s) (ss_thread s) ws (_next_worker_id s) (closed s).
Definition ss_set_next n s := MkServer (_options s) (_listen_fd s) (_notify_recv_fd s)
  (_notify_send_fd s) (ss_pipe s) (ss_stopped s) (ss_thread s) (_workers s) n (closed s).
Definition ss_close fds s := MkServer (_options s) (_listen_fd s) (_notify_recv_fd s)
  (_notify_send_fd s) (ss_pipe s) (ss_stopped s) (ss_thread s) (_workers s) (_next_worker_id s)
  (closed s ++ fds).

Definition on_conn_worker {A} (i : nat) (f : M Worker A) : M SignalingServer A := fun s =>
  match _workers s !! i with
  | None => Ub OutOfBounds
  | Some w =>
      match f w with
      | Ret (a, w') => Ret (a, ss_set_workers (<[i := w']> (_workers s)) s)
      | Abort => Abort
      | Ub u => Ub u
      | OutOfFuel => OutOfFuel
      end
  end.

(** ** The code *)

Definition new_SignalingServer : SignalingServer :=
  MkServer (MkOptions "" 0 0 0) (-1) (-1) (-1) [] false None [] 0 [].

(** [false] when the write succeeded, [true] when it failed: the [int] 0 or -1
    is converted to [bool]. *)
Definition ss_notify (write_ok : bool) (msg : Z) : M SignalingServer bool :=
  if write_ok then _ ← modify (fun s => ss_set_pipe (ss_pipe s ++ [msg]) s); mret (negb (0 =? 0))
  else mret (negb (-1 =? 0)).

Definition ss_start : M SignalingServer bool :=
  s ← get;
  match ss_thread s with
  | Some _ => mret false
  | None => _ ← modify (ss_set_thread (Some true)); mret true
  end.

Definition ss_stop (write_ok : bool) : M SignalingServer unit := _ ← ss_notify write_ok QUIT; mret tt.

Definition ss_join : M SignalingServer unit :=
  s ← get;
  match ss_thread s with Some true => modify (ss_set_thread (Some false)) | _ => mret tt end.

(** [noret]: what the caller finds as the value of [worker->init()], which
    ends without a [return] when it succeeds, if it returns ([off_end]). The
    worker is not deleted on a failure. *)
Definition _create_worker (noret : Z) (pipe_ok : bool) (worker_id : Z) : M SignalingServer Z :=
  s ← get;
  match init pipe_ok (SignalingServerWorker worker_id (o_connection_timeout_ms (_options s))) with
  | Ret (r, w) =>
      if default noret r =? -1 then mret (-1)
      else
        match start w with
        | Ret (b, w) =>
            if negb b then mret (-1)
            else _ ← modify (fun s => ss_set_workers (_workers s ++ [w]) s); mret 0
        | Abort => lift Abort
        | Ub u => ub_ u
        | OutOfFuel => lift OutOfFuel
        end
  | Abort => lift Abort
  | Ub u => ub_ u
  | OutOfFuel => lift OutOfFuel
  end.

(** The loop over [i < worker_thread_num], [n] workers from number [i] on. *)
Fixpoint create_workers (noret : Z) (pipes : Z -> bool) (n : nat) (i : Z) : M SignalingServer Z :=
  match n with
  | O => mret 0
  | S n =>
      r ← _create_worker noret (pipes i) i;
      if r =? -1 then mret (-1) else create_workers noret pipes n (i + 1)
  end.

(** What the system calls of [init] answer. *)
Record init_env := InitEnv {
  i_pipe : option (Z * Z);       (* the two ends, [None] when [pipe] fails *)
  i_socket : Z;
  i_setsockopt : Z;
  i_aton : string -> Z;
  i_bind : Z;
  i_listen : Z;
  i_worker_pipes : Z -> bool;
}.

(** [conf]: [None] for a null file name, [Some None] when yaml-cpp throws. *)
Definition ss_init (noret : Z) (conf : option (option SignalingServerOptions)) (e : init_env)
    : M SignalingServer Z :=
  match conf with
  | None | Some None => mret (-1)
  | Some (Some o) =>
      _ ← modify (ss_set_options o);
      match i_pipe e with
      | None => mret (-1)
      | Some (r, w) =>
          _ ← modify (ss_set_notify_fds r w);
          let '(sock, closed) := create_tcp_socket (i_socket e) (i_setsockopt e) (Some (host o))
                                   (i_aton e) (i_bind e) (i_listen e) in
          _ ← modify (fun s => ss_close closed (ss_set_listen sock s));
          if sock =? -1 then mret (-1)
          else create_workers noret (i_worker_pipes e) (Z.to_nat (worker_thread_num o)) 0
      end
  end.

Definition _dispatch_new_conn (write_ok : bool) (f : Z) : M SignalingServer unit :=
  s ← get;
  let size := Z.of_nat (length (_workers s)) in
  if size =? 0 then ub_ DivByZero
  else
    let worker_id := i32 (u64 (_next_worker_id s) mod size) in
    _ ← modify (fun s => ss_set_next (i32 (_next_worker_id s + 1)) s);
    if worker_id <? 0 then ub_ OutOfBounds
    else _ ← on_conn_worker (Z.to_nat worker_id) (notify_new_conn write_ok f); mret tt.

(** [accept_new_conn]: [accept] is the result and [errno] of the one call of
    [accept]. *)
Definition accept_new_conn (fuel : nat) (accept : Z * Z) (peer : string * Z) (write_ok : bool)
    : M SignalingServer unit :=
  s ← get;
  match tcp_accept EAGAIN EWOULDBLOCK fuel (_listen_fd s) accept peer with
  | None => lift OutOfFuel
  | Some (cfd, _, fds) =>
      _ ← modify (ss_close fds);
      if cfd <? 0 then mret tt else _dispatch_new_conn write_ok cfd
  end.

Fixpoint stop_conn_workers (n i : nat) (write_ok : nat -> bool) : M SignalingServer unit :=
  match n with
  | O => mret tt
  | S n =>
      _ ← on_conn_worker i (stop (write_ok i));
      _ ← on_conn_worker i join;
      stop_conn_workers n (S i) write_ok
  end.

Definition ss__stop (write_ok : nat -> bool) : M SignalingServer unit :=
  s ← get;
  match ss_thread s with
  | None => mret tt
  | Some _ =>
      _ ← modify (ss_set_stopped true);
      _ ← modify (ss_close [_notify_recv_fd s; _notify_send_fd s; _listen_fd s]);
      stop_conn_workers (length (_workers s)) 0 write_ok
  end.

Definition ss_process_notify (write_ok : nat -> bool) (msg : Z) : M SignalingServer unit :=
  if msg =? QUIT then ss__stop write_ok else mret tt.

Definition signaling_server_recv_notify (write_ok : nat -> bool) : M SignalingServer unit :=
  s ← get;
  match ss_pipe s with
  | [] => mret tt
  | msg :: rest => _ ← modify (ss_set_pipe rest); ss_process_notify write_ok msg
  end.

Fixpoint destroy_conn_workers (ws : list Worker) : res unit :=
  match ws with
  | [] => Ret tt
  | w :: ws => _ ← destroy_worker w; destroy_conn_workers ws
  end.

(** The destructor; deleting a joinable thread ends the program. *)
Definition destroy_signaling_server : M SignalingServer unit :=
  s ← get;
  match ss_thread s with
  | Some true => lift Abort
  | _ =>
      _ ← modify (fun s => ss_set_thread None (ss_set_stopped true s));
      _ ← lift (destroy_conn_workers (_workers s));
      modify (ss_set_workers [])
  end.

(** ** Dispatching *)

(** Worker [j] of [n] gets the connections number [j], [j + n], ... counting
    from connection number [k]. *)
Fixpoint share (n : nat) (k j : nat) (fds : list Z) : list Z :=
  match fds with
  | [] => []
  | f :: fds => (if decide (k mod n = j)%nat then [f] else []) ++ share n (S k) j fds
  end.

Definition queues_ok (s : SignalingServer) : Prop := Forall (fun w => q_ok (_q_conn w)) (_workers s).

(** The acceptor dispatches the connections [fds] one after the other. *)
Fixpoint dispatch_all (fds : list Z) : M SignalingServer unit :=
  match fds with
  | [] => mret tt
  | f :: fds => _ ← _dispatch_new_conn true f; dispatch_all fds
  end.

Lemma notify_new_conn_ok (w : Worker) f :
  q_ok (_q_conn w) -> exists w', notify_new_conn true f w = Ret (0, w') /\ q_ok (_q_conn w') /\
    q_view (_q_conn w') = q_view (_q_conn w) ++ [f] /\ notify_pipe w' = notify_pipe w ++ [NEW_CONN].
Proof.
  intros Hq. destruct (q_produce_ok f (_q_conn w) Hq) as (q' & Hp & Hq' & Hv).
  unfold notify_new_conn. rewrite M_bind_get, (M_bind_lift _ _ _ _ Hp), M_bind_modify.
  eexists. by split_and!.
Qed.

Lemma dispatch_one s f n k :
  queues_ok s -> length (_workers s) = n -> (0 < n)%nat -> Z.of_nat n < 2 ^ 31 ->
  _next_worker_id s = Z.of_nat k -> Z.of_nat k + 1 < 2 ^ 31 ->
  exists s', _dispatch_new_conn true f s = Ret (tt, s') /\ queues_ok s' /\
    length (_workers s') = n /\ _next_worker_id s' = Z.of_nat (S k) /\
    forall j w, _workers s !! j = Some w -> exists w', _workers s' !! j = Some w' /\
      q_view (_q_conn w') = q_view (_q_conn w) ++ (if decide (k mod n = j)%nat then [f] else []) /\
      notify_pipe w' = notify_pipe w ++ (if decide (k mod n = j)%nat then [NEW_CONN] else []).
Proof.
  intros Hq Hn Hpos Hn31 Hk Hk31. unfold _dispatch_new_conn. rewrite M_bind_get, Hn, Hk.
  rewrite (proj2 (Z.eqb_neq _ 0)) by lia. rewrite u64_small by lia.
  rewrite <- Nat2Z.inj_mod.
  pose proof (Nat.mod_upper_bound k n ltac:(lia)) as Hlt.
  rewrite i32_small by lia. rewrite M_bind_modify.
  rewrite (proj2 (Z.ltb_ge _ 0)), Nat2Z.id by lia. set (i := (k mod n)%nat) in *.
  destruct (lookup_lt_is_Some_2 (_workers s) i) as [w0 Hw0]; [lia|].
  pose proof Hq as Hq'. unfold queues_ok in Hq'. rewrite Forall_lookup in Hq'.
  destruct (notify_new_conn_ok w0 f (Hq' i w0 Hw0)) as (w1 & Hnot & Hq1 & Hv1 & Hp1).
  unfold mbind, M_bind, on_conn_worker. cbn [_workers ss_set_next]. rewrite Hw0, Hnot.
  eexists. split; [done|]. cbn [_workers ss_set_workers _next_worker_id ss_set_next]. split_and!.
  - unfold queues_ok. simpl. by apply Forall_insert.
  - by rewrite length_insert.
  - rewrite Hk, i32_small by lia. lia.
  - intros j w Hj. destruct (decide (i = j)) as [<-|Hne].
    + assert (w = w0) as -> by congruence. exists w1. rewrite list_lookup_insert_eq by lia.
      by split_and!.
    + exists w. rewrite list_lookup_insert_ne by done. by rewrite !app_nil_r.
Qed.

End signaling_server.

(** ** Properties *)

Section properties.
Context `{Compiler} `{LibEv} `{JsonCpp} {Cert Q : Type} `{FifoQueue Z Q}.
Context (EAGAIN EWOULDBLOCK : Z).
Notation SignalingServer := (SignalingServer (Cert := Cert) (Q := Q)).
Implicit Types (s : SignalingServer).

Lemma dispatch_all_ok fds s n k :
  queues_ok s -> length (_workers s) = n -> (0 < n)%nat -> Z.of_nat n < 2 ^ 31 ->
  _next_worker_id s = Z.of_nat k -> Z.of_nat (k + length fds) < 2 ^ 31 ->
  exists s', dispatch_all fds s = Ret (tt, s') /\
    _next_worker_id s' = Z.of_nat (k + length fds) /\
    forall j w, _workers s !! j = Some w -> exists w', _workers s' !! j = Some w' /\
      q_view (_q_conn w') = q_view (_q_conn w) ++ share n k j fds /\
      notify_pipe w' = notify_pipe w ++ map (fun _ => NEW_CONN) (share n k j fds).
Proof.
  revert s k. induction fds as [|f fds IH]; intros s k Hq Hn Hpos Hn31 Hk Hk31; cbn [dispatch_all share].
  - exists s. rewrite Nat.add_0_r. split_and!; try done. intros j w Hj. exists w.
    by rewrite !app_nil_r.
  - simpl in Hk31.
    destruct (dispatch_one s f n k) as (s1 & Hone & Hq1 & Hn1 & Hk1 & Hw1); try done; [lia|].
    step Hone. destruct (IH s1 (S k)) as (s2 & Hall & Hk2 & Hw2); try done; [lia|].
    exists s2. split; [done|]. split; [rewrite Hk2; simpl; f_equal; lia|].
    intros j w Hj. destruct (Hw1 j w Hj) as (w1 & Hj1 & Hv1 & Hp1).
    destruct (Hw2 j w1 Hj1) as (w2 & Hj2 & Hv2 & Hp2). exists w2. split; [done|].
    rewrite Hv2, Hp2, Hv1, Hp1, <- !app_assoc, map_app.
    split; f_equal; f_equal; by case_decide.
Qed.

Lemma share_fair fds n j :
  (0 < n)%nat -> (j < n)%nat ->
  (length fds / n <= length (share n 0 j fds) <= length fds / n + 1)%nat.
Proof.
  intros Hn Hj.
  assert (Hcount : forall fds k, length (share n k j fds) =
    length (filter (fun i => (i mod n = j)%nat) (seq k (length fds)))).
  { clear fds. induction fds as [|f fds IH]; intros k; [done|]. cbn [share length seq].
    rewrite length_app, IH, filter_cons. by case_decide. }
  rewrite Hcount.
  assert (Hseq : forall m, length (filter (fun i => (i mod n = j)%nat) (seq 0 m)) =
    (m / n + (if decide (j < m mod n)%nat then 1 else 0))%nat).
  { induction m as [|m IH]; [by rewrite Nat.div_0_l, Nat.mod_0_l by lia|].
    rewrite seq_S, filter_app, length_app, IH. cbn [Nat.add].
    pose proof (Nat.div_mod_eq m n). pose proof (Nat.mod_upper_bound m n ltac:(lia)).
    destruct (decide (S (m mod n) = n)) as [Hw|Hw].
    - assert (Hd : (S m / n = m / n + 1)%nat) by (symmetry; apply Nat.div_unique with 0%nat; nia).
      assert (Hm : (S m mod n = 0)%nat) by (symmetry; apply Nat.mod_unique with (m / n + 1)%nat; nia).
      rewrite Hd, Hm, filter_cons, filter_nil. repeat case_decide; simpl; lia.
    - assert (Hd : (S m / n = m / n)%nat) by (symmetry; apply Nat.div_unique with (S (m mod n)); nia).
      assert (Hm : (S m mod n = S (m mod n))%nat) by (symmetry; apply Nat.mod_unique with (m / n)%nat; nia).
      rewrite Hd, Hm, filter_cons, filter_nil. repeat case_decide; simpl; lia. }
  rewrite Hseq. case_decide; lia.
Qed.

(** C19: connections are spread round robin: with [n] workers and counter [k],
    worker [j] receives exactly the accepted descriptors number [i] with
    [(k + i) mod n = j], in the order of acceptance after those it had, and one
    notification for each; the counter goes on from where it stopped. *)
Theorem dispatch_round_robin fds s n k :
  queues_ok s -> length (_workers s) = n -> (0 < n)%nat -> Z.of_nat n < 2 ^ 31 ->
  _next_worker_id s = Z.of_nat k -> Z.of_nat (k + length fds) < 2 ^ 31 ->
  exists s', dispatch_all fds s = Ret (tt, s') /\
    _next_worker_id s' = Z.of_nat (k + length fds) /\
    forall j w, _workers s !! j = Some w -> exists w', _workers s' !! j = Some w' /\
      q_view (_q_conn w') = q_view (_q_conn w) ++ share n k j fds /\
      notify_pipe w' = notify_pipe w ++ map (fun _ => NEW_CONN) (share n k j fds).
Proof. apply dispatch_all_ok. Qed.

(** The distribution is fair: a server whose counter starts at 0 gives each
    of its [n] workers the quotient of the number of connections by [n], or one
    connection more. *)
Theorem dispatch_fair fds s n :
  queues_ok s -> length (_workers s) = n -> (0 < n)%nat -> Z.of_nat n < 2 ^ 31 ->
  _next_worker_id s = 0 -> Z.of_nat (length fds) < 2 ^ 31 ->
  Forall (fun w => q_view (_q_conn w) = []) (_workers s) ->
  exists s', dispatch_all fds s = Ret (tt, s') /\
    forall j w, _workers s !! j = Some w -> exists w', _workers s' !! j = Some w' /\
      (length fds / n <= length (q_view (_q_conn w')) <= length fds / n + 1)%nat.
Proof.
  intros Hq Hn Hpos Hn31 Hk Hk31 Hempty.
  destruct (dispatch_all_ok fds s n 0) as (s' & Hd & _ & Hw); try done.
  exists s'. split; [done|]. intros j w Hj. destruct (Hw j w Hj) as (w' & Hj' & Hv & _).
  exists w'. split; [done|]. rewrite Forall_lookup in Hempty. rewrite (Hempty j w Hj) in Hv.
  rewrite Hv. apply share_fair; [done|]. subst n. by eapply lookup_lt_Some.
Qed.

(** *** Start-up *)

(** The worker [init] adds: its loop runs in a thread of its own. *)
Definition started_conn_worker (timeout i : Z) : Worker (Cert := Cert) (Q := Q) :=
  set_thread (Some true) (set_loop false true (SignalingServerWorker i timeout)).

Lemma create_conn_worker_eq v ok i s :
  returns_off_end = true -> _create_worker v ok i s =
    if negb ok || (v =? -1) then Ret (-1, s)
    else Ret (0, ss_set_workers (_workers s ++ [started_conn_worker (o_connection_timeout_ms (_options s)) i]) s).
Proof.
  intros Hret. unfold _create_worker, init, off_end. rewrite M_bind_get, Hret. destruct ok; [|done]. rewrite M_bind_modify.
  cbn [negb orb]. rewrite (M_bind_lift tt (Ret tt)) by done. unfold mret at 1, M_ret at 1. cbn [default]. by destruct (v =? -1).
Qed.

Lemma create_conn_workers_ok v pipes n i s :
  returns_off_end = true -> v <> -1 -> (forall k, i <= k < i + Z.of_nat n -> pipes k = true) ->
  create_workers v pipes n i s =
    Ret (0, ss_set_workers (_workers s ++
      map (started_conn_worker (o_connection_timeout_ms (_options s))) (seqZ i (Z.of_nat n))) s).
Proof.
  intros Hret Hv. revert i s. induction n as [|n IH]; intros i s Hp; cbn [create_workers].
  - simpl. rewrite app_nil_r. by destruct s.
  - erewrite M_bind_eq; [|rewrite (create_conn_worker_eq _ _ _ _ Hret), (Hp i), (proj2 (Z.eqb_neq v (-1))) by (done || lia); done].
    change (0 =? -1) with false. cbv iota. rewrite IH by (try done; intros; apply Hp; lia).
    do 2 f_equal. rewrite (seqZ_cons i) by lia. cbn [map].
    replace (Z.pred (Z.of_nat (S n))) with (Z.of_nat n) by lia.
    change (Z.succ i) with (i + 1). unfold ss_set_workers; simpl. by rewrite <- app_assoc.
Qed.

(** [init] with a readable configuration and system calls that succeed
    listens on the new socket and starts the configured number of workers,
    numbered from 0 and with the configured timeout, provided the register read
    as the result of [worker->init()] does not happen to hold -1; when it does,
    [init] fails although everything succeeded, and with a compiler that does
    not let it return it is undefined. When [socket], [bind] or [listen] fails, the pipe
    that was created before is not closed. *)
Theorem signaling_server_init o e r w v :
  i_pipe e = Some (r, w) -> i_socket e <> -1 -> i_setsockopt e <> -1 -> i_aton e (host o) <> 0 ->
  (forall k, 0 <= k < worker_thread_num o -> i_worker_pipes e k = true) ->
  let s0 := ss_set_notify_fds r w (ss_set_options o (new_SignalingServer (Cert := Cert) (Q := Q))) in
  (i_bind e <> -1 -> i_listen e <> -1 ->
    (returns_off_end = true -> v <> -1 -> ss_init v (Some (Some o)) e new_SignalingServer =
      Ret (0, ss_set_workers (map (started_conn_worker (o_connection_timeout_ms o)) (seqZ 0 (worker_thread_num o)))
                (ss_set_listen (i_socket e) s0))) /\
    (returns_off_end = true -> 0 < worker_thread_num o -> ss_init (-1) (Some (Some o)) e new_SignalingServer =
      Ret (-1, ss_set_listen (i_socket e) s0)) /\
    (returns_off_end = false -> 0 < worker_thread_num o ->
      ss_init v (Some (Some o)) e (new_SignalingServer (Cert := Cert) (Q := Q)) = Ub MissingReturn)) /\
  (i_bind e = -1 \/ i_listen e = -1 ->
    ss_init v (Some (Some o)) e new_SignalingServer =
      Ret (-1, ss_close [i_socket e] (ss_set_listen (-1) s0))).
Proof.
  intros Hpipe Hsock Hopt Haton Hworkers s0.
  assert (Hinit : forall nr, ss_init nr (Some (Some o)) e new_SignalingServer =
    (let '(sock, closed) := create_tcp_socket (i_socket e) (i_setsockopt e) (Some (host o))
                              (i_aton e) (i_bind e) (i_listen e) in
     _ ← modify (fun s => ss_close closed (ss_set_listen sock s));
     if sock =? -1 then mret (-1)
     else create_workers nr (i_worker_pipes e) (Z.to_nat (worker_thread_num o)) 0) s0).
  { intros nr. unfold ss_init. rewrite M_bind_modify, Hpipe. rewrite M_bind_modify.
    by destruct (create_tcp_socket _ _ _ _ _ _). }
  assert (Htcp : create_tcp_socket (i_socket e) (i_setsockopt e) (Some (host o)) (i_aton e) (i_bind e) (i_listen e) =
    if (i_bind e =? -1) || (i_listen e =? -1) then (-1, [i_socket e]) else (i_socket e, [])).
  { unfold create_tcp_socket. rewrite !(proj2 (Z.eqb_neq _ _)) by done.
    by destruct (i_bind e =? -1), (i_listen e =? -1). }
  split.
  - intros Hb Hl. rewrite (proj2 (Z.eqb_neq (i_bind e) _)), (proj2 (Z.eqb_neq (i_listen e) _)) in Htcp by done.
    cbn [orb] in Htcp. split_and!.
    + intros Hret Hv. rewrite Hinit, Htcp. cbv iota. rewrite M_bind_modify, (proj2 (Z.eqb_neq _ _)) by done.
      rewrite create_conn_workers_ok by (try done; intros; apply Hworkers; lia).
      do 2 f_equal. cbn. unfold ss_close. cbn. destruct (decide (0 <= worker_thread_num o)).
      * by rewrite Z2Nat.id.
      * replace (Z.of_nat (Z.to_nat (worker_thread_num o))) with 0 by lia. by rewrite !seqZ_nil by lia.
    + intros Hret Hn. rewrite Hinit, Htcp. cbv iota. rewrite M_bind_modify, (proj2 (Z.eqb_neq _ _)) by done.
      destruct (Z.to_nat (worker_thread_num o)) as [|m] eqn:Hm; [lia|]. cbn [create_workers].
      erewrite M_bind_eq; [|rewrite create_conn_worker_eq, orb_true_r by done; done]. done.
    + intros Hret Hn. rewrite Hinit, Htcp. cbv iota. rewrite M_bind_modify, (proj2 (Z.eqb_neq _ _)) by done.
      destruct (Z.to_nat (worker_thread_num o)) as [|m] eqn:Hm; [lia|]. cbn [create_workers].
      unfold mbind at 1, M_bind at 1, _create_worker. rewrite M_bind_get, Hworkers by lia.
      unfold init, off_end. by rewrite Hret.
  - intros Hbl. rewrite Hinit, Htcp.
    replace ((i_bind e =? -1) || (i_listen e =? -1)) with true; [done|].
    destruct Hbl as [-> | ->]; [done|]. by rewrite orb_true_r.
Qed.

(** *** Accepting and stopping *)

(** An accepted connection goes to a worker. Any error of [accept] other
    than EAGAIN and EWOULDBLOCK, also a transient one such as a full descriptor
    table, closes the listening socket: from then on the server accepts
    nothing. [EAGAIN] makes the acceptor spin for ever. *)
Theorem accept_new_conn_cases s cfd errno peer ok n :
  (0 <= cfd -> accept_new_conn EAGAIN EWOULDBLOCK (S n) (cfd, errno) peer ok s =
     _dispatch_new_conn ok cfd (ss_close [] s)) /\
  (errno <> EAGAIN -> errno <> EWOULDBLOCK ->
     accept_new_conn EAGAIN EWOULDBLOCK (S n) (-1, errno) peer ok s = Ret (tt, ss_close [_listen_fd s] s)) /\
  (errno = EAGAIN \/ errno = EWOULDBLOCK ->
     accept_new_conn EAGAIN EWOULDBLOCK n (-1, errno) peer ok s = OutOfFuel).
Proof.
  unfold accept_new_conn, tcp_accept, generic_accept. rewrite M_bind_get. split_and!.
  - intros Hc. cbn [generic_accept_loop]. rewrite (proj2 (Z.eqb_neq cfd (-1))) by lia. cbn [mbind option_bind].
    rewrite (proj2 (Z.eqb_neq cfd (-1))) by lia. rewrite M_bind_modify.
    by rewrite (proj2 (Z.ltb_ge cfd 0)) by lia.
  - intros He1 He2. cbn [generic_accept_loop]. change (-1 =? -1) with true. cbv iota.
    rewrite (proj2 (Z.eqb_neq EAGAIN errno)), (proj2 (Z.eqb_neq EWOULDBLOCK errno)) by congruence. done.
  - intros He. rewrite M_bind_get. by rewrite generic_accept_loop_spin.
Qed.

(** [notify] answers the opposite of what its type says: [false] for a
    notification that was written and [true] for one that was lost. *)
Theorem signaling_notify_inverted s msg :
  ss_notify true msg s = Ret (false, ss_set_pipe (ss_pipe s ++ [msg]) s) /\
  ss_notify false msg s = Ret (true, s).
Proof. done. Qed.

Lemma stop_conn_workers_ok n i ok s :
  (i + n = length (_workers s))%nat ->
  exists s', stop_conn_workers n i ok s = Ret (tt, s') /\
    closed s' = closed s /\ ss_stopped s' = ss_stopped s /\
    length (_workers s') = length (_workers s) /\
    forall j w, _workers s !! j = Some w -> exists w', _workers s' !! j = Some w' /\
      if decide (i <= j)%nat
      then notify_pipe w' = notify_pipe w ++ (if ok j then [QUIT] else []) /\ _thread w' <> Some true /\
           _conns w' = _conns w /\ _q_conn w' = _q_conn w
      else w' = w.
Proof.
  revert i s. induction n as [|n IH]; intros i s Hl; cbn [stop_conn_workers].
  - exists s. split_and!; try done. intros j w Hj. exists w. split; [done|].
    pose proof (lookup_lt_Some _ _ _ Hj). by rewrite decide_False by lia.
  - destruct (lookup_lt_is_Some_2 (_workers s) i) as [w Hw]; [lia|].
    set (w1 := if ok i then set_pipe (notify_pipe w ++ [QUIT]) w else w).
    assert (Hstop : on_conn_worker i (stop (ok i)) s = Ret (tt, ss_set_workers (<[i := w1]> (_workers s)) s)).
    { unfold on_conn_worker. rewrite Hw. unfold stop, notify, w1. by destruct (ok i). }
    step Hstop. set (s1 := ss_set_workers _ s).
    set (w2 := match _thread w1 with Some true => set_thread (Some false) w1 | _ => w1 end).
    assert (Hjoin : on_conn_worker i join s1 = Ret (tt, ss_set_workers (<[i := w2]> (_workers s1)) s1)).
    { unfold on_conn_worker. cbn [s1 _workers ss_set_workers]. rewrite list_lookup_insert_eq by lia.
      unfold join, w2. rewrite M_bind_get. by destruct (_thread w1) as [[|]|]. }
    step Hjoin. set (s2 := ss_set_workers _ s1).
    destruct (IH (S i) s2) as (s3 & H3 & Hc3 & Hs3 & Hl3 & Hw3).
    { cbn. rewrite !length_insert. lia. }
    exists s3. split_and!; try done.
    { rewrite Hl3. cbn. by rewrite !length_insert. }
    intros j v Hj. destruct (decide (i = j)) as [<-|Hne].
    + assert (v = w) as -> by congruence.
      destruct (Hw3 i w2) as (w3 & Hi3 & Hrel).
      { cbn. rewrite list_lookup_insert_eq; [done|]. rewrite length_insert. lia. }
      rewrite decide_False in Hrel by lia. subst w3. exists w2. split; [done|].
      rewrite decide_True by done. unfold w2, w1. destruct (ok i), (_thread w) as [[|]|] eqn:Ht; cbn;
        rewrite ?Ht; cbn; rewrite ?app_nil_r, ?Ht; done.
    + destruct (Hw3 j v) as (w3 & Hj3 & Hrel).
      { cbn. by rewrite !list_lookup_insert_ne. }
      exists w3. split; [done|]. repeat case_decide; try lia; done.
Qed.

(** Stopping the running server closes the notification pipe and the
    listening socket, once each, stops its event loop, and then sends every
    worker a QUIT and joins its thread, leaving the workers' connections and
    queues as they are. *)
Theorem signaling_server_stop ok s :
  ss_thread s <> None ->
  exists s', ss_process_notify ok QUIT s = Ret (tt, s') /\
    closed s' = closed s ++ [_notify_recv_fd s; _notify_send_fd s; _listen_fd s] /\
    ss_stopped s' = true /\
    forall j w, _workers s !! j = Some w -> exists w', _workers s' !! j = Some w' /\
      notify_pipe w' = notify_pipe w ++ (if ok j then [QUIT] else []) /\ _thread w' <> Some true /\
      _conns w' = _conns w /\ _q_conn w' = _q_conn w.
Proof.
  intros Ht. unfold ss_process_notify. change (QUIT =? QUIT) with true. cbv iota. unfold ss__stop.
  rewrite M_bind_get. destruct (ss_thread s) as [b|]; [|done]. rewrite !M_bind_modify.
  set (s1 := ss_close _ _).
  destruct (stop_conn_workers_ok (length (_workers s)) 0 ok s1) as (s' & Hstop & Hc & Hst & _ & Hw); [done|].
  exists s'. rewrite Hstop, Hc, Hst. split_and!; done.
Qed.

End properties.

(** *** A server with two workers *)

#[local] Existing Instance libev_sim.
#[local] Existing Instance json_sim.
#[local] Existing Instance lenient.
#[local] Instance conn_fifo : FifoQueue Z lfq := lfq_fifo 0.
#[local] Notation SimServer := (SignalingServer (Cert := unit) (Q := lfq (T := Z))).

Definition sim_options : SignalingServerOptions := MkOptions "127.0.0.1" 9000 2 5000000.
Definition sim_init : init_env := InitEnv (Some (3, 4)) 5 0 (fun _ => 1) 0 0 (fun _ => true).
Definition sim_server : SimServer :=
  ss_set_workers [started_conn_worker 5000000 0; started_conn_worker 5000000 1]
    (ss_set_listen 5 (ss_set_notify_fds 3 4 (ss_set_options sim_options new_SignalingServer))).
Definition sim_running : SimServer := ss_set_thread (Some true) sim_server.

Lemma sim_queues : queues_ok sim_server.
Proof. repeat constructor; apply q_new_ok. Qed.

Lemma signaling_server_init_witness :
  ss_init 7 (Some (Some sim_options)) sim_init new_SignalingServer = Ret (0, sim_server) /\
  ss_init (H := strict) 7 (Some (Some sim_options)) sim_init (new_SignalingServer (Cert := unit) (Q := lfq (T := Z))) =
    Ub MissingReturn.
Proof.
  split.
  - destruct (signaling_server_init (Cert := unit) (Q := lfq (T := Z)) sim_options sim_init 3 4 7
      eq_refl ltac:(done) ltac:(done) ltac:(done) ltac:(done)) as [Hgood _].
    destruct (Hgood ltac:(done) ltac:(done)) as (H1 & _ & _). by apply H1.
  - destruct (signaling_server_init (H := strict) (Cert := unit) (Q := lfq (T := Z)) sim_options sim_init 3 4 7
      eq_refl ltac:(done) ltac:(done) ltac:(done) ltac:(done)) as [Hgood _].
    destruct (Hgood ltac:(done) ltac:(done)) as (_ & _ & H2). by apply H2.
Defined.

Lemma dispatch_round_robin_witness :
  exists s', dispatch_all [7; 8; 9] sim_server = Ret (tt, s') /\ _next_worker_id s' = 3 /\
    forall j w, _workers sim_server !! j = Some w -> exists w', _workers s' !! j = Some w' /\
      q_view (_q_conn w') = q_view (_q_conn w) ++ share 2 0 j [7; 8; 9] /\
      notify_pipe w' = notify_pipe w ++ map (fun _ => NEW_CONN) (share 2 0 j [7; 8; 9]).
Proof. apply (dispatch_round_robin [7; 8; 9] sim_server 2 0); try done; [apply sim_queues|lia]. Defined.

Lemma dispatch_fair_witness :
  exists s', dispatch_all [7; 8; 9] sim_server = Ret (tt, s') /\
    forall j w, _workers sim_server !! j = Some w -> exists w', _workers s' !! j = Some w' /\
      (3 / 2 <= length (q_view (_q_conn w')) <= 3 / 2 + 1)%nat.
Proof.
  apply (dispatch_fair [7; 8; 9] sim_server 2); try done; [apply sim_queues|lia|].
  repeat constructor; apply q_new_ok.
Defined.

Lemma accept_new_conn_cases_witness :
  accept_new_conn 35 35 1 (-1, 24) ("", 0) true sim_server = Ret (tt, ss_close [5] sim_server) /\
  accept_new_conn 35 35 9 (-1, 35) ("", 0) true sim_server = OutOfFuel.
Proof.
  split.
  - by apply (accept_new_conn_cases 35 35 sim_server (-1) 24 ("", 0) true 0).
  - apply (accept_new_conn_cases 35 35 sim_server (-1) 35 ("", 0) true 9). by left.
Defined.

Lemma signaling_server_stop_witness :
  exists s', ss_process_notify (fun _ => true) QUIT sim_running = Ret (tt, s') /\
    closed s' = [] ++ [3; 4; 5] /\ ss_stopped s' = true /\
    forall j w, _workers sim_running !! j = Some w -> exists w', _workers s' !! j = Some w' /\
      notify_pipe w' = notify_pipe w ++ [QUIT] /\ _thread w' <> Some true /\
      _conns w' = _conns w /\ _q_conn w' = _q_conn w.
Proof. by apply (signaling_server_stop (fun _ => true) sim_running). Defined.
