(* ===== verification/System.v ===== *)
(** * The two servers together

    The signaling workers, the RTC server and its workers as one system: the
    requests a signaling worker hands to [g_rtc_server->send_rtc_msg] go into
    the queue of the RTC server, and the answers of an RTC worker into the
    queue of the signaling worker the message names.  A step is one callback of
    one thread, in any order; the writes to the pipes may fail. *)

From S2P Require Import Prelude Crc32 Sds LockFreeQueue EventLoop Socket Defs SignalingWorker WorkerFraming WorkerInv WorkerTrace RandomString Sdp RtcWorker RtcServer SignalingServer.
#[local] Open Scope Z_scope.
#[local] Open Scope xrtc_scope.

Section system.
Context `{Compiler} `{LibEv} `{JsonCpp} {G Q1 Q2 : Type} `{FifoQueue Z Q1} `{FifoQueue (RtcMsg positive) Q2}.
Context (Generate : nat -> M G (option (list byte))).
Context (junk : nat -> byte) (malloc_ok : Z -> bool) (EAGAIN : Z).

Notation Msg := (RtcMsg positive).
Notation Worker := (SignalingWorker.Worker (Cert := positive) (Q := Q1)).
Notation RtcWorker := (RtcWorker.RtcWorker (G := G) (Q := Q2)).
Notation RtcServer := (RtcServer.RtcServer (G := G) (Q := Q2)).
Notation event := (WorkerInv.event (Cert := positive)).

(** ** State and steps *)

Record System := MkSystem { conn_workers : list Worker; rtc_server : RtcServer }.

Definition set_conn_workers ws y := MkSystem ws (rtc_server y).
Definition set_rtc_server s y := MkSystem (conn_workers y) s.

(** A call on the RTC server, on a signaling worker. *)
Definition on_rtc_server {A} (f : M RtcServer A) : M System A := fun y =>
  match f (rtc_server y) with
  | Ret (a, s) => Ret (a, set_rtc_server s y)
  | Abort => Abort | Ub u => Ub u | OutOfFuel => OutOfFuel
  end.

Definition on_conn (i : nat) {A} (f : M Worker A) : M System A := fun y =>
  match conn_workers y !! i with
  | None => Ub OutOfBounds
  | Some w =>
      match f w with
      | Ret (a, w') => Ret (a, set_conn_workers (<[i := w']> (conn_workers y)) y)
      | Abort => Abort | Ub u => Ub u | OutOfFuel => OutOfFuel
      end
  end.

(** [f] for each element, in order. *)
Fixpoint for_each {S A} (f : A -> M S unit) (l : list A) : M S unit :=
  match l with [] => mret tt | x :: l => _ ← f x; for_each f l end.

(** [send_rtc_msg] of the RTC server, as the request handler calls it. *)
Definition ask (ok : bool) (m : Msg) : M System unit :=
  _ ← on_rtc_server (rs_send_rtc_msg ok m); mret tt.

(** [worker->send_rtc_msg(msg)] of an RTC worker: [woeker] is the address of
    the signaling worker, named here by its number. *)
Definition answer (ok : bool) (x : Z * Msg) : M System unit :=
  _ ← on_conn (Z.to_nat x.1) (send_rtc_msg ok x.2); mret tt.

(** What the request handlers of a worker get back from [send_rtc_msg]. *)
Definition with_ret (ok : bool) (ev : event) : event :=
  match ev with
  | EvIo fuel f events r ws _ => EvIo fuel f events r ws (if ok then 0 else -1)
  | _ => ev
  end.

(** An event of the signaling worker [i]; the requests it made are delivered. *)
Definition conn_event (i : nat) (ev : event) (ok : bool) : M System unit :=
  y ← get;
  _ ← on_conn i (run_event junk malloc_ok EAGAIN (with_ret ok ev));
  y' ← get;
  let made w := requests (effects w) in
  match conn_workers y !! i, conn_workers y' !! i with
  | Some w, Some w' => for_each (ask ok) (drop (length (made w)) (made w'))
  | _, _ => mret tt
  end.

(** The RTC worker [j] handles a notification; its answers are delivered. *)
Definition rtc_event (j : nat) (p : positive) (ok : bool) : M System unit :=
  y ← get;
  _ ← on_rtc_server (on_worker j (rtc_worker_recv_notify Generate (cert_heap (rtc_server y)) p));
  y' ← get;
  match rs_workers (rtc_server y) !! j, rs_workers (rtc_server y') !! j with
  | Some w, Some w' => for_each (answer ok) (drop (length (rw_sent w)) (rw_sent w'))
  | _, _ => mret tt
  end.

Inductive action :=
  | AConn (i : nat) (ev : event) (ok : bool)
  | AServer (log_info : bool) (e : cert_env) (ok : nat -> bool)
  | ARtc (j : nat) (p : positive) (ok : bool)
  | AStop (ok : bool).

Definition act (a : action) : M System unit :=
  match a with
  | AConn i ev ok => conn_event i ev ok
  | AServer log_info e ok => on_rtc_server (rtc_server_recv_notify log_info e ok)
  | ARtc j p ok => rtc_event j p ok
  | AStop ok => on_rtc_server (rs_stop ok)
  end.

(** The events of the signaling workers come from outside; a new certificate
    can be made when one is needed. *)
Definition action_ok (a : action) : Prop :=
  match a with
  | AConn _ ev _ => from_outside ev
  | AServer _ e _ => is_Some (e_identity e (Some kYearInSeconds))
  | _ => True
  end.

Inductive sys_step (y : System) : System -> Prop :=
  | sys_act a y' : action_ok a -> act a y = Ret (tt, y') -> sys_step y y'.

(** ** Where the requests are *)

(** Messages of worker [i] for the stream [name]. *)
Definition of_stream (i : Z) (name : string) (m : Msg) : Prop :=
  woeker m = Some i /\ stream_name m = name.
#[export] Instance of_stream_dec i name m : Decision (of_stream i name m).
Proof. unfold of_stream. apply _. Defined.

(** A message without what the RTC server adds to it. *)
Definition as_asked (m : Msg) : Msg := set_sdp "" (set_certificate None m).

(** The messages an RTC worker has answered and those it has queued. *)
Definition taken (w : RtcWorker) : list Msg := map snd (rw_sent w).
Definition waiting (w : RtcWorker) : list Msg := q_view (rw_q_msg w).

(** The messages the RTC worker responsible for [name] has got so far, oldest
    first, and those that wait for the RTC server. *)
Definition rtc_history (j : nat) (s : RtcServer) : list Msg :=
  match rs_workers s !! j with Some w => taken w ++ waiting w | None => [] end.

Definition rtc_taken (j : nat) (s : RtcServer) : list Msg :=
  match rs_workers s !! j with Some w => taken w | None => [] end.

(** ** The conserved quantity *)

(** What travels between the servers: push requests of a signaling worker. *)
Definition sys_msg (m : Msg) : Prop := cmdno m = CMDNO_PUSH /\ exists k : nat, woeker m = Some (Z.of_nat k).

Record sys_inv (y : System) : Prop := {
  si_ids : forall i w, conn_workers y !! i = Some w -> _worker_id w = Z.of_nat i;
  si_own : forall i w, conn_workers y !! i = Some w ->
    Forall (asked_by (Z.of_nat i)) (requests (effects w));
  si_ready : ready (rtc_server y);
  si_queue : Forall sys_msg (rs_q_msg (rtc_server y));
  si_workers : forall j w, rs_workers (rtc_server y) !! j = Some w ->
    Forall sys_msg (waiting w) /\
    Forall (fun m => route (worker_num (rtc_server y)) (stream_name m) = j) (waiting w);
  si_asked : forall i w name, conn_workers y !! i = Some w ->
    filter (of_stream (Z.of_nat i) name) (requests (effects w)) =
    map as_asked (filter (of_stream (Z.of_nat i) name)
      (rtc_history (route (worker_num (rtc_server y)) name) (rtc_server y) ++ rs_q_msg (rtc_server y)));
  si_answers : forall i w name, conn_workers y !! i = Some w ->
    exists given,
      filter (of_stream (Z.of_nat i) name)
        (rtc_taken (route (worker_num (rtc_server y)) name) (rtc_server y)) =
      given ++ filter (of_stream (Z.of_nat i) name) (_q_rtc_msg w);
}.

(** *** Filters *)

Lemma as_asked_id i m : asked_by i m -> as_asked m = m.
Proof. intros (_ & _ & Hc & Hs). unfold as_asked, set_sdp, set_certificate. destruct m; simpl in *; by subst. Qed.

Lemma filter_answers i name ms xs :
  Forall2 answers ms xs ->
  map as_asked (filter (of_stream i name) (map snd xs)) = map as_asked (filter (of_stream i name) ms).
Proof.
  induction 1 as [|m [sw m'] ms xs [Hw [o Ho]] _ IH]; [done|]. simpl in Ho. subst m'.
  cbn [map snd]. rewrite !filter_cons.
  destruct (decide (of_stream i name m)); [rewrite decide_True by done|by rewrite decide_False].
  cbn [map]. by rewrite IH.
Qed.

(** *** Delivery *)

Lemma ask_all ok ms y y' :
  for_each (ask ok) ms y = Ret (tt, y') ->
  conn_workers y' = conn_workers y /\ rs_q_msg (rtc_server y') = rs_q_msg (rtc_server y) ++ ms /\
  worker_num (rtc_server y') = worker_num (rtc_server y) /\
  rs_workers (rtc_server y') = rs_workers (rtc_server y).
Proof.
  revert y. induction ms as [|m ms IH]; intros y Hr; cbn [for_each] in Hr.
  { injection Hr as <-. by rewrite app_nil_r. }
  apply M_bind_ret in Hr as ([] & y1 & Hd & Hr). apply IH in Hr as (-> & -> & -> & ->).
  unfold ask, on_rtc_server, rs_send_rtc_msg, rs_push_msg, rs_notify in Hd.
  destruct ok; injection Hd as <-; cbn; by rewrite <- app_assoc.
Qed.

(** [w'] is [w] with more answers in its queue. *)
Definition got (ms : list Msg) (w w' : Worker) : Prop :=
  _worker_id w' = _worker_id w /\ effects w' = effects w /\ _q_rtc_msg w' = _q_rtc_msg w ++ ms.

Lemma answer_all ok xs y y' :
  for_each (answer ok) xs y = Ret (tt, y') ->
  rtc_server y' = rtc_server y /\
  forall k w', conn_workers y' !! k = Some w' -> exists w, conn_workers y !! k = Some w /\
    got (map snd (filter (fun x => Z.to_nat x.1 = k) xs)) w w'.
Proof.
  revert y. induction xs as [|x xs IH]; intros y Hr; cbn [for_each] in Hr.
  { injection Hr as <-. split; [done|]. intros k w Hk. exists w. split; [done|]. unfold got. by rewrite app_nil_r. }
  apply M_bind_ret in Hr as ([] & y1 & Hd & Hr). apply IH in Hr as (-> & Hk).
  apply M_bind_ret in Hd as (r & y2 & Hd & Hd2). injection Hd2 as ->. unfold on_conn in Hd.
  destruct (conn_workers y !! Z.to_nat x.1) as [w0|] eqn:Hw0; [|done].
  destruct (send_rtc_msg ok x.2 w0) as [[a w1]| | |] eqn:Hs; simplify_eq. cbn [conn_workers rtc_server set_conn_workers] in Hk |- *.
  assert (Hg : got [x.2] w0 w1).
  { unfold send_rtc_msg, push_rtc_msg, notify in Hs. by destruct ok; injection Hs as _ <-. }
  split; [done|]. intros k w' Hw'. destruct (Hk k w' Hw') as (w & Hw & Hgot).
  rewrite filter_cons. destruct (decide (Z.to_nat x.1 = k)) as [<-|Hne].
  - rewrite list_lookup_insert_eq in Hw by by eapply lookup_lt_Some. injection Hw as <-.
    exists w0. split; [done|]. destruct Hg as (? & ? & Hq1), Hgot as (? & ? & Hq2).
    split; [congruence|]. split; [congruence|]. by rewrite Hq2, Hq1, <- app_assoc.
  - rewrite list_lookup_insert_ne in Hw by done. by exists w.
Qed.

(** *** Each step keeps it *)

Lemma inv_conn_event i ev ok y y' :
  sys_inv y -> from_outside ev -> conn_event i ev ok y = Ret (tt, y') -> sys_inv y'.
Proof.
  intros [Hids Hown Hrdy Hq Hws Hasked Hans] Hev Hr. unfold conn_event in Hr. rewrite M_bind_get in Hr.
  apply M_bind_ret in Hr as ([] & y1 & Hd & Hr). rewrite M_bind_get in Hr. unfold on_conn in Hd.
  destruct (conn_workers y !! i) as [w|] eqn:Hi; [|done].
  destruct (run_event _ _ _ _ w) as [[[] w']| | |] eqn:Hrun; simplify_eq.
  apply run_event_hands_on in Hrun as [Hid (ms & Hms & Hf) (ts & Hts)]; [|by destruct ev].
  cbn [conn_workers rtc_server set_conn_workers] in Hr. rewrite list_lookup_insert_eq in Hr by by eapply lookup_lt_Some.
  rewrite Hms, drop_app_length in Hr. apply ask_all in Hr as (Hcw & Hqm & Hnum & Hrw).
  cbn [conn_workers rtc_server set_conn_workers] in *.
  assert (Hall : forall k w1, conn_workers y' !! k = Some w1 ->
    exists w0 new, conn_workers y !! k = Some w0 /\ _worker_id w1 = _worker_id w0 /\
      requests (effects w1) = requests (effects w0) ++ new /\
      (forall name, filter (of_stream (Z.of_nat k) name) new = filter (of_stream (Z.of_nat k) name) ms) /\
      Forall (asked_by (Z.of_nat k)) new /\
      exists old, _q_rtc_msg w0 = old ++ _q_rtc_msg w1).
  { intros k w1 Hk. rewrite Hcw in Hk. rewrite (Hids i w Hi) in Hf. destruct (decide (i = k)) as [<-|Hne].
    - rewrite list_lookup_insert_eq in Hk by by eapply lookup_lt_Some. simplify_eq. exists w, ms. eauto 10.
    - rewrite list_lookup_insert_ne in Hk by done. exists w1, []. rewrite app_nil_r. split_and!; try done.
      + intros name. symmetry. apply filter_none. eapply Forall_impl; [exact Hf|].
        intros m (Hm & _) (Hm' & _). rewrite Hm in Hm'. injection Hm'. lia.
      + by exists []. }
  split.
  - intros k w1 Hk. destruct (Hall k w1 Hk) as (w0 & new & Hk0 & -> & _). by apply Hids.
  - intros k w1 Hk. destruct (Hall k w1 Hk) as (w0 & new & Hk0 & _ & -> & _ & Hby & _).
    apply Forall_app_2; [by apply Hown|done].
  - destruct Hrdy as [Hn Hl Hqs]. split; by rewrite ?Hnum, ?Hrw.
  - rewrite Hqm. apply Forall_app_2; [done|]. eapply Forall_impl; [exact Hf|].
    intros m (Hm & Hc & _). split; [done|]. exists i. by rewrite Hm, (Hids i w Hi).
  - intros j w1 Hj. rewrite Hrw in Hj. rewrite Hnum. by apply Hws.
  - intros k w1 name Hk. destruct (Hall k w1 Hk) as (w0 & new & Hk0 & _ & -> & Hnew & Hby & _).
    unfold rtc_history. rewrite Hqm, Hnum, Hrw, app_assoc, !filter_app, map_app.
    fold (rtc_history (route (worker_num (rtc_server y)) name) (rtc_server y)).
    rewrite <- (filter_app _ (rtc_history _ _)), <- (Hasked k w0 name Hk0). f_equal.
    rewrite <- Hnew. clear -Hby. induction Hby as [|m new Hm _ IH]; [done|]. rewrite filter_cons.
    case_decide; [|done]. cbn [map]. by rewrite <- IH, (as_asked_id _ _ Hm).
  - intros k w1 name Hk. destruct (Hall k w1 Hk) as (w0 & new & Hk0 & _ & _ & _ & _ & old & Hold).
    unfold rtc_taken. rewrite Hnum, Hrw. destruct (Hans k w0 name Hk0) as [given Hg].
    unfold rtc_taken in Hg. rewrite Hg, Hold, filter_app.
    exists (given ++ filter (of_stream (Z.of_nat k) name) old). by rewrite app_assoc.
Qed.

Lemma inv_server ms y s' :
  sys_inv y -> moves ms (rtc_server y) s' -> sys_inv (set_rtc_server s' y).
Proof.
  intros [Hids Hown Hrdy Hq Hws Hasked Hans] [Hrdy' Hqm Hnum Hmv]. set (c := _certificate s') in *.
  assert (Hlen : length (rs_workers s') = length (rs_workers (rtc_server y))).
  { pose proof (ready_workers _ Hrdy). pose proof (ready_workers _ Hrdy'). lia. }
  assert (Hback : forall j w', rs_workers s' !! j = Some w' -> exists w,
    rs_workers (rtc_server y) !! j = Some w /\ rw_sent w' = rw_sent w /\
    waiting w' = waiting w ++ map (set_certificate c)
      (filter (fun m => route (worker_num (rtc_server y)) (stream_name m) = j) ms)).
  { intros j w' Hj. destruct (lookup_lt_is_Some_2 (rs_workers (rtc_server y)) j) as [w Hw].
    { rewrite <- Hlen. by eapply lookup_lt_Some. }
    destruct (Hmv j w Hw) as (w1 & Hj1 & Hs & _ & Hv). exists w. by simplify_eq. }
  assert (Hms : Forall sys_msg ms) by (rewrite Hqm in Hq; by apply Forall_app in Hq as [? _]).
  split; cbn [conn_workers rtc_server set_rtc_server]; try done.
  - rewrite Hqm in Hq. by apply Forall_app in Hq as [_ ?].
  - intros j w' Hj. destruct (Hback j w' Hj) as (w & Hw & _ & ->). destruct (Hws j w Hw) as [Hf1 Hf2].
    rewrite Hnum. split; (apply Forall_app_2; [done|]); apply Forall_map, Forall_forall;
      intros m [Hm Hin]%list_elem_of_filter; [|exact Hm]. pose proof (proj1 (Forall_forall _ _) Hms m Hin) as Hx. exact Hx.
  - intros i w name Hi. rewrite (Hasked i w name Hi), Hnum, Hqm, app_assoc.
    rewrite !(filter_app _ _ (rs_q_msg s')), !map_app. f_equal. unfold rtc_history.
    destruct (rs_workers s' !! _) as [w'|] eqn:Hj.
    + destruct (Hback _ w' Hj) as (w0 & -> & Hsent & ->). unfold taken. rewrite Hsent.
      rewrite app_assoc, !(filter_app _ (_ ++ _)), !map_app. f_equal.
      rewrite (filter_map_iff _ (of_stream (Z.of_nat i) name) (set_certificate c)) by done.
      rewrite filter_absorb by (intros m [_ ->]; done). by rewrite map_map.
    + exfalso. destruct (get_worker_ready _ name Hrdy') as [_ Hlt]. rewrite Hnum in Hlt.
      apply lookup_ge_None in Hj. lia.
  - intros i w name Hi. destruct (Hans i w name Hi) as [given Hg]. exists given. rewrite <- Hg, Hnum.
    f_equal. unfold rtc_taken. destruct (get_worker_ready _ name Hrdy') as [_ Hlt]. rewrite Hnum in Hlt.
    destruct (lookup_lt_is_Some_2 _ _ Hlt) as [w' Hw']. destruct (Hback _ w' Hw') as (w0 & Hw0 & Hs & _).
    rewrite Hw', Hw0. unfold taken. by rewrite Hs.
Qed.

(** An answer goes to the worker that asked. *)
Lemma answers_to k name ms xs :
  Forall sys_msg ms -> Forall2 answers ms xs ->
  filter (of_stream (Z.of_nat k) name) (map snd (filter (fun x => Z.to_nat x.1 = k) xs)) =
  filter (of_stream (Z.of_nat k) name) (map snd xs).
Proof.
  intros Hms Hxs. induction Hxs as [|m [sw m'] ms xs [Hw [o Ho]] _ IH]; [done|].
  apply Forall_cons in Hms as [[_ [k' Hk]] Hms]. specialize (IH Hms). simpl in Ho, Hw. subst m'.
  assert (sw = Z.of_nat k') as -> by congruence. rewrite filter_cons. cbn [fst].
  case_decide as Hc; cbn [map snd]; rewrite !(filter_cons _ (set_sdp o m)), IH; [done|].
  rewrite decide_False; [done|]. intros [Hs _]. cbn in Hs. rewrite Hw in Hs. injection Hs. lia.
Qed.

Lemma inv_rtc_event j p ok y y' :
  sys_inv y -> rtc_event j p ok y = Ret (tt, y') -> sys_inv y'.
Proof.
  intros [Hids Hown Hrdy Hq Hws Hasked Hans] Hr. unfold rtc_event in Hr. rewrite M_bind_get in Hr.
  apply M_bind_ret in Hr as ([] & y1 & Hd & Hr). rewrite M_bind_get in Hr.
  unfold on_rtc_server, on_worker in Hd.
  destruct (rs_workers (rtc_server y) !! j) as [w|] eqn:Hj; [|done].
  destruct (rtc_worker_recv_notify _ _ _ w) as [[[] w']| | |] eqn:Hrun; simplify_eq.
  destruct (Hws j w Hj) as [Hsys Hrt]. pose proof Hrdy as [Hn Hl Hqs].
  pose proof (proj1 (Forall_lookup _ _) Hqs j w Hj) as Hqw.
  apply recv_notify_sent in Hrun as (Hqw' & ms & xs & Hview & Hsent & Hxs); [|done|].
  2: { eapply Forall_impl; [exact Hsys|]. intros m [Hc [k Hk]]. split; [done|]. by rewrite Hk. }
  cbn [conn_workers rtc_server set_rtc_server rs_workers rs_set_workers] in Hr.
  assert (Hlt : (j < length (rs_workers (rtc_server y)))%nat) by by eapply lookup_lt_Some.
  rewrite list_lookup_insert_eq in Hr by done. rewrite Hsent, drop_app_length in Hr.
  apply answer_all in Hr as (Hrs & Hk). cbn [conn_workers rtc_server set_rtc_server] in Hrs, Hk.
  assert (Hms : Forall sys_msg ms /\ Forall sys_msg (waiting w') /\
    Forall (fun m => route (worker_num (rtc_server y)) (stream_name m) = j) ms /\
    Forall (fun m => route (worker_num (rtc_server y)) (stream_name m) = j) (waiting w')).
  { unfold waiting in *. rewrite Hview in Hsys, Hrt. apply Forall_app in Hsys as [? ?], Hrt as [? ?]. done. }
  destruct Hms as (Hms & Hms' & Hrms & Hrms').
  split; rewrite ?Hrs; cbn [rs_q_msg worker_num rs_set_workers rs_workers]; try done.
  - intros k w1 Hw1. destruct (Hk k w1 Hw1) as (w0 & Hw0 & -> & _). by apply Hids.
  - intros k w1 Hw1. destruct (Hk k w1 Hw1) as (w0 & Hw0 & _ & -> & _). by apply Hown.
  - split; cbn; [done|by rewrite length_insert|by apply Forall_insert].
  - intros j' w1 Hj'. destruct (decide (j = j')) as [<-|Hne].
    + rewrite list_lookup_insert_eq in Hj' by done. by simplify_eq.
    + rewrite list_lookup_insert_ne in Hj' by done. by apply Hws.
  - intros k w1 name Hw1. destruct (Hk k w1 Hw1) as (w0 & Hw0 & _ & -> & _).
    rewrite (Hasked k w0 name Hw0), !filter_app, !map_app. f_equal.
    unfold rtc_history. cbn [rs_workers rs_set_workers].
    destruct (decide (j = route (worker_num (rtc_server y)) name)) as [->|Hne];
      [|by rewrite list_lookup_insert_ne].
    rewrite list_lookup_insert_eq, Hj by done. unfold taken, waiting. rewrite Hsent, Hview, map_app.
    rewrite !filter_app, !map_app, (filter_answers _ _ _ _ Hxs). by rewrite app_assoc.
  - intros k w1 name Hw1. destruct (Hk k w1 Hw1) as (w0 & Hw0 & _ & _ & ->).
    destruct (Hans k w0 name Hw0) as [given Hg]. exists given. rewrite filter_app, (answers_to _ _ _ _ Hms Hxs).
    unfold rtc_taken in *. cbn [rs_workers rs_set_workers].
    destruct (decide (j = route (worker_num (rtc_server y)) name)) as [->|Hne].
    + rewrite list_lookup_insert_eq by done. rewrite Hj in Hg. unfold taken in *.
      by rewrite Hsent, map_app, filter_app, Hg, app_assoc.
    + rewrite list_lookup_insert_ne by done. rewrite Hg. f_equal.
      assert (Hnone : map as_asked (filter (of_stream (Z.of_nat k) name) (map snd xs)) = []).
      { rewrite (filter_answers _ _ _ _ Hxs), filter_none; [done|].
        eapply Forall_impl; [exact Hrms|]. by intros m Hm [_ <-]. }
      apply map_eq_nil in Hnone. by rewrite Hnone, app_nil_r.
Qed.

Lemma sys_step_inv y y' : sys_inv y -> sys_step y y' -> sys_inv y'.
Proof.
  intros Hy [a y1 Ha Hr]. pose proof (si_ready _ Hy) as Hrdy.
  assert (Hsrv : forall {A} (f : M RtcServer A) (a : A), on_rtc_server f y = Ret (a, y1) ->
    exists s', f (rtc_server y) = Ret (a, s') /\ y1 = set_rtc_server s' y).
  { intros A f a0 Hf. unfold on_rtc_server in Hf. destruct (f _) as [[]| | |]; simplify_eq. eauto. }
  destruct a as [i ev ok|log_info e ok|j p ok|ok]; cbn [act action_ok] in *.
  - by eapply inv_conn_event.
  - apply Hsrv in Hr as (s' & Hs & ->). apply recv_notify_moves in Hs as [ms Hms]; [|done|by right].
    by eapply inv_server.
  - by eapply inv_rtc_event.
  - apply Hsrv in Hr as (s' & Hs & ->). eapply (inv_server []); [done|].
    unfold rs_stop, rs_notify in Hs. destruct ok; injection Hs as <-; by apply moves_nothing.
Qed.

(** ** Safety of the whole *)

(** What the surroundings promise for the next step: the promises of
    [event_ok] to the signaling workers, that the certificate has not expired,
    and that the RTC worker exists. *)
Definition action_env (y : System) (a : action) : Prop :=
  match a with
  | AConn i ev ok => from_outside ev /\
      exists w, conn_workers y !! i = Some w /\ event_ok w (with_ret ok ev)
  | AServer _ e _ => cert_fresh (rtc_server y) e
  | ARtc j p _ => exists w, rs_workers (rtc_server y) !! j = Some w /\ streams w !! p = None
  | AStop _ => True
  end.

Inductive env_step (y : System) : System -> Prop :=
  | env_act a y' : action_env y a -> act a y = Ret (tt, y') -> env_step y y'.

(** The workers that messages name exist. *)
Definition addressed (n : nat) (m : Msg) : Prop :=
  cmdno m = CMDNO_PUSH /\ exists k, (k < n)%nat /\ woeker m = Some (Z.of_nat k).

Record safe_inv (p0 : positive) (c0 : RTCCertificate) (y : System) : Prop := {
  sv_ids : forall i w, conn_workers y !! i = Some w -> _worker_id w = Z.of_nat i;
  sv_conn : Forall worker_ok (conn_workers y);
  sv_rs : rs_ok (rtc_server y);
  sv_ready : ready (rtc_server y);
  sv_cert : _certificate (rtc_server y) = Some p0 /\ cert_heap (rtc_server y) !! p0 = Some c0;
  sv_queue : Forall (addressed (length (conn_workers y))) (rs_q_msg (rtc_server y));
  sv_workers : forall j w, rs_workers (rtc_server y) !! j = Some w ->
    mgr_ok w /\ carries p0 w /\ Forall (addressed (length (conn_workers y))) (waiting w);
}.

(** Delivering requests and answers always succeeds. *)
Lemma ask_all_returns ok ms y :
  exists y', for_each (ask ok) ms y = Ret (tt, y').
Proof.
  revert y. induction ms as [|m ms IH]; intros y; cbn [for_each]; [by eexists|].
  assert (exists y1, ask ok m y = Ret (tt, y1)) as [y1 Hd] by (destruct ok; by eexists).
  rewrite (M_bind_eq _ _ _ _ _ Hd). apply IH.
Qed.

Lemma ask_all_rs_ok ok ms y y' :
  for_each (ask ok) ms y = Ret (tt, y') -> rs_ok (rtc_server y) ->
  rs_ok (rtc_server y') /\ same_cert (rtc_server y) (rtc_server y').
Proof.
  revert y. induction ms as [|m ms IH]; intros y Hr Hy; cbn [for_each] in Hr; [by injection Hr as <-|].
  apply M_bind_ret in Hr as ([] & y1 & Hd & Hr). unfold ask in Hd.
  apply M_bind_ret in Hd as (r & y2 & Hd & Hd2). injection Hd2 as ->. unfold on_rtc_server in Hd.
  destruct (rs_send_rtc_msg ok m (rtc_server y)) as [[r' s1]| | |] eqn:Hs; simplify_eq.
  assert (Hs1 : rs_ok s1) by (eapply rs_step_ok, rs_step_send, Hs; done).
  destruct (IH _ Hr Hs1) as [Hy' [Hc Hh]]. split; [done|]. cbn in Hc, Hh.
  unfold rs_send_rtc_msg, rs_push_msg, rs_notify in Hs. by destruct ok; injection Hs as _ <-.
Qed.

Lemma answer_all_returns ok xs y :
  Forall (fun x => exists k, (k < length (conn_workers y))%nat /\ x.1 = Z.of_nat k) xs ->
  Forall worker_ok (conn_workers y) ->
  exists y', for_each (answer ok) xs y = Ret (tt, y') /\ Forall worker_ok (conn_workers y') /\
    length (conn_workers y') = length (conn_workers y).
Proof.
  revert y. induction xs as [|x xs IH]; intros y Hxs Hy; cbn [for_each]; [by eexists|].
  apply Forall_cons in Hxs as [(k & Hk & Hx) Hxs].
  destruct (lookup_lt_is_Some_2 _ _ Hk) as [w Hw].
  assert (exists a w', send_rtc_msg ok x.2 w = Ret (a, w') /\ worker_ok w') as (a & w' & Hs & Hw').
  { pose proof (proj1 (Forall_lookup _ _) Hy k w Hw) as Hok.
    unfold send_rtc_msg, push_rtc_msg, notify. destruct ok; eexists _, _; (split; [done|]);
      by eapply worker_ok_same. }
  assert (Hd : answer ok x y = Ret (tt, set_conn_workers (<[k := w']> (conn_workers y)) y)).
  { unfold answer. unfold mbind, M_bind, on_conn. by rewrite Hx, Nat2Z.id, Hw, Hs. }
  rewrite (M_bind_eq _ _ _ _ _ Hd).
  destruct (IH (set_conn_workers (<[k := w']> (conn_workers y)) y)) as (y' & Hr & Hy' & Hl).
  - cbn. by rewrite length_insert.
  - cbn. by apply Forall_insert.
  - exists y'. split; [done|]. split; [done|]. rewrite Hl. cbn. by rewrite length_insert.
Qed.

End system.

Section safety.
Context `{Compiler} `{LibEvLaws} `{JsonCpp} {G Q1 Q2 : Type} `{FifoQueue Z Q1} `{FifoQueue (RtcMsg positive) Q2}.
Context (Generate : nat -> M G (option (list byte))).
Context (junk : nat -> byte) (malloc_ok : Z -> bool) (EAGAIN : Z).
Context (malloc_grants : forall n, 0 <= n < 2 ^ 32 -> malloc_ok n = true).
Context (rng_total : total Generate).
Context (rng_fills : fills Generate ICE_UFRAG_LEN /\ fills Generate ICE_PASSWORD_LEN).

Notation Msg := (RtcMsg positive).
Notation System := (System (G := G) (Q1 := Q1) (Q2 := Q2)).
Notation act := (act Generate junk malloc_ok EAGAIN).
Notation safe_inv := (safe_inv (G := G) (Q1 := Q1) (Q2 := Q2)).
Implicit Types (y : System).

(** Outcomes of a step that touch no memory they should not. *)
Definition sys_safe (P : System -> Prop) (r : res (unit * System)) : Prop :=
  match r with Ret (_, y) => P y | Abort | OutOfFuel => True | Ub u => u = MissingReturn end.

Lemma safe_conn_event p0 c0 i ev ok y :
  safe_inv p0 c0 y -> action_env y (AConn i ev ok) ->
  sys_safe (safe_inv p0 c0) (conn_event junk malloc_ok EAGAIN i ev ok y).
Proof.
  intros [Hids Hconn Hrs Hrdy Hcert Hq Hws] [Hev (w & Hi & Hok)]. unfold conn_event.
  rewrite M_bind_get. pose proof (proj1 (Forall_lookup _ _) Hconn i w Hi) as Hw.
  pose proof (event_safe junk malloc_ok EAGAIN malloc_grants w (with_ret ok ev) Hw Hok) as Hsafe.
  unfold mbind at 1, M_bind at 1, on_conn. rewrite Hi.
  destruct (run_event junk malloc_ok EAGAIN (with_ret ok ev) w) as [[[] w']| |u|] eqn:Hrun; try done.
  rewrite M_bind_get. cbn [conn_workers set_conn_workers]. assert (Hlt : (i < length (conn_workers y))%nat)
    by by eapply lookup_lt_Some. rewrite list_lookup_insert_eq by done.
  apply run_event_hands_on in Hrun as [Hid (ms & Hms & Hf) _]; [|by destruct ev].
  rewrite Hms, drop_app_length. set (y1 := set_conn_workers _ y).
  destruct (ask_all_returns ok ms y1) as [y' Hr]. rewrite Hr. cbn [sys_safe].
  pose proof (ask_all _ _ _ _ Hr) as (Hcw & Hqm & Hnum & Hrw).
  destruct (ask_all_rs_ok _ _ _ _ Hr Hrs) as [Hrs' [Hc' Hh']].
  assert (Hlen : length (conn_workers y') = length (conn_workers y)).
  { rewrite Hcw. cbn. by rewrite length_insert. }
  split.
  - intros k w1 Hk. rewrite Hcw in Hk. cbn in Hk. destruct (decide (i = k)) as [<-|].
    + rewrite list_lookup_insert_eq in Hk by done. simplify_eq. rewrite Hid. by apply Hids.
    + rewrite list_lookup_insert_ne in Hk by done. by apply Hids.
  - rewrite Hcw. cbn. by apply Forall_insert.
  - done.
  - destruct Hrdy as [Hn Hl Hqs]. split; by rewrite ?Hnum, ?Hrw.
  - by rewrite Hc', Hh'.
  - rewrite Hqm, Hlen. apply Forall_app_2; [done|]. eapply Forall_impl; [exact Hf|].
    intros m (Hm & Hcmd & _). split; [done|]. exists i. by rewrite Hm, (Hids i w Hi).
  - intros j w1 Hj. rewrite Hrw in Hj. rewrite Hlen. exact (Hws j w1 Hj).
Qed.

(** Moving messages keeps the invariant. *)
Lemma safe_moves p0 c0 ms y s' :
  safe_inv p0 c0 y -> moves ms (rtc_server y) s' -> same_cert (rtc_server y) s' -> rs_ok s' ->
  safe_inv p0 c0 (set_rtc_server s' y).
Proof.
  intros [Hids Hconn Hrs Hrdy [Hc0 Hh0] Hq Hws] [Hrdy' Hqm Hnum Hmv] [Hc' Hh'] Hrs'.
  split; cbn [conn_workers rtc_server set_rtc_server]; try done.
  - by rewrite Hc', Hh'.
  - rewrite Hqm in Hq. by apply Forall_app in Hq as [_ ?].
  - intros j w' Hj. destruct (lookup_lt_is_Some_2 (rs_workers (rtc_server y)) j) as [w Hw].
    { apply lookup_lt_Some in Hj. pose proof (ready_workers _ Hrdy). pose proof (ready_workers _ Hrdy'). lia. }
    destruct (Hmv j w Hw) as (w1 & Hj1 & _ & Hmg & Hv). simplify_eq.
    destruct (Hws j w Hw) as (Hm & Hca & Had). unfold mgr_ok, carries, waiting in *.
    rewrite Hmg, Hv. rewrite Hqm in Hq. apply Forall_app in Hq as [Hms _].
    split; [done|]. split; (apply Forall_app_2; [done|]); apply Forall_map, Forall_forall;
      intros m [_ Hin]%list_elem_of_filter; cbn; [by rewrite Hc'|].
    exact (proj1 (Forall_forall _ _) Hms m Hin).
Qed.

Lemma safe_rtc_event p0 c0 j p ok y :
  safe_inv p0 c0 y -> action_env y (ARtc j p ok) ->
  sys_safe (safe_inv p0 c0) (rtc_event Generate j p ok y).
Proof.
  intros [Hids Hconn Hrs Hrdy [Hc0 Hh0] Hq Hws] (w & Hj & Hp). unfold rtc_event.
  rewrite M_bind_get. destruct (Hws j w Hj) as (Hm & Hca & Had). destruct rng_fills as [Hu Hpw].
  pose proof Hrdy as [Hn Hl Hqs]. pose proof (proj1 (Forall_lookup _ _) Hqs j w Hj) as Hqw.
  pose proof (recv_notify_tame Generate (cert_heap (rtc_server y)) p w p0 c0
    rng_total Hu Hpw Hm Hqw Hca Hh0) as Hdef.
  unfold mbind at 1, M_bind at 1, on_rtc_server, on_worker. rewrite Hj.
  destruct (rtc_worker_recv_notify _ _ p w) as [[[] w']| |u|] eqn:Hrun; try done.
  rewrite M_bind_get. cbn [rtc_server conn_workers set_rtc_server rs_workers rs_set_workers].
  assert (Hlt : (j < length (rs_workers (rtc_server y)))%nat) by by eapply lookup_lt_Some.
  rewrite list_lookup_insert_eq by done.
  assert (Hm' : mgr_ok w') by (by eapply rw_step_streams, rw_step_notify, Hrun).
  apply recv_notify_sent in Hrun as (Hqw' & ms & xs & Hview & Hsent & Hxs); [|done|].
  2: { eapply Forall_impl; [exact Had|]. intros m (Hc & k & _ & Hk). split; [done|]. by rewrite Hk. }
  rewrite Hsent, drop_app_length. set (y1 := set_rtc_server _ y).
  assert (Hca' : carries p0 w' /\ Forall (addressed (length (conn_workers y))) (waiting w') /\
    Forall (addressed (length (conn_workers y))) ms).
  { unfold carries, waiting in *. rewrite Hview in Hca, Had.
    apply Forall_app in Hca as [_ ?], Had as [? ?]. done. }
  destruct Hca' as (Hca' & Had' & Hms).
  destruct (answer_all_returns ok xs y1) as (y' & Hr & Hconn' & Hlen).
  { clear -Hms Hxs. induction Hxs as [|m x ms xs [Hw _] _ IH]; [done|].
    apply Forall_cons in Hms as [(_ & k & Hk & Hwk) Hms]. constructor; [|by apply IH].
    exists k. split; [done|]. congruence. }
  { done. }
  rewrite Hr. cbn [sys_safe]. pose proof (answer_all _ _ _ _ Hr) as [Hrs' Hk].
  split; rewrite ?Hrs'; cbn [rtc_server set_rtc_server rs_q_msg rs_workers rs_set_workers y1]; try done.
  - intros k w1 Hw1. destruct (Hk k w1 Hw1) as (w0 & Hw0 & -> & _). by apply Hids.
  - destruct Hrs as [Hcok Hpipe Hqok Hnumok]. split; cbn; try done; [by apply Forall_insert|by rewrite length_insert].
  - split; cbn; [done|by rewrite length_insert|by apply Forall_insert].
  - by rewrite Hlen.
  - rewrite Hlen. intros j' w1 Hj'. destruct (decide (j = j')) as [<-|].
    + rewrite list_lookup_insert_eq in Hj' by done. by simplify_eq.
    + rewrite list_lookup_insert_ne in Hj' by done. exact (Hws j' w1 Hj').
Qed.

Lemma act_safe p0 c0 y a : safe_inv p0 c0 y -> action_env y a -> sys_safe (safe_inv p0 c0) (act a y).
Proof.
  intros Hy Ha. pose proof (sv_rs _ _ _ Hy) as Hrs. pose proof (sv_ready _ _ _ Hy) as Hrdy.
  destruct a as [i ev ok|log_info e ok|j p ok|ok]; cbn [System.act].
  - by apply safe_conn_event.
  - cbn [action_env] in Ha. destruct (recv_notify_ok (rtc_server y) log_info e ok Hrs) as (s' & Hr & Hrs').
    unfold on_rtc_server. rewrite Hr. cbn [sys_safe].
    pose proof (recv_notify_cert _ _ _ _ _ Ha Hr) as Hsame.
    destruct (recv_notify_moves log_info e ok (rtc_server y) s') as [ms Hms]; [done|by left|done|by eapply safe_moves].
  - by apply safe_rtc_event.
  - unfold on_rtc_server, rs_stop, rs_notify. destruct ok; cbn [sys_safe];
      (eapply (safe_moves p0 c0 []); [done|by apply moves_nothing|done|]).
    + eapply rs_step_ok, (rs_step_stop true); done.
    + by destruct Hrs.
Qed.

End safety.
