(* ===== verification/SystemRun.v ===== *)
(** * Requests through the whole system

    The requests of a client are answered in order, each once, by the threads of
    both servers in any interleaving; no interleaving touches memory it should
    not; and a push request that arrives at an idle system is answered in five
    callbacks. *)

From S2P Require Import Prelude Crc32 Sds LockFreeQueue EventLoop Socket Defs SignalingWorker WorkerFraming WorkerInv WorkerReply WorkerTrace StringEncode RandomString Sdp RtcWorker RtcServer SignalingServer System.
#[local] Open Scope Z_scope.
#[local] Open Scope xrtc_scope.

Section runs.
Context `{Compiler} `{LibEvLaws} `{JsonCpp} {G Q1 Q2 : Type} `{FifoQueue Z Q1} `{FifoQueue (RtcMsg positive) Q2}.
Context (Generate : nat -> M G (option (list byte))).
Context (junk : nat -> byte) (malloc_ok : Z -> bool) (EAGAIN : Z).

Notation Msg := (RtcMsg positive).
Notation System := (System (G := G) (Q1 := Q1) (Q2 := Q2)).
Notation RtcServer := (RtcServer.RtcServer (G := G) (Q := Q2)).
Implicit Types (y : System).

(** ** The start *)

(** Both servers have been initialised: the signaling server with [c] workers,
    the RTC server with [n]. *)
Record started (timeout c n : Z) (e : cert_env) (gs : Z -> G) (y : System) : Prop := {
  st_conn : conn_workers y = map (started_conn_worker timeout) (seqZ 0 c);
  st_num : 0 < n < 2 ^ 31;
  st_rtc : rs_init (Some (Some n)) e true (fun _ => true) gs new_RtcServer = Ret (0, rtc_server y);
}.

Lemma started_conn timeout c n e gs y i w :
  started timeout c n e gs y -> conn_workers y !! i = Some w ->
  w = started_conn_worker timeout (Z.of_nat i).
Proof.
  intros [Hc _ _] Hi. rewrite Hc in Hi. apply list_lookup_fmap_Some in Hi as (k & -> & Hk).
  apply lookup_seqZ in Hk as [-> _]. by rewrite Z.add_0_l.
Qed.

(** The RTC server after [init]. *)
Lemma started_rtc timeout c n e gs y :
  started timeout c n e gs y -> exists c0,
    let s := rtc_server y in
    rs_q_msg s = [] /\ rs_pipe s = [] /\ worker_num s = n /\ _certificate s = Some (e_cert_addr e) /\
    cert_heap s !! e_cert_addr e = Some c0 /\
    rs_workers s = map (fun k => started_worker (gs k) k) (seqZ 0 n).
Proof.
  intros [_ Hn Hr]. unfold rs_init in Hr. rewrite M_bind_modify in Hr.
  apply M_bind_ret in Hr as (r & s1 & Hck & Hr). rewrite check_stale in Hck by by left.
  destruct (e_identity e _) as [c0|]; injection Hck as <- <-; [|done].
  change (negb (0 =? 0)) with false in Hr. cbv iota in Hr. cbn [negb] in Hr. rewrite M_bind_modify in Hr.
  rewrite create_workers_ok in Hr by done. injection Hr as Hr. exists c0. rewrite <- Hr.
  rewrite Z2Nat.id by lia. cbn. by rewrite lookup_insert_eq.
Qed.

Lemma started_ready timeout c n e gs y : started timeout c n e gs y -> ready (rtc_server y).
Proof.
  intros Hs. pose proof (st_num _ _ _ _ _ _ Hs). destruct (started_rtc _ _ _ _ _ _ Hs) as (c0 & _ & _ & Hn & _ & _ & Hw).
  split; rewrite ?Hn, ?Hw; [done|by rewrite length_map, length_seqZ, Z2Nat.id by lia|].
  apply Forall_map, Forall_true. intros k. apply q_new_ok.
Qed.

Lemma started_waiting timeout c n e gs y j w :
  started timeout c n e gs y -> rs_workers (rtc_server y) !! j = Some w ->
  waiting w = [] /\ rw_sent w = [] /\ mgr_ok w.
Proof.
  intros Hs Hj. destruct (started_rtc _ _ _ _ _ _ Hs) as (c0 & _ & _ & _ & _ & _ & Hw). rewrite Hw in Hj.
  apply list_lookup_fmap_Some in Hj as (k & -> & _). split; [|done]. apply q_new_ok.
Qed.

Lemma started_inv timeout c n e gs y : started timeout c n e gs y -> sys_inv y.
Proof.
  intros Hs. destruct (started_rtc _ _ _ _ _ _ Hs) as (c0 & Hq & _ & Hn & _ & _ & _).
  assert (Hnone : forall j, rtc_history j (rtc_server y) = [] /\ rtc_taken j (rtc_server y) = []).
  { intros j. unfold rtc_history, rtc_taken. destruct (_ !! j) as [w|] eqn:Hj; [|done].
    destruct (started_waiting _ _ _ _ _ _ _ _ Hs Hj) as (Hw & Hse & _). unfold taken. by rewrite Hw, Hse. }
  split.
  - intros i w Hi. by rewrite (started_conn _ _ _ _ _ _ _ _ Hs Hi).
  - intros i w Hi. by rewrite (started_conn _ _ _ _ _ _ _ _ Hs Hi).
  - by eapply started_ready.
  - by rewrite Hq.
  - intros j w Hj. by destruct (started_waiting _ _ _ _ _ _ _ _ Hs Hj) as (-> & _).
  - intros i w name Hi. rewrite (started_conn _ _ _ _ _ _ _ _ Hs Hi), Hq, (proj1 (Hnone _)). done.
  - intros i w name Hi. rewrite (started_conn _ _ _ _ _ _ _ _ Hs Hi), (proj2 (Hnone _)). by exists [].
Qed.

(** ** Answers in order *)

Notation sys_step := (sys_step Generate junk malloc_ok EAGAIN).

Lemma run_inv y y' : rtc sys_step y y' -> sys_inv y -> sys_inv y'.
Proof. induction 1 as [|y1 y2 y3 Hd _ IH]; intros Hy; [done|]. by eapply IH, sys_step_inv. Qed.

(** The requests of a worker name it. *)
Lemma own_requests (i : nat) (ms : list Msg) name :
  Forall (asked_by (Z.of_nat i)) ms ->
  filter (fun m => stream_name m = name) ms = filter (of_stream (Z.of_nat i) name) ms.
Proof.
  intros Hf. induction Hf as [|m ms (Hm & _) _ IH]; [done|]. rewrite !filter_cons, IH.
  unfold of_stream. repeat case_decide; naive_solver.
Qed.

(** C2: as long as a certificate can be made whenever one is needed, requests
    are answered in order, each exactly once, by whatever interleaving of the
    threads of both servers, even when writes to the pipes fail: the requests a
    signaling worker made for a stream are, in order, those whose answers it has
    taken, those whose answers wait in its queue, those that wait for the RTC
    worker of the stream, and those that wait for the RTC server.  No answer is
    made up, lost, duplicated, reordered or sent to another worker.  (When the
    certificate has expired and no new one can be made, [_process_rtc_msg] of
    the RTC server drops the request without an answer: [request_dropped].  A
    step is a callback that returns.) *)
Theorem answers_in_order timeout c n e gs y0 y i w name :
  started timeout c n e gs y0 -> rtc sys_step y0 y -> conn_workers y !! i = Some w ->
  let mine := filter (of_stream (Z.of_nat i) name) in
  exists given rw,
    rs_workers (rtc_server y) !! route (worker_num (rtc_server y)) name = Some rw /\
    mine (taken rw) = given ++ mine (_q_rtc_msg w) /\
    filter (fun m => stream_name m = name) (requests (effects w)) =
      map as_asked (given ++ mine (_q_rtc_msg w) ++ mine (waiting rw) ++ mine (rs_q_msg (rtc_server y))).
Proof.
  intros Hs Hrun Hi mine. pose proof (run_inv _ _ Hrun (started_inv _ _ _ _ _ _ Hs)) as Hy.
  destruct (get_worker_ready _ name (si_ready _ Hy)) as [_ Hlt].
  destruct (lookup_lt_is_Some_2 _ _ Hlt) as [rw Hrw].
  destruct (si_answers _ Hy i w name Hi) as [given Hg]. unfold rtc_taken in Hg. rewrite Hrw in Hg.
  exists given, rw. split; [done|]. split; [done|]. rewrite (own_requests i _ name (si_own _ Hy i w Hi)).
  rewrite (si_asked _ Hy i w name Hi). unfold rtc_history. rewrite Hrw, !filter_app.
  fold (mine (taken rw)). unfold mine. by rewrite Hg, <- !app_assoc.
Qed.

(** ** Safety *)

Context (malloc_grants : forall n, 0 <= n < 2 ^ 32 -> malloc_ok n = true).
Context (rng_total : total Generate).
Context (rng_fills : fills Generate ICE_UFRAG_LEN /\ fills Generate ICE_PASSWORD_LEN).

Notation act := (act Generate junk malloc_ok EAGAIN).
Notation env_step := (env_step Generate junk malloc_ok EAGAIN).

Lemma started_safe timeout c n e gs y :
  started timeout c n e gs y -> exists c0, safe_inv (e_cert_addr e) c0 y.
Proof.
  intros Hs. destruct (started_rtc _ _ _ _ _ _ Hs) as (c0 & Hq & Hp & Hn & Hc & Hh & Hw).
  pose proof (st_num _ _ _ _ _ _ Hs) as Hn0. pose proof (started_ready _ _ _ _ _ _ Hs) as Hrdy.
  exists c0. split.
  - intros i w Hi. by rewrite (started_conn _ _ _ _ _ _ _ _ Hs Hi).
  - apply Forall_lookup. intros i w Hi. rewrite (started_conn _ _ _ _ _ _ _ _ Hs Hi).
    eapply worker_ok_same; [apply (ctor_ok (Z.of_nat i) timeout)|done..].
  - split; [intros p Hp0; simplify_eq; rewrite Hh; by eexists|rewrite Hp; simpl; lia|apply Hrdy|].
    rewrite (ready_workers _ Hrdy), Hn. lia.
  - done.
  - done.
  - by rewrite Hq.
  - intros j w Hj. destruct (started_waiting _ _ _ _ _ _ _ _ Hs Hj) as (Hwt & _ & Hm).
    unfold carries. unfold waiting in *. by rewrite Hwt.
Qed.

Lemma env_run_safe p0 c0 y y' : rtc env_step y y' -> safe_inv p0 c0 y -> safe_inv p0 c0 y'.
Proof.
  induction 1 as [|y1 y2 y3 [a y2' Ha Hr] _ IH]; intros Hy; [done|]. apply IH.
  pose proof (act_safe Generate junk malloc_ok EAGAIN malloc_grants rng_total rng_fills p0 c0 y1 a Hy Ha) as Hsafe.
  by rewrite Hr in Hsafe.
Qed.

(** C1: no interleaving of the threads of both servers reads a freed
    certificate, a deleted connection or stream, an empty queue or past a
    buffer, divides by zero or names a worker that is not there, as long as each
    step is one that the surroundings allow ([action_env]): the next step of any
    thread ends in a state in which every signaling worker satisfies its
    invariant, or ends the program, or does not end, or flows off the end of a
    function without [return] ([_process_request] for a command that is no push,
    and, with a compiler that does not return there, [_process_rtc_msg] and
    [set_rtcp_mux]).  The surroundings allow a step when: the certificate has
    not expired ([certificate_dangles] is what happens otherwise); for a callback
    of a signaling worker, what [worker_memory_safe] asks for: the header of a
    packet announces a body of less than 2^28 bytes ([huge_body_overflows]), a
    read returns no more than was asked for, the answer that is about to be sent
    is no longer than [MAX_RES_BUF] and goes to a connection on which 36 bytes
    arrived, descriptors are positive and below 2^30, a timer is that of a
    connection in the table, and new objects get addresses that are not in use;
    a new stream gets an address that is not in use.  Memory is granted for
    every request below 4 GiB and random numbers are available. *)
Theorem system_safe timeout c n e gs y0 y a :
  started timeout c n e gs y0 -> rtc env_step y0 y -> action_env y a ->
  match act a y with
  | Ret (_, y') => Forall worker_ok (conn_workers y') /\ rs_ok (rtc_server y')
  | Abort | OutOfFuel => True
  | Ub u => u = MissingReturn
  end.
Proof.
  intros Hs Hrun Ha. destruct (started_safe _ _ _ _ _ _ Hs) as [c0 Hy0].
  pose proof (env_run_safe _ _ _ _ Hrun Hy0) as Hy.
  pose proof (act_safe Generate junk malloc_ok EAGAIN malloc_grants rng_total rng_fills _ c0 y a Hy Ha) as Hsafe.
  destruct (act a y) as [[u y']| | |]; [|done..]. split; apply Hsafe.
Qed.

(** ** A request served *)

(** The bytes [bs] complete a push request on connection [p] of worker [w],
    after [xs]; [m] is the message it makes. *)
Record arrives (w : Worker (Cert := positive) (Q := Q1)) (f : Z) (p : positive) (cn : TcpConnection)
    (xs bs : list byte) (m : Msg) : Prop := {
  ar_conn : conn_at w f p cn xs;
  ar_fd : 0 < f;
  ar_replies : reply_msgs cn = [];
  ar_read : bs <> [] /\ Z.of_nat (length bs) <= (frame_of xs).2;
  ar_digestible : digestible (xs ++ bs);
  ar_complete : complete xs = false /\ complete (xs ++ bs) = true;
  ar_request : judge_stream (_worker_id w) p f (xs ++ bs) = Accept m;
}.

(** A judged request is a push that names its connection. *)
Lemma judge_accept (wid : Z) (p : positive) (f : Z) (header body : list byte) (m : Msg) :
  judge wid p f header body = Accept m ->
  asked_by wid m /\ conn m = Some p /\ msg_fd m = f /\ err_no m = 0.
Proof.
  unfold judge. destruct (json_parse body) as [root| |]; [|done..].
  destruct (member root "cmdno" asInt) as [cmd|]; [|done].
  destruct (Z.eqb_spec cmd CMDNO_PUSH); [|done].
  repeat (case_match; [|done]). by intros [= <-].
Qed.

Lemma stage_read y i w f p cn xs bs m :
  conn_workers y !! i = Some w -> worker_ok w -> arrives w f p cn xs bs m ->
  exists w1 c1, worker_ok w1 /\ conn_at w1 f p c1 (xs ++ bs) /\ reply_msgs c1 = [] /\
    notify_pipe w1 = notify_pipe w /\ _q_rtc_msg w1 = _q_rtc_msg w /\
    effects w1 = effects w ++ [ERtc m] /\
    conn_event junk malloc_ok EAGAIN i (EvIo 3 f READ (ReadBytes bs) [] 0) true y =
      Ret (tt, MkSystem (<[i := w1]> (conn_workers y))
                 (rs_set_pipe (rs_pipe (rtc_server y) ++ [RTC_MSG])
                   (rs_set_q (rs_q_msg (rtc_server y) ++ [m]) (rtc_server y)))).
Proof.
  intros Hi Hw [Hat Hf Hrep [Hbs Hle] Hd [Hcx Hcy] Hj].
  destruct (read_step junk malloc_ok EAGAIN malloc_grants 0 w f p cn xs bs m Hat Hbs Hle Hd (fun _ => Hj))
    as (w1 & c1 & Hrd & Hat1 & Hid & (Hr1 & Hp1 & Hq1) & Heff).
  rewrite Hcy, Hcx in Heff. cbn [andb negb] in Heff.
  assert (Hrun : run_event junk malloc_ok EAGAIN (EvIo 3 f READ (ReadBytes bs) [] 0) w = Ret (tt, w1)).
  { cbn [run_event]. unfold conn_io_cb. by rewrite (M_bind_eq _ _ _ _ _ Hrd). }
  exists w1, c1. split.
  { assert (Hev : event_ok w (EvIo 3 f READ (ReadBytes bs) [] 0)).
    { intros p' c' (Hc' & _ & Hs') Hfd'. destruct Hat as [_ Hslot Hheap Hq Hv Hfr].
      rewrite Hfd', Hslot in Hs'. injection Hs' as <-. assert (c' = cn) as -> by congruence.
      unfold read_fits. rewrite Hv. replace (bytes_expected cn) with (frame_of xs).2 by (by rewrite <- Hfr).
      split; [done|]. intros Hl. by apply Hd. }
    pose proof (event_safe junk malloc_ok EAGAIN malloc_grants w _ Hw Hev) as Hsafe. by rewrite Hrun in Hsafe. }
  split; [done|]. split; [congruence|]. do 3 (split; [done|]).
  unfold conn_event. rewrite M_bind_get. cbn [with_ret]. unfold mbind at 1, M_bind at 1, on_conn.
  rewrite Hi, Hrun, M_bind_get. cbn [conn_workers set_conn_workers].
  rewrite list_lookup_insert_eq by by eapply lookup_lt_Some.
  rewrite Heff, requests_app, drop_app_length. done.
Qed.

Lemma stage_server (s : RtcServer) e m n j rw :
  ready s -> cert_fresh s e -> rs_q_msg s = [m] -> rs_pipe s = [RTC_MSG] ->
  worker_num s = n -> j = route n (stream_name m) -> rs_workers s !! j = Some rw ->
  exists s' rw', rtc_server_recv_notify false e (fun _ => true) s = Ret (tt, s') /\
    _certificate s' = _certificate s /\ cert_heap s' = cert_heap s /\ worker_num s' = n /\
    rs_q_msg s' = [] /\ rs_pipe s' = [] /\
    rs_workers s' !! j = Some rw' /\ receives j j rw true (set_certificate (_certificate s) m) rw'.
Proof.
  intros Hr Hf Hq Hp Hn -> Hj. set (s1 := rs_set_pipe [] s).
  assert (Hr1 : ready s1) by by destruct Hr.
  destruct (process_msg_ok s1 false e true m [] Hr1 Hf Hq)
    as (s' & Hproc & _ & Hq' & Hp' & Hn' & Hc' & Hh' & Hws).
  change (worker_num s1) with (worker_num s) in *. rewrite Hn in *.
  destruct (Hws _ rw Hj) as (rw' & Hj' & Hrec). exists s', rw'. split_and!; try done; try congruence.
  unfold rtc_server_recv_notify. by rewrite M_bind_get, Hp.
Qed.

Lemma stage_rtc y i w j addr rw m cp c fp ice g' :
  rs_workers (rtc_server y) !! j = Some rw -> mgr_ok rw -> q_ok (rw_q_msg rw) ->
  waiting rw = [m] -> rw_pipe rw = [RTC_MSG] -> cmdno m = CMDNO_PUSH -> woeker m = Some (Z.of_nat i) ->
  conn_workers y !! i = Some w ->
  certificate m = Some cp -> cert_heap (rtc_server y) !! cp = Some c -> CreateFromCertificate c = Some fp ->
  create_random_ice_credentials Generate (rng rw) = Ret (ice, g') ->
  returns_off_end = true ->
  exists hex s', GetRfc4572Fingerprint fp = Ret hex /\
    rtc_event Generate j addr true y =
      Ret (tt, MkSystem (<[i := set_pipe (notify_pipe w ++ [SignalingWorker.RTC_MSG])
                  (set_q_rtc_msg (_q_rtc_msg w ++ [set_sdp (push_offer m ice fp hex) m]) w)]> (conn_workers y)) s').
Proof.
  intros Hj Hm Hq Hv Hp Hcmd Hwk Hi Hcp Hc Hfp Hice Hret.
  destruct (recv_notify_push Generate (cert_heap (rtc_server y)) addr rw m [] [] cp c fp ice g')
    as (rw' & hex & Hr & Hh & _ & _ & _ & _ & Hsent); try done.
  rewrite Hcmd, Z.eqb_refl, Hwk in Hsent. eexists hex, _. split; [done|].
  unfold rtc_event. rewrite M_bind_get. unfold mbind at 1, M_bind at 1, on_rtc_server, on_worker.
  rewrite Hj, Hr, M_bind_get. cbn [rtc_server set_rtc_server rs_workers rs_set_workers].
  rewrite list_lookup_insert_eq by by eapply lookup_lt_Some. rewrite Hsent, drop_app_length.
  cbn [for_each]. unfold answer, on_conn. unfold mbind, M_bind. cbn [fst snd conn_workers set_rtc_server].
  by rewrite Nat2Z.id, Hi.
Qed.

Lemma stage_answer y i w f p c m env :
  conn_workers y !! i = Some w -> worker_ok w -> registered w p c -> fd c = f -> 0 < f ->
  notify_pipe w = [SignalingWorker.RTC_MSG] -> _q_rtc_msg w = [m] ->
  cmdno m = CMDNO_PUSH -> conn m = Some p -> msg_fd m = f -> reply_fits w m -> returns_off_end = true ->
  exists w' c' pkt, conn_event junk malloc_ok EAGAIN i (EvNotify env) true y =
      Ret (tt, set_conn_workers (<[i := w']> (conn_workers y)) y) /\
    response_bytes junk (take 36 (sds_val (querybuf c))) (writeString (response_fields m)) = Ret pkt /\
    reply_msgs c' = reply_msgs c ++ [pkt] /\ fd c' = f /\ registered w' p c' /\ worker_ok w' /\
    effects w' = effects w.
Proof.
  intros Hi Hw (Hc & Hf0 & Hslot) Hfd Hf Hp Hq Hcmd Hconn Hmf Hfits Hret.
  set (w1 := set_q_rtc_msg [] (set_pipe [] w)).
  assert (Hw1 : worker_ok w1) by by eapply worker_ok_same.
  destruct (response_queued junk malloc_ok malloc_grants w1 m p c)
    as (c' & pkt & Hresp & Hpkt & Hrep & _ & Hfd' & Hqb); try done; try congruence; try lia.
  pose proof (response_server_offer_safe junk malloc_ok malloc_grants w1 m Hw1 Hfits) as Hsafe.
  rewrite Hresp in Hsafe. cbn [safe] in Hsafe. set (w' := set_heap _ w1) in *.
  exists w', c', pkt. split.
  - unfold conn_event. rewrite M_bind_get. cbn [with_ret]. unfold mbind at 1, M_bind at 1, on_conn. rewrite Hi.
    assert (Hrun : run_event junk malloc_ok EAGAIN (EvNotify env) w = Ret (tt, w')).
    { cbn [run_event]. unfold signaling_warker_recv_notify. rewrite M_bind_get, Hp, M_bind_modify.
      unfold _process_notify. change (SignalingWorker.RTC_MSG =? _) with false at 1.
      change (SignalingWorker.RTC_MSG =? _) with false at 1. change (SignalingWorker.RTC_MSG =? _) with true.
      cbv iota. unfold _process_rtc_msg, pop_rtc_msg. unfold mbind at 1, M_bind at 1.
      rewrite M_bind_get. change (_q_rtc_msg (set_pipe [] w)) with (_q_rtc_msg w). rewrite Hq, M_bind_modify.
      unfold mret at 1, M_ret at 1. cbn beta iota. rewrite Hcmd, Z.eqb_refl. rewrite (M_bind_eq _ _ _ _ _ Hresp).
      unfold off_end. by rewrite Hret. }
    rewrite Hrun, M_bind_get. cbn [conn_workers set_conn_workers].
    rewrite list_lookup_insert_eq by by eapply lookup_lt_Some.
    change (effects w') with (effects w). by rewrite drop_all.
  - split_and!; try done; [congruence|]. split; [apply lookup_insert_eq|]. by rewrite Hfd'.
Qed.

Lemma stage_write y i w f p c pkt :
  conn_workers y !! i = Some w -> worker_ok w -> registered w p c -> fd c = f -> 0 < f ->
  reply_msgs c = [pkt] -> 0 < Z.of_nat (length pkt) < 2 ^ 31 ->
  exists y' w', conn_event junk malloc_ok EAGAIN i
      (EvIo 3 f WRITE (ReadBytes []) [Wrote (length pkt)] 0) true y = Ret (tt, y') /\
    conn_workers y' !! i = Some w' /\ sent f (effects w') = sent f (effects w) ++ pkt.
Proof.
  intros Hi Hw Hreg <- Hf Hrep Hlen.
  destruct (worker_registered w _ p Hw (proj2 (proj2 Hreg))) as (c2 & (Hc2 & _) & _ & Hok).
  assert (c2 = c) as -> by (destruct Hreg; congruence).
  destruct (write_conn_whole EAGAIN w p c [Wrote (length pkt)]) as (es & Hes & _ & Hwr & _);
    try done; try lia; rewrite ?Hrep.
  { repeat constructor. } { by apply Forall_singleton. }
  set (w' := set_heap _ _) in Hwr. assert (effects w' = effects w ++ es) as Heff by done.
  assert (Hrun : run_event junk malloc_ok EAGAIN
    (EvIo 3 (fd c) WRITE (ReadBytes []) [Wrote (length pkt)] 0) w = Ret (tt, w')) by done.
  assert (hands_on w w') as [_ (ms & Hms & _) _] by (eapply run_event_hands_on, Hrun; done).
  assert (Hlt : (i < length (conn_workers y))%nat) by by eapply lookup_lt_Some.
  destruct (ask_all_returns true ms (set_conn_workers (<[i := w']> (conn_workers y)) y)) as [y' Hy'].
  exists y', w'. split_and!.
  - unfold conn_event. rewrite M_bind_get. cbn [with_ret]. unfold mbind at 1, M_bind at 1, on_conn.
    rewrite Hi, Hrun, M_bind_get. cbn [conn_workers set_conn_workers].
    rewrite list_lookup_insert_eq, Hms, drop_app_length by done. exact Hy'.
  - apply ask_all in Hy' as (-> & _). cbn. by apply list_lookup_insert_eq.
  - rewrite Heff, sent_app, Hes, Hrep. simpl. by rewrite app_nil_r.
Qed.

(** Nothing is under way. *)
Record idle y (i j : nat) (w : Worker (Cert := positive) (Q := Q1)) (rw : RtcWorker.RtcWorker (G := G) (Q := Q2)) : Prop := {
  id_conn : conn_workers y !! i = Some w;
  id_answers : notify_pipe w = [] /\ _q_rtc_msg w = [];
  id_server : rs_pipe (rtc_server y) = [] /\ rs_q_msg (rtc_server y) = [];
  id_rtc : rs_workers (rtc_server y) !! j = Some rw;
  id_waiting : rw_pipe rw = [] /\ waiting rw = [];
}.

(** The answer to request [m] with the certificate at [cp] and its fingerprint. *)
Definition answered (m : Msg) (cp : positive) (ice : IceParameters) (fp : SSLFingerprint)
    (hex : list byte) : Msg :=
  set_sdp (push_offer m ice fp hex) (set_certificate (Some cp) m).

(** The callbacks that serve it: the signaling worker [i] reads, the RTC server
    passes the message on, the RTC worker [j] answers, the signaling worker
    takes the answer and writes it. *)
Definition serve (i j : nat) (f : Z) (bs : list byte) (e : cert_env) (addr : positive)
    (env : new_conn_env) (n : nat) : list action :=
  [AConn i (EvIo 3 f READ (ReadBytes bs) [] 0) true;
   AServer false e (fun _ => true);
   ARtc j addr true;
   AConn i (EvNotify env) true;
   AConn i (EvIo 3 f WRITE (ReadBytes []) [Wrote n] 0) true].

(** The way to the queue of the RTC worker. *)
Lemma served_half p0 c0 y i j w rw f p cn xs bs m e :
  safe_inv p0 c0 y -> idle y i j w rw -> arrives w f p cn xs bs m -> cert_fresh (rtc_server y) e ->
  j = route (worker_num (rtc_server y)) (stream_name m) ->
  exists y2 w1 c1 rw1,
    (_ ← act (AConn i (EvIo 3 f READ (ReadBytes bs) [] 0) true); act (AServer false e (fun _ => true))) y
      = Ret (tt, y2) /\
    cert_heap (rtc_server y2) !! p0 = Some c0 /\ conn_workers y2 !! i = Some w1 /\ worker_ok w1 /\
    conn_at w1 f p c1 (xs ++ bs) /\ reply_msgs c1 = [] /\ notify_pipe w1 = [] /\ _q_rtc_msg w1 = [] /\
    effects w1 = effects w ++ [ERtc m] /\
    rs_workers (rtc_server y2) !! j = Some rw1 /\ rw_pipe rw1 = [RTC_MSG] /\
    waiting rw1 = [set_certificate (Some p0) m] /\ rng rw1 = rng rw /\ mgr_ok rw1 /\ q_ok (rw_q_msg rw1).
Proof.
  intros Hy [Hi [Hnp Hqr] [Hsp Hsq] Hj [Hrp Hrw]] Har Hfresh ->.
  destruct (sv_cert _ _ _ Hy) as [Hc0 Hh0].
  assert (Hw : worker_ok w) by (exact (proj1 (Forall_lookup _ _) (sv_conn _ _ _ Hy) i w Hi)).
  destruct (stage_read y i w f p cn xs bs m Hi Hw Har)
    as (w1 & c1 & Hw1 & Hat1 & Hr1 & Hp1 & Hq1 & Heff & Hread).
  rewrite Hsp, Hsq in Hread. set (y1 := MkSystem _ _) in Hread.
  assert (Hr : ready (rtc_server y1)) by (by destruct (sv_ready _ _ _ Hy)).
  destruct (stage_server (rtc_server y1) e m _ _ rw Hr Hfresh eq_refl eq_refl eq_refl eq_refl Hj)
    as (s' & rw1 & Hrecv & Hc' & Hh' & Hn' & Hq' & Hp' & Hj' & Hok & Hv' & Hpp & Hs' & Hm' & Hrng).
  rewrite decide_True in Hv' by done. rewrite decide_True in Hpp by done. fold (waiting rw) in Hv'. rewrite Hrw in Hv'. rewrite Hrp in Hpp.
  exists (set_rtc_server s' y1), w1, c1, rw1.
  destruct (sv_workers _ _ _ Hy _ _ Hj) as (Hmg & _).
  split_and!; try done; try congruence.
  - cbn [System.act]. rewrite (M_bind_eq _ _ _ _ _ Hread). unfold on_rtc_server. by rewrite Hrecv.
  - cbn. by rewrite Hh'.
  - cbn. apply list_lookup_insert_eq. by eapply lookup_lt_Some.
  - unfold waiting. rewrite Hv'. by change (_certificate (rtc_server y1)) with (_certificate (rtc_server y)); rewrite Hc0.
Qed.

(** The way from the queue of the signaling worker to the client. *)
Lemma served_end y i w f p cn zs m env :
  conn_workers y !! i = Some w -> worker_ok w -> conn_at w f p cn zs -> 0 < f -> (36 <= length zs)%nat ->
  reply_msgs cn = [] -> notify_pipe w = [SignalingWorker.RTC_MSG] -> _q_rtc_msg w = [m] ->
  cmdno m = CMDNO_PUSH -> conn m = Some p -> msg_fd m = f ->
  Z.of_nat (length (writeString (response_fields m))) <= MAX_RES_BUF -> returns_off_end = true ->
  exists pkt y' w', response_bytes junk (take 36 zs) (writeString (response_fields m)) = Ret pkt /\
    (_ ← act (AConn i (EvNotify env) true);
     act (AConn i (EvIo 3 f WRITE (ReadBytes []) [Wrote (length pkt)] 0) true)) y = Ret (tt, y') /\
    conn_workers y' !! i = Some w' /\ sent f (effects w') = sent f (effects w) ++ pkt.
Proof.
  intros Hi Hw [[_ Hfd] Hslot Hheap _ Hv _] Hf Hlen Hr Hp Hq Hcmd Hconn Hmf Hbody Hret.
  assert (Hreg : registered w p cn) by (split; [done|]; split; [lia|]; by rewrite Hfd).
  assert (Hfits : reply_fits w m).
  { split; [done|]. intros p' c' Hp' (Hc' & _) _. assert (p' = p) as -> by congruence.
    assert (c' = cn) as -> by congruence. by rewrite Hv. }
  destruct (stage_answer y i w f p cn m env) as (w1 & cn1 & pkt & Hrun1 & Hpkt & Hr1 & Hfd1 & Hreg1 & Hw1 & Heff1);
    try done.
  rewrite Hv in Hpkt. rewrite Hr in Hr1.
  assert (Hpl : 0 < Z.of_nat (length pkt) < 2 ^ 31).
  { rewrite response_bytes_ok in Hpkt by (try done; rewrite length_take; lia). injection Hpkt as <-.
    unfold reply_header, MAX_RES_BUF in *. rewrite !length_app, length_take, length_take, length_le_to_bytes. lia. }
  set (y1 := set_conn_workers _ y) in Hrun1.
  destruct (stage_write y1 i w1 f p cn1 pkt) as (y2 & w2 & Hrun2 & Hi2 & Hsent); try done.
  { cbn. apply list_lookup_insert_eq. by eapply lookup_lt_Some. }
  exists pkt, y2, w2. split; [done|]. split; [by erewrite M_bind_eq by exact Hrun1|].
  split; [done|]. by rewrite Hsent, Heff1.
Qed.

(** C3: a push request is served: when the last bytes of one arrive at a
    system that has nothing else under way, five callbacks (of the signaling
    worker, the RTC server, the RTC worker and twice the signaling worker)
    return, and the client has been sent exactly one packet: the header of its
    request with the new length, and the JSON answer with the offer for the
    media it asked for.  This is under the following assumptions: the compiler
    returns at the end of [set_rtcp_mux] and [_process_rtc_msg], which have no
    [return] ([create_offer_text] and [system_safe] are about the other ones);
    the packet is [digestible] and accepted; the certificate has not expired;
    its fingerprint can be computed and random numbers for the ICE credentials
    are available; the answer is no longer than [MAX_RES_BUF] bytes
    ([response_addressed] is about longer ones); memory is granted; and the
    kernel takes the packet whole. *)
Theorem push_served p0 c0 timeout c n e0 gs y0 y i j w rw f p cn xs bs m e addr env fp ice g' :
  returns_off_end = true -> started timeout c n e0 gs y0 -> rtc env_step y0 y ->
  idle y i j w rw -> arrives w f p cn xs bs m -> cert_fresh (rtc_server y) e ->
  j = route (worker_num (rtc_server y)) (stream_name m) ->
  _certificate (rtc_server y) = Some p0 -> cert_heap (rtc_server y) !! p0 = Some c0 ->
  CreateFromCertificate c0 = Some fp ->
  create_random_ice_credentials Generate (rng rw) = Ret (ice, g') ->
  (forall hex, GetRfc4572Fingerprint fp = Ret hex ->
     Z.of_nat (length (writeString (response_fields (answered m p0 ice fp hex)))) <= MAX_RES_BUF) ->
  exists hex pkt y' w', GetRfc4572Fingerprint fp = Ret hex /\
    response_bytes junk (take 36 (xs ++ bs)) (writeString (response_fields (answered m p0 ice fp hex))) = Ret pkt /\
    for_each act (serve i j f bs e addr env (length pkt)) y = Ret (tt, y') /\
    conn_workers y' !! i = Some w' /\ sent f (effects w') = sent f (effects w) ++ pkt.
Proof.
  intros Hret Hs Hrun Hidle Har Hfresh Hj Hc0 Hh0 Hfp Hice Hfit.
  destruct (started_safe _ _ _ _ _ _ Hs) as [c1 Hy0]. pose proof (env_run_safe _ _ _ _ Hrun Hy0) as Hy.
  destruct (sv_cert _ _ _ Hy) as [Hc1 Hh1]. assert (e_cert_addr e0 = p0) as He by congruence. rewrite He in Hy.
  destruct (served_half _ _ y i j w rw f p cn xs bs m e Hy Hidle Har Hfresh Hj)
    as (y2 & w1 & cn1 & rw1 & Hrun2 & Hh2 & Hi2 & Hw1 & Hat1 & Hr1 & Hp1 & Hq1 & Heff & Hj2 & Hrp & Hrw & Hrng & Hmg & Hrq).
  pose proof Har as [_ Hf0 _ _ _ [_ Hcomplete] Hjudge]. apply judge_accept in Hjudge as ((Hwk & Hcmd & _) & Hconn & Hmf & _).
  pose proof (sv_ids _ _ _ Hy i w (id_conn _ _ _ _ _ Hidle)) as Hid. rewrite Hid in Hwk.
  destruct (stage_rtc y2 i w1 j addr rw1 (set_certificate (Some p0) m) p0 c1 fp ice g')
    as (hex & s3 & Hhex & Hrun3); try done; try congruence.
  exists hex. set (m' := set_sdp _ _) in Hrun3. assert (Hm' : m' = answered m p0 ice fp hex) by done.
  rewrite Hp1, Hq1 in Hrun3. set (w3 := set_pipe _ _) in Hrun3. set (y3 := MkSystem _ _) in Hrun3.
  assert (Hi3 : conn_workers y3 !! i = Some w3)
    by (cbn; apply list_lookup_insert_eq; by eapply lookup_lt_Some).
  assert (Hlen : (36 <= length (xs ++ bs))%nat).
  { unfold complete in Hcomplete. apply andb_prop in Hcomplete as [Hl _]. apply Z.leb_le in Hl. lia. }
  destruct (served_end y3 i w3 f p cn1 (xs ++ bs) m' env) as (pkt & y5 & w5 & Hpkt & Hrun4 & Hi5 & Hsent); try done.
  { by eapply worker_ok_same. } { by destruct Hat1. } { by apply Hfit. }
  exists pkt, y5, w5. split; [done|]. split; [done|]. split; [|split; [done|]].
  - unfold serve. cbn [for_each]. apply M_bind_ret in Hrun2 as ([] & y1 & Hd1 & Hd2).
    apply M_bind_ret in Hrun4 as ([] & y4 & Hd4 & Hd5).
    rewrite (M_bind_eq _ _ _ _ _ Hd1), (M_bind_eq _ _ _ _ _ Hd2). erewrite M_bind_eq by exact Hrun3.
    rewrite (M_bind_eq _ _ _ _ _ Hd4), (M_bind_eq _ _ _ _ _ Hd5). done.
  - rewrite Hsent. change (effects w3) with (effects w1). rewrite Heff, sent_app. simpl.
    by rewrite app_nil_r.
Qed.

End runs.

(** ** A system with one client *)

#[local] Existing Instance libev_sim.
#[local] Existing Instance libev_sim_laws.
#[local] Existing Instance json_sim.
#[local] Existing Instance lenient.
#[local] Existing Instance fd_fifo.
#[local] Instance msg_fifo : FifoQueue (RtcMsg positive) lfq := lfq_fifo null_msg.
#[local] Notation SimSystem := (System (G := Z) (Q1 := lfq (T := Z)) (Q2 := lfq (T := RtcMsg positive))).
#[local] Notation SimWorker := (SignalingWorker.Worker (Cert := positive) (Q := lfq (T := Z))).
#[local] Notation sim_do := (act test_rng zero_junk always_ok 11).

(** Two signaling workers and two RTC workers. *)
Definition sim_sys : SimSystem :=
  MkSystem (map (started_conn_worker 60000000) (seqZ 0 2)) RtcServer.sim_server.

Lemma sim_started : started 60000000 2 2 sim_env (fun _ => 7) sim_sys.
Proof. split; [done|done|by vm_compute]. Qed.

Definition sim_act (a : action) (y : SimSystem) : SimSystem :=
  match sim_do a y with Ret (_, y') => y' | _ => y end.
Definition returns (a : action) (y : SimSystem) : bool :=
  match sim_do a y with Ret _ => true | _ => false end.

Lemma sim_act_ret a y : returns a y = true -> sim_do a y = Ret (tt, sim_act a y).
Proof. unfold returns, sim_act. by destruct (sim_do a y) as [[[] y']| | |]. Qed.

Lemma sim_step (a : action) (y y' : SimSystem) :
  action_ok a -> y' = sim_act a y -> returns a y = true -> sys_step test_rng zero_junk always_ok 11 y y'.
Proof. intros Ha -> Hr. by eapply sys_act, sim_act_ret. Qed.

Lemma sim_env_step (a : action) (y y' : SimSystem) :
  action_env y a -> y' = sim_act a y -> returns a y = true -> env_step test_rng zero_junk always_ok 11 y y'.
Proof. intros Ha -> Hr. by eapply env_act, sim_act_ret. Qed.

(** A client connects to worker 0 and sends the first bytes of a packet. *)
Definition sim_head : list byte := take 20 (sim_packet XHEAD_MAGIC_NUM).
Definition sim_tail : list byte := drop 20 (sim_packet XHEAD_MAGIC_NUM).
Definition sim_y1 : SimSystem := sim_act (AConn 0 (EvNewConn true 7) true) sim_sys.
Definition sim_y2 : SimSystem := sim_act (AConn 0 (EvNotify sim_accept) true) sim_y1.
Definition sim_y3 : SimSystem := sim_act (AConn 0 (EvIo 3 7 READ (ReadBytes sim_head) [] 0) true) sim_y2.

Definition sim_worker_of (y : SimSystem) : SimWorker :=
  match conn_workers y with w :: _ => w | [] => started_conn_worker 60000000 0 end.
Definition sim_conn_of (y : SimSystem) : TcpConnection :=
  match conn_heap (sim_worker_of y) !! 1%positive with Some c => c | None => sim_conn end.

(** A worker with connection 1 on descriptor 7 only. *)
Lemma sim_alone (w : SimWorker) c c1 p :
  _conns w = replicate 7 None ++ Some 1%positive :: replicate 6 None ->
  conn_heap w !! 1%positive = Some c -> registered w p c1 -> c1 = c.
Proof.
  intros Hcs Hc (Hc1 & Hf & Hs). rewrite Hcs in Hs.
  assert (Hin : Some p ∈ replicate 7 None ++ Some 1%positive :: replicate 6 None)
    by (by eapply list_elem_of_lookup_2).
  simpl in Hin. repeat (apply elem_of_cons in Hin as [Hin|Hin]; simplify_eq; try done).
  by apply elem_of_nil in Hin.
Qed.

Lemma sim_connected : rtc (env_step test_rng zero_junk always_ok 11) sim_sys sim_y3.
Proof.
  eapply rtc_l; [apply (sim_env_step (AConn 0 (EvNewConn true 7) true) _ sim_y1)|].
  { split; [done|]. exists (started_conn_worker 60000000 0). done. }
  { done. } { by vm_compute. }
  eapply rtc_l; [apply (sim_env_step (AConn 0 (EvNotify sim_accept) true) _ sim_y2)|].
  { split; [done|]. exists (sim_worker_of sim_y1). split; [by vm_compute|]. split; [by vm_compute|].
    intros m Hm. by vm_compute in Hm. }
  { done. } { by vm_compute. }
  eapply rtc_l; [|apply rtc_refl].
  apply (sim_env_step (AConn 0 (EvIo 3 7 READ (ReadBytes sim_head) [] 0) true) _ sim_y3).
  { split; [done|]. exists (sim_worker_of sim_y2). split; [by vm_compute|].
    intros p c1 Hreg _. eapply (sim_alone _ (sim_conn_of sim_y2)) in Hreg as ->; [|by vm_compute..].
    split; [by vm_compute|]. intros _. by vm_compute. }
  { done. } { by vm_compute. }
Qed.

(** The rest of the packet; the RTC server passes the request on; the RTC
    worker answers it. *)
Definition sim_arrival : action := AConn 0 (EvIo 3 7 READ (ReadBytes sim_tail) [] 0) true.
Definition sim_y4 : SimSystem := sim_act sim_arrival sim_y3.
Definition sim_y5 : SimSystem := sim_act (AServer false sim_env (fun _ => true)) sim_y4.
Definition sim_y6 : SimSystem :=
  sim_act (ARtc (route 2 "ab") 1 true) sim_y5.

Lemma sim_system_answers : rtc (sys_step test_rng zero_junk always_ok 11) sim_sys sim_y6.
Proof.
  eapply rtc_l; [by apply (sim_step (AConn 0 (EvNewConn true 7) true) _ sim_y1); [..|vm_compute]|].
  eapply rtc_l; [by apply (sim_step (AConn 0 (EvNotify sim_accept) true) _ sim_y2); [..|vm_compute]|].
  eapply rtc_l.
  { by apply (sim_step (AConn 0 (EvIo 3 7 READ (ReadBytes sim_head) [] 0) true) _ sim_y3); [..|vm_compute]. }
  eapply rtc_l; [by apply (sim_step sim_arrival _ sim_y4); [..|vm_compute]|].
  eapply rtc_l.
  { by apply (sim_step (AServer false sim_env (fun _ => true)) _ sim_y5); [by eexists|..|vm_compute]. }
  eapply rtc_l; [|apply rtc_refl].
  by apply (sim_step (ARtc (route 2 "ab") 1 true) _ sim_y6); [..|vm_compute].
Qed.

Definition sim_asks : RtcMsg positive :=
  MkRtcMsg CMDNO_PUSH "ab" 1 1 9 None 77 (Some 0) (Some 1%positive) 7 "" 0.

Lemma answers_in_order_witness :
  let mine := filter (of_stream 0 "ab") in
  requests (effects (sim_worker_of sim_y6)) = [sim_asks] /\
  length (_q_rtc_msg (sim_worker_of sim_y6)) = 1%nat /\
  exists given rw,
    rs_workers (rtc_server sim_y6) !! route (worker_num (rtc_server sim_y6)) "ab" = Some rw /\
    mine (taken rw) = given ++ mine (_q_rtc_msg (sim_worker_of sim_y6)) /\
    filter (fun m => stream_name m = "ab"%string) (requests (effects (sim_worker_of sim_y6))) =
      map as_asked (given ++ mine (_q_rtc_msg (sim_worker_of sim_y6)) ++ mine (waiting rw) ++
        mine (rs_q_msg (rtc_server sim_y6))).
Proof.
  intros mine. split; [by vm_compute|]. split; [by vm_compute|].
  apply (answers_in_order test_rng zero_junk always_ok 11 60000000 2 2 sim_env (fun _ => 7)
           sim_sys sim_y6 0 (sim_worker_of sim_y6) "ab" sim_started sim_system_answers).
  by vm_compute.
Defined.

Lemma sim_arrival_env : action_env sim_y3 sim_arrival.
Proof.
  split; [done|]. exists (sim_worker_of sim_y3). split; [by vm_compute|].
  intros p c1 Hreg _. eapply (sim_alone _ (sim_conn_of sim_y3)) in Hreg as ->; [|by vm_compute..].
  split; [by vm_compute|]. intros _. by vm_compute.
Qed.

Lemma system_safe_witness :
  match sim_do sim_arrival sim_y3 with
  | Ret (_, y') => Forall worker_ok (conn_workers y') /\ rs_ok (rtc_server y')
  | Abort | OutOfFuel => True
  | Ub u => u = MissingReturn
  end.
Proof.
  destruct test_rng_ok as [Htotal Hfills].
  apply (system_safe test_rng zero_junk always_ok 11 always_grants Htotal (conj (Hfills _) (Hfills _))
           60000000 2 2 sim_env (fun _ => 7) sim_sys sim_y3 sim_arrival sim_started sim_connected sim_arrival_env).
Defined.

Definition sim_rtc_of (y : SimSystem) : RtcWorker.RtcWorker (G := Z) (Q := lfq (T := RtcMsg positive)) :=
  match rs_workers (rtc_server y) !! route 2 "ab" with Some rw => rw | None => new_RtcWorker 0 7 end.

Lemma sim_idle : idle sim_y3 0 (route 2 "ab") (sim_worker_of sim_y3) (sim_rtc_of sim_y3).
Proof. split; [by vm_compute|split; by vm_compute|split; by vm_compute|by vm_compute|split; by vm_compute]. Qed.

Lemma sim_arrives : arrives (sim_worker_of sim_y3) 7 1 (sim_conn_of sim_y3) sim_head sim_tail sim_asks.
Proof.
  split; [|done|by vm_compute|split; by vm_compute| |split; by vm_compute|by vm_compute].
  - split; [split; by vm_compute|by vm_compute..| | |by vm_compute]; [|by vm_compute].
    split; vm_compute; done.
  - intros _. by vm_compute.
Qed.

Lemma push_served_witness :
  exists hex pkt y' w', GetRfc4572Fingerprint sim_fp = Ret hex /\
    response_bytes zero_junk (take 36 (sim_head ++ sim_tail))
      (writeString (response_fields (answered sim_asks 1 sim_ice sim_fp hex))) = Ret pkt /\
    for_each sim_do (serve 0 (route 2 "ab") 7 sim_tail sim_env 1 sim_accept (length pkt)) sim_y3 = Ret (tt, y') /\
    conn_workers y' !! 0%nat = Some w' /\
    sent 7 (effects w') = sent 7 (effects (sim_worker_of sim_y3)) ++ pkt.
Proof.
  destruct test_rng_ok as [Htotal Hfills].
  apply (push_served (H := lenient) test_rng zero_junk always_ok 11 always_grants Htotal (conj (Hfills _) (Hfills _))
           1 sim_cert 60000000 2 2 sim_env (fun _ => 7) sim_sys sim_y3 0 (route 2 "ab")
           (sim_worker_of sim_y3) (sim_rtc_of sim_y3) 7 1 (sim_conn_of sim_y3) sim_head sim_tail sim_asks
           sim_env 1 sim_accept sim_fp sim_ice sim_seed eq_refl sim_started sim_connected sim_idle sim_arrives).
  - exists 1%positive, sim_cert. by vm_compute.
  - by vm_compute.
  - by vm_compute.
  - by vm_compute.
  - done.
  - replace (rng (sim_rtc_of sim_y3)) with 7 by by vm_compute. apply sim_ice_eq.
  - intros hex Hhex. vm_compute in Hhex. injection Hhex as <-. apply Z.leb_le. by vm_compute.
Defined.
