(* ===== verification/Conf.v ===== *)
(** * [base/conf.cpp] and [main.cpp]: configuration and start-up

    [load_general_conf] fills a [GeneralConf] field by field; [main] runs the
    initialisations in order.  yaml-cpp is a parameter. *)

From S2P Require Import Prelude.
#[local] Open Scope Z_scope.
#[local] Open Scope xrtc_scope.

(** What the code uses of yaml-cpp: [LoadFile] may throw ([None]), indexing
    gives a node, a conversion of a missing or ill-typed node throws. *)
Class Yaml := {
  Node : Type;
  LoadFile : string -> option Node;
  node_index : Node -> string -> Node;
  as_string : Node -> option string;
  as_bool : Node -> option bool;
  as_int : Node -> option Z;
}.

Section conf.
Context `{Yaml}.

Record GeneralConf := MkConf {
  log_dir : string;
  log_name : string;
  log_level : string;
  log_to_stderr : bool;
  ice_min_port : Z;
  ice_max_port : Z;
}.

Definition set_log_dir x c := MkConf x (log_name c) (log_level c) (log_to_stderr c) (ice_min_port c) (ice_max_port c).
Definition set_log_name x c := MkConf (log_dir c) x (log_level c) (log_to_stderr c) (ice_min_port c) (ice_max_port c).
Definition set_log_level x c := MkConf (log_dir c) (log_name c) x (log_to_stderr c) (ice_min_port c) (ice_max_port c).
Definition set_log_to_stderr x c := MkConf (log_dir c) (log_name c) (log_level c) x (ice_min_port c) (ice_max_port c).
Definition set_min_port x c := MkConf (log_dir c) (log_name c) (log_level c) (log_to_stderr c) x (ice_max_port c).
Definition set_max_port x c := MkConf (log_dir c) (log_name c) (log_level c) (log_to_stderr c) (ice_min_port c) x.

(** [conf->f = config[a][b].as<T>()]: [false] when it throws. *)
Definition assign {A} (config : Node) (a b : string) (as_ : Node -> option A)
    (set : A -> GeneralConf -> GeneralConf) : M GeneralConf bool :=
  match as_ (node_index (node_index config a) b) with
  | Some v => _ ← modify (set v); mret true
  | None => mret false
  end.

(** The next assignment of a [try] block, unless an exception was thrown. *)
Definition and_then {S} (m : M S bool) (k : M S bool) : M S bool :=
  ok ← m; if (ok : bool) then k else mret false.

Definition default_conf : GeneralConf := MkConf "./log" "undefined" "info" false 0 65535.

(** [LoadFile] is called outside the [try] block: its exception ends the
    program. The last two fields are the [ice] ports. *)
Definition load_general_conf (filename : option string) : M GeneralConf Z :=
  match filename with
  | None => mret (-1)
  | Some f =>
      _ ← put default_conf;
      match LoadFile f with
      | None => lift Abort
      | Some config =>
          ok ← and_then (assign config "log" "log_dir" as_string set_log_dir)
              (and_then (assign config "log" "log_name" as_string set_log_name)
              (and_then (assign config "log" "log_level" as_string set_log_level)
              (and_then (assign config "log" "log_to_stderr" as_bool set_log_to_stderr)
              (and_then (assign config "ice" "min_port" as_int set_min_port)
                        (assign config "ice" "max_port" as_int set_max_port)))));
          if (ok : bool) then mret 0 else mret (-1)
      end
  end.

(** ** [main.cpp] *)

(** What [main] does to the rest of the program, in order. *)
Inductive action :=
  | LoadConf | InitLog | StartLog | InitSignaling | InitRtc | InstallSignals
  | StartSignaling | StartRtc | JoinSignaling.

(** The results of the initialisations. *)
Record main_env := MainEnv {
  m_log_init : Z;
  m_signaling_init : Z;
  m_rtc_init : Z;
}.

Definition act (a : action) : M (list action) unit := modify (fun l => l ++ [a]).

Definition init_general_conf (r : Z) : M (list action) Z :=
  _ ← act LoadConf; if negb (r =? 0) then mret (-1) else mret 0.

Definition init_log (r : Z) : M (list action) Z :=
  _ ← act InitLog;
  if negb (r =? 0) then mret (-1) else _ ← act StartLog; mret 0.

Definition init_signaling_server (r : Z) : M (list action) Z :=
  _ ← act InitSignaling; if negb (r =? 0) then mret (-1) else mret 0.

Definition init_rtc_server (r : Z) : M (list action) Z :=
  _ ← act InitRtc; if negb (r =? 0) then mret (-1) else mret 0.

(** The handler of the two signals asks the signaling server to stop. *)
Definition SIGINT : Z := 2.
Definition SIGTERM : Z := 15.
Definition process_siganl (sig : Z) : bool := (sig =? SIGINT) || (sig =? SIGTERM).

(** [conf]: the result of loading "../conf/general.yaml". *)
Definition main (conf : res (Z * GeneralConf)) (e : main_env) : M (list action) Z :=
  match conf with
  | Ret (r, _) =>
      ret ← init_general_conf r;
      if negb (ret =? 0) then mret (-1)
      else
        ret ← init_log (m_log_init e);
        if negb (ret =? 0) then mret (-1)
        else
          ret ← init_signaling_server (m_signaling_init e);
          if negb (ret =? 0) then mret (-1)
          else
            ret ← init_rtc_server (m_rtc_init e);
            if negb (ret =? 0) then mret (-1)
            else
              _ ← act InstallSignals;
              _ ← act StartSignaling;
              _ ← act StartRtc;
              _ ← act JoinSignaling;
              mret 0
  | Abort => lift Abort
  | Ub u => ub_ u
  | OutOfFuel => lift OutOfFuel
  end.

(** ** Properties *)

(** The field of a readable configuration. *)
Definition field {A} (config : Node) (a b : string) (as_ : Node -> option A) : option A :=
  as_ (node_index (node_index config a) b).

(** [load_general_conf] returns 0 exactly when all six settings are there
    with the right types, and the configuration then holds them; otherwise it
    returns -1 with the settings before the first bad one stored and the
    defaults in the others; a file that cannot be parsed ends the program. *)
Theorem load_general_conf_result f c0 :
  (forall config, LoadFile f = Some config ->
     let d := field config "log" "log_dir" as_string in
     let n := field config "log" "log_name" as_string in
     let l := field config "log" "log_level" as_string in
     let t := field config "log" "log_to_stderr" as_bool in
     let lo := field config "ice" "min_port" as_int in
     let hi := field config "ice" "max_port" as_int in
     exists r c, load_general_conf (Some f) c0 = Ret (r, c) /\
       (r = 0 <-> is_Some d /\ is_Some n /\ is_Some l /\ is_Some t /\ is_Some lo /\ is_Some hi) /\
       (r = 0 \/ r = -1) /\
       log_dir c = default "./log"%string d /\
       log_name c = default "undefined"%string (_ ← d; n) /\
       log_level c = default "info"%string (_ ← d; _ ← n; l) /\
       log_to_stderr c = default false (_ ← d; _ ← n; _ ← l; t) /\
       ice_min_port c = default 0 (_ ← d; _ ← n; _ ← l; _ ← t; lo) /\
       ice_max_port c = default 65535 (_ ← d; _ ← n; _ ← l; _ ← t; _ ← lo; hi)) /\
  (LoadFile f = None -> load_general_conf (Some f) c0 = Abort) /\
  load_general_conf None c0 = Ret (-1, c0).
Proof.
  split_and!; [|intros Hf; unfold load_general_conf; unfold mbind, M_bind; cbn; by rewrite Hf|done].
  intros config Hf. cbv zeta. unfold load_general_conf. unfold mbind at 1, M_bind at 1.
  cbn [put]. rewrite Hf. unfold and_then, assign. fold (@field).
  change (as_string (node_index (node_index config "log") "log_dir")) with (field config "log" "log_dir" as_string).
  change (as_string (node_index (node_index config "log") "log_name")) with (field config "log" "log_name" as_string).
  change (as_string (node_index (node_index config "log") "log_level")) with (field config "log" "log_level" as_string).
  change (as_bool (node_index (node_index config "log") "log_to_stderr")) with (field config "log" "log_to_stderr" as_bool).
  change (as_int (node_index (node_index config "ice") "min_port")) with (field config "ice" "min_port" as_int).
  change (as_int (node_index (node_index config "ice") "max_port")) with (field config "ice" "max_port" as_int).
  generalize (field config "log" "log_dir" as_string) as d, (field config "log" "log_name" as_string) as n,
    (field config "log" "log_level" as_string) as l, (field config "log" "log_to_stderr" as_bool) as t,
    (field config "ice" "min_port" as_int) as lo, (field config "ice" "max_port" as_int) as hi.
  intros [d|] [n|] [l|] [t|] [lo|] [hi|]; eexists _, _; (split; [reflexivity|]); cbn;
    unfold is_Some; split_and!; try done; try (by left); try (by right); naive_solver.
Qed.

(** [main] returns 0 exactly when the configuration, the log and both
    servers could be initialised; the accepting thread is started only after
    the RTC server exists and the signal handlers are installed, so that no
    request can reach a null server. A failed initialisation returns -1 and
    starts neither server. *)
Theorem main_order r c e :
  exists ret acts, main (Ret (r, c)) e [] = Ret (ret, acts) /\
    (ret = 0 <-> r = 0 /\ m_log_init e = 0 /\ m_signaling_init e = 0 /\ m_rtc_init e = 0) /\
    (ret = 0 -> acts = [LoadConf; InitLog; StartLog; InitSignaling; InitRtc; InstallSignals;
                        StartSignaling; StartRtc; JoinSignaling]) /\
    (ret <> 0 -> ret = -1 /\ StartSignaling ∉ acts /\ StartRtc ∉ acts).
Proof.
  destruct e as [lg sg rt]. cbn.
  unfold main, init_general_conf, init_log, init_signaling_server, init_rtc_server.
  unfold mbind, M_bind, act, modify, mret, M_ret. cbn.
  destruct (Z.eqb_spec r 0), (Z.eqb_spec lg 0), (Z.eqb_spec sg 0), (Z.eqb_spec rt 0); cbn;
    eexists _, _; (split; [reflexivity|]); (split; [split; [done || lia|intros; done || lia]|]);
    (split; [done || lia|]); intros; split_and!; try done; set_solver.
Qed.

End conf.
