(* ===== verification/Log.v ===== *)
(** * [base/log.cpp]: the log sink and its writer thread

    Any thread may log; one writer thread moves the two queues to the two files.
    The writer's loop is cut at its critical sections and writes, and [step]
    interleaves it with the callers. *)

From S2P Require Import Prelude StringEncode Logging.
#[local] Open Scope Z_scope.
#[local] Open Scope xrtc_scope.

Definition get_log_severity (level : string) : Z :=
  if decide (level = "verbose") then LS_VERBOSE
  else if decide (level = "info") then LS_INFO
  else if decide (level = "warning") then LS_WARNING
  else if decide (level = "error") then LS_ERROR
  else if decide (level = "none") then LS_NONE
  else LS_NONE.

(** Where the writer thread is: at the test of the [while], before draining the
    first queue, before writing it, and the same for the second queue. *)
Inductive pc := AtTest | BeforeDrain | BeforeWrite | BeforeDrainWf | BeforeWriteWf | Finished.

Record XrtcLog := MkLog {
  _out_file : string;        (* the text written to the log file so far *)
  _out_file_wf : string;
  file_open : bool;
  file_wf_open : bool;
  _log_queue : list string;
  _log_queue_wf : list string;
  ss : string;
  write_log : bool;          (* [write_log] and [write_log_wf] *)
  _running : bool;
  _thread : option pc;       (* the writer, [None] for a null pointer *)
}.

Fixpoint concat_all (l : list string) : string :=
  match l with [] => "" | x :: l => x +:+ concat_all l end.

(** ** The code *)

(** [OnLogMessage(message, severity)]. *)
Definition OnLogMessage (message : string) (severity : Z) (l : XrtcLog) : XrtcLog :=
  if LS_WARNING <=? severity then
    MkLog (_out_file l) (_out_file_wf l) (file_open l) (file_wf_open l) (_log_queue l)
      (_log_queue_wf l ++ [message]) (ss l) (write_log l) (_running l) (_thread l)
  else
    MkLog (_out_file l) (_out_file_wf l) (file_open l) (file_wf_open l) (_log_queue l ++ [message])
      (_log_queue_wf l) (ss l) (write_log l) (_running l) (_thread l).

(** [init]: the log registers itself ([me]) as a sink of [rtc::LogMessage], then
    opens its files; [mkdir_ok] also stands for a directory that exists. *)
Definition log_init (me : positive) (level : string) (mkdir_ok open_ok open_wf_ok : bool) (l : XrtcLog)
    : M LogState (Z * XrtcLog) :=
  _ ← ConfigureLogging "thread tstamp";
  _ ← SetLogPathPrefix "/src";
  _ ← AddLogToStream me (get_log_severity level);
  if negb mkdir_ok then mret (-1, l)
  else
    let l := MkLog (_out_file l) (_out_file_wf l) open_ok (file_wf_open l) (_log_queue l)
               (_log_queue_wf l) (ss l) (write_log l) (_running l) (_thread l) in
    if negb open_ok then mret (-1, l)
    else
      let l := MkLog (_out_file l) (_out_file_wf l) (file_open l) open_wf_ok (_log_queue l)
                 (_log_queue_wf l) (ss l) (write_log l) (_running l) (_thread l) in
      if negb open_wf_ok then mret (-1, l) else mret (0, l).

Definition log_start (l : XrtcLog) : bool * XrtcLog :=
  if _running l then (false, l)
  else (true, MkLog (_out_file l) (_out_file_wf l) (file_open l) (file_wf_open l) (_log_queue l)
                (_log_queue_wf l) (ss l) (write_log l) true (Some AtTest)).

(** One step of the writer. [stat_ok], [reopen_ok] and their [wf] versions: the
    file is still there, or opening it again succeeded. *)
Definition writer (stat_ok reopen_ok stat_wf_ok reopen_wf_ok : bool) (l : XrtcLog) : XrtcLog :=
  match _thread l with
  | Some AtTest =>
      if _running l then
        MkLog (_out_file l) (_out_file_wf l) (if stat_ok then file_open l else reopen_ok)
          (if stat_wf_ok then file_wf_open l else reopen_wf_ok) (_log_queue l) (_log_queue_wf l)
          (ss l) (write_log l) (_running l) (Some BeforeDrain)
      else MkLog (_out_file l) (_out_file_wf l) (file_open l) (file_wf_open l) (_log_queue l)
             (_log_queue_wf l) (ss l) (write_log l) (_running l) (Some Finished)
  | Some BeforeDrain =>
      MkLog (_out_file l) (_out_file_wf l) (file_open l) (file_wf_open l) [] (_log_queue_wf l)
        (ss l +:+ concat_all (_log_queue l)) (negb (bool_decide (_log_queue l = []))) (_running l)
        (Some BeforeWrite)
  | Some BeforeWrite =>
      MkLog (if write_log l && file_open l then _out_file l +:+ ss l else _out_file l) (_out_file_wf l)
        (file_open l) (file_wf_open l) (_log_queue l) (_log_queue_wf l) "" false (_running l)
        (Some BeforeDrainWf)
  | Some BeforeDrainWf =>
      MkLog (_out_file l) (_out_file_wf l) (file_open l) (file_wf_open l) (_log_queue l) []
        (ss l +:+ concat_all (_log_queue_wf l)) (negb (bool_decide (_log_queue_wf l = []))) (_running l)
        (Some BeforeWriteWf)
  | Some BeforeWriteWf =>
      MkLog (_out_file l)
        (if write_log l && file_wf_open l then _out_file_wf l +:+ ss l else _out_file_wf l)
        (file_open l) (file_wf_open l) (_log_queue l) (_log_queue_wf l) "" false (_running l)
        (Some AtTest)
  | Some Finished | None => l
  end.

(** [stop] before it waits, and what it does once the writer has finished. *)
Definition stop_begin (l : XrtcLog) : XrtcLog :=
  MkLog (_out_file l) (_out_file_wf l) (file_open l) (file_wf_open l) (_log_queue l)
    (_log_queue_wf l) (ss l) (write_log l) false (_thread l).
Definition stop_end (l : XrtcLog) : XrtcLog :=
  MkLog (_out_file l) (_out_file_wf l) (file_open l) (file_wf_open l) (_log_queue l)
    (_log_queue_wf l) (ss l) (write_log l) (_running l) None.

(** ** Interleavings *)

(** A step, and the message that was logged in it. [ok]: every file that has to
    be opened again could be. *)
Inductive step : XrtcLog -> option (string * Z) -> XrtcLog -> Prop :=
  | step_log m sev l : step l (Some (m, sev)) (OnLogMessage m sev l)
  | step_writer st st_wf l : step l None (writer st true st_wf true l)
  | step_stop_begin l : step l None (stop_begin l)
  | step_stop_end l : _thread l = Some Finished -> step l None (stop_end l).

Inductive run : XrtcLog -> list (string * Z) -> XrtcLog -> Prop :=
  | run_nil l : run l [] l
  | run_step l o l1 ms l2 : step l o l1 -> run l1 ms l2 -> run l (option_list o ++ ms) l2.

(** The messages below and from WARNING on. *)
Definition low (ms : list (string * Z)) : list string := map fst (filter (fun m => m.2 < LS_WARNING) ms).
Definition high (ms : list (string * Z)) : list string := map fst (filter (fun m => LS_WARNING <= m.2) ms).

(** The text on its way from the queue to the file. *)
Definition in_flight (l : XrtcLog) : string :=
  match _thread l with Some BeforeWrite => ss l | _ => "" end.
Definition in_flight_wf (l : XrtcLog) : string :=
  match _thread l with Some BeforeWriteWf => ss l | _ => "" end.

(** Everything accepted for a file, written or not. *)
Definition accepted (l : XrtcLog) : string := _out_file l +:+ in_flight l +:+ concat_all (_log_queue l).
Definition accepted_wf (l : XrtcLog) : string :=
  _out_file_wf l +:+ in_flight_wf l +:+ concat_all (_log_queue_wf l).

Record log_ok (l : XrtcLog) : Prop := {
  ok_open : file_open l = true /\ file_wf_open l = true;
  ok_ss : match _thread l with
          | Some BeforeWrite | Some BeforeWriteWf =>
              write_log l = true \/ ss l = ""
          | Some AtTest | Some BeforeDrain | Some BeforeDrainWf => ss l = ""
          | _ => True
          end;
}.

Lemma concat_all_app a b : concat_all (a ++ b) = concat_all a +:+ concat_all b.
Proof. induction a as [|x a IH]; [done|]. cbn [app concat_all]. by rewrite IH, string_app_assoc. Qed.

Lemma writer_ok st st_wf l :
  log_ok l -> log_ok (writer st true st_wf true l) /\
    accepted (writer st true st_wf true l) = accepted l /\
    accepted_wf (writer st true st_wf true l) = accepted_wf l.
Proof.
  intros [[Ho Hw] Hss]. unfold writer, accepted, accepted_wf, in_flight, in_flight_wf.
  destruct (_thread l) as [[]|] eqn:Ht.
  - destruct (_running l); cbn; rewrite ?Ho, ?Hw; (split; [|done]).
    + constructor; cbn; [by destruct st, st_wf|done].
    + by constructor.
  - cbn. rewrite Hss. change ("" +:+ ?x) with x. (split; [|by rewrite !string_app_nil_r]).
    constructor; cbn; [done|].
    destruct (_log_queue l); [by right|by left].
  - cbn. rewrite Ho. (split; [by constructor|]). split; [|done].
    rewrite andb_true_r. change ("" +:+ ?x) with x.
    destruct Hss as [-> | ->]; [by rewrite string_app_assoc|]. rewrite string_app_nil_r.
    by case_match.
  - cbn. rewrite Hss. change ("" +:+ ?x) with x. (split; [|by rewrite !string_app_nil_r]).
    constructor; cbn; [done|].
    destruct (_log_queue_wf l); [by right|by left].
  - cbn. rewrite Hw. (split; [by constructor|]). split; [done|].
    rewrite andb_true_r. change ("" +:+ ?x) with x.
    destruct Hss as [-> | ->]; [by rewrite string_app_assoc|]. rewrite string_app_nil_r.
    by case_match.
  - split; [|by rewrite Ht]. constructor; [done|]. by rewrite Ht.
  - split; [|by rewrite Ht]. constructor; [done|]. by rewrite Ht.
Qed.

Lemma low_high_one m sev :
  low (option_list (Some (m, sev))) = (if decide (LS_WARNING <= sev) then [] else [m]) /\
  high (option_list (Some (m, sev))) = (if decide (LS_WARNING <= sev) then [m] else []).
Proof.
  change (option_list (Some (m, sev))) with [(m, sev)]. unfold low, high. rewrite !filter_cons, !filter_nil. cbn [snd].
  repeat case_decide; try lia; done.
Qed.

Lemma step_ok l o l' :
  log_ok l -> step l o l' -> log_ok l' /\
    accepted l' = accepted l +:+ concat_all (low (option_list o)) /\
    accepted_wf l' = accepted_wf l +:+ concat_all (high (option_list o)).
Proof.
  intros Hl Hs. pose proof Hl as [Hopen Hss]. destruct Hs as [m sev l|st st_wf l|l|l Ht]; try change (low (option_list None)) with (@nil string);
    try change (high (option_list None)) with (@nil string); cbn [concat_all].
  - destruct (low_high_one m sev) as [-> ->].
    unfold OnLogMessage, accepted, accepted_wf, in_flight, in_flight_wf.
    destruct (Z.leb_spec LS_WARNING sev) as [Hle|Hlt];
      rewrite ?decide_True, ?decide_False by lia; cbn [_thread _log_queue _log_queue_wf _out_file _out_file_wf ss];
      rewrite ?concat_all_app, ?string_app_nil_r, ?string_app_assoc; cbn [concat_all];
      rewrite ?string_app_nil_r; (split; [by constructor|done]).
  - rewrite !string_app_nil_r. by apply writer_ok.
  - rewrite !string_app_nil_r. by split_and!; [constructor|..].
  - rewrite !string_app_nil_r. unfold accepted, accepted_wf, in_flight, in_flight_wf. cbn. rewrite Ht.
    by split_and!; [constructor|..].
Qed.

(** The log when the program starts, and right after [init] and [start]. *)
Definition new_log : XrtcLog := MkLog "" "" false false [] [] "" false false None.
Definition started : XrtcLog :=
  MkLog "" "" true true [] [] "" false true (Some AtTest).

(** ** Properties *)

(** While the files can be written, no message is lost, duplicated or reordered,
    whichever threads log how fast: the text of the log file, followed by what
    the writer holds and by what is still queued, is exactly the messages below
    WARNING in the order they were logged, and the same for the second file and
    the messages from WARNING on. *)
Lemma log_faithful ms l :
  run started ms l ->
  _out_file l +:+ in_flight l +:+ concat_all (_log_queue l) = concat_all (low ms) /\
  _out_file_wf l +:+ in_flight_wf l +:+ concat_all (_log_queue_wf l) = concat_all (high ms).
Proof.
  intros Hrun. assert (Hgen : forall l0, log_ok l0 -> run l0 ms l ->
    accepted l = accepted l0 +:+ concat_all (low ms) /\
    accepted_wf l = accepted_wf l0 +:+ concat_all (high ms)).
  { clear Hrun. intros l0 Hl0 Hrun. induction Hrun as [l0|l0 o l1 ms l2 Hs Hrun IH].
    - by rewrite !string_app_nil_r.
    - destruct (step_ok l0 o l1 Hl0 Hs) as (Hl1 & Ha & Hw). destruct (IH Hl1) as [Ha2 Hw2].
      rewrite Ha2, Hw2, Ha, Hw, !string_app_assoc, <- !concat_all_app. unfold low, high.
      by rewrite !filter_app, !map_app. }
  destruct (Hgen started) as [Ha Hw]; [by constructor|done|]. done.
Qed.

(** [stop] does not drain the queues: a message logged just before it can
    stay in the queue when the writer has finished and the thread object is
    gone, without ever reaching the file. *)
Theorem log_stop_loses m :
  exists l, run started [(m, LS_INFO)] l /\ _thread l = None /\ _running l = false /\
    _log_queue l = [m] /\ _out_file l = "".
Proof.
  set (l1 := OnLogMessage m LS_INFO started). set (l2 := stop_begin l1).
  set (l3 := writer true true true true l2). exists (stop_end l3).
  split; [|done].
  apply (run_step _ (Some (m, LS_INFO)) l1 []); [constructor|].
  apply (run_step _ None l2 []); [constructor|]. apply (run_step _ None l3 []); [apply step_writer|].
  apply (run_step _ None (stop_end l3) []); [by constructor|constructor].
Qed.

(** ** From the log statements to the files *)

(** Log statements, one after the other. *)
Fixpoint log_all (cs : list (option bool * LogCall)) : M LogState unit :=
  match cs with
  | [] => mret tt
  | (pref, c) :: cs => _ ← RTC_LOG pref c; log_all cs
  end.

(** The text of a statement once [init] has run: severity, time since [start],
    thread, file name from "src/" on and line, and the arguments. *)
Definition xrtc_text (start : Z) (c : LogCall) : string :=
  text_of (set_format true true true "/src" (Some start) (log_static ∅)) c.

Definition valid_call (c : LogCall) : Prop := 0 <= c_line c < 2 ^ 29 /\ 0 <= c_sev c < 8.

(** The messages of level [lv] and above, with their texts. *)
Definition messages (start lv : Z) (cs : list (option bool * LogCall)) : list (string * Z) :=
  map (fun c => (xrtc_text start c, c_sev c)) (filter (fun c => lv <= c_sev c) (map snd cs)).

(** The logging state [init] leaves: one sink, the format, everything enabled. *)
Record configured (me : positive) (lv : Z) (s : LogState) : Prop := {
  cf_inv : log_inv s [(me, lv)];
  cf_format : thread_ s = true /\ timestamp_ s = true /\ log_path_prefix_ s = "/src"%string;
  cf_debug : g_dbg_sev s = LS_VERBOSE;
}.

Lemma configured_text me lv s c : configured me lv s -> text_of s c = xrtc_text (start_of s c) c.
Proof.
  intros [_ (Ht & Hs & Hp) _]. unfold xrtc_text, text_of, stamp_of. rewrite Ht, Hs, Hp. done.
Qed.

Lemma log_all_ok me lv start cs s :
  configured me lv s -> Forall (fun x => valid_call x.2) cs ->
  (g_start s = Some start \/ (g_start s = None /\ forall x, head cs = Some x -> c_start x.2 = start)) ->
  exists s', log_all cs s = Ret (tt, s') /\
    delivered s' = delivered s ++ map (fun m => (me, m.1, m.2)) (messages start lv cs).
Proof.
  revert s. induction cs as [|[pref c] cs IH]; intros s Hs Hcs Hst.
  { exists s. cbn. by rewrite app_nil_r. }
  apply Forall_cons in Hcs as [[Hl Hsv] Hcs]. cbn [log_all]. cbn [snd] in *.
  pose proof Hs as [Hi (Hth & Hts & Hpf) Hdb].
  destruct (rtc_log_ok s _ pref c Hi Hl Hsv) as (s1 & Hr & Hi1 & Hsame & Hd & Hg). step Hr.
  assert (Hstart : start_of s c = start).
  { unfold start_of. destruct Hst as [-> | [-> Hh]]; [done|]. by apply (Hh (pref, c)). }
  assert (Hnoop : IsNoop (c_sev c) s = false).
  { unfold IsNoop. rewrite Hdb. by rewrite (proj2 (Z.leb_le LS_VERBOSE (c_sev c))) by (unfold LS_VERBOSE; lia). }
  rewrite Hnoop in Hg. unfold after_start in Hg. rewrite Hts in Hg. cbn [g_start set_format] in Hg. rewrite Hstart in Hg.
  destruct Hsame as (_ & _ & _ & _ & Hdb1 & Hth1 & Hts1 & Hpf1).
  destruct (IH s1) as (s2 & Hr2 & Hd2); [|done|by left|].
  { split; [done| |]; rewrite ?Hth1, ?Hts1, ?Hpf1, ?Hdb1; done. }
  exists s2. split; [done|]. rewrite Hd2, Hd, (configured_text _ _ _ _ Hs), Hstart, <- app_assoc. f_equal.
  unfold messages, deliveries. cbn [map snd]. rewrite !filter_cons, filter_nil. cbn [snd].
  by destruct (decide (lv <= c_sev c)).
Qed.

Lemma log_init_ok h me level :
  is_Some (h !! me) ->
  exists l s, log_init me level true true true new_log (log_static h) = Ret ((0, l), s) /\
    configured me (get_log_severity level) s /\ g_start s = None /\ delivered s = [] /\ log_start l = (true, started).
Proof.
  intros Hme. unfold log_init, ConfigureLogging.
  replace (map bytes_string (tokenize (string_bytes "thread tstamp") x20)) with ["thread"; "tstamp"]%string by done.
  set (s1 := set_format true true true "" None (log_static h)).
  assert (Hi1 : log_inv s1 []) by by split; [|constructor|..].
  destruct (log_to_debug_ok s1 [] LS_VERBOSE Hi1) as (s2 & Hd2 & Hi2 & Hdb2 & Hde2 & Hk2 & Hth2 & Hts2 & _ & Hst2).
  assert (Hc : (s ← get; debug_level ← configure_loop ["thread"; "tstamp"]%string LS_VERBOSE (GetLogToDebug s); LogToDebug debug_level)
    (log_static h) = Ret (tt, s2)) by exact Hd2.
  step Hc. set (s3 := set_format (thread_ s2) (timestamp_ s2) (log_to_stderr_ s2) "/src" (g_start s2) s2).
  assert (Hp : SetLogPathPrefix "/src" s2 = Ret (tt, s3)) by done. step Hp.
  assert (Hi3 : log_inv s3 []) by by destruct Hi2.
  destruct (add_log_ok s3 [] me (get_log_severity level) Hi3) as (s4 & Ha & Hi4 & Hdb4 & Hde4 & Hth4 & Hts4 & Hpf4 & Hst4).
  { change (sinks s3) with (sinks s2). by rewrite Hk2. } { apply not_elem_of_nil. }
  step Ha. eexists _, s4. split; [reflexivity|]. split; [|split; [|split; [|done]]].
  - split; [done| |]; rewrite ?Hth4, ?Hts4, ?Hpf4, ?Hdb4; cbn; by rewrite ?Hth2, ?Hts2, ?Hdb2.
  - by rewrite Hst4.
  - by rewrite Hde4; cbn; rewrite Hde2.
Qed.

(** C28: once [XrtcLog::init] and [start] have run, every log statement whose
    severity reaches the configured level, and no other, is in the files: the
    log file has, in order and each once, the texts below WARNING, the second
    file the others, as soon as the writer has moved them there and the queues
    are empty; until then they are with the writer or in its queues. *)
Theorem logged_by_level h me level cs start :
  is_Some (h !! me) -> Forall (fun x => valid_call x.2) cs ->
  (forall x, head cs = Some x -> c_start x.2 = start) ->
  let ms := messages start (get_log_severity level) cs in
  exists l0 s0 s1, log_init me level true true true new_log (log_static h) = Ret ((0, l0), s0) /\
    log_start l0 = (true, started) /\ log_all cs s0 = Ret (tt, s1) /\
    delivered s1 = map (fun m => (me, m.1, m.2)) ms /\
    forall l, run started ms l ->
      _out_file l +:+ in_flight l +:+ concat_all (_log_queue l) = concat_all (low ms) /\
      _out_file_wf l +:+ in_flight_wf l +:+ concat_all (_log_queue_wf l) = concat_all (high ms).
Proof.
  intros Hme Hcs Hst ms. destruct (log_init_ok h me level Hme) as (l0 & s0 & Hinit & Hconf & Hg & Hd & Hstart).
  destruct (log_all_ok me (get_log_severity level) start cs s0 Hconf Hcs) as (s1 & Hall & Hdel); [by right|].
  exists l0, s0, s1. split; [done|]. split; [done|]. split; [done|]. split; [by rewrite Hdel, Hd|].
  intros l Hrun. by apply log_faithful.
Qed.

(** Three statements at level "info", then two rounds of the writer. *)
Lemma logged_by_level_witness :
  let call sev text := (@None bool, MkCall (Some "/r/src/a.cpp"%string) 9 sev 1500 200 7 [kStdString text]) in
  let cs := [call LS_INFO "hello"%string; call LS_VERBOSE "noise"%string; call LS_ERROR "late"%string] in
  let ms := [("INFO: [001:300][7] (src/a.cpp:9): hello" +:+ newline, LS_INFO);
             ("ERROR: [001:300][7] (src/a.cpp:9): late" +:+ newline, LS_ERROR)] in
  exists l0 s0 s1, log_init 5 "info" true true true new_log (log_static {[5%positive := MkSink None 0]}) = Ret ((0, l0), s0) /\
    log_start l0 = (true, started) /\ log_all cs s0 = Ret (tt, s1) /\
    delivered s1 = map (fun m => (5%positive, m.1, m.2)) ms /\
    forall l, run started ms l ->
      _out_file l +:+ in_flight l +:+ concat_all (_log_queue l) = concat_all (low ms) /\
      _out_file_wf l +:+ in_flight_wf l +:+ concat_all (_log_queue_wf l) = concat_all (high ms).
Proof.
  intros call cs ms. apply (logged_by_level {[5%positive := MkSink None 0]} 5 "info" cs 200).
  - by eexists.
  - by repeat constructor.
  - by intros x [= <-].
Defined.
