(* ===== verification/Slice.v ===== *)
(** * [rtc_base/slice.h]: references to bytes of someone else

    A [Slice] is a pointer into storage that it does not own, the pointer it was
    made from and a size; the replies queued on a connection are slices.
    Storage is a heap of byte blocks and a pointer a block and an offset. *)

From S2P Require Import Prelude Sds CLib.
#[local] Open Scope Z_scope.
#[local] Open Scope xrtc_scope.

Definition pointer : Type := loc * Z.
Record Slice := MkSlice { buffer_ : pointer; data_ : pointer; size_ : Z }.

Section slice.
(** Where the literal [""] is, and the storage, by address. *)
Context (lit : loc) (heap : gmap loc (list byte)).

(** The [n] bytes at [p]. *)
Definition bytes_at (p : pointer) (n : Z) : res (list byte) :=
  match heap !! p.1 with Some b => load b p.2 n | None => Ub UseAfterFree end.

Definition memcmp (p q : pointer) (n : Z) : res Z :=
  xs ← bytes_at p n; ys ← bytes_at q n; Ret (memcmp_list xs ys).

Definition Slice_empty : Slice := MkSlice (lit, 0) (lit, 0) 0.
Definition Slice_n (d : pointer) (n : Z) : Slice := MkSlice d d n.
(** From [s.data()] and [s.size()] of a [std::string]. *)
Definition Slice_string (s : loc) : res Slice :=
  match heap !! s with Some b => Ret (MkSlice (s, 0) (s, 0) (Z.of_nat (length b) - 1)) | None => Ub UseAfterFree end.
Definition Slice_cstr (s : pointer) : res Slice :=
  match heap !! s.1 with
  | Some b => if decide (0 <= s.2) then n ← strlen (drop (Z.to_nat s.2) b); Ret (MkSlice s s n) else Ub OutOfBounds
  | None => Ub UseAfterFree
  end.

Definition slice_empty (s : Slice) : bool := size_ s =? 0.
Definition slice_at (s : Slice) (n : Z) : res byte :=
  bs ← bytes_at ((data_ s).1, (data_ s).2 + n) 1; match bs with b :: _ => Ret b | [] => Ub OutOfBounds end.
Definition slice_clear : Slice := MkSlice (lit, 0) (lit, 0) 0.
Definition remove_prefix (s : Slice) (n : Z) : Slice :=
  MkSlice (buffer_ s) ((data_ s).1, (data_ s).2 + n) (u64 (size_ s - n)).
Definition slice_to_string (s : Slice) : res (list byte) := bytes_at (data_ s) (size_ s).

Definition slice_starts_with (s x : Slice) : res bool :=
  and_then (Ret (size_ x <=? size_ s)) (r ← memcmp (data_ s) (data_ x) (size_ x); Ret (r =? 0)).
Definition slice_eq (x y : Slice) : res bool :=
  and_then (Ret (size_ x =? size_ y)) (r ← memcmp (data_ x) (data_ y) (size_ x); Ret (r =? 0)).
Definition slice_neq (x y : Slice) : res bool := b ← slice_eq x y; Ret (negb b).

(** [min_len] is an [int]; [memcmp] takes it as a [size_t]. *)
Definition slice_compare (a b : Slice) : res Z :=
  let min_len := i32 (if size_ a <? size_ b then size_ a else size_ b) in
  r ← memcmp (data_ a) (data_ b) (u64 min_len);
  Ret (if r =? 0 then (if size_ a <? size_ b then -1 else if size_ b <? size_ a then 1 else r) else r).

(** ** What the functions compute *)

(** A slice refers to living bytes, [bs]. *)
Definition refers (s : Slice) (bs : list byte) : Prop :=
  size_ s = Z.of_nat (length bs) /\ size_ s < 2 ^ 64 /\
  exists b, heap !! (data_ s).1 = Some b /\ 0 <= (data_ s).2 /\
    (data_ s).2 + size_ s <= Z.of_nat (length b) /\ take (length bs) (drop (Z.to_nat (data_ s).2) b) = bs.

Lemma refers_bytes s bs n : refers s bs -> 0 <= n <= size_ s -> bytes_at (data_ s) n = Ret (take (Z.to_nat n) bs).
Proof.
  intros (Hs & _ & b & Hb & Hp & Hl & Hbs) Hn. unfold bytes_at. rewrite Hb, load_ok by lia. f_equal.
  rewrite <- Hbs, take_take. f_equal. lia.
Qed.

(** Byte strings in the order of the values of their bytes. *)
Fixpoint lex (xs ys : list byte) : comparison :=
  match xs, ys with
  | [], [] => Eq
  | [], _ :: _ => Lt
  | _ :: _, [] => Gt
  | x :: xs, y :: ys => match b2z x ?= b2z y with Eq => lex xs ys | c => c end
  end.
Definition sign_of (c : comparison) : Z := match c with Eq => 0 | Lt => -1 | Gt => 1 end.

Lemma lex_eq xs ys : lex xs ys = Eq <-> xs = ys.
Proof.
  revert ys. induction xs as [|x xs IH]; intros [|y ys]; cbn; try done.
  destruct (Z.compare_spec (b2z x) (b2z y)) as [Heq|Hlt|Hgt].
  - apply (inj b2z) in Heq as ->. rewrite IH. split; [by intros ->|by intros [=]].
  - split; [done|]. intros [= -> ->]. lia.
  - split; [done|]. intros [= -> ->]. lia.
Qed.

Lemma memcmp_lex xs ys :
  let n := Nat.min (length xs) (length ys) in
  let r := memcmp_list (take n xs) (take n ys) in
  (if r =? 0 then Z.sgn (Z.of_nat (length xs) - Z.of_nat (length ys)) else r) = sign_of (lex xs ys).
Proof.
  revert ys. induction xs as [|x xs IH]; intros [|y ys]; cbn zeta; [done..|].
  specialize (IH ys). cbn zeta in IH. cbn [length Nat.min take memcmp_list lex].
  destruct (Z.compare_spec (b2z x) (b2z y)) as [Heq|Hlt|Hgt].
  - rewrite (proj2 (Z.eqb_eq _ _) Heq), <- IH. cbv iota. destruct (memcmp_list _ _ =? 0); [|done]. f_equal. lia.
  - rewrite (proj2 (Z.eqb_neq (b2z x) (b2z y))) by lia. by rewrite Z.sgn_neg by lia.
  - rewrite (proj2 (Z.eqb_neq (b2z x) (b2z y))) by lia. by rewrite Z.sgn_pos by lia.
Qed.

(** Comparing slices of less than 2 GiB: [slice_compare] gives the sign of the order
    of their bytes, [==] is its equality, and [slice_starts_with] tests for a prefix. *)
Theorem slice_order a b xs ys : refers a xs -> refers b ys -> size_ a < 2 ^ 31 -> size_ b < 2 ^ 31 ->
  slice_compare a b = Ret (sign_of (lex xs ys)) /\
  slice_eq a b = Ret (bool_decide (xs = ys)) /\
  slice_starts_with a b = Ret (bool_decide (ys `prefix_of` xs)).
Proof.
  intros Ha Hb Hsa Hsb. pose proof Ha as (La & _). pose proof Hb as (Lb & _). split_and!.
  - unfold slice_compare, memcmp. set (m := if size_ a <? size_ b then size_ a else size_ b).
    assert (m = Z.of_nat (Nat.min (length xs) (length ys))) as Hm by (unfold m; destruct (Z.ltb_spec (size_ a) (size_ b)); lia).
    rewrite i32_small, u64_small by lia. rewrite (refers_bytes a xs), (refers_bytes b ys) by (done || lia).
    cbn [mbind res_bind]. pose proof (memcmp_lex xs ys) as Hl. cbn zeta in Hl. rewrite Hm, Nat2Z.id, <- Hl. f_equal.
    destruct (_ =? 0) eqn:Hr; [|done]. apply Z.eqb_eq in Hr. rewrite Hr.
    destruct (Z.ltb_spec (size_ a) (size_ b)); [by rewrite Z.sgn_neg by lia|].
    destruct (Z.ltb_spec (size_ b) (size_ a)); [by rewrite Z.sgn_pos by lia|]. by replace (_ - _) with 0 by lia.
  - unfold slice_eq, and_then, memcmp. cbn [mbind res_bind]. destruct (Z.eqb_spec (size_ a) (size_ b)) as [Hs|Hs].
    + rewrite (refers_bytes a xs), (refers_bytes b ys) by (done || lia). cbn [mbind res_bind]. f_equal.
      rewrite !take_ge by lia. apply eq_true_iff_eq. rewrite Z.eqb_eq, bool_decide_eq_true. apply memcmp_zero. lia.
    + rewrite bool_decide_false; [done|]. intros ->. lia.
  - unfold slice_starts_with, and_then, memcmp. cbn [mbind res_bind]. destruct (Z.leb_spec (size_ b) (size_ a)) as [Hs|Hs].
    + rewrite (refers_bytes a xs), (refers_bytes b ys) by (done || lia). cbn [mbind res_bind]. f_equal.
      rewrite (take_ge ys) by lia. apply eq_true_iff_eq. rewrite Z.eqb_eq, bool_decide_eq_true, memcmp_zero by (rewrite length_take; lia).
      rewrite Lb, Nat2Z.id. split.
      * intros Ht. exists (drop (length ys) xs). by rewrite <- Ht at 1; rewrite take_drop.
      * intros [zs ->]. apply take_app_length.
    + rewrite bool_decide_false; [done|]. intros [zs ->]. rewrite length_app in La. lia.
Qed.

(** What remains after dropping a prefix, and the text of a slice. *)
Lemma remove_prefix_refers s bs n : refers s bs -> 0 <= n <= size_ s ->
  refers (remove_prefix s n) (drop (Z.to_nat n) bs) /\ slice_to_string s = Ret bs.
Proof.
  intros Hs Hn. pose proof Hs as (Hl & Hsz & b & Hb & Hp & Hle & Hbs). split.
  - split_and!; [cbn; rewrite u64_small, length_drop; lia|cbn; rewrite u64_small; lia|]. exists b. cbn.
    split_and!; [done|lia|rewrite u64_small; lia|]. rewrite length_drop.
    rewrite <- Hbs at 2. rewrite skipn_firstn_comm, drop_drop. f_equal. f_equal. lia.
  - unfold slice_to_string. rewrite (refers_bytes s bs) by (done || lia). by rewrite take_ge by lia.
Qed.

(** Two slices of 2 GiB or more cannot be compared: the length becomes negative
    as an [int] and the number of bytes to slice_compare 2^64 minus something. *)
Theorem compare_huge a b xs ys : refers a xs -> refers b ys ->
  2 ^ 31 <= size_ a < 2 ^ 32 -> 2 ^ 31 <= size_ b < 2 ^ 32 ->
  (forall p bs, heap !! p = Some bs -> Z.of_nat (length bs) < 2 ^ 63) ->
  slice_compare a b = Ub OutOfBounds.
Proof.
  intros (_ & _ & b' & Hb & _) _ Ha Hb' Hheap. unfold slice_compare. set (m := if size_ a <? size_ b then size_ a else size_ b).
  assert (2 ^ 31 <= m < 2 ^ 32) as Hm by (unfold m; destruct (_ <? _); lia).
  assert (i32 m = m - 2 ^ 32) as ->.
  { unfold wrapS. rewrite <- (Z.mod_unique_pos _ (2 ^ 32) 1 (m + 2 ^ 31 - 2 ^ 32)); lia. }
  assert (u64 (m - 2 ^ 32) = m - 2 ^ 32 + 2 ^ 64) as ->.
  { unfold wrapU. symmetry. apply (Z.mod_unique_pos _ _ (-1)); lia. }
  unfold memcmp, bytes_at. rewrite Hb. unfold load. rewrite decide_False; [done|]. specialize (Hheap _ _ Hb). lia.
Qed.
End slice.

Lemma slice_order_witness :
  let heap := {[ 1%positive := [x61; x62; x00]; 2%positive := [x61; xff; x61] ]} : gmap loc (list byte) in
  slice_compare heap (Slice_n (1%positive, 0) 2) (Slice_n (2%positive, 0) 3) = Ret (-1) /\
  slice_starts_with heap (Slice_n (2%positive, 0) 3) (Slice_n (2%positive, 2) 1) = Ret true.
Proof.
  intros heap.
  assert (refers heap (Slice_n (1%positive, 0) 2) [x61; x62]) as H1.
  { split_and!; [done|done|]. exists [x61; x62; x00]. split_and!; [done|done|cbn; lia|done]. }
  assert (refers heap (Slice_n (2%positive, 0) 3) [x61; xff; x61]) as H2.
  { split_and!; [done|done|]. exists [x61; xff; x61]. split_and!; [done|done|cbn; lia|done]. }
  assert (refers heap (Slice_n (2%positive, 2) 1) [x61]) as H3.
  { split_and!; [done|done|]. exists [x61; xff; x61]. split_and!; [done|done|cbn; lia|done]. }
  split; [by apply (slice_order heap _ _ _ _ H1 H2)|].
  destruct (slice_order heap _ _ _ _ H2 H3) as (_ & _ & ->); [done|done|]. by f_equal.
Defined.
