(* ===== verification/StringUtils.v ===== *)
(** * [rtc_base/string_utils.cc] and [strings/string_builder.cc]

    Copying with truncation, trimming, hexadecimal notation, and
    [SimpleStringBuilder], which appends to a buffer of fixed size.  Where
    vsnprintf formats, the text it produces is the argument. *)

From stdpp Require Import pretty.
From S2P Require Import Prelude Sds CLib.
#[local] Open Scope Z_scope.
#[local] Open Scope xrtc_scope.

Definition SIZE_UNKNOWN : Z := u64 (-1).

(** The number of characters copied and the buffer after it. *)
Definition strcpyn (buffer : list byte) (buflen : Z) (source : list byte) (srclen : Z) : res (Z * list byte) :=
  if buflen <=? 0 then Ret (0, buffer)
  else
    srclen ← (if srclen =? SIZE_UNKNOWN then strlen source else Ret srclen);
    let srclen := if buflen <=? srclen then buflen - 1 else srclen in
    cs ← load source 0 srclen;
    buffer ← store buffer 0 cs;
    buffer ← store buffer srclen [x00];
    Ret (srclen, buffer).

Definition kWhitespace : list byte := map z2b [32; 10; 13; 9].
(** [s.find_first_not_of(set)] and [s.find_last_not_of(set)]. *)
Fixpoint find_first_not_of (s set : list byte) : option nat :=
  match s with
  | [] => None
  | c :: s => if decide (c ∈ set) then option_map S (find_first_not_of s set) else Some O
  end.
Fixpoint find_last_not_of (s set : list byte) : option nat :=
  match s with
  | [] => None
  | c :: s =>
      match find_last_not_of s set with
      | Some i => Some (S i)
      | None => if decide (c ∈ set) then None else Some O
      end
  end.

Definition string_trim (s : list byte) : list byte :=
  match find_first_not_of s kWhitespace, find_last_not_of s kWhitespace with
  | Some first, Some last => take (last - first + 1) (drop first s)
  | _, _ => []
  end.

(** The characters of [%x]: at most 8 digits. *)
Fixpoint hex_loop (fuel : nat) (v : Z) (acc : list byte) : list byte :=
  let acc := nth (Z.to_nat (v mod 16)) (string_bytes "0123456789abcdef") x00 :: acc in
  match fuel with
  | O => acc
  | S fuel => if v / 16 =? 0 then acc else hex_loop fuel (v / 16) acc
  end.
Definition ToHex (i : Z) : list byte := hex_loop 7 (u32 i) [].

(** ** [SimpleStringBuilder] *)

Record SimpleStringBuilder := MkBuilder { buffer_ : list byte; size_ : Z }.

Definition new_SimpleStringBuilder (buffer : list byte) : res SimpleStringBuilder :=
  b ← store buffer 0 [x00]; Ret (MkBuilder b 0).

Definition buffer_size (sb : SimpleStringBuilder) : Z := Z.of_nat (length (buffer_ sb)).

Definition Append (str : list byte) (length : Z) (sb : SimpleStringBuilder) : res SimpleStringBuilder :=
  let chars_added := Z.min length (u64 (buffer_size sb - size_ sb - 1)) in
  cs ← load str 0 chars_added;
  b ← store (buffer_ sb) (size_ sb) cs;
  let size := u64 (size_ sb + chars_added) in
  b ← store b size [x00];
  Ret (MkBuilder b size).

(** [std::vsnprintf(p, n, ...)] of the text [out]: what it writes. *)
Definition vsnprintf_bytes (n : Z) (out : list byte) : list byte :=
  if n <=? 0 then [] else take (Z.to_nat (n - 1)) out ++ [x00].

(** [None]: vsnprintf returned a negative number. *)
Definition AppendFormat (out : option (list byte)) (sb : SimpleStringBuilder) : res SimpleStringBuilder :=
  let room := u64 (buffer_size sb - size_ sb) in
  match out with
  | Some out =>
      b ← store (buffer_ sb) (size_ sb) (vsnprintf_bytes room out);
      let chars_added := Z.min (Z.of_nat (length out)) (u64 (buffer_size sb - 1 - size_ sb)) in
      Ret (MkBuilder b (u64 (size_ sb + chars_added)))
  | None => b ← store (buffer_ sb) (size_ sb) [x00]; Ret (MkBuilder b (size_ sb))
  end.

Definition put_cstr (str : list byte) (sb : SimpleStringBuilder) : res SimpleStringBuilder :=
  n ← strlen str; Append str n sb.
Definition put_char (ch : byte) (sb : SimpleStringBuilder) : res SimpleStringBuilder := Append [ch] 1 sb.
Definition put_string (str : list byte) (sb : SimpleStringBuilder) : res SimpleStringBuilder :=
  Append str (Z.of_nat (length str)) sb.
(** [operator<<] of the integer types. *)
Definition put_int (i : Z) (sb : SimpleStringBuilder) : res SimpleStringBuilder :=
  AppendFormat (Some (string_bytes (pretty i))) sb.

(** [std::string(sb.str())]: up to the terminator. *)
Definition str (sb : SimpleStringBuilder) : res (list byte) :=
  n ← strlen (buffer_ sb); load (buffer_ sb) 0 n.

(** ** Facts *)

(** The buffer holds [s] and a terminator. *)
Record sb_ok (sb : SimpleStringBuilder) (s : list byte) : Prop := {
  sb_len : size_ sb = Z.of_nat (length s);
  sb_room : size_ sb < buffer_size sb < 2 ^ 62;
  sb_text : take (S (length s)) (buffer_ sb) = s ++ [x00];
}.

Lemma load_take b n : 0 <= n <= Z.of_nat (length b) -> load b 0 n = Ret (take (Z.to_nat n) b).
Proof. intros Hn. rewrite load_ok by lia. done. Qed.

Lemma new_builder_ok buffer : 0 < Z.of_nat (length buffer) < 2 ^ 62 ->
  exists sb, new_SimpleStringBuilder buffer = Ret sb /\ sb_ok sb [] /\ length (buffer_ sb) = length buffer.
Proof.
  intros Hl. unfold new_SimpleStringBuilder. rewrite store_ok by (cbn; lia). cbn.
  destruct buffer as [|c buffer]; [cbn in Hl; lia|]. eexists. split; [done|]. split; [|done].
  split; [done| |done]. unfold buffer_size. cbn [buffer_ size_]. rewrite length_splice by (cbn; lia). lia.
Qed.

(** Writing [cs] and a terminator after the text. *)
Lemma extend_text sb s cs b : sb_ok sb s -> (length s + length cs < length (buffer_ sb))%nat ->
  b = splice (buffer_ sb) (length s) (cs ++ [x00]) ->
  sb_ok (MkBuilder b (Z.of_nat (length (s ++ cs)))) (s ++ cs) /\ length b = length (buffer_ sb).
Proof.
  intros [Hl Hr Ht] Hfit ->.
  assert (length (splice (buffer_ sb) (length s) (cs ++ [x00])) = length (buffer_ sb)) as Hlen.
  { rewrite length_splice; rewrite ?length_app; cbn; lia. }
  split; [|done]. split; cbn; [done| |].
  - unfold buffer_size in *. cbn. rewrite Hlen, length_app. lia.
  - pose proof (take_splice_end (buffer_ sb) (length s) (cs ++ [x00])) as He.
    rewrite !length_app in *. cbn [length] in He. rewrite <- app_assoc.
    replace (S (length s + length cs)) with (length s + (length cs + 1))%nat by lia. rewrite He by lia. f_equal.
    apply (f_equal (take (length s))) in Ht. rewrite take_take, Nat.min_l in Ht by lia.
    rewrite Ht, take_app_length. done.
Qed.

Lemma append_text sb s cs n : sb_ok sb s -> n = Z.of_nat (length cs) ->
  exists sb', Append cs n sb = Ret sb' /\ sb_ok sb' (take (length (buffer_ sb) - 1) (s ++ cs)) /\
    length (buffer_ sb') = length (buffer_ sb).
Proof.
  intros Hok ->. pose proof Hok as [Hl Hr Ht]. unfold buffer_size in Hr. unfold Append, buffer_size.
  rewrite (u64_small (_ - 1)) by lia.
  set (k := (length (buffer_ sb) - 1 - length s)%nat).
  rewrite load_take by lia. cbn [mbind res_bind].
  replace (take (Z.to_nat (Z.min _ _)) cs) with (take k cs).
  2: { unfold k. destruct (Z.min_spec (Z.of_nat (length cs)) (Z.of_nat (length (buffer_ sb)) - size_ sb - 1)) as [[? ->]|[? ->]].
       - rewrite !take_ge by lia. done.
       - f_equal. lia. }
  replace (Z.min _ _) with (Z.of_nat (length (take k cs))) by (rewrite length_take; unfold k; lia).
  assert (length (take k cs) <= k)%nat as Hk by (rewrite length_take; lia).
  rewrite store_ok by lia. cbn [mbind res_bind]. rewrite u64_small by lia.
  rewrite store_ok by (rewrite ?length_splice; cbn; lia). cbn [mbind res_bind].
  destruct (extend_text sb s (take k cs) (splice (buffer_ sb) (length s) (take k cs ++ [x00])) Hok) as [Hok' Hlen]; [lia|done|].
  eexists. split; [reflexivity|]. rewrite take_app_ge by lia. fold k in Hok'.
  replace (length (buffer_ sb) - 1 - length s)%nat with k by done.
  rewrite (splice_snoc _ _ _ _ (length s + length (take k cs))) in Hok', Hlen by lia.
  rewrite length_app in Hok'. replace (size_ sb + Z.of_nat (length (take k cs))) with (Z.of_nat (length s + length (take k cs))) by lia.
  rewrite Hl, !Nat2Z.id. by split.
Qed.

Lemma format_text sb s cs : sb_ok sb s ->
  exists sb', AppendFormat (Some cs) sb = Ret sb' /\ sb_ok sb' (take (length (buffer_ sb) - 1) (s ++ cs)) /\
    length (buffer_ sb') = length (buffer_ sb).
Proof.
  intros Hok. pose proof Hok as [Hl Hr Ht]. unfold buffer_size in Hr. unfold AppendFormat, buffer_size, vsnprintf_bytes.
  rewrite (u64_small (Z.of_nat (length (buffer_ sb)) - size_ sb)), (u64_small (_ - 1 - _)) by lia.
  rewrite (proj2 (Z.leb_gt _ 0)) by lia.
  set (k := (length (buffer_ sb) - 1 - length s)%nat). replace (Z.to_nat _) with k by lia.
  assert (length (take k cs) <= k)%nat as Hk by (rewrite length_take; lia).
  rewrite store_ok by (rewrite ?length_app; cbn; lia). cbn [mbind res_bind].
  replace (Z.min _ _) with (Z.of_nat (length (take k cs))) by (rewrite length_take; unfold k; lia).
  rewrite u64_small by lia.
  destruct (extend_text sb s (take k cs) _ Hok ltac:(lia) eq_refl) as [Hok' Hlen].
  eexists. split; [reflexivity|]. rewrite take_app_ge by lia. fold k.
  rewrite length_app in Hok'. replace (size_ sb + Z.of_nat (length (take k cs))) with (Z.of_nat (length s + length (take k cs))) by lia.
  rewrite Hl, !Nat2Z.id. by split.
Qed.

Lemma str_text sb s : sb_ok sb s -> Forall (fun c => c <> x00) s -> str sb = Ret s.
Proof.
  intros [Hl Hr Ht] Hs. unfold buffer_size in Hr. unfold str.
  assert (buffer_ sb = s ++ x00 :: drop (S (length s)) (buffer_ sb)) as Hb.
  { rewrite <- (take_drop (S (length s)) (buffer_ sb)) at 1. by rewrite Ht, <- app_assoc. }
  rewrite Hb, strlen_app by done. cbn [mbind res_bind]. rewrite load_take by (rewrite length_app; lia).
  by rewrite Nat2Z.id, take_app_length.
Qed.

(** The texts appended one after the other, cut to what fits. *)
Fixpoint put_all (ts : list (list byte)) (sb : SimpleStringBuilder) : res SimpleStringBuilder :=
  match ts with [] => Ret sb | t :: ts => sb ← put_string t sb; put_all ts sb end.

Lemma builder_truncates ts : forall sb s, sb_ok sb s ->
  exists sb', put_all ts sb = Ret sb' /\ sb_ok sb' (take (length (buffer_ sb) - 1) (s ++ concat ts)).
Proof.
  induction ts as [|t ts IH]; intros sb s Hok; cbn [put_all concat].
  - exists sb. split; [done|]. rewrite app_nil_r, take_ge; [done|]. pose proof Hok as [Hl Hr _]. unfold buffer_size in Hr. lia.
  - destruct (append_text sb s t _ Hok eq_refl) as (sb1 & He & Hok1 & Hlen). unfold put_string. rewrite He. cbn [mbind res_bind].
    destruct (IH sb1 _ Hok1) as (sb2 & He2 & Hok2). exists sb2. split; [done|]. rewrite Hlen in Hok2.
    rewrite app_assoc. set (u := s ++ t) in *. set (n := (length (buffer_ sb) - 1)%nat) in *.
    destruct (decide (length u <= n)%nat) as [Hle|Hgt]; [by rewrite (take_ge u n) in Hok2 by lia|].
    rewrite take_app_le in Hok2 by (rewrite length_take; lia). rewrite take_app_le by lia.
    by rewrite take_take, Nat.min_id in Hok2.
Qed.

Example trim_text : string_trim (map z2b [32; 9; 97; 32; 98; 10]) = map z2b [97; 32; 98].
Proof. reflexivity. Qed.
Example trim_blank : string_trim (map z2b [32; 9]) = [].
Proof. reflexivity. Qed.
Example copy_truncates : strcpyn (repeat xff 4) 4 (string_bytes "abcdef" ++ [x00]) SIZE_UNKNOWN = Ret (3, string_bytes "abc" ++ [x00]).
Proof. reflexivity. Qed.
