(* ===== verification/IpAddress.v ===== *)
(** * [rtc_base/ip_address.h], [ip_address.cc]: addresses of either family

    [in_addr] and [in6_addr] are their 4 and 16 bytes, and the union [u_] is 16
    bytes whose first 4 are [ip4].  [inet_pton] and [inet_ntop] are those of the
    C library (the class [Inet]).  The constants are those of macOS. *)

From S2P Require Import Prelude Sds CLib ByteOrder StringUtils.
#[local] Open Scope Z_scope.
#[local] Open Scope xrtc_scope.

Definition AF_UNSPEC : Z := 0.
Definition AF_INET : Z := 2.
Definition AF_INET6 : Z := 30.
Definition INADDR_ANY : Z := 0.
Definition INADDR_LOOPBACK : Z := 2130706433.   (* 127.0.0.1 *)
Definition zeros (n : nat) : list byte := repeat x00 n.
Definition in6addr_any : list byte := zeros 16.
Definition in6addr_loopback : list byte := zeros 15 ++ [x01].

(** [inet_pton] of a C string: the address or [None] (it returned 0);
    [inet_ntop] into a buffer of [INET6_ADDRSTRLEN] bytes: the text or [None]. *)
Class Inet := {
  inet_pton4 : list byte -> option (list byte);
  inet_pton6 : list byte -> option (list byte);
  inet_ntop4 : list byte -> option (list byte);
  inet_ntop6 : list byte -> option (list byte);
}.

Record IPAddress := MkIP { family_ : Z; u_ : list byte }.

Definition IPV6_ADDRESS_FLAG_NONE : Z := 0.
Definition IPV6_ADDRESS_FLAG_TEMPORARY : Z := Z.shiftl 1 0.
Definition IPV6_ADDRESS_FLAG_DEPRECATED : Z := Z.shiftl 1 1.
Record InterfaceAddress := MkInterface { ip_part : IPAddress; ipv6_flags_ : Z }.

Definition IPAddress_nil : IPAddress := MkIP AF_UNSPEC (zeros 16).
Definition IPAddress_in (ip4 : list byte) : IPAddress := MkIP AF_INET (splice (zeros 16) 0 ip4).
Definition IPAddress_in6 (ip6 : list byte) : IPAddress := MkIP AF_INET6 ip6.
Definition IPAddress_host (ip_in_host_byte_order : Z) : IPAddress :=
  MkIP AF_INET (splice (zeros 16) 0 (le_to_bytes 4 (HostToNetwork32 ip_in_host_byte_order))).

Definition kV4MappedPrefix : list byte := zeros 10 ++ [xff; xff] ++ zeros 4.
Definition k6To4Prefix : list byte := [x20; x02] ++ zeros 14.
Definition kTeredoPrefix : list byte := [x20; x01; x00; x00] ++ zeros 12.
Definition kV4CompatibilityPrefix : list byte := zeros 16.
Definition k6BonePrefix : list byte := [x3f; xfe] ++ zeros 14.
Definition kPrivateNetworkPrefix : list byte := [xfd] ++ zeros 15.

Definition family (ip : IPAddress) : Z := family_ ip.
Definition ipv6_address (ip : IPAddress) : list byte := u_ ip.
Definition ipv4_address (ip : IPAddress) : list byte := take 4 (u_ ip).
(** [ip4.s_addr]. *)
Definition s_addr (ip4 : list byte) : Z := le_of_bytes ip4.
(** [s6_addr[i]]. *)
Definition s6_addr (ip6 : list byte) (i : nat) : Z := b2z (nth i ip6 x00).

Definition v4AddressAsHostOrderInteger (ip : IPAddress) : Z :=
  if family_ ip =? AF_INET then NetworkToHost32 (s_addr (ipv4_address ip)) else 0.

Definition overhead (ip : IPAddress) : Z :=
  if family_ ip =? AF_INET then 20 else if family_ ip =? AF_INET6 then 40 else 0.

Definition IPIsUnspec (ip : IPAddress) : bool := family ip =? AF_UNSPEC.
Definition IsNil (ip : IPAddress) : bool := IPIsUnspec ip.

Definition Size (ip : IPAddress) : Z :=
  if family_ ip =? AF_INET then 4 else if family_ ip =? AF_INET6 then 16 else 0.

Definition ip_eq (a b : IPAddress) : bool :=
  if negb (family_ a =? family_ b) then false
  else if family_ a =? AF_INET then memcmp_list (ipv4_address a) (ipv4_address b) =? 0
  else if family_ a =? AF_INET6 then memcmp_list (u_ a) (u_ b) =? 0
  else family_ a =? AF_UNSPEC.
Definition ip_neq (a b : IPAddress) : bool := negb (ip_eq a b).

Definition ip_lt (a b : IPAddress) : bool :=
  if negb (family_ a =? family_ b) then
    if family_ a =? AF_UNSPEC then true
    else if (family_ a =? AF_INET) && (family_ b =? AF_INET6) then true
    else false
  else if family_ a =? AF_INET then
    NetworkToHost32 (s_addr (ipv4_address a)) <? NetworkToHost32 (s_addr (ipv4_address b))
  else if family_ a =? AF_INET6 then memcmp_list (u_ a) (u_ b) <? 0
  else false.
Definition ip_gt (a b : IPAddress) : bool := ip_neq a b && negb (ip_lt a b).

(** [s.rfind(c)]. *)
Fixpoint rfind (s : list byte) (c : byte) : option nat :=
  match s with
  | [] => None
  | x :: s =>
      match rfind s c with
      | Some i => Some (S i)
      | None => if decide (x = c) then Some O else None
      end
  end.

(** [s.c_str()] as a C string. *)
Fixpoint cstr (s : list byte) : list byte :=
  match s with [] => [] | c :: s => if decide (c = x00) then [] else c :: cstr s end.

(** ** Classification *)

(** Whole-byte prefixes only; [length] is in bits. *)
Definition IPIsHelper (ip : IPAddress) (tomatch : list byte) (length : Z) : bool :=
  let n := Z.to_nat (Z.shiftr length 3) in
  memcmp_list (take n (ipv6_address ip)) (take n tomatch) =? 0.

Definition by_family {A} (ip : IPAddress) (v4 v6 other : A) : A :=
  if family ip =? AF_INET then v4 else if family ip =? AF_INET6 then v6 else other.

Definition IPIsPrivateNetworkV4 (ip : IPAddress) : bool :=
  let ip_in_host_order := v4AddressAsHostOrderInteger ip in
  (Z.shiftr ip_in_host_order 24 =? 10) ||
  (Z.shiftr ip_in_host_order 20 =? Z.lor (Z.shiftl 172 4) 1) ||
  (Z.shiftr ip_in_host_order 16 =? Z.lor (Z.shiftl 192 8) 168).
Definition IPIsPrivateNetworkV6 (ip : IPAddress) : bool := IPIsHelper ip kPrivateNetworkPrefix 8.
Definition IPIsPrivateNetwork (ip : IPAddress) : bool :=
  by_family ip (IPIsPrivateNetworkV4 ip) (IPIsPrivateNetworkV6 ip) false.

Definition IPIsSharedNetworkV4 (ip : IPAddress) : bool :=
  Z.shiftr (v4AddressAsHostOrderInteger ip) 22 =? Z.lor (Z.shiftl 100 2) 1.
Definition IPIsSharedNetwork (ip : IPAddress) : bool :=
  if family ip =? AF_INET then IPIsSharedNetworkV4 ip else false.

Definition ExtractMappedAddress (in6 : list byte) : list byte := take 4 (drop 12 in6).

Definition IPIsAny (ip : IPAddress) : bool :=
  by_family ip (ip_eq ip (IPAddress_host INADDR_ANY))
    (ip_eq ip (IPAddress_in6 in6addr_any) || ip_eq ip (IPAddress_in6 kV4MappedPrefix)) false.

Definition IPIsLoopbackV4 (ip : IPAddress) : bool := Z.shiftr (v4AddressAsHostOrderInteger ip) 24 =? 127.
Definition IPIsLoopbackV6 (ip : IPAddress) : bool := ip_eq ip (IPAddress_in6 in6addr_loopback).
Definition IPIsLoopback (ip : IPAddress) : bool := by_family ip (IPIsLoopbackV4 ip) (IPIsLoopbackV6 ip) false.

Definition IPIsLinkLocalV4 (ip : IPAddress) : bool :=
  Z.shiftr (v4AddressAsHostOrderInteger ip) 16 =? Z.lor (Z.shiftl 169 8) 254.
Definition IPIsLinkLocalV6 (ip : IPAddress) : bool :=
  let addr := ipv6_address ip in (s6_addr addr 0 =? 254) && (Z.land (s6_addr addr 1) 192 =? 128).
Definition IPIsLinkLocal (ip : IPAddress) : bool := by_family ip (IPIsLinkLocalV4 ip) (IPIsLinkLocalV6 ip) false.

Definition IPIsPrivate (ip : IPAddress) : bool :=
  IPIsLinkLocal ip || IPIsLoopback ip || IPIsPrivateNetwork ip || IPIsSharedNetwork ip.

Definition IPIs6Bone (ip : IPAddress) : bool := IPIsHelper ip k6BonePrefix 16.
Definition IPIs6To4 (ip : IPAddress) : bool := IPIsHelper ip k6To4Prefix 16.
Definition IPIsMacBased (ip : IPAddress) : bool :=
  let addr := ipv6_address ip in
  negb (Z.land (s6_addr addr 8) 2 =? 0) && (s6_addr addr 11 =? 255) && (s6_addr addr 12 =? 254).
Definition IPIsSiteLocal (ip : IPAddress) : bool :=
  let addr := ipv6_address ip in (s6_addr addr 0 =? 254) && (Z.land (s6_addr addr 1) 192 =? 192).
Definition IPIsULA (ip : IPAddress) : bool := Z.land (s6_addr (ipv6_address ip) 0) 254 =? 252.
Definition IPIsTeredo (ip : IPAddress) : bool := IPIsHelper ip kTeredoPrefix 32.
Definition IPIsV4Compatibility (ip : IPAddress) : bool := IPIsHelper ip kV4CompatibilityPrefix 96.
Definition IPIsV4Mapped (ip : IPAddress) : bool := IPIsHelper ip kV4MappedPrefix 96.

Definition IPAddressPrecedence (ip : IPAddress) : Z :=
  if family ip =? AF_INET then 30
  else if family ip =? AF_INET6 then
    if IPIsLoopback ip then 60
    else if IPIsULA ip then 50
    else if IPIsV4Mapped ip then 30
    else if IPIs6To4 ip then 20
    else if IPIsTeredo ip then 10
    else if IPIsV4Compatibility ip || IPIsSiteLocal ip || IPIs6Bone ip then 1
    else 40
  else 0.

Definition Normalized (ip : IPAddress) : IPAddress :=
  if negb (family_ ip =? AF_INET6) then ip
  else if negb (IPIsV4Mapped ip) then ip
  else IPAddress_in (ExtractMappedAddress (u_ ip)).
Definition AsIPv6Address (ip : IPAddress) : IPAddress :=
  if negb (family_ ip =? AF_INET) then ip
  else IPAddress_in6 (splice kV4MappedPrefix 12 (ipv4_address ip)).

Definition GetLoopbackIP (family : Z) : IPAddress :=
  if family =? AF_INET then IPAddress_host INADDR_LOOPBACK
  else if family =? AF_INET6 then IPAddress_in6 in6addr_loopback else IPAddress_nil.
Definition GetAnyIP (family : Z) : IPAddress :=
  if family =? AF_INET then IPAddress_host INADDR_ANY
  else if family =? AF_INET6 then IPAddress_in6 in6addr_any else IPAddress_nil.

(** ** Hashes and masks *)

(** [v6_as_ints[i]]. *)
Definition v6_as_int (v6addr : list byte) (i : nat) : Z := le_of_bytes (take 4 (drop (4 * i) v6addr)).
Definition set_v6_int (v6addr : list byte) (i : nat) (v : Z) : list byte := splice v6addr (4 * i) (le_to_bytes 4 v).

Definition HashIP (ip : IPAddress) : Z :=
  by_family ip (s_addr (ipv4_address ip))
    (let w := v6_as_int (ipv6_address ip) in Z.lxor (Z.lxor (Z.lxor (w 0%nat) (w 1%nat)) (w 2%nat)) (w 3%nat)) 0.

(** [for (int i = 0; i < 4; ++i)]: [n] rounds are left. *)
Fixpoint truncate_loop (n : nat) (i : Z) (position inner_mask : Z) (v6addr : list byte) : list byte :=
  match n with
  | O => v6addr
  | S n =>
      let v6addr :=
        if i =? position then
          let host_order_inner := NetworkToHost32 (v6_as_int v6addr (Z.to_nat i)) in
          set_v6_int v6addr (Z.to_nat i) (HostToNetwork32 (Z.land host_order_inner inner_mask))
        else if position <? i then set_v6_int v6addr (Z.to_nat i) 0
        else v6addr in
      truncate_loop n (i + 1) position inner_mask v6addr
  end.

Definition TruncateIP (ip : IPAddress) (length : Z) : IPAddress :=
  if length <? 0 then IPAddress_nil
  else if family ip =? AF_INET then
    if 31 <? length then ip
    else if length =? 0 then IPAddress_host INADDR_ANY
    else
      let mask := i32 (u32 (Z.shiftl 4294967295 (32 - length))) in
      let host_order_ip := NetworkToHost32 (s_addr (ipv4_address ip)) in
      IPAddress_in (le_to_bytes 4 (HostToNetwork32 (Z.land host_order_ip (u32 mask))))
  else if family ip =? AF_INET6 then
    if 127 <? length then ip
    else if length =? 0 then IPAddress_in6 in6addr_any
    else
      let position := Z.quot length 32 in
      let inner_length := 32 - (length - position * 32) in
      let inner_mask := u32 (Z.shiftl 4294967295 inner_length) in
      IPAddress_in6 (truncate_loop 4 0 position inner_mask (ipv6_address ip))
  else IPAddress_nil.

(** The first word from [i] that is not all ones; [n] rounds are left. *)
Fixpoint first_partial (n : nat) (i : Z) (v6addr : list byte) : Z :=
  match n with
  | O => i
  | S n => if negb (v6_as_int v6addr (Z.to_nat i) =? 4294967295) then i else first_partial n (i + 1) v6addr
  end.

(** The place of the lowest set bit, by bisection. *)
Definition trailing_zeroes (word_to_count : Z) : Z :=
  let zeroes := 32 in
  let word_to_count := Z.land word_to_count (u32 (u32 (Z.lnot word_to_count) + 1)) in
  let sub (mask n zeroes : Z) := if Z.land word_to_count mask =? 0 then zeroes else u32 (zeroes - n) in
  let zeroes := if word_to_count =? 0 then zeroes else u32 (zeroes - 1) in
  let zeroes := sub 65535 16 zeroes in
  let zeroes := sub 16711935 8 zeroes in
  let zeroes := sub 252645135 4 zeroes in
  let zeroes := sub 858993459 2 zeroes in
  sub 1431655765 1 zeroes.

Definition CountIPMaskBits (mask : IPAddress) : Z :=
  if (family mask =? AF_INET) || (family mask =? AF_INET6) then
    let '(word_to_count, bits) :=
      if family mask =? AF_INET then (NetworkToHost32 (s_addr (ipv4_address mask)), 0)
      else
        let v6addr := ipv6_address mask in
        let i := first_partial 4 0 v6addr in
        (if i <? 4 then NetworkToHost32 (v6_as_int v6addr (Z.to_nat i)) else 0, i * 32) in
    if word_to_count =? 0 then bits
    else bits + (32 - trailing_zeroes word_to_count)
  else 0.

(** ** Text *)

Section text.
Context `{!Inet}.

Definition ToString (ip : IPAddress) : list byte :=
  if negb (family_ ip =? AF_INET) && negb (family_ ip =? AF_INET6) then []
  else default [] (if family_ ip =? AF_INET6 then inet_ntop6 (u_ ip) else inet_ntop4 (ipv4_address ip)).

Definition ToSensitiveString (ip : IPAddress) : list byte :=
  by_family ip
    (let address := ToString ip in
     match rfind address x2e with None => [] | Some find_pos => take find_pos address ++ string_bytes ".x" end)
    (let addr := ipv6_address ip in
     let group i := ToHex (Z.shiftl (s6_addr addr i) 8 + s6_addr addr (S i)) in
     group 0%nat ++ string_bytes ":" ++ group 2%nat ++ string_bytes ":" ++ group 4%nat ++ string_bytes ":x:x:x:x:x")
    [].

(** [*out] before and after; [None] is a null pointer. *)
Definition IPFromString (str : list byte) (out : option IPAddress) : bool * option IPAddress :=
  match out with
  | None => (false, None)
  | Some _ =>
      match inet_pton4 (cstr str) with
      | None =>
          match inet_pton6 (cstr str) with
          | None => (false, Some IPAddress_nil)
          | Some addr6 => (true, Some (IPAddress_in6 addr6))
          end
      | Some addr => (true, Some (IPAddress_in addr))
      end
  end.

Definition interface_eq (a b : InterfaceAddress) : bool :=
  (ipv6_flags_ a =? ipv6_flags_ b) && ip_eq (ip_part a) (ip_part b).
Definition InterfaceAddress_ToString (a : InterfaceAddress) : list byte :=
  ToString (ip_part a) ++
  (if family (ip_part a) =? AF_INET6 then string_bytes "|flags:0x" ++ ToHex (ipv6_flags_ a) else []).
Definition IPFromString_flags (str : list byte) (flags : Z) (out : InterfaceAddress) : bool * InterfaceAddress :=
  match IPFromString str (Some IPAddress_nil) with
  | (true, Some ip) => (true, MkInterface ip flags)
  | _ => (false, out)
  end.
End text.

(** ** Addresses as numbers *)

(** What the constructors make: the bytes that the family does not use are
    zero. *)
Record ip_ok (ip : IPAddress) : Prop := {
  io_length : length (u_ ip) = 16%nat;
  io_family : family_ ip = AF_UNSPEC /\ u_ ip = zeros 16 \/
              family_ ip = AF_INET /\ drop 4 (u_ ip) = zeros 12 \/
              family_ ip = AF_INET6;
}.

(** The width, and the number whose first bit is the first bit of the address. *)
Definition ip_width (ip : IPAddress) : Z := 8 * Size ip.
Definition ip_val (ip : IPAddress) : Z := be_of_bytes (take (Z.to_nat (Size ip)) (u_ ip)).

Lemma nil_ok : ip_ok IPAddress_nil.
Proof. split; [done|by left]. Qed.
Lemma in_ok ip4 : length ip4 = 4%nat -> ip_ok (IPAddress_in ip4).
Proof. intros H. explode H. split; [done|by right; left]. Qed.
Lemma in6_ok ip6 : length ip6 = 16%nat -> ip_ok (IPAddress_in6 ip6).
Proof. intros H. split; [done|by right; right]. Qed.
Lemma host_eq n : IPAddress_host n = IPAddress_in (be_to_bytes 4 n).
Proof. unfold IPAddress_host, IPAddress_in, HostToNetwork32, htobe32. by rewrite bswap_bytes. Qed.
Lemma host_ok n : ip_ok (IPAddress_host n).
Proof. rewrite host_eq. apply in_ok, length_be_to_bytes. Qed.

(** An address as the constructor that made it. *)
Inductive ip_view : IPAddress -> Type :=
  | view_nil : ip_view IPAddress_nil
  | view_in ip4 : length ip4 = 4%nat -> ip_view (IPAddress_in ip4)
  | view_in6 ip6 : length ip6 = 16%nat -> ip_view (IPAddress_in6 ip6).

Lemma in_take u : length u = 16%nat -> drop 4 u = zeros 12 -> IPAddress_in (take 4 u) = MkIP AF_INET u.
Proof. intros H. explode H. cbn. by intros [= -> -> -> -> -> -> -> -> -> -> -> ->]. Qed.

Lemma ip_viewP ip : ip_ok ip -> ip_view ip.
Proof.
  destruct ip as [f u]. intros [Hl Hf]. cbn in *. destruct (decide (f = AF_INET)) as [->|H4].
  - rewrite <- in_take; [constructor; rewrite length_take; lia|done|naive_solver].
  - destruct (decide (f = AF_INET6)) as [->|H6]; [by constructor|].
    assert (f = AF_UNSPEC /\ u = zeros 16) as [-> ->] by naive_solver. constructor.
Qed.

Lemma address_in ip4 : length ip4 = 4%nat -> ipv4_address (IPAddress_in ip4) = ip4.
Proof. intros H. by explode H. Qed.

Lemma val_in ip4 : length ip4 = 4%nat -> ip_val (IPAddress_in ip4) = be_of_bytes ip4.
Proof. intros H. by explode H. Qed.
Lemma val_in6 ip6 : length ip6 = 16%nat -> ip_val (IPAddress_in6 ip6) = be_of_bytes ip6.
Proof. intros H. unfold ip_val. cbn. by rewrite take_ge by lia. Qed.

Lemma host_order ip4 : length ip4 = 4%nat -> NetworkToHost32 (s_addr ip4) = be_of_bytes ip4.
Proof. intros H. by apply bswap_of_bytes. Qed.
Lemma v4_host ip4 : length ip4 = 4%nat -> v4AddressAsHostOrderInteger (IPAddress_in ip4) = be_of_bytes ip4.
Proof. intros H. unfold v4AddressAsHostOrderInteger. cbn -[NetworkToHost32 ipv4_address]. by rewrite address_in, host_order. Qed.

Lemma be_of_bytes_inj xs ys : length xs = length ys -> be_of_bytes xs = be_of_bytes ys -> xs = ys.
Proof. intros Hl He. rewrite <- (be_to_of_bytes xs), Hl, He. apply be_to_of_bytes. Qed.

Lemma ip_val_range ip : ip_ok ip -> 0 <= ip_val ip < 2 ^ ip_width ip.
Proof.
  intros Hok. destruct (ip_viewP _ Hok) as [|ip4 H|ip6 H].
  - done.
  - rewrite val_in by done. pose proof (be_of_bytes_range ip4) as Hr. by rewrite H in Hr.
  - rewrite val_in6 by done. pose proof (be_of_bytes_range ip6) as Hr. by rewrite H in Hr.
Qed.

(** ** The order *)

Lemma memcmp_be xs ys : length xs = length ys -> memcmp_list xs ys = Z.sgn (be_of_bytes xs - be_of_bytes ys).
Proof.
  revert ys. induction xs as [|x xs IH]; intros [|y ys]; try done. intros [= Hl].
  rewrite !be_of_bytes_cons, <- Hl. cbn [memcmp_list].
  pose proof (be_of_bytes_range xs) as Hx. pose proof (be_of_bytes_range ys) as Hy. rewrite <- Hl in Hy.
  set (m := 256 ^ Z.of_nat (length xs)) in *. destruct (Z.eqb_spec (b2z x) (b2z y)) as [->|Hne].
  - rewrite IH by done. f_equal. lia.
  - destruct (Z.lt_trichotomy (b2z x) (b2z y)) as [Hlt|[?|Hgt]]; [|lia|].
    + rewrite !Z.sgn_neg; [done| |lia]. nia.
    + rewrite !Z.sgn_pos; [done| |lia]. nia.
Qed.

(** Nothing, then IPv4, then IPv6. *)
Definition ip_rank (ip : IPAddress) : Z :=
  if family_ ip =? AF_UNSPEC then 0 else if family_ ip =? AF_INET then 1 else 2.

Lemma ip_lt_iff a b : ip_ok a -> ip_ok b ->
  ip_lt a b = true <-> ip_rank a < ip_rank b \/ ip_rank a = ip_rank b /\ ip_val a < ip_val b.
Proof.
  intros Ha Hb. destruct (ip_viewP _ Ha) as [|x Hx|x Hx], (ip_viewP _ Hb) as [|y Hy|y Hy].
  all: unfold ip_lt; cbn [family_ IPAddress_nil IPAddress_in IPAddress_in6].
  all: try (cbn -[ip_val]; naive_solver lia).
  - change (ip_rank _) with 1. change (ip_rank (IPAddress_in y)) with 1.
    cbn [negb Z.eqb AF_INET Pos.eqb]. rewrite !address_in, !host_order, !val_in, Z.ltb_lt by done. lia.
  - change (ip_rank _) with 2. change (ip_rank (IPAddress_in6 y)) with 2.
    cbn [negb Z.eqb AF_INET AF_INET6 Pos.eqb]. cbn [u_ IPAddress_in6].
    rewrite memcmp_be, !val_in6, Z.ltb_lt by congruence. pose proof (Z.sgn_neg_iff (be_of_bytes x - be_of_bytes y)). pose proof (Z.sgn_null_iff (be_of_bytes x - be_of_bytes y)). pose proof (Z.sgn_pos_iff (be_of_bytes x - be_of_bytes y)). lia.
Qed.

Lemma ip_eq_iff a b : ip_ok a -> ip_ok b -> ip_eq a b = true <-> a = b.
Proof.
  intros Ha Hb. destruct (ip_viewP _ Ha) as [|x Hx|x Hx], (ip_viewP _ Hb) as [|y Hy|y Hy].
  all: unfold ip_eq; cbn [family_ IPAddress_nil IPAddress_in IPAddress_in6].
  all: try done.
  - cbn [negb Z.eqb AF_INET Pos.eqb]. rewrite !address_in, Z.eqb_eq, memcmp_zero by congruence.
    split; [by intros ->|]. intros [= He]. apply (f_equal (fun u => ipv4_address (MkIP AF_INET u))) in He.
    revert He. fold (IPAddress_in x) (IPAddress_in y). by rewrite !address_in.
  - cbn [negb Z.eqb AF_INET AF_INET6 Pos.eqb]. cbn [u_ IPAddress_in6].
    rewrite Z.eqb_eq, memcmp_zero by congruence. split; [by intros ->|by intros [= ->]].
Qed.

Lemma ip_key_inj a b : ip_ok a -> ip_ok b -> ip_rank a = ip_rank b -> ip_val a = ip_val b -> a = b.
Proof.
  intros Ha Hb. destruct (ip_viewP _ Ha) as [|x Hx|x Hx], (ip_viewP _ Hb) as [|y Hy|y Hy]; try done.
  - intros _. rewrite !val_in by done. intros He%be_of_bytes_inj; congruence.
  - intros _. rewrite !val_in6 by done. intros He%be_of_bytes_inj; congruence.
Qed.

(** ** Prefixes *)

(** The number without its last [k] bits. *)
Definition clear_low (k x : Z) : Z := x / 2 ^ k * 2 ^ k.

Lemma land_high w k x : 0 <= k <= w -> 0 <= x < 2 ^ w -> Z.land x (2 ^ w - 2 ^ k) = clear_low k x.
Proof.
  intros Hk Hx. unfold clear_low. rewrite <- Z.shiftr_div_pow2, <- Z.shiftl_mul_pow2 by lia.
  rewrite <- Z.ldiff_ones_r by lia.
  assert (2 ^ w - 2 ^ k = Z.ldiff (Z.ones w) (Z.ones k)) as ->.
  { rewrite Z.ldiff_ones_r, Z.shiftl_mul_pow2, Z.shiftr_div_pow2 by lia.
    rewrite Z.ones_equiv. replace w with ((w - k) + k) at 1 2 by lia. rewrite Z.pow_add_r by lia.
    replace (Z.pred (2 ^ (w - k) * 2 ^ k)) with ((2 ^ (w - k) - 1) * 2 ^ k + (2 ^ k - 1)) by lia.
    rewrite Z.div_add_l by (pose proof (Z.pow_pos_nonneg 2 k); lia).
    rewrite (Z.div_small (2 ^ k - 1)) by (pose proof (Z.pow_pos_nonneg 2 k); lia). lia. }
  apply Z.bits_inj'. intros i Hi. rewrite Z.land_spec, !Z.ldiff_spec.
  destruct (Z.ltb_spec i w) as [Hlt|Hge].
  - rewrite (Z.ones_spec_low w) by lia. done.
  - destruct (decide (x = 0)) as [->|]; [by rewrite Z.bits_0|].
    rewrite (Z.bits_above_log2 x i); [done|lia|]. apply Z.log2_lt_pow2; [lia|].
    pose proof (Z.pow_le_mono_r 2 w i). lia.
Qed.

Lemma clear_low_add k a b m : 0 <= k -> a = m * 2 ^ k -> clear_low k (a + b) = a + clear_low k b.
Proof.
  intros Hk ->. unfold clear_low. rewrite Z.add_comm, Z.div_add by (pose proof (Z.pow_pos_nonneg 2 k); lia). lia.
Qed.
Lemma clear_low_mul k r a b : 0 <= k -> 0 <= r -> 0 <= b < 2 ^ r ->
  clear_low (k + r) (a * 2 ^ r + b) = clear_low k a * 2 ^ r.
Proof.
  intros Hk Hr Hb. unfold clear_low. rewrite (Z.add_comm k r), Z.pow_add_r by lia.
  rewrite <- Z.div_div by (pose proof (Z.pow_pos_nonneg 2 r); pose proof (Z.pow_pos_nonneg 2 k); lia).
  rewrite Z.div_add_l, (Z.div_small b), Z.add_0_r by (pose proof (Z.pow_pos_nonneg 2 r); lia). ring.
Qed.
Lemma clear_low_0 x : clear_low 0 x = x.
Proof. unfold clear_low. change (2 ^ 0) with 1. rewrite Z.div_1_r. lia. Qed.
Lemma clear_low_small k x : 0 <= x < 2 ^ k -> clear_low k x = 0.
Proof. intros. unfold clear_low. by rewrite Z.div_small. Qed.

(** The word of a mask, as [TruncateIP] makes it. *)
Lemma mask_word k : 0 <= k <= 32 -> u32 (Z.shiftl 4294967295 k) = 2 ^ 32 - 2 ^ k.
Proof.
  intros Hk. rewrite Z.shiftl_mul_pow2 by lia. unfold wrapU.
  replace (4294967295 * 2 ^ k) with ((2 ^ 32 - 2 ^ k) + (2 ^ k - 1) * 2 ^ 32) by lia.
  rewrite Z_mod_plus_full. apply Z.mod_small.
  pose proof (Z.pow_pos_nonneg 2 k). pose proof (Z.pow_le_mono_r 2 k 32). lia.
Qed.

(** Masking a word that lies in memory. *)
Lemma mask_bytes w k : length w = 4%nat -> 0 <= k <= 32 ->
  le_to_bytes 4 (HostToNetwork32 (Z.land (NetworkToHost32 (le_of_bytes w)) (2 ^ 32 - 2 ^ k))) =
  be_to_bytes 4 (clear_low k (be_of_bytes w)).
Proof.
  intros Hw Hk. unfold HostToNetwork32, htobe32. rewrite bswap_bytes. f_equal.
  change (le_of_bytes w) with (s_addr w). rewrite (host_order w Hw). apply land_high; [done|]. pose proof (be_of_bytes_range w) as Hr. by rewrite Hw in Hr.
Qed.

Lemma clear_low_range k w x : 0 <= k -> 0 <= x < 2 ^ w -> 0 <= clear_low k x < 2 ^ w.
Proof.
  intros Hk Hx. unfold clear_low. pose proof (Z.pow_pos_nonneg 2 k). pose proof (Z.div_pos x (2 ^ k)).
  pose proof (Z.mul_div_le x (2 ^ k)). nia.
Qed.

Lemma truncate_v4 ip4 n : length ip4 = 4%nat -> 0 <= n ->
  exists ip4', TruncateIP (IPAddress_in ip4) n = IPAddress_in ip4' /\ length ip4' = 4%nat /\
    be_of_bytes ip4' = clear_low (32 - Z.min n 32) (be_of_bytes ip4).
Proof.
  intros Hl Hn. pose proof (be_of_bytes_range ip4) as Hr. rewrite Hl in Hr. change (256 ^ _) with (2 ^ 32) in Hr.
  unfold TruncateIP. rewrite (proj2 (Z.ltb_ge n 0)) by lia. change (family _ =? AF_INET) with true. cbv iota.
  destruct (Z.ltb_spec 31 n) as [Hbig|Hsmall].
  { exists ip4. split_and!; [done..|]. replace (32 - Z.min n 32) with 0 by lia. by rewrite clear_low_0. }
  destruct (Z.eqb_spec n 0) as [->|Hne].
  { exists (zeros 4). split_and!; [done..|]. by rewrite (clear_low_small 32). }
  assert (u32 (i32 (u32 (Z.shiftl 4294967295 (32 - n)))) = 2 ^ 32 - 2 ^ (32 - n)) as Hm.
  { rewrite mask_word by lia. unfold wrapS, wrapU. pose proof (Z.pow_pos_nonneg 2 (32 - n)).
    pose proof (Z.pow_le_mono_r 2 (32 - n) 32). change (2 ^ (32 - 1)) with 2147483648. change (2 ^ 32) with 4294967296 in *.
    Z.to_euclidean_division_equations; lia. }
  cbv zeta. rewrite Hm, address_in by done. unfold s_addr. rewrite mask_bytes by lia.
  eexists. split; [done|]. split; [apply length_be_to_bytes|]. rewrite Z.min_l by lia.
  apply be_of_to_bytes. apply (clear_low_range _ 32); [lia|done].
Qed.

(** An address of four words. *)
Lemma words_of (ip6 : list byte) : length ip6 = 16%nat -> exists w0 w1 w2 w3 : list byte,
  ip6 = w0 ++ w1 ++ w2 ++ w3 /\ length w0 = 4%nat /\ length w1 = 4%nat /\ length w2 = 4%nat /\ length w3 = 4%nat.
Proof.
  intros H. explode H.
  match goal with |- context [?a :: ?b :: ?c :: ?d :: ?e :: ?f :: ?g :: ?h :: ?i :: ?j :: ?k :: ?l :: ?m :: ?n :: ?o :: ?p :: []] =>
    by exists [a; b; c; d], [e; f; g; h], [i; j; k; l], [m; n; o; p] end.
Qed.

Lemma word_at (pre w post : list byte) i : length w = 4%nat -> length pre = (4 * i)%nat -> v6_as_int (pre ++ w ++ post) i = le_of_bytes w.
Proof. intros Hw Hp. unfold v6_as_int. rewrite <- Hp, drop_app_length, <- Hw, take_app_length. done. Qed.
Lemma set_word_at (pre w post : list byte) i v : length w = 4%nat -> length pre = (4 * i)%nat ->
  set_v6_int (pre ++ w ++ post) i v = pre ++ le_to_bytes 4 v ++ post.
Proof.
  intros Hw Hp. unfold set_v6_int, splice. rewrite <- Hp, take_app_length, length_le_to_bytes. do 2 f_equal.
  rewrite <- drop_drop, drop_app_length, <- Hw, drop_app_length. done.
Qed.

Lemma be_words (w0 w1 w2 w3 : list byte) : length w1 = 4%nat -> length w2 = 4%nat -> length w3 = 4%nat ->
  be_of_bytes (w0 ++ w1 ++ w2 ++ w3) =
  ((be_of_bytes w0 * 2 ^ 32 + be_of_bytes w1) * 2 ^ 32 + be_of_bytes w2) * 2 ^ 32 + be_of_bytes w3.
Proof.
  intros H1 H2 H3. rewrite !be_of_bytes_app, !length_app, H1, H2, H3.
  change (256 ^ Z.of_nat 4) with (2 ^ 32). change (256 ^ Z.of_nat (4 + 4)) with (2 ^ 32 * 2 ^ 32).
  change (256 ^ Z.of_nat (4 + (4 + 4))) with (2 ^ 32 * 2 ^ 32 * 2 ^ 32). ring.
Qed.

Definition masked (m : Z) (w : list byte) : list byte :=
  le_to_bytes 4 (HostToNetwork32 (Z.land (NetworkToHost32 (le_of_bytes w)) m)).

Lemma truncate_words (w0 w1 w2 w3 : list byte) m :
  length w0 = 4%nat -> length w1 = 4%nat -> length w2 = 4%nat -> length w3 = 4%nat ->
  let l p := truncate_loop 4 0 p m (w0 ++ w1 ++ w2 ++ w3) in
  l 0 = masked m w0 ++ zeros 4 ++ zeros 4 ++ zeros 4 /\ l 1 = w0 ++ masked m w1 ++ zeros 4 ++ zeros 4 /\
  l 2 = w0 ++ w1 ++ masked m w2 ++ zeros 4 /\ l 3 = w0 ++ w1 ++ w2 ++ masked m w3.
Proof. intros H0 H1 H2 H3. explode H0. explode H1. explode H2. explode H3. by split_and!. Qed.

(** Clearing bits inside one word of a number of words. *)
Lemma clear_word k r a x y : 0 <= k <= 32 -> 0 <= r -> 0 <= y < 2 ^ r ->
  clear_low (k + r) ((a * 2 ^ 32 + x) * 2 ^ r + y) = (a * 2 ^ 32 + clear_low k x) * 2 ^ r.
Proof.
  intros Hk Hr Hy. rewrite clear_low_mul by lia. f_equal.
  apply (clear_low_add k (a * 2 ^ 32) x (a * 2 ^ (32 - k))); [lia|].
  rewrite <- Z.mul_assoc, <- Z.pow_add_r by lia. do 2 f_equal. lia.
Qed.

Lemma be_zeros n : be_of_bytes (zeros n) = 0.
Proof.
  induction n as [|n IH]; [done|]. change (zeros (S n)) with (x00 :: zeros n).
  rewrite be_of_bytes_cons, IH. cbn. lia.
Qed.

Lemma truncate_v6 ip6 n : length ip6 = 16%nat -> 0 <= n ->
  exists ip6', TruncateIP (IPAddress_in6 ip6) n = IPAddress_in6 ip6' /\ length ip6' = 16%nat /\
    be_of_bytes ip6' = clear_low (128 - Z.min n 128) (be_of_bytes ip6).
Proof.
  intros Hl Hn. pose proof (be_of_bytes_range ip6) as Hr. rewrite Hl in Hr. change (256 ^ _) with (2 ^ 128) in Hr.
  unfold TruncateIP. rewrite (proj2 (Z.ltb_ge n 0)) by lia. change (family _ =? AF_INET) with false.
  change (family _ =? AF_INET6) with true. cbv iota.
  destruct (Z.ltb_spec 127 n) as [Hbig|Hsmall].
  { exists ip6. split_and!; [done..|]. replace (128 - Z.min n 128) with 0 by lia. by rewrite clear_low_0. }
  destruct (Z.eqb_spec n 0) as [->|Hne].
  { exists (zeros 16). split_and!; [done..|]. by rewrite (clear_low_small 128). }
  cbv zeta. cbn [ipv6_address u_ IPAddress_in6]. rewrite Z.quot_div_nonneg by lia.
  set (p := n / 32). set (k := 32 - (n - p * 32)).
  assert (0 <= p <= 3 /\ 0 < k <= 32 /\ 128 - n = k + 32 * (3 - p)) as (Hp & Hk & Hpk)
    by (unfold k, p; Z.to_euclidean_division_equations; lia).
  rewrite mask_word by lia. rewrite Z.min_l by lia. rewrite Hpk. clearbody k p. clear Hpk.
  destruct (words_of ip6 Hl) as (w0 & w1 & w2 & w3 & -> & H0 & H1 & H2 & H3). clear Hl.
  assert (forall w, length w = 4%nat -> 0 <= be_of_bytes w < 2 ^ 32) as Hw.
  { intros w Hlw. pose proof (be_of_bytes_range w) as Hrw. by rewrite Hlw in Hrw. }
  assert (forall w, length (masked (2 ^ 32 - 2 ^ k) w) = 4%nat) as Hlm by (intros; apply length_le_to_bytes).
  assert (forall w, length w = 4%nat -> be_of_bytes (masked (2 ^ 32 - 2 ^ k) w) = clear_low k (be_of_bytes w)) as Hm.
  { intros w Hlw. unfold masked. rewrite mask_bytes by lia. apply be_of_to_bytes.
    apply (clear_low_range _ 32); [lia|by apply Hw]. }
  pose proof (Hw _ H0). pose proof (Hw _ H1). pose proof (Hw _ H2). pose proof (Hw _ H3).
  destruct (truncate_words w0 w1 w2 w3 (2 ^ 32 - 2 ^ k) H0 H1 H2 H3) as (E0 & E1 & E2 & E3).
  assert (p = 0 \/ p = 1 \/ p = 2 \/ p = 3) as [Hp'|[Hp'|[Hp'|Hp']]] by lia; subst p.
  all: rewrite ?E0, ?E1, ?E2, ?E3; eexists; split; [reflexivity|]; split; [rewrite !length_app, ?Hlm, ?H0, ?H1, ?H2, ?H3; done|].
  all: rewrite !be_words by (done || apply Hlm); rewrite Hm, ?be_zeros by done.
  - replace (k + 32 * (3 - 0)) with (k + 96) by lia.
    replace (((_ * _ + _) * _ + _) * _ + be_of_bytes w3)
      with ((0 * 2 ^ 32 + be_of_bytes w0) * 2 ^ 96 + ((be_of_bytes w1 * 2 ^ 32 + be_of_bytes w2) * 2 ^ 32 + be_of_bytes w3)) by ring.
    rewrite clear_word by lia. ring.
  - replace (k + 32 * (3 - 1)) with (k + 64) by lia.
    replace (((_ * _ + _) * _ + _) * _ + be_of_bytes w3)
      with ((be_of_bytes w0 * 2 ^ 32 + be_of_bytes w1) * 2 ^ 64 + (be_of_bytes w2 * 2 ^ 32 + be_of_bytes w3)) by ring.
    rewrite clear_word by lia. ring.
  - replace (k + 32 * (3 - 2)) with (k + 32) by lia. rewrite clear_word by lia. ring.
  - replace (k + 32 * (3 - 3)) with (k + 0) by lia.
    rewrite <- (Z.add_0_r (_ + be_of_bytes w3)), <- (Z.mul_1_r (_ + be_of_bytes w3)). change 1 with (2 ^ 0).
    rewrite clear_word by lia. change (2 ^ 0) with 1. lia.
Qed.

(** Both families at once. *)
Lemma truncate_ok ip n : ip_ok ip -> family ip <> AF_UNSPEC -> 0 <= n ->
  let net := TruncateIP ip n in
  ip_ok net /\ family net = family ip /\
  ip_val net = clear_low (ip_width ip - Z.min n (ip_width ip)) (ip_val ip).
Proof.
  intros Hok Hf Hn. destruct (ip_viewP _ Hok) as [|ip4 Hl|ip6 Hl]; [done| |].
  - destruct (truncate_v4 ip4 n Hl Hn) as (ip4' & He & Hl' & Hv). cbv zeta. rewrite He.
    split; [by apply in_ok|]. split; [done|]. by rewrite !val_in.
  - destruct (truncate_v6 ip6 n Hl Hn) as (ip6' & He & Hl' & Hv). cbv zeta. rewrite He.
    split; [by apply in6_ok|]. split; [done|]. by rewrite !val_in6.
Qed.

(** The mask of [n] bits of a family. *)
Definition all_ones (family : Z) : IPAddress :=
  if family =? AF_INET then IPAddress_in (repeat xff 4) else IPAddress_in6 (repeat xff 16).

Lemma count_prefix n :
  (0 <= n <= 32 -> CountIPMaskBits (TruncateIP (all_ones AF_INET) n) = n) /\
  (0 <= n <= 128 -> CountIPMaskBits (TruncateIP (all_ones AF_INET6) n) = n).
Proof.
  assert (Forall (fun n => CountIPMaskBits (TruncateIP (all_ones AF_INET) n) = n) (seqZ 0 33)) as H4
    by (apply (bool_decide_unpack _); vm_compute; exact I).
  assert (Forall (fun n => CountIPMaskBits (TruncateIP (all_ones AF_INET6) n) = n) (seqZ 0 129)) as H6
    by (apply (bool_decide_unpack _); vm_compute; exact I).
  rewrite Forall_forall in H4. rewrite Forall_forall in H6.
  split; intros Hn; [apply H4|apply H6]; apply elem_of_seqZ; lia.
Qed.

Lemma clear_low_ones w n : 0 <= n <= w -> clear_low (w - n) (2 ^ w - 1) = 2 ^ w - 2 ^ (w - n).
Proof.
  intros Hn. assert (2 ^ w = 2 ^ n * 2 ^ (w - n)) as Hw by (rewrite <- Z.pow_add_r by lia; f_equal; lia).
  unfold clear_low. replace (2 ^ w - 1) with ((2 ^ n - 1) * 2 ^ (w - n) + (2 ^ (w - n) - 1)) by (rewrite Hw; ring).
  pose proof (Z.pow_pos_nonneg 2 (w - n)). rewrite Z.div_add_l, Z.div_small, Hw by lia. ring.
Qed.

Lemma mask_of mask n : ip_ok mask -> family mask <> AF_UNSPEC -> 0 <= n <= ip_width mask ->
  ip_val mask = 2 ^ ip_width mask - 2 ^ (ip_width mask - n) ->
  mask = TruncateIP (all_ones (family mask)) n.
Proof.
  intros Hok Hf Hn Hv. destruct (ip_viewP _ Hok) as [|ip4 Hl|ip6 Hl]; [done| |].
  - destruct (truncate_ok (all_ones AF_INET) n) as (Hok' & Hf' & Hv'); [by apply in_ok|done|lia|].
    apply ip_key_inj; [done|done| |].
    + unfold ip_rank. change (family_ (TruncateIP _ n)) with (family (TruncateIP (all_ones AF_INET) n)). by rewrite Hf'.
    + change (ip_width _) with 32 in *. change (family _) with AF_INET. rewrite Hv', Hv, Z.min_l by lia.
      change (ip_val (all_ones AF_INET)) with (2 ^ 32 - 1). by rewrite clear_low_ones.
  - destruct (truncate_ok (all_ones AF_INET6) n) as (Hok' & Hf' & Hv'); [by apply in6_ok|done|lia|].
    apply ip_key_inj; [done|done| |].
    + unfold ip_rank. change (family_ (TruncateIP _ n)) with (family (TruncateIP (all_ones AF_INET6) n)). by rewrite Hf'.
    + change (ip_width _) with 128 in *. change (family _) with AF_INET6. rewrite Hv', Hv, Z.min_l by lia.
      change (ip_val (all_ones AF_INET6)) with (2 ^ 128 - 1). by rewrite clear_low_ones.
Qed.

(** [CountIPMaskBits] and [TruncateIP] are a netmask: for a mask of [n] ones
    followed by zeros, in either family and for every [n], the count is [n] and
    truncating an address to it is the bitwise and with the mask, an address of
    the same family whose unused bytes are zero. *)
Theorem netmask_prefix ip mask n :
  ip_ok ip -> ip_ok mask -> family ip = family mask -> family mask <> AF_UNSPEC -> 0 <= n <= ip_width mask ->
  ip_val mask = 2 ^ ip_width mask - 2 ^ (ip_width mask - n) ->
  CountIPMaskBits mask = n /\
  (let net := TruncateIP ip (CountIPMaskBits mask) in
   ip_ok net /\ family net = family ip /\ ip_val net = Z.land (ip_val ip) (ip_val mask)).
Proof.
  intros Hip Hmask Hfam Hf Hn Hv.
  assert (ip_width ip = ip_width mask) as Hw by (unfold ip_width, Size, family in *; by rewrite Hfam).
  assert (CountIPMaskBits mask = n) as Hc.
  { rewrite (mask_of mask n) by done. destruct (count_prefix n) as [H4 H6].
    destruct (ip_viewP _ Hmask) as [|ip4 Hl|ip6 Hl]; [done|by apply H4|by apply H6]. }
  split; [done|]. rewrite Hc. destruct (truncate_ok ip n) as (Hok & Hfam' & Hv'); [done|by rewrite Hfam|lia|].
  split_and!; [done..|]. rewrite Hv', Hv, Hw, Z.min_l by lia. symmetry. apply land_high; [lia|].
  rewrite <- Hw. by apply ip_val_range.
Qed.

Lemma netmask_prefix_witness :
  let ip := IPAddress_in (map z2b [192; 168; 77; 9]) in
  let mask := IPAddress_in (map z2b [255; 255; 240; 0]) in
  CountIPMaskBits mask = 20 /\
  (let net := TruncateIP ip (CountIPMaskBits mask) in
   ip_ok net /\ family net = family ip /\ ip_val net = Z.land (ip_val ip) (ip_val mask)).
Proof.
  apply netmask_prefix; [by apply in_ok|by apply in_ok|done|done|done|]. vm_compute. reflexivity.
Defined.

(** ** Masks that are no prefix *)

Lemma land_odd a b : Z.land (2 * a + 1) (2 * b + 1) = 2 * Z.land a b + 1.
Proof.
  apply Z.bits_inj'. intros i Hi. destruct (Z.eq_dec i 0) as [->|Hne].
  - by rewrite Z.land_spec, !Z.testbit_odd_0.
  - replace i with (Z.succ (Z.pred i)) by lia. rewrite Z.land_spec, !Z.testbit_odd_succ, Z.land_spec by lia. done.
Qed.

(** [x & -x] is the lowest set bit. *)
Lemma isolate_lowest t q : 0 <= t -> 0 <= q -> 2 ^ t * (2 * q + 1) < 2 ^ 32 ->
  let w := 2 ^ t * (2 * q + 1) in Z.land w (u32 (u32 (Z.lnot w) + 1)) = 2 ^ t.
Proof.
  intros Ht Hq Hlt w. pose proof (Z.pow_pos_nonneg 2 t). assert (0 <= w) by (unfold w; nia).
  rewrite wrapU_add_l. unfold wrapU. rewrite <- Z.land_ones by lia.
  rewrite (Z.land_comm (Z.lnot w + 1)), Z.land_assoc, Z.land_ones, Z.mod_small by (unfold w in *; lia).
  replace (Z.lnot w + 1) with (- w) by (pose proof (Z.add_lnot_diag w); lia).
  replace (- w) with (Z.shiftl (2 * (- q - 1) + 1) t) by (rewrite Z.shiftl_mul_pow2 by lia; unfold w; ring).
  replace w with (Z.shiftl (2 * q + 1) t) by (rewrite Z.shiftl_mul_pow2 by lia; unfold w; ring).
  rewrite <- Z.shiftl_land, land_odd.
  replace (- q - 1) with (Z.lnot q) by (pose proof (Z.add_lnot_diag q); lia).
  rewrite Z.land_lnot_diag. rewrite Z.shiftl_mul_pow2 by lia. ring.
Qed.

Lemma trailing_zeroes_ok t q : 0 <= t -> 0 <= q -> 2 ^ t * (2 * q + 1) < 2 ^ 32 ->
  trailing_zeroes (2 ^ t * (2 * q + 1)) = t.
Proof.
  intros Ht Hq Hlt.
  assert (t < 32).
  { destruct (Z.lt_ge_cases t 32) as [|Hge]; [done|]. pose proof (Z.pow_le_mono_r 2 32 t ltac:(lia) Hge). nia. }
  assert (Forall (fun t => trailing_zeroes (2 ^ t) = t) (seqZ 0 32)) as Hall
    by (apply (bool_decide_unpack _); vm_compute; exact I).
  rewrite Forall_forall in Hall. rewrite <- (Hall t) at 2 by (apply elem_of_seqZ; lia).
  pose proof (isolate_lowest t q Ht Hq Hlt) as H1.
  pose proof (isolate_lowest t 0 Ht (Z.le_refl 0)) as H0. cbv zeta in H0, H1.
  change (2 * 0 + 1) with 1 in H0. rewrite Z.mul_1_r in H0.
  unfold trailing_zeroes. rewrite H1, H0; [done|]. pose proof (Z.pow_pos_nonneg 2 t). nia.
Qed.

(** For any IPv4 mask the count goes to the last bit that is set, whatever is
    before it. *)
Lemma count_v4 ip4 t q : length ip4 = 4%nat -> 0 <= t -> 0 <= q -> be_of_bytes ip4 = 2 ^ t * (2 * q + 1) ->
  CountIPMaskBits (IPAddress_in ip4) = 32 - t.
Proof.
  intros Hl Ht Hq Hv. pose proof (be_of_bytes_range ip4) as Hr. rewrite Hl in Hr. change (256 ^ _) with (2 ^ 32) in Hr.
  unfold CountIPMaskBits. change (family _ =? AF_INET) with true. cbn [orb].
  rewrite address_in, host_order, Hv by done. pose proof (Z.pow_pos_nonneg 2 t).
  rewrite (proj2 (Z.eqb_neq _ 0)), trailing_zeroes_ok by nia. lia.
Qed.

Example count_gaps : CountIPMaskBits (IPAddress_in (map z2b [255; 0; 255; 0])) = 24.
Proof. reflexivity. Qed.

(** ** Mapped addresses and private ranges *)

Lemma mapped_normalized ip : ip_ok ip -> family ip = AF_INET ->
  Normalized (AsIPv6Address ip) = ip /\ family (AsIPv6Address ip) = AF_INET6 /\ IPIsV4Mapped (AsIPv6Address ip) = true.
Proof. intros Hok Hf. destruct (ip_viewP _ Hok) as [|ip4 Hl|ip6 Hl]; [done| |done]. by explode Hl. Qed.

(** The ranges of [IPIsPrivate], on the bytes of an IPv4 address. *)
Definition private_v4 (a b : Z) : bool :=
  (a =? 10) || (a =? 127) || (a =? 172) && (16 <=? b) && (b <=? 31) || (a =? 192) && (b =? 168) ||
  (a =? 169) && (b =? 254) || (a =? 100) && (64 <=? b) && (b <=? 127).

Lemma private_ranges a b c d :
  IPIsPrivate (IPAddress_in [a; b; c; d]) = private_v4 (b2z a) (b2z b) /\
  IPIsPrivate (AsIPv6Address (IPAddress_in [a; b; c; d])) = false.
Proof.
  split; [|done]. unfold IPIsPrivate, IPIsLinkLocal, IPIsLoopback, IPIsPrivateNetwork, IPIsSharedNetwork, by_family.
  change (family _ =? AF_INET) with true. cbv iota.
  unfold IPIsLinkLocalV4, IPIsLoopbackV4, IPIsPrivateNetworkV4, IPIsSharedNetworkV4. rewrite v4_host by done.
  rewrite !Z.shiftr_div_pow2 by lia. unfold be_of_bytes, private_v4. cbn [rev app le_of_bytes].
  pose proof (b2z_range a). pose proof (b2z_range b). pose proof (b2z_range c). pose proof (b2z_range d).
  apply eq_true_iff_eq. rewrite !orb_true_iff, !andb_true_iff, !Z.eqb_eq, !Z.leb_le.
  change (Z.lor (Z.shiftl 169 8) 254) with (169 * 256 + 254). change (Z.lor (Z.shiftl 172 4) 1) with (172 * 16 + 1).
  change (Z.lor (Z.shiftl 192 8) 168) with (192 * 256 + 168). change (Z.lor (Z.shiftl 100 2) 1) with (100 * 4 + 1).
  change (2 ^ 24) with 16777216. change (2 ^ 20) with 1048576. change (2 ^ 16) with 65536. change (2 ^ 22) with 4194304.
  Z.to_euclidean_division_equations; lia.
Qed.
