(* ===== verification/SockAddr.v ===== *)
(** * [rtc_base/socket_address.h], [socket_address.cc]: an address and a port

    A [std::string] is the list of its bytes; [out_of_range] thrown by [at] ends
    the process.  A [sockaddr_storage] is its 128 bytes with the layout of macOS:
    the family at byte 1, the port at 2 and 3, then [sin_addr] at 4, or
    [sin6_addr] at 8 and [sin6_scope_id] at 24. *)

From stdpp Require Import pretty.
From S2P Require Import Prelude Sds CLib ByteOrder StringUtils IpAddress.
#[local] Open Scope Z_scope.
#[local] Open Scope xrtc_scope.

Record SocketAddress := MkSocketAddress {
  hostname_ : list byte;
  ip_ : IPAddress;
  port_ : Z;
  scope_id_ : Z;
  literal_ : bool;
}.

Definition SocketAddress_nil : SocketAddress := MkSocketAddress [] IPAddress_nil 0 0 false.

Section text.
Context `{!Inet}.

Definition Clear (a : SocketAddress) : SocketAddress := SocketAddress_nil.
Definition SetIP_host (ip_as_host_order_integer : Z) (a : SocketAddress) : SocketAddress :=
  MkSocketAddress [] (IPAddress_host ip_as_host_order_integer) (port_ a) 0 false.
Definition SetIP (ip : IPAddress) (a : SocketAddress) : SocketAddress := MkSocketAddress [] ip (port_ a) 0 false.
Definition SetIP_name (hostname : list byte) (a : SocketAddress) : SocketAddress :=
  let '(literal, ip) := IPFromString hostname (Some (ip_ a)) in
  let ip := if negb literal then IPAddress_nil else default (ip_ a) ip in
  MkSocketAddress hostname ip (port_ a) 0 literal.
Definition SetResolvedIP_host (ip_as_host_order_integer : Z) (a : SocketAddress) : SocketAddress :=
  MkSocketAddress (hostname_ a) (IPAddress_host ip_as_host_order_integer) (port_ a) 0 (literal_ a).
Definition SetResolvedIP (ip : IPAddress) (a : SocketAddress) : SocketAddress :=
  MkSocketAddress (hostname_ a) ip (port_ a) 0 (literal_ a).
(** [port] is an [int]; the check of its range is a debug check. *)
Definition SetPort (port : Z) (a : SocketAddress) : SocketAddress :=
  MkSocketAddress (hostname_ a) (ip_ a) (u16 port) (scope_id_ a) (literal_ a).
Definition SetScopeID (id : Z) (a : SocketAddress) : SocketAddress :=
  MkSocketAddress (hostname_ a) (ip_ a) (port_ a) id (literal_ a).

Definition SocketAddress_name (hostname : list byte) (port : Z) : SocketAddress :=
  SetPort port (SetIP_name hostname SocketAddress_nil).
Definition SocketAddress_host (ip_as_host_order_integer port : Z) : SocketAddress :=
  SetPort port (SetIP (IPAddress_host ip_as_host_order_integer) SocketAddress_nil).
Definition SocketAddress_ip (ip : IPAddress) (port : Z) : SocketAddress := SetPort port (SetIP ip SocketAddress_nil).

Definition SocketAddress_IsNil (a : SocketAddress) : bool :=
  bool_decide (hostname_ a = []) && IPIsUnspec (ip_ a) && (port_ a =? 0).
Definition IsComplete (a : SocketAddress) : bool := negb (IPIsAny (ip_ a)) && negb (port_ a =? 0).
Definition ip (a : SocketAddress) : Z := v4AddressAsHostOrderInteger (ip_ a).

Definition HostAsURIString (a : SocketAddress) : list byte :=
  if negb (literal_ a) && negb (bool_decide (hostname_ a = [])) then hostname_ a
  else if family (ip_ a) =? AF_INET6 then string_bytes "[" ++ ToString (ip_ a) ++ string_bytes "]"
  else ToString (ip_ a).
Definition HostAsSensitiveURIString (a : SocketAddress) : list byte :=
  if negb (literal_ a) && negb (bool_decide (hostname_ a = [])) then hostname_ a
  else if family (ip_ a) =? AF_INET6 then string_bytes "[" ++ ToSensitiveString (ip_ a) ++ string_bytes "]"
  else ToSensitiveString (ip_ a).
Definition PortAsString (a : SocketAddress) : list byte := string_bytes (pretty (port_ a)).

(** [host:port] in a buffer of 1024 characters that holds [buf]. *)
Definition host_port (buf host : list byte) (port : Z) : res (list byte) :=
  sb ← new_SimpleStringBuilder buf;
  sb ← put_string host sb;
  sb ← put_cstr (string_bytes ":" ++ [x00]) sb;
  sb ← put_int port sb;
  str sb.
Definition SocketAddress_ToString (buf : list byte) (a : SocketAddress) : res (list byte) :=
  host_port buf (HostAsURIString a) (port_ a).
Definition SocketAddress_ToSensitiveString (buf : list byte) (a : SocketAddress) : res (list byte) :=
  host_port buf (HostAsSensitiveURIString a) (port_ a).

Definition IsUnresolvedIP (a : SocketAddress) : bool :=
  IPIsUnspec (ip_ a) && negb (literal_ a) && negb (bool_decide (hostname_ a = [])).
Definition ToResolvedSensitiveString (buf : list byte) (a : SocketAddress) : res (list byte) :=
  if IsUnresolvedIP a then Ret [] else host_port buf (ToSensitiveString (ip_ a)) (port_ a).

(** [s.find(c)], and [strtoul(s, nullptr, 10)]. *)
Fixpoint find (s : list byte) (c : byte) : option nat :=
  match s with [] => None | x :: s => if decide (x = c) then Some O else option_map S (find s c) end.
Fixpoint skip_space (s : list byte) : list byte :=
  match s with
  | c :: s' => if (b2z c =? 32) || ((9 <=? b2z c) && (b2z c <=? 13)) then skip_space s' else s
  | [] => []
  end.
Fixpoint dec_prefix (acc : Z) (s : list byte) : Z :=
  match s with
  | c :: s => if (48 <=? b2z c) && (b2z c <=? 57) then dec_prefix (10 * acc + (b2z c - 48)) s else acc
  | [] => acc
  end.
Definition strtoul (s : list byte) : Z :=
  let s := skip_space (cstr s) in
  let '(neg, s) :=
    match s with
    | x2d :: s' => (true, s')
    | x2b :: s' => (false, s')
    | _ => (false, s)
    end in
  let v := dec_prefix 0 s in
  if 2 ^ 64 <=? v then 2 ^ 64 - 1 else if (neg : bool) then u64 (- v) else v.

Definition FromString (str : list byte) (a : SocketAddress) : res (bool * SocketAddress) :=
  match str with
  | [] => Abort
  | c :: _ =>
      if decide (c = x5b) then
        match rfind str x5d with
        | None => Ret (true, a)
        | Some closebracket =>
            match find (drop closebracket str) x3a with
            | Some n =>
                let colon := (closebracket + n)%nat in
                if (closebracket <? colon)%nat then
                  let a := SetPort (i32 (strtoul (drop (colon + 1) str))) a in
                  Ret (true, SetIP_name (take (closebracket - 1) (drop 1 str)) a)
                else Ret (false, a)
            | None => Ret (false, a)
            end
        end
      else
        match find str x3a with
        | None => Ret (false, a)
        | Some pos =>
            let a := SetPort (i32 (strtoul (drop (pos + 1) str))) a in
            Ret (true, SetIP_name (take pos str) a)
        end
  end.
End text.

(** ** Comparison *)

Definition IsAnyIP (a : SocketAddress) : bool := IPIsAny (ip_ a).
Definition IsLoopbackIP (a : SocketAddress) : bool :=
  IPIsLoopback (ip_ a) || (IPIsAny (ip_ a) && bool_decide (cstr (hostname_ a) = string_bytes "localhost")).
Definition IsPrivateIP (a : SocketAddress) : bool := IPIsPrivate (ip_ a).

(** [<] on [std::string]. *)
Fixpoint string_lt (s t : list byte) : bool :=
  match s, t with
  | [], [] => false
  | [], _ => true
  | _, [] => false
  | x :: s, y :: t => if b2z x =? b2z y then string_lt s t else b2z x <? b2z y
  end.

Definition EqualIPs (a b : SocketAddress) : bool :=
  ip_eq (ip_ a) (ip_ b) &&
  ((negb (IPIsAny (ip_ a)) && negb (IPIsUnspec (ip_ a))) || bool_decide (hostname_ a = hostname_ b)).
Definition EqualPorts (a b : SocketAddress) : bool := port_ a =? port_ b.
Definition sa_eq (a b : SocketAddress) : bool := EqualIPs a b && EqualPorts a b.
Definition sa_lt (a b : SocketAddress) : bool :=
  if ip_neq (ip_ a) (ip_ b) then ip_lt (ip_ a) (ip_ b)
  else if (IPIsAny (ip_ a) || IPIsUnspec (ip_ a)) && negb (bool_decide (hostname_ a = hostname_ b))
  then string_lt (hostname_ a) (hostname_ b)
  else port_ a <? port_ b.
Definition Hash (a : SocketAddress) : Z :=
  let h := 0 in
  let h := Z.lxor h (HashIP (ip_ a)) in
  Z.lxor h (u64 (Z.lor (port_ a) (i32 (Z.shiftl (port_ a) 16)))).

(** ** [sockaddr] *)

Definition sizeof_sockaddr_storage : nat := 128.
Definition sizeof_sockaddr_in : nat := 16.
Definition sizeof_sockaddr_in6 : nat := 28.

Definition sa_family (m : list byte) : Z := b2z (nth 1 m x00).
Definition sin_port (m : list byte) : Z := le_of_bytes (take 2 (drop 2 m)).
Definition sin_addr (m : list byte) : list byte := take 4 (drop 4 m).
Definition sin6_addr (m : list byte) : list byte := take 16 (drop 8 m).
Definition sin6_scope_id (m : list byte) : Z := le_of_bytes (take 4 (drop 24 m)).
Definition set_family (f : Z) (m : list byte) : list byte := splice m 1 [z2b f].
Definition set_port (p : Z) (m : list byte) : list byte := splice m 2 (le_to_bytes 2 p).
Definition set_sin_addr (ip4 m : list byte) : list byte := splice m 4 ip4.
Definition set_sin6_addr (ip6 m : list byte) : list byte := splice m 8 ip6.
Definition set_scope_id (id : Z) (m : list byte) : list byte := splice m 24 (le_to_bytes 4 id).

(** The address that [info->ai_addr] points to, if there is one. *)
Definition IPFromAddrInfo (info : option (option (list byte))) (out : IPAddress) : bool * IPAddress :=
  match info with
  | Some (Some m) =>
      if sa_family m =? AF_INET then (true, IPAddress_in (sin_addr m))
      else if sa_family m =? AF_INET6 then (true, IPAddress_in6 (sin6_addr m))
      else (false, out)
  | _ => (false, out)
  end.

(** What [*saddr] holds afterwards. *)
Definition ToSockAddr (a : SocketAddress) : list byte :=
  let saddr := zeros sizeof_sockaddr_in in
  if negb (family (ip_ a) =? AF_INET) then set_family AF_UNSPEC saddr
  else
    let saddr := set_port (HostToNetwork16 (port_ a)) (set_family AF_INET saddr) in
    if IPIsAny (ip_ a) then set_sin_addr (le_to_bytes 4 INADDR_ANY) saddr
    else set_sin_addr (ipv4_address (ip_ a)) saddr.

Definition FromSockAddr (saddr : list byte) (a : SocketAddress) : bool * SocketAddress :=
  if negb (sa_family saddr =? AF_INET) then (false, a)
  else
    let a := SetIP_host (NetworkToHost32 (s_addr (sin_addr saddr))) a in
    let a := SetPort (NetworkToHost16 (sin_port saddr)) a in
    (true, MkSocketAddress (hostname_ a) (ip_ a) (port_ a) (scope_id_ a) false).

(** The size returned, and what [*addr] holds afterwards. *)
Definition ToSockAddrStorageHelper (ip : IPAddress) (port scope_id : Z) : Z * list byte :=
  let addr := zeros sizeof_sockaddr_storage in
  let addr := set_family (u16 (family ip)) addr in
  if sa_family addr =? AF_INET6 then
    (Z.of_nat sizeof_sockaddr_in6,
     set_scope_id (u32 scope_id) (set_port (HostToNetwork16 port) (set_sin6_addr (ipv6_address ip) addr)))
  else if sa_family addr =? AF_INET then
    (Z.of_nat sizeof_sockaddr_in, set_port (HostToNetwork16 port) (set_sin_addr (ipv4_address ip) addr))
  else (0, addr).

Definition ToDualStackSockAddrStorage (a : SocketAddress) : Z * list byte :=
  ToSockAddrStorageHelper (AsIPv6Address (ip_ a)) (port_ a) (scope_id_ a).
Definition ToSockAddrStorage (a : SocketAddress) : Z * list byte :=
  ToSockAddrStorageHelper (ip_ a) (port_ a) (scope_id_ a).

Definition SocketAddressFromSockAddrStorage (addr : list byte) (out : option SocketAddress)
    : bool * option SocketAddress :=
  match out with
  | None => (false, None)
  | Some out =>
      if sa_family addr =? AF_INET then
        (true, Some (SocketAddress_ip (IPAddress_in (sin_addr addr)) (NetworkToHost16 (sin_port addr))))
      else if sa_family addr =? AF_INET6 then
        (true, Some (SetScopeID (i32 (sin6_scope_id addr))
           (SocketAddress_ip (IPAddress_in6 (sin6_addr addr)) (NetworkToHost16 (sin_port addr)))))
      else (false, Some out)
  end.

Definition EmptySocketAddressWithFamily (family : Z) : SocketAddress :=
  if family =? AF_INET then SocketAddress_ip (IPAddress_host INADDR_ANY) 0
  else if family =? AF_INET6 then SocketAddress_ip (IPAddress_in6 in6addr_any) 0
  else SocketAddress_nil.

(** ** The order *)

Record sa_ok (a : SocketAddress) : Prop := {
  so_ip : ip_ok (ip_ a);
  so_port : 0 <= port_ a < 2 ^ 16;
  so_scope : - 2 ^ 31 <= scope_id_ a < 2 ^ 31;
}.

Lemma string_lt_irrefl s : string_lt s s = false.
Proof. induction s as [|x s IH]; [done|]. cbn. by rewrite Z.eqb_refl. Qed.

Lemma string_lt_trans s t u : string_lt s t = true -> string_lt t u = true -> string_lt s u = true.
Proof.
  revert t u. induction s as [|x s IH]; intros [|y t] [|z u]; cbn; try done.
  destruct (Z.eqb_spec (b2z x) (b2z y)), (Z.eqb_spec (b2z y) (b2z z)), (Z.eqb_spec (b2z x) (b2z z));
    rewrite ?Z.ltb_lt; try lia. by apply IH.
Qed.

Lemma string_lt_total s t : string_lt s t = true \/ s = t \/ string_lt t s = true.
Proof.
  revert t. induction s as [|x s IH]; intros [|y t]; cbn; auto.
  rewrite (Z.eqb_sym (b2z y)). destruct (Z.eqb_spec (b2z x) (b2z y)) as [He|Hne].
  - apply (inj b2z) in He as ->. destruct (IH t) as [|[->|]]; auto.
  - rewrite !Z.ltb_lt. lia.
Qed.

(** The hostname where it counts. *)
Definition host_key (a : SocketAddress) : list byte :=
  if IPIsAny (ip_ a) || IPIsUnspec (ip_ a) then hostname_ a else [].

(** Lexicographic: rank and value of the address, hostname, port. *)
Definition key_lt (a b : SocketAddress) : Prop :=
  let r := ip_rank (ip_ a) in let r' := ip_rank (ip_ b) in
  let v := ip_val (ip_ a) in let v' := ip_val (ip_ b) in
  r < r' \/ r = r' /\ (v < v' \/ v = v' /\
    (string_lt (host_key a) (host_key b) = true \/ host_key a = host_key b /\ port_ a < port_ b)).
Definition key_eq (a b : SocketAddress) : Prop :=
  ip_ a = ip_ b /\ host_key a = host_key b /\ port_ a = port_ b.

Lemma sa_eq_iff a b : sa_ok a -> sa_ok b -> sa_eq a b = true <-> key_eq a b.
Proof.
  intros Ha Hb. unfold sa_eq, EqualIPs, EqualPorts, key_eq, host_key.
  rewrite !andb_true_iff, ip_eq_iff, Z.eqb_eq by (apply Ha || apply Hb).
  split.
  - intros [[Hip Hh] Hp]. split_and!; [done| |done]. rewrite <- Hip.
    destruct (IPIsAny (ip_ a)), (IPIsUnspec (ip_ a)); cbn in *; try done; by apply bool_decide_eq_true in Hh.
  - intros (Hip & Hh & Hp). split_and!; [done| |done]. rewrite <- Hip in Hh.
    destruct (IPIsAny (ip_ a)), (IPIsUnspec (ip_ a)); cbn in *; try done; by apply bool_decide_eq_true.
Qed.

Lemma sa_lt_iff a b : sa_ok a -> sa_ok b -> sa_lt a b = true <-> key_lt a b.
Proof.
  intros Ha Hb. pose proof (so_ip _ Ha) as Hia. pose proof (so_ip _ Hb) as Hib.
  unfold sa_lt, ip_neq, key_lt, host_key. destruct (ip_eq (ip_ a) (ip_ b)) eqn:E; cbn [negb].
  - apply ip_eq_iff in E; [|done..]. rewrite <- !E.
    destruct (IPIsAny (ip_ a) || IPIsUnspec (ip_ a)); cbn [andb string_lt].
    + destruct (bool_decide_reflect (hostname_ a = hostname_ b)) as [->|Hne]; cbn [negb].
      * rewrite string_lt_irrefl, Z.ltb_lt. naive_solver lia.
      * naive_solver lia.
    + rewrite Z.ltb_lt. naive_solver lia.
  - rewrite ip_lt_iff by done.
    assert (ip_rank (ip_ a) <> ip_rank (ip_ b) \/ ip_val (ip_ a) <> ip_val (ip_ b)) as Hne.
    { destruct (Z.eq_dec (ip_rank (ip_ a)) (ip_rank (ip_ b))); [|by left].
      destruct (Z.eq_dec (ip_val (ip_ a)) (ip_val (ip_ b))); [|by right].
      rewrite (proj2 (ip_eq_iff (ip_ a) (ip_ b) Hia Hib)) in E; [done|]. by apply ip_key_inj. }
    naive_solver lia.
Qed.

Lemma key_lt_trans a b c : key_lt a b -> key_lt b c -> key_lt a c.
Proof.
  unfold key_lt. intros [?|[Hr [?|[Hv Hx]]]] [?|[Hr' [?|[Hv' Hy]]]]; try lia.
  right. split; [lia|]. right. split; [lia|].
  destruct Hx as [Hx|[Hx Hp]], Hy as [Hy|[Hy Hq]].
  - left. by eapply string_lt_trans.
  - left. by rewrite <- Hy.
  - left. by rewrite Hx.
  - right. split; [congruence|lia].
Qed.

Lemma key_lt_irrefl a : ~ key_lt a a.
Proof. unfold key_lt. rewrite string_lt_irrefl. naive_solver lia. Qed.

Lemma key_trichotomy a b : sa_ok a -> sa_ok b -> key_lt a b \/ key_eq a b \/ key_lt b a.
Proof.
  intros Ha Hb. unfold key_lt, key_eq.
  destruct (Z.lt_trichotomy (ip_rank (ip_ a)) (ip_rank (ip_ b))) as [|[Hr|]]; [naive_solver| |naive_solver].
  destruct (Z.lt_trichotomy (ip_val (ip_ a)) (ip_val (ip_ b))) as [|[Hv|]]; [naive_solver| |naive_solver].
  assert (ip_ a = ip_ b) as Hip by (apply ip_key_inj; [apply Ha|apply Hb|done|done]).
  destruct (string_lt_total (host_key a) (host_key b)) as [|[Hs|]]; [naive_solver| |naive_solver].
  destruct (Z.lt_trichotomy (port_ a) (port_ b)) as [|[Hp|]]; naive_solver.
Qed.

(** Socket addresses can be keys of ordered and hashed containers: [<] is
    irreflexive and transitive, of two addresses either one is less or they are
    [==], never both, and [==] addresses have one hash.  The hostname counts in
    all of them exactly when the address is unspecified or the any address. *)
Theorem address_order a b c :
  sa_ok a -> sa_ok b -> sa_ok c ->
  sa_lt a a = false /\
  (sa_lt a b = true -> sa_lt b c = true -> sa_lt a c = true) /\
  (sa_eq a b = true <-> sa_lt a b = false /\ sa_lt b a = false) /\
  (sa_eq a b = true -> Hash a = Hash b).
Proof.
  intros Ha Hb Hc. split_and!.
  - apply not_true_iff_false. rewrite sa_lt_iff by done. apply key_lt_irrefl.
  - rewrite !sa_lt_iff by done. apply key_lt_trans.
  - rewrite <- !not_true_iff_false, !sa_lt_iff, sa_eq_iff by done. split.
    + intros (Hip & Hh & Hp). unfold key_lt. rewrite Hip, Hh, Hp, string_lt_irrefl. naive_solver lia.
    + intros [Hab Hba]. destruct (key_trichotomy a b Ha Hb) as [|[|]]; done.
  - rewrite sa_eq_iff by done. intros (Hip & _ & Hp). unfold Hash. by rewrite Hip, Hp.
Qed.

Lemma address_order_witness :
  let a := SocketAddress_ip (IPAddress_in (map z2b [10; 0; 0; 1])) 80 in
  let b := SocketAddress_ip (IPAddress_in (map z2b [10; 0; 0; 1])) 443 in
  let c := SocketAddress_ip (IPAddress_in6 in6addr_loopback) 80 in
  (sa_lt a b = true /\ sa_lt b c = true) /\
  sa_lt a a = false /\
  (sa_lt a b = true -> sa_lt b c = true -> sa_lt a c = true) /\
  (sa_eq a b = true <-> sa_lt a b = false /\ sa_lt b a = false) /\
  (sa_eq a b = true -> Hash a = Hash b).
Proof.
  split; [by vm_compute|]. apply address_order.
  - split; [by apply in_ok|by vm_compute; split|by vm_compute; split].
  - split; [by apply in_ok|by vm_compute; split|by vm_compute; split].
  - split; [by apply in6_ok|by vm_compute; split|by vm_compute; split].
Defined.

(** ** Through [sockaddr] and back *)

Lemma take_splice_at {A} (l : list A) i xs :
  (i + length xs <= length l)%nat -> take (length xs) (drop i (splice l i xs)) = xs.
Proof.
  intros Hl. unfold splice. rewrite drop_app_length' by (rewrite length_take; lia). by rewrite take_app_length.
Qed.

Lemma port_back p : 0 <= p < 2 ^ 16 -> u16 (NetworkToHost16 (le_of_bytes (le_to_bytes 2 (HostToNetwork16 p)))) = p.
Proof.
  intros Hp. pose proof (bswap_range 2 p) as Hr. rewrite le_of_to_bytes by exact Hr.
  unfold NetworkToHost16, be16toh, HostToNetwork16, htobe16. rewrite bswap_bswap by exact Hp.
  by apply wrapU_small.
Qed.

Lemma scope_back s : - 2 ^ 31 <= s < 2 ^ 31 -> i32 (le_of_bytes (le_to_bytes 4 (u32 s))) = s.
Proof.
  intros Hs. rewrite le_of_to_bytes by (apply (wrapU_range 32); lia). unfold wrapS, wrapU.
  change (2 ^ (32 - 1)) with 2147483648. change (2 ^ 32) with 4294967296.
  Z.to_euclidean_division_equations; lia.
Qed.

(** The port as it comes back, before it is truncated to 16 bits. *)
Notation wire_port p := (NetworkToHost16 (le_of_bytes (le_to_bytes 2 (HostToNetwork16 p)))).

Lemma address_port ip p : 0 <= p < 2 ^ 16 -> SocketAddress_ip ip (wire_port p) = SocketAddress_ip ip p.
Proof. intros Hp. unfold SocketAddress_ip, SetPort. cbn [hostname_ ip_ port_ scope_id_ literal_]. by rewrite port_back, (wrapU_small 16 p Hp). Qed.

Lemma helper_in ip4 p s : length ip4 = 4%nat -> 0 <= p < 2 ^ 16 ->
  let r := ToSockAddrStorageHelper (IPAddress_in ip4) p s in
  r.1 = 16 /\ length r.2 = sizeof_sockaddr_storage /\
  SocketAddressFromSockAddrStorage r.2 (Some SocketAddress_nil) = (true, Some (SocketAddress_ip (IPAddress_in ip4) p)).
Proof.
  intros Hl Hp. explode Hl. split_and!; [done..|]. rewrite <- (address_port _ p Hp). reflexivity.
Qed.

Lemma helper_in6 ip6 p s : length ip6 = 16%nat -> 0 <= p < 2 ^ 16 -> - 2 ^ 31 <= s < 2 ^ 31 ->
  let r := ToSockAddrStorageHelper (IPAddress_in6 ip6) p s in
  r.1 = 28 /\ length r.2 = sizeof_sockaddr_storage /\
  SocketAddressFromSockAddrStorage r.2 (Some SocketAddress_nil) =
    (true, Some (SetScopeID s (SocketAddress_ip (IPAddress_in6 ip6) p))).
Proof.
  intros Hl Hp Hs. explode Hl. split_and!; [done..|]. rewrite <- (address_port _ p Hp).
  assert (forall x, SetScopeID s x = SetScopeID (i32 (le_of_bytes (le_to_bytes 4 (u32 s)))) x) as -> by (intros; by rewrite scope_back).
  reflexivity.
Qed.

Lemma sockaddr_in_back a ip4 : ip_ a = IPAddress_in ip4 -> length ip4 = 4%nat -> 0 <= port_ a < 2 ^ 16 ->
  length (ToSockAddr a) = sizeof_sockaddr_in /\
  FromSockAddr (ToSockAddr a) SocketAddress_nil = (true, SocketAddress_ip (IPAddress_in ip4) (port_ a)).
Proof.
  intros Hip Hl Hp. unfold ToSockAddr. rewrite Hip. change (family _ =? AF_INET) with true. cbn [negb].
  assert (forall m, (if IPIsAny (IPAddress_in ip4) then set_sin_addr (le_to_bytes 4 INADDR_ANY) m
                     else set_sin_addr (ipv4_address (IPAddress_in ip4)) m) = set_sin_addr ip4 m) as Hany.
  { intros m. rewrite address_in by done. destruct (IPIsAny _) eqn:E; [|done].
    apply ip_eq_iff in E; [|by apply in_ok|apply host_ok]. rewrite host_eq in E.
    apply (f_equal ipv4_address) in E. rewrite !address_in in E by done. by rewrite E. }
  rewrite Hany. clear Hany Hip. explode Hl. split; [done|].
  rewrite <- (address_port _ _ Hp). unfold FromSockAddr. cbn [negb].
  unfold SocketAddress_ip, SetPort, SetIP_host, SetIP. cbn [hostname_ ip_ port_ scope_id_ literal_].
  change (sa_family _ =? AF_INET) with true. cbn [negb].
  match goal with |- context [sin_addr ?m] => change (sin_addr m) with [b; b0; b1; b2] end.
  pose proof (be_to_of_bytes [b; b0; b1; b2]) as Hb. cbn [length] in Hb. rewrite host_order, host_eq, Hb by done.
  reflexivity.
Qed.

(** An address survives its trip through the structures of the socket
    interface: written with [ToSockAddrStorage] it has the size of its family
    and [SocketAddressFromSockAddrStorage] gives its address, port and (IPv6)
    scope back; written for a dual-stack socket it is always a sockaddr_in6,
    read back as the mapped address whose normal form is that of the original;
    an IPv4 address also survives a sockaddr_in.  An unspecified address is
    written with size zero and does not read back. *)
Theorem sockaddr_roundtrip a :
  sa_ok a ->
  let s := ToSockAddrStorage a in let d := ToDualStackSockAddrStorage a in
  let back m := SocketAddressFromSockAddrStorage m (Some SocketAddress_nil) in
  if family (ip_ a) =? AF_UNSPEC then s.1 = 0 /\ d.1 = 0 /\ (back s.2).1 = false /\ (back d.2).1 = false
  else
    (s.1 = (if family (ip_ a) =? AF_INET then 16 else 28) /\
     exists b, back s.2 = (true, Some b) /\ ip_ b = ip_ a /\ port_ b = port_ a /\ hostname_ b = [] /\
       scope_id_ b = if family (ip_ a) =? AF_INET then 0 else scope_id_ a) /\
    (d.1 = 28 /\
     exists b, back d.2 = (true, Some b) /\ ip_ b = AsIPv6Address (ip_ a) /\
       Normalized (ip_ b) = Normalized (ip_ a) /\ port_ b = port_ a /\ scope_id_ b = scope_id_ a) /\
    (family (ip_ a) = AF_INET ->
     exists b, FromSockAddr (ToSockAddr a) SocketAddress_nil = (true, b) /\ ip_ b = ip_ a /\ port_ b = port_ a).
Proof.
  intros [Hip Hport Hscope]. destruct a as [h ia p sc li]. cbn [ip_ port_ scope_id_] in *. cbv zeta.
  destruct (ip_viewP _ Hip) as [|ip4 Hl|ip6 Hl].
  - change (family _ =? AF_UNSPEC) with true. by split_and!.
  - change (family _ =? AF_UNSPEC) with false. change (family _ =? AF_INET) with true. cbv iota. split_and!.
    + apply (helper_in ip4 p sc Hl Hport).
    + eexists. split; [apply (helper_in ip4 p sc Hl Hport)|]. split_and!; [done| |done|done].
      by apply (wrapU_small 16).
    + apply (helper_in6 (splice kV4MappedPrefix 12 (ipv4_address (IPAddress_in ip4))) p sc); [by explode Hl|done..].
    + destruct (helper_in6 (splice kV4MappedPrefix 12 (ipv4_address (IPAddress_in ip4))) p sc) as (_ & _ & Hb);
        [by explode Hl|done..|].
      eexists. split; [exact Hb|]. split_and!; [done| | |done]; [|by apply (wrapU_small 16)].
      apply (mapped_normalized (IPAddress_in ip4)); [by apply in_ok|done].
    + intros _. eexists. split; [apply (sockaddr_in_back (MkSocketAddress h (IPAddress_in ip4) p sc li) ip4); done|].
      split; [done|]. by apply (wrapU_small 16).
  - change (family _ =? AF_UNSPEC) with false. change (family _ =? AF_INET) with false. cbv iota. split_and!; [| | | |done].
    + apply (helper_in6 ip6 p sc Hl Hport Hscope).
    + eexists. split; [apply (helper_in6 ip6 p sc Hl Hport Hscope)|]. split_and!; [done| |done|done].
      by apply (wrapU_small 16).
    + apply (helper_in6 ip6 p sc Hl Hport Hscope).
    + eexists. split; [apply (helper_in6 ip6 p sc Hl Hport Hscope)|]. split_and!; [done|done| |done].
      by apply (wrapU_small 16).
Qed.

Lemma sockaddr_roundtrip_witness :
  let a := MkSocketAddress [] (IPAddress_in6 in6addr_loopback) 8080 3 false in
  let s := ToSockAddrStorage a in let d := ToDualStackSockAddrStorage a in
  let back m := SocketAddressFromSockAddrStorage m (Some SocketAddress_nil) in
  if family (ip_ a) =? AF_UNSPEC then s.1 = 0 /\ d.1 = 0 /\ (back s.2).1 = false /\ (back d.2).1 = false
  else
    (s.1 = (if family (ip_ a) =? AF_INET then 16 else 28) /\
     exists b, back s.2 = (true, Some b) /\ ip_ b = ip_ a /\ port_ b = port_ a /\ hostname_ b = [] /\
       scope_id_ b = if family (ip_ a) =? AF_INET then 0 else scope_id_ a) /\
    (d.1 = 28 /\
     exists b, back d.2 = (true, Some b) /\ ip_ b = AsIPv6Address (ip_ a) /\
       Normalized (ip_ b) = Normalized (ip_ a) /\ port_ b = port_ a /\ scope_id_ b = scope_id_ a) /\
    (family (ip_ a) = AF_INET ->
     exists b, FromSockAddr (ToSockAddr a) SocketAddress_nil = (true, b) /\ ip_ b = ip_ a /\ port_ b = port_ a).
Proof.
  apply (sockaddr_roundtrip (MkSocketAddress [] (IPAddress_in6 in6addr_loopback) 8080 3 false)).
  split; [by apply in6_ok|split; done|split; done].
Defined.
