(* ===== verification/SockAddrText.v ===== *)
(** * Socket addresses as text

    [SocketAddress::ToString] and [FromString] are inverse, for what the manual
    of inet_ntop and inet_pton says of them ([InetLaws], with an instance). *)

From stdpp Require Import pretty.
From S2P Require Import Prelude Sds CLib ByteOrder StringEncode StringUtils IpAddress SockAddr.
#[local] Open Scope Z_scope.
#[local] Open Scope xrtc_scope.

(** Characters of an address: none of the brackets, and no terminator. *)
Definition addr_char (c : byte) : Prop := c <> x00 /\ c <> x5b /\ c <> x5d.
#[export] Instance addr_char_dec c : Decision (addr_char c).
Proof. unfold addr_char. apply _. Defined.

Class InetLaws `{!Inet} : Prop := {
  ntop4_text b : length b = 4%nat -> exists t, inet_ntop4 b = Some t /\ (length t < 16)%nat /\
    Forall addr_char t /\ x3a ∉ t /\ inet_pton4 t = Some b;
  ntop6_text b : length b = 16%nat -> exists t, inet_ntop6 b = Some t /\ (length t < 46)%nat /\
    Forall addr_char t /\ inet_pton4 t = None /\ inet_pton6 t = Some b;
}.

(** ** Searching and numbers *)

Lemma find_mid s c post : c ∉ s -> find (s ++ c :: post) c = Some (length s).
Proof.
  induction s as [|x s IH]; cbn; intros Hs; [by rewrite decide_True|].
  apply not_elem_of_cons in Hs as [Hne Hs]. rewrite decide_False by congruence. by rewrite IH.
Qed.

Lemma rfind_none s c : c ∉ s -> rfind s c = None.
Proof.
  induction s as [|x s IH]; cbn; intros Hs; [done|]. apply not_elem_of_cons in Hs as [Hne Hs].
  rewrite IH by done. by rewrite decide_False by congruence.
Qed.
Lemma rfind_mid s c post : c ∉ post -> rfind (s ++ c :: post) c = Some (length s).
Proof.
  intros Hp. induction s as [|x s IH]; cbn; [by rewrite rfind_none, decide_True|]. by rewrite IH.
Qed.

Lemma cstr_id s : Forall (fun c => c <> x00) s -> cstr s = s.
Proof. induction 1 as [|c s Hc _ IH]; [done|]. cbn. by rewrite decide_False, IH. Qed.

(** The decimal notation of a number. *)
Definition digit (c : byte) : Prop := 48 <= b2z c <= 57.

Lemma digit_value x : b2z (Ascii.byte_of_ascii (pretty_N_char (x mod 10))) = 48 + Z.of_N (x mod 10).
Proof.
  pose proof (N.mod_lt x 10 ltac:(lia)) as Hx. generalize dependent (x mod 10)%N. intros d Hd.
  assert (d = 0 \/ d = 1 \/ d = 2 \/ d = 3 \/ d = 4 \/ d = 5 \/ d = 6 \/ d = 7 \/ d = 8 \/ d = 9)%N as Hc by lia.
  by repeat (destruct Hc as [->|Hc]); [..|rewrite Hc].
Qed.

Lemma pretty_go_digits x : forall s k, Forall digit (string_bytes s) -> (x < 10 ^ N.of_nat k)%N ->
  dec_prefix 0 (string_bytes (pretty_N_go x s)) = dec_prefix (Z.of_N x) (string_bytes s) /\
  Forall digit (string_bytes (pretty_N_go x s)) /\
  (length (string_bytes (pretty_N_go x s)) <= k + length (string_bytes s))%nat.
Proof.
  induction (N.lt_wf_0 x) as [x _ IH]. intros s k Hs Hk.
  destruct (decide (0 < x)%N) as [Hx|Hx]; [|assert (x = 0%N) as -> by lia; rewrite pretty_N_go_0; split_and!; [done|done|lia]].
  rewrite pretty_N_go_step by done. destruct k as [|k]; [cbn in Hk; lia|].
  pose proof (N.mod_lt x 10 ltac:(lia)) as Hm. pose proof (N2Z.is_nonneg (x mod 10)) as Hm0.
  assert (string_bytes (String (pretty_N_char (x mod 10)) s) = Ascii.byte_of_ascii (pretty_N_char (x mod 10)) :: string_bytes s) as Hcons by done.
  destruct (IH (x / 10)%N ltac:(apply N.div_lt; lia) (String (pretty_N_char (x mod 10)) s) k) as (Hv & Hd & Hl).
  - rewrite Hcons. constructor; [|done]. unfold digit. rewrite digit_value. lia.
  - rewrite Nat2N.inj_succ, N.pow_succ_r in Hk by lia. apply N.Div0.div_lt_upper_bound. lia.
  - rewrite Hcons in Hv, Hl. split_and!; [|done|cbn [length] in Hl; lia].
    rewrite Hv. cbn [dec_prefix]. rewrite digit_value, (proj2 (Z.leb_le 48 _)), (proj2 (Z.leb_le _ 57)) by lia.
    cbn [andb]. f_equal. pose proof (N.Div0.div_mod x 10). lia.
Qed.

(** The text of a port. *)
Definition port_text (p : Z) : list byte := string_bytes (pretty p).

Lemma port_digits p : 0 <= p < 2 ^ 16 ->
  dec_prefix 0 (port_text p) = p /\ Forall digit (port_text p) /\ (length (port_text p) <= 5)%nat /\ port_text p <> [].
Proof.
  intros Hp. destruct (decide (p = 0)) as [->|Hne].
  { split_and!; [done|by repeat constructor|cbn; lia|done]. }
  assert (port_text p = string_bytes (pretty_N_go (Z.to_N p) "")) as Ht.
  { unfold port_text. destruct p as [|p|p]; [done| |lia]. change (pretty (Z.pos p)) with (pretty (N.pos p)).
    unfold pretty, pretty_N. by rewrite decide_False. }
  destruct (pretty_go_digits (Z.to_N p) "" 5) as (Hv & Hd & Hl); [constructor|cbn; lia|].
  rewrite <- Ht in *. cbn in Hv, Hl. split_and!; [rewrite Hv; lia|done|lia|].
  intros Hnil. rewrite Hnil in Hv. cbn in Hv. lia.
Qed.

Lemma strtoul_digits s : Forall digit s -> s <> [] -> 0 <= dec_prefix 0 s < 2 ^ 64 -> strtoul s = dec_prefix 0 s.
Proof.
  intros Hd Hne Hr. unfold strtoul.
  assert (cstr s = s) as ->.
  { clear -Hd. induction Hd as [|c s Hc _ IH]; [done|]. cbn. rewrite decide_False, IH; [done|]. intros ->. unfold digit in Hc. cbn in Hc. lia. }
  destruct Hd as [|c s Hc Hs]; [done|].
  assert (skip_space (c :: s) = c :: s) as -> by
    (unfold digit in Hc; cbn [skip_space]; rewrite (proj2 (Z.eqb_neq _ 32)), (proj2 (Z.leb_gt _ 13)), andb_false_r by lia; done).
  assert (match c :: s with x2d :: s' => (true, s') | x2b :: s' => (false, s') | _ => (false, c :: s) end = (false, c :: s)) as ->
    by (destruct c; try done; unfold digit in Hc; cbn in Hc; lia).
  by rewrite (proj2 (Z.leb_gt (2 ^ 64) (dec_prefix 0 (c :: s)))) by lia.
Qed.

Lemma port_text_ok p : 0 <= p < 2 ^ 16 ->
  strtoul (port_text p) = p /\ Forall digit (port_text p) /\ (length (port_text p) <= 5)%nat.
Proof.
  intros Hp. destruct (port_digits p Hp) as (Hv & Hd & Hl & Hne). split; [|done].
  rewrite strtoul_digits; [done|done|done|]. rewrite Hv. lia.
Qed.

Lemma digits_char c : digit c -> c <> x00 /\ c <> x5d.
Proof. unfold digit. intros Hc. split; intros ->; cbn in Hc; lia. Qed.

(** ** Writing and reading *)

(** Cutting before and after appending is cutting once. *)
Lemma take_cut {A} n (s t : list A) : take n (take n s ++ t) = take n (s ++ t).
Proof.
  destruct (decide (length s <= n)%nat) as [Hle|Hgt]; [by rewrite (take_ge s n)|].
  rewrite take_app_le by (rewrite length_take; lia). rewrite take_app_le by lia. by rewrite take_take, Nat.min_id.
Qed.

(** What the builder of 1024 characters makes of a host and a port: the text, cut
    to the 1023 characters that fit. *)
Lemma host_port_cut buf host p : length buf = 1024%nat ->
  Forall (fun c => c <> x00) host -> 0 <= p < 2 ^ 16 ->
  host_port buf host p = Ret (take 1023 (host ++ x3a :: port_text p)).
Proof.
  intros Hb Hh Hp. destruct (port_text_ok p Hp) as (_ & Hd & Hpl). unfold host_port.
  destruct (new_builder_ok buf) as (sb0 & He0 & Hok0 & Hl0); [lia|]. rewrite He0. cbn [mbind res_bind].
  destruct (append_text sb0 [] host _ Hok0 eq_refl) as (sb1 & He1 & Hok1 & Hl1). unfold put_string. rewrite He1.
  cbn [mbind res_bind app] in *. rewrite Hl0, Hb in Hok1. change (1024 - 1)%nat with 1023%nat in Hok1.
  assert (put_cstr (string_bytes ":" ++ [x00]) sb1 = Append [x3a] 1 sb1) as ->.
  { unfold put_cstr. cbn [mbind res_bind]. change (strlen _) with (Ret 1). cbn [mbind res_bind].
    unfold Append, load. destruct (Z.min_spec 1 (u64 (buffer_size sb1 - size_ sb1 - 1))) as [[H1 ->]|[H1 ->]]; [done|].
    pose proof (u64_range (buffer_size sb1 - size_ sb1 - 1)).
    assert (u64 (buffer_size sb1 - size_ sb1 - 1) = 0 \/ u64 (buffer_size sb1 - size_ sb1 - 1) = 1) as [-> | ->] by lia; done. }
  destruct (append_text sb1 _ [x3a] 1 Hok1 eq_refl) as (sb2 & He2 & Hok2 & Hl2). rewrite He2.
  cbn [mbind res_bind]. rewrite Hl1, Hl0, Hb in Hok2. change (1024 - 1)%nat with 1023%nat in Hok2.
  destruct (format_text sb2 _ (port_text p) Hok2) as (sb3 & He3 & Hok3 & Hl3). unfold put_int. fold (port_text p). rewrite He3.
  cbn [mbind res_bind]. rewrite Hl2, Hl1, Hl0, Hb in Hok3. change (1024 - 1)%nat with 1023%nat in Hok3.
  rewrite take_cut, <- app_assoc, take_cut in Hok3. cbn [app] in Hok3. apply str_text; [done|].
  apply Forall_take, Forall_app. split; [done|]. constructor; [done|].
  eapply Forall_impl; [exact Hd|]. intros c Hc. by apply digits_char.
Qed.

Lemma host_port_text buf host p : length buf = 1024%nat -> (length host + 1 + length (port_text p) <= 1023)%nat ->
  Forall (fun c => c <> x00) host -> 0 <= p < 2 ^ 16 ->
  host_port buf host p = Ret (host ++ x3a :: port_text p).
Proof. intros Hb Hl Hh Hp. rewrite host_port_cut by done. by rewrite take_ge by (rewrite length_app; cbn; lia). Qed.

Section laws.
Context `{!Inet}.

(** Without brackets: up to the first colon. *)
Lemma FromString_plain host p a : x3a ∉ host -> head host <> Some x5b -> 0 <= p < 2 ^ 16 ->
  FromString (host ++ x3a :: port_text p) a = Ret (true, SetIP_name host (SetPort p a)).
Proof.
  intros Hc Hh Hp. destruct (port_text_ok p Hp) as (Hs & _ & _).
  assert (forall s, head s <> Some x5b -> s <> [] -> FromString s a =
    match find s x3a with
    | None => Ret (false, a)
    | Some pos => Ret (true, SetIP_name (take pos s) (SetPort (i32 (strtoul (drop (pos + 1) s))) a))
    end) as Heq.
  { intros [|c s] Hhs Hne; [done|]. cbn [FromString]. rewrite decide_False; [by destruct (find _ _)|]. intros ->. by apply Hhs. }
  rewrite Heq; [|by destruct host|by destruct host].
  rewrite find_mid, take_app_length by done. rewrite drop_app_ge by lia.
  replace (length host + 1 - length host)%nat with 1%nat by lia. cbn [drop]. rewrite drop_0, Hs, i32_small by lia. done.
Qed.

Lemma FromString_bracket t p a : 0 <= p < 2 ^ 16 ->
  FromString (x5b :: t ++ x5d :: x3a :: port_text p) a = Ret (true, SetIP_name t (SetPort p a)).
Proof.
  intros Hp. destruct (port_text_ok p Hp) as (Hs & Hd & _). cbn [FromString]. rewrite decide_True by done.
  assert (x5d ∉ x3a :: port_text p) as Hn.
  { apply not_elem_of_cons. split; [done|]. intros Hin. rewrite Forall_forall in Hd. apply Hd in Hin. unfold digit in Hin. cbn in Hin. lia. }
  change (x5b :: t ++ x5d :: x3a :: port_text p) with ((x5b :: t) ++ x5d :: x3a :: port_text p).
  rewrite rfind_mid by done. rewrite drop_app_length. cbn [find]. rewrite decide_False, decide_True by done.
  cbn [option_map]. rewrite (proj2 (Nat.ltb_lt _ _)) by lia.
  rewrite (drop_app_ge (x5b :: t) _ (length (x5b :: t) + 1 + 1)) by lia.
  replace (_ - length (x5b :: t))%nat with 2%nat by lia. cbn [drop app].
  rewrite !drop_0, Hs, i32_small by lia. cbn [length]. rewrite Nat.sub_succ, Nat.sub_0_r, take_app_length. done.
Qed.

(** An address literal. *)
Lemma literal_back `{!InetLaws} ip i0 : ip_ok ip -> family ip <> AF_UNSPEC ->
  (length (ToString ip) < 46)%nat /\ Forall addr_char (ToString ip) /\
  (family ip <> AF_INET6 -> x3a ∉ ToString ip) /\ IPFromString (ToString ip) (Some i0) = (true, Some ip).
Proof.
  intros Hip Hf. assert (forall t, Forall addr_char t -> cstr t = t) as Hcs.
  { intros t Ht. apply cstr_id. eapply Forall_impl; [exact Ht|]. by intros c [Hc _]. }
  destruct (ip_viewP _ Hip) as [|ip4 Hl|ip6 Hl]; [done| |].
  - destruct (ntop4_text ip4 Hl) as (t & Ht & Hlt & Hch & Hcol & Hpt).
    assert (ToString (IPAddress_in ip4) = t) as ->.
    { unfold ToString. cbn -[ipv4_address]. by rewrite address_in, Ht. }
    split_and!; [lia|done|done|]. unfold IPFromString. by rewrite Hcs, Hpt.
  - destruct (ntop6_text ip6 Hl) as (t & Ht & Hlt & Hch & Hp4 & Hp6).
    assert (ToString (IPAddress_in6 ip6) = t) as -> by (unfold ToString; cbn; by rewrite Ht).
    split_and!; [lia|done|done|]. unfold IPFromString. by rewrite Hcs, Hp4, Hp6.
Qed.

(** What the reader becomes. *)
Lemma literal_eq t a a0 : sa_ok a -> family (ip_ a) <> AF_UNSPEC ->
  IPFromString t (Some (ip_ (SetPort (port_ a) a0))) = (true, Some (ip_ a)) ->
  let b := SetIP_name t (SetPort (port_ a) a0) in
  ip_ b = ip_ a /\ port_ b = port_ a /\ hostname_ b = t /\ literal_ b = true /\
  (sa_eq b a = true <-> IPIsAny (ip_ a) = false \/ hostname_ a = t).
Proof.
  intros [Hip Hport _] Hf Hfrom. cbv zeta. unfold SetIP_name. rewrite Hfrom. cbn [negb].
  unfold SetPort, sa_eq, EqualIPs, EqualPorts. cbn [ip_ hostname_ port_ literal_ default].
  rewrite (wrapU_small 16 (port_ a)), Z.eqb_refl by lia. split_and!; [done..|].
  cbn. rewrite (proj2 (ip_eq_iff (ip_ a) (ip_ a) Hip Hip)) by done. unfold IPIsUnspec. rewrite (proj2 (Z.eqb_neq _ _)) by done.
  cbn [negb andb]. rewrite !andb_true_r, orb_true_iff, negb_true_iff, bool_decide_eq_true. naive_solver.
Qed.

(** The text of a literal, read back. *)
Lemma literal_text `{!InetLaws} buf a a0 : sa_ok a -> length buf = 1024%nat -> family (ip_ a) <> AF_UNSPEC ->
  exists s, host_port buf (if family (ip_ a) =? AF_INET6 then [x5b] ++ ToString (ip_ a) ++ [x5d] else ToString (ip_ a)) (port_ a) = Ret s /\
    FromString s a0 = Ret (true, SetIP_name (ToString (ip_ a)) (SetPort (port_ a) a0)) /\
    IPFromString (ToString (ip_ a)) (Some (ip_ (SetPort (port_ a) a0))) = (true, Some (ip_ a)).
Proof.
  intros [Hip Hport _] Hbuf Hf. destruct (port_text_ok _ Hport) as (_ & _ & Hpl).
  destruct (literal_back (ip_ a) (ip_ (SetPort (port_ a) a0)) Hip Hf) as (Hl & Hch & Hcol & Hfrom).
  assert (Forall (fun c => c <> x00) (ToString (ip_ a))) as Hnul by (eapply Forall_impl; [exact Hch|]; by intros c [Hc _]).
  destruct (Z.eqb_spec (family (ip_ a)) AF_INET6) as [H6|H4].
  - rewrite host_port_text; [|done| | |done].
    + eexists. split; [reflexivity|]. split; [|exact Hfrom]. rewrite <- !app_assoc. by apply FromString_bracket.
    + rewrite !length_app. cbn. lia.
    + apply Forall_app. split; [by repeat constructor|]. apply Forall_app. split; [done|by repeat constructor].
  - rewrite host_port_text; [|done|lia|done..].
    eexists. split; [reflexivity|]. split; [|exact Hfrom]. apply FromString_plain; [by apply Hcol| |done]. intros Hhd.
    destruct (ToString (ip_ a)); [done|]. injection Hhd as ->. by inversion Hch as [|? ? (_ & Hb & _)]; subst.
Qed.

(** C36: The text of a socket address is read back by [FromString], whatever the
    object that reads it held.  A literal of either family, one that was set from
    its text included, is written with brackets for IPv6 and comes back with the
    same address and port, as a literal whose hostname is the text of the
    address; it is equal to the original under [==], except that of the any
    address the hostnames count too.  A hostname comes back with its port,
    unresolved, if the text fits 1023 characters, it has no zero byte, no colon
    and no bracket at its start, and is no address literal.  The buffer of 1024
    characters never overflows: a longer text is cut to 1023 characters. *)
Theorem sockaddr_text_roundtrip `{!InetLaws} buf a a0 :
  sa_ok a -> length buf = 1024%nat ->
  (literal_ a = true \/ hostname_ a = [] -> family (ip_ a) <> AF_UNSPEC ->
   exists s b, SocketAddress_ToString buf a = Ret s /\ FromString s a0 = Ret (true, b) /\
     ip_ b = ip_ a /\ port_ b = port_ a /\ hostname_ b = ToString (ip_ a) /\ literal_ b = true /\
     (sa_eq b a = true <-> IPIsAny (ip_ a) = false \/ hostname_ a = ToString (ip_ a))) /\
  (literal_ a = false -> hostname_ a <> [] -> Forall (fun c => c <> x00) (hostname_ a) ->
   SocketAddress_ToString buf a = Ret (take 1023 (hostname_ a ++ x3a :: port_text (port_ a))) /\
   ((length (hostname_ a ++ x3a :: port_text (port_ a)) <= 1023)%nat ->
    x3a ∉ hostname_ a -> head (hostname_ a) <> Some x5b ->
    inet_pton4 (hostname_ a) = None -> inet_pton6 (hostname_ a) = None ->
    exists b, FromString (hostname_ a ++ x3a :: port_text (port_ a)) a0 = Ret (true, b) /\
     hostname_ b = hostname_ a /\ port_ b = port_ a /\ IsUnresolvedIP b = true)).
Proof.
  intros Ha Hbuf. pose proof Ha as [_ Hport _]. unfold SocketAddress_ToString, HostAsURIString. split.
  - intros Hlit Hf. assert (negb (literal_ a) && negb (bool_decide (hostname_ a = [])) = false) as ->.
    { destruct Hlit as [-> | ->]; [done|]. by rewrite bool_decide_true, andb_false_r. }
    destruct (literal_text buf a a0 Ha Hbuf Hf) as (s & Hs & Hfr & Hip). eexists s, _. split; [exact Hs|].
    split; [exact Hfr|]. by apply literal_eq.
  - intros Hlit Hne Hnul. rewrite Hlit, bool_decide_false by done. cbn [negb andb].
    rewrite host_port_cut by done. split; [done|]. intros Hlen Hcol Hhd H4 H6.
    eexists. split; [by apply FromString_plain|].
    unfold SetIP_name, IPFromString, SetPort. rewrite cstr_id, H4, H6 by done. cbn.
    split_and!; [done|by apply (wrapU_small 16)|]. unfold IsUnresolvedIP. cbn. by rewrite bool_decide_false.
Qed.
End laws.

(** ** An instance

    Dotted decimals, and eight groups of four hexadecimal digits. *)

Definition byte_of_dec (s : list byte) : option byte :=
  let v := dec_prefix 0 s in if decide (v < 256 /\ port_text v = s) then Some (z2b v) else None.
Definition hex2 (b : byte) : list byte := [hex_encode (Z.land (Z.shiftr (b2z b) 4) 15); hex_encode (Z.land (b2z b) 15)].
Definition byte_of_hex2 (h l : byte) : option byte :=
  hi ← hex_decode h; lo ← hex_decode l; Some (z2b (Z.lor (Z.shiftl hi 4) lo)).
Fixpoint hex_groups (bs : list byte) : list (list byte) :=
  match bs with a :: b :: bs => (hex2 a ++ hex2 b) :: hex_groups bs | _ => [] end.
Definition group_bytes (g : list byte) : option (list byte) :=
  match g with
  | [a; b; c; d] => x ← byte_of_hex2 a b; y ← byte_of_hex2 c d; Some [x; y]
  | _ => None
  end.
Definition sim_pton4 (t : list byte) : option (list byte) :=
  let fs := StringEncode.split t x2e in if decide (length fs = 4%nat) then mapM byte_of_dec fs else None.
Definition sim_pton6 (t : list byte) : option (list byte) :=
  let fs := StringEncode.split t x3a in
  if decide (length fs = 8%nat) then gs ← mapM group_bytes fs; Some (concat gs) else None.

#[export] Instance sim_inet : Inet := {|
  inet_pton4 := sim_pton4;
  inet_pton6 := sim_pton6;
  inet_ntop4 b := Some (join (map (fun x => port_text (b2z x)) b) x2e);
  inet_ntop6 b := Some (join (hex_groups b) x3a);
|}.

Lemma digit_addr c : digit c -> addr_char c.
Proof. unfold digit, addr_char. intros Hc. split_and!; intros ->; cbn in Hc; lia. Qed.
Lemma digit_not c x : digit c -> ~ digit x -> x <> c.
Proof. by intros ? ? ->. Qed.
Lemma digits_not s x : Forall digit s -> ~ digit x -> x ∉ s.
Proof. intros Hs Hx Hin. rewrite Forall_forall in Hs. by apply Hx, Hs. Qed.

Lemma dec_byte b :
  byte_of_dec (port_text (b2z b)) = Some b /\ Forall digit (port_text (b2z b)) /\ (length (port_text (b2z b)) <= 3)%nat.
Proof.
  pose proof (b2z_range b) as Hr. destruct (port_digits (b2z b)) as (Hv & Hd & _ & _); [lia|]. split_and!; [|done|].
  - unfold byte_of_dec. rewrite Hv, decide_True by (split; [lia|done]). by rewrite z2b_b2z.
  - destruct b; vm_compute; lia.
Qed.

Lemma hex2_ok b : exists h l, hex2 b = [h; l] /\ byte_of_hex2 h l = Some b /\ addr_char h /\ addr_char l /\
  h <> x3a /\ l <> x3a /\ h <> x2e /\ l <> x2e.
Proof. eexists _, _. split; [reflexivity|]. destruct b; split_and!; by vm_compute. Qed.

Lemma split_of_join d f fs : d ∉ f -> Forall (fun x => d ∉ x) fs -> StringEncode.split (join (f :: fs) d) d = f :: fs.
Proof. apply split_join_loop. Qed.

Lemma dotted_text a b c d :
  let t := join (map (fun x => port_text (b2z x)) [a; b; c; d]) x2e in
  (length t < 16)%nat /\ Forall addr_char t /\ x3a ∉ t /\ sim_pton4 t = Some [a; b; c; d].
Proof.
  intros t.
  destruct (dec_byte a) as (Ha & Da & La), (dec_byte b) as (Hb & Db & Lb), (dec_byte c) as (Hc & Dc & Lc),
    (dec_byte d) as (Hd & Dd & Ld).
  assert (forall x s, ~ digit x -> Forall digit s -> x ∉ s) as Hnot by (intros; by apply digits_not).
  assert (~ digit x2e /\ ~ digit x3a) as [He Hc3] by (unfold digit; cbn; lia).
  assert (forall s, Forall digit s -> Forall addr_char s) as Hch by (intros s Hs; eapply Forall_impl; [exact Hs|apply digit_addr]).
  assert (t = port_text (b2z a) ++ x2e :: port_text (b2z b) ++ x2e :: port_text (b2z c) ++ x2e :: port_text (b2z d)) as Ht.
  { unfold t, join. cbn [map join_loop app]. by rewrite app_nil_r. }
  split_and!.
  - rewrite Ht. rewrite !length_app; cbn [length]; rewrite !length_app; cbn [length]; rewrite !length_app; cbn [length]. lia.
  - rewrite Ht. assert (addr_char x2e) by by vm_compute.
    repeat first [apply Forall_app_2|apply Forall_cons_2]; auto.
  - rewrite Ht. repeat (rewrite not_elem_of_app || rewrite not_elem_of_cons). split_and!; first [by apply Hnot|done].
  - unfold sim_pton4, t. cbn [map]. rewrite split_of_join by (repeat constructor; by apply Hnot).
    rewrite decide_True by done. cbn [mapM]. unfold mbind, option_bind. by rewrite Ha, Hb, Hc, Hd.
Qed.

(** A group of an IPv6 address. *)
Lemma group_ok a b :
  group_bytes (hex2 a ++ hex2 b) = Some [a; b] /\ length (hex2 a ++ hex2 b) = 4%nat /\
  Forall (fun c => addr_char c /\ c <> x3a /\ c <> x2e) (hex2 a ++ hex2 b).
Proof.
  destruct (hex2_ok a) as (h & l & -> & Ha & A1 & A2 & A3 & A4 & A5 & A6),
    (hex2_ok b) as (h' & l' & -> & Hb & B1 & B2 & B3 & B4 & B5 & B6).
  split; [cbn; unfold mbind, option_bind; by rewrite Ha, Hb|]. split; [done|]. cbn [app].
  exact (Forall_cons_2 _ _ _ (conj A1 (conj A3 A5)) (Forall_cons_2 _ _ _ (conj A2 (conj A4 A6))
    (Forall_cons_2 _ _ _ (conj B1 (conj B3 B5)) (Forall_cons_2 _ _ _ (conj B2 (conj B4 B6)) (Forall_nil_2 _))))).
Qed.

Lemma join_chars P fs d : Forall (Forall P) fs -> P d -> forall first, Forall P (join_loop fs d first).
Proof.
  intros Hfs Hd. induction Hfs as [|f fs Hf _ IH]; intros first; [constructor|]. cbn [join_loop].
  apply Forall_app_2; [destruct first; by repeat constructor|]. by apply Forall_app_2.
Qed.

Lemma grouped_text b0 b1 b2 b3 b4 b5 b6 b7 b8 b9 b10 b11 b12 b13 b14 b15 :
  let bs := [b0; b1; b2; b3; b4; b5; b6; b7; b8; b9; b10; b11; b12; b13; b14; b15] in
  let t := join (hex_groups bs) x3a in
  (length t < 46)%nat /\ Forall addr_char t /\ sim_pton4 t = None /\ sim_pton6 t = Some bs.
Proof.
  intros bs t.
  assert (Forall (fun g => Forall (fun c => addr_char c /\ c <> x3a /\ c <> x2e) g) (hex_groups bs)) as Hg
    by (unfold bs; cbn [hex_groups]; repeat (apply Forall_cons_2; [apply group_ok|]); apply Forall_nil_2).
  assert (Forall (fun c => addr_char c /\ c <> x2e) t) as Ht.
  { apply join_chars; [|by vm_compute]. eapply Forall_impl; [exact Hg|]. intros g Hgg. eapply Forall_impl; [exact Hgg|]. by intros c (Hc & _ & Hd). }
  split_and!.
  - cbn. lia.
  - eapply Forall_impl; [exact Ht|]. by intros c [Hc _].
  - unfold sim_pton4. assert (StringEncode.split t x2e = [t]) as ->; [|done].
    rewrite <- (app_nil_r t) at 1. unfold StringEncode.split. rewrite split_loop_app; [done|].
    intros Hin. rewrite Forall_forall in Ht. by apply Ht in Hin as [_ ?].
  - unfold sim_pton6. assert (StringEncode.split t x3a = hex_groups bs) as ->.
    { apply split_of_join.
      - apply Forall_inv in Hg. intros Hin. rewrite Forall_forall in Hg. by apply Hg in Hin as (_ & ? & _).
      - apply Forall_inv_tail in Hg. eapply Forall_impl; [exact Hg|]. intros g Hgg Hin. rewrite Forall_forall in Hgg.
        by apply Hgg in Hin as (_ & ? & _). }
    rewrite decide_True by done.
    assert (mapM group_bytes (hex_groups bs) = Some [[b0; b1]; [b2; b3]; [b4; b5]; [b6; b7]; [b8; b9]; [b10; b11]; [b12; b13]; [b14; b15]]) as ->; [|done].
    apply mapM_Some. unfold bs. cbn [hex_groups]. repeat (apply Forall2_cons_2; [apply group_ok|]). apply Forall2_nil_2.
Qed.

#[export] Instance sim_inet_laws : InetLaws.
Proof.
  split; intros b Hb; explode Hb; eexists; (split; [reflexivity|]).
  - apply dotted_text.
  - apply grouped_text.
Qed.

(** An address set from its text, and a hostname. *)
Definition sim_literal : SocketAddress := SetPort 8080 (SetIP_name (string_bytes "192.168.0.17") SocketAddress_nil).
Definition sim_named : SocketAddress := MkSocketAddress (string_bytes "example.org") IPAddress_nil 443 0 false.

Lemma sockaddr_text_roundtrip_witness :
  let buf := repeat xff 1024 in
  literal_ sim_literal = true /\ SocketAddress_ToString buf sim_literal = Ret (string_bytes "192.168.0.17:8080") /\
  (exists s b, SocketAddress_ToString buf sim_literal = Ret s /\ FromString s SocketAddress_nil = Ret (true, b) /\
     ip_ b = ip_ sim_literal /\ port_ b = port_ sim_literal /\ hostname_ b = ToString (ip_ sim_literal) /\ literal_ b = true /\
     (sa_eq b sim_literal = true <-> IPIsAny (ip_ sim_literal) = false \/ hostname_ sim_literal = ToString (ip_ sim_literal))) /\
  (exists b, FromString (hostname_ sim_named ++ x3a :: port_text (port_ sim_named)) SocketAddress_nil = Ret (true, b) /\
     hostname_ b = hostname_ sim_named /\ port_ b = port_ sim_named /\ IsUnresolvedIP b = true).
Proof.
  split; [by vm_compute|]. split; [by vm_compute|]. split.
  - apply (sockaddr_text_roundtrip (repeat xff 1024) sim_literal SocketAddress_nil).
    + split; [|by vm_compute|by vm_compute]. assert (ip_ sim_literal = IPAddress_in (map z2b [192; 168; 0; 17])) as -> by by vm_compute. by apply in_ok.
    + done.
    + left. by vm_compute.
    + by vm_compute.
  - apply (sockaddr_text_roundtrip (repeat xff 1024) sim_named SocketAddress_nil).
    + split; [apply nil_ok|by vm_compute|by vm_compute].
    + done.
    + done.
    + done.
    + apply (bool_decide_unpack _). by vm_compute.
    + apply Nat.leb_le. by vm_compute.
    + apply (bool_decide_unpack _). by vm_compute.
    + done.
    + by vm_compute.
    + by vm_compute.
Defined.

(** ** What [FromString] makes of other texts *)

(** An opening bracket without a closing one: true, and nothing is set. *)
Example from_unclosed : FromString (string_bytes "[::1") SocketAddress_nil = Ret (true, SocketAddress_nil).
Proof. reflexivity. Qed.

(** No characters: [at] throws. *)
Example from_empty : FromString [] SocketAddress_nil = Abort.
Proof. reflexivity. Qed.

(** A port is taken modulo 2^16, and no digits are port 0. *)
Example from_large_port : exists b, FromString (string_bytes "10.0.0.1:65616") SocketAddress_nil = Ret (true, b) /\ port_ b = 80.
Proof. eexists. split; [vm_compute; reflexivity|done]. Qed.

(** An IPv6 literal without brackets is cut at its first colon. *)
Example from_bare_v6 : exists b, FromString (string_bytes "fe80::1") SocketAddress_nil = Ret (true, b) /\
  hostname_ b = string_bytes "fe80" /\ port_ b = 0.
Proof. eexists. split; [vm_compute; reflexivity|done]. Qed.
