(* ===== verification/PhysSocket.v ===== *)
(** * [rtc_base/physical_socket_server.cc]: sockets and their registration

    [PhysicalSocket] and [SocketDispatcher], the one class that is used, with
    the tables in which [PhysicalSocketServer] keeps its dispatchers.  The
    platform is macOS: no epoll, [select] waits (SocketServer.v).  What system
    calls answer is a script that the calls consume; a script that does not fit
    the calls made ends the run as fuel does.  The signals of a socket are
    emitted in SocketServer.v; the resolver of host names is a name in
    [resolver_]. *)

From stdpp Require Import gmap.
From S2P Require Import Prelude IpAddress SockAddr.
#[local] Open Scope Z_scope.
#[local] Open Scope xrtc_scope.

(** ** Constants *)

Definition INVALID_SOCKET : Z := -1.
Definition SOCKET_ERROR : Z := -1.
Definition SOCK_STREAM : Z := 1.
Definition SOCK_DGRAM : Z := 2.
Definition DE_READ : Z := 1.
Definition DE_WRITE : Z := 2.
Definition DE_CONNECT : Z := 4.
Definition DE_CLOSE : Z := 8.
Definition DE_ACCEPT : Z := 16.
(** <errno.h> of macOS. *)
Definition EINTR : Z := 4.
Definition EBADF : Z := 9.
Definition EWOULDBLOCK : Z := 35.
Definition EAGAIN : Z := 35.
Definition EINPROGRESS : Z := 36.
Definition EALREADY : Z := 37.
Definition ECONNRESET : Z := 54.
Definition ENOBUFS : Z := 55.

Definition IsBlockingError (e : Z) : bool := (e =? EWOULDBLOCK) || (e =? EAGAIN) || (e =? EINPROGRESS).

(** ** Data *)

Inductive ConnState := CS_CLOSED | CS_CONNECTING | CS_CONNECTED.

(** [udp_] is not initialised by the constructor for [INVALID_SOCKET]. *)
Record PhysicalSocket := MkPhysicalSocket {
  s_ : Z;
  udp_ : option bool;
  ps_family_ : Z;
  error_ : Z;
  state_ : ConnState;
  resolver_ : option loc;
  enabled_events_ : Z;
}.
Definition set_s (s : Z) (x : PhysicalSocket) := MkPhysicalSocket s (udp_ x) (ps_family_ x) (error_ x) (state_ x) (resolver_ x) (enabled_events_ x).
Definition set_udp (u : bool) (x : PhysicalSocket) := MkPhysicalSocket (s_ x) (Some u) (ps_family_ x) (error_ x) (state_ x) (resolver_ x) (enabled_events_ x).
Definition set_ps_family (f : Z) (x : PhysicalSocket) := MkPhysicalSocket (s_ x) (udp_ x) f (error_ x) (state_ x) (resolver_ x) (enabled_events_ x).
Definition SetError (error : Z) (x : PhysicalSocket) := MkPhysicalSocket (s_ x) (udp_ x) (ps_family_ x) error (state_ x) (resolver_ x) (enabled_events_ x).
Definition set_state (st : ConnState) (x : PhysicalSocket) := MkPhysicalSocket (s_ x) (udp_ x) (ps_family_ x) (error_ x) st (resolver_ x) (enabled_events_ x).
Definition set_resolver (r : option loc) (x : PhysicalSocket) := MkPhysicalSocket (s_ x) (udp_ x) (ps_family_ x) (error_ x) (state_ x) r (enabled_events_ x).
Definition SetEnabledEvents (events : Z) (x : PhysicalSocket) := MkPhysicalSocket (s_ x) (udp_ x) (ps_family_ x) (error_ x) (state_ x) (resolver_ x) events.
Definition EnableEvents (events : Z) (x : PhysicalSocket) := SetEnabledEvents (Z.lor (enabled_events_ x) events) x.
Definition DisableEvents (events : Z) (x : PhysicalSocket) := SetEnabledEvents (Z.land (enabled_events_ x) (u8 (Z.lnot events))) x.

(** A [Dispatcher*]: a socket, or ([None]) the [Signaler] of the server. *)
Notation dispatcher := (option loc).
Definition signal_wakeup_ : dispatcher := None.

(** Answers of the system: a descriptor or -1; a result, with [errno]; what
    [select] leaves in the two sets; the clock. *)
Inductive sysres :=
  | RSock (fd errno : Z) | RRet (ret errno : Z)
  | RSelect (n errno : Z) (fdsRead fdsWrite : list Z) | RTime (us : Z).

(** The signals of a socket, as a handler sees them. *)
Inductive signal_kind := SignalConnectEvent | SignalReadEvent | SignalWriteEvent | SignalCloseEvent (err : Z).

(** What happened: a [select] with the keys, dispatchers and descriptors it was
    called for and the descriptors it found ready; a call of [OnEvent] from its
    loop; a signal; [Destroy] of a resolver; a [Wait] that returns. *)
Inductive sock_event :=
  | ESelect (asked : list (Z * dispatcher * Z)) (rd wr : list Z)
  | EOnEvent (key : Z) (d : dispatcher) (fd ff : Z)
  | ESignal (p : loc) (k : signal_kind)
  | EDestroy (r : loc)
  | EWaited (ok : bool).

Record PhysicalSocketServer := MkServer {
  socks : gmap loc PhysicalSocket;             (* the living [SocketDispatcher] objects *)
  dispatcher_by_key_ : gmap Z dispatcher;
  key_by_dispatcher_ : gmap dispatcher Z;
  next_dispatcher_key_ : Z;
  fSignaled_ : bool;                           (* of [signal_wakeup_] *)
  fWait_ : bool;
  waiting_ : bool;
  script : list sysres;
  sock_events : list sock_event;
}.
Notation server := PhysicalSocketServer.

Definition upd_socks (f : gmap loc PhysicalSocket -> gmap loc PhysicalSocket) (w : server) : server :=
  MkServer (f (socks w)) (dispatcher_by_key_ w) (key_by_dispatcher_ w) (next_dispatcher_key_ w) (fSignaled_ w) (fWait_ w) (waiting_ w) (script w) (sock_events w).
Definition set_tables (m : gmap Z dispatcher) (m' : gmap dispatcher Z) (k : Z) (w : server) : server :=
  MkServer (socks w) m m' k (fSignaled_ w) (fWait_ w) (waiting_ w) (script w) (sock_events w).
Definition set_flags (sig wait waiting : bool) (w : server) : server :=
  MkServer (socks w) (dispatcher_by_key_ w) (key_by_dispatcher_ w) (next_dispatcher_key_ w) sig wait waiting (script w) (sock_events w).
Definition set_script (l : list sysres) (w : server) : server :=
  MkServer (socks w) (dispatcher_by_key_ w) (key_by_dispatcher_ w) (next_dispatcher_key_ w) (fSignaled_ w) (fWait_ w) (waiting_ w) l (sock_events w).
Definition log_event (e : sock_event) (w : server) : server :=
  MkServer (socks w) (dispatcher_by_key_ w) (key_by_dispatcher_ w) (next_dispatcher_key_ w) (fSignaled_ w) (fWait_ w) (waiting_ w) (script w) (sock_events w ++ [e]).

Definition get_sock (p : loc) : M server PhysicalSocket :=
  w ← get; match socks w !! p with Some x => mret x | None => ub_ UseAfterFree end.
Definition on_sock (p : loc) (f : PhysicalSocket -> PhysicalSocket) : M server unit :=
  x ← get_sock p; modify (upd_socks (insert p (f x))).

(** ** System calls *)

Definition next_answer : M server sysres :=
  w ← get; match script w with [] => lift OutOfFuel | r :: l => _ ← put (set_script l w); mret r end.
Definition sys_ret : M server (Z * Z) :=
  r ← next_answer; match r with RRet ret errno => mret (ret, errno) | _ => lift OutOfFuel end.
Definition sys_socket : M server (Z * Z) :=
  r ← next_answer; match r with RSock fd errno => mret (fd, errno) | _ => lift OutOfFuel end.

(** [UpdateLastError]: after a call that set [errno]. *)
Definition UpdateLastError (p : loc) (errno : Z) : M server unit := on_sock p (SetError errno).

(** ** The tables of the server *)

(** [emplace]: nothing happens when the key is there. *)
Definition emplace {K V} `{Countable K} (k : K) (v : V) (m : gmap K V) : gmap K V :=
  match m !! k with Some _ => m | None => <[k := v]> m end.

Definition AddDispatcher (d : dispatcher) : M server unit :=
  w ← get;
  match key_by_dispatcher_ w !! d with
  | Some _ => mret tt
  | None =>
      let key := next_dispatcher_key_ w in
      modify (set_tables (emplace key d (dispatcher_by_key_ w)) (emplace d key (key_by_dispatcher_ w)) (u64 (key + 1)))
  end.
Definition RemoveDispatcher (d : dispatcher) : M server unit :=
  w ← get;
  match key_by_dispatcher_ w !! d with
  | None => mret tt
  | Some key => modify (set_tables (delete key (dispatcher_by_key_ w)) (delete d (key_by_dispatcher_ w)) (next_dispatcher_key_ w))
  end.

(** The server begins with its [Signaler], which its constructor adds; [answers]:
    what the system will answer. *)
Definition new_server (answers : list sysres) : server := MkServer ∅ ∅ ∅ 0 false false false answers [].
Definition PhysicalSocketServer_new : M server unit := AddDispatcher signal_wakeup_.

(** ** Sockets *)

(** [SocketDispatcher::Close], with [PhysicalSocket::Close]. *)
Definition sd_Close (p : loc) : M server Z :=
  x ← get_sock p;
  if s_ x =? INVALID_SOCKET then mret 0
  else
    _ ← RemoveDispatcher (Some p);
    r ← sys_ret;
    _ ← UpdateLastError p r.2;
    _ ← on_sock p (set_s INVALID_SOCKET);
    _ ← on_sock p (set_state CS_CLOSED);
    _ ← on_sock p (SetEnabledEvents 0);
    x ← get_sock p;
    _ ← (match resolver_ x with
         | Some r => _ ← modify (log_event (EDestroy r)); on_sock p (set_resolver None)
         | None => mret tt
         end);
    mret r.1.

(** [SocketDispatcher::Initialize]: the two calls of [fcntl] are not checked. *)
Definition Initialize (p : loc) : M server unit :=
  _ ← sys_ret; _ ← sys_ret; AddDispatcher (Some p).

(** [PhysicalSocket::Create] and [SocketDispatcher::Create]. *)
Definition ps_Create (p : loc) (family type : Z) : M server bool :=
  _ ← sd_Close p;
  r ← sys_socket;
  _ ← on_sock p (set_s r.1);
  _ ← on_sock p (set_udp (SOCK_DGRAM =? type));
  _ ← on_sock p (set_ps_family family);
  _ ← UpdateLastError p r.2;
  _ ← (if SOCK_DGRAM =? type then on_sock p (SetEnabledEvents (Z.lor DE_READ DE_WRITE)) else mret tt);
  mret (negb (r.1 =? INVALID_SOCKET)).
Definition sd_Create (p : loc) (family type : Z) : M server bool :=
  created ← ps_Create p family type;
  if (created : bool) then _ ← Initialize p; mret true else mret false.

(** The constructors: a fresh socket, or one around a descriptor. *)
Definition new_SocketDispatcher (p : loc) : M server unit :=
  modify (upd_socks (insert p (MkPhysicalSocket INVALID_SOCKET None 0 0 CS_CLOSED None 0))).
Definition new_SocketDispatcher_s (p : loc) (s : Z) : M server unit :=
  if s =? INVALID_SOCKET then new_SocketDispatcher p
  else
    r ← sys_ret;
    modify (upd_socks (insert p (MkPhysicalSocket s (Some (SOCK_DGRAM =? r.1)) 0 0 CS_CONNECTED None (Z.lor DE_READ DE_WRITE)))).
Definition delete_SocketDispatcher (p : loc) : M server unit :=
  _ ← sd_Close p; modify (upd_socks (delete p)).

(** [p]: where the new object is allocated. *)
Definition CreateSocket (p : loc) (family type : Z) : M server (option loc) :=
  _ ← new_SocketDispatcher p;
  created ← sd_Create p family type;
  if (created : bool) then mret (Some p) else _ ← delete_SocketDispatcher p; mret None.
Definition WrapSocket (p : loc) (s : Z) : M server (option loc) :=
  _ ← new_SocketDispatcher_s p s; _ ← Initialize p; mret (Some p).

Definition DoConnect (p : loc) (connect_addr : SocketAddress) : M server Z :=
  x ← get_sock p;
  created ← (if s_ x =? INVALID_SOCKET then sd_Create p (family (ip_ connect_addr)) SOCK_STREAM else mret true);
  if (created : bool) then
    r ← sys_ret;
    _ ← UpdateLastError p r.2;
    if r.1 =? 0 then
      _ ← on_sock p (set_state CS_CONNECTED);
      _ ← on_sock p (EnableEvents (Z.lor DE_READ DE_WRITE)); mret 0
    else
      x ← get_sock p;
      if IsBlockingError (error_ x) then
        _ ← on_sock p (set_state CS_CONNECTING);
        _ ← on_sock p (EnableEvents (Z.lor (Z.lor DE_READ DE_WRITE) DE_CONNECT)); mret 0
      else mret SOCKET_ERROR
  else mret SOCKET_ERROR.

(** [resolver]: the new [AsyncResolver], when one is needed. *)
Definition ps_Connect (p : loc) (addr : SocketAddress) (resolver : loc) : M server Z :=
  x ← get_sock p;
  match state_ x with
  | CS_CLOSED =>
      if IsUnresolvedIP addr then
        _ ← on_sock p (set_resolver (Some resolver)); _ ← on_sock p (set_state CS_CONNECTING); mret 0
      else DoConnect p addr
  | _ => _ ← on_sock p (SetError EALREADY); mret SOCKET_ERROR
  end.

(** Up to the signal, which is emitted when the result is [Some]. *)
Definition OnResolveResult (p resolver : loc) (resolver_error : Z) (address : SocketAddress) : M server (option Z) :=
  x ← get_sock p;
  if decide (resolver_ x = Some resolver) then
    error ← (if resolver_error =? 0 then DoConnect p address else _ ← sd_Close p; mret resolver_error);
    if negb (error =? 0) then _ ← on_sock p (SetError error); mret (Some error) else mret None
  else mret None.

(** [binder]: what the network binder, if there is one, answers. *)
Inductive NetworkBindingResult := SUCCESS | FAILURE | NOT_IMPLEMENTED | ADDRESS_NOT_FOUND | NETWORK_CHANGED.
Definition Bind (p : loc) (bind_addr : SocketAddress) (binder : option NetworkBindingResult) : M server (Z * SocketAddress) :=
  let answer := if IsAnyIP bind_addr then None else binder in
  let go copied_bind_addr := r ← sys_ret; _ ← UpdateLastError p r.2; mret (r.1, copied_bind_addr) in
  match answer with
  | Some SUCCESS => go (SetIP (GetAnyIP (family (ip_ bind_addr))) bind_addr)
  | None | Some NOT_IMPLEMENTED => go bind_addr
  | Some _ => if IsLoopbackIP bind_addr then go bind_addr else mret (-1, bind_addr)
  end.

(** Given what [getsockname] and [getpeername] answer. *)
Definition GetLocalAddress (result : Z) (addr_storage : list byte) : SocketAddress :=
  if 0 <=? result then default SocketAddress_nil (SocketAddressFromSockAddrStorage addr_storage (Some SocketAddress_nil)).2
  else SocketAddress_nil.
Definition GetRemoteAddress : Z -> list byte -> SocketAddress := GetLocalAddress.

Definition MaybeRemapSendError (p : loc) : M server unit :=
  x ← get_sock p; if error_ x =? ENOBUFS then on_sock p (SetError EWOULDBLOCK) else mret tt.

(** [Send] and [SendTo] differ in the call they make; [cb] is the number of bytes. *)
Definition ps_Send (p : loc) (cb : Z) : M server Z :=
  r ← sys_ret;
  let sent := r.1 in
  _ ← UpdateLastError p r.2;
  _ ← MaybeRemapSendError p;
  x ← get_sock p;
  _ ← (if ((0 <? sent) && (sent <? i32 cb)) || ((sent <? 0) && IsBlockingError (error_ x))
       then on_sock p (EnableEvents DE_WRITE) else mret tt);
  mret sent.

Definition udp (p : loc) : M server bool :=
  x ← get_sock p; match udp_ x with Some u => mret u | None => ub_ Uninitialised end.

(** [if (udp_ || success) EnableEvents(DE_READ)]. *)
Definition rearm_read (p : loc) (success : bool) : M server unit :=
  u ← udp p; if (u : bool) || success then on_sock p (EnableEvents DE_READ) else mret tt.

Definition ps_Recv (p : loc) (length : Z) : M server Z :=
  r ← sys_ret;
  let received := r.1 in
  if (received =? 0) && negb (length =? 0) then
    _ ← on_sock p (EnableEvents DE_READ); _ ← on_sock p (SetError EWOULDBLOCK); mret SOCKET_ERROR
  else
    _ ← UpdateLastError p r.2;
    x ← get_sock p;
    _ ← rearm_read p ((0 <=? received) || IsBlockingError (error_ x));
    mret received.
Definition ps_RecvFrom (p : loc) : M server Z :=
  r ← sys_ret;
  let received := r.1 in
  _ ← UpdateLastError p r.2;
  x ← get_sock p;
  _ ← rearm_read p ((0 <=? received) || IsBlockingError (error_ x));
  mret received.

Definition ps_Listen (p : loc) : M server Z :=
  r ← sys_ret;
  _ ← UpdateLastError p r.2;
  _ ← (if r.1 =? 0 then _ ← on_sock p (set_state CS_CONNECTING); on_sock p (EnableEvents DE_ACCEPT) else mret tt);
  mret r.1.
(** [q]: where the object of the new connection is allocated. *)
Definition ps_Accept (p q : loc) : M server (option loc) :=
  _ ← on_sock p (EnableEvents DE_ACCEPT);
  r ← sys_socket;
  _ ← UpdateLastError p r.2;
  if r.1 =? INVALID_SOCKET then mret None else WrapSocket q r.1.

(** ** Options *)

Inductive Option :=
  | OPT_DONTFRAGMENT | OPT_RCVBUF | OPT_SNDBUF | OPT_NODELAY | OPT_IPV6_V6ONLY | OPT_DSCP | OPT_RTP_SENDTIME_EXTN_ID.
Definition TranslateOption (x : PhysicalSocket) (opt : Option) : option (Z * Z) :=
  match opt with
  | OPT_DONTFRAGMENT => None
  | OPT_RCVBUF => Some (65535, 4098)
  | OPT_SNDBUF => Some (65535, 4097)
  | OPT_NODELAY => Some (6, 1)
  | OPT_DSCP => if ps_family_ x =? AF_INET6 then Some (41, 36) else Some (0, 3)
  | OPT_IPV6_V6ONLY | OPT_RTP_SENDTIME_EXTN_ID => None
  end.
(** [value]: what the system stores; the result and the value given back. *)
Definition GetOption (p : loc) (opt : Option) (value : Z) : M server (Z * option Z) :=
  x ← get_sock p;
  match TranslateOption x opt with
  | None => mret (-1, None)
  | Some _ =>
      r ← sys_ret;
      if r.1 =? -1 then mret (-1, None)
      else mret (r.1, Some (match opt with OPT_DSCP => Z.shiftr value 2 | _ => value end))
  end.
(** The result and the calls of [setsockopt], with level, name and value. *)
Definition SetOption (p : loc) (opt : Option) (value : Z) : M server (Z * list (Z * Z * Z)) :=
  x ← get_sock p;
  match TranslateOption x opt with
  | None => mret (-1, [])
  | Some (slevel, sopt) =>
      value ← (match opt with
               | OPT_DSCP => if decide (0 <= value < 2 ^ 30) then mret (i32 (Z.shiftl value 2)) else ub_ SignedOverflow
               | _ => mret value
               end);
      first ← (if sopt =? 36 then _ ← sys_ret; mret [(0, 3, value)] else mret []);
      r ← sys_ret;
      _ ← (if negb (r.1 =? 0) then UpdateLastError p r.2 else mret tt);
      mret (r.1, first ++ [(slevel, sopt, value)])
  end.
