(* ===== verification/SocketServer.v ===== *)
(** * [rtc_base/physical_socket_server.cc]: waiting for events

    [PhysicalSocketServer::Wait] with [select], [ProcessEvents], and the events
    of sockets and of the [Signaler] that wakes the server up.  The handlers of
    the signals are code of the client, which may use any socket, the one of the
    event included; a run is a machine that steps through what is under way, the
    innermost first, as in SigSlot.v. *)

From stdpp Require Import gmap.
From S2P Require Import Prelude CLib IpAddress SockAddr PhysSocket.
#[local] Open Scope Z_scope.
#[local] Open Scope xrtc_scope.

Definition kForever : Z := -1.
(** A descriptor from this on does not fit an [fd_set]. *)
Definition FD_SETSIZE : Z := 1024.

Section server.
(** The reading end of the pipe of the [Signaler], and the order in which the
    unordered map of the dispatchers is gone through. *)
Context (afd_0 : Z) (order : gmap Z dispatcher -> list Z).

(** ** Dispatchers *)

Definition GetDescriptor (d : dispatcher) : M server Z :=
  match d with Some p => x ← get_sock p; mret (s_ x) | None => mret afd_0 end.
Definition GetRequestedEvents (d : dispatcher) : M server Z :=
  match d with Some p => x ← get_sock p; mret (enabled_events_ x) | None => mret DE_READ end.
Definition IsDescriptorClosed (d : dispatcher) : M server bool :=
  match d with
  | None => mret false
  | Some p =>
      u ← udp p;
      if (u : bool) then x ← get_sock p; mret (s_ x =? INVALID_SOCKET)
      else
        r ← sys_ret;
        if 0 <? r.1 then mret false
        else if r.1 =? 0 then mret true
        else mret ((r.2 =? EBADF) || (r.2 =? ECONNRESET))
  end.

(** [Signaler::Signal], called by [WakeUp]. *)
Definition WakeUp : M server unit :=
  w ← get;
  if fSignaled_ w then mret tt else _ ← sys_ret; modify (fun w => set_flags true (fWait_ w) (waiting_ w) w).

(** What is under way: operations of the client; the signals that an [OnEvent]
    has still to emit; the loop over the keys, with what [select] was asked and
    left; the [while] of [WaitSelect], with the time left and the time to stop
    at unless it waits forever. *)
Inductive socket_op :=
  | OCreate (p : loc) (family type : Z) | ODelete (p : loc) | OClose (p : loc)
  | OConnect (p : loc) (addr : SocketAddress) (resolver : loc)
  | OResolved (p resolver : loc) (error : Z) (addr : SocketAddress)
  | OBind (p : loc) (addr : SocketAddress) (binder : option NetworkBindingResult)
  | OListen (p : loc) | OAccept (p q : loc) | OSend (p : loc) (cb : Z) | ORecv (p : loc) (length : Z) | ORecvFrom (p : loc)
  | OGetOption (p : loc) (opt : Option) (value : Z) | OSetOption (p : loc) (opt : Option) (value : Z)
  | OWakeUp | OWait (cmsWait : Z) (process_io : bool).

Inductive sframe :=
  | SOp (o : socket_op)
  | SEvent (p : loc) (err : Z) (flags : list Z)
  | SKeys (process_io : bool) (asked : list (Z * dispatcher * Z)) (keys rd wr : list Z) (stop : option Z)
  | SWhile (process_io : bool) (tvWait : option (Z * Z)).

(** ** [OnEvent] *)

(** The flags of [ff] in the order in which [SocketDispatcher::OnEvent] acts on them. *)
Definition flags_of (ff : Z) : list Z :=
  filter (fun f => Z.land ff f <> 0) [DE_CONNECT; DE_ACCEPT; DE_READ; DE_WRITE; DE_CLOSE].

Definition OnEvent (d : dispatcher) (ff err : Z) : M server (list sframe) :=
  match d with
  | Some p =>
      _ ← (if negb (Z.land ff DE_CONNECT =? 0) then on_sock p (set_state CS_CONNECTED) else mret tt);
      _ ← (if negb (Z.land ff DE_CLOSE =? 0) then on_sock p (set_state CS_CLOSED) else mret tt);
      mret [SEvent p err (flags_of ff)]
  | None =>
      w ← get;
      _ ← (if fSignaled_ w then _ ← sys_ret; mret tt else mret tt);
      _ ← modify (fun w => set_flags false false (waiting_ w) w);
      mret []
  end.

(** [DisableEvents] and the signal, for one flag. *)
Definition signal_flag (p : loc) (f err : Z) : M server signal_kind :=
  if f =? DE_CLOSE then
    _ ← on_sock p (SetEnabledEvents 0); mret (SignalCloseEvent err)
  else
    _ ← on_sock p (DisableEvents f);
    mret (if f =? DE_CONNECT then SignalConnectEvent else if f =? DE_WRITE then SignalWriteEvent else SignalReadEvent).

(** [ProcessEvents], up to the call of [OnEvent]: the events and the error code. *)
Definition ProcessEvents (d : dispatcher) (readable writable check_error : bool) : M server (Z * Z) :=
  errcode ← (if check_error then _ ← GetDescriptor d; r ← sys_ret; mret r.1 else mret 0);
  requested_events ← GetRequestedEvents d;
  ff ← (if readable then
          if negb (Z.land requested_events DE_ACCEPT =? 0) then mret DE_ACCEPT
          else
            closed ← (if negb (errcode =? 0) then mret true else IsDescriptorClosed d);
            mret (if (closed : bool) then DE_CLOSE else DE_READ)
        else mret 0);
  let ff' :=
    if writable then
      if negb (Z.land requested_events DE_CONNECT =? 0) then
        if errcode =? 0 then DE_CONNECT else DE_CLOSE
      else DE_WRITE
    else 0 in
  mret (Z.lor ff ff', errcode).

(** ** [WaitSelect] *)

(** [FD_SET] and its kin on a descriptor outside the set are undefined. *)
Definition fd_index (fd : Z) : M server unit :=
  if decide (0 <= fd < FD_SETSIZE) then mret tt else ub_ OutOfBounds.

(** The loop that fills [current_dispatcher_keys_] and the sets: what is asked
    for, and the descriptors to wait for reading and for writing. *)
Fixpoint fill_sets (process_io : bool) (keys : list Z) : M server (list (Z * dispatcher * Z) * list Z * list Z) :=
  match keys with
  | [] => mret ([], [], [])
  | key :: keys =>
      w ← get;
      match dispatcher_by_key_ w !! key with
      | None => fill_sets process_io keys
      | Some d =>
          if negb process_io && bool_decide (d <> signal_wakeup_) then fill_sets process_io keys
          else
            fd ← GetDescriptor d;
            ff ← GetRequestedEvents d;
            let r := negb (Z.land ff (Z.lor DE_READ DE_ACCEPT) =? 0) in
            let wr := negb (Z.land ff (Z.lor DE_WRITE DE_CONNECT) =? 0) in
            _ ← (if r || wr then fd_index fd else mret tt);
            rest ← fill_sets process_io keys;
            let '(asked, fdsRead, fdsWrite) := rest in
            mret ((key, d, fd) :: asked, (if r then [fd] else []) ++ fdsRead, (if wr then [fd] else []) ++ fdsWrite)
      end
  end.

Definition waited (ok : bool) : M server (list sframe) :=
  _ ← modify (log_event (EWaited ok)); _ ← modify (fun w => set_flags (fSignaled_ w) (fWait_ w) false w); mret [].

(** [Wait] and the beginning of [WaitSelect]. *)
Definition Wait_begin (cmsWait : Z) (process_io : bool) : M server (list sframe) :=
  _ ← modify (fun w => set_flags (fSignaled_ w) (fWait_ w) true w);
  tv ← (if cmsWait =? kForever then mret None
        else
          r ← next_answer;
          match r with
          | RTime us => ms ← lift (int (cmsWait * 1000)); mret (Some (Z.quot cmsWait 1000 * 1000000 + Z.rem cmsWait 1000 * 1000, us + ms))
          | _ => lift OutOfFuel
          end);
  _ ← modify (fun w => set_flags (fSignaled_ w) true (waiting_ w) w);
  mret [SWhile process_io tv].

(** One round of the [while], up to the loop over the keys.  [select] only
    clears bits of the sets. *)
Definition While (process_io : bool) (tvWait : option (Z * Z)) : M server (list sframe) :=
  w ← get;
  if fWait_ w then
    q ← fill_sets process_io (order (dispatcher_by_key_ w));
    let '(asked, fdsRead, fdsWrite) := q in
    r ← next_answer;
    match r with
    | RSelect n errno rd wr =>
        let rd := filter (fun fd => fd ∈ fdsRead) rd in
        let wr := filter (fun fd => fd ∈ fdsWrite) wr in
        if n <? 0 then
          if negb (errno =? EINTR) then waited false else mret [SKeys process_io asked [] [] [] (snd <$> tvWait)]
        else if n =? 0 then waited true
        else
          _ ← modify (log_event (ESelect asked rd wr));
          mret [SKeys process_io asked ((fst ∘ fst) <$> asked) rd wr (snd <$> tvWait)]
    | _ => lift OutOfFuel
    end
  else waited true.

(** One round of the loop over the keys; after the last one, the time left. *)
Definition Keys (process_io : bool) (asked : list (Z * dispatcher * Z)) (keys rd wr : list Z) (stop : option Z) : M server (list sframe) :=
  match keys with
  | [] =>
      match stop with
      | None => mret [SWhile process_io None]
      | Some stop_us =>
          r ← next_answer;
          match r with
          | RTime us => mret [SWhile process_io (Some (Z.max 0 (stop_us - us), stop_us))]
          | _ => lift OutOfFuel
          end
      end
  | key :: keys =>
      w ← get;
      match dispatcher_by_key_ w !! key with
      | None => mret [SKeys process_io asked keys rd wr stop]
      | Some d =>
          fd ← GetDescriptor d;
          _ ← fd_index fd;
          let readable := bool_decide (fd ∈ rd) in
          let writable := bool_decide (fd ∈ wr) in
          e ← ProcessEvents d readable writable (readable || writable);
          let '(ff, errcode) := e in
          let rest := SKeys process_io asked keys (filter (fun fd' => fd' <> fd) rd) (filter (fun fd' => fd' <> fd) wr) stop in
          if ff =? 0 then mret [rest]
          else
            _ ← modify (log_event (EOnEvent key d fd ff));
            fs ← OnEvent d ff errcode;
            mret (fs ++ [rest])
      end
  end.

Definition do_socket_op (o : socket_op) : M server (list sframe) :=
  match o with
  | OCreate p family type => _ ← CreateSocket p family type; mret []
  | ODelete p => _ ← delete_SocketDispatcher p; mret []
  | OClose p => _ ← sd_Close p; mret []
  | OConnect p addr resolver => _ ← ps_Connect p addr resolver; mret []
  | OResolved p resolver error addr =>
      r ← OnResolveResult p resolver error addr;
      match r with
      | Some err => _ ← modify (log_event (ESignal p (SignalCloseEvent err))); mret []
      | None => mret []
      end
  | OBind p addr binder => _ ← Bind p addr binder; mret []
  | OListen p => _ ← ps_Listen p; mret []
  | OAccept p q => _ ← ps_Accept p q; mret []
  | OSend p cb => _ ← ps_Send p cb; mret []
  | ORecv p length => _ ← ps_Recv p length; mret []
  | ORecvFrom p => _ ← ps_RecvFrom p; mret []
  | OGetOption p opt value => _ ← GetOption p opt value; mret []
  | OSetOption p opt value => _ ← SetOption p opt value; mret []
  | OWakeUp => _ ← WakeUp; mret []
  | OWait cmsWait process_io => Wait_begin cmsWait process_io
  end.

Section machine.
(** The handlers of the client, given what happened so far, and the operations
    that it keeps away from. *)
Context (handler : list sock_event -> list socket_op).
Context (allowed : server -> list sframe -> socket_op -> bool).

Definition server_step (k : list sframe) : M server (list sframe) :=
  match k with
  | [] => mret []
  | SOp o :: k =>
      w ← get; if allowed w k o then fs ← do_socket_op o; mret (fs ++ k) else mret k
  | SEvent p err [] :: k => mret k
  | SEvent p err (f :: fl) :: k =>
      sig ← signal_flag p f err;
      _ ← modify (log_event (ESignal p sig));
      w ← get; mret (map SOp (handler (sock_events w)) ++ SEvent p err fl :: k)
  | SKeys io asked keys rd wr stop :: k => fs ← Keys io asked keys rd wr stop; mret (fs ++ k)
  | SWhile io tv :: k => fs ← While io tv; mret (fs ++ k)
  end.

Fixpoint server_run (n : nat) (k : list sframe) : M server (list sframe) :=
  match n with O => mret k | S n => k ← server_step k; server_run n k end.
End machine.

(** ** What a client must observe

    It uses living sockets, does not destroy a socket that is signalling, and
    does not wait in a handler. *)
Definition signalling (p : loc) (f : sframe) : bool := match f with SEvent q _ _ => bool_decide (p = q) | _ => false end.
Definition in_wait (f : sframe) : bool := match f with SKeys _ _ _ _ _ _ | SWhile _ _ => true | _ => false end.

Definition socket_op_ok (w : server) (k : list sframe) (o : socket_op) : bool :=
  let alive p := bool_decide (p ∈ dom (socks w)) in
  match o with
  | OCreate p _ _ => negb (alive p)
  | ODelete p => alive p && negb (existsb (signalling p) k)
  | OClose p | OConnect p _ _ | OResolved p _ _ _ | OBind p _ _ | OListen p | OSend p _ | ORecv p _ | ORecvFrom p
  | OGetOption p _ _ => alive p
  | OAccept p q => alive p && negb (alive q)
  | OSetOption p _ value => alive p && (0 <=? value) && (value <? 2 ^ 30)
  | OWakeUp => true
  | OWait cms _ => negb (existsb in_wait k) && (-1 <=? cms) && (cms <=? 2147483)
  end.
End server.
