(* ===== verification/SocketInv.v ===== *)
(** * The tables of the socket server, operation by operation

    A socket is registered with the server exactly while it has a descriptor, a
    key names one dispatcher for ever, and the descriptor of a registered
    dispatcher does not change: a rule for each operation of PhysSocket.v. *)

From stdpp Require Import gmap.
From S2P Require Import Prelude IpAddress SockAddr PhysSocket.
#[local] Open Scope Z_scope.
#[local] Open Scope xrtc_scope.

(** The descriptors that the system hands out fit an [fd_set]. *)
Definition answer_ok (r : sysres) : Prop := match r with RSock fd _ => -1 <= fd < 1024 | _ => True end.

(** The descriptor of a dispatcher, that of the [Signaler] being fixed. *)
Definition descriptor (w : server) (d : dispatcher) : option Z :=
  match d with Some p => s_ <$> socks w !! p | None => Some 0 end.

(** [U]: the sockets that are being built or closed: not registered, [udp_] and
    the descriptor unconstrained. *)
Record sockets_ok (U : gset loc) (w : server) : Prop := {
  inverse k d : dispatcher_by_key_ w !! k = Some d <-> key_by_dispatcher_ w !! d = Some k;
  key_range k d : dispatcher_by_key_ w !! k = Some d -> 0 <= k < next_dispatcher_key_ w;
  registered p x : socks w !! p = Some x -> p ∉ U ->
    s_ x <> INVALID_SOCKET <-> is_Some (key_by_dispatcher_ w !! Some p);
  building p : p ∈ U -> key_by_dispatcher_ w !! Some p = None;
  living p k : key_by_dispatcher_ w !! Some p = Some k -> is_Some (socks w !! p);
  in_fd_set p x : socks w !! p = Some x -> -1 <= s_ x < 1024;
  udp_known p x : socks w !! p = Some x -> p ∉ U -> udp_ x <> None;
  script_ok : Forall answer_ok (script w);
  next_nonneg : 0 <= next_dispatcher_key_ w;
}.

(** Events that do not concern the loop of [Wait]. *)
Definition quiet_event (e : sock_event) : Prop := match e with ESelect _ _ _ | EOnEvent _ _ _ _ => False | _ => True end.

(** From [w] to [w'] up to [n] dispatchers were added: keys of [w] name the same
    dispatcher with the same descriptor, or none. *)
Record goes (n : Z) (w w' : server) : Prop := {
  goes_next : next_dispatcher_key_ w <= next_dispatcher_key_ w' <= next_dispatcher_key_ w + n;
  goes_keys k d : dispatcher_by_key_ w' !! k = Some d ->
    dispatcher_by_key_ w !! k = Some d /\ descriptor w' d = descriptor w d \/ next_dispatcher_key_ w <= k;
  goes_events : exists l, sock_events w' = sock_events w ++ l /\ Forall quiet_event l;
}.

Lemma goes_refl n w : 0 <= n -> goes n w w.
Proof.
  split; [lia|by left|]. exists []. split; [by rewrite app_nil_r|constructor].
Qed.

Lemma goes_trans n m w w' w'' : goes n w w' -> goes m w' w'' -> goes (n + m) w w''.
Proof.
  intros [N1 K1 (l1 & E1 & Q1)] [N2 K2 (l2 & E2 & Q2)]. split; [lia| |].
  - intros k d Hk. destruct (K2 k d Hk) as [[Hk' Hd]|]; [|right; lia]. destruct (K1 k d Hk') as [[Hk0 Hd0]|]; [|by right].
    left. split; [done|congruence].
  - exists (l1 ++ l2). rewrite E2, E1, app_assoc. split; [done|by apply Forall_app_2].
Qed.

Lemma goes_weaken n m w w' : goes n w w' -> n <= m -> goes m w w'.
Proof. intros [H1 H2 H3] Hm. split; [lia|done|done]. Qed.

(** Reached from [w0] with at most [n] additions; [D] are the living sockets,
    and the socket [p] is [x]. *)
Record at_ (w0 : server) (D U : gset loc) (n : Z) (w : server) : Prop := {
  at_ok : sockets_ok U w;
  at_goes : goes n w0 w;
  at_dom : dom (socks w) = D;
}.
Definition sock_at (w0 : server) (D U : gset loc) (n : Z) (p : loc) (x : PhysicalSocket) (w : server) : Prop :=
  at_ w0 D U n w /\ socks w !! p = Some x.

Lemma at_start w U : sockets_ok U w -> at_ w (dom (socks w)) U 0 w.
Proof. intros Hw. split; [done|by apply goes_refl|done]. Qed.
Lemma at_sock w0 D U n w p : at_ w0 D U n w -> p ∈ D -> exists x, sock_at w0 D U n p x w.
Proof. intros Hw Hp. rewrite <- (at_dom _ _ _ _ _ Hw) in Hp. apply elem_of_dom in Hp as [x Hx]. by exists x. Qed.
Lemma at_weaken w0 D U n m w : at_ w0 D U n w -> n <= m -> at_ w0 D U m w.
Proof. intros [H1 H2 H3] Hm. split; [done|by eapply goes_weaken|done]. Qed.

(** Changing a field of a socket: its descriptor only while it is in [U]. *)
Lemma at_update w0 D U n p x x' w : sock_at w0 D U n p x w ->
  -1 <= s_ x' < 1024 -> (s_ x' = s_ x \/ p ∈ U) -> (p ∈ U \/ udp_ x' <> None) ->
  sock_at w0 D U n p x' (upd_socks (insert p x') w).
Proof.
  intros [[[A1 A2 A3 A4 A5 A6 A7 A8 A9] [G1 G2 G3] Hd] Hx] Hr Hs Hu.
  split; [|cbn; by rewrite lookup_insert_eq]. split.
  - split; try done; cbn.
    + intros q y [[<- <-]|[Hne Hy]]%lookup_insert_Some HU; [|by apply A3]. destruct Hs as [Hs|]; [|done]. rewrite Hs. by apply A3.
    + intros q k Hk. destruct (decide (q = p)) as [->|]; [rewrite lookup_insert_eq; eauto|]. rewrite lookup_insert_ne by done. by eapply A5.
    + intros q y [[<- <-]|[Hne Hy]]%lookup_insert_Some; [done|by eapply A6].
    + intros q y [[<- <-]|[Hne Hy]]%lookup_insert_Some HU; [by destruct Hu|by eapply A7].
  - split; [done| |done]. intros k d Hk. destruct (G2 k d Hk) as [[H1 H2]|]; [left|by right]. split; [done|]. rewrite <- H2.
    destruct d as [q|]; [|done]. cbn. destruct (decide (q = p)) as [->|]; [|by rewrite lookup_insert_ne].
    rewrite lookup_insert_eq, Hx. cbn. f_equal. destruct Hs as [|Hs]; [done|]. apply A4 in Hs.
    apply A1 in Hk. by pose proof (eq_trans (eq_sym Hs) Hk).
  - cbn. rewrite dom_insert_L. apply elem_of_dom_2 in Hx. set_solver.
Qed.

(** A change that concerns neither the descriptor nor [udp_]. *)
Definition tame (f : PhysicalSocket -> PhysicalSocket) : Prop := forall x, s_ (f x) = s_ x /\ udp_ (f x) = udp_ x.

Section rules.
Context {B : Type} (w0 : server) (D U : gset loc) (n : Z).
Implicit Types (p : loc) (x : PhysicalSocket) (w : server) (Q : B -> server -> Prop).

Lemma rule_get p x w (f : PhysicalSocket -> M server B) Q :
  sock_at w0 D U n p x w -> wp (f x) w Q -> wp (mbind f (get_sock p)) w Q.
Proof. intros [_ Hx] Hf. apply wp_bind. unfold get_sock. apply wp_bind, wp_get. by rewrite Hx. Qed.

Lemma rule_on p x g w (f : unit -> M server B) Q :
  sock_at w0 D U n p x w -> tame g ->
  (forall w', sock_at w0 D U n p (g x) w' -> wp (f tt) w' Q) -> wp (mbind f (on_sock p g)) w Q.
Proof.
  intros Hx Hg Hf. apply wp_bind. unfold on_sock. eapply wp_bind, wp_mono.
  { instantiate (1 := fun y w1 => y = x /\ w1 = w). unfold get_sock. apply wp_bind, wp_get. by rewrite (proj2 Hx). }
  intros y w1 [-> ->]. apply wp_modify, Hf. pose proof (Hg x) as [H1 H2]. pose proof (in_fd_set _ _ (at_ok _ _ _ _ _ (proj1 Hx)) _ _ (proj2 Hx)).
  eapply at_update; [exact Hx|by rewrite H1|by left|]. destruct (decide (p ∈ U)); [by left|right]. rewrite H2.
  eapply udp_known; [apply (proj1 Hx)|apply (proj2 Hx)|done].
Qed.

(** The script is shortened, nothing else. *)
Lemma at_script w r l : script w = r :: l -> at_ w0 D U n w -> at_ w0 D U n (set_script l w) /\ answer_ok r.
Proof.
  intros Hl [[A1 A2 A3 A4 A5 A6 A7 A8 A9] [G1 G2 G3] Hd]. rewrite Hl in A8. apply Forall_cons in A8 as [Hr Hl'].
  split; [|done]. split; [done|split; [done| |done]|done]. intros k d Hk. by apply G2.
Qed.

Lemma wp_answer w (Q : sysres -> server -> Prop) : at_ w0 D U n w ->
  (forall r w', at_ w0 D U n w' -> socks w' = socks w -> answer_ok r -> Q r w') -> wp next_answer w Q.
Proof.
  intros Hw HQ. unfold next_answer. apply wp_bind, wp_get. destruct (script w) as [|r l] eqn:Hl; [done|].
  apply wp_bind. unfold put, wp at 1. apply wp_ret. destruct (at_script w r l Hl Hw) as [H1 H2]. by apply HQ.
Qed.

Lemma rule_answer w (f : sysres -> M server B) Q : at_ w0 D U n w ->
  (forall r w', at_ w0 D U n w' -> socks w' = socks w -> answer_ok r -> wp (f r) w' Q) -> wp (mbind f next_answer) w Q.
Proof. intros Hw Hf. by apply wp_bind, wp_answer. Qed.

Lemma rule_ret w (f : Z * Z -> M server B) Q : at_ w0 D U n w ->
  (forall r w', at_ w0 D U n w' -> socks w' = socks w -> wp (f r) w' Q) -> wp (mbind f sys_ret) w Q.
Proof.
  intros Hw Hf. apply wp_bind. unfold sys_ret. apply wp_bind, wp_answer; [done|]. intros [] w' H1 H2 _; try done. by apply wp_ret, Hf.
Qed.
Lemma rule_socket w (f : Z * Z -> M server B) Q : at_ w0 D U n w ->
  (forall fd errno w', -1 <= fd < 1024 -> at_ w0 D U n w' -> socks w' = socks w -> wp (f (fd, errno)) w' Q) ->
  wp (mbind f sys_socket) w Q.
Proof.
  intros Hw Hf. apply wp_bind. unfold sys_socket. apply wp_bind, wp_answer; [done|]. intros [] w' H1 H2 H3; try done. by apply wp_ret, Hf.
Qed.
End rules.

Lemma rule_ret_at {B} w0 D U n p x w (f : Z * Z -> M server B) Q : sock_at w0 D U n p x w ->
  (forall r w', sock_at w0 D U n p x w' -> wp (f r) w' Q) -> wp (mbind f sys_ret) w Q.
Proof. intros [Hw Hx] Hf. eapply rule_ret; [exact Hw|]. intros r w' H1 H2. apply Hf. split; [done|by rewrite H2]. Qed.

(** ** Registration *)

(** After [Remove] the socket is being closed. *)
Lemma remove_at w0 D U n p x w : sock_at w0 D U n p x w -> exists w',
  RemoveDispatcher (Some p) w = Ret (tt, w') /\ sock_at w0 D ({[p]} ∪ U) n p x w'.
Proof.
  intros [[[A1 A2 A3 A4 A5 A6 A7 A8 A9] [G1 G2 G3] Hd] Hx]. unfold RemoveDispatcher. rewrite M_bind_get.
  destruct (key_by_dispatcher_ w !! Some p) as [key|] eqn:Hkey.
  - eexists. split; [reflexivity|]. pose proof (proj2 (A1 key (Some p)) Hkey) as Hd'.
    assert (forall k d, delete key (dispatcher_by_key_ w) !! k = Some d -> dispatcher_by_key_ w !! k = Some d /\ d <> Some p) as Hdel.
    { intros k d [Hne Hk]%lookup_delete_Some. split; [done|]. intros ->. apply A1 in Hk. apply Hne.
      pose proof (eq_trans (eq_sym Hkey) Hk). by simplify_eq. }
    split; [|done]. split; [|split; [done| |done]|done].
    + split; cbn; try done.
      * intros k d. split.
        -- intros [Hk Hne]%Hdel. apply A1 in Hk. by rewrite lookup_delete_ne.
        -- intros [Hne Hk]%lookup_delete_Some. apply A1 in Hk. rewrite lookup_delete_ne; [done|]. intros <-. by simplify_eq.
      * intros k d [Hk _]%Hdel. by eapply A2.
      * intros q y Hq HU. rewrite lookup_delete_ne by set_solver. apply A3; set_solver.
      * intros q Hq. destruct (decide (q = p)) as [->|]; [apply lookup_delete_eq|]. rewrite lookup_delete_ne by congruence. apply A4. set_solver.
      * intros q k [_ Hk]%lookup_delete_Some. by eapply A5.
      * intros q y Hq HU. eapply A7; [done|set_solver].
    + cbn. intros k d [Hk _]%Hdel. by apply G2.
  - exists w. split; [done|]. split; [|done]. split; [|split; [done|done|done]|done]. split; try done.
    + intros q y Hq HU. apply A3; [done|set_solver].
    + intros q Hq. destruct (decide (q = p)) as [->|]; [done|]. apply A4. set_solver.
    + intros q y Hq HU. eapply A7; [done|set_solver].
Qed.

(** A closed socket is complete. *)
Lemma leave_at w0 D U n p x w : sock_at w0 D ({[p]} ∪ U) n p x w -> s_ x = INVALID_SOCKET -> udp_ x <> None ->
  sock_at w0 D U n p x w.
Proof.
  intros [[[A1 A2 A3 A4 A5 A6 A7 A8 A9] G Hd] Hx] Hs Hu. split; [|done]. split; [|done|done]. split; try done.
  - intros q y Hq HU. destruct (decide (q = p)) as [->|]; [|apply A3; set_solver]. simplify_eq. rewrite Hs.
    rewrite (A4 p) by set_solver. split; [done|by intros [? ?]].
  - intros q Hq. apply A4. set_solver.
  - intros q y Hq HU. destruct (decide (q = p)) as [->|]; [by simplify_eq|]. eapply A7; [done|set_solver].
Qed.

(** [Add] completes an open socket. *)
Lemma add_at w0 D U n p x w : sock_at w0 D ({[p]} ∪ U) n p x w -> p ∉ U -> s_ x <> INVALID_SOCKET -> udp_ x <> None ->
  next_dispatcher_key_ w0 + n + 1 < 2 ^ 64 -> exists w',
  AddDispatcher (Some p) w = Ret (tt, w') /\ sock_at w0 D U (n + 1) p x w'.
Proof.
  intros [[[A1 A2 A3 A4 A5 A6 A7 A8 A9] [G1 G2 G3] Hd] Hx] HU Hs Hu Hnext. unfold AddDispatcher. rewrite M_bind_get.
  assert (key_by_dispatcher_ w !! Some p = None) as Hnone by (apply A4; set_solver). rewrite Hnone.
  set (key := next_dispatcher_key_ w). assert (dispatcher_by_key_ w !! key = None) as Hkey.
  { destruct (dispatcher_by_key_ w !! key) eqn:E; [|done]. apply A2 in E. unfold key in E. lia. }
  eexists. split; [reflexivity|]. unfold emplace. rewrite Hkey, Hnone. rewrite u64_small by (unfold key; lia).
  split; [|done]. split; [|split; cbn|done].
  - split; cbn; try done.
    + intros k d. destruct (decide (k = key)) as [->|Hne].
      * rewrite lookup_insert_eq. destruct (decide (d = Some p)) as [->|Hne]; [by rewrite lookup_insert_eq|].
        rewrite lookup_insert_ne by congruence. rewrite <- A1, Hkey. split; [congruence|done].
      * rewrite lookup_insert_ne by congruence. destruct (decide (d = Some p)) as [->|Hd'].
        -- rewrite lookup_insert_eq, A1. split; [intros Hk; by pose proof (eq_trans (eq_sym Hnone) Hk)|congruence].
        -- by rewrite lookup_insert_ne by congruence.
    + intros k d [[<- _]|[_ Hk]]%lookup_insert_Some; [unfold key; lia|]. apply A2 in Hk. unfold key. lia.
    + intros q y Hq HU'. destruct (decide (q = p)) as [->|Hne].
      * simplify_eq. rewrite lookup_insert_eq. split; [eauto|done].
      * rewrite lookup_insert_ne by congruence. apply A3; set_solver.
    + intros q Hq. rewrite lookup_insert_ne by congruence. apply A4. set_solver.
    + intros q k [[[= <-] _]|[_ Hk]]%lookup_insert_Some; [eauto|by eapply A5].
    + intros q y Hq HU'. destruct (decide (q = p)) as [->|]; [by simplify_eq|]. eapply A7; [done|set_solver].
    + unfold key. lia.
  - unfold key. lia.
  - intros k d [[<- _]|[_ Hk]]%lookup_insert_Some; [right; unfold key; lia|]. by apply G2.
  - done.
Qed.

(** A closed socket may be rebuilt. *)
Lemma enter_at w0 D U n p x w : sock_at w0 D U n p x w -> s_ x = INVALID_SOCKET -> sock_at w0 D ({[p]} ∪ U) n p x w.
Proof.
  intros [[[A1 A2 A3 A4 A5 A6 A7 A8 A9] G Hd] Hx] Hs. split; [|done]. split; [|done|done]. split; try done.
  - intros q y Hq HU. apply A3; [done|set_solver].
  - intros q [->%elem_of_singleton|Hq]%elem_of_union; [|by apply A4]. destruct (decide (p ∈ U)); [by apply A4|].
    destruct (key_by_dispatcher_ w !! Some p) eqn:E; [|done]. by destruct (proj2 (A3 p x Hx n0) ltac:(rewrite E; eauto)).
  - intros q y Hq HU. eapply A7; [done|set_solver].
Qed.

(** Any field of a socket in [U]. *)
Lemma rule_on_building {B} w0 D U n p x g w (f : unit -> M server B) Q :
  sock_at w0 D U n p x w -> p ∈ U -> -1 <= s_ (g x) < 1024 ->
  (forall w', sock_at w0 D U n p (g x) w' -> wp (f tt) w' Q) -> wp (mbind f (on_sock p g)) w Q.
Proof.
  intros Hx HU Hr Hf. apply wp_bind. unfold on_sock. eapply rule_get; [exact Hx|]. apply wp_modify, Hf.
  eapply at_update; [exact Hx|done|by right|by left].
Qed.

(** ** The operations *)

(** One access, system call or change of a field. *)
Ltac sock_step :=
  first
    [ eapply rule_get; [eassumption|]
    | eapply rule_on; [eassumption|by intros ?|intros ? ?]
    | eapply rule_ret_at; [eassumption|intros ? ? ?] ].
Ltac sock := repeat sock_step.

(** A last command, and steps in the middle of a condition. *)
Lemma wp_last {A} (m : M server A) w Q : wp (mbind mret m) w Q -> wp m w Q.
Proof. unfold wp, mbind, M_bind, mret, M_ret. by destruct (m w) as [[? ?]| | |]. Qed.

(** Events that are recorded. *)
Lemma at_log w0 D U n w e : at_ w0 D U n w -> quiet_event e -> at_ w0 D U n (log_event e w).
Proof.
  intros [[A1 A2 A3 A4 A5 A6 A7 A8 A9] [G1 G2 (l & G3 & G4)] Hd] He. split; [done|split; [done|done|]|done].
  exists (l ++ [e]). cbn. rewrite G3, app_assoc. split; [done|]. by apply Forall_app_2; [|constructor].
Qed.
Lemma sock_log w0 D U n p x w e : sock_at w0 D U n p x w -> quiet_event e -> sock_at w0 D U n p x (log_event e w).
Proof. intros [H1 H2] He. split; [by apply at_log|done]. Qed.

Lemma sd_Close_at w0 D U n p x w : sock_at w0 D U n p x w -> p ∉ U ->
  wp (sd_Close p) w (fun _ w' => exists x', sock_at w0 D U n p x' w' /\ s_ x' = INVALID_SOCKET).
Proof.
  intros Hx HU. unfold sd_Close. sock. destruct (Z.eqb_spec (s_ x) INVALID_SOCKET) as [Hs|Hs]; [apply wp_ret; eauto|].
  destruct (remove_at w0 D U n p x w Hx) as (w1 & R & H1). apply wp_bind. unfold wp. rewrite R.
  pose proof (udp_known _ _ (at_ok _ _ _ _ _ (proj1 Hx)) p x (proj2 Hx) HU) as Hu.
  sock. eapply rule_on_building; [eassumption|set_solver|done|intros ? ?]. sock. apply wp_bind.
  assert (forall y v, s_ y = INVALID_SOCKET -> udp_ y <> None -> sock_at w0 D ({[p]} ∪ U) n p y v ->
    wp (mret r.1 : M server Z) v (fun _ w' => exists x', sock_at w0 D U n p x' w' /\ s_ x' = INVALID_SOCKET)) as Hend.
  { intros y v Hy1 Hy2 Hv. apply wp_ret. exists y. split; [|done]. by apply leave_at. }
  cbn [resolver_ SetEnabledEvents set_state set_s SetError]. destruct (resolver_ x); [|by apply wp_ret; eapply Hend; [| |eassumption]].
  apply wp_bind, wp_modify, wp_last. eapply rule_on; [by apply sock_log|by intros ?|]. intros v Hv. apply wp_ret. by eapply Hend; [| |eassumption].
Qed.

Lemma sd_Close_closed w0 D U n p x w : sock_at w0 D U n p x w -> s_ x = INVALID_SOCKET -> sd_Close p w = Ret (0, w).
Proof.
  intros [_ Hx] Hs. unfold sd_Close. assert (get_sock p w = Ret (x, w)) as Hg.
  { unfold get_sock. rewrite M_bind_get. by rewrite Hx. }
  rewrite (M_bind_eq _ _ _ _ _ Hg). by rewrite Hs.
Qed.

Lemma ps_Create_at w0 D U n p x w fam ty : p ∉ U ->
  sock_at w0 D U n p x w \/ sock_at w0 D ({[p]} ∪ U) n p x w /\ s_ x = INVALID_SOCKET ->
  wp (ps_Create p fam ty) w (fun b w' => exists x', sock_at w0 D ({[p]} ∪ U) n p x' w' /\ udp_ x' <> None /\
    b = negb (s_ x' =? INVALID_SOCKET)).
Proof.
  intros HU Hx. unfold ps_Create. apply wp_bind.
  apply (wp_mono _ _ (fun _ w' => exists x', sock_at w0 D ({[p]} ∪ U) n p x' w' /\ s_ x' = INVALID_SOCKET)).
  { destruct Hx as [Hx|[Hx Hs]].
    - eapply wp_mono; [by eapply sd_Close_at|]. intros ? v (x' & Hx' & Hs). exists x'. split; [by apply enter_at|done].
    - unfold wp. rewrite (sd_Close_closed _ _ _ _ _ _ _ Hx Hs). eauto. }
  intros ? v (x1 & Hx1 & Hs1). eapply rule_socket; [apply Hx1|]. intros fd errno v1 Hfd Hv1 Hsame. cbn [fst snd].
  assert (sock_at w0 D ({[p]} ∪ U) n p x1 v1) as Hx2 by (split; [done|rewrite Hsame; apply Hx1]).
  do 3 (eapply rule_on_building; [eassumption|set_solver|done|intros ? ?]). sock.
  destruct (SOCK_DGRAM =? ty).
  - sock. apply wp_ret. eexists. split; [eassumption|]. by split.
  - apply wp_ret. eexists. split; [eassumption|]. by split.
Qed.

Lemma Initialize_at w0 D U n p x w : sock_at w0 D ({[p]} ∪ U) n p x w -> p ∉ U -> s_ x <> INVALID_SOCKET -> udp_ x <> None ->
  next_dispatcher_key_ w0 + n + 1 < 2 ^ 64 -> wp (Initialize p) w (fun _ w' => sock_at w0 D U (n + 1) p x w').
Proof.
  intros Hx HU Hs Hu Hn. unfold Initialize. sock. destruct (add_at w0 D U n p x w'0) as (w1 & R & H1); [done..|].
  unfold wp. by rewrite R.
Qed.

Lemma sock_weaken w0 D U n m p x w : sock_at w0 D U n p x w -> n <= m -> sock_at w0 D U m p x w.
Proof. intros [H1 H2] Hm. split; [by eapply at_weaken|done]. Qed.

Lemma sd_Create_at w0 D U n p x w fam ty : p ∉ U ->
  sock_at w0 D U n p x w \/ sock_at w0 D ({[p]} ∪ U) n p x w /\ s_ x = INVALID_SOCKET ->
  next_dispatcher_key_ w0 + n + 1 < 2 ^ 64 ->
  wp (sd_Create p fam ty) w (fun b w' => exists x', sock_at w0 D U (n + 1) p x' w' /\ (b = false -> s_ x' = INVALID_SOCKET)).
Proof.
  intros HU Hx Hn. unfold sd_Create. eapply wp_bind, wp_mono; [by eapply ps_Create_at|].
  intros b v (x' & Hx' & Hu & ->). destruct (Z.eqb_spec (s_ x') INVALID_SOCKET) as [Hs|Hs]; cbn [negb].
  - apply wp_ret. exists x'. split; [|done]. eapply sock_weaken; [by apply leave_at|lia].
  - eapply wp_bind, wp_mono; [by eapply Initialize_at|]. intros ? v1 H1. apply wp_ret. by exists x'.
Qed.

(** A new object, not registered, and the end of a closed one. *)
Lemma new_at w0 D n p x w : at_ w0 D ∅ n w -> p ∉ D -> -1 <= s_ x < 1024 ->
  sock_at w0 ({[p]} ∪ D) {[p]} n p x (upd_socks (insert p x) w).
Proof.
  intros [[A1 A2 A3 A4 A5 A6 A7 A8 A9] [G1 G2 G3] Hd] Hp Hr.
  assert (key_by_dispatcher_ w !! Some p = None) as Hnone.
  { destruct (key_by_dispatcher_ w !! Some p) eqn:E; [|done]. apply A5, elem_of_dom in E. by rewrite Hd in E. }
  split; [|cbn; by rewrite lookup_insert_eq]. split; [| |cbn; by rewrite dom_insert_L, Hd].
  - split; cbn; try done.
    + intros q y [[<- <-]|[Hne Hy]]%lookup_insert_Some HU; [set_solver|]. apply A3; [done|set_solver].
    + by intros q ->%elem_of_singleton.
    + intros q k Hk. destruct (decide (q = p)) as [->|]; [rewrite lookup_insert_eq; eauto|]. rewrite lookup_insert_ne by done. by eapply A5.
    + intros q y [[<- <-]|[Hne Hy]]%lookup_insert_Some; [done|by eapply A6].
    + intros q y [[<- <-]|[Hne Hy]]%lookup_insert_Some HU; [set_solver|]. eapply A7; [done|set_solver].
  - split; [done| |done]. intros k d Hk. destruct (G2 k d Hk) as [[H1 H2]|]; [left|by right]. split; [done|]. rewrite <- H2.
    destruct d as [q|]; [|done]. cbn. destruct (decide (q = p)) as [->|]; [|by rewrite lookup_insert_ne].
    apply A1 in Hk. cbn in Hk. congruence.
Qed.

Lemma delete_at w0 D n p x w : sock_at w0 ({[p]} ∪ D) ∅ n p x w -> s_ x = INVALID_SOCKET -> p ∉ D ->
  at_ w0 D ∅ n (upd_socks (delete p) w).
Proof.
  intros [[[A1 A2 A3 A4 A5 A6 A7 A8 A9] [G1 G2 G3] Hd] Hx] Hs Hp.
  assert (key_by_dispatcher_ w !! Some p = None) as Hnone.
  { destruct (key_by_dispatcher_ w !! Some p) eqn:E; [|done]. by destruct (proj2 (A3 p x Hx ltac:(set_solver)) ltac:(rewrite E; eauto)). }
  split; [| |cbn; rewrite dom_delete_L, Hd; set_solver].
  - split; cbn; try done.
    + intros q y [_ Hy]%lookup_delete_Some. by apply A3.
    + intros q k Hk. rewrite lookup_delete_ne by congruence. by eapply A5.
    + intros q y [_ Hy]%lookup_delete_Some. by eapply A6.
    + intros q y [_ Hy]%lookup_delete_Some. by eapply A7.
  - split; [done| |done]. intros k d Hk. destruct (G2 k d Hk) as [[H1 H2]|]; [left|by right]. split; [done|]. rewrite <- H2.
    destruct d as [q|]; [|done]. cbn. destruct (decide (q = p)) as [->|]; [|by rewrite lookup_delete_ne].
    apply A1 in Hk. cbn in Hk. congruence.
Qed.

(** ** What every operation leaves: complete sockets, at most one addition *)

(** [X]: sockets that may be gone. *)
Definition settled_but (X : gset loc) (w w' : server) : Prop :=
  sockets_ok ∅ w' /\ goes 1 w w' /\ dom (socks w) ∖ X ⊆ dom (socks w').
Notation settled := (settled_but ∅).

Lemma at_settled X w0 D n w : at_ w0 D ∅ n w -> n <= 1 -> dom (socks w0) ∖ X ⊆ D -> settled_but X w0 w.
Proof. intros [H1 H2 H3] Hn HD. split; [done|split; [by eapply goes_weaken|by rewrite H3]]. Qed.
Lemma sock_settled w0 D n p x w : sock_at w0 D ∅ n p x w -> n <= 1 -> dom (socks w0) ⊆ D -> settled w0 w.
Proof. intros [H _] Hn HD. eapply at_settled; [done|done|set_solver]. Qed.

Lemma sock_start w p : sockets_ok ∅ w -> p ∈ dom (socks w) -> exists x, sock_at w (dom (socks w)) ∅ 0 p x w.
Proof. intros Hw Hp. apply elem_of_dom in Hp as [x Hx]. exists x. split; [by apply at_start|done]. Qed.

(** Ends a walk: the result is given back in a settled state. *)
Ltac settle := apply wp_ret; eapply sock_settled; [eassumption|lia|set_solver].

#[local] Opaque on_sock.

Section operations.
Context (w0 : server) (Hw : sockets_ok ∅ w0) (Hnext : next_dispatcher_key_ w0 + 1 < 2 ^ 64).
Let D := dom (socks w0).

Lemma sd_Close_ok p : p ∈ D -> wp (sd_Close p) w0 (fun _ w => settled w0 w).
Proof.
  intros (x & Hx)%(sock_start w0 p Hw). eapply wp_mono; [eapply sd_Close_at; [exact Hx|set_solver]|].
  intros ? v (x' & Hx' & _). eapply sock_settled; [exact Hx'|lia|set_solver].
Qed.

Lemma delete_ok p : p ∈ D -> wp (delete_SocketDispatcher p) w0 (fun _ w => settled_but {[p]} w0 w).
Proof.
  intros Hp. destruct (sock_start w0 p Hw Hp) as (x & Hx). unfold delete_SocketDispatcher. eapply wp_bind, wp_mono.
  { eapply sd_Close_at; [exact Hx|set_solver]. }
  intros ? v (x' & Hx' & Hs). apply wp_modify. apply (at_settled _ w0 (D ∖ {[p]}) 0); [|lia|done].
  eapply delete_at; [|exact Hs|set_solver].
  replace (dom (socks w0)) with ({[p]} ∪ D ∖ {[p]}) in Hx' by (symmetry; apply union_difference_L; set_solver). exact Hx'.
Qed.

Lemma CreateSocket_ok p fam ty : p ∉ D -> wp (CreateSocket p fam ty) w0 (fun _ w => settled w0 w).
Proof.
  intros Hp. unfold CreateSocket, new_SocketDispatcher. apply wp_bind, wp_modify, wp_bind.
  pose proof (new_at w0 D 0 p (MkPhysicalSocket INVALID_SOCKET None 0 0 CS_CLOSED None 0) w0 (at_start w0 ∅ Hw) Hp ltac:(done)) as Hx.
  eapply wp_mono; [eapply (sd_Create_at w0 _ ∅ 0 p); [set_solver|right; split; [rewrite (right_id_L ∅ (∪)); exact Hx|reflexivity]|lia]|].
  intros [] v (x' & Hx' & Hb); [settle|]. specialize (Hb eq_refl). unfold delete_SocketDispatcher. apply wp_bind, wp_bind.
  unfold wp at 1. rewrite (sd_Close_closed _ _ _ _ _ _ _ Hx' Hb). apply wp_modify, wp_ret. apply (at_settled ∅ w0 D (0 + 1)); [by eapply delete_at|done|set_solver].
Qed.

Lemma WrapSocket_at D1 q s w : at_ w0 D1 ∅ 0 w -> D ⊆ D1 -> q ∉ D1 -> -1 < s < 1024 -> wp (WrapSocket q s) w (fun _ w => settled w0 w).
Proof.
  intros Hx HD Hq Hs. unfold WrapSocket, new_SocketDispatcher_s. rewrite (proj2 (Z.eqb_neq s INVALID_SOCKET)) by (unfold INVALID_SOCKET; lia).
  apply wp_bind. eapply rule_ret; [exact Hx|]. intros r v Hv _. apply wp_modify, wp_bind.
  eapply wp_mono; [eapply (Initialize_at w0 _ ∅ 0 q)|].
  - rewrite (right_id_L ∅ (∪)). apply (new_at w0 D1); [exact Hv|exact Hq|cbn; lia].
  - set_solver.
  - cbn. unfold INVALID_SOCKET. lia.
  - done.
  - lia.
  - intros ? v1 H1. cbn beta in H1. settle.
Qed.

Lemma DoConnect_at p x w addr : sock_at w0 D ∅ 0 p x w -> wp (DoConnect p addr) w (fun _ w' => exists x', sock_at w0 D ∅ 1 p x' w').
Proof.
  intros Hx. unfold DoConnect. sock. apply wp_bind.
  apply (wp_mono _ _ (fun _ w' => exists x', sock_at w0 D ∅ 1 p x' w')).
  { destruct (s_ x =? INVALID_SOCKET).
    - eapply wp_mono; [eapply (sd_Create_at w0 D ∅ 0 p x); [set_solver|by left|lia]|]. intros ? v (x' & Hx' & _). eauto.
    - apply wp_ret. exists x. eapply sock_weaken; [exact Hx|lia]. }
  intros [] v (x1 & Hx1); [|apply wp_ret; eauto]. sock. destruct (r.1 =? 0).
  - sock. apply wp_ret. eauto.
  - sock. destruct (IsBlockingError _); sock; apply wp_ret; eauto.
Qed.

Lemma ps_Connect_ok p addr r : p ∈ D -> wp (ps_Connect p addr r) w0 (fun _ w => settled w0 w).
Proof.
  intros (x & Hx)%(sock_start w0 p Hw). unfold ps_Connect. sock. destruct (state_ x).
  - destruct (IsUnresolvedIP addr); [sock; settle|]. eapply wp_mono; [by eapply DoConnect_at|].
    intros ? v (x' & Hx'). eapply sock_settled; [exact Hx'|lia|set_solver].
  - sock. settle.
  - sock. settle.
Qed.

Lemma OnResolveResult_ok p r e addr : p ∈ D -> wp (OnResolveResult p r e addr) w0 (fun _ w => settled w0 w).
Proof.
  intros (x & Hx)%(sock_start w0 p Hw). unfold OnResolveResult. sock. destruct (decide _); [|settle]. apply wp_bind.
  apply (wp_mono _ _ (fun _ w' => exists x', sock_at w0 D ∅ 1 p x' w')).
  { destruct (e =? 0); [by eapply DoConnect_at|]. apply wp_bind. eapply wp_mono; [eapply sd_Close_at; [exact Hx|set_solver]|].
    intros ? v (x' & Hx' & _). apply wp_ret. exists x'. eapply sock_weaken; [exact Hx'|lia]. }
  intros err v (x1 & Hx1). destruct (negb (err =? 0)); sock; settle.
Qed.

Lemma Bind_ok p addr b : p ∈ D -> wp (Bind p addr b) w0 (fun _ w => settled w0 w).
Proof.
  intros (x & Hx)%(sock_start w0 p Hw). unfold Bind.
  destruct (if IsAnyIP addr then None else b) as [[]|]; try (sock; settle); destruct (IsLoopbackIP addr); sock; settle.
Qed.

Lemma ps_Send_ok p cb : p ∈ D -> wp (ps_Send p cb) w0 (fun _ w => settled w0 w).
Proof.
  intros (x & Hx)%(sock_start w0 p Hw). unfold ps_Send, MaybeRemapSendError. sock. apply wp_bind. sock.
  destruct (_ =? ENOBUFS); [apply wp_last; sock; apply wp_ret|apply wp_ret]; sock; apply wp_bind;
    (destruct (_ || _); [apply wp_last; sock; apply wp_ret|apply wp_ret]; settle).
Qed.

Lemma rearm_read_at {B} p x w ok (f : unit -> M server B) Q : sock_at w0 D ∅ 0 p x w ->
  (forall x' w', sock_at w0 D ∅ 0 p x' w' -> wp (f tt) w' Q) -> wp (mbind f (rearm_read p ok)) w Q.
Proof.
  intros Hx Hf. apply wp_bind. unfold rearm_read, udp. apply wp_bind. sock.
  destruct (udp_ x) as [u|] eqn:Hu; [|by destruct (udp_known _ _ (at_ok _ _ _ _ _ (proj1 Hx)) p x (proj2 Hx))].
  apply wp_ret. destruct (_ || _); [apply wp_last; sock; apply wp_ret; eauto|apply wp_ret; eauto].
Qed.

Lemma ps_Recv_ok p len : p ∈ D -> wp (ps_Recv p len) w0 (fun _ w => settled w0 w).
Proof.
  intros (x & Hx)%(sock_start w0 p Hw). unfold ps_Recv. sock. destruct (_ && _); sock; [settle|].
  eapply rearm_read_at; [eassumption|]. intros. settle.
Qed.
Lemma ps_RecvFrom_ok p : p ∈ D -> wp (ps_RecvFrom p) w0 (fun _ w => settled w0 w).
Proof.
  intros (x & Hx)%(sock_start w0 p Hw). unfold ps_RecvFrom. sock. eapply rearm_read_at; [eassumption|]. intros. settle.
Qed.

Lemma ps_Listen_ok p : p ∈ D -> wp (ps_Listen p) w0 (fun _ w => settled w0 w).
Proof.
  intros (x & Hx)%(sock_start w0 p Hw). unfold ps_Listen. sock. apply wp_bind.
  destruct (_ =? 0); [sock; apply wp_last; sock; apply wp_ret|apply wp_ret]; settle.
Qed.

Lemma ps_Accept_ok p q : p ∈ D -> q ∉ D -> wp (ps_Accept p q) w0 (fun _ w => settled w0 w).
Proof.
  intros (x & Hx)%(sock_start w0 p Hw) Hq. unfold ps_Accept. sock.
  match goal with H : sock_at _ _ _ _ _ (EnableEvents _ _) _ |- _ => rename H into H1 end.
  eapply rule_socket; [apply H1|]. intros fd errno v Hfd Hv Hsame. cbn [fst snd].
  assert (sock_at w0 D ∅ 0 p (EnableEvents DE_ACCEPT x) v) as H2 by (split; [done|rewrite Hsame; apply H1]).
  sock. match goal with H : sock_at _ _ _ _ _ (SetError _ _) _ |- _ => rename H into H3 end.
  destruct (Z.eqb_spec fd INVALID_SOCKET) as [->|Hne]; [settle|]. eapply WrapSocket_at; [apply H3|done|exact Hq|unfold INVALID_SOCKET in Hne; lia].
Qed.

Lemma GetOption_ok p opt v : p ∈ D -> wp (GetOption p opt v) w0 (fun _ w => settled w0 w).
Proof.
  intros (x & Hx)%(sock_start w0 p Hw). unfold GetOption. sock. destruct (TranslateOption x opt); [|settle]. sock.
  destruct (_ =? -1); settle.
Qed.
Lemma SetOption_ok p opt v : p ∈ D -> 0 <= v < 2 ^ 30 -> wp (SetOption p opt v) w0 (fun _ w => settled w0 w).
Proof.
  intros (x & Hx)%(sock_start w0 p Hw) Hv. unfold SetOption. sock. destruct (TranslateOption x opt) as [[lv so]|]; [|settle].
  apply wp_bind. apply (wp_mono _ _ (fun _ w' => sock_at w0 D ∅ 0 p x w')).
  { destruct opt; try by apply wp_ret. rewrite decide_True by done. by apply wp_ret. }
  intros val v1 H1. cbn beta in H1. apply wp_bind. apply (wp_mono _ _ (fun _ w' => sock_at w0 D ∅ 0 p x w')).
  { destruct (so =? 36); sock; by apply wp_ret. }
  intros l v2 H2. cbn beta in H2. sock. apply wp_bind. destruct (negb _); [apply wp_last; sock; apply wp_ret|apply wp_ret]; settle.
Qed.
End operations.
