(* ===== verification/SelectLoop.v ===== *)
(** * The loop of the socket server does not deliver stale events

    Between a [select] and the events it found, handlers of earlier events may
    close and destroy sockets and open new ones, with the same descriptors or at
    the same addresses.  The machine of SocketServer.v is followed through every
    step. *)

From stdpp Require Import gmap.
From S2P Require Import Prelude CLib IpAddress SockAddr PhysSocket SocketServer SocketInv.
#[local] Open Scope Z_scope.
#[local] Open Scope xrtc_scope.

(** ** What the events say *)

(** The last [select] of a list of events. *)
Fixpoint last_select (cur : option (list (Z * dispatcher * Z) * list Z * list Z)) (es : list sock_event) :=
  match es with
  | [] => cur
  | ESelect asked rd wr :: es => last_select (Some (asked, rd, wr)) es
  | _ :: es => last_select cur es
  end.

(** Every [OnEvent] is for a dispatcher that the last [select] was asked about,
    under the same key and with the same descriptor, and follows from what it
    found: reading and accepting for a readable descriptor, writing and
    connecting for a writable one. *)
Definition follows (cur : option (list (Z * dispatcher * Z) * list Z * list Z)) (key : Z) (d : dispatcher) (fd ff : Z) : Prop :=
  match cur with
  | Some (asked, rd, wr) =>
      (key, d, fd) ∈ asked /\ (fd ∈ rd \/ fd ∈ wr) /\
      (Z.land ff (Z.lor DE_READ DE_ACCEPT) <> 0 -> fd ∈ rd) /\ (Z.land ff (Z.lor DE_WRITE DE_CONNECT) <> 0 -> fd ∈ wr)
  | None => False
  end.
Fixpoint not_stale (cur : option (list (Z * dispatcher * Z) * list Z * list Z)) (es : list sock_event) : Prop :=
  match es with
  | [] => True
  | ESelect asked rd wr :: es => not_stale (Some (asked, rd, wr)) es
  | EOnEvent key d fd ff :: es => follows cur key d fd ff /\ not_stale cur es
  | _ :: es => not_stale cur es
  end.

Lemma last_select_app cur l l' : last_select cur (l ++ l') = last_select (last_select cur l) l'.
Proof. revert cur. induction l as [|[] l IH]; intros cur; cbn; auto. Qed.
Lemma not_stale_app cur l l' : not_stale cur (l ++ l') <-> not_stale cur l /\ not_stale (last_select cur l) l'.
Proof. revert cur. induction l as [|[] l IH]; intros cur; cbn; rewrite ?IH; tauto. Qed.
Lemma quiet_last cur l : Forall quiet_event l -> last_select cur l = cur.
Proof. induction 1 as [|[] l He _ IH]; cbn in *; tauto. Qed.
Lemma quiet_not_stale cur l : Forall quiet_event l -> not_stale cur l.
Proof. induction 1 as [|[] l He _ IH]; cbn in *; tauto. Qed.

Section server.
Context (afd_0 : Z) (order : gmap Z dispatcher -> list Z) (Hafd : 0 <= afd_0 < FD_SETSIZE).

Definition fd_of (w : server) (d : dispatcher) : option Z :=
  match d with Some p => s_ <$> socks w !! p | None => Some afd_0 end.

Lemma fd_of_descriptor w w' d : descriptor w' d = descriptor w d -> fd_of w' d = fd_of w d.
Proof. by destruct d. Qed.

(** ** The invariant of the frames *)

Definition frame_ok (w : server) (f : sframe) : Prop :=
  match f with
  | SKeys _ asked keys rd wr _ =>
      (forall k d fd, (k, d, fd) ∈ asked -> k < next_dispatcher_key_ w /\
         forall d', dispatcher_by_key_ w !! k = Some d' -> d' = d /\ fd_of w d = Some fd) /\
      (forall k, k ∈ keys -> exists d fd, (k, d, fd) ∈ asked) /\
      (keys = [] \/ exists rd0 wr0, last_select None (sock_events w) = Some (asked, rd0, wr0) /\ rd ⊆ rd0 /\ wr ⊆ wr0)
  | SEvent p _ _ => p ∈ dom (socks w)
  | _ => True
  end.

Lemma frame_ok_settled X w w' f : settled_but X w w' -> frame_ok w f -> (forall p, p ∈ X -> signalling p f = false) ->
  frame_ok w' f.
Proof.
  intros (_ & [G1 G2 (l & G3 & G4)] & Hdom) Hf HX. destruct f as [|p err fl|io asked keys rd wr stop|]; try done.
  - cbn in *. apply Hdom. apply elem_of_difference. split; [done|]. intros Hp. specialize (HX p Hp). by rewrite bool_decide_eq_false in HX.
  - cbn in *. destruct Hf as (H1 & H2 & H3). split_and!; [|done|].
    + intros k d fd Hk. destruct (H1 k d fd Hk) as [Hlt Hd]. split; [lia|]. intros d' Hd'.
      destruct (G2 k d' Hd') as [[Hold Hfd]|]; [|lia]. destruct (Hd d' Hold) as [-> <-]. split; [done|]. by apply fd_of_descriptor.
    + destruct H3 as [|(rd0 & wr0 & H3 & H4 & H5)]; [by left|right]. exists rd0, wr0. split; [|done].
      by rewrite G3, last_select_app, quiet_last.
Qed.

Definition waits (k : list sframe) : nat := length (filter (fun f => in_wait f = true) k).

Record stack_ok (w : server) (k : list sframe) : Prop := {
  st_sockets : sockets_ok ∅ w;
  st_frames : Forall (frame_ok w) k;
  st_waits : (waits k <= 1)%nat;
  st_events : not_stale None (sock_events w);
}.

Lemma waits_app k k' : waits (k ++ k') = (waits k + waits k')%nat.
Proof. unfold waits. by rewrite filter_app, length_app. Qed.
Lemma waits_none k : existsb in_wait k = false -> waits k = 0%nat.
Proof.
  unfold waits. induction k as [|f k IH]; [done|]. cbn [existsb]. rewrite orb_false_iff. intros [Hf Hk].
  rewrite filter_cons. destruct (decide _); [congruence|auto].
Qed.
Lemma waits_ops ops : waits (map SOp ops) = 0%nat.
Proof. apply waits_none. by induction ops. Qed.

Lemma settled_events X w w' : settled_but X w w' -> not_stale None (sock_events w) -> not_stale None (sock_events w').
Proof.
  intros (_ & [_ _ (l & -> & Hl)] & _) Hs. apply not_stale_app. split; [done|]. by apply quiet_not_stale.
Qed.

(** The frames below when nothing but a settled change happened. *)
Lemma stack_settled X w w' k : settled_but X w w' -> stack_ok w k -> (forall p, p ∈ X -> existsb (signalling p) k = false) ->
  stack_ok w' k.
Proof.
  intros Hs [H1 H2 H3 H4] HX. split; [apply Hs| |done|by eapply settled_events].
  rewrite Forall_forall in *. intros f Hf. eapply frame_ok_settled; [exact Hs|by apply H2|].
  intros p Hp. specialize (HX p Hp). destruct (signalling p f) eqn:E; [|done]. assert (existsb (signalling p) k = true); [|congruence].
  apply existsb_exists. exists f. split; [by apply list_elem_of_In|done].
Qed.

Lemma frames_tail w f k : stack_ok w (f :: k) -> stack_ok w k.
Proof.
  intros [H1 H2 H3 H4]. split; [done|by inversion H2| |done]. unfold waits in *. rewrite filter_cons in H3.
  destruct (decide _); cbn in H3; lia.
Qed.
Lemma stack_push w fs k : stack_ok w k -> Forall (frame_ok w) fs -> (waits fs + waits k <= 1)%nat -> stack_ok w (fs ++ k).
Proof. intros [H1 H2 H3 H4] Hfs Hw. split; [done|by apply Forall_app_2| |done]. by rewrite waits_app. Qed.

(** ** The steps *)

Lemma flags_settled a b c w : sockets_ok ∅ w -> settled w (set_flags a b c w).
Proof.
  intros [A1 A2 A3 A4 A5 A6 A7 A8 A9]. split; [done|]. split; [|set_solver]. split; [cbn; lia|by left|].
  exists []. split; [by rewrite app_nil_r|constructor].
Qed.
Lemma log_settled e w : sockets_ok ∅ w -> quiet_event e -> settled w (log_event e w).
Proof.
  intros [A1 A2 A3 A4 A5 A6 A7 A8 A9] He. split; [done|]. split; [|set_solver]. split; [cbn; lia|by left|].
  exists [e]. split; [done|by constructor].
Qed.
Lemma script_settled r l w : script w = r :: l -> sockets_ok ∅ w -> settled w (set_script l w).
Proof.
  intros Hl Hw. destruct (at_script w (dom (socks w)) ∅ 0 w r l Hl (at_start w ∅ Hw)) as [H _].
  apply (at_settled _ _ (dom (socks w)) 0); [done|done|set_solver].
Qed.

(** Changes add up, except for the number of additions. *)
Definition same_next (w w' : server) : Prop := next_dispatcher_key_ w' = next_dispatcher_key_ w.

Lemma settled_trans X w w' w'' : settled_but X w w' -> settled w' w'' -> same_next w' w'' -> settled_but X w w''.
Proof.
  intros (H1 & H2 & H3) (H4 & H5 & H6) Hn. split; [done|]. split; [|set_solver].
  destruct (goes_trans 1 1 w w' w'' H2 H5) as [K1 K2 K3]. split; [|done|done]. rewrite Hn. apply H2.
Qed.
Lemma settled_trans_l w w' w'' X : settled w w' -> same_next w w' -> settled_but X w' w'' -> settled_but X w w''.
Proof.
  intros (H1 & H2 & H3) Hn (H4 & H5 & H6). split; [done|]. split; [|set_solver].
  destruct (goes_trans 1 1 w w' w'' H2 H5) as [K1 K2 K3]. split; [|done|done]. rewrite <- Hn. apply H5.
Qed.

(** One answer of the system. *)
Lemma answer_settled {B} w (f : sysres -> M server B) Q : sockets_ok ∅ w ->
  (forall r w', settled w w' -> same_next w w' -> socks w' = socks w -> dispatcher_by_key_ w' = dispatcher_by_key_ w ->
     sock_events w' = sock_events w -> fSignaled_ w' = fSignaled_ w -> wp (f r) w' Q) -> wp (mbind f next_answer) w Q.
Proof.
  intros Hw Hf. apply wp_bind. unfold next_answer. apply wp_bind, wp_get. destruct (script w) as [|r l] eqn:Hl; [done|].
  apply wp_bind. unfold put, wp at 1. apply wp_ret, Hf; try done. by eapply script_settled.
Qed.

Lemma Wait_begin_ok w cms io : sockets_ok ∅ w -> -1 <= cms <= 2147483 ->
  wp (Wait_begin cms io) w (fun fs w' => settled w w' /\ exists tv, fs = [SWhile io tv]).
Proof.
  intros Hw Hc. unfold Wait_begin. apply wp_bind, wp_modify, wp_bind.
  pose proof (flags_settled (fSignaled_ w) (fWait_ w) true w Hw) as S1. set (w1 := set_flags _ _ _ w) in *.
  assert (forall tv w2, settled w w2 -> wp (mbind (fun _ : unit => mret [SWhile io tv])
    (modify (fun w => set_flags (fSignaled_ w) true (waiting_ w) w))) w2 (fun fs w' => settled w w' /\ exists tv, fs = [SWhile io tv])) as Hend.
  { intros tv w2 S2. apply wp_bind, wp_modify, wp_ret. split; [|eauto]. eapply settled_trans; [exact S2|apply flags_settled, S2|done]. }
  destruct (cms =? kForever); [by apply wp_ret, Hend|]. eapply answer_settled; [apply S1|]. intros r w2 S2 N2 _ _ _ _.
  destruct r; try done. apply wp_bind. rewrite int_ok by lia. apply wp_ret, wp_ret, Hend.
  by eapply settled_trans_l.
Qed.

Lemma WakeUp_ok w : sockets_ok ∅ w -> wp WakeUp w (fun _ w' => settled w w').
Proof.
  intros Hw. unfold WakeUp. apply wp_bind, wp_get. destruct (fSignaled_ w); [apply wp_ret; by apply (flags_settled (fSignaled_ w) (fWait_ w) (waiting_ w)) in Hw; destruct w|].
  apply wp_bind. unfold sys_ret. eapply answer_settled; [done|]. intros r w1 S1 N1 _ _ _ _. destruct r; try done. apply wp_ret, wp_modify.
  eapply settled_trans; [exact S1|apply flags_settled, S1|done].
Qed.

Lemma do_socket_op_ok w k o : stack_ok w k -> socket_op_ok w k o = true -> next_dispatcher_key_ w + 1 < 2 ^ 64 ->
  wp (do_socket_op o) w (fun fs w' => settled_but (match o with ODelete p => {[p]} | _ => ∅ end) w w' /\
    (fs = [] \/ existsb in_wait k = false /\ exists io tv, fs = [SWhile io tv])).
Proof.
  intros [Hw _ _ _] Ho Hn. unfold do_socket_op.
  assert (forall A X (m : M server A), wp m w (fun _ w' => settled_but X w w') ->
    wp (mbind (fun _ => mret []) m) w (fun fs w' => settled_but X w w' /\
      ((fs : list sframe) = [] \/ existsb in_wait k = false /\ exists io tv, fs = [SWhile io tv]))) as Hsimple.
  { intros A X m Hm. eapply wp_bind, wp_mono; [exact Hm|]. intros a w' S. apply wp_ret. split; [exact S|by left]. }
  destruct o; cbn in Ho;
    repeat match type of Ho with _ && _ = true => apply andb_prop in Ho as [Ho ?Ho'] end;
    rewrite ?negb_true_iff, ?bool_decide_eq_true, ?bool_decide_eq_false, ?Z.leb_le, ?Z.ltb_lt in *.
  - by apply Hsimple, CreateSocket_ok.
  - by apply Hsimple, delete_ok.
  - by apply Hsimple, sd_Close_ok.
  - by apply Hsimple, ps_Connect_ok.
  - eapply wp_bind, wp_mono; [by apply OnResolveResult_ok|]. intros [err|] w' S; [|apply wp_ret; split; [exact S|by left]].
    apply wp_bind, wp_modify, wp_ret. split; [|by left]. eapply settled_trans; [exact S|by apply log_settled; [apply S|]|done].
  - by apply Hsimple, Bind_ok.
  - by apply Hsimple, ps_Listen_ok.
  - by apply Hsimple, ps_Accept_ok.
  - by apply Hsimple, ps_Send_ok.
  - by apply Hsimple, ps_Recv_ok.
  - by apply Hsimple, ps_RecvFrom_ok.
  - by apply Hsimple, GetOption_ok.
  - apply Hsimple, SetOption_ok; [done|done|lia].
  - by apply Hsimple, WakeUp_ok.
  - eapply wp_mono; [apply Wait_begin_ok; [done|lia]|]. intros fs w' [S (tv & ->)]. split; [done|right]. eauto.
Qed.

(** ** The loop of [Wait] *)

(** What an answer of the system changes. *)
Record answered (w w' : server) : Prop := {
  an_settled : settled w w';
  an_next : same_next w w';
  an_socks : socks w' = socks w;
  an_keys : dispatcher_by_key_ w' = dispatcher_by_key_ w;
  an_events : sock_events w' = sock_events w;
}.
Lemma answered_refl w : sockets_ok ∅ w -> answered w w.
Proof. intros Hw. split; try done. by apply (flags_settled (fSignaled_ w) (fWait_ w) (waiting_ w)) in Hw; destruct w. Qed.
Lemma answered_trans w w' w'' : answered w w' -> answered w' w'' -> answered w w''.
Proof.
  intros [A1 A2 A3 A4 A5] [B1 B2 B3 B4 B5]. split; [by eapply settled_trans| |congruence..]. unfold same_next in *. congruence.
Qed.
Lemma answer_rule {B} w (f : sysres -> M server B) Q : sockets_ok ∅ w ->
  (forall r w', answered w w' -> wp (f r) w' Q) -> wp (mbind f next_answer) w Q.
Proof. intros Hw Hf. eapply answer_settled; [done|]. intros. by apply Hf. Qed.
Lemma ret_rule {B} w (f : Z * Z -> M server B) Q : sockets_ok ∅ w ->
  (forall r w', answered w w' -> wp (f r) w' Q) -> wp (mbind f sys_ret) w Q.
Proof.
  intros Hw Hf. apply wp_bind. unfold sys_ret. eapply answer_rule; [done|]. intros [] w' H; try done. by apply wp_ret, Hf.
Qed.
Lemma fd_of_socks w w' d : socks w' = socks w -> fd_of w' d = fd_of w d.
Proof. intros H. destruct d; cbn; [by rewrite H|done]. Qed.

(** A dispatcher that a key names can be asked. *)
Lemma named_socket w k p : sockets_ok ∅ w -> dispatcher_by_key_ w !! k = Some (Some p) ->
  exists x u, socks w !! p = Some x /\ udp_ x = Some u /\ 0 <= s_ x < FD_SETSIZE.
Proof.
  intros Hw Hk. apply (inverse _ _ Hw) in Hk. destruct (living _ _ Hw p k Hk) as [x Hx].
  assert (p ∉ (∅ : gset loc)) as Hp by set_solver. pose proof (proj2 (registered _ _ Hw p x Hx Hp) ltac:(rewrite Hk; eauto)) as Hs.
  pose proof (in_fd_set _ _ Hw p x Hx). destruct (udp_ x) as [u|] eqn:Hu; [|by destruct (udp_known _ _ Hw p x Hx Hp)].
  exists x, u. unfold INVALID_SOCKET, FD_SETSIZE in *. repeat split; [done..|lia|lia].
Qed.
Lemma get_sock_ok w p x (Q : PhysicalSocket -> server -> Prop) : socks w !! p = Some x -> Q x w -> wp (get_sock p) w Q.
Proof. intros Hx HQ. unfold get_sock. apply wp_bind, wp_get. by rewrite Hx. Qed.

Lemma GetDescriptor_ok w k d : sockets_ok ∅ w -> dispatcher_by_key_ w !! k = Some d ->
  wp (GetDescriptor afd_0 d) w (fun fd w' => w' = w /\ fd_of w d = Some fd /\ 0 <= fd < FD_SETSIZE).
Proof.
  intros Hw Hk. destruct d as [p|]; [|by apply wp_ret]. destruct (named_socket w k p Hw Hk) as (x & u & Hx & _ & Hs).
  apply wp_bind, (get_sock_ok _ _ x); [done|]. apply wp_ret. cbn. by rewrite Hx.
Qed.
Lemma GetRequestedEvents_ok w k d : sockets_ok ∅ w -> dispatcher_by_key_ w !! k = Some d ->
  wp (GetRequestedEvents d) w (fun _ w' => w' = w).
Proof.
  intros Hw Hk. destruct d as [p|]; [|by apply wp_ret]. destruct (named_socket w k p Hw Hk) as (x & u & Hx & _ & Hs).
  apply wp_bind, (get_sock_ok _ _ x); [done|]. by apply wp_ret.
Qed.
Lemma IsDescriptorClosed_ok w k d : sockets_ok ∅ w -> dispatcher_by_key_ w !! k = Some d ->
  wp (IsDescriptorClosed d) w (fun _ w' => answered w w').
Proof.
  intros Hw Hk. destruct d as [p|]; [|by apply wp_ret, answered_refl]. destruct (named_socket w k p Hw Hk) as (x & u & Hx & Hu & Hs).
  cbn. apply wp_bind. unfold udp. apply wp_bind, (get_sock_ok _ _ x); [done|]. rewrite Hu. apply wp_ret. destruct u.
  - apply wp_bind, (get_sock_ok _ _ x); [done|]. by apply wp_ret, answered_refl.
  - eapply ret_rule; [done|]. intros r w' H. by destruct (0 <? r.1), (r.1 =? 0); apply wp_ret.
Qed.

Lemma fill_sets_ok w io keys : sockets_ok ∅ w ->
  wp (fill_sets afd_0 io keys) w (fun q w' => w' = w /\
    forall k d fd, (k, d, fd) ∈ q.1.1 -> dispatcher_by_key_ w !! k = Some d /\ fd_of w d = Some fd).
Proof.
  intros Hw. induction keys as [|key keys IH]; cbn [fill_sets]; [apply wp_ret; split; [done|]; by intros k d fd ?%elem_of_nil|].
  apply wp_bind, wp_get. destruct (dispatcher_by_key_ w !! key) as [d|] eqn:Hk; [|done]. destruct (_ && _); [done|].
  eapply wp_bind, wp_mono; [by eapply GetDescriptor_ok|]. intros fd ? (-> & Hfd & Hr).
  eapply wp_bind, wp_mono; [by eapply GetRequestedEvents_ok|]. intros ff ? ->.
  apply wp_bind, (wp_mono _ _ (fun _ w' => w' = w)).
  { destruct (_ || _); [|by apply wp_ret]. unfold fd_index. rewrite decide_True by done. by apply wp_ret. }
  intros _x ? ->. eapply wp_bind, wp_mono; [exact IH|]. intros [[asked rds] wrs] ? [-> Hasked]. apply wp_ret. split; [done|].
  intros k d' fd' [[= -> -> ->]|Hin]%elem_of_cons; [done|by apply Hasked].
Qed.

(** Events for reading only from a readable descriptor, events for writing only
    from a writable one. *)
Lemma ProcessEvents_ok w k d rd wr : sockets_ok ∅ w -> dispatcher_by_key_ w !! k = Some d ->
  wp (ProcessEvents afd_0 d rd wr (rd || wr)) w (fun e w' => answered w w' /\ (e.1 <> 0 -> rd || wr = true) /\
    (Z.land e.1 (Z.lor DE_READ DE_ACCEPT) <> 0 -> rd = true) /\ (Z.land e.1 (Z.lor DE_WRITE DE_CONNECT) <> 0 -> wr = true)).
Proof.
  intros Hw Hk. unfold ProcessEvents. apply wp_bind, (wp_mono _ _ (fun _ w' => answered w w')).
  { destruct (rd || wr); [|by apply wp_ret, answered_refl]. eapply wp_bind, wp_mono; [by eapply GetDescriptor_ok|].
    intros fd ? (-> & _). eapply ret_rule; [done|]. intros r w' H. by apply wp_ret. }
  intros err w1 A1. assert (sockets_ok ∅ w1) as Hw1 by apply A1. assert (dispatcher_by_key_ w1 !! k = Some d) as Hk1 by by rewrite (an_keys _ _ A1).
  eapply wp_bind, wp_mono; [by eapply GetRequestedEvents_ok|]. intros ev ? ->.
  apply wp_bind, (wp_mono _ _ (fun ff w' => answered w w' /\ if rd then ff ∈ [DE_ACCEPT; DE_CLOSE; DE_READ] else ff = 0)).
  { destruct rd; [|by apply wp_ret]. destruct (negb _); [apply wp_ret; split; [done|set_solver]|].
    apply wp_bind, (wp_mono _ _ (fun _ w' => answered w w')).
    - destruct (negb _); [by apply wp_ret|]. eapply wp_mono; [by eapply IsDescriptorClosed_ok|]. intros ? w2 A2. by eapply answered_trans.
    - intros [] w2 A2; apply wp_ret; (split; [done|set_solver]). }
  intros ff w2 [A2 Hff]. apply wp_ret. split; [done|]. clear -Hff. cbn [fst].
  set (g := if negb (Z.land ev DE_CONNECT =? 0) then _ else _).
  assert (g ∈ [DE_CONNECT; DE_CLOSE; DE_WRITE]) as Hg by (unfold g; destruct (negb _), (err =? 0); set_solver). clearbody g.
  rewrite !elem_of_cons, elem_of_nil in Hg. destruct rd.
  - rewrite !elem_of_cons, elem_of_nil in Hff.
    destruct wr; [by auto|]. destruct Hff as [->|[->|[->|[]]]]; by auto.
  - subst ff. destruct wr; [|by auto]. destruct Hg as [->|[->|[->|[]]]]; by auto.
Qed.

(** ** Events and signals *)

Lemma on_sock_settled w p f (Q : unit -> server -> Prop) : sockets_ok ∅ w -> p ∈ dom (socks w) -> tame f ->
  (forall w', settled w w' -> same_next w w' -> Q tt w') -> wp (on_sock p f) w Q.
Proof.
  intros Hw (x & Hx)%(sock_start w p Hw) Hf HQ. apply wp_last. eapply rule_on; [exact Hx|done|]. intros w' Hx'. apply wp_ret.
  apply HQ; [by eapply sock_settled; [exact Hx'|lia|]|]. destruct (goes_next _ _ _ (at_goes _ _ _ _ _ (proj1 Hx'))). unfold same_next. lia.
Qed.

Lemma signal_flag_ok w p f err : sockets_ok ∅ w -> p ∈ dom (socks w) ->
  wp (signal_flag p f err) w (fun _ w' => settled w w' /\ same_next w w').
Proof.
  intros Hw Hp. unfold signal_flag. destruct (f =? DE_CLOSE); apply wp_bind, on_sock_settled; try done; intros w' S N; by apply wp_ret.
Qed.

Lemma OnEvent_ok w k d ff err : sockets_ok ∅ w -> dispatcher_by_key_ w !! k = Some d ->
  wp (OnEvent d ff err) w (fun fs w' => settled w w' /\ same_next w w' /\ Forall (frame_ok w') fs /\ waits fs = 0%nat).
Proof.
  intros Hw Hk. destruct d as [p|].
  - destruct (named_socket w k p Hw Hk) as (x & u & Hx & _). apply elem_of_dom_2 in Hx. cbn.
    assert (forall f b w, sockets_ok ∅ w -> p ∈ dom (socks w) -> tame f ->
      wp (if (b : bool) then on_sock p f else mret tt) w (fun _ w' => settled w w' /\ same_next w w')) as Hstep.
    { intros f [] v Hv Hp Hf; [apply on_sock_settled; auto|]. apply wp_ret. split; [by apply answered_refl|done]. }
    eapply wp_bind, wp_mono; [by apply Hstep|]. intros _x w1 [S1 N1]. assert (p ∈ dom (socks w1)) as Hp1 by (apply S1; set_solver).
    eapply wp_bind, wp_mono; [apply Hstep; [apply S1|done|done]|]. intros _x2 w2 [S2 N2]. apply wp_ret.
    split_and!; [by eapply settled_trans|unfold same_next in *; congruence| |done]. repeat constructor. cbn. apply S2. set_solver.
  - cbn. apply wp_bind, wp_get, wp_bind, (wp_mono _ _ (fun _ w' => answered w w')).
    { destruct (fSignaled_ w); [|by apply wp_ret, answered_refl]. eapply ret_rule; [done|]. intros r w' H. by apply wp_ret. }
    intros _x w1 A1. apply wp_bind, wp_modify, wp_ret. split_and!; [|apply A1|done|done].
    eapply settled_trans; [apply A1|apply flags_settled, A1|done].
Qed.

(** An event of the loop: the frames below hold still, or are not of the loop. *)
Lemma log_stack w k e : stack_ok w k -> last_select (last_select None (sock_events w)) [e] = last_select None (sock_events w) \/ waits k = 0%nat ->
  not_stale (last_select None (sock_events w)) [e] -> stack_ok (log_event e w) k.
Proof.
  intros [[A1 A2 A3 A4 A5 A6 A7 A8 A9] H2 H3 H4] Hk He. split; [done| |done|by apply not_stale_app].
  rewrite Forall_forall in *. intros f Hf. specialize (H2 f Hf). destruct f as [| |io asked keys rd wr stop|]; try done.
  cbn [frame_ok] in *. destruct Hk as [Hk|Hk]; [cbn [sock_events log_event]; rewrite last_select_app, Hk; exact H2|].
  assert (SKeys io asked keys rd wr stop ∈ filter (fun f => in_wait f = true) k) as Hin by by apply list_elem_of_filter.
  unfold waits in Hk. apply nil_length_inv in Hk. rewrite Hk in Hin. by apply elem_of_nil in Hin.
Qed.

Lemma waited_ok w k b : stack_ok w k ->
  wp (waited b) w (fun fs w' => stack_ok w' (fs ++ k) /\ same_next w w').
Proof.
  intros Hk. unfold waited. apply wp_bind, wp_modify, wp_bind, wp_modify, wp_ret. split; [|done].
  assert (settled w (log_event (EWaited b) w)) as S by by apply log_settled; [apply Hk|].
  eapply (stack_settled ∅); [|exact Hk|set_solver]. eapply settled_trans; [exact S|apply flags_settled, S|done].
Qed.

(** Below the frame of a [Wait] there is none. *)
Lemma stack_wait w f k : stack_ok w (f :: k) -> in_wait f = true -> stack_ok w k /\ waits k = 0%nat.
Proof.
  intros H Hf. split; [by eapply frames_tail|]. pose proof (st_waits _ _ H) as Hw. unfold waits in *. rewrite filter_cons, decide_True in Hw by done.
  cbn in Hw. lia.
Qed.
Lemma stack_answered w w' k : answered w w' -> stack_ok w k -> stack_ok w' k.
Proof. intros A Hk. eapply (stack_settled ∅); [apply A|done|set_solver]. Qed.

Lemma While_ok w io tv k : stack_ok w (SWhile io tv :: k) ->
  wp (While afd_0 order io tv) w (fun fs w' => stack_ok w' (fs ++ k) /\ same_next w w').
Proof.
  intros Hst. destruct (stack_wait _ _ _ Hst eq_refl) as [Hk Hnone]. pose proof (st_sockets _ _ Hk) as Hw.
  unfold While. apply wp_bind, wp_get. destruct (fWait_ w); [|by apply waited_ok].
  eapply wp_bind, wp_mono; [by apply fill_sets_ok|]. intros [[asked rds] wrs] ? [-> Hasked]. cbn [fst] in Hasked.
  eapply answer_rule; [done|]. intros r w1 A1. pose proof (stack_answered _ _ _ A1 Hk) as Hk1. destruct r as [| |n errno rd wr|]; try done.
  assert (forall w2, stack_ok w2 k -> same_next w w2 -> socks w2 = socks w -> dispatcher_by_key_ w2 = dispatcher_by_key_ w ->
    forall keys rd' wr', (keys = [] \/ (forall x, x ∈ keys -> exists d fd, (x, d, fd) ∈ asked) /\
      last_select None (sock_events w2) = Some (asked, rd', wr')) ->
    stack_ok w2 ([SKeys io asked keys rd' wr' (snd <$> tv)] ++ k)) as Hpush.
  { intros w2 Hk2 N2 S2 K2 keys rd' wr' Hkeys. apply stack_push; [done| |by rewrite Hnone]. apply Forall_singleton. split_and!.
    - intros k1 d fd [Hd Hfd]%Hasked. rewrite N2. split; [by eapply key_range|]. intros d'. rewrite K2, Hd. intros [= <-].
      by rewrite (fd_of_socks w).
    - destruct Hkeys as [->|[H _]]; [|done]. by intros ? ?%elem_of_nil.
    - destruct Hkeys as [->|[_ H]]; [by left|right]. by exists rd', wr'. }
  destruct (n <? 0); [destruct (negb _)|destruct (n =? 0)].
  - eapply wp_mono; [by apply waited_ok|]. intros fs w2 [H N]. split; [done|]. unfold same_next in *. rewrite N. apply A1.
  - apply wp_ret. split; [|apply A1]. apply Hpush; [done|apply A1..|by left].
  - eapply wp_mono; [by apply waited_ok|]. intros fs w2 [H N]. split; [done|]. unfold same_next in *. rewrite N. apply A1.
  - apply wp_bind, wp_modify, wp_ret. split; [|apply A1]. apply Hpush; [by apply log_stack; [|right|]|apply A1..|right].
    split; [|cbn; by rewrite last_select_app]. intros x (((x' & d) & fd) & -> & Hx)%list_elem_of_fmap. eauto.
Qed.

Lemma Keys_ok w io asked keys rd wr stop k : stack_ok w (SKeys io asked keys rd wr stop :: k) ->
  wp (Keys afd_0 io asked keys rd wr stop) w (fun fs w' => stack_ok w' (fs ++ k) /\ same_next w w').
Proof.
  intros Hst. destruct (stack_wait _ _ _ Hst eq_refl) as [Hk Hnone]. pose proof (st_sockets _ _ Hk) as Hw.
  assert (forall w' tv, stack_ok w' k -> stack_ok w' ([SWhile io tv] ++ k)) as Hwhile.
  { intros w' tv H. apply stack_push; [done|by repeat constructor|by rewrite Hnone]. }
  destruct keys as [|key keys]; cbn [Keys].
  { destruct stop as [us|]; [|by apply wp_ret; split; [apply Hwhile|]]. eapply answer_rule; [done|]. intros [] w1 A1; try done.
    apply wp_ret. split; [by apply Hwhile; eapply stack_answered|apply A1]. }
  (* what the next round needs *)
  assert (forall w', stack_ok w' (SKeys io asked (key :: keys) rd wr stop :: k) -> forall rd' wr', rd' ⊆ rd -> wr' ⊆ wr ->
    stack_ok w' (SKeys io asked keys rd' wr' stop :: k)) as Hrest.
  { intros w' H rd' wr' Hrd Hwr. destruct (stack_wait _ _ _ H eq_refl) as [Hk' _]. apply (stack_push _ [_]); [done| |by rewrite Hnone].
    pose proof (st_frames _ _ H) as Hf. apply Forall_cons in Hf as [(F1 & F2 & F3) _]. apply Forall_singleton. split; [exact F1|split].
    - intros x Hx. apply F2. set_solver.
    - destruct F3 as [|(rd0 & wr0 & H1 & H2 & H3)]; [done|right]. exists rd0, wr0. split; [done|]. set_solver. }
  apply wp_bind, wp_get. destruct (dispatcher_by_key_ w !! key) as [d|] eqn:Hkey; [|by apply wp_ret; split; [apply Hrest|]].
  eapply wp_bind, wp_mono; [by eapply GetDescriptor_ok|]. intros fd ? (-> & Hfd & Hr).
  apply wp_bind. unfold fd_index. rewrite decide_True by done. apply wp_ret.
  eapply wp_bind, wp_mono; [by eapply ProcessEvents_ok|]. intros [ff err] w1 (A1 & Hff & Hread & Hwrite). cbn [fst snd] in *.
  pose proof (stack_answered _ _ _ A1 Hst) as Hst1.
  destruct (Z.eqb_spec ff 0) as [->|Hne].
  { apply wp_ret. split; [|apply A1]. apply Hrest; [done|by intros ? [_ ?]%list_elem_of_filter..]. }
  apply wp_bind, wp_modify. set (w2 := log_event _ w1).
  assert (stack_ok w2 (SKeys io asked (key :: keys) rd wr stop :: k)) as Hst2.
  { apply log_stack; [done|by left|]. split; [|done].
    pose proof (st_frames _ _ Hst1) as Hf. apply Forall_cons in Hf as [(F1 & F2 & F3) _].
    destruct F3 as [|(rd0 & wr0 & -> & H2 & H3)]; [done|]. destruct (F2 key ltac:(set_solver)) as (d' & fd' & Hin).
    destruct (F1 _ _ _ Hin) as [_ Hd]. destruct (Hd d ltac:(by rewrite (an_keys _ _ A1))) as [<- Hfd'].
    rewrite (fd_of_socks w) in Hfd' by apply A1. rewrite Hfd in Hfd'. injection Hfd' as <-.
    specialize (Hff Hne). apply orb_prop in Hff. rewrite !bool_decide_eq_true in *. cbn. split_and!; [done|set_solver|auto|auto]. }
  assert (dispatcher_by_key_ w2 !! key = Some d) as Hkey2 by (cbn; by rewrite (an_keys _ _ A1)).
  eapply wp_bind, wp_mono; [eapply OnEvent_ok; [apply Hst2|exact Hkey2]|]. intros fs w3 (S3 & N3 & Hfs & Hwfs). apply wp_ret.
  split; [|unfold same_next in *; rewrite N3; apply A1]. rewrite <- app_assoc. apply stack_push; [|done|].
  - apply Hrest; [|by intros ? [_ ?]%list_elem_of_filter..]. eapply (stack_settled ∅); [exact S3|done|set_solver].
  - rewrite Hwfs. apply (st_waits _ _ Hst).
Qed.

Section machine.
Context (handler : list sock_event -> list socket_op).

Lemma server_step_ok k w : stack_ok w k -> next_dispatcher_key_ w + 1 < 2 ^ 64 ->
  wp (server_step afd_0 order handler socket_op_ok k) w (fun k' w' =>
    stack_ok w' k' /\ next_dispatcher_key_ w' <= next_dispatcher_key_ w + 1).
Proof.
  intros Hst Hn. destruct k as [|[o|p err [|f fl]|io asked keys rd wr stop|io tv] k]; cbn [server_step].
  - apply wp_ret. split; [done|lia].
  - pose proof (frames_tail _ _ _ Hst) as Hk. apply wp_bind, wp_get. destruct (socket_op_ok w k o) eqn:Ho; [|by apply wp_ret; split; [|lia]].
    eapply wp_bind, wp_mono; [by eapply do_socket_op_ok|]. intros fs w' [S Hfs]. apply wp_ret. split; [|apply S].
    assert (stack_ok w' k) as Hk'.
    { eapply stack_settled; [exact S|done|]. destruct o; try set_solver. intros q ->%elem_of_singleton. cbn in Ho.
      apply andb_prop in Ho as [_ Ho]. by apply negb_true_iff in Ho. }
    destruct Hfs as [->|(Hwait & io & tv & ->)]; [done|]. apply stack_push; [done|by repeat constructor|]. by rewrite (waits_none _ Hwait).
  - apply wp_ret. split; [by eapply frames_tail|lia].
  - assert (p ∈ dom (socks w)) as Hp by by pose proof (st_frames _ _ Hst) as [Hf _]%Forall_cons.
    eapply wp_bind, wp_mono; [apply signal_flag_ok; [apply Hst|done]|]. intros sig w1 [S1 N1].
    apply wp_bind, wp_modify, wp_bind, wp_get, wp_ret. split; [|cbn; rewrite N1; lia].
    assert (settled w (log_event (ESignal p sig) w1)) as S2.
    { eapply settled_trans; [exact S1|by apply log_settled; [apply S1|]|done]. }
    assert (stack_ok (log_event (ESignal p sig) w1) (SEvent p err (f :: fl) :: k)) as Hst2.
    { eapply (stack_settled ∅); [exact S2|done|set_solver]. }
    apply stack_push.
    + apply (stack_push _ [_]); [by eapply frames_tail| |by apply (st_waits _ _ Hst)]. repeat constructor. apply S2. set_solver.
    + induction (handler _); by repeat constructor.
    + rewrite waits_ops. apply (st_waits _ _ Hst).
  - eapply wp_bind, wp_mono; [by apply Keys_ok|]. intros fs w' [H N]. apply wp_ret. split; [done|rewrite N; lia].
  - eapply wp_bind, wp_mono; [by apply While_ok|]. intros fs w' [H N]. apply wp_ret. split; [done|rewrite N; lia].
Qed.

Lemma server_run_ok n k w : stack_ok w k -> next_dispatcher_key_ w + Z.of_nat n < 2 ^ 64 ->
  wp (server_run afd_0 order handler socket_op_ok n k) w (fun k' w' => stack_ok w' k').
Proof.
  revert k w. induction n as [|n IH]; intros k w Hk Hn; [by apply wp_ret|]. cbn [server_run].
  eapply wp_bind, wp_mono; [apply server_step_ok; [done|lia]|]. intros k' w' [Hk' Hn']. apply IH; [done|lia].
Qed.
End machine.
End server.

(** ** From the constructor on *)

Lemma new_server_ok answers : Forall answer_ok answers ->
  wp PhysicalSocketServer_new (new_server answers) (fun _ w => sockets_ok ∅ w /\ sock_events w = [] /\ next_dispatcher_key_ w = 1).
Proof.
  intros Ha. assert (PhysicalSocketServer_new (new_server answers) = Ret (tt, set_tables {[0 := None]} {[None := 0]} 1 (new_server answers)))
    as E by by vm_compute.
  unfold wp. rewrite E. split; [|done]. split; try done; cbn.
  - intros k d. rewrite !lookup_singleton_Some. naive_solver.
  - by intros k d [<- _]%lookup_singleton_Some.
  - by intros p k [? _]%lookup_singleton_Some.
Qed.

(** C34: From its construction on, whatever the system answers (with descriptors
    that fit an [fd_set]), for every client that keeps to [socket_op_ok] before,
    in and between its handlers (it may close, destroy and create sockets there,
    at reused addresses and with reused descriptors), and in whatever order the
    table of dispatchers is gone through: the socket server has no undefined
    behaviour, its two tables stay inverse to each other with exactly the open
    sockets registered, and every [OnEvent] is for a dispatcher that the last
    [select] was asked about under the same key and descriptor, and for what
    that [select] found of that descriptor.  [socket_op_ok] leaves out (and the
    run skips): a handler that destroys the socket that is signalling it
    ([deleted_in_handler]: the remaining signals are those of a dangling
    pointer); a wait of 2147484 ms or more ([long_wait]: the microseconds
    overflow an int); waiting inside a handler; options with values outside
    0 .. 2^30; and the use of a destroyed socket or the address of a living
    one for a new one. *)
Theorem no_stale_event afd_0 order (handler : list sock_event -> list socket_op) answers ops n :
  0 <= afd_0 < FD_SETSIZE -> Forall answer_ok answers -> Z.of_nat n < 2 ^ 64 - 1 ->
  wp (_ ← PhysicalSocketServer_new; server_run afd_0 order handler socket_op_ok n (map SOp ops)) (new_server answers)
     (fun _ w => sockets_ok ∅ w /\ not_stale None (sock_events w)).
Proof.
  intros Hafd Ha Hn. eapply wp_bind, wp_mono; [by apply new_server_ok|]. intros _x w (Hw & He & Hk).
  eapply wp_mono; [apply (server_run_ok afd_0 order Hafd handler)|].
  - split; [done| |by rewrite waits_ops; lia|by rewrite He]. induction ops; by repeat constructor.
  - lia.
  - intros k' w' H. by split; apply H.
Qed.

(** ** Runs *)

(** The table in the order of its keys, and a handler that acts once, on the
    first signal. *)
Definition by_key (_ : gmap Z dispatcher) : list Z := [0; 1; 2; 3].
Definition once (ops : list socket_op) (es : list sock_event) : list socket_op :=
  match List.filter (fun e => match e with ESignal _ _ => true | _ => false end) es with [_] => ops | _ => [] end.
Definition ok : sysres := RRet 0 0.
Definition sim_run (handler : list sock_event -> list socket_op) (ops : list socket_op) (answers : list sysres) : res (list sframe * server) :=
  (_ ← PhysicalSocketServer_new; server_run 3 by_key handler socket_op_ok 40 (map SOp ops)) (new_server answers).
Definition events (r : res (list sframe * server)) : list sock_event := match r with Ret (_, w) => sock_events w | _ => [] end.

(** Two datagram sockets are readable.  The handler of the first destroys the
    second and creates another, at the same address and with the same
    descriptor: it does not get the event. *)
Definition aba_ops : list socket_op := [OCreate 1 AF_INET SOCK_DGRAM; OCreate 2 AF_INET SOCK_DGRAM; OWait 100 true].
Definition aba_answers : list sysres :=
  [RSock 5 0; ok; ok; RSock 6 0; ok; ok; RTime 1000; RSelect 2 0 [5; 6] []; ok; ok; RSock 6 0; ok; ok; RTime 2000; RSelect 0 0 [] []].
Definition aba_handler := once [ODelete 2; OCreate 2 AF_INET SOCK_DGRAM].

Example aba : events (sim_run aba_handler aba_ops aba_answers) =
  [ESelect [(0, None, 3); (1, Some 1%positive, 5); (2, Some 2%positive, 6)] [5; 6] [];
   EOnEvent 1 (Some 1%positive) 5 DE_READ; ESignal 1 SignalReadEvent; EWaited true].
Proof. vm_compute. reflexivity. Qed.

(** One socket, readable and writable: its handler closes it, and the write
    signal comes all the same, since the branch for POSIX has no counterpart of
    the check of [id_] of the branch for Windows. *)
Example closed_in_handler : events (sim_run (once [OClose 1]) [OCreate 1 AF_INET SOCK_DGRAM; OWait 100 true]
    [RSock 5 0; ok; ok; RTime 1000; RSelect 1 0 [5] [5]; ok; ok; RTime 2000; RSelect 0 0 [] []]) =
  [ESelect [(0, None, 3); (1, Some 1%positive, 5)] [5] [5];
   EOnEvent 1 (Some 1%positive) 5 (Z.lor DE_READ DE_WRITE);
   ESignal 1 SignalReadEvent; ESignal 1 SignalWriteEvent; EWaited true].
Proof. vm_compute. reflexivity. Qed.

(** [WakeUp] before [Wait]: the pipe is readable and [Wait] returns. *)
(** A handler that destroys its socket while a second signal is to come; no
    check of the client. *)
Example deleted_in_handler :
  (_ ← PhysicalSocketServer_new;
   server_run 3 by_key (once [ODelete 1]) (fun _ _ _ => true) 40 (map SOp [OCreate 1 AF_INET SOCK_DGRAM; OWait 100 true]))
    (new_server [RSock 5 0; ok; ok; RTime 1000; RSelect 1 0 [5] [5]; ok; ok; RTime 2000; RSelect 0 0 [] []]) = Ub UseAfterFree.
Proof. vm_compute. reflexivity. Qed.

Example woken_up : events (sim_run (once []) [OWakeUp; OWait kForever false] [ok; RSelect 1 0 [3] []; ok; ok]) =
  [ESelect [(0, None, 3)] [3] []; EOnEvent 0 None 3 DE_READ; EWaited true].
Proof. vm_compute. reflexivity. Qed.

(** [cmsWait * 1000] is an [int]. *)
Example long_wait : exists u, sim_run (once []) [OWait 2147484 true] [RTime 0] = Ret ([], u) /\
  do_socket_op (OWait 2147484 true) (new_server [RTime 0]) = Ub SignedOverflow.
Proof. eexists. by vm_compute. Qed.

Lemma no_stale_event_witness : Forall answer_ok aba_answers /\
  wp (_ ← PhysicalSocketServer_new; server_run 3 by_key aba_handler socket_op_ok 40 (map SOp aba_ops)) (new_server aba_answers)
     (fun _ w => sockets_ok ∅ w /\ not_stale None (sock_events w)).
Proof.
  assert (Forall answer_ok aba_answers) as H by (repeat constructor; cbn; lia).
  split; [exact H|]. apply no_stale_event; [unfold FD_SETSIZE; lia|exact H|lia].
Defined.
