(* ===== verification/SslStream.v ===== *)
(** * [rtc_base/openssl_stream_adapter.cc]: TLS and DTLS over a stream

    [OpenSSLStreamAdapter] with the OpenSSL (not BoringSSL) branches.  What
    OpenSSL, the wrapped stream and the certificates answer comes with the
    operation that asks; the certificate that the peer presents in a call of
    OpenSSL goes through [SSLVerifyCallback].  Handlers of [SignalEvent] and
    [SignalSSLHandshakeError] are programs of the client that may use the
    adapter again; what is left of an interrupted method waits on a stack. *)

From stdpp Require Import list strings.
From S2P Require Import Prelude CertTime.
#[local] Open Scope Z_scope.
#[local] Open Scope xrtc_scope.

(** ** Constants *)

Inductive SSLState := SSL_NONE | SSL_WAIT | SSL_CONNECTING | SSL_CONNECTED | SSL_ERROR | SSL_CLOSED.
Inductive SSLRole := SSL_CLIENT | SSL_SERVER.
Inductive SSLMode := SSL_MODE_TLS | SSL_MODE_DTLS.
Inductive SSLHandshakeError := HS_UNKNOWN | HS_INCOMPATIBLE_CIPHERSUITE.
Inductive SSLPeerCertificateDigestError := DIGEST_NONE | UNKNOWN_ALGORITHM | INVALID_LENGTH | VERIFICATION_FAILED.
Inductive StreamState := SS_CLOSED | SS_OPENING | SS_OPEN.
Inductive StreamResult := SR_ERROR (error : Z) | SR_SUCCESS (count : Z) | SR_BLOCK | SR_EOS.
#[export] Instance SSLState_eq_dec : EqDecision SSLState.
Proof. solve_decision. Defined.
#[export] Instance SSLMode_eq_dec : EqDecision SSLMode.
Proof. solve_decision. Defined.

Definition SE_OPEN : Z := 1.
Definition SE_READ : Z := 2.
Definition SE_WRITE : Z := 4.
Definition SE_CLOSE : Z := 8.
Definition SSL_ERROR_NONE : Z := 0.
Definition SSL_ERROR_WANT_READ : Z := 2.
Definition SSL_ERROR_WANT_WRITE : Z := 3.
Definition SSL_ERROR_ZERO_RETURN : Z := 6.
Definition SSL_AD_BAD_CERTIFICATE : Z := 42.
Definition SSE_MSG_TRUNC : Z := 16711681.   (* 0xff0001 *)
Definition INT_MAX : Z := 2147483647.

(** [SSLProtocolVersion]. *)
Definition SSL_PROTOCOL_NOT_GIVEN : Z := -1.
Definition SSL_PROTOCOL_TLS_10 : Z := 0.
Definition SSL_PROTOCOL_TLS_11 : Z := 1.
Definition SSL_PROTOCOL_TLS_12 : Z := 2.
Definition SSL_PROTOCOL_DTLS_10 : Z := SSL_PROTOCOL_TLS_11.
Definition SSL_PROTOCOL_DTLS_12 : Z := SSL_PROTOCOL_TLS_12.
(** The versions of OpenSSL. *)
Definition TLS1_VERSION : Z := 769.
Definition TLS1_1_VERSION : Z := 770.
Definition TLS1_2_VERSION : Z := 771.
Definition DTLS1_VERSION : Z := 65279.
Definition DTLS1_2_VERSION : Z := 65277.

(** ** Names of ciphers and protection profiles *)

Definition kSrtpAes128CmSha1_80 : Z := 1.
Definition kSrtpAes128CmSha1_32 : Z := 2.
Definition kSrtpAeadAes128Gcm : Z := 7.
Definition kSrtpAeadAes256Gcm : Z := 8.
Definition kSrtpInvalidCryptoSuite : Z := 0.
Definition kCsAesCm128HmacSha1_80 : string := "AES_CM_128_HMAC_SHA1_80".
Definition kCsAesCm128HmacSha1_32 : string := "AES_CM_128_HMAC_SHA1_32".
Definition kCsAeadAes128Gcm : string := "AEAD_AES_128_GCM".
Definition kCsAeadAes256Gcm : string := "AEAD_AES_256_GCM".

Definition kSrtpCipherMap : list (string * Z) :=
  [("SRTP_AES128_CM_SHA1_80"%string, kSrtpAes128CmSha1_80); ("SRTP_AES128_CM_SHA1_32"%string, kSrtpAes128CmSha1_32);
   ("SRTP_AEAD_AES_128_GCM"%string, kSrtpAeadAes128Gcm); ("SRTP_AEAD_AES_256_GCM"%string, kSrtpAeadAes256Gcm)].

Definition SrtpCryptoSuiteToName (crypto_suite : Z) : string :=
  if crypto_suite =? kSrtpAes128CmSha1_32 then kCsAesCm128HmacSha1_32
  else if crypto_suite =? kSrtpAes128CmSha1_80 then kCsAesCm128HmacSha1_80
  else if crypto_suite =? kSrtpAeadAes128Gcm then kCsAeadAes128Gcm
  else if crypto_suite =? kSrtpAeadAes256Gcm then kCsAeadAes256Gcm
  else "".
Definition SrtpCryptoSuiteFromName (crypto_suite : string) : Z :=
  if decide (crypto_suite = kCsAesCm128HmacSha1_32) then kSrtpAes128CmSha1_32
  else if decide (crypto_suite = kCsAesCm128HmacSha1_80) then kSrtpAes128CmSha1_80
  else if decide (crypto_suite = kCsAeadAes128Gcm) then kSrtpAeadAes128Gcm
  else if decide (crypto_suite = kCsAeadAes256Gcm) then kSrtpAeadAes256Gcm
  else kSrtpInvalidCryptoSuite.
Definition GetSrtpKeyAndSaltLengths (crypto_suite : Z) : option (Z * Z) :=
  if (crypto_suite =? kSrtpAes128CmSha1_32) || (crypto_suite =? kSrtpAes128CmSha1_80) then Some (16, 14)
  else if crypto_suite =? kSrtpAeadAes128Gcm then Some (16, 12)
  else if crypto_suite =? kSrtpAeadAes256Gcm then Some (32, 12)
  else None.
Definition IsGcmCryptoSuite (crypto_suite : Z) : bool :=
  (crypto_suite =? kSrtpAeadAes256Gcm) || (crypto_suite =? kSrtpAeadAes128Gcm).
Definition IsGcmCryptoSuiteName (crypto_suite : string) : bool :=
  bool_decide (crypto_suite = kCsAeadAes256Gcm) || bool_decide (crypto_suite = kCsAeadAes128Gcm).

(** The identifiers are those of <openssl/tls1.h> and <openssl/ssl3.h>. *)
Definition kSslCipherMap : list (Z * string) :=
  [(0x03000005, "TLS_RSA_RC4_128_SHA"%string);
   (0x0300000A, "TLS_RSA_WITH_3DES_EDE_CBC_SHA"%string);
   (0x0300002F, "TLS_RSA_WITH_AES_128_CBC_SHA"%string);
   (0x03000033, "TLS_DHE_RSA_WITH_AES_128_CBC_SHA"%string);
   (0x03000035, "TLS_RSA_WITH_AES_256_CBC_SHA"%string);
   (0x03000039, "TLS_DHE_RSA_WITH_AES_256_CBC_SHA"%string);
   (0x0300C007, "TLS_ECDHE_ECDSA_WITH_RC4_128_SHA"%string);
   (0x0300C008, "TLS_ECDHE_ECDSA_WITH_3DES_EDE_CBC_SHA"%string);
   (0x0300C009, "TLS_ECDHE_ECDSA_WITH_AES_128_CBC_SHA"%string);
   (0x0300C00A, "TLS_ECDHE_ECDSA_WITH_AES_256_CBC_SHA"%string);
   (0x0300C011, "TLS_ECDHE_RSA_WITH_RC4_128_SHA"%string);
   (0x0300C012, "TLS_ECDHE_RSA_WITH_3DES_EDE_CBC_SHA"%string);
   (0x0300C013, "TLS_ECDHE_RSA_WITH_AES_128_CBC_SHA"%string);
   (0x0300C014, "TLS_ECDHE_RSA_WITH_AES_256_CBC_SHA"%string);
   (0x0300003C, "TLS_RSA_WITH_AES_128_CBC_SHA256"%string);
   (0x0300003D, "TLS_RSA_WITH_AES_256_CBC_SHA256"%string);
   (0x03000067, "TLS_DHE_RSA_WITH_AES_128_CBC_SHA256"%string);
   (0x0300006B, "TLS_DHE_RSA_WITH_AES_256_CBC_SHA256"%string);
   (0x0300009C, "TLS_RSA_WITH_AES_128_GCM_SHA256"%string);
   (0x0300009D, "TLS_RSA_WITH_AES_256_GCM_SHA384"%string);
   (0x0300009E, "TLS_DHE_RSA_WITH_AES_128_GCM_SHA256"%string);
   (0x0300009F, "TLS_DHE_RSA_WITH_AES_256_GCM_SHA384"%string);
   (0x030000A0, "TLS_DH_RSA_WITH_AES_128_GCM_SHA256"%string);
   (0x030000A1, "TLS_DH_RSA_WITH_AES_256_GCM_SHA384"%string);
   (0x0300C023, "TLS_ECDHE_ECDSA_WITH_AES_128_CBC_SHA256"%string);
   (0x0300C024, "TLS_ECDHE_ECDSA_WITH_AES_256_CBC_SHA384"%string);
   (0x0300C027, "TLS_ECDHE_RSA_WITH_AES_128_CBC_SHA256"%string);
   (0x0300C028, "TLS_ECDHE_RSA_WITH_AES_256_CBC_SHA384"%string);
   (0x0300C02B, "TLS_ECDHE_ECDSA_WITH_AES_128_GCM_SHA256"%string);
   (0x0300C02C, "TLS_ECDHE_ECDSA_WITH_AES_256_GCM_SHA384"%string);
   (0x0300C02F, "TLS_ECDHE_RSA_WITH_AES_128_GCM_SHA256"%string);
   (0x0300C030, "TLS_ECDHE_RSA_WITH_AES_256_GCM_SHA384"%string)].
Definition SslCipherSuiteToName (cipher_suite : Z) : string :=
  match List.find (fun entry => cipher_suite =? i32 entry.1) kSslCipherMap with Some (_, name) => name | None => "" end.

(** The entries for AES-256-GCM-SHA256 and ChaCha20 depend on macros that the
    headers of OpenSSL do not have. *)
Definition OK_RSA_ciphers : list (Z * string) :=
  [(0xC013, "TLS_ECDHE_RSA_WITH_AES_128_CBC_SHA"%string); (0xC014, "TLS_ECDHE_RSA_WITH_AES_256_CBC_SHA"%string);
   (0xC02F, "TLS_ECDHE_RSA_WITH_AES_128_GCM_SHA256"%string)].
Definition OK_ECDSA_ciphers : list (Z * string) :=
  [(0xC009, "TLS_ECDHE_ECDSA_WITH_AES_128_CBC_SHA"%string); (0xC00A, "TLS_ECDHE_ECDSA_WITH_AES_256_CBC_SHA"%string);
   (0xC02B, "TLS_ECDHE_ECDSA_WITH_AES_128_GCM_SHA256"%string)].
Definition ok_ciphers (key_type : KeyType) : list (Z * string) :=
  match key_type with KT_RSA => OK_RSA_ciphers | KT_ECDSA => OK_ECDSA_ciphers | KT_LAST => [] end.
Definition IsAcceptableCipher (cipher : Z) (key_type : KeyType) : bool :=
  existsb (fun c => cipher =? c.1) (ok_ciphers key_type).
Definition IsAcceptableCipher_name (cipher : string) (key_type : KeyType) : bool :=
  existsb (fun c => bool_decide (cipher = c.2)) (ok_ciphers key_type).

(** [OpenSSLDigest::GetDigestSize]; the names are those of message_digest.cc. *)
Definition GetDigestSize (algorithm : string) : option Z :=
  if decide (algorithm = "md5"%string) then Some 16
  else if decide (algorithm = "sha-1"%string) then Some 20
  else if decide (algorithm = "sha-224"%string) then Some 28
  else if decide (algorithm = "sha-256"%string) then Some 32
  else if decide (algorithm = "sha-384"%string) then Some 48
  else if decide (algorithm = "sha-512"%string) then Some 64
  else None.

(** ** The functions of [StreamBIO] and of [StreamInterface] *)

(** The number returned to OpenSSL, and whether to retry. *)
Definition stream_read (result : StreamResult) : Z * bool :=
  match result with SR_SUCCESS read => (read, false) | SR_BLOCK => (-1, true) | _ => (-1, false) end.
Definition stream_write (result : StreamResult) : Z * bool :=
  match result with SR_SUCCESS written => (written, false) | SR_BLOCK => (-1, true) | _ => (-1, false) end.
Inductive bio_ctrl := BIO_CTRL_RESET | BIO_CTRL_EOF | BIO_CTRL_WPENDING | BIO_CTRL_PENDING | BIO_CTRL_FLUSH | BIO_CTRL_DGRAM_QUERY_MTU | BIO_CTRL_OTHER.
Definition stream_ctrl (cmd : bio_ctrl) (state : StreamState) : Z :=
  match cmd with
  | BIO_CTRL_EOF => match state with SS_CLOSED => 1 | _ => 0 end
  | BIO_CTRL_FLUSH => 1
  | BIO_CTRL_DGRAM_QUERY_MTU => 1200
  | _ => 0
  end.

(** [WriteAll], given what the calls of [Write] answer: the result and the
    number of bytes written. *)
Fixpoint WriteAll (data_len total_written : Z) (results : list StreamResult) {struct results} : res (StreamResult * Z) :=
  if total_written <? data_len then
    match results with
    | [] => OutOfFuel
    | SR_SUCCESS current_written :: results => WriteAll data_len (total_written + current_written) results
    | result :: _ => Ret (result, total_written)
    end
  else Ret (SR_SUCCESS total_written, total_written).

(** ** The adapter *)

Section adapter.
(** Certificates, and [SSLCertificate::ComputeDigest]. *)
Context {cert : Type} (ComputeDigest : string -> cert -> option (list byte)).

(** What happened: [StartSSL]; bytes read or written in the clear, or through
    OpenSSL; the certificate that the peer presented, one that was accepted with
    its digest, a digest that the client set; signals; the end of the wrapped
    stream; the versions and the verify mode that a context was made for. *)
Inductive ssl_event :=
  | EStart | EClear | ESecret (n : Z)
  | EPresented (c : cert) | EVerified (c : cert) (alg : string) (value : list byte) | EDigest (alg : string) (value : list byte)
  | EEvent (events err : Z) | EHandshakeError (e : SSLHandshakeError)
  | EStreamClose | EContext (min_version max_version verify_mode : Z).

Record OpenSSLStreamAdapter := MkAdapter {
  ssl_state_ : SSLState;
  role_ : SSLRole;
  ssl_error_code_ : option Z;           (* not initialised by the constructor *)
  ssl_read_needs_write_ : bool;
  ssl_write_needs_read_ : bool;
  ssl_ : bool;                          (* not null *)
  ssl_ctx_ : bool;
  identity_ : bool;
  peer_cert_chain_ : option cert;       (* the first certificate *)
  peer_certificate_verified_ : bool;
  peer_certificate_digest_value_ : list byte;
  peer_certificate_digest_algorithm_ : string;
  srtp_ciphers_ : string;
  ssl_mode_ : SSLMode;
  ssl_max_version_ : Z;
  dtls_handshake_timeout_ms_ : Z;
  support_legacy_tls_protocols_flag_ : bool;
  client_auth_enabled_ : bool;
  timeout_task_ : option Z;             (* the delay, while it runs *)
  posted : list (Z * Z);                (* what [PostEvent] left to the thread *)
  alive_ : bool;
  ssl_events : list ssl_event;
}.
Notation adapter := OpenSSLStreamAdapter.

Definition new_OpenSSLStreamAdapter (legacy : bool) : adapter :=
  MkAdapter SSL_NONE SSL_CLIENT None false false false false false None false [] "" "" SSL_MODE_TLS SSL_PROTOCOL_TLS_12 50 legacy true None [] true [].

Definition set_ssl_state (s : SSLState) (a : adapter) : adapter :=
  MkAdapter s (role_ a) (ssl_error_code_ a) (ssl_read_needs_write_ a) (ssl_write_needs_read_ a) (ssl_ a) (ssl_ctx_ a) (identity_ a) (peer_cert_chain_ a) (peer_certificate_verified_ a) (peer_certificate_digest_value_ a) (peer_certificate_digest_algorithm_ a) (srtp_ciphers_ a) (ssl_mode_ a) (ssl_max_version_ a) (dtls_handshake_timeout_ms_ a) (support_legacy_tls_protocols_flag_ a) (client_auth_enabled_ a) (timeout_task_ a) (posted a) (alive_ a) (ssl_events a).
Definition set_error_code (c : Z) (a : adapter) : adapter :=
  MkAdapter (ssl_state_ a) (role_ a) (Some c) (ssl_read_needs_write_ a) (ssl_write_needs_read_ a) (ssl_ a) (ssl_ctx_ a) (identity_ a) (peer_cert_chain_ a) (peer_certificate_verified_ a) (peer_certificate_digest_value_ a) (peer_certificate_digest_algorithm_ a) (srtp_ciphers_ a) (ssl_mode_ a) (ssl_max_version_ a) (dtls_handshake_timeout_ms_ a) (support_legacy_tls_protocols_flag_ a) (client_auth_enabled_ a) (timeout_task_ a) (posted a) (alive_ a) (ssl_events a).
Definition set_needs (r w : bool) (a : adapter) : adapter :=
  MkAdapter (ssl_state_ a) (role_ a) (ssl_error_code_ a) r w (ssl_ a) (ssl_ctx_ a) (identity_ a) (peer_cert_chain_ a) (peer_certificate_verified_ a) (peer_certificate_digest_value_ a) (peer_certificate_digest_algorithm_ a) (srtp_ciphers_ a) (ssl_mode_ a) (ssl_max_version_ a) (dtls_handshake_timeout_ms_ a) (support_legacy_tls_protocols_flag_ a) (client_auth_enabled_ a) (timeout_task_ a) (posted a) (alive_ a) (ssl_events a).
Definition set_objects (ssl ctx : bool) (a : adapter) : adapter :=
  MkAdapter (ssl_state_ a) (role_ a) (ssl_error_code_ a) (ssl_read_needs_write_ a) (ssl_write_needs_read_ a) ssl ctx (identity_ a) (peer_cert_chain_ a) (peer_certificate_verified_ a) (peer_certificate_digest_value_ a) (peer_certificate_digest_algorithm_ a) (srtp_ciphers_ a) (ssl_mode_ a) (ssl_max_version_ a) (dtls_handshake_timeout_ms_ a) (support_legacy_tls_protocols_flag_ a) (client_auth_enabled_ a) (timeout_task_ a) (posted a) (alive_ a) (ssl_events a).
Definition set_peer (identity : bool) (chain : option cert) (verified : bool) (a : adapter) : adapter :=
  MkAdapter (ssl_state_ a) (role_ a) (ssl_error_code_ a) (ssl_read_needs_write_ a) (ssl_write_needs_read_ a) (ssl_ a) (ssl_ctx_ a) identity chain verified (peer_certificate_digest_value_ a) (peer_certificate_digest_algorithm_ a) (srtp_ciphers_ a) (ssl_mode_ a) (ssl_max_version_ a) (dtls_handshake_timeout_ms_ a) (support_legacy_tls_protocols_flag_ a) (client_auth_enabled_ a) (timeout_task_ a) (posted a) (alive_ a) (ssl_events a).
Definition set_digest (value : list byte) (alg : string) (a : adapter) : adapter :=
  MkAdapter (ssl_state_ a) (role_ a) (ssl_error_code_ a) (ssl_read_needs_write_ a) (ssl_write_needs_read_ a) (ssl_ a) (ssl_ctx_ a) (identity_ a) (peer_cert_chain_ a) (peer_certificate_verified_ a) value alg (srtp_ciphers_ a) (ssl_mode_ a) (ssl_max_version_ a) (dtls_handshake_timeout_ms_ a) (support_legacy_tls_protocols_flag_ a) (client_auth_enabled_ a) (timeout_task_ a) (posted a) (alive_ a) (ssl_events a).
Definition set_options (role : SSLRole) (srtp : string) (mode : SSLMode) (max_version timeout_ms : Z) (a : adapter) : adapter :=
  MkAdapter (ssl_state_ a) role (ssl_error_code_ a) (ssl_read_needs_write_ a) (ssl_write_needs_read_ a) (ssl_ a) (ssl_ctx_ a) (identity_ a) (peer_cert_chain_ a) (peer_certificate_verified_ a) (peer_certificate_digest_value_ a) (peer_certificate_digest_algorithm_ a) srtp mode max_version timeout_ms (support_legacy_tls_protocols_flag_ a) (client_auth_enabled_ a) (timeout_task_ a) (posted a) (alive_ a) (ssl_events a).
Definition set_tasks (timer : option Z) (tasks : list (Z * Z)) (alive : bool) (a : adapter) : adapter :=
  MkAdapter (ssl_state_ a) (role_ a) (ssl_error_code_ a) (ssl_read_needs_write_ a) (ssl_write_needs_read_ a) (ssl_ a) (ssl_ctx_ a) (identity_ a) (peer_cert_chain_ a) (peer_certificate_verified_ a) (peer_certificate_digest_value_ a) (peer_certificate_digest_algorithm_ a) (srtp_ciphers_ a) (ssl_mode_ a) (ssl_max_version_ a) (dtls_handshake_timeout_ms_ a) (support_legacy_tls_protocols_flag_ a) (client_auth_enabled_ a) timer tasks alive (ssl_events a).
Definition log_ssl (e : ssl_event) (a : adapter) : adapter :=
  MkAdapter (ssl_state_ a) (role_ a) (ssl_error_code_ a) (ssl_read_needs_write_ a) (ssl_write_needs_read_ a) (ssl_ a) (ssl_ctx_ a) (identity_ a) (peer_cert_chain_ a) (peer_certificate_verified_ a) (peer_certificate_digest_value_ a) (peer_certificate_digest_algorithm_ a) (srtp_ciphers_ a) (ssl_mode_ a) (ssl_max_version_ a) (dtls_handshake_timeout_ms_ a) (support_legacy_tls_protocols_flag_ a) (client_auth_enabled_ a) (timeout_task_ a) (posted a) (alive_ a) (ssl_events a ++ [e]).
Definition log_s (e : ssl_event) : M adapter unit := modify (log_ssl e).
(** [ssl_] is used: it must not be null. *)
Definition use_ssl : M adapter unit := a ← get; if ssl_ a then mret tt else ub_ NullDeref.

(** ** Answers *)

(** What [SetupSSLContext] and [BeginSSL] ask for: whether the context can be
    made, takes the identity and the protection profiles, and whether the BIO
    and the connection can be made. *)
Record Setup := MkSetup { ctx_ok : bool; configure_ok : bool; srtp_ok : bool; bio_ok : bool; new_ok : bool }.
(** A call of OpenSSL: the certificate that the peer presents in it, if it does,
    and what [SSL_get_error] says when that is accepted and when it is rejected. *)
Record SslCall := MkCall { presented : option cert; if_accepted : Z; if_rejected : Z }.
(** [SSL_connect] or [SSL_accept], [DTLSv1_get_timeout] (seconds and
    microseconds), and whether the last error is [SSL_R_NO_SHARED_CIPHER]. *)
Record Handshake := MkHandshake { hs_call : SslCall; hs_timeout : option (Z * Z); no_shared_cipher : bool }.

Section machine.
Inductive ssl_op :=
  | OSetIdentity | OSetServerRole (role : SSLRole) | OSetMode (mode : SSLMode)
  | OSetMaxProtocolVersion (version : Z) | OSetInitialRetransmissionTimeout (timeout_ms : Z) | OSetDtlsSrtpCryptoSuites (ciphers : list Z)
  | OSetPeerCertificateDigest (digest_alg : string) (digest_val : list byte)
  | OStartSSL (stream : StreamState) (s : Setup) (h : Handshake)
  | ORead (data_len : Z) (clear : StreamResult) (call : SslCall) (code pending : Z) (flush : list (Z * Z))
  | OWrite (data_len : Z) (clear : StreamResult) (call : SslCall) (code : Z)
  | OClose
  | OStreamEvent (events err : Z) (s : Setup) (h h' : Handshake)
  | OTimeout (h : Handshake) | OPosted | OExportKeyingMaterial (ok : bool) | ODestroy.

(** [FError]: the rest of the caller of [ContinueSSL] once the handshake has
    failed; [FReadWrite], [FClose]: [OnEvent] from its second and third [if]. *)
Inductive ssl_frame :=
  | FOp (o : ssl_op)
  | FError (err : Z) (signal : bool)
  | FReadWrite (events events_to_signal err : Z) (h : Handshake)
  | FClose (events events_to_signal err : Z).

Context (handler : list ssl_event -> list ssl_op).

Definition handlers : M adapter (list ssl_frame) := a ← get; mret (map FOp (handler (ssl_events a))).
Definition SignalEvent (events err : Z) : M adapter (list ssl_frame) := _ ← log_s (EEvent events err); handlers.
Definition SignalSSLHandshakeError (e : SSLHandshakeError) : M adapter (list ssl_frame) := _ ← log_s (EHandshakeError e); handlers.

(** The rest of a method: at once, or after the handlers that run first. *)
Definition after (fs : list ssl_frame) (rest : ssl_frame) (now : M adapter (list ssl_frame)) : M adapter (list ssl_frame) :=
  match fs with [] => now | _ => mret (fs ++ [rest]) end.

(** ** State and options *)

Definition WaitingToVerifyPeerCertificate (a : adapter) : bool := client_auth_enabled_ a && negb (peer_certificate_verified_ a).
Definition HasPeerCertificateDigest (a : adapter) : bool :=
  negb (bool_decide (peer_certificate_digest_algorithm_ a = ""%string)) && negb (bool_decide (peer_certificate_digest_value_ a = [])).

Definition ssl_GetState (a : adapter) : StreamState :=
  match ssl_state_ a with
  | SSL_WAIT | SSL_CONNECTING => SS_OPENING
  | SSL_CONNECTED => if WaitingToVerifyPeerCertificate a then SS_OPENING else SS_OPEN
  | _ => SS_CLOSED
  end.
Definition IsTlsConnected (a : adapter) : bool := bool_decide (ssl_state_ a = SSL_CONNECTED).
(** [id]: that of the cipher in use, if there is one. *)
Definition GetSslCipherSuite (id : option Z) (a : adapter) : option Z :=
  if decide (ssl_state_ a = SSL_CONNECTED) then (fun id => u16 id) <$> id else None.
Definition GetSslVersion (ssl_version : Z) (a : adapter) : Z :=
  if decide (ssl_state_ a = SSL_CONNECTED) then
    if decide (ssl_mode_ a = SSL_MODE_DTLS) then
      if ssl_version =? DTLS1_VERSION then SSL_PROTOCOL_DTLS_10
      else if ssl_version =? DTLS1_2_VERSION then SSL_PROTOCOL_DTLS_12 else SSL_PROTOCOL_NOT_GIVEN
    else
      if ssl_version =? TLS1_VERSION then SSL_PROTOCOL_TLS_10
      else if ssl_version =? TLS1_1_VERSION then SSL_PROTOCOL_TLS_11
      else if ssl_version =? TLS1_2_VERSION then SSL_PROTOCOL_TLS_12 else SSL_PROTOCOL_NOT_GIVEN
  else SSL_PROTOCOL_NOT_GIVEN.
Definition GetSslVersionBytes (ssl_version : Z) (a : adapter) : option Z :=
  if decide (ssl_state_ a = SSL_CONNECTED) then Some ssl_version else None.
Definition GetDtlsSrtpCryptoSuite (profile : option Z) (a : adapter) : option Z :=
  if decide (ssl_state_ a = SSL_CONNECTED) then profile else None.
Definition ExportKeyingMaterial (ok : bool) : M adapter bool := _ ← use_ssl; mret ok.

(** The loop over the ciphers, with [internal_ciphers] so far. *)
Fixpoint srtp_names (ciphers : list Z) (internal_ciphers : string) : option string :=
  match ciphers with
  | [] => Some internal_ciphers
  | cipher :: ciphers =>
      match List.find (fun entry => cipher =? entry.2) kSrtpCipherMap with
      | Some (internal_name, _) =>
          srtp_names ciphers ((if decide (internal_ciphers = ""%string) then "" else internal_ciphers ++ ":") ++ internal_name)
      | None => None
      end
  end.
Definition SetDtlsSrtpCryptoSuites (ciphers : list Z) : M adapter bool :=
  a ← get;
  if decide (ssl_state_ a = SSL_NONE) then
    match srtp_names ciphers "" with
    | None => mret false
    | Some internal_ciphers =>
        if decide (internal_ciphers = ""%string) then mret false
        else _ ← modify (set_options (role_ a) internal_ciphers (ssl_mode_ a) (ssl_max_version_ a) (dtls_handshake_timeout_ms_ a)); mret true
    end
  else mret false.

(** ** Errors and the end *)

Definition Cleanup : M adapter unit :=
  a ← get;
  _ ← (if decide (ssl_state_ a = SSL_ERROR) then mret tt
       else _ ← modify (set_ssl_state SSL_CLOSED); modify (set_error_code 0));
  _ ← modify (set_objects false false);
  _ ← modify (set_peer false None (peer_certificate_verified_ a));
  modify (set_tasks None (posted a) (alive_ a)).
Definition ssl_Error (err : Z) (signal : bool) : M adapter (list ssl_frame) :=
  _ ← modify (set_ssl_state SSL_ERROR);
  _ ← modify (set_error_code err);
  _ ← Cleanup;
  if signal then SignalEvent SE_CLOSE err else mret [].
Definition ssl_Close : M adapter unit := _ ← Cleanup; log_s EStreamClose.
Definition delete_OpenSSLStreamAdapter : M adapter unit :=
  _ ← modify (fun a => set_tasks None (posted a) (alive_ a) a);
  _ ← Cleanup;
  modify (fun a => set_tasks None [] false a).

(** ** The certificate of the peer *)

Definition VerifyPeerCertificate : M adapter bool :=
  a ← get;
  if negb (HasPeerCertificateDigest a) then mret false
  else
    match peer_cert_chain_ a with
    | None => mret false
    | Some c =>
        match ComputeDigest (peer_certificate_digest_algorithm_ a) c with
        | None => mret false
        | Some computed_digest =>
            if decide (computed_digest = peer_certificate_digest_value_ a) then
              _ ← modify (set_peer (identity_ a) (Some c) true);
              _ ← log_s (EVerified c (peer_certificate_digest_algorithm_ a) computed_digest);
              mret true
            else mret false
        end
    end.
Definition SSLVerifyCallback (c : cert) : M adapter bool :=
  a ← get;
  _ ← modify (set_peer (identity_ a) (Some c) (peer_certificate_verified_ a));
  _ ← log_s (EPresented c);
  if decide (peer_certificate_digest_algorithm_ a = ""%string) then mret true else VerifyPeerCertificate.

(** A call of OpenSSL, with the callback that it makes. *)
Definition ssl_call (c : SslCall) : M adapter Z :=
  _ ← use_ssl;
  match presented c with
  | None => mret (if_accepted c)
  | Some x => ok ← SSLVerifyCallback x; mret (if (ok : bool) then if_accepted c else if_rejected c)
  end.

Definition PostEvent (events err : Z) : M adapter unit :=
  modify (fun a => set_tasks (timeout_task_ a) (posted a ++ [(events, err)]) (alive_ a) a).

Definition SetPeerCertificateDigest (digest_alg : string) (digest_val : list byte) : M adapter (bool * SSLPeerCertificateDigestError) :=
  match GetDigestSize digest_alg with
  | None => mret (false, UNKNOWN_ALGORITHM)
  | Some expected_len =>
      if negb (expected_len =? Z.of_nat (length digest_val)) then mret (false, INVALID_LENGTH)
      else
        _ ← modify (set_digest digest_val digest_alg);
        _ ← log_s (EDigest digest_alg digest_val);
        a ← get;
        match peer_cert_chain_ a with
        | None => mret (true, DIGEST_NONE)
        | Some _ =>
            ok ← VerifyPeerCertificate;
            if (ok : bool) then
              a ← get;
              _ ← (if decide (ssl_state_ a = SSL_CONNECTED) then PostEvent (Z.lor (Z.lor SE_OPEN SE_READ) SE_WRITE) 0 else mret tt);
              mret (true, DIGEST_NONE)
            else _ ← ssl_Error (-1) false; mret (false, VERIFICATION_FAILED)
        end
  end.

(** ** The handshake *)

(** The versions and the verify mode that are configured. *)
Definition protocol_versions (a : adapter) : Z * Z :=
  let dtls := bool_decide (ssl_mode_ a = SSL_MODE_DTLS) in
  if support_legacy_tls_protocols_flag_ a then
    (if dtls then DTLS1_VERSION else TLS1_VERSION,
     if ssl_max_version_ a =? SSL_PROTOCOL_TLS_10 then if dtls then DTLS1_VERSION else TLS1_VERSION
     else if ssl_max_version_ a =? SSL_PROTOCOL_TLS_11 then if dtls then DTLS1_VERSION else TLS1_1_VERSION
     else if dtls then DTLS1_2_VERSION else TLS1_2_VERSION)
  else (if dtls then DTLS1_2_VERSION else TLS1_2_VERSION, if dtls then DTLS1_2_VERSION else TLS1_2_VERSION).
Definition verify_mode (a : adapter) : Z := if client_auth_enabled_ a then Z.lor 1 2 else 1.

(** Whether there is a context. *)
Definition SetupSSLContext (s : Setup) : M adapter bool :=
  a ← get;
  if negb (ctx_ok s) || identity_ a && negb (configure_ok s) || negb (bool_decide (srtp_ciphers_ a = ""%string)) && negb (srtp_ok s)
  then mret false
  else _ ← log_s (EContext (protocol_versions a).1 (protocol_versions a).2 (verify_mode a)); mret true.

Definition SetTimeout (delay_ms : Z) : M adapter unit :=
  modify (fun a => set_tasks (Some delay_ms) (posted a) (alive_ a) a).

(** The handlers that run before the caller goes on, and the result. *)
Definition ContinueSSL (h : Handshake) : M adapter (list ssl_frame * Z) :=
  _ ← modify (fun a => set_tasks None (posted a) (alive_ a) a);
  ssl_error ← ssl_call (hs_call h);
  if ssl_error =? SSL_ERROR_NONE then
    _ ← modify (set_ssl_state SSL_CONNECTED);
    a ← get;
    if negb (WaitingToVerifyPeerCertificate a)
    then fs ← SignalEvent (Z.lor (Z.lor SE_OPEN SE_READ) SE_WRITE) 0; mret (fs, 0)
    else mret ([], 0)
  else if ssl_error =? SSL_ERROR_WANT_READ then
    _ ← (match hs_timeout h with
         | Some (sec, usec) => SetTimeout (sec * 1000 + Z.quot usec 1000)
         | None => mret tt
         end);
    mret ([], 0)
  else if ssl_error =? SSL_ERROR_WANT_WRITE then mret ([], 0)
  else
    fs ← SignalSSLHandshakeError (if no_shared_cipher h then HS_INCOMPATIBLE_CIPHERSUITE else HS_UNKNOWN);
    mret (fs, ssl_error).

Definition BeginSSL (s : Setup) (h : Handshake) : M adapter (list ssl_frame * Z) :=
  ok ← SetupSSLContext s;
  a ← get;
  _ ← modify (set_objects (ssl_ a) ok);
  if negb ok || negb (bio_ok s) || negb (new_ok s) then mret ([], -1)
  else _ ← modify (set_objects true true); ContinueSSL h.

(** The result is given to the caller at once; [Error] waits for the handlers. *)
Definition StartSSL (stream : StreamState) (s : Setup) (h : Handshake) : M adapter (list ssl_frame * Z) :=
  a ← get;
  if decide (ssl_state_ a = SSL_NONE) then
    _ ← log_s EStart;
    match stream with
    | SS_OPEN =>
        _ ← modify (set_ssl_state SSL_CONNECTING);
        q ← BeginSSL s h;
        if negb (q.2 =? 0) then fs ← after q.1 (FError q.2 false) (ssl_Error q.2 false); mret (fs, q.2) else mret q
    | _ => _ ← modify (set_ssl_state SSL_WAIT); mret ([], 0)
    end
  else mret ([], -1).

(** The task of [SetTimeout]: the result of [ContinueSSL] is not used. *)
Definition timeout_expired (h : Handshake) : M adapter (list ssl_frame) :=
  _ ← modify (fun a => set_tasks None (posted a) (alive_ a) a);
  _ ← use_ssl;
  q ← ContinueSSL h;
  mret q.1.

(** ** Events of the wrapped stream *)

Definition has (events e : Z) : bool := negb (Z.land events e =? 0).

Definition OnEvent_close (events events_to_signal err : Z) : M adapter (list ssl_frame) :=
  q ← (if has events SE_CLOSE then _ ← Cleanup; mret (Z.lor events_to_signal SE_CLOSE, err) else mret (events_to_signal, 0));
  if q.1 =? 0 then mret [] else SignalEvent q.1 q.2.

Definition OnEvent_rw (events events_to_signal err : Z) (h : Handshake) : M adapter (list ssl_frame) :=
  a ← get;
  if has events (Z.lor SE_READ SE_WRITE) then
    match ssl_state_ a with
    | SSL_NONE => OnEvent_close events (Z.lor events_to_signal (Z.land events (Z.lor SE_READ SE_WRITE))) err
    | SSL_CONNECTING =>
        q ← ContinueSSL h;
        if negb (q.2 =? 0) then after q.1 (FError q.2 true) (ssl_Error q.2 true)
        else after q.1 (FClose events events_to_signal err) (OnEvent_close events events_to_signal err)
    | SSL_CONNECTED =>
        let w := has events SE_READ && ssl_write_needs_read_ a || has events SE_WRITE in
        let r := has events SE_WRITE && ssl_read_needs_write_ a || has events SE_READ in
        OnEvent_close events (Z.lor (Z.lor events_to_signal (if w then SE_WRITE else 0)) (if r then SE_READ else 0)) err
    | _ => OnEvent_close events events_to_signal err
    end
  else OnEvent_close events events_to_signal err.

Definition ssl_OnEvent (events err : Z) (s : Setup) (h h' : Handshake) : M adapter (list ssl_frame) :=
  a ← get;
  if has events SE_OPEN then
    if negb (bool_decide (ssl_state_ a = SSL_WAIT)) then OnEvent_rw events SE_OPEN err h'
    else
      _ ← modify (set_ssl_state SSL_CONNECTING);
      q ← BeginSSL s h;
      if negb (q.2 =? 0) then after q.1 (FError q.2 true) (ssl_Error q.2 true)
      else after q.1 (FReadWrite events 0 err h') (OnEvent_rw events 0 err h')
  else OnEvent_rw events 0 err h'.

(** ** Reading and writing *)

(** [ssl_error_code_], copied to the caller. *)
Definition last_error : M adapter StreamResult :=
  a ← get; match ssl_error_code_ a with Some e => mret (SR_ERROR e) | None => ub_ Uninitialised end.
(** [checked_cast<int>(data_len)]. *)
Definition checked_int (n : Z) : M adapter unit := if n <=? INT_MAX then mret tt else lift Abort.

(** [answers]: what [SSL_get_error] says and the number of bytes, call by call. *)
Fixpoint FlushInput (left : Z) (answers : list (Z * Z)) {struct answers} : M adapter unit :=
  if left =? 0 then mret tt
  else
    match answers with
    | [] => lift OutOfFuel
    | (ssl_error, code) :: answers =>
        _ ← use_ssl;
        if negb (ssl_error =? SSL_ERROR_NONE) then _ ← ssl_Error ssl_error false; mret tt
        else FlushInput (u32 (left - code)) answers
    end.

Definition ssl_Write (data_len : Z) (clear : StreamResult) (call : SslCall) (code : Z) : M adapter StreamResult :=
  a ← get;
  match ssl_state_ a with
  | SSL_NONE => _ ← log_s EClear; mret clear
  | SSL_WAIT | SSL_CONNECTING => mret SR_BLOCK
  | SSL_ERROR | SSL_CLOSED => last_error
  | SSL_CONNECTED =>
      if WaitingToVerifyPeerCertificate a then mret SR_BLOCK
      else if data_len =? 0 then mret (SR_SUCCESS 0)
      else
        _ ← modify (set_needs (ssl_read_needs_write_ a) false);
        _ ← checked_int data_len;
        ssl_error ← ssl_call call;
        if ssl_error =? SSL_ERROR_NONE then _ ← log_s (ESecret code); mret (SR_SUCCESS code)
        else if ssl_error =? SSL_ERROR_WANT_READ then _ ← modify (fun a => set_needs (ssl_read_needs_write_ a) true a); mret SR_BLOCK
        else if ssl_error =? SSL_ERROR_WANT_WRITE then mret SR_BLOCK
        else _ ← ssl_Error ssl_error false; last_error
  end.

Definition ssl_Read (data_len : Z) (clear : StreamResult) (call : SslCall) (code pending : Z) (flush : list (Z * Z)) : M adapter StreamResult :=
  a ← get;
  match ssl_state_ a with
  | SSL_NONE => _ ← log_s EClear; mret clear
  | SSL_WAIT | SSL_CONNECTING => mret SR_BLOCK
  | SSL_CLOSED => mret SR_EOS
  | SSL_ERROR => last_error
  | SSL_CONNECTED =>
      if WaitingToVerifyPeerCertificate a then mret SR_BLOCK
      else if data_len =? 0 then mret (SR_SUCCESS 0)
      else
        _ ← modify (set_needs false (ssl_write_needs_read_ a));
        _ ← checked_int data_len;
        ssl_error ← ssl_call call;
        if ssl_error =? SSL_ERROR_NONE then
          _ ← log_s (ESecret code);
          if bool_decide (ssl_mode_ a = SSL_MODE_DTLS) && negb (pending =? 0)
          then _ ← FlushInput pending flush; mret (SR_ERROR SSE_MSG_TRUNC)
          else mret (SR_SUCCESS code)
        else if ssl_error =? SSL_ERROR_WANT_READ then mret SR_BLOCK
        else if ssl_error =? SSL_ERROR_WANT_WRITE then _ ← modify (fun a => set_needs true (ssl_write_needs_read_ a) a); mret SR_BLOCK
        else if ssl_error =? SSL_ERROR_ZERO_RETURN then _ ← ssl_Close; mret SR_EOS
        else _ ← ssl_Error ssl_error false; last_error
  end.

(** ** The machine *)

Definition do_ssl_op (o : ssl_op) : M adapter (list ssl_frame) :=
  match o with
  | OSetIdentity => _ ← modify (fun a => set_peer true (peer_cert_chain_ a) (peer_certificate_verified_ a) a); mret []
  | OSetServerRole role => _ ← modify (fun a => set_options role (srtp_ciphers_ a) (ssl_mode_ a) (ssl_max_version_ a) (dtls_handshake_timeout_ms_ a) a); mret []
  | OSetMode mode => _ ← modify (fun a => set_options (role_ a) (srtp_ciphers_ a) mode (ssl_max_version_ a) (dtls_handshake_timeout_ms_ a) a); mret []
  | OSetMaxProtocolVersion version => _ ← modify (fun a => set_options (role_ a) (srtp_ciphers_ a) (ssl_mode_ a) version (dtls_handshake_timeout_ms_ a) a); mret []
  | OSetInitialRetransmissionTimeout timeout_ms => _ ← modify (fun a => set_options (role_ a) (srtp_ciphers_ a) (ssl_mode_ a) (ssl_max_version_ a) timeout_ms a); mret []
  | OSetDtlsSrtpCryptoSuites ciphers => _ ← SetDtlsSrtpCryptoSuites ciphers; mret []
  | OSetPeerCertificateDigest digest_alg digest_val => _ ← SetPeerCertificateDigest digest_alg digest_val; mret []
  | OStartSSL stream s h => q ← StartSSL stream s h; mret q.1
  | ORead data_len clear call code pending flush => _ ← ssl_Read data_len clear call code pending flush; mret []
  | OWrite data_len clear call code => _ ← ssl_Write data_len clear call code; mret []
  | OClose => _ ← ssl_Close; mret []
  | OStreamEvent events err s h h' => ssl_OnEvent events err s h h'
  | OTimeout h => timeout_expired h
  | OPosted =>
      a ← get;
      match posted a with
      | [] => mret []
      | (events, err) :: tasks => _ ← modify (set_tasks (timeout_task_ a) tasks (alive_ a)); SignalEvent events err
      end
  | OExportKeyingMaterial ok => _ ← ExportKeyingMaterial ok; mret []
  | ODestroy => _ ← delete_OpenSSLStreamAdapter; mret []
  end.

(** What the client, the wrapped stream and the thread must observe: the adapter
    lives; the stream opens once; no task runs, and the adapter is not destroyed,
    inside a method; lengths are [int]s; keys are exported only while there is a
    connection. *)
Definition no_method (k : list ssl_frame) : bool := forallb (fun f => match f with FOp _ => true | _ => false end) k.
Definition ssl_op_ok (a : adapter) (k : list ssl_frame) (o : ssl_op) : bool :=
  alive_ a &&
  match o with
  | OStreamEvent events _ _ _ _ => negb (has events SE_OPEN) || bool_decide (ssl_state_ a = SSL_NONE) || bool_decide (ssl_state_ a = SSL_WAIT)
  | OTimeout _ => no_method k && bool_decide (is_Some (timeout_task_ a))
  | OPosted | ODestroy => no_method k
  | ORead data_len _ _ _ _ _ | OWrite data_len _ _ _ => data_len <=? INT_MAX
  | OExportKeyingMaterial _ => ssl_ a
  | _ => true
  end.

Definition ssl_step (k : list ssl_frame) : M adapter (list ssl_frame) :=
  match k with
  | [] => mret []
  | f :: k =>
      fs ← (match f with
            | FOp o => a ← get; if ssl_op_ok a k o then do_ssl_op o else mret []
            | FError err signal => ssl_Error err signal
            | FReadWrite events events_to_signal err h => OnEvent_rw events events_to_signal err h
            | FClose events events_to_signal err => OnEvent_close events events_to_signal err
            end);
      mret (fs ++ k)
  end.
Fixpoint ssl_run (n : nat) (k : list ssl_frame) : M adapter (list ssl_frame) :=
  match n with O => mret k | S n => k ← ssl_step k; ssl_run n k end.
End machine.
End adapter.
