(* ===== verification/SslStreamInv.v ===== *)
(** * No data before the certificate of the peer is verified

    What the adapter of SslStream.v did is judged event by event: data and the
    opening of the stream after a certificate with a digest that the client had
    set, clear text only before [StartSSL].  The invariant that carries the
    proof, operation by operation. *)

From stdpp Require Import list strings.
From S2P Require Import Prelude CertTime SslStream.
#[local] Open Scope Z_scope.
#[local] Open Scope xrtc_scope.

Section adapter.
Context {cert : Type} (ComputeDigest : string -> cert -> option (list byte)).
Notation adapter := (@OpenSSLStreamAdapter cert).
Notation ssl_event := (@ssl_event cert).

(** ** The rules *)

Record history := MkHistory {
  h_started : bool;
  h_digests : list (string * list byte);
  h_certs : list cert;
  h_verified : bool;
}.
Definition h_begin : history := MkHistory false [] [] false.
Definition h_next (g : history) (e : ssl_event) : history :=
  match e with
  | EStart => MkHistory true (h_digests g) (h_certs g) (h_verified g)
  | EDigest alg value => MkHistory (h_started g) ((alg, value) :: h_digests g) (h_certs g) (h_verified g)
  | EPresented c => MkHistory (h_started g) (h_digests g) (c :: h_certs g) (h_verified g)
  | EVerified _ _ _ => MkHistory (h_started g) (h_digests g) (h_certs g) true
  | _ => g
  end.

(** Clear text only before [StartSSL]; data only after a verification; after
    [StartSSL] the stream opens only when a certificate is verified; a
    certificate is verified only if the peer presented it, the client set a
    digest of the size of its algorithm, and that is the digest of the
    certificate. *)
Definition lawful (g : history) (e : ssl_event) : Prop :=
  match e with
  | EClear => h_started g = false
  | ESecret _ => h_verified g = true
  | EEvent events _ => has events SE_OPEN = true -> h_started g = true -> h_verified g = true
  | EVerified c alg value => (alg, value) ∈ h_digests g /\ c ∈ h_certs g /\ ComputeDigest alg c = Some value
  | EDigest alg value => GetDigestSize alg = Some (Z.of_nat (length value))
  | _ => True
  end.
Fixpoint all_lawful (g : history) (es : list ssl_event) : Prop :=
  match es with [] => True | e :: es => lawful g e /\ all_lawful (h_next g e) es end.

Definition past (es : list ssl_event) : history := foldl h_next h_begin es.
#[local] Arguments past : simpl never.
Lemma past_app es e : past (es ++ [e]) = h_next (past es) e.
Proof. unfold past. by rewrite foldl_app. Qed.
Lemma all_lawful_app g es e : all_lawful g (es ++ [e]) <-> all_lawful g es /\ lawful (foldl h_next g es) e.
Proof. revert g. induction es as [|x es IH]; intros g; cbn; rewrite ?IH; tauto. Qed.

(** ** The invariant *)

(** What does not concern the objects of OpenSSL. *)
Record core (a : adapter) : Prop := {
  c_auth : client_auth_enabled_ a = true;
  c_lawful : all_lawful h_begin (ssl_events a);
  c_verified : h_verified (past (ssl_events a)) = peer_certificate_verified_ a;
  c_started : h_started (past (ssl_events a)) = true -> ssl_state_ a <> SSL_NONE;
  c_digest : peer_certificate_digest_algorithm_ a <> ""%string ->
    (peer_certificate_digest_algorithm_ a, peer_certificate_digest_value_ a) ∈ h_digests (past (ssl_events a));
  c_chain c : peer_cert_chain_ a = Some c -> c ∈ h_certs (past (ssl_events a));
  c_posted : posted a <> [] -> peer_certificate_verified_ a = true;
}.
Definition connecting (a : adapter) : Prop := ssl_state_ a = SSL_CONNECTING \/ ssl_state_ a = SSL_CONNECTED.
(** The connection and its context exist exactly while they are needed, the task
    runs only in a handshake, and the error code is set when it is asked for. *)
Record objects (a : adapter) : Prop := {
  o_ssl : ssl_ a = true <-> connecting a;
  o_ctx : ssl_ctx_ a = ssl_ a;
  o_timer : is_Some (timeout_task_ a) -> ssl_state_ a = SSL_CONNECTING;
  o_code : ssl_state_ a = SSL_ERROR \/ ssl_state_ a = SSL_CLOSED -> is_Some (ssl_error_code_ a);
}.
Record adapter_ok (a : adapter) : Prop := { ok_core : core a; ok_objects : objects a }.

(** Fields that the invariant does not mention may change. *)
Lemma adapter_ok_needs r w a : adapter_ok a -> adapter_ok (set_needs r w a).
Proof. intros [[] []]. by split; split. Qed.
Lemma adapter_ok_options r s m v t a : adapter_ok a -> adapter_ok (set_options r s m v t a).
Proof. intros [[] []]. by split; split. Qed.
Lemma adapter_ok_identity b a : adapter_ok a -> adapter_ok (set_peer b (peer_cert_chain_ a) (peer_certificate_verified_ a) a).
Proof. intros [[] []]. by split; split. Qed.

(** Events that say nothing about the peer. *)
Definition neutral (e : ssl_event) : Prop :=
  match e with EStart | EPresented _ | EVerified _ _ _ | EDigest _ _ => False | _ => True end.
Lemma core_log e a : core a -> neutral e -> lawful (past (ssl_events a)) e -> core (log_ssl e a).
Proof.
  intros [H1 H2 H3 H4 H5 H6 H7] He Hl. assert (past (ssl_events a ++ [e]) = past (ssl_events a)) as Hp.
  { rewrite past_app. by destruct e. }
  split; cbn; rewrite ?Hp; try done. by apply all_lawful_app.
Qed.
Lemma objects_log e a : objects a -> objects (log_ssl e a).
Proof. intros []. by split. Qed.
Lemma adapter_ok_log e a : adapter_ok a -> neutral e -> lawful (past (ssl_events a)) e -> adapter_ok (log_ssl e a).
Proof. intros [H1 H2] He Hl. split; [by apply core_log|by apply objects_log]. Qed.

Lemma core_state st a : core a -> st <> SSL_NONE -> core (set_ssl_state st a).
Proof. intros [] Hst. by split. Qed.

Section machine.
Context (handler : list ssl_event -> list (@ssl_op cert)).

(** Handlers are operations. *)
Definition op_frames (fs : list (@ssl_frame cert)) : Prop := Forall (fun f => match f with FOp _ => True | _ => False end) fs.

Lemma handlers_ok a : wp (handlers handler) a (fun fs a' => a' = a /\ op_frames fs).
Proof. apply wp_bind, wp_get, wp_ret. split; [done|]. unfold op_frames. induction (handler _); by constructor. Qed.

Lemma SignalEvent_ok a events err : adapter_ok a ->
  (has events SE_OPEN = true -> h_started (past (ssl_events a)) = true -> peer_certificate_verified_ a = true) ->
  wp (SignalEvent handler events err) a (fun fs a' => adapter_ok a' /\ op_frames fs).
Proof.
  intros Ha Hopen. apply wp_bind, wp_modify. eapply wp_mono; [apply handlers_ok|]. intros fs a' [-> Hfs]. split; [|done].
  apply adapter_ok_log; [done|done|]. cbn. intros He Hst. rewrite (c_verified _ (ok_core _ Ha)). by apply Hopen.
Qed.
Lemma SignalSSLHandshakeError_ok a e : adapter_ok a ->
  wp (SignalSSLHandshakeError handler e) a (fun fs a' => adapter_ok a' /\ ssl_state_ a' = ssl_state_ a /\ op_frames fs).
Proof.
  intros Ha. apply wp_bind, wp_modify. eapply wp_mono; [apply handlers_ok|]. intros fs a' [-> Hfs]. split; [|done].
  by apply adapter_ok_log.
Qed.

Lemma Cleanup_ok a : core a -> (ssl_state_ a = SSL_ERROR -> is_Some (ssl_error_code_ a)) ->
  wp Cleanup a (fun _ a' => adapter_ok a' /\ (ssl_state_ a' = SSL_ERROR \/ ssl_state_ a' = SSL_CLOSED) /\
    peer_certificate_verified_ a' = peer_certificate_verified_ a /\ ssl_events a' = ssl_events a).
Proof.
  intros [H1 H2 H3 H4 H5 H6 H7] Hcode. unfold Cleanup. apply wp_bind, wp_get.
  destruct (decide (ssl_state_ a = SSL_ERROR)) as [He|He].
  - apply wp_bind, wp_ret. do 2 apply wp_bind, wp_modify. apply wp_modify.
    split; [|split; [by left|done]]. split; [by split|]. split; cbn; unfold connecting; cbn; rewrite ?He; try done; [|by auto].
    split; [done|]. by intros [?|?].
  - apply wp_bind, wp_bind, wp_modify, wp_modify. do 2 apply wp_bind, wp_modify. apply wp_modify.
    split; [|split; [by right|done]]. split; [by split|]. split; cbn; unfold connecting; cbn; try done.
    split; [done|]. by intros [?|?].
Qed.

Lemma ssl_Error_ok a err signal : core a -> wp (ssl_Error handler err signal) a (fun fs a' => adapter_ok a' /\ op_frames fs /\ is_Some (ssl_error_code_ a')).
Proof.
  intros Ha. unfold ssl_Error. do 2 apply wp_bind, wp_modify.
  eapply wp_bind, wp_mono; [apply Cleanup_ok; [|by intros _; eexists]|].
  { apply (core_state SSL_ERROR) in Ha as []; [|done]. by split. }
  intros _x a' (Ha' & Hst & _). assert (is_Some (ssl_error_code_ a')) as Hc by by apply (o_code _ (ok_objects _ Ha')).
  destruct signal; [|apply wp_ret; split_and!; [done|constructor|done]]. apply wp_bind, wp_modify. eapply wp_mono; [apply handlers_ok|]. intros fs a2 [-> Hfs].
  split; [|done]. by apply adapter_ok_log.
Qed.

Lemma ssl_Close_ok a : adapter_ok a -> wp ssl_Close a (fun _ a' => adapter_ok a').
Proof.
  intros Ha. unfold ssl_Close. eapply wp_bind, wp_mono; [apply Cleanup_ok; [apply Ha|]|].
  { intros He. apply (o_code _ (ok_objects _ Ha)). by left. }
  intros _x a' (Ha' & _). apply wp_modify. by apply adapter_ok_log.
Qed.

(** ** Certificates *)

(** The verification keeps everything but the fact that it succeeded. *)
Lemma VerifyPeerCertificate_ok a : core a -> wp (VerifyPeerCertificate ComputeDigest) a (fun ok a' =>
  core a' /\ (objects a -> objects a') /\ (ok = true \/ peer_certificate_verified_ a = true -> peer_certificate_verified_ a' = true) /\
  ssl_ a' = ssl_ a /\ ssl_state_ a' = ssl_state_ a /\ timeout_task_ a' = timeout_task_ a).
Proof.
  intros Ha. set (Q := fun _ _ => _). assert (wp (mret false) a Q) as Hno by (apply wp_ret; split_and!; try done; by intros [?|?]).
  unfold VerifyPeerCertificate. apply wp_bind, wp_get. destruct (HasPeerCertificateDigest a) eqn:Hd; cbn [negb]; [|exact Hno].
  destruct (peer_cert_chain_ a) as [c|] eqn:Hc; [|exact Hno]. destruct (ComputeDigest _ c) as [v|] eqn:Hv; [|exact Hno].
  destruct (decide (v = _)) as [->|]; [|exact Hno]. apply wp_bind, wp_modify, wp_bind, wp_modify, wp_ret.
  apply andb_prop in Hd as [Hd _]. rewrite negb_true_iff, bool_decide_eq_false in Hd. destruct Ha as [H1 H2 H3 H4 H5 H6 H7].
  split; [|split; [intros []; by split|done]]. split; cbn; rewrite ?past_app; cbn; try done; [|by intros c' [= <-]; apply H6].
  apply all_lawful_app. split; [done|]. cbn. split_and!; [by apply H5|by apply H6|done].
Qed.

Lemma core_presented a c : core a -> core (log_ssl (EPresented c) (set_peer (identity_ a) (Some c) (peer_certificate_verified_ a) a)).
Proof.
  intros [H1 H2 H3 H4 H5 H6 H7]. split; cbn; rewrite ?past_app; cbn; try done; [by apply all_lawful_app|].
  intros c' [= <-]. by apply elem_of_cons; left.
Qed.

Lemma ssl_call_ok a c : core a -> ssl_ a = true -> wp (ssl_call ComputeDigest c) a (fun _ a' =>
  core a' /\ (objects a -> objects a') /\ (peer_certificate_verified_ a = true -> peer_certificate_verified_ a' = true) /\ ssl_ a' = true /\ ssl_state_ a' = ssl_state_ a /\ timeout_task_ a' = timeout_task_ a).
Proof.
  intros Ha Hs. unfold ssl_call. apply wp_bind. unfold use_ssl. apply wp_bind, wp_get. rewrite Hs. apply wp_ret.
  destruct (presented c) as [x|]; [|by apply wp_ret]. apply wp_bind. unfold SSLVerifyCallback.
  apply wp_bind, wp_get, wp_bind, wp_modify, wp_bind, wp_modify.
  pose proof (core_presented _ x Ha) as Hx. set (a1 := log_ssl _ _) in *.
  assert (objects a -> objects a1) as Ho by (intros []; by split).
  destruct (decide _); [by apply wp_ret, wp_ret|].
  eapply wp_mono; [by apply VerifyPeerCertificate_ok|]. intros ok a' (H1 & H2 & Hv & H3 & H4 & H5). apply wp_ret. cbn in *.
  rewrite H3, H4, H5. split_and!; auto.
Qed.
Lemma ssl_call_connected a c : adapter_ok a -> connecting a -> wp (ssl_call ComputeDigest c) a (fun _ a' =>
  adapter_ok a' /\ connecting a' /\ (peer_certificate_verified_ a = true -> peer_certificate_verified_ a' = true) /\
  ssl_state_ a' = ssl_state_ a /\ timeout_task_ a' = timeout_task_ a).
Proof.
  intros Ha Hc. eapply wp_mono; [apply ssl_call_ok; [apply Ha|by apply (o_ssl _ (ok_objects _ Ha))]|].
  intros e a' (H1 & H2 & Hv & H3 & H4 & H5). unfold connecting. rewrite H4. split; [split; [done|apply H2, Ha]|done].
Qed.

Lemma core_digest a alg v : core a -> GetDigestSize alg = Some (Z.of_nat (length v)) -> core (log_ssl (EDigest alg v) (set_digest v alg a)).
Proof.
  intros [H1 H2 H3 H4 H5 H6 H7] Hv. split; cbn; rewrite ?past_app; cbn; try done; [by apply all_lawful_app|].
  intros _. by apply elem_of_cons; left.
Qed.

Lemma SetPeerCertificateDigest_ok a alg v : adapter_ok a ->
  wp (SetPeerCertificateDigest ComputeDigest handler alg v) a (fun _ a' => adapter_ok a').
Proof.
  intros Ha. unfold SetPeerCertificateDigest. destruct (GetDigestSize alg) as [n|] eqn:Hn; [|by apply wp_ret].
  destruct (Z.eqb_spec n (Z.of_nat (length v))) as [->|]; [|by apply wp_ret]. cbn [negb].
  apply wp_bind, wp_modify, wp_bind, wp_modify, wp_bind, wp_get. pose proof (core_digest _ alg v (ok_core _ Ha) Hn) as Hc.
  set (a1 := log_ssl _ _) in *. assert (objects a1) as Ho by (destruct Ha as [_ []]; by split).
  destruct (peer_cert_chain_ a1); [|by apply wp_ret].
  eapply wp_bind, wp_mono; [by apply VerifyPeerCertificate_ok|]. intros ok a2 (H1 & H2 & H3 & _). specialize (H2 Ho).
  destruct ok.
  - apply wp_bind, wp_get, wp_bind. destruct (decide _); [|by apply wp_ret, wp_ret]. apply wp_modify, wp_ret.
    specialize (H3 (or_introl eq_refl)). destruct H1, H2. by split; split.
  - eapply wp_bind, wp_mono; [by apply ssl_Error_ok|]. intros fs a3 (H4 & _). by apply wp_ret.
Qed.

(** ** The handshake *)

Lemma adapter_ok_timer_off a : adapter_ok a -> adapter_ok (set_tasks None (posted a) (alive_ a) a).
Proof. intros [[] []]. split; split; try done. by intros []. Qed.
Lemma adapter_ok_connected a : adapter_ok a -> connecting a -> timeout_task_ a = None -> adapter_ok (set_ssl_state SSL_CONNECTED a).
Proof.
  intros [H [O1 O2 O3 O4]] Hc Ht. split; [by apply core_state|]. split; cbn; unfold connecting; cbn; try done.
  - split; [by auto|]. intros _. by apply O1.
  - rewrite Ht. by intros [].
  - by intros [].
Qed.

Lemma ContinueSSL_ok a h : adapter_ok a -> ssl_state_ a = SSL_CONNECTING ->
  wp (ContinueSSL ComputeDigest handler h) a (fun q a' => adapter_ok a' /\ op_frames q.1).
Proof.
  intros Ha Hst. unfold ContinueSSL. apply wp_bind, wp_modify. apply adapter_ok_timer_off in Ha. set (a1 := set_tasks _ _ _ a) in *.
  eapply wp_bind, wp_mono; [apply ssl_call_connected; [done|by left]|]. intros e a2 (Ha2 & Hc2 & _ & Hst2 & Ht2).
  assert (op_frames []) as Hnil by constructor.
  destruct (e =? SSL_ERROR_NONE); [|destruct (e =? SSL_ERROR_WANT_READ); [|destruct (e =? SSL_ERROR_WANT_WRITE)]].
  - apply wp_bind, wp_modify, wp_bind, wp_get. pose proof (adapter_ok_connected _ Ha2 Hc2 Ht2) as Ha3.
    destruct (WaitingToVerifyPeerCertificate _) eqn:Hw; cbn [negb]; [by apply wp_ret|].
    eapply wp_bind, wp_mono; [apply SignalEvent_ok; [done|]|].
    { intros _ _. unfold WaitingToVerifyPeerCertificate in Hw. rewrite (c_auth _ (ok_core _ Ha3)) in Hw. by destruct (peer_certificate_verified_ _). }
    intros fs a4 [Ha4 Hfs]. by apply wp_ret.
  - apply wp_bind, (wp_mono _ _ (fun _ => adapter_ok)); [|by intros _x a3 Ha3; apply wp_ret].
    destruct (hs_timeout h) as [[sec usec]|]; [|by apply wp_ret]. apply wp_modify. destruct Ha2 as [[] []]. split; split; try done. cbn. by rewrite Hst2.
  - by apply wp_ret.
  - eapply wp_bind, wp_mono; [by apply SignalSSLHandshakeError_ok|]. intros fs a3 (Ha3 & _ & Hfs). by apply wp_ret.
Qed.

(** Before [BeginSSL] there are no objects yet. *)
Record no_objects (a : adapter) : Prop := { n_ssl : ssl_ a = false; n_ctx : ssl_ctx_ a = false; n_timer : timeout_task_ a = None }.
Lemma adapter_ok_idle a : adapter_ok a -> ~ connecting a -> no_objects a.
Proof.
  intros [_ [O1 O2 O3 O4]] Hc. assert (ssl_ a = false) as Hs by (destruct (ssl_ a); [by destruct Hc; apply O1|done]).
  split; [done|congruence|]. destruct (timeout_task_ a); [|done]. destruct Hc. left. apply O3. by eexists.
Qed.

Lemma BeginSSL_ok a s h : core a -> no_objects a -> ssl_state_ a = SSL_CONNECTING ->
  wp (BeginSSL ComputeDigest handler s h) a (fun q a' => op_frames q.1 /\ (adapter_ok a' \/ core a' /\ q = ([], -1))).
Proof.
  intros Ha [N1 N2 N3] Hst. unfold BeginSSL.
  apply wp_bind, (wp_mono _ _ (fun _ a' => core a' /\ no_objects a' /\ ssl_state_ a' = SSL_CONNECTING)).
  { unfold SetupSSLContext. apply wp_bind, wp_get. destruct (_ || _); [by apply wp_ret|]. apply wp_bind, wp_modify, wp_ret.
    split; [by apply core_log|done]. }
  intros ok a1 (Ha1 & [M1 M2 M3] & Hst1). apply wp_bind, wp_get, wp_bind, wp_modify.
  destruct (_ || _).
  - apply wp_ret. split; [constructor|right]. split; [|done]. by destruct Ha1.
  - apply wp_bind, wp_modify. eapply wp_mono; [apply ContinueSSL_ok; [|done]|]; [|by intros q a2 [H1 H2]; split; [|left]].
    split; [by destruct Ha1|]. split; cbn; unfold connecting; cbn; rewrite ?Hst1, ?M3; try done; try by intros [].
    split; [by auto|done].
Qed.

(** The end of a method whose handshake has failed. *)
Lemma after_ok (fs : list ssl_frame) rest now a (Q : list ssl_frame -> adapter -> Prop) :
  (fs = [] -> wp now a Q) -> (fs <> [] -> Q (fs ++ [rest]) a) -> wp (after fs rest now) a Q.
Proof. intros H1 H2. destruct fs; [by apply H1|]. by apply wp_ret, H2. Qed.

(** Frames that wait: the signals of [OnEvent] were not due yet. *)
Definition frame_ok (f : @ssl_frame cert) : Prop :=
  match f with FReadWrite _ sig _ _ | FClose _ sig _ => sig = 0 | _ => True end.
Lemma op_frames_ok fs : op_frames fs -> Forall frame_ok fs.
Proof. intros H. eapply Forall_impl; [exact H|]. by intros []. Qed.

(** What a method leaves. *)
Definition leaves (fs : list ssl_frame) (a : adapter) : Prop := adapter_ok a /\ Forall frame_ok fs.

Lemma Error_after a fs err signal : op_frames fs -> adapter_ok a \/ core a /\ fs = [] ->
  wp (after fs (FError err signal) (ssl_Error handler err signal)) a leaves.
Proof.
  intros Hfs Ha. apply after_ok.
  - intros ->. eapply wp_mono; [apply ssl_Error_ok; destruct Ha as [Ha|[Ha _]]; [apply Ha|done]|].
    intros fs' a' (H1 & H2 & _). split; [done|by apply op_frames_ok].
  - intros Hne. destruct Ha as [Ha|[_ ->]]; [|done]. split; [done|]. apply Forall_app_2; [by apply op_frames_ok|by repeat constructor].
Qed.

Lemma StartSSL_ok a stream s h : adapter_ok a -> wp (StartSSL ComputeDigest handler stream s h) a (fun q a' => leaves q.1 a').
Proof.
  intros Ha. unfold StartSSL. apply wp_bind, wp_get. destruct (decide _) as [Hst|]; [|by apply wp_ret; split; [|constructor]].
  apply wp_bind, wp_modify. assert (no_objects a) as Hno by (apply adapter_ok_idle; [done|unfold connecting; rewrite Hst; by intros []]).
  assert (forall st, st <> SSL_NONE -> core (set_ssl_state st (log_ssl EStart a))) as Hcore.
  { intros st Hne. destruct Ha as [[C1 C2 C3 C4 C5 C6 C7] _]. split; cbn; rewrite ?past_app; cbn; try done. by apply all_lawful_app. }
  assert (forall st, st <> SSL_NONE -> wp (mbind (fun _ : unit => mret ([], 0)) (modify (set_ssl_state SSL_WAIT))) (log_ssl EStart a)
    (fun q a' => leaves q.1 a')) as Hwait.
  { intros _ _. apply wp_bind, wp_modify, wp_ret. split; [|constructor]. split; [by apply Hcore|]. destruct Hno as [N1 N2 N3].
    split; cbn; unfold connecting; cbn; rewrite ?N1, ?N2, ?N3; try done; try by intros []. split; [done|by intros []]. }
  destruct stream; [by apply (Hwait SSL_WAIT)..|]. apply wp_bind, wp_modify.
  eapply wp_bind, wp_mono; [apply BeginSSL_ok; [by apply Hcore|by destruct Hno|done]|].
  intros [fs e] a' [Hfs Ha']. cbn [fst snd] in *. destruct (Z.eqb_spec e 0) as [->|Hne]; cbn [negb].
  - apply wp_ret. destruct Ha' as [Ha'|[_ [=]]]. split; [done|by apply op_frames_ok].
  - eapply wp_bind, wp_mono; [apply (Error_after _ _ e false); [done|]|by intros fs' a2 H; apply wp_ret].
    destruct Ha' as [|[? [= -> _]]]; auto.
Qed.

(** ** Events of the wrapped stream *)

Lemma has_lor a b e : has (Z.lor a b) e = true -> has a e = true \/ has b e = true.
Proof.
  unfold has. rewrite !negb_true_iff, !Z.eqb_neq, Z.land_lor_distr_l. intros H.
  destruct (Z.eq_dec (Z.land a e) 0) as [Ha|]; [|by left]. right. intros Hb. by rewrite Ha, Hb in H.
Qed.
Lemma has_open_rw events : has (Z.land events (Z.lor SE_READ SE_WRITE)) SE_OPEN = false.
Proof. unfold has. rewrite <- Z.land_assoc. cbn. by rewrite Z.land_0_r. Qed.

(** The opening of the wrapped stream is passed on only in clear text. *)
Definition sig_ok (a : adapter) (sig : Z) : Prop := has sig SE_OPEN = true -> ssl_state_ a = SSL_NONE.
Lemma sig_ok_0 a : sig_ok a 0.
Proof. done. Qed.
Lemma sig_ok_lor a b c : sig_ok a b -> has c SE_OPEN = false -> sig_ok a (Z.lor b c).
Proof. intros Hb Hc H. apply has_lor in H as [H|H]; [by apply Hb|congruence]. Qed.

Lemma OnEvent_close_ok a events sig err : adapter_ok a -> sig_ok a sig -> wp (OnEvent_close handler events sig err) a leaves.
Proof.
  intros Ha Hsig. unfold OnEvent_close.
  assert (has sig SE_OPEN = true -> h_started (past (ssl_events a)) = true -> peer_certificate_verified_ a = true) as Hopen.
  { intros H Hs. apply Hsig in H. by destruct (c_started _ (ok_core _ Ha)). }
  apply wp_bind, (wp_mono _ _ (fun q a' => adapter_ok a' /\
    (has q.1 SE_OPEN = true -> h_started (past (ssl_events a')) = true -> peer_certificate_verified_ a' = true))).
  { destruct (has events SE_CLOSE); [|by apply wp_ret]. eapply wp_bind, wp_mono; [apply Cleanup_ok; [apply Ha|]|].
    - intros He. apply (o_code _ (ok_objects _ Ha)). by left.
    - intros _x a' (Ha' & _ & Hv & He). apply wp_ret. split; [done|]. rewrite Hv, He. cbn. intros H. apply Hopen.
      by apply has_lor in H as [H|[=]]. }
  intros q a' [Ha' Hq]. destruct (q.1 =? 0); [by apply wp_ret; split; [|constructor]|].
  eapply wp_mono; [by apply SignalEvent_ok|]. intros fs a2 [H1 H2]. split; [done|by apply op_frames_ok].
Qed.

Lemma sig_ok_open a sig : sig_ok a sig -> ssl_state_ a <> SSL_NONE -> has sig SE_OPEN = false.
Proof. intros H Hne. destruct (has sig SE_OPEN) eqn:E; [|done]. by destruct Hne; apply H. Qed.

Lemma OnEvent_rw_ok a events sig err h : adapter_ok a -> sig_ok a sig -> (ssl_state_ a = SSL_CONNECTING -> sig = 0) ->
  wp (OnEvent_rw ComputeDigest handler events sig err h) a leaves.
Proof.
  intros Ha Hsig Hzero. unfold OnEvent_rw. apply wp_bind, wp_get. destruct (has events (Z.lor _ _)); [|by apply OnEvent_close_ok].
  destruct (ssl_state_ a) eqn:Hst; try by apply OnEvent_close_ok.
  - apply OnEvent_close_ok; [done|]. apply sig_ok_lor; [done|apply has_open_rw].
  - specialize (Hzero eq_refl) as ->. eapply wp_bind, wp_mono; [by apply ContinueSSL_ok|]. intros q a' [Ha' Hfs].
    destruct (negb _); [by apply Error_after; [|left]|]. apply after_ok.
    + intros _. by apply OnEvent_close_ok.
    + intros _. split; [done|]. apply Forall_app_2; [by apply op_frames_ok|by repeat constructor].
  - apply OnEvent_close_ok; [done|]. repeat apply sig_ok_lor; [done|by destruct (_ || _)..].
Qed.

Lemma ssl_OnEvent_ok a events err s h h' : adapter_ok a ->
  (has events SE_OPEN = true -> ssl_state_ a = SSL_NONE \/ ssl_state_ a = SSL_WAIT) ->
  wp (ssl_OnEvent ComputeDigest handler events err s h h') a leaves.
Proof.
  intros Ha Hopen. unfold ssl_OnEvent. apply wp_bind, wp_get. destruct (has events SE_OPEN); [|by apply OnEvent_rw_ok].
  destruct (Hopen eq_refl) as [Hst|Hst]; rewrite Hst; cbn.
  { apply OnEvent_rw_ok; [done|by intros _|congruence]. }
  assert (no_objects a) as Hno by (apply adapter_ok_idle; [done|unfold connecting; rewrite Hst; by intros []]).
  apply wp_bind, wp_modify. eapply wp_bind, wp_mono.
  { apply BeginSSL_ok; [by apply core_state; [apply Ha|]|by destruct Hno|done]. }
  intros [fs e] a' [Hfs Ha']. cbn [fst snd] in *. destruct (Z.eqb_spec e 0) as [->|Hne]; cbn [negb].
  - destruct Ha' as [Ha'|[_ [=]]]. apply after_ok.
    + intros _. by apply OnEvent_rw_ok.
    + intros _. split; [done|]. apply Forall_app_2; [by apply op_frames_ok|by repeat constructor].
  - apply Error_after; [done|]. destruct Ha' as [|[? [= -> _]]]; auto.
Qed.

(** ** Reading and writing *)

Lemma last_error_ok a : adapter_ok a -> is_Some (ssl_error_code_ a) -> wp last_error a (fun _ a' => adapter_ok a').
Proof. intros Ha [c Hc]. unfold last_error. apply wp_bind, wp_get. by rewrite Hc. Qed.
Lemma last_error_state a : adapter_ok a -> ssl_state_ a = SSL_ERROR \/ ssl_state_ a = SSL_CLOSED -> wp last_error a (fun _ a' => adapter_ok a').
Proof. intros Ha Hst. apply last_error_ok; [done|]. by apply (o_code _ (ok_objects _ Ha)). Qed.

Lemma Error_last a e : adapter_ok a -> wp (mbind (fun _ => last_error) (ssl_Error handler e false)) a (fun _ a' => adapter_ok a').
Proof. intros Ha. eapply wp_bind, wp_mono; [apply ssl_Error_ok, Ha|]. intros fs a' (Ha' & _ & Hc). by apply last_error_ok. Qed.

Lemma FlushInput_ok a left answers : adapter_ok a -> connecting a -> wp (FlushInput handler left answers) a (fun _ a' => adapter_ok a').
Proof.
  intros Ha Hc. revert left. induction answers as [|[e code] answers IH]; intros left; cbn; destruct (left =? 0); try by apply wp_ret.
  apply wp_bind. unfold use_ssl. apply wp_bind, wp_get. rewrite (proj2 (o_ssl _ (ok_objects _ Ha)) Hc). apply wp_ret.
  destruct (negb _); [|apply IH]. eapply wp_bind, wp_mono; [apply ssl_Error_ok, Ha|]. intros fs a' (Ha' & _). by apply wp_ret.
Qed.

(** What [Read] and [Write] have in common: the call of OpenSSL is made for a
    verified peer. *)
Lemma data_call_ok a call n r w (f : Z -> M adapter StreamResult) : adapter_ok a -> ssl_state_ a = SSL_CONNECTED ->
  WaitingToVerifyPeerCertificate a = false -> n <= INT_MAX ->
  (forall e a', adapter_ok a' -> connecting a' -> (forall k, adapter_ok (log_ssl (ESecret k) a')) -> wp (f e) a' (fun _ => adapter_ok)) ->
  wp (mbind (fun _ : unit => mbind (fun _ : unit => mbind f (ssl_call ComputeDigest call)) (checked_int n)) (modify (set_needs r w))) a
    (fun _ => adapter_ok).
Proof.
  intros Ha Hst Hw Hn Hf. apply wp_bind, wp_modify, wp_bind. unfold checked_int. rewrite (proj2 (Z.leb_le _ _)) by done. apply wp_ret.
  assert (peer_certificate_verified_ a = true) as Hv.
  { unfold WaitingToVerifyPeerCertificate in Hw. rewrite (c_auth _ (ok_core _ Ha)) in Hw. by destruct (peer_certificate_verified_ a). }
  eapply wp_bind, wp_mono; [apply ssl_call_connected; [by apply adapter_ok_needs|by right]|].
  intros e a' (Ha' & Hc' & Hv' & _). apply Hf; [done|done|]. intros k. apply adapter_ok_log; [done|done|].
  cbn. rewrite (c_verified _ (ok_core _ Ha')). by apply Hv'.
Qed.

Lemma clear_text_ok a (clear : StreamResult) : adapter_ok a -> ssl_state_ a = SSL_NONE ->
  wp (mbind (fun _ => mret clear) (log_s EClear)) a (fun _ => adapter_ok).
Proof.
  intros Ha Hst. apply wp_bind, wp_modify, wp_ret. apply adapter_ok_log; [done|done|]. cbn.
  destruct (h_started _) eqn:E; [|done]. by destruct (c_started _ (ok_core _ Ha) E).
Qed.

Lemma ssl_Write_ok a n clear call code : adapter_ok a -> n <= INT_MAX -> wp (ssl_Write ComputeDigest handler n clear call code) a (fun _ => adapter_ok).
Proof.
  intros Ha Hn. unfold ssl_Write. apply wp_bind, wp_get. destruct (ssl_state_ a) eqn:Hst; try by apply wp_ret.
  - by apply clear_text_ok.
  - destruct (WaitingToVerifyPeerCertificate a) eqn:Hw; [by apply wp_ret|]. destruct (n =? 0); [by apply wp_ret|].
    apply data_call_ok; [done..|]. intros e a' Ha' Hc' Hsec. destruct (e =? _); [by apply wp_bind, wp_modify, wp_ret|].
    destruct (e =? _); [by apply wp_bind, wp_modify, wp_ret, adapter_ok_needs|]. destruct (e =? _); [by apply wp_ret|by apply Error_last].
  - apply last_error_state; auto.
  - apply last_error_state; auto.
Qed.

Lemma ssl_Read_ok a n clear call code pending flush : adapter_ok a -> n <= INT_MAX ->
  wp (ssl_Read ComputeDigest handler n clear call code pending flush) a (fun _ => adapter_ok).
Proof.
  intros Ha Hn. unfold ssl_Read. apply wp_bind, wp_get. destruct (ssl_state_ a) eqn:Hst; try by apply wp_ret.
  - by apply clear_text_ok.
  - destruct (WaitingToVerifyPeerCertificate a) eqn:Hw; [by apply wp_ret|]. destruct (n =? 0); [by apply wp_ret|].
    apply data_call_ok; [done..|]. intros e a' Ha' Hc' Hsec. destruct (e =? _).
    { apply wp_bind, wp_modify. destruct (_ && _); [|by apply wp_ret]. eapply wp_bind, wp_mono; [by apply FlushInput_ok|].
      intros _x a2 Ha2. by apply wp_ret. }
    destruct (e =? _); [by apply wp_ret|]. destruct (e =? _); [by apply wp_bind, wp_modify, wp_ret, adapter_ok_needs|].
    destruct (e =? _); [|by apply Error_last]. eapply wp_bind, wp_mono; [by apply ssl_Close_ok|]. intros _x a2 Ha2. by apply wp_ret.
  - apply last_error_state; auto.
Qed.

(** ** Every run *)

Lemma simple_op {A} (m : M adapter A) a : wp m a (fun _ => adapter_ok) -> wp (mbind (fun _ => mret []) m) a leaves.
Proof. intros H. eapply wp_bind, wp_mono; [exact H|]. intros _x a' Ha'. apply wp_ret. by split; [|constructor]. Qed.

Lemma do_ssl_op_ok a k o : adapter_ok a -> ssl_op_ok a k o = true -> wp (do_ssl_op ComputeDigest handler o) a leaves.
Proof.
  intros Ha [_ Ho]%andb_prop. destruct o; cbn [do_ssl_op] in *.
  - by apply simple_op, wp_modify, adapter_ok_identity.
  - by apply simple_op, wp_modify, adapter_ok_options.
  - by apply simple_op, wp_modify, adapter_ok_options.
  - by apply simple_op, wp_modify, adapter_ok_options.
  - by apply simple_op, wp_modify, adapter_ok_options.
  - apply simple_op. unfold SetDtlsSrtpCryptoSuites. apply wp_bind, wp_get. destruct (decide _); [|by apply wp_ret].
    destruct (srtp_names _ _); [|by apply wp_ret]. destruct (decide _); [by apply wp_ret|]. by apply wp_bind, wp_modify, wp_ret, adapter_ok_options.
  - by apply simple_op, SetPeerCertificateDigest_ok.
  - eapply wp_bind, wp_mono; [by apply StartSSL_ok|]. intros q a' H. by apply wp_ret.
  - apply simple_op, ssl_Read_ok; [done|by apply Z.leb_le].
  - apply simple_op, ssl_Write_ok; [done|by apply Z.leb_le].
  - by apply simple_op, ssl_Close_ok.
  - apply ssl_OnEvent_ok; [done|]. intros He. rewrite He in Ho. cbn in Ho. apply orb_prop in Ho. rewrite !bool_decide_eq_true in Ho. done.
  - apply andb_prop in Ho as [_ Ho%bool_decide_eq_true]. pose proof (o_timer _ (ok_objects _ Ha) Ho) as Hst. apply wp_bind, wp_modify.
    apply adapter_ok_timer_off in Ha. set (a1 := set_tasks _ _ _ a) in *. apply wp_bind. unfold use_ssl. apply wp_bind, wp_get.
    rewrite (proj2 (o_ssl _ (ok_objects _ Ha)) (or_introl Hst)). apply wp_ret. eapply wp_bind, wp_mono; [by apply ContinueSSL_ok|].
    intros q a' [H1 H2]. apply wp_ret. split; [done|by apply op_frames_ok].
  - apply wp_bind, wp_get. destruct (posted a) as [|[events err] tasks] eqn:Hp; [by apply wp_ret; split; [|constructor]|].
    assert (peer_certificate_verified_ a = true) as Hv by (apply (c_posted _ (ok_core _ Ha)); by rewrite Hp).
    apply wp_bind, wp_modify. eapply wp_mono; [apply SignalEvent_ok; [|done]|].
    + destruct Ha as [[] []]. by split; split.
    + intros fs a' [H1 H2]. split; [done|by apply op_frames_ok].
  - apply simple_op, wp_bind. unfold use_ssl. apply wp_bind, wp_get. rewrite Ho. by apply wp_ret, wp_ret.
  - apply simple_op. unfold delete_OpenSSLStreamAdapter. apply wp_bind, wp_modify.
    eapply wp_bind, wp_mono; [apply Cleanup_ok; [by apply adapter_ok_timer_off, Ha|]|].
    { intros He. apply (o_code _ (ok_objects _ Ha)). by left. }
    intros _x a' [Ha' _]. apply wp_modify. apply adapter_ok_timer_off in Ha' as [[] []]. by split; split.
Qed.

Lemma ssl_step_ok a k : adapter_ok a -> Forall frame_ok k ->
  wp (ssl_step ComputeDigest handler k) a (fun k' a' => adapter_ok a' /\ Forall frame_ok k').
Proof.
  intros Ha Hk. destruct k as [|f k]; [by apply wp_ret|]. apply Forall_cons in Hk as [Hf Hk]. cbn [ssl_step].
  apply wp_bind, (wp_mono _ _ leaves); [|intros fs a' [H1 H2]; apply wp_ret; split; [done|by apply Forall_app_2]].
  destruct f as [o|err signal|events sig err h|events sig err]; cbn in Hf; try subst sig.
  - apply wp_bind, wp_get. destruct (ssl_op_ok a k o) eqn:Ho; [by eapply do_ssl_op_ok|by apply wp_ret; split; [|constructor]].
  - eapply wp_mono; [apply ssl_Error_ok, Ha|]. intros fs a' (H1 & H2 & _). split; [done|by apply op_frames_ok].
  - by apply OnEvent_rw_ok.
  - by apply OnEvent_close_ok.
Qed.

Lemma ssl_run_ok n a k : adapter_ok a -> Forall frame_ok k ->
  wp (ssl_run ComputeDigest handler n k) a (fun _ a' => adapter_ok a').
Proof.
  revert a k. induction n as [|n IH]; intros a k Ha Hk; [by apply wp_ret|]. cbn [ssl_run].
  eapply wp_bind, wp_mono; [by apply ssl_step_ok|]. intros k' a' [H1 H2]. by apply IH.
Qed.

Lemma new_adapter_ok legacy : adapter_ok (new_OpenSSLStreamAdapter legacy).
Proof.
  split; split; try done; cbn; unfold connecting; cbn; try by intros [].
  split; [done|by intros []].
Qed.

(** C33: For every client of the adapter that keeps to [ssl_op_ok], before,
    between and in its handlers, whatever the wrapped stream and OpenSSL answer,
    and whichever certificates the peer presents: a null connection is never
    used and no error code is read that was not stored; data passes in the clear
    only before [StartSSL]; after it, data passes, and the stream opens, only
    once the peer has presented a certificate whose digest, under an algorithm
    and of a size that go together, is one that the client had set; and the
    connection and its context exist exactly during the handshake and the
    connection.  Left out are (a call that [ssl_op_ok] refuses is skipped):
    [SetClientAuthEnabledForTesting], which is no operation of the model and
    switches the check off; [ExportKeyingMaterial] without a connection
    ([export_without_connection]: a null pointer goes to OpenSSL); a wrapped
    stream that reports SE_OPEN when it was already open
    ([opened_twice]: the client is told that the stream is open, before the
    check); the destruction of the adapter, and a turn of its thread's tasks,
    inside one of its methods (so in a handler that a method still has to return
    to), and any use after the destruction; and lengths that do not fit an
    int. *)
Theorem verified_before_data legacy ops n :
  wp (ssl_run ComputeDigest handler n (map FOp ops)) (new_OpenSSLStreamAdapter legacy) (fun _ a =>
    all_lawful h_begin (ssl_events a) /\ (ssl_GetState a = SS_OPEN -> peer_certificate_verified_ a = true) /\
    (ssl_ a = true <-> connecting a) /\ ssl_ctx_ a = ssl_ a).
Proof.
  eapply wp_mono; [apply ssl_run_ok; [apply new_adapter_ok|]|].
  - induction ops; by constructor.
  - intros k a [[C1 C2 C3 C4 C5 C6 C7] [O1 O2 O3 O4]]. split_and!; [done| |done|done].
    unfold ssl_GetState, WaitingToVerifyPeerCertificate. rewrite C1. destruct (ssl_state_ a); try done.
    by destruct (peer_certificate_verified_ a).
Qed.
End machine.
End adapter.

(** ** The digest may come before or after the certificate *)

Section order.
Context {cert : Type} (ComputeDigest : string -> cert -> option (list byte)).
Notation adapter := (@OpenSSLStreamAdapter cert).

(** A client that does nothing in its handlers. *)
Definition idle (_ : list (@ssl_event cert)) : list (@ssl_op cert) := [].
Definition opens (es : list (@ssl_event cert)) : list (@ssl_event cert) :=
  List.filter (fun e => match e with EEvent events _ => has events SE_OPEN | _ => false end) es.

(** The wrapped stream is readable, and the handshake ends with certificate [c]. *)
Definition ends_handshake (c : cert) (rejected : Z) (s : Setup) (h : Handshake) : ssl_op :=
  OStreamEvent SE_READ 0 s h (MkHandshake (MkCall (Some c) SSL_ERROR_NONE rejected) None false).

Lemma opens_app es es' : opens (es ++ es') = opens es ++ opens es'.
Proof. apply List.filter_app. Qed.
#[local] Arguments opens : simpl never.

Section digest.
Context (alg : string) (v : list byte) (c : cert) (rejected : Z).
Context (Hsize : GetDigestSize alg = Some (Z.of_nat (length v))).
Context (Hrej : rejected ∉ [SSL_ERROR_NONE; SSL_ERROR_WANT_READ; SSL_ERROR_WANT_WRITE]).
Let matches : bool := bool_decide (ComputeDigest alg c = Some v).

Lemma digest_known (a : adapter) : peer_certificate_digest_algorithm_ a = alg -> peer_certificate_digest_value_ a = v ->
  HasPeerCertificateDigest a = true.
Proof.
  intros Ha Hv. unfold HasPeerCertificateDigest. rewrite Ha, Hv, !bool_decide_eq_false_2; [done| |].
  - intros Hnil. rewrite Hnil in Hsize. unfold GetDigestSize in Hsize. by repeat (destruct (decide _); [done|]).
  - by intros Hnil; rewrite Hnil in Hsize.
Qed.

(** What the two orders depend on. *)
Definition view (a : adapter) : SSLState * bool * bool * bool * list (Z * Z) * bool * list ssl_event :=
  (ssl_state_ a, ssl_ a, alive_ a, client_auth_enabled_ a, posted a, peer_certificate_verified_ a, opens (ssl_events a)).

Lemma opens_quiet (a : adapter) e : opens [e] = [] -> view (log_ssl e a) = view a.
Proof. intros He. unfold view. cbn. by rewrite opens_app, He, app_nil_r. Qed.

(** The verification succeeds exactly if the digest matches. *)
Lemma verification (a : adapter) st ver : peer_certificate_digest_algorithm_ a = alg -> peer_certificate_digest_value_ a = v ->
  peer_cert_chain_ a = Some c -> view a = (st, true, true, true, [], ver, []) ->
  twp (VerifyPeerCertificate ComputeDigest) a (fun ok a' => ok = matches /\ view a' = (st, true, true, true, [], if matches then true else ver, [])).
Proof.
  intros Ha Hv Hc Hview. unfold VerifyPeerCertificate. apply twp_bind, twp_get. rewrite digest_known by done. cbn [negb]. rewrite Hc, Ha, Hv.
  unfold matches. destruct (ComputeDigest alg c) as [d|]; [|by apply twp_ret; rewrite bool_decide_eq_false_2].
  destruct (decide (d = v)) as [->|Hd]; [|by apply twp_ret; rewrite bool_decide_eq_false_2 by congruence].
  rewrite bool_decide_eq_true_2 by done. apply twp_bind, twp_modify, twp_bind, twp_modify, twp_ret.
  split; [done|]. rewrite opens_quiet by done. unfold view in *. cbn. congruence.
Qed.

(** How both orders end. *)
Definition ends_as (k : list (@ssl_frame cert)) (a : adapter) : Prop :=
  k = [] /\ ssl_state_ a = (if matches then SSL_CONNECTED else SSL_ERROR) /\ ssl_GetState a = (if matches then SS_OPEN else SS_CLOSED) /\
  opens (ssl_events a) = (if matches then [EEvent 7 0] else []).

(** The error that ends a connection does not open it. *)
Lemma error_view (a : adapter) st ver err signal : view a = (st, true, true, true, [], ver, []) ->
  twp (ssl_Error idle err signal) a (fun fs a' => fs = [] /\ view a' = (SSL_ERROR, false, true, true, [], ver, [])).
Proof.
  intros Hv. unfold ssl_Error, Cleanup. do 2 apply twp_bind, twp_modify. apply twp_bind, twp_bind, twp_get. cbn [ssl_state_ set_error_code set_ssl_state].
  rewrite decide_True by done. apply twp_bind, twp_ret. do 2 apply twp_bind, twp_modify. apply twp_modify.
  assert (forall a', view a' = view (set_objects false false (set_ssl_state SSL_ERROR a)) -> view a' = (SSL_ERROR, false, true, true, [], ver, [])) as Hend.
  { intros a' ->. unfold view in *. cbn. congruence. }
  destruct signal; [|by apply twp_ret; split; [|apply Hend]]. apply twp_bind, twp_modify, twp_bind, twp_get, twp_ret.
  split; [done|]. apply Hend. by rewrite opens_quiet.
Qed.

Lemma SetDigest_early (a : adapter) ver st : peer_cert_chain_ a = None -> view a = (st, true, true, true, [], ver, []) ->
  twp (SetPeerCertificateDigest ComputeDigest idle alg v) a (fun _ a' => peer_certificate_digest_algorithm_ a' = alg /\
    peer_certificate_digest_value_ a' = v /\ view a' = (st, true, true, true, [], ver, [])).
Proof.
  intros Hc Hv. unfold SetPeerCertificateDigest. rewrite Hsize, Z.eqb_refl. cbn [negb]. apply twp_bind, twp_modify, twp_bind, twp_modify, twp_bind, twp_get.
  cbn. rewrite Hc. apply twp_ret. split_and!; [done..|]. by rewrite opens_quiet.
Qed.
Lemma SetDigest_late (a : adapter) : peer_cert_chain_ a = Some c -> view a = (SSL_CONNECTED, true, true, true, [], false, []) ->
  twp (SetPeerCertificateDigest ComputeDigest idle alg v) a (fun _ a' =>
    view a' = if matches then (SSL_CONNECTED, true, true, true, [(7, 0)], true, []) else (SSL_ERROR, false, true, true, [], false, [])).
Proof.
  intros Hc Hv. unfold SetPeerCertificateDigest. rewrite Hsize, Z.eqb_refl. cbn [negb]. apply twp_bind, twp_modify, twp_bind, twp_modify, twp_bind, twp_get.
  cbn. rewrite Hc. eapply twp_bind, twp_mono; [apply verification; [done..|by rewrite opens_quiet]|]. intros ok a1 [-> Hv1].
  destruct matches.
  - apply twp_bind, twp_get. pose proof Hv1 as [= Hst _ _ _ Hp _ _]. rewrite decide_True by done. apply twp_bind, twp_modify, twp_ret.
    change (Z.lor (Z.lor SE_OPEN SE_READ) SE_WRITE) with 7.
    unfold view in *. cbn. rewrite Hp. cbn. congruence.
  - eapply twp_bind, twp_mono; [by eapply error_view|]. intros fs a2 [_ Hv2]. by apply twp_ret.
Qed.

(** The wrapped stream becomes readable, and with it the handshake ends. *)
Lemma ssl_OnEvent_read (a : adapter) s h h' Q : ssl_state_ a = SSL_CONNECTING ->
  twp (q ← ContinueSSL ComputeDigest idle h';
       if negb (q.2 =? 0) then after q.1 (FError q.2 true) (ssl_Error idle q.2 true)
       else after q.1 (FClose SE_READ 0 0) (OnEvent_close idle SE_READ 0 0)) a Q ->
  twp (ssl_OnEvent ComputeDigest idle SE_READ 0 s h h') a Q.
Proof.
  intros Hst HQ. unfold ssl_OnEvent, OnEvent_rw. apply twp_bind, twp_get. cbn [has]. change (has SE_READ SE_OPEN) with false.
  apply twp_bind, twp_get. change (has SE_READ (Z.lor SE_READ SE_WRITE)) with true. by rewrite Hst.
Qed.

Lemma ssl_call_presented (a : adapter) acc rej Q : ssl_ a = true ->
  twp (mbind (fun ok : bool => mret (if ok then acc else rej)) (SSLVerifyCallback ComputeDigest c)) a Q ->
  twp (ssl_call ComputeDigest (MkCall (Some c) acc rej)) a Q.
Proof. intros Hs HQ. unfold ssl_call, use_ssl. apply twp_bind, twp_bind, twp_get. rewrite Hs. by apply twp_ret. Qed.

Lemma callback_early (a : adapter) Q : peer_certificate_digest_algorithm_ a = ""%string ->
  Q true (log_ssl (EPresented c) (set_peer (identity_ a) (Some c) (peer_certificate_verified_ a) a)) ->
  twp (SSLVerifyCallback ComputeDigest c) a Q.
Proof.
  intros Ha HQ. unfold SSLVerifyCallback. apply twp_bind, twp_get, twp_bind, twp_modify, twp_bind, twp_modify. rewrite decide_True by done. by apply twp_ret.
Qed.
Lemma alg_given : alg <> ""%string.
Proof. intros H. rewrite H in Hsize. done. Qed.

Definition the_end : Handshake := MkHandshake (MkCall (Some c) SSL_ERROR_NONE rejected) None false.

Lemma handshake_late (a : adapter) s h : peer_certificate_digest_algorithm_ a = alg -> peer_certificate_digest_value_ a = v ->
  view a = (SSL_CONNECTING, true, true, true, [], false, []) -> twp (ssl_OnEvent ComputeDigest idle SE_READ 0 s h the_end) a ends_as.
Proof.
  intros Ha Hv Hview. apply ssl_OnEvent_read; [by unfold view in Hview; congruence|]. unfold ContinueSSL.
  apply twp_bind, twp_bind, twp_modify, twp_bind, ssl_call_presented; [by unfold view in Hview; cbn; congruence|].
  apply twp_bind. unfold SSLVerifyCallback. apply twp_bind, twp_get, twp_bind, twp_modify, twp_bind, twp_modify.
  rewrite decide_False by (cbn; rewrite Ha; apply alg_given).
  eapply twp_mono; [apply (verification _ SSL_CONNECTING false); [done..|]|].
  { rewrite opens_quiet by done. unfold view in *. cbn. congruence. }
  intros ok a1 [-> Hv1]. apply twp_ret. destruct matches eqn:Hm; cbn.
  - apply twp_bind, twp_modify, twp_bind, twp_get. unfold WaitingToVerifyPeerCertificate. cbn.
    assert (client_auth_enabled_ a1 && negb (peer_certificate_verified_ a1) = false) as Hw.
    { injection Hv1 as _ _ _ _ _ -> _. apply andb_false_r. }
    rewrite Hw. cbn. apply twp_bind, twp_bind, twp_modify, twp_bind, twp_get, twp_ret, twp_ret. cbn.
    unfold OnEvent_close. change (has SE_READ SE_CLOSE) with false. apply twp_bind, twp_ret, twp_ret.
    unfold ends_as, ssl_GetState, WaitingToVerifyPeerCertificate. rewrite Hm. cbn. rewrite Hw, opens_app. injection Hv1 as _ _ _ _ _ _ ->. done.
  - rewrite !not_elem_of_cons in Hrej. destruct Hrej as (R1 & R2 & R3 & _).
    rewrite !(proj2 (Z.eqb_neq _ _)) by done. apply twp_bind, twp_bind, twp_modify, twp_bind, twp_get, twp_ret, twp_ret. cbn.
    rewrite (proj2 (Z.eqb_neq _ _)) by done. cbn. eapply twp_mono; [eapply error_view; by rewrite opens_quiet|].
    intros fs a2 [-> Hv2]. injection Hv2 as E1 _ _ _ _ _ E2. unfold ends_as, ssl_GetState. by rewrite Hm, E1, E2.
Qed.

Lemma handshake_early (a : adapter) s h : peer_certificate_digest_algorithm_ a = ""%string ->
  view a = (SSL_CONNECTING, true, true, true, [], false, []) -> twp (ssl_OnEvent ComputeDigest idle SE_READ 0 s h the_end) a
    (fun fs a' => fs = [] /\ peer_cert_chain_ a' = Some c /\ view a' = (SSL_CONNECTED, true, true, true, [], false, [])).
Proof.
  intros Ha Hview. apply ssl_OnEvent_read; [by unfold view in Hview; congruence|]. unfold ContinueSSL.
  apply twp_bind, twp_bind, twp_modify, twp_bind, ssl_call_presented; [by unfold view in Hview; cbn; congruence|].
  apply twp_bind, callback_early; [done|]. apply twp_ret. cbn. apply twp_bind, twp_modify, twp_bind, twp_get.
  set (a1 := set_ssl_state _ _). assert (view a1 = (SSL_CONNECTED, true, true, true, [], false, [])) as Hv1.
  { unfold a1, view in *. cbn. rewrite opens_app. cbn. rewrite app_nil_r. congruence. }
  assert (WaitingToVerifyPeerCertificate a1 = true) as Hw.
  { unfold WaitingToVerifyPeerCertificate. clearbody a1.
    assert (client_auth_enabled_ a1 = true /\ peer_certificate_verified_ a1 = false) as [-> ->]; [unfold view in Hv1; split; congruence|done]. }
  rewrite Hw. cbn. apply twp_ret. cbn. unfold OnEvent_close. change (has SE_READ SE_CLOSE) with false. by apply twp_bind, twp_ret, twp_ret.
Qed.

(** Setting the digest before the end of the handshake, or after it and letting
    the task run that was posted: the stream opens, once, exactly if the digest
    is that of the certificate; otherwise the adapter is left in error. *)
Lemma digest_order (a : adapter) s h : peer_certificate_digest_algorithm_ a = ""%string -> peer_cert_chain_ a = None ->
  view a = (SSL_CONNECTING, true, true, true, [], false, []) ->
  twp (ssl_run ComputeDigest idle 2 [FOp (OSetPeerCertificateDigest alg v); FOp (OStreamEvent SE_READ 0 s h the_end)]) a ends_as /\
  twp (ssl_run ComputeDigest idle 3 [FOp (OStreamEvent SE_READ 0 s h the_end); FOp (OSetPeerCertificateDigest alg v); FOp OPosted]) a ends_as.
Proof.
  intros Halg Hc Hview. assert (forall a' : adapter, alive_ a' = true -> ssl_op_ok a' [FOp OPosted] (OSetPeerCertificateDigest alg v) = true) as Hset.
  { intros a' Ha'. unfold ssl_op_ok. by rewrite Ha'. }
  split.
  - cbn [ssl_run]. unfold ssl_step. apply twp_bind, twp_bind, twp_bind, twp_get. unfold ssl_op_ok at 1.
    assert (alive_ a = true) as -> by (unfold view in Hview; congruence). cbn [andb do_ssl_op].
    eapply twp_bind, twp_mono; [by eapply SetDigest_early|]. intros r a1 (H1 & H2 & H3). apply twp_ret, twp_ret. cbn [app].
    apply twp_bind, twp_bind, twp_bind, twp_get. unfold ssl_op_ok. assert (alive_ a1 = true) as -> by (unfold view in H3; congruence).
    change (has SE_READ SE_OPEN) with false. cbn [andb orb negb do_ssl_op]. eapply twp_mono; [by apply handshake_late|].
    intros fs a2 H. apply twp_ret. rewrite app_nil_r. by apply twp_ret.
  - cbn [ssl_run]. unfold ssl_step at 1. apply twp_bind, twp_bind, twp_bind, twp_get. unfold ssl_op_ok at 1.
    assert (alive_ a = true) as -> by (unfold view in Hview; congruence). change (has SE_READ SE_OPEN) with false. cbn [andb orb negb do_ssl_op].
    eapply twp_mono; [by apply handshake_early|]. intros fs a1 (-> & H1 & H2). apply twp_ret. cbn [app].
    unfold ssl_step at 1. apply twp_bind, twp_bind, twp_bind, twp_get. rewrite Hset by (unfold view in H2; congruence). cbn [do_ssl_op].
    eapply twp_bind, twp_mono; [by apply SetDigest_late|]. intros r a2 H3. apply twp_ret, twp_ret. cbn [app].
    unfold ssl_step. apply twp_bind, twp_bind, twp_bind, twp_get. unfold ssl_op_ok. assert (alive_ a2 = true) as -> by (destruct matches; unfold view in H3; congruence).
    cbn [andb do_ssl_op]. apply twp_bind, twp_get. unfold ends_as. destruct matches; injection H3 as E1 _ _ E4 E5 E6 E7; rewrite E5.
    + apply twp_bind, twp_modify, twp_bind, twp_modify, twp_bind, twp_get, twp_ret, twp_ret, twp_ret.
      unfold ssl_GetState, WaitingToVerifyPeerCertificate. cbn. rewrite E1, E4, E6, opens_app, E7. done.
    + apply twp_ret, twp_ret, twp_ret. unfold ssl_GetState. by rewrite E1, E7.
Qed.
End digest.
End order.

(** ** Runs and single facts *)

(** Certificates are numbers; the digest of certificate [n] is 32 bytes [n]. *)
Definition sim_digest (alg : string) (n : byte) : option (list byte) :=
  if decide (alg = "sha-256"%string) then Some (repeat n 32) else None.
Definition good_setup : Setup := MkSetup true true true true true.
Definition succeeds (c : byte) : @Handshake byte := MkHandshake (MkCall (Some c) 0 1) None false.
Definition pending : @Handshake byte := MkHandshake (MkCall None 2 2) (Some (0, 50000)) false.
Definition got_data : @ssl_op byte := @ORead byte 100 SR_BLOCK (MkCall None 0 0) 10 0 [].
Definition ssl_sim (ops : list (@ssl_op byte)) : res (list (@ssl_event byte)) :=
  q ← ssl_run sim_digest (fun _ => []) 10 (map FOp ops) (new_OpenSSLStreamAdapter false); Ret (ssl_events q.2).

(** The digest comes late: the first [Read] blocks. *)
Example late_digest :
  ssl_sim [OStartSSL SS_OPEN good_setup pending; OStreamEvent SE_READ 0 good_setup pending (succeeds x41);
           got_data; OSetPeerCertificateDigest "sha-256" (repeat x41 32); OPosted; got_data] =
  Ret [EStart; EContext TLS1_2_VERSION TLS1_2_VERSION 3; EPresented x41; EDigest "sha-256" (repeat x41 32);
       EVerified x41 "sha-256" (repeat x41 32); EEvent 7 0; ESecret 10].
Proof. vm_compute. reflexivity. Qed.

(** Another certificate: the handshake fails and the client is told. *)
Example wrong_certificate :
  ssl_sim [OSetPeerCertificateDigest "sha-256" (repeat x41 32); OStartSSL SS_OPEN good_setup pending;
           OStreamEvent SE_READ 0 good_setup pending (succeeds x42); got_data] =
  Ret [EDigest "sha-256" (repeat x41 32); EStart; EContext TLS1_2_VERSION TLS1_2_VERSION 3; EPresented x42;
       EHandshakeError HS_UNKNOWN; EEvent SE_CLOSE 1].
Proof. vm_compute. reflexivity. Qed.

(** If the handshake fails in the call of the timer, nobody is told and the
    adapter goes on as opening. *)
Definition timer_failure : list (@ssl_op byte) :=
  [OStartSSL SS_OPEN good_setup pending; OTimeout (MkHandshake (@MkCall byte None 1 1) None false)].
Example failure_of_timer : exists a,
  ssl_run sim_digest (fun _ => []) 10 (map FOp timer_failure) (new_OpenSSLStreamAdapter false) = Ret ([], a) /\
  ssl_state_ a = SSL_CONNECTING /\ ssl_GetState a = SS_OPENING /\ timeout_task_ a = None /\
  ssl_events a = [EStart; EContext TLS1_2_VERSION TLS1_2_VERSION 3; EHandshakeError HS_UNKNOWN].
Proof. vm_compute. eexists. repeat split. Qed.

(** What [ssl_op_ok] refuses, done. *)
Example export_without_connection :
  do_ssl_op sim_digest (fun _ => []) (OExportKeyingMaterial true) (new_OpenSSLStreamAdapter false) = Ub NullDeref.
Proof. vm_compute. reflexivity. Qed.
Example opened_twice : exists a,
  (_ ← ssl_run sim_digest (fun _ => []) 10 (map FOp [OStartSSL SS_OPEN good_setup (succeeds x41)]);
   do_ssl_op sim_digest (fun _ => []) (OStreamEvent SE_OPEN 0 good_setup pending pending)) (new_OpenSSLStreamAdapter false) = Ret ([], a) /\
  peer_certificate_verified_ a = false /\ ssl_GetState a = SS_OPENING /\
  ssl_events a = [EStart; EContext TLS1_2_VERSION TLS1_2_VERSION 3; EPresented x41; EEvent SE_OPEN 0].
Proof. vm_compute. eexists. repeat split. Qed.

(** Keys can be exported before the certificate is verified. *)
Example keys_unverified : exists a,
  ssl_run sim_digest (fun _ => []) 10 (map FOp [OStartSSL SS_OPEN good_setup (succeeds x41)]) (new_OpenSSLStreamAdapter false) = Ret ([], a) /\
  peer_certificate_verified_ a = false /\ ExportKeyingMaterial true a = Ret (true, a).
Proof. vm_compute. eexists. repeat split. Qed.

(** The number that [GetSslCipherSuite] gives back has 16 bits; the table of names
    has the identifiers of OpenSSL, of 32: no cipher in use has a name. *)
Lemma cipher_name_lost id : SslCipherSuiteToName (u16 id) = ""%string.
Proof.
  unfold SslCipherSuiteToName. pose proof (wrapU_range 16 id ltac:(lia)) as Hr.
  destruct (List.find _ kSslCipherMap) as [[n name]|] eqn:Hf; [|done]. apply find_some in Hf as [Hin Hf].
  apply Z.eqb_eq in Hf. cbn [fst] in Hf. assert (Forall (fun e => 65536 <= i32 e.1) kSslCipherMap) as Hbig.
  { repeat constructor; by vm_compute. }
  rewrite Forall_forall in Hbig. apply list_elem_of_In, Hbig in Hin. cbn [fst] in Hin. lia.
Qed.

(** The names of the protection profiles. *)
Lemma srtp_name_roundtrip n : SrtpCryptoSuiteToName n <> ""%string -> SrtpCryptoSuiteFromName (SrtpCryptoSuiteToName n) = n.
Proof.
  unfold SrtpCryptoSuiteToName.
  repeat (match goal with |- context [n =? ?k] => destruct (Z.eqb_spec n k) as [->|_] end; [by vm_compute|]).
  intros H. by destruct H.
Qed.
Lemma srtp_name_lengths n : SrtpCryptoSuiteToName n <> ""%string <-> is_Some (GetSrtpKeyAndSaltLengths n).
Proof.
  unfold SrtpCryptoSuiteToName, GetSrtpKeyAndSaltLengths.
  destruct (n =? kSrtpAes128CmSha1_32), (n =? kSrtpAes128CmSha1_80), (n =? kSrtpAeadAes128Gcm), (n =? kSrtpAeadAes256Gcm);
    cbn; split; intros H; first [done | by eexists | by destruct H].
Qed.

(** [WriteAll] ends when every [Write] that succeeds takes something. *)
Lemma WriteAll_total data_len results : 0 <= data_len -> Forall (fun r => match r with SR_SUCCESS n => 0 < n | _ => True end) results ->
  (Z.to_nat data_len <= length results)%nat -> exists r n, WriteAll data_len 0 results = Ret (r, n).
Proof.
  intros Hd. assert (forall total, 0 <= total -> Forall (fun r => match r with SR_SUCCESS n => 0 < n | _ => True end) results ->
    (Z.to_nat (data_len - total) <= length results)%nat -> exists r n, WriteAll data_len total results = Ret (r, n)) as H.
  { clear Hd. induction results as [|[] results IH]; intros total Ht Hf Hl; cbn in *; destruct (Z.ltb_spec total data_len); eauto; [lia|].
    apply Forall_cons in Hf as [Hc Hf]. apply IH; [lia|done|lia]. }
  intros Hf Hl. apply H; [done|done|]. by rewrite Z.sub_0_r.
Qed.

(** [FlushInput] ends: every call reads something, and no more than is left. *)
Lemma FlushInput_total {cert} handler (a : @OpenSSLStreamAdapter cert) left answers : ssl_ a = true -> 0 <= left < 2 ^ 32 ->
  foldr (fun x n => x.2 + n) 0 answers = left -> Forall (fun x => x.1 = SSL_ERROR_NONE /\ 0 < x.2) answers ->
  FlushInput handler left answers a = Ret (tt, a).
Proof.
  intros Hs. revert left. induction answers as [|[e code] answers IH]; intros left Hl Hsum Hf; cbn in *; [by subst|].
  apply Forall_cons in Hf as [[He Hc] Hf]. cbn in He, Hc. subst e. assert (0 <= foldr (fun (x : Z * Z) n => x.2 + n) 0 answers) as Hpos.
  { clear -Hf. induction Hf as [|x l [_ Hx] _ IHl]; cbn; lia. }
  destruct (Z.eqb_spec left 0); [lia|]. unfold use_ssl, mbind, M_bind, get. rewrite Hs. cbn.
  rewrite u32_small by lia. apply IH; [lia|lia|done].
Qed.
