(* ===== verification/TlsSocket.v ===== *)
(** * [rtc_base/openssl_adapter.cc], [openssl_session_cache.cc]: TLS over a socket

    [OpenSSLAdapter] with the branches for OpenSSL, its factory and the cache of
    sessions.  As in SslStream.v, what OpenSSL, the identity, the verifier and
    the wrapped socket answer comes with the operation that asks, handlers are
    programs of the client, and what is left of an interrupted method waits on
    a stack. *)

From stdpp Require Import list strings gmap.
From S2P Require Import Prelude StringEncode PhysSocket SslStream.
#[local] Open Scope Z_scope.
#[local] Open Scope xrtc_scope.

Definition ENOTCONN : Z := 57.

(** ** The functions of [SocketBIO] *)

(** Given what [Recv] or [Send] returned and the error of the socket: the number
    returned to OpenSSL, and whether to retry. *)
Definition socket_read (result error : Z) : Z * bool :=
  if 0 <? result then (result, false) else (-1, IsBlockingError error).
Definition socket_write (result error : Z) : Z * bool :=
  if 0 <? result then (result, false) else (-1, IsBlockingError error).
(** [ptr]: the argument of the command taken as a socket, null or in a state. *)
Definition socket_ctrl (cmd : bio_ctrl) (ptr : option ConnState) : res Z :=
  match cmd with
  | BIO_CTRL_EOF =>
      match ptr with
      | None => Ub NullDeref
      | Some CS_CLOSED => Ret 1
      | Some _ => Ret 0
      end
  | BIO_CTRL_FLUSH => Ret 1
  | _ => Ret 0
  end.

(** ** Protocols of the application layer *)

Fixpoint alpn_loop (alpn_protocols : list (list byte)) (transformed_alpn : list byte) : list byte :=
  match alpn_protocols with
  | [] => transformed_alpn
  | proto :: protos =>
      if (length proto =? 0)%nat || (255 <? Z.of_nat (length proto)) then []
      else alpn_loop protos (transformed_alpn ++ z2b (Z.of_nat (length proto)) :: proto)
  end.
Definition TransformAlpnProtocols (alpn_protocols : list (list byte)) : list byte := alpn_loop alpn_protocols [].

(** ** The cache of sessions *)

(** [freed]: the references given back with [SSL_SESSION_free]. *)
Record OpenSSLSessionCache := MkCache { sessions_ : gmap string loc; freed : list loc }.
Definition new_OpenSSLSessionCache : OpenSSLSessionCache := MkCache ∅ [].
Definition LookupSession (hostname : string) (c : OpenSSLSessionCache) : option loc := sessions_ c !! hostname.
Definition AddSession (hostname : string) (new_session : loc) (c : OpenSSLSessionCache) : OpenSSLSessionCache :=
  MkCache (<[hostname := new_session]> (sessions_ c)) (freed c ++ option_list (LookupSession hostname c)).
Definition delete_OpenSSLSessionCache (c : OpenSSLSessionCache) : OpenSSLSessionCache :=
  MkCache ∅ (freed c ++ (map_to_list (sessions_ c)).*2).

(** ** Contexts and certificates *)

(** How a context is set up. *)
Record SslContext := MkContext {
  ctx_mode : SSLMode; verify_depth : Z; cipher_list : string; read_ahead : bool; caches_sessions : bool }.

(** For each certificate of the list: whether it can be read and, if so, added. *)
Definition LoadBuiltinSSLRootCertificates (roots : list (option bool)) : bool :=
  0 <? Z.of_nat (length (List.filter (fun r => match r with Some added => added | None => false end) roots)).

(** [made]: whether [SSL_CTX_new] succeeds. *)
Definition CreateContext (mode : SSLMode) (enable_cache : bool) (made : bool) (roots : list (option bool)) : option SslContext :=
  if negb made then None
  else if negb (LoadBuiltinSSLRootCertificates roots) then None
  else Some (MkContext mode 4 "ALL:!SHA256:!SHA384:!aPSK:!ECDSA+SHA1:!ADH:!LOW:!EXP:!MD5:!3DES"
               (bool_decide (mode = SSL_MODE_DTLS)) enable_cache).

(** [peer]: whether there is a certificate and, if so, whether
    [X509_check_host] says 1. *)
Definition VerifyPeerCertMatchesHost (ssl : bool) (host : string) (peer : option bool) : bool :=
  if decide (host = ""%string) then false
  else if negb ssl then false
  else match peer with None => false | Some matches => matches end.

(** ** The factory *)

(** [sf_cache]: with the context that the sessions belong to. *)
Record OpenSSLAdapterFactory := MkFactory {
  sf_mode : SSLMode; sf_verifier : bool; sf_cache : option (SslContext * OpenSSLSessionCache) }.
Definition new_OpenSSLAdapterFactory : OpenSSLAdapterFactory := MkFactory SSL_MODE_TLS false None.
Definition factory_SetMode (mode : SSLMode) (f : OpenSSLAdapterFactory) : OpenSSLAdapterFactory :=
  MkFactory mode (sf_verifier f) (sf_cache f).
Definition factory_SetCertVerifier (verifier : bool) (f : OpenSSLAdapterFactory) : OpenSSLAdapterFactory :=
  MkFactory (sf_mode f) verifier (sf_cache f).

(** ** The adapter *)

Inductive SSLState := SSL_NONE | SSL_WAIT | SSL_CONNECTING | SSL_CONNECTED | SSL_ERROR.
#[export] Instance TlsState_eq_dec : EqDecision SSLState.
Proof. solve_decision. Defined.

Section adapter.
(** Certificates, [SSLCertificateVerifier::Verify], and how much of its argument
    one [SSL_write] takes (SSL_MODE_ENABLE_PARTIAL_WRITE: one record). *)
Context {cert : Type} (Verify : cert -> bool) (fragment : nat).

(** What happened: the client's options and [StartSSL]; how a connection was
    configured; a certificate in [SSLVerifyCallback]; a handshake that passed
    the check, for which host, and what the certificate and the verification
    said; bytes that [Send] said were sent, that [SSL_write] took, that
    [SSL_read] gave; use of the socket in the clear; signals; references to
    contexts and connections; [Cleanup]. *)
Inductive tls_event :=
  | EIgnore (ignore : bool) | EStart (host : string)
  | EConfig (sni : string) (resume : option loc) (alpn curves : list byte)
  | ECert (status : bool) (c : cert) (accepted : bool)
  | EPassed (host : string) (matches verified : bool)
  | ESent (data : list byte) | EWritten (data : list byte) | EGot (n : Z) | EClear
  | EConnect | EReadable | EWritable | EClosed (err : Z)
  | ECtx (d : Z) | ESsl (d : Z) | ECleanup.

Record TlsOptions := MkOptions {
  role_ : SSLRole; ssl_mode_ : SSLMode; ignore_bad_cert_ : bool; ssl_cert_verifier_ : bool (* not null *);
  alpn_protocols_ : list (list byte); elliptic_curves_ : list (list byte) }.

Record OpenSSLAdapter := MkTls {
  state_ : SSLState;
  options : TlsOptions;
  ssl_host_name_ : string;
  ssl_session_cache_ : option OpenSSLSessionCache;
  identity_ : bool;                     (* not null *)
  ssl_ : bool;
  ssl_ctx_ : bool;
  ssl_read_needs_write_ : bool;
  ssl_write_needs_read_ : bool;
  pending_data_ : list byte;
  custom_cert_verifier_status_ : bool;
  timer_ : option Z;                    (* the message MSG_TIMEOUT *)
  socket_error_ : Z;                    (* of the wrapped socket *)
  alive_ : bool;
  tls_events : list tls_event;
}.
Notation adapter := OpenSSLAdapter.

Definition set_state (s : SSLState) (a : adapter) : adapter :=
  MkTls s (options a) (ssl_host_name_ a) (ssl_session_cache_ a) (identity_ a) (ssl_ a) (ssl_ctx_ a) (ssl_read_needs_write_ a) (ssl_write_needs_read_ a) (pending_data_ a) (custom_cert_verifier_status_ a) (timer_ a) (socket_error_ a) (alive_ a) (tls_events a).
Definition set_options (o : TlsOptions) (a : adapter) : adapter :=
  MkTls (state_ a) o (ssl_host_name_ a) (ssl_session_cache_ a) (identity_ a) (ssl_ a) (ssl_ctx_ a) (ssl_read_needs_write_ a) (ssl_write_needs_read_ a) (pending_data_ a) (custom_cert_verifier_status_ a) (timer_ a) (socket_error_ a) (alive_ a) (tls_events a).
Definition set_host (h : string) (a : adapter) : adapter :=
  MkTls (state_ a) (options a) h (ssl_session_cache_ a) (identity_ a) (ssl_ a) (ssl_ctx_ a) (ssl_read_needs_write_ a) (ssl_write_needs_read_ a) (pending_data_ a) (custom_cert_verifier_status_ a) (timer_ a) (socket_error_ a) (alive_ a) (tls_events a).
Definition set_cache (c : option OpenSSLSessionCache) (a : adapter) : adapter :=
  MkTls (state_ a) (options a) (ssl_host_name_ a) c (identity_ a) (ssl_ a) (ssl_ctx_ a) (ssl_read_needs_write_ a) (ssl_write_needs_read_ a) (pending_data_ a) (custom_cert_verifier_status_ a) (timer_ a) (socket_error_ a) (alive_ a) (tls_events a).
Definition set_owned (identity ssl ctx : bool) (a : adapter) : adapter :=
  MkTls (state_ a) (options a) (ssl_host_name_ a) (ssl_session_cache_ a) identity ssl ctx (ssl_read_needs_write_ a) (ssl_write_needs_read_ a) (pending_data_ a) (custom_cert_verifier_status_ a) (timer_ a) (socket_error_ a) (alive_ a) (tls_events a).
Definition set_needs (r w : bool) (a : adapter) : adapter :=
  MkTls (state_ a) (options a) (ssl_host_name_ a) (ssl_session_cache_ a) (identity_ a) (ssl_ a) (ssl_ctx_ a) r w (pending_data_ a) (custom_cert_verifier_status_ a) (timer_ a) (socket_error_ a) (alive_ a) (tls_events a).
Definition set_pending (d : list byte) (a : adapter) : adapter :=
  MkTls (state_ a) (options a) (ssl_host_name_ a) (ssl_session_cache_ a) (identity_ a) (ssl_ a) (ssl_ctx_ a) (ssl_read_needs_write_ a) (ssl_write_needs_read_ a) d (custom_cert_verifier_status_ a) (timer_ a) (socket_error_ a) (alive_ a) (tls_events a).
Definition set_custom (c : bool) (a : adapter) : adapter :=
  MkTls (state_ a) (options a) (ssl_host_name_ a) (ssl_session_cache_ a) (identity_ a) (ssl_ a) (ssl_ctx_ a) (ssl_read_needs_write_ a) (ssl_write_needs_read_ a) (pending_data_ a) c (timer_ a) (socket_error_ a) (alive_ a) (tls_events a).
Definition set_timer (t : option Z) (a : adapter) : adapter :=
  MkTls (state_ a) (options a) (ssl_host_name_ a) (ssl_session_cache_ a) (identity_ a) (ssl_ a) (ssl_ctx_ a) (ssl_read_needs_write_ a) (ssl_write_needs_read_ a) (pending_data_ a) (custom_cert_verifier_status_ a) t (socket_error_ a) (alive_ a) (tls_events a).
Definition set_error (e : Z) (a : adapter) : adapter :=
  MkTls (state_ a) (options a) (ssl_host_name_ a) (ssl_session_cache_ a) (identity_ a) (ssl_ a) (ssl_ctx_ a) (ssl_read_needs_write_ a) (ssl_write_needs_read_ a) (pending_data_ a) (custom_cert_verifier_status_ a) (timer_ a) e (alive_ a) (tls_events a).
Definition set_dead (a : adapter) : adapter :=
  MkTls (state_ a) (options a) (ssl_host_name_ a) (ssl_session_cache_ a) (identity_ a) (ssl_ a) (ssl_ctx_ a) (ssl_read_needs_write_ a) (ssl_write_needs_read_ a) (pending_data_ a) (custom_cert_verifier_status_ a) (timer_ a) (socket_error_ a) false (tls_events a).
Definition log_tls (e : tls_event) (a : adapter) : adapter :=
  MkTls (state_ a) (options a) (ssl_host_name_ a) (ssl_session_cache_ a) (identity_ a) (ssl_ a) (ssl_ctx_ a) (ssl_read_needs_write_ a) (ssl_write_needs_read_ a) (pending_data_ a) (custom_cert_verifier_status_ a) (timer_ a) (socket_error_ a) (alive_ a) (tls_events a ++ [e]).
Definition log_t (e : tls_event) : M adapter unit := modify (log_tls e).
Definition use_ssl : M adapter unit := a ← get; if ssl_ a then mret tt else ub_ NullDeref.
Definition checked_int (n : Z) : M adapter unit := if n <=? INT_MAX then mret tt else lift Abort.
Definition SetError (error : Z) : M adapter unit := modify (set_error error).

(** The constructor takes a reference on the context of the factory. *)
Definition new_OpenSSLAdapter (cache : option OpenSSLSessionCache) (verifier : bool) : adapter :=
  MkTls SSL_NONE (MkOptions SSL_CLIENT SSL_MODE_TLS false verifier [] []) "" cache false false
    (bool_decide (is_Some cache)) false false [] false None 0 true (if cache then [ECtx 1] else []).

Definition CreateAdapter (made : bool) (roots : list (option bool)) (f : OpenSSLAdapterFactory) : OpenSSLAdapterFactory * option adapter :=
  match sf_cache f with
  | Some (_, cache) => (f, Some (new_OpenSSLAdapter (Some cache) (sf_verifier f)))
  | None =>
      match CreateContext (sf_mode f) true made roots with
      | None => (f, None)
      | Some ctx =>
          (MkFactory (sf_mode f) (sf_verifier f) (Some (ctx, new_OpenSSLSessionCache)),
           Some (new_OpenSSLAdapter (Some new_OpenSSLSessionCache) (sf_verifier f)))
      end
  end.

(** ** Errors and the end *)

(** A held reference given back. *)
Definition give_back (held : bool) (e : tls_event) : M adapter unit := if held then log_t e else mret tt.
Definition Cleanup : M adapter unit :=
  _ ← modify (set_state SSL_NONE);
  _ ← modify (set_needs false false);
  _ ← modify (set_custom false);
  _ ← modify (set_pending []);
  a ← get;
  _ ← give_back (ssl_ a) (ESsl (-1));
  _ ← give_back (ssl_ctx_ a) (ECtx (-1));
  _ ← modify (set_owned false false false);
  _ ← modify (set_timer None);
  log_t ECleanup.
Definition tls_Close (result : Z) : M adapter Z := _ ← Cleanup; _ ← modify (set_state SSL_NONE); mret result.
Definition delete_OpenSSLAdapter : M adapter unit := _ ← Cleanup; modify set_dead.

(** ** Answers *)

(** What [BeginSSL] asks for: [SSL_CTX_new], the built-in certificates,
    [ConfigureIdentity], [BIO_new], [SSL_new] and [SSL_set_session]. *)
Record TlsSetup := MkTlsSetup {
  made : bool; roots : list (option bool); configured : bool; bio_made : bool; ssl_made : bool; session_set : bool }.
(** [SSL_connect] or [SSL_accept]: the calls of [SSLVerifyCallback] (the status
    so far and the certificate), the sessions for [NewSSLSessionCallback], the
    answer (what [SSL_get_error] says and the code) when the certificates are
    accepted and when one is not, the certificate of the peer,
    [SSL_get_verify_result] and [DTLSv1_get_timeout]. *)
Record TlsHandshake := MkTlsHandshake {
  hs_certs : list (bool * cert); hs_sessions : list loc; hs_accepted : Z * Z; hs_rejected : Z * Z;
  hs_peer : option bool; hs_verified : bool; hs_time : option (Z * Z) }.

(** ** Certificates and sessions *)

Definition SSLVerifyInternal (previous_status : bool) (c : cert) : M adapter bool :=
  a ← get;
  if previous_status || negb (ssl_cert_verifier_ (options a)) then mret previous_status
  else if negb (Verify c) then mret previous_status
  else _ ← modify (set_custom true); mret true.
Definition SSLVerifyCallback (status : bool) (c : cert) : M adapter bool :=
  a ← get;
  ok ← SSLVerifyInternal status c;
  let accepted := if negb ok && ignore_bad_cert_ (options a) then true else ok in
  _ ← log_t (ECert status c accepted);
  mret accepted.
(** OpenSSL stops at the first certificate that is not accepted. *)
Fixpoint verify_chain (certs : list (bool * cert)) : M adapter bool :=
  match certs with
  | [] => mret true
  | (status, c) :: certs => ok ← SSLVerifyCallback status c; if (ok : bool) then verify_chain certs else mret false
  end.

(** The callback is installed in the contexts of factories only. *)
Definition NewSSLSessionCallback (session : loc) : M adapter unit :=
  modify (fun a => set_cache (AddSession (ssl_host_name_ a) session <$> ssl_session_cache_ a) a).
Fixpoint new_sessions (sessions : list loc) : M adapter unit :=
  match sessions with [] => mret tt | s :: sessions => _ ← NewSSLSessionCallback s; new_sessions sessions end.

Definition SSLPostConnectionCheck (h : TlsHandshake) : M adapter bool :=
  a ← get;
  let is_valid_cert_name :=
    VerifyPeerCertMatchesHost (ssl_ a) (ssl_host_name_ a) (hs_peer h) && (hs_verified h || custom_cert_verifier_status_ a) in
  mret (is_valid_cert_name || ignore_bad_cert_ (options a)).

Section signals.
(** What runs in the handlers of a signal. *)
Context {op : Type} (handler : list tls_event -> list op).

(** [FSignal]: [OnReadEvent] from its second signal; [FFlush]: [OnWriteEvent]
    from the pending data. *)
Inductive tls_frame := FOp (o : op) | FSignal (e : tls_event) | FFlush (w : Z * Z).

Definition Signal (e : tls_event) : M adapter (list tls_frame) :=
  _ ← log_t e; a ← get; mret (map FOp (handler (tls_events a))).
Definition tls_after (fs : list tls_frame) (rest : tls_frame) (now : M adapter (list tls_frame)) : M adapter (list tls_frame) :=
  match fs with [] => now | _ => mret (fs ++ [rest]) end.

Definition tls_Error (err : Z) (signal : bool) : M adapter (list tls_frame) :=
  _ ← modify (set_state SSL_ERROR);
  _ ← SetError err;
  if signal then Signal (EClosed err) else mret [].

(** ** The handshake *)

Definition tls_ContinueSSL (h : TlsHandshake) : M adapter (list tls_frame * Z) :=
  _ ← modify (set_timer None);
  _ ← use_ssl;
  ok ← verify_chain (hs_certs h);
  _ ← new_sessions (hs_sessions h);
  let '(ssl_error, code) := if (ok : bool) then hs_accepted h else hs_rejected h in
  if ssl_error =? SSL_ERROR_NONE then
    pass ← SSLPostConnectionCheck h;
    if negb pass then _ ← Cleanup; mret ([], -1)
    else
      a ← get;
      _ ← log_t (EPassed (ssl_host_name_ a) (bool_decide (hs_peer h = Some true)) (hs_verified h));
      _ ← modify (set_state SSL_CONNECTED);
      fs ← Signal EConnect;
      mret (fs, 0)
  else if ssl_error =? SSL_ERROR_WANT_READ then
    _ ← (match hs_time h with
         | Some (sec, usec) => modify (set_timer (Some (sec * 1000 + Z.quot usec 1000)))
         | None => mret tt
         end);
    mret ([], 0)
  else if ssl_error =? SSL_ERROR_WANT_WRITE then mret ([], 0)
  else mret ([], if code =? 0 then -1 else code).

(** [EarlyExitCatcher]: what the destructor does unless it is disabled. *)
Definition early_exit (err : Z) : M adapter (list tls_frame * Z) := _ ← Cleanup; mret ([], err).

Definition tls_BeginSSL (s : TlsSetup) (h : TlsHandshake) : M adapter (list tls_frame * Z) :=
  a ← get;
  _ ← (match ssl_session_cache_ a with
       | Some _ => mret tt
       | None =>
           let ctx := bool_decide (is_Some (CreateContext (ssl_mode_ (options a)) false (made s) (roots s))) in
           _ ← modify (set_owned (identity_ a) (ssl_ a) ctx);
           if (ctx : bool) then log_t (ECtx 1) else mret tt
       end);
  a ← get;
  if negb (ssl_ctx_ a) || identity_ a && negb (configured s) || negb (bio_made s) then early_exit (-1)
  else
    _ ← modify (set_owned (identity_ a) (ssl_made s) (ssl_ctx_ a));
    if negb (ssl_made s) then early_exit (-1)
    else
      _ ← log_t (ESsl 1);
      let cached :=
        if decide (ssl_host_name_ a = ""%string) then None
        else c ← ssl_session_cache_ a; LookupSession (ssl_host_name_ a) c in
      if bool_decide (is_Some cached) && negb (session_set s) then early_exit (-1)
      else
        let alpn :=
          match alpn_protocols_ (options a) with [] => [] | protos => TransformAlpnProtocols protos end in
        _ ← log_t (EConfig (ssl_host_name_ a) cached alpn (join (elliptic_curves_ (options a)) x3a));
        q ← tls_ContinueSSL h;
        if negb (q.2 =? 0) then early_exit q.2 else mret q.

Definition tls_StartSSL (hostname : string) (socket : ConnState) (s : TlsSetup) (h : TlsHandshake) : M adapter (list tls_frame * Z) :=
  a ← get;
  if decide (state_ a = SSL_NONE) then
    _ ← log_t (EStart hostname);
    _ ← modify (set_host hostname);
    match socket with
    | CS_CONNECTED =>
        _ ← modify (set_state SSL_CONNECTING);
        q ← tls_BeginSSL s h;
        if negb (q.2 =? 0) then _ ← tls_Error q.2 false; mret ([], q.2) else mret q
    | _ => _ ← modify (set_state SSL_WAIT); mret ([], 0)
    end
  else mret ([], -1).

(** ** Reading and writing *)

(** [w]: what [SSL_get_error] says and the code.  The result, and the former. *)
Definition DoSslWrite (data : list byte) (w : Z * Z) : M adapter (Z * Z) :=
  a ← get;
  _ ← modify (set_needs (ssl_read_needs_write_ a) false);
  _ ← checked_int (Z.of_nat (length data));
  _ ← use_ssl;
  if w.1 =? SSL_ERROR_NONE then
    _ ← log_t (EWritten (take fragment data));
    mret (Z.of_nat (length (take fragment data)), w.1)
  else
    _ ← (if w.1 =? SSL_ERROR_WANT_READ then _ ← modify (fun a => set_needs (ssl_read_needs_write_ a) true a); SetError EWOULDBLOCK
         else if (w.1 =? SSL_ERROR_WANT_WRITE) || (w.1 =? SSL_ERROR_ZERO_RETURN) then SetError EWOULDBLOCK
         else _ ← tls_Error (if w.2 =? 0 then -1 else w.2) false; mret tt);
    mret (-1, w.1).

(** The data goes out, or is kept for later. *)
Definition send_data (data : list byte) (w : Z * Z) : M adapter Z :=
  match data with
  | [] => mret 0
  | _ =>
      r ← DoSslWrite data w;
      if (r.2 =? SSL_ERROR_WANT_READ) || (r.2 =? SSL_ERROR_WANT_WRITE) then
        _ ← modify (set_pending data);
        _ ← log_t (ESent data);
        mret (Z.of_nat (length data))
      else
        _ ← (if 0 <=? r.1 then log_t (ESent (take (Z.to_nat r.1) data)) else mret tt);
        mret r.1
  end.

(** [clear]: what the wrapped socket returns.  [w], [w']: for the pending data
    and for the new. *)
Definition tls_Send (data : list byte) (clear : Z) (w w' : Z * Z) : M adapter Z :=
  a ← get;
  match state_ a with
  | SSL_NONE => _ ← log_t EClear; mret clear
  | SSL_WAIT | SSL_CONNECTING => _ ← SetError ENOTCONN; mret (-1)
  | SSL_ERROR => mret (-1)
  | SSL_CONNECTED =>
      match pending_data_ a with
      | [] => send_data data w'
      | pending =>
          r ← DoSslWrite pending w;
          if negb (r.1 =? Z.of_nat (length pending)) then _ ← SetError EWOULDBLOCK; mret (-1)
          else _ ← modify (set_pending []); send_data data w'
      end
  end.
(** [same]: the address is the remote address of the socket. *)
Definition tls_SendTo (socket : ConnState) (same : bool) (data : list byte) (clear : Z) (w w' : Z * Z) : M adapter Z :=
  match socket, same with
  | CS_CONNECTED, true => tls_Send data clear w w'
  | _, _ => _ ← SetError ENOTCONN; mret (-1)
  end.

(** [r]: what [SSL_get_error] says and the code; [sessions]: those that arrive. *)
Definition tls_Recv (cb : Z) (clear : Z) (sessions : list loc) (r : Z * Z) : M adapter Z :=
  a ← get;
  match state_ a with
  | SSL_NONE => _ ← log_t EClear; mret clear
  | SSL_WAIT | SSL_CONNECTING => _ ← SetError ENOTCONN; mret (-1)
  | SSL_ERROR => mret (-1)
  | SSL_CONNECTED =>
      if cb =? 0 then mret 0
      else
        _ ← modify (set_needs false (ssl_write_needs_read_ a));
        _ ← checked_int cb;
        _ ← use_ssl;
        _ ← new_sessions sessions;
        if r.1 =? SSL_ERROR_NONE then _ ← log_t (EGot r.2); mret r.2
        else
          _ ← (if r.1 =? SSL_ERROR_WANT_WRITE then _ ← modify (fun a => set_needs true (ssl_write_needs_read_ a) a); SetError EWOULDBLOCK
               else if (r.1 =? SSL_ERROR_WANT_READ) || (r.1 =? SSL_ERROR_ZERO_RETURN) then SetError EWOULDBLOCK
               else _ ← tls_Error (if r.2 =? 0 then -1 else r.2) false; mret tt);
          mret (-1)
  end.
Definition tls_RecvFrom (socket : ConnState) (cb : Z) (clear : Z) (sessions : list loc) (r : Z * Z) : M adapter Z :=
  match socket with
  | CS_CONNECTED => tls_Recv cb clear sessions r
  | _ => _ ← SetError ENOTCONN; mret (-1)
  end.

Definition tls_GetState (socket : ConnState) (a : adapter) : ConnState :=
  match socket, state_ a with
  | CS_CONNECTED, (SSL_WAIT | SSL_CONNECTING) => CS_CONNECTING
  | _, _ => socket
  end.
Definition IsResumedSession (reused : bool) (a : adapter) : bool := ssl_ a && reused.

(** ** Events *)

Definition tls_OnMessage (h : TlsHandshake) : M adapter (list tls_frame) :=
  _ ← modify (set_timer None);
  _ ← use_ssl;
  q ← tls_ContinueSSL h;
  mret q.1.
Definition tls_OnConnectEvent (s : TlsSetup) (h : TlsHandshake) : M adapter (list tls_frame) :=
  a ← get;
  if decide (state_ a = SSL_WAIT) then
    _ ← modify (set_state SSL_CONNECTING);
    q ← tls_BeginSSL s h;
    if negb (q.2 =? 0) then Signal (EClosed q.2) else mret q.1
  else Signal EConnect.
(** The part that [OnReadEvent] and [OnWriteEvent] have in common. *)
Definition continue_handshake (h : TlsHandshake) : M adapter (list tls_frame) :=
  q ← tls_ContinueSSL h;
  if negb (q.2 =? 0) then tls_Error q.2 true else mret q.1.
Definition tls_OnReadEvent (h : TlsHandshake) : M adapter (list tls_frame) :=
  a ← get;
  match state_ a with
  | SSL_NONE => Signal EReadable
  | SSL_CONNECTING => continue_handshake h
  | SSL_CONNECTED =>
      if ssl_write_needs_read_ a then fs ← Signal EWritable; tls_after fs (FSignal EReadable) (Signal EReadable)
      else Signal EReadable
  | _ => mret []
  end.
Definition flush_pending (w : Z * Z) : M adapter (list tls_frame) :=
  a ← get;
  _ ← (match pending_data_ a with
       | [] => mret tt
       | pending =>
           r ← DoSslWrite pending w;
           if r.1 =? Z.of_nat (length pending) then modify (set_pending []) else mret tt
       end);
  Signal EWritable.
Definition tls_OnWriteEvent (h : TlsHandshake) (w : Z * Z) : M adapter (list tls_frame) :=
  a ← get;
  match state_ a with
  | SSL_NONE => Signal EWritable
  | SSL_CONNECTING => continue_handshake h
  | SSL_CONNECTED =>
      if ssl_read_needs_write_ a then fs ← Signal EReadable; tls_after fs (FFlush w) (flush_pending w)
      else flush_pending w
  | _ => mret []
  end.
Definition tls_OnCloseEvent (err : Z) : M adapter (list tls_frame) := Signal (EClosed err).
End signals.

(** ** Accepting *)

Definition SetIgnoreBadCert (ignore : bool) : M adapter unit :=
  _ ← modify (fun a => let o := options a in
    set_options (MkOptions (role_ o) (ssl_mode_ o) ignore (ssl_cert_verifier_ o) (alpn_protocols_ o) (elliptic_curves_ o)) a);
  log_t (EIgnore ignore).
Definition SetRole (role : SSLRole) : M adapter unit :=
  modify (fun a => let o := options a in
    set_options (MkOptions role (ssl_mode_ o) (ignore_bad_cert_ o) (ssl_cert_verifier_ o) (alpn_protocols_ o) (elliptic_curves_ o)) a).
Definition SetMode (mode : SSLMode) : M adapter unit :=
  modify (fun a => let o := options a in
    set_options (MkOptions (role_ o) mode (ignore_bad_cert_ o) (ssl_cert_verifier_ o) (alpn_protocols_ o) (elliptic_curves_ o)) a).
Definition SetCertVerifier (verifier : bool) : M adapter unit :=
  modify (fun a => let o := options a in
    set_options (MkOptions (role_ o) (ssl_mode_ o) (ignore_bad_cert_ o) verifier (alpn_protocols_ o) (elliptic_curves_ o)) a).
Definition SetAlpnProtocols (protos : list (list byte)) : M adapter unit :=
  modify (fun a => let o := options a in
    set_options (MkOptions (role_ o) (ssl_mode_ o) (ignore_bad_cert_ o) (ssl_cert_verifier_ o) protos (elliptic_curves_ o)) a).
Definition SetEllipticCurves (curves : list (list byte)) : M adapter unit :=
  modify (fun a => let o := options a in
    set_options (MkOptions (role_ o) (ssl_mode_ o) (ignore_bad_cert_ o) (ssl_cert_verifier_ o) (alpn_protocols_ o) curves) a).
Definition SetIdentity : M adapter unit := modify (fun a => set_owned true (ssl_ a) (ssl_ctx_ a) a).

(** [accepted]: the state of the socket that [SSLAdapter::Accept] gives, if it
    gives one.  No handler is connected yet to the new adapter. *)
Definition accepted_adapter (ignore : bool) (socket : ConnState) (s : TlsSetup) (h : TlsHandshake) : M adapter unit :=
  _ ← SetIdentity;
  _ ← SetRole SSL_SERVER;
  _ ← SetIgnoreBadCert ignore;
  _ ← tls_StartSSL (op := Empty_set) (fun _ => []) "" socket s h;
  mret tt.
Definition tls_Accept (accepted : option ConnState) (s : TlsSetup) (h : TlsHandshake) : M adapter (option adapter) :=
  match accepted with
  | None => mret None
  | Some socket =>
      a ← get;
      if identity_ a then
        q ← lift (accepted_adapter (ignore_bad_cert_ (options a)) socket s h (new_OpenSSLAdapter None false));
        mret (Some q.2)
      else ub_ NullDeref
  end.

(** ** The machine *)

Inductive tls_op :=
  | OSetIgnoreBadCert (ignore : bool) | OSetRole (role : SSLRole) | OSetMode (mode : SSLMode) | OSetCertVerifier (verifier : bool)
  | OSetAlpnProtocols (protos : list (list byte)) | OSetEllipticCurves (curves : list (list byte)) | OSetIdentity
  | OStartSSL (hostname : string) (socket : ConnState) (s : TlsSetup) (h : TlsHandshake)
  | OSend (data : list byte) (clear : Z) (w w' : Z * Z)
  | OSendTo (socket : ConnState) (same : bool) (data : list byte) (clear : Z) (w w' : Z * Z)
  | ORecv (cb clear : Z) (sessions : list loc) (r : Z * Z)
  | ORecvFrom (socket : ConnState) (cb clear : Z) (sessions : list loc) (r : Z * Z)
  | OClose (result : Z) | OAccept (accepted : option ConnState) (s : TlsSetup) (h : TlsHandshake)
  | OMessage (h : TlsHandshake) | OConnectEvent (s : TlsSetup) (h : TlsHandshake)
  | OReadEvent (h : TlsHandshake) | OWriteEvent (h : TlsHandshake) (w : Z * Z) | OCloseEvent (err : Z)
  | OOtherSession (hostname : string) (session : loc)   (* of another adapter of the factory *)
  | ODestroy.
Notation frame := (@tls_frame tls_op).

Section machine.
(** [max_send]: the most that the client sends in one call. *)
Context (handler : list tls_event -> list tls_op) (max_send : nat).

Definition do_tls_op (o : tls_op) : M adapter (list frame) :=
  match o with
  | OSetIgnoreBadCert ignore => _ ← SetIgnoreBadCert ignore; mret []
  | OSetRole role => _ ← SetRole role; mret []
  | OSetMode mode => _ ← SetMode mode; mret []
  | OSetCertVerifier verifier => _ ← SetCertVerifier verifier; mret []
  | OSetAlpnProtocols protos => _ ← SetAlpnProtocols protos; mret []
  | OSetEllipticCurves curves => _ ← SetEllipticCurves curves; mret []
  | OSetIdentity => _ ← SetIdentity; mret []
  | OStartSSL hostname socket s h => q ← tls_StartSSL handler hostname socket s h; mret q.1
  | OSend data clear w w' => _ ← tls_Send handler data clear w w'; mret []
  | OSendTo socket same data clear w w' => _ ← tls_SendTo handler socket same data clear w w'; mret []
  | ORecv cb clear sessions r => _ ← tls_Recv handler cb clear sessions r; mret []
  | ORecvFrom socket cb clear sessions r => _ ← tls_RecvFrom handler socket cb clear sessions r; mret []
  | OClose result => _ ← tls_Close result; mret []
  | OAccept accepted s h => _ ← tls_Accept accepted s h; mret []
  | OMessage h => tls_OnMessage handler h
  | OConnectEvent s h => tls_OnConnectEvent handler s h
  | OReadEvent h => tls_OnReadEvent handler h
  | OWriteEvent h w => tls_OnWriteEvent handler h w
  | OCloseEvent err => tls_OnCloseEvent handler err
  | OOtherSession hostname session =>
      _ ← modify (fun a => set_cache (AddSession hostname session <$> ssl_session_cache_ a) a); mret []
  | ODestroy => _ ← delete_OpenSSLAdapter; mret []
  end.

(** What the client and the thread must observe: the adapter lives; lengths are
    within bounds; the message arrives if it is there; no message, and no
    destruction, inside a method; an adapter that accepts has an identity. *)
Definition no_method (k : list frame) : bool := forallb (fun f => match f with FOp _ => true | _ => false end) k.
Definition tls_op_ok (a : adapter) (k : list frame) (o : tls_op) : bool :=
  alive_ a &&
  match o with
  | OSend data _ _ _ | OSendTo _ _ data _ _ _ => (length data <=? max_send)%nat
  | ORecv cb _ _ _ | ORecvFrom _ cb _ _ _ => cb <=? INT_MAX
  | OMessage _ => no_method k && bool_decide (is_Some (timer_ a))
  | ODestroy => no_method k
  | OAccept accepted _ _ => identity_ a || bool_decide (accepted = None)
  | _ => true
  end.

Definition tls_step (k : list frame) : M adapter (list frame) :=
  match k with
  | [] => mret []
  | f :: k =>
      fs ← (match f with
            | FOp o => a ← get; if tls_op_ok a k o then do_tls_op o else mret []
            | FSignal e => Signal handler e
            | FFlush w => flush_pending handler w
            end);
      mret (fs ++ k)
  end.
Fixpoint tls_run (n : nat) (k : list frame) : M adapter (list frame) :=
  match n with O => mret k | S n => k ← tls_step k; tls_run n k end.
End machine.
End adapter.
