(* ===== verification/TlsSocketInv.v ===== *)
(** * No data of TLS before the check, and none lost or reordered

    What the adapter of TlsSocket.v did is judged event by event: data through
    OpenSSL only after a handshake that passed the check, clear text only while
    there is no TLS.  What [Send] said was sent is what OpenSSL took followed by
    what is pending.  References to contexts and connections are counted. *)

From stdpp Require Import list strings gmap.
From S2P Require Import Prelude StringEncode PhysSocket SslStream TlsSocket.
#[local] Open Scope Z_scope.
#[local] Open Scope xrtc_scope.

Section adapter.
Context {cert : Type} (Verify : cert -> bool) (fragment max_send : nat).
Notation adapter := (@OpenSSLAdapter cert).
Notation tls_event := (@tls_event cert).

(** ** The rules *)

(** Since the last [Cleanup]: whether TLS was started, whether a handshake has
    passed the check, whether the verifier has accepted a certificate against
    the status; what [Send] said was sent and what OpenSSL took.  Over the whole
    life: the host, the option, and the references that are held. *)
Record history := MkHistory {
  h_host : string; h_active : bool; h_open : bool; h_ignore : bool; h_custom : bool;
  h_sent : list byte; h_written : list byte; h_ctx : Z; h_ssl : Z }.
Definition h_begin : history := MkHistory "" false false false false [] [] 0 0.
Definition h_next (g : history) (e : tls_event) : history :=
  match e with
  | EIgnore ignore => MkHistory (h_host g) (h_active g) (h_open g) ignore (h_custom g) (h_sent g) (h_written g) (h_ctx g) (h_ssl g)
  | EStart host => MkHistory host true (h_open g) (h_ignore g) (h_custom g) (h_sent g) (h_written g) (h_ctx g) (h_ssl g)
  | ECert false c true => MkHistory (h_host g) (h_active g) (h_open g) (h_ignore g) (h_custom g || Verify c) (h_sent g) (h_written g) (h_ctx g) (h_ssl g)
  | EPassed _ _ _ => MkHistory (h_host g) (h_active g) true (h_ignore g) (h_custom g) (h_sent g) (h_written g) (h_ctx g) (h_ssl g)
  | ESent data => MkHistory (h_host g) (h_active g) (h_open g) (h_ignore g) (h_custom g) (h_sent g ++ data) (h_written g) (h_ctx g) (h_ssl g)
  | EWritten data => MkHistory (h_host g) (h_active g) (h_open g) (h_ignore g) (h_custom g) (h_sent g) (h_written g ++ data) (h_ctx g) (h_ssl g)
  | ECtx d => MkHistory (h_host g) (h_active g) (h_open g) (h_ignore g) (h_custom g) (h_sent g) (h_written g) (h_ctx g + d) (h_ssl g)
  | ESsl d => MkHistory (h_host g) (h_active g) (h_open g) (h_ignore g) (h_custom g) (h_sent g) (h_written g) (h_ctx g) (h_ssl g + d)
  | ECleanup => MkHistory (h_host g) false false (h_ignore g) false [] [] (h_ctx g) (h_ssl g)
  | _ => g
  end.

(** Clear text while TLS is not started; data through OpenSSL after a check; a
    certificate is accepted if its status is good, the verifier accepts it or
    errors are ignored; the check is passed, for the host that the client
    named, if errors are ignored, or if the certificate matches the host and
    either the verification was good or the verifier accepted a certificate. *)
Definition lawful (g : history) (e : tls_event) : Prop :=
  match e with
  | EClear => h_active g = false
  | ESent _ | EWritten _ | EGot _ => h_open g = true
  | ECert status c accepted => accepted = true -> status = true \/ Verify c = true \/ h_ignore g = true
  | EPassed host matches verified =>
      h_active g = true /\ host = h_host g /\
      (h_ignore g = true \/ host <> ""%string /\ matches = true /\ (verified = true \/ h_custom g = true))
  | _ => True
  end.
Fixpoint all_lawful (g : history) (es : list tls_event) : Prop :=
  match es with [] => True | e :: es => lawful g e /\ all_lawful (h_next g e) es end.

Definition past (es : list tls_event) : history := foldl h_next h_begin es.
#[local] Arguments past : simpl never.
Lemma past_snoc es e : past (es ++ [e]) = h_next (past es) e.
Proof. unfold past. by rewrite foldl_app. Qed.
Lemma all_lawful_snoc es e : all_lawful h_begin es -> lawful (past es) e -> all_lawful h_begin (es ++ [e]).
Proof.
  unfold past. generalize h_begin. induction es as [|x es IH]; intros g; cbn; [done|]. intros [H1 H2] Hl. split; [done|by apply IH].
Qed.

(** ** The invariant *)

Definition started (s : SSLState) : Prop := s = SSL_WAIT \/ s = SSL_CONNECTING \/ s = SSL_CONNECTED.
Record core (a : adapter) : Prop := {
  c_lawful : all_lawful h_begin (tls_events a);
  c_none : state_ a = SSL_NONE -> h_active (past (tls_events a)) = false;
  c_active : started (state_ a) -> h_active (past (tls_events a)) = true;
  c_open : state_ a = SSL_CONNECTED \/ pending_data_ a <> [] -> h_open (past (tls_events a)) = true;
  c_host : h_host (past (tls_events a)) = ssl_host_name_ a;
  c_custom : custom_cert_verifier_status_ a = true -> h_custom (past (tls_events a)) = true;
  c_ignore : h_ignore (past (tls_events a)) = ignore_bad_cert_ (options a);
  c_ctx : h_ctx (past (tls_events a)) = Z.b2z (ssl_ctx_ a);
  c_ssl : h_ssl (past (tls_events a)) = Z.b2z (ssl_ a);
  c_size : (length (pending_data_ a) <= max_send)%nat;
  c_stream : (max_send <= fragment)%nat ->
    h_sent (past (tls_events a)) = h_written (past (tls_events a)) ++ pending_data_ a;
}.
Record objects (a : adapter) : Prop := {
  o_ssl : state_ a = SSL_CONNECTING \/ state_ a = SSL_CONNECTED -> ssl_ a = true;
  o_pending : pending_data_ a <> [] -> ssl_ a = true /\ (state_ a = SSL_CONNECTED \/ state_ a = SSL_ERROR);
  o_idle : state_ a = SSL_NONE \/ state_ a = SSL_WAIT -> ssl_ a = false /\ (ssl_session_cache_ a = None -> ssl_ctx_ a = false);
  o_timer : is_Some (timer_ a) -> state_ a = SSL_CONNECTING;
}.
Record adapter_ok (a : adapter) : Prop := { ok_core : core a; ok_objects : objects a }.

(** Fields that the invariant does not mention. *)
Lemma core_needs r w a : core a -> core (set_needs r w a).
Proof. intros []. by split. Qed.
Lemma core_error e a : core a -> core (set_error e a).
Proof. intros []. by split. Qed.
Lemma tls_ok_needs r w a : adapter_ok a -> adapter_ok (set_needs r w a).
Proof. intros [[] []]. by split; split. Qed.
Lemma tls_ok_error e a : adapter_ok a -> adapter_ok (set_error e a).
Proof. intros [[] []]. by split; split. Qed.
Lemma tls_ok_cache f a : adapter_ok a -> adapter_ok (set_cache (f <$> ssl_session_cache_ a) a).
Proof. intros [[] [O1 O2 O3 O4]]. split; split; try done. cbn. intros H. destruct (O3 H) as [H1 H2]. split; [done|]. intros Hc. apply H2. by destruct (ssl_session_cache_ a). Qed.

(** Events that change nothing in the history. *)
Definition quiet (e : tls_event) : Prop :=
  match e with EConfig _ _ _ _ | EConnect | EReadable | EWritable | EClosed _ => True | _ => False end.
Lemma past_same e es : h_next (past es) e = past es -> past (es ++ [e]) = past es.
Proof. by rewrite past_snoc. Qed.
Lemma core_log_same e a : core a -> h_next (past (tls_events a)) e = past (tls_events a) -> lawful (past (tls_events a)) e -> core (log_tls e a).
Proof. intros [] He Hl. apply past_same in He. split; cbn; rewrite ?He; try done. by apply all_lawful_snoc. Qed.
Lemma quiet_lawful e g : quiet e -> lawful g e /\ h_next g e = g.
Proof. by destruct e. Qed.
Lemma core_quiet e a : core a -> quiet e -> core (log_tls e a).
Proof. intros Ha He. by apply core_log_same; [|apply quiet_lawful..]. Qed.
Lemma objects_log_tls e a : objects a -> objects (log_tls e a).
Proof. intros []. by split. Qed.
Lemma tls_ok_log e a : adapter_ok a -> h_next (past (tls_events a)) e = past (tls_events a) -> lawful (past (tls_events a)) e -> adapter_ok (log_tls e a).
Proof. intros [H1 H2] He Hl. split; [by apply core_log_same|by apply objects_log_tls]. Qed.

(** ** Cleanup *)

Lemma give_back_ok a (held : bool) e (Q : unit -> adapter -> Prop) :
  Q tt (if held then log_tls e a else a) -> twp (give_back held e) a Q.
Proof. destruct held; [apply twp_modify|apply twp_ret]. Qed.

Lemma Cleanup_end a : core a -> twp Cleanup a (fun _ a' => adapter_ok a' /\ state_ a' = SSL_NONE).
Proof.
  intros [C1 C2 C3 C4 C5 C6 C7 C8 C9 C10 C11]. unfold Cleanup. do 4 apply twp_bind, twp_modify. apply twp_bind, twp_get, twp_bind, give_back_ok, twp_bind, give_back_ok.
  do 2 apply twp_bind, twp_modify. apply twp_modify. cbn [ssl_ ssl_ctx_ set_pending set_custom set_needs set_state] in *.
  split; [|by destruct (ssl_ a), (ssl_ctx_ a)].
  destruct (ssl_ a), (ssl_ctx_ a); cbn [Z.b2z] in *; (split; [split|by split; cbn; try done; intros []]);
    cbn; rewrite ?past_snoc; cbn; try done; try lia; repeat apply all_lawful_snoc; done || by intros [|[]].
Qed.

Section handlers.
Context {op : Type} (handler : list tls_event -> list op).

(** Handlers are operations, and a signal that waits is one of the adapter's. *)
Definition tls_ops (fs : list (@tls_frame cert op)) : Prop := Forall (fun f => match f with FOp _ => True | _ => False end) fs.
Definition tls_frame_ok (f : @tls_frame cert op) : Prop := match f with FSignal e => quiet e | _ => True end.
Definition stays (fs : list (@tls_frame cert op)) (a : adapter) : Prop := adapter_ok a /\ Forall tls_frame_ok fs.
Lemma tls_ops_ok fs : tls_ops fs -> Forall tls_frame_ok fs.
Proof. intros H. eapply Forall_impl; [exact H|]. by intros []. Qed.

Lemma Signal_ok a e : adapter_ok a -> quiet e -> twp (Signal handler e) a (fun fs a' => adapter_ok a' /\ tls_ops fs /\ state_ a' = state_ a).
Proof.
  intros Ha He. apply twp_bind, twp_modify, twp_bind, twp_get, twp_ret. split; [by apply tls_ok_log; [|apply quiet_lawful..]|]. split; [|done].
  unfold tls_ops. induction (handler _); by constructor.
Qed.
Lemma Signal_stays a e : adapter_ok a -> quiet e -> twp (Signal handler e) a stays.
Proof. intros Ha He. eapply twp_mono; [by apply Signal_ok|]. intros fs a' (H1 & H2 & _). split; [done|by apply tls_ops_ok]. Qed.

Lemma after_stays (fs : list (@tls_frame cert op)) rest now a : adapter_ok a -> tls_ops fs -> tls_frame_ok rest -> twp now a stays -> twp (tls_after fs rest now) a stays.
Proof.
  intros Ha Hfs Hr Hn. destruct fs; [done|]. apply twp_ret. split; [done|]. apply Forall_app_2; [by apply tls_ops_ok|by apply Forall_singleton].
Qed.

(** An error keeps the connection and what is pending. *)
Lemma error_ok a : core a -> (pending_data_ a <> [] -> ssl_ a = true) -> timer_ a = None -> adapter_ok (set_state SSL_ERROR a).
Proof.
  intros [C1 C2 C3 C4 C5 C6 C7 C8 C9 C10 C11] Hp Ht. split; split; cbn; try done; try by intros [].
  - by intros [|[]].
  - intros [|Hne]; [done|]. apply C4. by right.
  - intros Hne. split; [by apply Hp|by right].
  - rewrite Ht. by intros [].
Qed.
Lemma tls_Error_ok a err signal : core a -> (pending_data_ a <> [] -> ssl_ a = true) -> timer_ a = None -> twp (tls_Error handler err signal) a stays.
Proof.
  intros Ha Hp Ht. unfold tls_Error. apply twp_bind, twp_modify, twp_bind, twp_modify. pose proof (error_ok _ Ha Hp Ht) as Ha'.
  destruct signal; [by apply Signal_stays; [apply tls_ok_error|]|]. apply twp_ret. by split; [apply tls_ok_error|].
Qed.

(** ** Certificates *)

(** What the calls inside a handshake leave alone. *)
Definition kept (a a' : adapter) : Prop :=
  core a' /\ (objects a -> objects a') /\ state_ a' = state_ a /\ ssl_ a' = ssl_ a /\ timer_ a' = timer_ a.
Lemma kept_trans a1 a2 a3 : kept a1 a2 -> kept a2 a3 -> kept a1 a3.
Proof. intros (H1 & H2 & H3 & H4 & H5) (H1' & H2' & H3' & H4' & H5'). unfold kept. split_and!; [done|auto|congruence..]. Qed.
Lemma kept_log a e : core a -> h_next (past (tls_events a)) e = past (tls_events a) -> lawful (past (tls_events a)) e -> kept a (log_tls e a).
Proof. intros. split_and!; [by apply core_log_same|apply objects_log_tls|done..]. Qed.

Lemma kept_cert a c custom : core a -> Verify c = true \/ ignore_bad_cert_ (options a) = true ->
  (custom = true -> Verify c = true \/ custom_cert_verifier_status_ a = true) -> kept a (log_tls (ECert false c true) (set_custom custom a)).
Proof.
  intros [C1 C2 C3 C4 C5 C6 C7 C8 C9 C10 C11] Hc Hv. split_and!; [|by intros []; split|done..].
  split; cbn; rewrite ?past_snoc; cbn; try done.
  - apply all_lawful_snoc; [done|]. intros _. rewrite C7. tauto.
  - intros Ht. destruct (Hv Ht) as [->|H]; [by rewrite orb_true_r|]. by rewrite (C6 H).
Qed.

Lemma set_custom_same (a : adapter) : set_custom (custom_cert_verifier_status_ a) a = a.
Proof. by destruct a. Qed.
Lemma SSLVerifyCallback_ok a status c : core a -> twp (SSLVerifyCallback Verify status c) a (fun _ a' => kept a a').
Proof.
  intros Ha. unfold SSLVerifyCallback, SSLVerifyInternal. apply twp_bind, twp_get, twp_bind, twp_bind, twp_get. destruct status; cbn [orb].
  { apply twp_ret, twp_bind, twp_modify, twp_ret. apply kept_log; [done|done|by left]. }
  assert (forall ok : bool, ok = false -> twp (mbind (fun _ : unit => mret (if negb ok && ignore_bad_cert_ (options a) then true else ok))
    (log_t (ECert false c (if negb ok && ignore_bad_cert_ (options a) then true else ok)))) a (fun _ a' => kept a a')) as Hno.
  { intros ok ->. apply twp_bind, twp_modify, twp_ret. cbn. destruct (ignore_bad_cert_ (options a)) eqn:Hi; [|by apply kept_log].
    rewrite <- (set_custom_same a) at 2. apply kept_cert; auto. }
  destruct (ssl_cert_verifier_ (options a)); cbn [negb]; [|by apply twp_ret, Hno].
  destruct (Verify c) eqn:Hv; cbn [negb]; [|by apply twp_ret, Hno].
  apply twp_bind, twp_modify, twp_ret, twp_bind, twp_modify, twp_ret. apply kept_cert; auto.
Qed.
Lemma kept_refl a : core a -> kept a a.
Proof. intros Ha. by split_and!. Qed.
Lemma verify_chain_ok a certs : core a -> twp (verify_chain Verify certs) a (fun _ a' => kept a a').
Proof.
  revert a. induction certs as [|[status c] certs IH]; intros a Ha; [by apply twp_ret, kept_refl|]. cbn [verify_chain].
  eapply twp_bind, twp_mono; [by apply SSLVerifyCallback_ok|]. intros ok a' Hk. destruct ok; [|by apply twp_ret].
  eapply twp_mono; [apply IH, Hk|]. intros ok a2. by apply kept_trans.
Qed.

Lemma kept_session a s : core a -> kept a (set_cache (AddSession (ssl_host_name_ a) s <$> ssl_session_cache_ a) a).
Proof.
  intros [C1 C2 C3 C4 C5 C6 C7 C8 C9 C10 C11]. split_and!; [by split|intros [O1 O2 O3 O4]; split; try done|done..].
  cbn. intros H. destruct (O3 H) as [H1 H2]. split; [done|]. intros Hc. apply H2. by destruct (ssl_session_cache_ a).
Qed.
Lemma new_sessions_ok a sessions : core a -> twp (new_sessions sessions) a (fun _ a' => kept a a').
Proof.
  revert a. induction sessions as [|s sessions IH]; intros a Ha; [by apply twp_ret, kept_refl|]. cbn [new_sessions].
  apply twp_bind, twp_modify. eapply twp_mono; [apply IH, kept_session, Ha|]. intros _x a2. by apply kept_trans, kept_session.
Qed.

Lemma kept_ok a a' : adapter_ok a -> kept a a' -> adapter_ok a'.
Proof. intros [_ Ho] (H1 & H2 & _). split; [done|by apply H2]. Qed.

(** ** The handshake *)

Lemma check_passed a h : SSLPostConnectionCheck h a = Ret (true, a) -> core a -> state_ a = SSL_CONNECTING ->
  lawful (past (tls_events a)) (EPassed (ssl_host_name_ a) (bool_decide (hs_peer h = Some true)) (hs_verified h)).
Proof.
  intros [= H] [C1 C2 C3 C4 C5 C6 C7 C8 C9 C10 C11] Hst. cbn. rewrite C5, C7. split; [apply C3; rewrite Hst; by right; left|]. split; [done|].
  apply orb_prop in H as [H|H]; [|by left]. right. apply andb_prop in H as [H1 H2]. unfold VerifyPeerCertMatchesHost in H1.
  destruct (decide _); [done|]. destruct (ssl_ a); [|done]. cbn in H1. destruct (hs_peer h) as [[]|]; try done. split_and!; [done..|].
  apply orb_prop in H2 as [H2|H2]; auto.
Qed.
Lemma passed_ok a host m v : adapter_ok a -> state_ a = SSL_CONNECTING -> timer_ a = None ->
  lawful (past (tls_events a)) (EPassed host m v) -> adapter_ok (set_state SSL_CONNECTED (log_tls (EPassed host m v) a)).
Proof.
  intros [[C1 C2 C3 C4 C5 C6 C7 C8 C9 C10 C11] [O1 O2 O3 O4]] Hst Ht Hl.
  split; split; cbn; rewrite ?past_snoc; cbn; try done.
  - by apply all_lawful_snoc.
  - intros _. apply Hl.
  - intros _. apply O1. by left.
  - intros Hp. destruct (O2 Hp) as [? _]. auto.
  - by intros [].
  - rewrite Ht. by intros [].
Qed.

Lemma tls_ok_timer_off a : adapter_ok a -> adapter_ok (set_timer None a).
Proof. intros [[] []]. split; split; try done. by intros []. Qed.
Lemma tls_ok_timer a t : adapter_ok a -> state_ a = SSL_CONNECTING -> adapter_ok (set_timer t a).
Proof. intros [[] []] Hst. by split; split. Qed.
Lemma use_ssl_ok (a : adapter) (Q : unit -> adapter -> Prop) : ssl_ a = true -> Q tt a -> twp use_ssl a Q.
Proof. intros Hs HQ. unfold use_ssl. apply twp_bind, twp_get. rewrite Hs. by apply twp_ret. Qed.

(** A handshake that fails runs no handler and leaves no message. *)
Definition tried (q : list (@tls_frame cert op) * Z) (a : adapter) : Prop :=
  adapter_ok a /\ tls_ops q.1 /\ (q.2 <> 0 -> q.1 = [] /\ timer_ a = None).

Lemma tls_ContinueSSL_ok a h : adapter_ok a -> state_ a = SSL_CONNECTING -> twp (tls_ContinueSSL Verify handler h) a tried.
Proof.
  intros Ha Hst. unfold tls_ContinueSSL. apply twp_bind, twp_modify. apply tls_ok_timer_off in Ha. set (a1 := set_timer None a) in *.
  apply twp_bind, use_ssl_ok; [apply (o_ssl _ (ok_objects _ Ha)); by left|].
  eapply twp_bind, twp_mono; [apply verify_chain_ok, Ha|]. intros ok a2 Hk.
  eapply twp_bind, twp_mono; [apply new_sessions_ok, Hk|]. intros _x a3 Hk3. pose proof (kept_trans _ _ _ Hk Hk3) as Hk'.
  pose proof (kept_ok _ _ Ha Hk') as Ha3. destruct Hk' as (_ & _ & Hst3 & _ & Ht3). clear Hk Hk3. change (state_ a1) with (state_ a) in Hst3. rewrite Hst in Hst3.
  assert (tls_ops []) as Hnil by constructor. destruct (if ok then hs_accepted h else hs_rejected h) as [e code].
  destruct (e =? SSL_ERROR_NONE); [|destruct (e =? SSL_ERROR_WANT_READ); [|destruct (e =? SSL_ERROR_WANT_WRITE)]].
  - assert (exists pass, SSLPostConnectionCheck h a3 = Ret (pass, a3)) as [pass Hp] by (unfold SSLPostConnectionCheck; run; by eexists).
    apply twp_bind. exists pass, a3. split; [done|]. destruct pass; cbn [negb].
    + apply twp_bind, twp_get, twp_bind, twp_modify, twp_bind, twp_modify.
      eapply twp_bind, twp_mono; [apply Signal_ok; [|done]|].
      { apply passed_ok; [done..|]. apply check_passed; [done|apply Ha3|done]. }
      intros fs a4 (H1 & H2 & _). apply twp_ret. by split_and!.
    + eapply twp_bind, twp_mono; [apply Cleanup_end, Ha3|]. intros _y a4 [H1 H2]. apply twp_ret. split_and!; [done..|]. intros _. split; [done|].
      destruct (timer_ a4) eqn:E; [|done]. pose proof (o_timer _ (ok_objects _ H1) ltac:(by eexists)). congruence.
  - apply twp_bind. destruct (hs_time h) as [[sec usec]|]; [apply twp_modify|apply twp_ret]; apply twp_ret; split_and!; try done; by apply tls_ok_timer.
  - by apply twp_ret.
  - apply twp_ret. split_and!; [done..|]. by intros _.
Qed.

(** Before [BeginSSL] there is no connection. *)
Record no_connection (a : adapter) : Prop := {
  n_state : state_ a = SSL_CONNECTING; n_ssl : ssl_ a = false;
  n_pending : pending_data_ a = []; n_timer : timer_ a = None }.
Lemma connecting_ok a : adapter_ok a -> state_ a = SSL_WAIT ->
  core (set_state SSL_CONNECTING a) /\ no_connection (set_state SSL_CONNECTING a) /\ (ssl_session_cache_ a = None -> ssl_ctx_ a = false).
Proof.
  intros [[C1 C2 C3 C4 C5 C6 C7 C8 C9 C10 C11] [O1 O2 O3 O4]] Hst.
  assert (pending_data_ a = []) as Hp. { destruct (pending_data_ a); [done|]. rewrite Hst in O2. destruct (O2 ltac:(done)) as [_ [|]]; done. }
  split; [|split; [|apply O3; auto]]; split; cbn; try done.
  - intros _. apply C3. rewrite Hst. by left.
  - rewrite Hp. by intros [|].
  - apply O3. auto.
  - destruct (timer_ a); [|done]. rewrite Hst in O4. by specialize (O4 ltac:(by eexists)).
Qed.
Lemma start_ok a host st : adapter_ok a -> state_ a = SSL_NONE -> st = SSL_WAIT \/ st = SSL_CONNECTING ->
  let a' := set_state st (set_host host (log_tls (EStart host) a)) in
  core a' /\ (st = SSL_WAIT -> adapter_ok a') /\ (st = SSL_CONNECTING -> no_connection a') /\ (ssl_session_cache_ a' = None -> ssl_ctx_ a' = false).
Proof.
  intros [[C1 C2 C3 C4 C5 C6 C7 C8 C9 C10 C11] [O1 O2 O3 O4]] Hst Hs a'.
  assert (pending_data_ a = []) as Hp. { destruct (pending_data_ a); [done|]. rewrite Hst in O2. destruct (O2 ltac:(done)) as [_ [|]]; done. }
  assert (timer_ a = None) as Ht. { destruct (timer_ a); [|done]. rewrite Hst in O4. by specialize (O4 ltac:(by eexists)). }
  assert (core a') as Hc.
  { split; cbn; rewrite ?past_snoc; cbn; try done; [by apply all_lawful_snoc|by destruct Hs as [-> | ->]|].
    rewrite Hp. intros [H|H]; [by destruct Hs; subst|done]. }
  split; [done|]. split; [|split; [|apply O3; auto]]; intros ->; [split; [done|]|]; split; cbn; try done; try by auto.
  - by intros [|].
  - rewrite Ht. by intros [].
  - apply O3. auto.
Qed.

Lemma core_ctx a b : core a -> ssl_ctx_ a = false -> ssl_ a = false ->
  core (if (b : bool) then log_tls (ECtx 1) (set_owned (identity_ a) false b a) else set_owned (identity_ a) false b a).
Proof.
  intros [C1 C2 C3 C4 C5 C6 C7 C8 C9 C10 C11] Hx Hs. destruct b; split; cbn; rewrite ?past_snoc; cbn; try done; rewrite ?Hx, ?Hs in *; try done.
  - by apply all_lawful_snoc.
  - by rewrite C8.
Qed.
Lemma connection_ok a i : core a -> no_connection a -> adapter_ok (log_tls (ESsl 1) (set_owned i true (ssl_ctx_ a) a)).
Proof.
  intros [C1 C2 C3 C4 C5 C6 C7 C8 C9 C10 C11] [N1 N2 N4 N5]. rewrite N2 in C9. rewrite N4 in *.
  split; split; cbn; rewrite ?past_snoc; cbn; rewrite ?N4; try done.
  - by apply all_lawful_snoc.
  - by rewrite C9.
  - rewrite N1. by intros [|].
Qed.

(** A [BeginSSL] that fails has cleaned up. *)
Definition began (q : list (@tls_frame cert op) * Z) (a : adapter) : Prop :=
  adapter_ok a /\ tls_ops q.1 /\ (q.2 <> 0 -> q.1 = [] /\ state_ a = SSL_NONE).
Lemma early_exit_ok a err : core a -> twp (early_exit err) a began.
Proof.
  intros Ha. eapply twp_bind, twp_mono; [by apply Cleanup_end|]. intros _x a' [H1 H2]. apply twp_ret. split_and!; [done|constructor|done].
Qed.

Lemma tls_BeginSSL_ok a s h : core a -> no_connection a -> (ssl_session_cache_ a = None -> ssl_ctx_ a = false) -> twp (tls_BeginSSL Verify handler s h) a began.
Proof.
  intros Ha Hn Hx. unfold tls_BeginSSL. apply twp_bind, twp_get, twp_bind.
  apply (twp_mono _ _ (fun _ a' => core a' /\ no_connection a')).
  { destruct (ssl_session_cache_ a) eqn:Hc; [by apply twp_ret|]. destruct Hn as [N1 N2 N4 N5]. apply twp_bind, twp_modify.
    set (b := bool_decide _). pose proof (core_ctx a b Ha (Hx eq_refl) N2) as Hy. rewrite N2. destruct b; [apply twp_modify|apply twp_ret]; by split; [|split]. }
  clear Ha Hn Hx a. intros _x a [Ha Hn]. apply twp_bind, twp_get. destruct (negb (ssl_ctx_ a) || _ || _); [by apply early_exit_ok|].
  apply twp_bind, twp_modify. destruct (ssl_made s); cbn [negb].
  2: { apply early_exit_ok. destruct Ha, Hn as [N1 N2 N4 N5]. rewrite N2 in *. by split. }
  apply twp_bind, twp_modify. pose proof (connection_ok _ (identity_ a) Ha Hn) as Ha1. set (a1 := log_tls _ _) in *.
  destruct (_ && _); [by apply early_exit_ok, Ha1|]. apply twp_bind, twp_modify.
  eapply twp_bind, twp_mono; [apply tls_ContinueSSL_ok; [|by apply Hn]|].
  { apply tls_ok_log; [done|by apply quiet_lawful..]. }
  intros q a2 (H1 & H2 & H3). destruct (Z.eqb_spec q.2 0) as [Hq|Hq]; cbn [negb]; [by apply twp_ret|]. by apply early_exit_ok, H1.
Qed.

(** The state of a failed handshake is that of an error. *)
Lemma fail_ok a err signal : adapter_ok a -> timer_ a = None -> twp (tls_Error handler err signal) a stays.
Proof. intros Ha Ht. apply tls_Error_ok; [apply Ha| |done]. intros Hp. by apply (o_pending _ (ok_objects _ Ha)). Qed.
Lemma idle_timer a : adapter_ok a -> state_ a <> SSL_CONNECTING -> timer_ a = None.
Proof. intros Ha Hst. destruct (timer_ a) eqn:E; [|done]. destruct Hst. apply (o_timer _ (ok_objects _ Ha)). by rewrite E. Qed.

Lemma tls_StartSSL_ok a host socket s h : adapter_ok a -> twp (tls_StartSSL Verify handler host socket s h) a (fun q => stays q.1).
Proof.
  intros Ha. unfold tls_StartSSL. apply twp_bind, twp_get. destruct (decide _) as [Hst|]; [|by apply twp_ret; split; [|constructor]].
  apply twp_bind, twp_modify, twp_bind, twp_modify.
  destruct (start_ok a host SSL_WAIT Ha Hst (or_introl eq_refl)) as (_ & Hwait & _ & _).
  destruct (start_ok a host SSL_CONNECTING Ha Hst (or_intror eq_refl)) as (Hc & _ & Hn & Hx).
  destruct socket; [by apply twp_bind, twp_modify, twp_ret; split; [apply Hwait|constructor]..|].
  apply twp_bind, twp_modify. eapply twp_bind, twp_mono; [apply tls_BeginSSL_ok; [done|by apply Hn|done]|].
  intros [fs e] a' (H1 & H2 & H3). cbn [fst snd] in *. destruct (Z.eqb_spec e 0) as [|He]; cbn [negb]; [by apply twp_ret; split; [|apply tls_ops_ok]|].
  destruct (H3 He) as [-> Hs]. eapply twp_bind, twp_mono; [apply fail_ok; [done|]|].
  - apply idle_timer; [done|]. by rewrite Hs.
  - intros fs' a2 [H4 H5]. by apply twp_ret.
Qed.

(** ** Reading and writing *)

Context (Hmax : Z.of_nat max_send <= INT_MAX).

(** What a [SSL_write] that did not succeed leaves. *)
Definition unwritten (a a' : adapter) : Prop :=
  adapter_ok a' /\ pending_data_ a' = pending_data_ a /\ past (tls_events a') = past (tls_events a) /\ ssl_ a' = ssl_ a /\
  (state_ a' = state_ a \/ state_ a' = SSL_ERROR).

Lemma DoSslWrite_ok a data w : adapter_ok a -> ssl_ a = true -> state_ a <> SSL_CONNECTING -> (length data <= max_send)%nat ->
  twp (DoSslWrite fragment handler data w) a (fun r a' =>
    if w.1 =? SSL_ERROR_NONE then
      r = (Z.of_nat (length (take fragment data)), w.1) /\
      a' = log_tls (EWritten (take fragment data)) (set_needs (ssl_read_needs_write_ a) false a)
    else r = (-1, w.1) /\ unwritten a a').
Proof.
  intros Ha Hs Hst Hlen. unfold DoSslWrite. apply twp_bind, twp_get, twp_bind, twp_modify, twp_bind. unfold checked_int.
  rewrite (proj2 (Z.leb_le _ _)) by lia. apply twp_ret, twp_bind, use_ssl_ok; [done|].
  apply (tls_ok_needs (ssl_read_needs_write_ a) false) in Ha as Ha'. set (a1 := set_needs _ _ a) in *.
  destruct (w.1 =? SSL_ERROR_NONE); [by apply twp_bind, twp_modify, twp_ret|].
  apply twp_bind, (twp_mono _ _ (fun _ a' => unwritten a a')); [|by intros _x a' H; apply twp_ret].
  destruct (w.1 =? SSL_ERROR_WANT_READ).
  { apply twp_bind, twp_modify, twp_modify. split; [by apply tls_ok_error, tls_ok_needs|]. split_and!; [done..|by left]. }
  destruct (_ || _); [apply twp_modify; split; [by apply tls_ok_error|split_and!; [done..|by left]]|].
  unfold tls_Error. apply twp_bind, twp_bind, twp_modify, twp_bind, twp_modify, twp_ret, twp_ret.
  split; [|by split_and!; [done..|right]]. apply tls_ok_error, error_ok; [apply Ha'|by intros _|]. by apply idle_timer.
Qed.

Lemma log_written a d p : core a -> h_open (past (tls_events a)) = true -> (length p <= max_send)%nat ->
  ((max_send <= fragment)%nat -> pending_data_ a = d ++ p) -> core (log_tls (EWritten d) (set_pending p a)).
Proof.
  intros [C1 C2 C3 C4 C5 C6 C7 C8 C9 C10 C11] Ho Hp Hd. split; cbn; rewrite ?past_snoc; cbn; try done.
  - by apply all_lawful_snoc.
  - intros Hm. by rewrite <- app_assoc, <- Hd, C11.
Qed.
Lemma set_pending_same (a : adapter) : set_pending (pending_data_ a) a = a.
Proof. by destruct a. Qed.
Lemma log_needs e p r w (a : adapter) : set_pending p (log_tls e (set_needs r w a)) = set_needs r w (log_tls e (set_pending p a)).
Proof. done. Qed.

(** The pending data: all of it is taken, or nothing changes that matters. *)
Lemma write_pending a w : adapter_ok a -> pending_data_ a <> [] ->
  twp (DoSslWrite fragment handler (pending_data_ a) w) a (fun r a' =>
    (r.1 = Z.of_nat (length (pending_data_ a)) /\ adapter_ok (set_pending [] a') /\ state_ a' = state_ a) \/
    (r.1 <> Z.of_nat (length (pending_data_ a)) /\ adapter_ok a')).
Proof.
  intros Ha Hne. destruct (o_pending _ (ok_objects _ Ha) Hne) as [Hs Hst]. pose proof (c_size _ (ok_core _ Ha)) as Hlen.
  assert (h_open (past (tls_events a)) = true) as Ho by (apply (c_open _ (ok_core _ Ha)); by right).
  eapply twp_mono; [apply DoSslWrite_ok; [done|done|by destruct Hst as [-> | ->]|done]|]. intros r a'.
  destruct (w.1 =? SSL_ERROR_NONE); [|intros [-> Hu]; right; split; [cbn; lia|apply Hu]].
  intros [-> ->]. cbn [fst]. pose proof (length_take (pending_data_ a) fragment) as Ht.
  destruct (decide (length (pending_data_ a) <= fragment)%nat) as [Hf|Hf].
  - rewrite take_ge by lia. left. split; [done|]. split; [|done]. rewrite log_needs. apply tls_ok_needs.
    split; [apply log_written; [apply Ha|done|cbn; lia|by rewrite app_nil_r]|]. destruct Ha as [_ []]. by split.
  - right. split; [lia|]. apply (tls_ok_needs (ssl_read_needs_write_ a) false) in Ha as Ha'.
    split; [|by apply objects_log_tls, Ha']. rewrite <- (set_pending_same (set_needs _ _ a)) at 1.
    apply log_written; [apply Ha'|done|done|]. cbn. lia.
Qed.

Lemma log_sent a d p : core a -> pending_data_ a = [] -> h_open (past (tls_events a)) = true -> (length p <= max_send)%nat ->
  core (log_tls (ESent (d ++ p)) (set_pending p (log_tls (EWritten d) a))).
Proof.
  intros [C1 C2 C3 C4 C5 C6 C7 C8 C9 C10 C11] Hn Ho Hp. split; cbn; rewrite ?past_snoc; cbn; try done.
  - apply all_lawful_snoc; [by apply all_lawful_snoc|]. by rewrite past_snoc.
  - intros Hm. by rewrite C11, Hn, app_nil_r, app_assoc.
Qed.
Lemma log_kept a p : core a -> pending_data_ a = [] -> h_open (past (tls_events a)) = true -> (length p <= max_send)%nat ->
  core (log_tls (ESent p) (set_pending p a)).
Proof.
  intros [C1 C2 C3 C4 C5 C6 C7 C8 C9 C10 C11] Hn Ho Hp. split; cbn; rewrite ?past_snoc; cbn; try done.
  - by apply all_lawful_snoc.
  - intros Hm. by rewrite C11, Hn, app_nil_r.
Qed.

Lemma send_data_ok a data w : adapter_ok a -> pending_data_ a = [] -> state_ a = SSL_CONNECTED -> (length data <= max_send)%nat ->
  twp (send_data fragment handler data w) a (fun _ => adapter_ok).
Proof.
  intros Ha Hp Hst Hlen. unfold send_data. destruct data as [|x data]; [by apply twp_ret|]. remember (x :: data) as d eqn:Hd. clear Hd.
  assert (ssl_ a = true) as Hs by (apply (o_ssl _ (ok_objects _ Ha)); by right).
  assert (h_open (past (tls_events a)) = true) as Ho by (apply (c_open _ (ok_core _ Ha)); by left).
  eapply twp_bind, twp_mono; [apply (DoSslWrite_ok a d w); [done|done|by rewrite Hst|done]|]. intros r a'.
  destruct (Z.eqb_spec w.1 SSL_ERROR_NONE) as [He|He].
  - intros [-> ->]. cbn [fst snd]. rewrite He. change (SSL_ERROR_NONE =? SSL_ERROR_WANT_READ) with false. change (SSL_ERROR_NONE =? SSL_ERROR_WANT_WRITE) with false. cbn [orb].
    rewrite (proj2 (Z.leb_le _ _)) by lia. apply twp_bind, twp_modify, twp_ret. rewrite Nat2Z.id.
    assert (take (length (take fragment d)) d = take fragment d ++ []) as ->.
    { rewrite app_nil_r, length_take. destruct (Nat.le_ge_cases fragment (length d)); [by rewrite Nat.min_l by lia|]. rewrite Nat.min_r by lia. by rewrite !take_ge by lia. }
    apply (tls_ok_needs (ssl_read_needs_write_ a) false) in Ha. set (a1 := set_needs _ _ a) in *.
    split; [|by apply objects_log_tls, objects_log_tls, Ha].
    replace (log_tls (EWritten (take fragment d)) a1) with (set_pending [] (log_tls (EWritten (take fragment d)) a1)).
    + apply log_sent; [apply Ha|done|done|cbn; lia].
    + rewrite <- (set_pending_same (log_tls _ a1)) at 2. by cbn [pending_data_ log_tls set_needs a1]; rewrite Hp.
  - intros [-> (H1 & H2 & H3 & H4 & H5)]. cbn [fst snd]. destruct (_ || _).
    + apply twp_bind, twp_modify, twp_bind, twp_modify, twp_ret. split; [apply log_kept; [apply H1|congruence|congruence|done]|].
      apply objects_log_tls. destruct H1 as [_ [O1 O2 O3 O4]]. split; try done. cbn. intros _. split; [congruence|].
      rewrite Hst in H5. by destruct H5; auto.
    + apply twp_bind, twp_ret, twp_ret, H1.
Qed.

Lemma tls_clear_ok a {A} (x : A) : adapter_ok a -> state_ a = SSL_NONE -> twp (mbind (fun _ => mret x) (log_t EClear)) a (fun _ => adapter_ok).
Proof. intros Ha Hst. apply twp_bind, twp_modify, twp_ret, tls_ok_log; [done|done|]. by apply (c_none _ (ok_core _ Ha)). Qed.
Lemma refuse_ok a e (x : Z) : adapter_ok a -> twp (mbind (fun _ => mret x) (SetError e)) a (fun _ => adapter_ok).
Proof. intros Ha. by apply twp_bind, twp_modify, twp_ret, tls_ok_error. Qed.

Lemma tls_Send_ok a data clear w w' : adapter_ok a -> (length data <= max_send)%nat -> twp (tls_Send fragment handler data clear w w') a (fun _ => adapter_ok).
Proof.
  intros Ha Hlen. unfold tls_Send. apply twp_bind, twp_get. destruct (state_ a) eqn:Hst; [by apply tls_clear_ok|by apply refuse_ok|by apply refuse_ok| |by apply twp_ret].
  destruct (pending_data_ a) as [|x p] eqn:Hp; [by apply send_data_ok|]. rewrite <- Hp.
  eapply twp_bind, twp_mono; [apply write_pending; [done|by rewrite Hp]|]. intros r a' [(-> & H1 & H2)|[Hne H1]].
  - rewrite Z.eqb_refl. apply twp_bind, twp_modify. by apply send_data_ok; [| |cbn; congruence|].
  - rewrite (proj2 (Z.eqb_neq _ _)) by done. by apply refuse_ok.
Qed.

Lemma tls_Recv_ok a cb clear sessions r : adapter_ok a -> cb <= INT_MAX -> twp (tls_Recv handler cb clear sessions r) a (fun _ => adapter_ok).
Proof.
  intros Ha Hcb. unfold tls_Recv. apply twp_bind, twp_get. destruct (state_ a) eqn:Hst; [by apply tls_clear_ok|by apply refuse_ok|by apply refuse_ok| |by apply twp_ret].
  destruct (cb =? 0); [by apply twp_ret|]. apply twp_bind, twp_modify, twp_bind. unfold checked_int. rewrite (proj2 (Z.leb_le _ _)) by lia. apply twp_ret.
  apply twp_bind, use_ssl_ok; [apply (o_ssl _ (ok_objects _ Ha)); by right|]. apply (tls_ok_needs false (ssl_write_needs_read_ a)) in Ha.
  set (a1 := set_needs _ _ a) in *. eapply twp_bind, twp_mono; [apply new_sessions_ok, Ha|]. intros _x a2 Hk. pose proof (kept_ok _ _ Ha Hk) as Ha2.
  destruct Hk as (_ & _ & Hst2 & _). change (state_ a1) with (state_ a) in Hst2.
  destruct (r.1 =? SSL_ERROR_NONE).
  { apply twp_bind, twp_modify, twp_ret, tls_ok_log; [done|done|]. apply (c_open _ (ok_core _ Ha2)). left. congruence. }
  apply twp_bind, (twp_mono _ _ (fun _ => adapter_ok)); [|by intros _y a3 H; apply twp_ret].
  destruct (r.1 =? SSL_ERROR_WANT_WRITE); [by apply twp_bind, twp_modify, twp_modify, tls_ok_error, tls_ok_needs|].
  destruct (_ || _); [by apply twp_modify, tls_ok_error|]. eapply twp_bind, twp_mono; [apply fail_ok; [done|apply idle_timer; [done|congruence]]|].
  intros fs a3 [H _]. by apply twp_ret.
Qed.

(** ** Events *)

Lemma continue_handshake_ok a h : adapter_ok a -> state_ a = SSL_CONNECTING -> twp (continue_handshake Verify handler h) a stays.
Proof.
  intros Ha Hst. eapply twp_bind, twp_mono; [by apply tls_ContinueSSL_ok|]. intros [fs e] a' (H1 & H2 & H3). cbn [fst snd] in *.
  destruct (Z.eqb_spec e 0) as [|He]; cbn [negb]; [by apply twp_ret; split; [|apply tls_ops_ok]|]. destruct (H3 He) as [_ Ht]. by apply fail_ok.
Qed.
Lemma tls_OnReadEvent_ok a h : adapter_ok a -> twp (tls_OnReadEvent Verify handler h) a stays.
Proof.
  intros Ha. apply twp_bind, twp_get. destruct (state_ a) eqn:Hst; [by apply Signal_stays|by apply twp_ret; split; [|constructor]|by apply continue_handshake_ok| |by apply twp_ret; split; [|constructor]].
  destruct (ssl_write_needs_read_ a); [|by apply Signal_stays]. eapply twp_bind, twp_mono; [by apply Signal_ok|]. intros fs a' (H1 & H2 & _).
  apply after_stays; [done|done|done|by apply Signal_stays].
Qed.
Lemma flush_pending_ok a w : adapter_ok a -> twp (flush_pending fragment handler w) a stays.
Proof.
  intros Ha. apply twp_bind, twp_get, twp_bind, (twp_mono _ _ (fun _ => adapter_ok)); [|by intros _x a' H; apply Signal_stays].
  destruct (pending_data_ a) as [|x p] eqn:Hp; [by apply twp_ret|]. rewrite <- Hp.
  eapply twp_bind, twp_mono; [apply write_pending; [done|by rewrite Hp]|]. intros r a' [(-> & H1 & H2)|[Hne H1]].
  - rewrite Z.eqb_refl. by apply twp_modify.
  - rewrite (proj2 (Z.eqb_neq _ _)) by done. by apply twp_ret.
Qed.
Lemma tls_OnWriteEvent_ok a h w : adapter_ok a -> twp (tls_OnWriteEvent Verify fragment handler h w) a stays.
Proof.
  intros Ha. apply twp_bind, twp_get. destruct (state_ a) eqn:Hst; [by apply Signal_stays|by apply twp_ret; split; [|constructor]|by apply continue_handshake_ok| |by apply twp_ret; split; [|constructor]].
  destruct (ssl_read_needs_write_ a); [|by apply flush_pending_ok]. eapply twp_bind, twp_mono; [by apply Signal_ok|]. intros fs a' (H1 & H2 & _).
  apply after_stays; [done|done|done|by apply flush_pending_ok].
Qed.
Lemma tls_OnConnectEvent_ok a s h : adapter_ok a -> twp (tls_OnConnectEvent Verify handler s h) a stays.
Proof.
  intros Ha. apply twp_bind, twp_get. destruct (decide _) as [Hst|]; [|by apply Signal_stays]. apply twp_bind, twp_modify.
  destruct (connecting_ok _ Ha Hst) as (H1 & H2 & H3). eapply twp_bind, twp_mono; [by apply tls_BeginSSL_ok|]. intros q a' (H4 & H5 & H6).
  destruct (negb _); [by apply Signal_stays|]. apply twp_ret. split; [done|by apply tls_ops_ok].
Qed.
Lemma tls_OnMessage_ok a h : adapter_ok a -> is_Some (timer_ a) -> twp (tls_OnMessage Verify handler h) a stays.
Proof.
  intros Ha Ht. pose proof (o_timer _ (ok_objects _ Ha) Ht) as Hst. apply twp_bind, twp_modify. apply tls_ok_timer_off in Ha.
  apply twp_bind, use_ssl_ok; [apply (o_ssl _ (ok_objects _ Ha)); by left|]. eapply twp_bind, twp_mono; [by apply tls_ContinueSSL_ok|].
  intros q a' (H1 & H2 & _). apply twp_ret. split; [done|by apply tls_ops_ok].
Qed.
End handlers.

(** ** Options *)

Lemma new_tls_ok cache verifier : adapter_ok (new_OpenSSLAdapter cache verifier).
Proof. destruct cache; split; split; cbn; try done; try (by intros [|[]]); try (by intros [|]); lia. Qed.

(** Options other than [ignore_bad_cert_] do not matter. *)
Lemma tls_ok_options o a : adapter_ok a -> ignore_bad_cert_ o = ignore_bad_cert_ (options a) -> adapter_ok (set_options o a).
Proof. intros [[] []] Ho. split; split; try done. cbn. by rewrite Ho. Qed.
Lemma SetIgnoreBadCert_ok a ignore : adapter_ok a -> twp (SetIgnoreBadCert ignore) a (fun _ => adapter_ok).
Proof.
  intros [[C1 C2 C3 C4 C5 C6 C7 C8 C9 C10 C11] [O1 O2 O3 O4]]. apply twp_bind, twp_modify, twp_modify.
  split; split; cbn; rewrite ?past_snoc; cbn; try done. by apply all_lawful_snoc.
Qed.
Lemma SetIdentity_ok a : adapter_ok a -> twp SetIdentity a (fun _ => adapter_ok).
Proof. intros [[] []]. apply twp_modify. by split; split. Qed.

Lemma quiet_op {A} (m : M adapter A) {op} a : twp m a (fun _ => adapter_ok) ->
  twp (mbind (fun _ => mret ([] : list (@tls_frame cert op))) m) a stays.
Proof. intros H. eapply twp_bind, twp_mono; [exact H|]. intros _x a' Ha'. apply twp_ret. by split; [|constructor]. Qed.

Section run.
Context (Hmax : Z.of_nat max_send <= INT_MAX).

Lemma accepted_adapter_ok a ignore socket s h : adapter_ok a -> twp (accepted_adapter Verify ignore socket s h) a (fun _ => adapter_ok).
Proof.
  intros Ha. unfold accepted_adapter. eapply twp_bind, twp_mono; [by apply SetIdentity_ok|]. intros _x a1 H1.
  apply twp_bind, twp_modify. eapply twp_bind, twp_mono; [apply SetIgnoreBadCert_ok; by apply tls_ok_options|]. intros _y a2 H2.
  eapply twp_bind, twp_mono; [by apply tls_StartSSL_ok|]. intros q a3 [H3 _]. by apply twp_ret.
Qed.
(** The adapter of an accepted connection starts with the same guarantees. *)
Lemma tls_Accept_ok a accepted s h : adapter_ok a -> identity_ a = true \/ accepted = None ->
  twp (tls_Accept Verify accepted s h) a (fun r a' => a' = a /\ match r with Some b => adapter_ok b | None => True end).
Proof.
  intros Ha Hi. unfold tls_Accept. destruct accepted as [socket|]; [|by apply twp_ret]. apply twp_bind, twp_get.
  destruct Hi as [->|]; [|done]. destruct (accepted_adapter_ok _ (ignore_bad_cert_ (options a)) socket s h (new_tls_ok None false)) as (x & b & Hb & Hok).
  apply twp_bind. exists (x, b), a. split; [by unfold lift; rewrite Hb|]. by apply twp_ret.
Qed.

(** ** Every run *)

Context (handler : list tls_event -> list (@tls_op cert)).

Lemma do_tls_op_ok a k o : adapter_ok a -> tls_op_ok max_send a k o = true -> twp (do_tls_op Verify fragment handler o) a stays.
Proof.
  intros Ha [_ Ho]%andb_prop. destruct o; cbn [do_tls_op] in *.
  - by apply quiet_op, SetIgnoreBadCert_ok.
  - by apply quiet_op, twp_modify, tls_ok_options.
  - by apply quiet_op, twp_modify, tls_ok_options.
  - by apply quiet_op, twp_modify, tls_ok_options.
  - by apply quiet_op, twp_modify, tls_ok_options.
  - by apply quiet_op, twp_modify, tls_ok_options.
  - by apply quiet_op, SetIdentity_ok.
  - eapply twp_bind, twp_mono; [by apply tls_StartSSL_ok|]. intros q a' H. by apply twp_ret.
  - apply quiet_op, tls_Send_ok; [done|done|by apply Nat.leb_le].
  - apply quiet_op. unfold tls_SendTo. destruct socket, same; try by apply refuse_ok. apply tls_Send_ok; [done|done|by apply Nat.leb_le].
  - apply quiet_op, tls_Recv_ok; [done|by apply Z.leb_le].
  - apply quiet_op. unfold tls_RecvFrom. destruct socket; try by apply refuse_ok. apply tls_Recv_ok; [done|by apply Z.leb_le].
  - apply quiet_op. eapply twp_bind, twp_mono; [apply Cleanup_end, Ha|]. intros _x a' [H1 H2]. apply twp_bind, twp_modify, twp_ret.
    assert (set_state SSL_NONE a' = a') as -> by (rewrite <- H2; by destruct a'). done.
  - apply quiet_op. eapply twp_mono; [apply tls_Accept_ok; [done|]|by intros r a' [-> _]].
    apply orb_prop in Ho as [Ho|Ho%bool_decide_eq_true]; auto.
  - apply andb_prop in Ho as [_ Ho%bool_decide_eq_true]. by apply tls_OnMessage_ok.
  - by apply tls_OnConnectEvent_ok.
  - by apply tls_OnReadEvent_ok.
  - by apply tls_OnWriteEvent_ok.
  - by apply Signal_stays.
  - by apply quiet_op, twp_modify, tls_ok_cache.
  - apply quiet_op. eapply twp_bind, twp_mono; [apply Cleanup_end, Ha|]. intros _x a' [[[] []] _]. apply twp_modify. by split; split.
Qed.

Lemma tls_step_ok a k : adapter_ok a -> Forall tls_frame_ok k ->
  twp (tls_step Verify fragment handler max_send k) a (fun k' a' => adapter_ok a' /\ Forall tls_frame_ok k').
Proof.
  intros Ha Hk. destruct k as [|f k]; [by apply twp_ret|]. apply Forall_cons in Hk as [Hf Hk]. cbn [tls_step].
  apply twp_bind, (twp_mono _ _ stays); [|intros fs a' [H1 H2]; apply twp_ret; split; [done|by apply Forall_app_2]].
  destruct f as [o|e|w]; cbn in Hf.
  - apply twp_bind, twp_get. destruct (tls_op_ok max_send a k o) eqn:Ho; [by eapply do_tls_op_ok|by apply twp_ret; split; [|constructor]].
  - by apply Signal_stays.
  - by apply flush_pending_ok.
Qed.
Lemma tls_run_ok n a k : adapter_ok a -> Forall tls_frame_ok k ->
  twp (tls_run Verify fragment handler max_send n k) a (fun _ a' => adapter_ok a').
Proof.
  revert a k. induction n as [|n IH]; intros a k Ha Hk; [by apply twp_ret|]. cbn [tls_run].
  eapply twp_bind, twp_mono; [by apply tls_step_ok|]. intros k' a' [H1 H2]. by apply IH.
Qed.
Lemma tls_life n cache verifier ops :
  twp (tls_run Verify fragment handler max_send n (map FOp ops)) (new_OpenSSLAdapter cache verifier) (fun _ a => adapter_ok a).
Proof. apply tls_run_ok; [apply new_tls_ok|]. induction ops; by constructor. Qed.
End run.

(** C38: For every client of the adapter that keeps to [tls_op_ok], between and in
    its handlers, and whatever the socket, OpenSSL and the verifier answer, every
    call returns; no null connection is used; clear text passes only before [StartSSL] or
    after a [Cleanup]; data passes through OpenSSL only after a handshake that
    passed the check: for the host named in [StartSSL], with a certificate that
    matches it and that OpenSSL or the verifier accepted, unless the client has
    errors ignored; and the adapter holds a reference to a context, and has a
    connection, exactly when its fields say so.  [tls_op_ok] leaves out (and the
    run skips): the destruction of the adapter, and a message of its thread, in
    a handler that one of its methods has to return to (the method goes on with
    a destroyed object, [method_goes_on]; a TODO in the code says so); [Accept]
    on an adapter without an identity ([accept_without_identity]: a null pointer
    is used); the use of a destroyed adapter; a message that was not posted; and
    lengths above [max_send] for [Send] or that do not fit an int for [Recv]. *)
Theorem checked_before_data handler n cache verifier ops : Z.of_nat max_send <= INT_MAX ->
  twp (tls_run Verify fragment handler max_send n (map FOp ops)) (new_OpenSSLAdapter cache verifier) (fun _ a =>
    all_lawful h_begin (tls_events a) /\ (state_ a = SSL_CONNECTED -> h_open (past (tls_events a)) = true) /\
    h_ctx (past (tls_events a)) = Z.b2z (ssl_ctx_ a) /\ h_ssl (past (tls_events a)) = Z.b2z (ssl_ a)).
Proof.
  intros Hmax. eapply twp_mono; [by apply tls_life|]. intros k a [[C1 C2 C3 C4 C5 C6 C7 C8 C9 C10 C11] _]. split_and!; auto.
Qed.

(** C39: If the client sends no more in one call than one [SSL_write] takes, then
    at any time since the last [Cleanup] the bytes that [Send] said were sent
    are, in order, those that OpenSSL took followed by the pending ones. *)
Theorem sent_in_order handler n cache verifier ops : (max_send <= fragment)%nat -> Z.of_nat max_send <= INT_MAX ->
  twp (tls_run Verify fragment handler max_send n (map FOp ops)) (new_OpenSSLAdapter cache verifier) (fun _ a =>
    h_sent (past (tls_events a)) = h_written (past (tls_events a)) ++ pending_data_ a).
Proof. intros Hf Hmax. eapply twp_mono; [by apply tls_life|]. intros k a [[] _]. auto. Qed.
End adapter.

(** ** Runs *)

(** Certificates are numbers; the verifier accepts the one numbered 66. *)
Definition sim_verify (c : byte) : bool := bool_decide (c = x42).
Definition good_tls : TlsSetup := MkTlsSetup true [Some true; None] true true true true.
Definition passes (peer : option bool) : @TlsHandshake byte := MkTlsHandshake [] [] (0, 1) (1, -1) peer true None.
Definition waits : @TlsHandshake byte := MkTlsHandshake [] [] (2, -1) (1, -1) None true (Some (1, 0)).
Definition tls_sim (fragment : nat) (handler : list (@tls_event byte) -> list (@tls_op byte)) (ops : list (@tls_op byte)) :=
  tls_run sim_verify fragment handler 100 20 (map FOp ops) (new_OpenSSLAdapter None true).

(** A client: it says hello when it is connected. *)
Definition hello : list byte := [x68; x69].
Definition greets (es : list (@tls_event byte)) : list (@tls_op byte) :=
  match last es with Some EConnect => [OSend hello 0 (0, 0) (3, -1)] | _ => [] end.
Definition client : list (@tls_op byte) :=
  [OStartSSL "host" CS_CONNECTING good_tls waits; OConnectEvent good_tls waits;
   OReadEvent (passes (Some true)); OWriteEvent waits (0, 0)].

Example client_run : exists a, tls_sim 100 greets client = Ret ([], a) /\ state_ a = SSL_CONNECTED /\
  tls_events a = [EStart "host"; ECtx 1; ESsl 1; EConfig "host" None [] []; EPassed "host" true true; EConnect; ESent hello; EWritten hello; EWritable].
Proof. vm_compute. eexists. repeat split. Qed.

Lemma checked_before_data_witness : Z.of_nat 100 <= INT_MAX /\
  twp (tls_run sim_verify 100 greets 100 20 (map FOp client)) (new_OpenSSLAdapter None true) (fun _ a =>
    all_lawful sim_verify h_begin (tls_events a) /\ (state_ a = SSL_CONNECTED -> h_open (past sim_verify (tls_events a)) = true) /\
    h_ctx (past sim_verify (tls_events a)) = Z.b2z (ssl_ctx_ a) /\ h_ssl (past sim_verify (tls_events a)) = Z.b2z (ssl_ a)).
Proof. split; [by vm_compute|]. apply (checked_before_data sim_verify 100 100). by vm_compute. Defined.
Lemma sent_in_order_witness : (100 <= 100)%nat /\
  twp (tls_run sim_verify 100 greets 100 20 (map FOp client)) (new_OpenSSLAdapter None true) (fun _ a =>
    h_sent (past sim_verify (tls_events a)) = h_written (past sim_verify (tls_events a)) ++ pending_data_ a).
Proof. split; [done|]. apply (sent_in_order sim_verify 100 100); [done|by vm_compute]. Defined.

(** A check that fails when the socket connects, or in the call of the timer,
    leaves the adapter as if TLS had never been asked for: the next [Send] goes
    out in the clear. *)
Example clear_after_failed_check : exists a,
  tls_sim 100 (fun _ => []) [OStartSSL "host" CS_CONNECTING good_tls waits; OConnectEvent good_tls (passes (Some false)); OSend hello 2 (0, 0) (0, 0)] = Ret ([], a) /\
  state_ a = SSL_NONE /\ tls_events a = [EStart "host"; ECtx 1; ESsl 1; EConfig "host" None [] []; ESsl (-1); ECtx (-1); ECleanup; ECleanup; EClosed (-1); EClear].
Proof. vm_compute. eexists. repeat split. Qed.
Example clear_after_timer : exists a,
  tls_sim 100 (fun _ => []) [OStartSSL "host" CS_CONNECTED good_tls waits; OMessage (passes (Some false)); OSend hello 2 (0, 0) (0, 0)] = Ret ([], a) /\
  tls_events a = [EStart "host"; ECtx 1; ESsl 1; EConfig "host" None [] []; ESsl (-1); ECtx (-1); ECleanup; EClear].
Proof. vm_compute. eexists. repeat split. Qed.

(** A write that fails for good while there is pending data is reported as one
    that would block. *)
Example lost_error : exists a,
  tls_sim 100 greets [OStartSSL "host" CS_CONNECTED good_tls (passes (Some true)); OSend hello 0 (5, -1) (0, 0)] = Ret ([], a) /\
  state_ a = SSL_ERROR /\ socket_error_ a = EWOULDBLOCK.
Proof. vm_compute. eexists. repeat split. Qed.

(** An accepted connection never passes the check, unless errors are ignored:
    [Accept] gives no host. *)
Example accepted_needs_ignore : exists a b,
  tls_Accept sim_verify (Some CS_CONNECTED) good_tls (passes (Some true)) (set_owned true false false (new_OpenSSLAdapter None false)) = Ret (Some a, b) /\ state_ a = SSL_ERROR.
Proof. vm_compute. eexists _, _. repeat split. Qed.

(** What [tls_op_ok] refuses: an [Accept] without an identity; and a handler that
    destroys the adapter while [OnReadEvent] has a second signal to emit. *)
Example accept_without_identity :
  tls_Accept sim_verify (Some CS_CONNECTED) good_tls (passes (Some true)) (new_OpenSSLAdapter None false) = Ub NullDeref.
Proof. vm_compute. reflexivity. Qed.
Example method_goes_on : exists a,
  (_ ← tls_run sim_verify 100 (fun _ => []) 100 20 [FOp (OStartSSL "host" CS_CONNECTED good_tls (passes (Some true)))];
   _ ← modify (set_needs false true);
   tls_OnReadEvent sim_verify (fun _ => [@ODestroy byte]) waits) (new_OpenSSLAdapter None true) = Ret ([FOp ODestroy; FSignal EReadable], a).
Proof. vm_compute. eexists. reflexivity. Qed.

(** A certificate that only the verifier accepts is not shown again when the
    session is resumed. *)
Definition self_signed : @TlsHandshake byte := MkTlsHandshake [(false, x42)] [7%positive] (0, 1) (1, -1) (Some true) false None.
Definition resumed : @TlsHandshake byte := MkTlsHandshake [] [] (0, 1) (1, -1) (Some true) false None.
Definition start_with (h : @TlsHandshake byte) (cache : option OpenSSLSessionCache) : res (list (@tls_frame byte tls_op) * @OpenSSLAdapter byte) :=
  tls_run sim_verify 100 (fun _ => []) 100 5 [FOp (OStartSSL "host" CS_CONNECTED good_tls h)] (new_OpenSSLAdapter cache true).
Example resumption_fails : exists a b,
  start_with self_signed (Some new_OpenSSLSessionCache) = Ret ([], a) /\ state_ a = SSL_CONNECTED /\
  start_with resumed (ssl_session_cache_ a) = Ret ([], b) /\ state_ b = SSL_ERROR /\
  EConfig "host" (Some 7%positive) [] [] ∈ tls_events b.
Proof.
  eexists _, _. split; [by vm_compute|]. split; [done|]. split; [by vm_compute|]. split; [done|]. cbn. set_solver.
Qed.

Section lemmas.
Context {cert : Type} (Verify : cert -> bool) (fragment : nat).
Notation adapter := (@OpenSSLAdapter cert).

(** Pending data longer than one [SSL_write] takes never gets away: every retry
    sends its beginning again. *)
Lemma pending_stuck {op} (handler : list (@tls_event cert) -> list op) (a : adapter) : ssl_ a = true -> (fragment < length (pending_data_ a))%nat ->
  Z.of_nat (length (pending_data_ a)) <= INT_MAX ->
  twp (flush_pending fragment handler (SSL_ERROR_NONE, 0)) a (fun _ a' =>
    pending_data_ a' = pending_data_ a /\ ssl_ a' = true /\ tls_events a' = tls_events a ++ [EWritten (take fragment (pending_data_ a)); EWritable]).
Proof.
  intros Hs Hf Hm. apply twp_bind, twp_get, twp_bind. destruct (pending_data_ a) as [|x p] eqn:Hp; [cbn in Hf; lia|]. rewrite <- Hp in *.
  apply twp_bind. unfold DoSslWrite. apply twp_bind, twp_get, twp_bind, twp_modify, twp_bind. unfold checked_int. rewrite (proj2 (Z.leb_le _ _)) by done.
  apply twp_ret, twp_bind, use_ssl_ok; [done|]. change (SSL_ERROR_NONE =? SSL_ERROR_NONE) with true. cbn [fst]. apply twp_bind, twp_modify, twp_ret. cbn [fst].
  rewrite length_take, Nat.min_l, (proj2 (Z.eqb_neq _ _)) by lia. apply twp_ret, twp_bind, twp_modify, twp_bind, twp_get, twp_ret.
  cbn. by rewrite <- app_assoc.
Qed.

(** An adapter of a factory is used once: after [Cleanup] it has no context. *)
Lemma factory_once {op} (handler : list (@tls_event cert) -> list op) (a : adapter) host s h :
  state_ a = SSL_NONE -> ssl_ctx_ a = false -> is_Some (ssl_session_cache_ a) ->
  twp (tls_StartSSL Verify handler host CS_CONNECTED s h) a (fun q a' => q = ([], -1) /\ state_ a' = SSL_ERROR).
Proof.
  intros Hst Hc [c Hx]. unfold tls_StartSSL. apply twp_bind, twp_get. rewrite Hst. cbn. apply twp_bind, twp_modify, twp_bind, twp_modify, twp_bind, twp_modify.
  unfold tls_BeginSSL, early_exit, Cleanup, give_back, tls_Error.
  apply twp_bind, twp_bind, twp_get. cbn. rewrite Hx. apply twp_bind, twp_ret, twp_bind, twp_get. cbn. rewrite Hc. cbn.
  apply twp_bind, twp_bind, twp_modify, twp_bind, twp_modify, twp_bind, twp_modify, twp_bind, twp_modify, twp_bind, twp_get, twp_bind.
  cbn. rewrite Hc. destruct (ssl_ a); [apply twp_modify|apply twp_ret];
    (apply twp_bind, twp_ret, twp_bind, twp_modify, twp_bind, twp_modify, twp_modify, twp_ret; cbn;
     apply twp_bind, twp_bind, twp_modify, twp_bind, twp_modify, twp_ret, twp_ret; done).
Qed.
End lemmas.

(** ** Protocols of the application layer *)

(** What a reader of the extension makes of it. *)
Fixpoint alpn_read (fuel : nat) (s : list byte) : list (list byte) :=
  match fuel, s with
  | S fuel, n :: s => take (Z.to_nat (b2z n)) s :: alpn_read fuel (drop (Z.to_nat (b2z n)) s)
  | _, _ => []
  end.
Definition proto_ok (p : list byte) : Prop := (0 < length p <= 255)%nat.
Lemma alpn_loop_ok protos acc : Forall proto_ok protos ->
  alpn_loop protos acc = acc ++ concat (map (fun p => z2b (Z.of_nat (length p)) :: p) protos).
Proof.
  intros H. revert acc. induction H as [|p protos [Hp1 Hp2] _ IH]; intros acc; cbn; [by rewrite app_nil_r|].
  destruct (Nat.eqb_spec (length p) 0); [lia|]. destruct (Z.ltb_spec 255 (Z.of_nat (length p))); [lia|]. cbn.
  by rewrite IH, <- app_assoc.
Qed.
(** The protocols can be read back; one that is empty or too long empties it all. *)
Lemma alpn_back protos : Forall proto_ok protos -> alpn_read (length protos) (TransformAlpnProtocols protos) = protos.
Proof.
  intros H. unfold TransformAlpnProtocols. rewrite alpn_loop_ok, app_nil_l by done. induction H as [|p protos [Hp1 Hp2] _ IH]; cbn; [done|].
  rewrite b2z_z2b_small, Nat2Z.id by lia. by rewrite take_app_length, drop_app_length, IH.
Qed.
Lemma alpn_bad protos p : p ∈ protos -> ~ proto_ok p -> TransformAlpnProtocols protos = [].
Proof.
  unfold TransformAlpnProtocols. generalize (@nil byte) at 1. intros acc Hin Hbad. revert acc. induction protos as [|q protos IH]; intros acc; cbn; [by apply elem_of_nil in Hin|].
  destruct (_ || _) eqn:Hq; [done|]. apply orb_false_iff in Hq as [Hq1 Hq2]. apply elem_of_cons in Hin as [-> |Hin]; [|by apply IH].
  apply Nat.eqb_neq in Hq1. apply Z.ltb_ge in Hq2. destruct Hbad. unfold proto_ok. lia.
Qed.

(** ** The cache owns its sessions *)

(** Every reference given to the cache is in it, or was given back once. *)
Definition cache_owns (given : list loc) (c : OpenSSLSessionCache) : Prop := given ≡ₚ (map_to_list (sessions_ c)).*2 ++ freed c.
Lemma AddSession_owns given hostname s c : cache_owns given c -> cache_owns (s :: given) (AddSession hostname s c).
Proof.
  unfold cache_owns, AddSession, LookupSession. cbn. intros H. destruct (sessions_ c !! hostname) as [old|] eqn:Hl; cbn.
  - rewrite <- insert_delete_eq, map_to_list_insert by apply lookup_delete_eq. cbn. rewrite H.
    rewrite <- (insert_delete_id (sessions_ c) hostname old) at 1 by done. rewrite map_to_list_insert by apply lookup_delete_eq. cbn. solve_Permutation.
  - rewrite map_to_list_insert by done. cbn. by rewrite app_nil_r, H.
Qed.
Lemma delete_cache_owns given c : cache_owns given c -> freed (delete_OpenSSLSessionCache c) ≡ₚ given.
Proof. unfold cache_owns. intros ->. cbn. apply Permutation_app_comm. Qed.
