(* ===== verification/EventTracer.v ===== *)
(** * [rtc_base/event_tracer.cc]: events, the thread that writes them, and its sessions

    Any thread may add events; one thread starts and stops sessions; a thread of
    its own writes the events of a session to a file.  A step is what one of
    them does between two accesses to what they share. *)

From stdpp Require Import list gmap pretty.
From S2P Require Import Prelude.
#[local] Open Scope Z_scope.
#[local] Open Scope xrtc_scope.

Definition kTraceArgBufferLength : nat := 32.

(** ** Text *)

(** The byte of a quotation mark, and that of a backslash. *)
Definition quote : byte := x22.
Definition backslash : byte := x5c.
Definition quoted (s : list byte) : list byte := quote :: s ++ [quote].
Definition dec (n : Z) : list byte := string_bytes (pretty n).

(** The [do] loop of [TraceArgValueAsString] from a character of a string on;
    the block ends after the terminator. *)
Fixpoint escape_loop (block : list byte) : res (list byte) :=
  match block with
  | [] => Ub OutOfBounds
  | c :: block =>
      let output := if bool_decide (c = quote) || bool_decide (c = backslash) then [backslash; c] else [c] in
      match block with
      | [] => Ub OutOfBounds
      | d :: _ => if decide (d = x00) then Ret output else rest ← escape_loop block; Ret (output ++ rest)
      end
  end.

(** A value by its type; [C]: how a string that is copied is given. *)
Inductive TraceArgValue (C : Type) :=
  | as_bool (b : bool) | as_uint (n : Z) | as_int (n : Z) | as_double (bits : Z) | as_pointer (n : Z)
  | as_string (s : list byte)           (* a literal, without its terminator *)
  | as_copy (c : C).
Arguments as_bool {C} _. Arguments as_uint {C} _. Arguments as_int {C} _. Arguments as_double {C} _.
Arguments as_pointer {C} _. Arguments as_string {C} _. Arguments as_copy {C} _.

Record TraceEvent (C : Type) := MkEvent {
  e_name : list byte; e_category : list byte; e_phase : byte; e_args : list (list byte * TraceArgValue C);
  e_timestamp : Z; e_pid : Z; e_tid : Z }.
Arguments MkEvent {C} _ _ _ _ _ _ _.
Arguments e_name {C} _. Arguments e_category {C} _. Arguments e_phase {C} _. Arguments e_args {C} _.
Arguments e_timestamp {C} _. Arguments e_pid {C} _. Arguments e_tid {C} _.

Section tracer.
(** What [snprintf] makes of "%f" and "%p". *)
Context (print_double print_pointer : Z -> list byte).

(** The result of [snprintf] in the buffer of 32 characters. *)
Definition in_buffer (text : list byte) : list byte :=
  if (length text <? kTraceArgBufferLength)%nat then text else take (kTraceArgBufferLength - 1) text.

(** [block]: the memory of a copied string. *)
Definition TraceArgValueAsString {C} (block : C -> option (list byte)) (v : TraceArgValue C) : res (list byte) :=
  match v with
  | as_string s => t ← escape_loop (s ++ [x00]); Ret (quoted t)
  | as_copy c =>
      match block c with
      | None => Ub UseAfterFree
      | Some b => t ← escape_loop b; Ret (quoted t)
      end
  | as_bool b => Ret (string_bytes (if b then "true" else "false"))
  | as_uint n => Ret (in_buffer (dec (u64 n)))
  | as_int n => Ret (in_buffer (dec (wrapS 64 n)))
  | as_double bits => Ret (in_buffer (print_double bits))
  | as_pointer n => Ret (in_buffer (quoted (print_pointer n)))
  end.

Definition arg_text (first : bool) (name value : list byte) : list byte :=
  (if first then [] else string_bytes ",") ++ string_bytes " " ++ quoted name ++ string_bytes ": " ++ value.
(** The [fprintf] of an event, without the separator before it. *)
Definition field (name : string) (value : list byte) : list byte := quoted (string_bytes name) ++ string_bytes ": " ++ value.
Definition event_line {C} (e : TraceEvent C) (args_str : list byte) : list byte :=
  string_bytes "{ " ++ field "name" (quoted (e_name e)) ++ string_bytes ", " ++ field "cat" (quoted (e_category e)) ++
  string_bytes ", " ++ field "ph" (quoted [e_phase e]) ++ string_bytes ", " ++ field "ts" (dec (u64 (e_timestamp e))) ++
  string_bytes ", " ++ field "pid" (dec (i32 (e_pid e))) ++ string_bytes ", " ++ field "tid" (dec (i32 (e_tid e))) ++
  args_str ++ string_bytes "}" ++ [x0a].
Definition wrap_args (args : list byte) : list byte :=
  string_bytes ", " ++ quoted (string_bytes "args") ++ string_bytes ": {" ++ args ++ string_bytes " }".
Definition file_begin : list byte := string_bytes "{ " ++ quoted (string_bytes "traceEvents") ++ string_bytes ": [" ++ [x0a].
Definition file_end : list byte := string_bytes "]}" ++ [x0a].
Definition separator (has_logged_event : bool) : list byte := string_bytes (if has_logged_event then "," else " ").

(** ** State *)

Notation stored := (TraceEvent loc).
Notation given := (TraceEvent (list byte)).

(** Where [Log] is: before its first line; in [Wait]; before the swap; printing
    what it took from the queue; at its end. *)
Inductive log_phase :=
  | LogBegin | LogWait (has_logged_event : bool) | LogSwap (has_logged_event shutting_down : bool)
  | LogPrint (events : list stored) (has_logged_event shutting_down : bool) | LogDone.
(** What happened, for the theorems: a session began; an event was queued, with
    the text it stands for at that time; the session was told to stop. *)
Inductive trace_mark := Began | Queued (text : list byte) | Stopping.

Record Tracing := MkTracing {
  hooks : bool;                         (* the pointers of [SetupEventTracer] *)
  g_event_logging_active : bool;
  g_event_logger : bool;                (* not null *)
  trace_events_ : list stored;
  logging_thread_ : option log_phase;
  shutdown_event_ : bool;
  output_file_ : option (list byte);    (* what was written to it *)
  output_file_owned_ : bool;
  blocks : gmap loc (list byte);        (* the copies of strings *)
  leaked : list loc;                    (* those that nothing points to *)
  adders : list given;                  (* threads in [InternalAddTraceEvent] that saw the flag *)
  joining : option bool;                (* [Stop] waits for the thread; whether [ShutdownInternalTracer] goes on *)
  files : list (list byte * bool);      (* those written, and whether they were closed *)
  marks : list trace_mark;
}.
Definition no_tracing : Tracing := MkTracing false false false [] None false None false ∅ [] [] None [] [].

Definition set_hooks (h l : bool) (t : Tracing) : Tracing :=
  MkTracing h (g_event_logging_active t) l (trace_events_ t) (logging_thread_ t) (shutdown_event_ t) (output_file_ t) (output_file_owned_ t) (blocks t) (leaked t) (adders t) (joining t) (files t) (marks t).
Definition set_active (a : bool) (t : Tracing) : Tracing :=
  MkTracing (hooks t) a (g_event_logger t) (trace_events_ t) (logging_thread_ t) (shutdown_event_ t) (output_file_ t) (output_file_owned_ t) (blocks t) (leaked t) (adders t) (joining t) (files t) (marks t).
Definition set_queue (q : list stored) (t : Tracing) : Tracing :=
  MkTracing (hooks t) (g_event_logging_active t) (g_event_logger t) q (logging_thread_ t) (shutdown_event_ t) (output_file_ t) (output_file_owned_ t) (blocks t) (leaked t) (adders t) (joining t) (files t) (marks t).
Definition set_thread (p : option log_phase) (t : Tracing) : Tracing :=
  MkTracing (hooks t) (g_event_logging_active t) (g_event_logger t) (trace_events_ t) p (shutdown_event_ t) (output_file_ t) (output_file_owned_ t) (blocks t) (leaked t) (adders t) (joining t) (files t) (marks t).
Definition set_shutdown (b : bool) (t : Tracing) : Tracing :=
  MkTracing (hooks t) (g_event_logging_active t) (g_event_logger t) (trace_events_ t) (logging_thread_ t) b (output_file_ t) (output_file_owned_ t) (blocks t) (leaked t) (adders t) (joining t) (files t) (marks t).
Definition set_output (f : option (list byte)) (owned : bool) (t : Tracing) : Tracing :=
  MkTracing (hooks t) (g_event_logging_active t) (g_event_logger t) (trace_events_ t) (logging_thread_ t) (shutdown_event_ t) f owned (blocks t) (leaked t) (adders t) (joining t) (files t) (marks t).
Definition set_blocks (m : gmap loc (list byte)) (l : list loc) (t : Tracing) : Tracing :=
  MkTracing (hooks t) (g_event_logging_active t) (g_event_logger t) (trace_events_ t) (logging_thread_ t) (shutdown_event_ t) (output_file_ t) (output_file_owned_ t) m l (adders t) (joining t) (files t) (marks t).
Definition set_adders (l : list given) (t : Tracing) : Tracing :=
  MkTracing (hooks t) (g_event_logging_active t) (g_event_logger t) (trace_events_ t) (logging_thread_ t) (shutdown_event_ t) (output_file_ t) (output_file_owned_ t) (blocks t) (leaked t) l (joining t) (files t) (marks t).
Definition set_joining (j : option bool) (t : Tracing) : Tracing :=
  MkTracing (hooks t) (g_event_logging_active t) (g_event_logger t) (trace_events_ t) (logging_thread_ t) (shutdown_event_ t) (output_file_ t) (output_file_owned_ t) (blocks t) (leaked t) (adders t) j (files t) (marks t).
Definition finish_file (text : list byte) (closed : bool) (t : Tracing) : Tracing :=
  MkTracing (hooks t) (g_event_logging_active t) (g_event_logger t) (trace_events_ t) (logging_thread_ t) (shutdown_event_ t) (output_file_ t) (output_file_owned_ t) (blocks t) (leaked t) (adders t) (joining t) (files t ++ [(text, closed)]) (marks t).
Definition mark (e : trace_mark) (t : Tracing) : Tracing :=
  MkTracing (hooks t) (g_event_logging_active t) (g_event_logger t) (trace_events_ t) (logging_thread_ t) (shutdown_event_ t) (output_file_ t) (output_file_owned_ t) (blocks t) (leaked t) (adders t) (joining t) (files t) (marks t ++ [e]).

(** ** Adding events *)

(** The copies of an event's strings. *)
Definition copies (e : stored) : list loc := omap (fun a => match a.2 with as_copy p => Some p | _ => None end) (e_args e).
Definition new_block (b : list byte) : M Tracing loc :=
  t ← get; let p := fresh (dom (blocks t)) in _ ← modify (set_blocks (<[p := b]> (blocks t)) (leaked t)); mret p.
Definition keep_value (v : TraceArgValue (list byte)) : M Tracing (TraceArgValue loc) :=
  match v with
  | as_bool b => mret (as_bool b) | as_uint n => mret (as_uint n) | as_int n => mret (as_int n)
  | as_double bits => mret (as_double bits) | as_pointer n => mret (as_pointer n) | as_string s => mret (as_string s)
  | as_copy s => p ← new_block (s ++ [x00]); mret (as_copy p)
  end.
Fixpoint keep_args (args : list (list byte * TraceArgValue (list byte))) : M Tracing (list (list byte * TraceArgValue loc)) :=
  match args with
  | [] => mret []
  | (name, v) :: args => v ← keep_value v; rest ← keep_args args; mret ((name, v) :: rest)
  end.

(** What an event stands for when it is queued. *)
Fixpoint args_text {C} (block : C -> option (list byte)) (first : bool) (args : list (list byte * TraceArgValue C)) : res (list byte) :=
  match args with
  | [] => Ret []
  | (name, v) :: args =>
      value ← TraceArgValueAsString block v;
      rest ← args_text block false args;
      Ret (arg_text first name value ++ rest)
  end.
Definition event_text {C} (block : C -> option (list byte)) (e : TraceEvent C) : res (list byte) :=
  match e_args e with
  | [] => Ret (event_line e [])
  | args => t ← args_text block true args; Ret (event_line e (wrap_args t))
  end.
Definition given_text (e : given) : res (list byte) := event_text (fun s => Some (s ++ [x00])) e.
Definition mark_queued (e : given) : M Tracing unit :=
  match given_text e with Ret text => modify (mark (Queued text)) | _ => mret tt end.

(** [EventLogger::AddTraceEvent]. *)
Definition AddTraceEvent (e : given) : M Tracing unit :=
  args ← keep_args (e_args e);
  _ ← modify (fun t => set_queue (trace_events_ t ++ [MkEvent (e_name e) (e_category e) (e_phase e) args (e_timestamp e) (e_pid e) (e_tid e)]) t);
  mark_queued e.

Definition kDisabledTracePrefix : list byte := string_bytes "disabled-by-default-".
(** The loop: whether the prefix is used up when the characters differ or end. *)
Fixpoint prefix_matches (prefix_ptr name_ptr : list byte) : bool :=
  match prefix_ptr, name_ptr with
  | [], _ => true
  | c :: prefix_ptr, d :: name_ptr => if decide (c = d) then prefix_matches prefix_ptr name_ptr else false
  | _ :: _, [] => false
  end.
Definition InternalGetCategoryEnabled (name : list byte) : list byte :=
  if prefix_matches kDisabledTracePrefix name then [] else name.
Definition GetCategoryEnabled (name : list byte) : M Tracing (list byte) :=
  t ← get; mret (if hooks t then InternalGetCategoryEnabled name else []).

(** [InternalAddTraceEvent]: the flag is read, then the pointer. *)
Definition InternalAddTraceEvent_check (e : given) : M Tracing bool := t ← get; mret (hooks t && g_event_logging_active t).
Definition InternalAddTraceEvent_add (e : given) (timestamp : Z) : M Tracing unit :=
  t ← get;
  if g_event_logger t then AddTraceEvent (MkEvent (e_name e) (e_category e) (e_phase e) (e_args e) timestamp 1 (e_tid e))
  else ub_ NullDeref.
(** [TRACE_EVENT_INSTANT0] of the logger itself, in the thread of its caller. *)
Definition trace_instant (name : string) (timestamp tid : Z) : M Tracing unit :=
  category ← GetCategoryEnabled (string_bytes "webrtc");
  let e := MkEvent (string_bytes name) category x49 [] 0 1 tid in
  active ← InternalAddTraceEvent_check e;
  if negb (bool_decide (category = [])) && active then InternalAddTraceEvent_add e timestamp else mret tt.

(** ** The thread that writes *)

Definition free_copy (v : TraceArgValue loc) : M Tracing unit :=
  match v with as_copy p => modify (fun t => set_blocks (delete p (blocks t)) (leaked t) t) | _ => mret tt end.
Fixpoint print_args (is_first_argument : bool) (args : list (list byte * TraceArgValue loc)) : M Tracing (list byte) :=
  match args with
  | [] => mret []
  | (name, v) :: args =>
      t ← get;
      value ← lift (TraceArgValueAsString (fun p => blocks t !! p) v);
      _ ← free_copy v;
      rest ← print_args false args;
      mret (arg_text is_first_argument name value ++ rest)
  end.
Definition print_event (has_logged_event : bool) (e : stored) : M Tracing (list byte) :=
  args_str ← (match e_args e with [] => mret [] | args => s ← print_args true args; mret (wrap_args s) end);
  mret (separator has_logged_event ++ event_line e args_str).
(** [fprintf] to the file. *)
Definition write_file (text : list byte) : M Tracing unit :=
  t ← get;
  match output_file_ t with None => ub_ NullDeref | Some f => modify (set_output (Some (f ++ text)) (output_file_owned_ t)) end.

(** [Log], step by step; the wait ends by the event or by the time. *)
Definition Log_step : M Tracing unit :=
  t ← get;
  match logging_thread_ t with
  | Some LogBegin => _ ← write_file file_begin; modify (set_thread (Some (LogWait false)))
  | Some (LogWait logged) =>
      _ ← modify (set_shutdown false);
      modify (set_thread (Some (LogSwap logged (shutdown_event_ t))))
  | Some (LogSwap logged shutting_down) =>
      _ ← modify (set_queue []);
      modify (set_thread (Some (LogPrint (trace_events_ t) logged shutting_down)))
  | Some (LogPrint (e :: events) logged shutting_down) =>
      text ← print_event logged e;
      _ ← write_file text;
      modify (set_thread (Some (LogPrint events true shutting_down)))
  | Some (LogPrint [] logged false) => modify (set_thread (Some (LogWait logged)))
  | Some (LogPrint [] logged true) =>
      _ ← write_file file_end;
      t ← get;
      _ ← modify (finish_file (default [] (output_file_ t)) (output_file_owned_ t));
      _ ← modify (set_output None (output_file_owned_ t));
      modify (set_thread (Some LogDone))
  | _ => mret tt
  end.

(** ** Sessions *)

(** The queue is dropped: nothing points to the copies any more. *)
Definition drop_queue : M Tracing unit :=
  t ← get;
  _ ← modify (set_blocks (blocks t) (leaked t ++ concat (map copies (trace_events_ t))));
  modify (set_queue []).
Definition Start (owned : bool) (timestamp tid : Z) : M Tracing unit :=
  _ ← modify (set_output (Some []) owned);
  _ ← drop_queue;
  t ← get;
  if g_event_logging_active t then lift Abort
  else
    _ ← modify (set_active true);
    _ ← modify (mark Began);
    _ ← modify (set_thread (Some LogBegin));
    trace_instant "EventLogger::Start" timestamp tid.
(** Whether the logging thread is to be joined. *)
Definition Stop (timestamp tid : Z) : M Tracing bool :=
  _ ← trace_instant "EventLogger::Stop" timestamp tid;
  t ← get;
  if g_event_logging_active t then
    _ ← modify (set_active false);
    _ ← modify (set_shutdown true);
    _ ← modify (mark Stopping);
    mret true
  else mret false.

Definition SetupInternalTracer : M Tracing unit :=
  t ← get; if g_event_logger t then lift Abort else modify (set_hooks true true).
Definition StartInternalCapture (opened owned : bool) (timestamp tid : Z) : M Tracing bool :=
  t ← get;
  if negb (g_event_logger t) then mret false
  else if negb opened then mret false
  else _ ← Start owned timestamp tid; mret true.
Definition StopInternalCapture (timestamp tid : Z) : M Tracing bool :=
  t ← get; if g_event_logger t then Stop timestamp tid else mret false.
(** The part of [ShutdownInternalTracer] after the capture is stopped. *)
Definition delete_logger : M Tracing unit :=
  t ← get;
  _ ← (if g_event_logger t then drop_queue else mret tt);
  _ ← modify (set_thread None);
  modify (set_hooks false false).

Inductive trace_act :=
  | ASetup | AStart (opened owned : bool) (timestamp tid : Z)
  | AStop (timestamp tid : Z) (shutdown : bool)   (* [ShutdownInternalTracer] if [shutdown] *)
  | AJoin | ALog
  | ABegin (e : given) | AAdd (i : nat) (timestamp : Z).

Definition do_trace_act (a : trace_act) : M Tracing unit :=
  match a with
  | ASetup => SetupInternalTracer
  | AStart opened owned timestamp tid => _ ← StartInternalCapture opened owned timestamp tid; mret tt
  | AStop timestamp tid shutdown =>
      join ← StopInternalCapture timestamp tid;
      if (join : bool) then modify (set_joining (Some shutdown))
      else if (shutdown : bool) then delete_logger else mret tt
  | AJoin =>
      t ← get;
      _ ← modify (set_joining None);
      match joining t with Some true => delete_logger | _ => mret tt end
  | ALog => Log_step
  | ABegin e => active ← InternalAddTraceEvent_check e; if (active : bool) then modify (fun t => set_adders (adders t ++ [e]) t) else mret tt
  | AAdd i timestamp =>
      t ← get;
      match adders t !! i with
      | None => mret tt
      | Some e => _ ← modify (set_adders (delete i (adders t))); InternalAddTraceEvent_add e timestamp
      end
  end.

(** What the program must observe: one thread sets up, starts, stops and shuts
    down, and waits while it joins; it starts no session in a session; no thread
    is adding an event when the logger is deleted; strings are not empty. *)
Definition value_ok (v : TraceArgValue (list byte)) : bool :=
  match v with as_string s | as_copy s => negb (bool_decide (s = [])) && negb (bool_decide (x00 ∈ s)) | _ => true end.
Definition trace_act_ok (t : Tracing) (a : trace_act) : bool :=
  match a with
  | ASetup => bool_decide (joining t = None) && negb (g_event_logger t)
  | AStart _ _ _ _ => bool_decide (joining t = None) && negb (g_event_logging_active t)
  | AStop _ _ shutdown => bool_decide (joining t = None) && (negb shutdown || g_event_logging_active t || bool_decide (adders t = []))
  | AJoin =>
      bool_decide (is_Some (joining t)) && match logging_thread_ t with Some LogDone => true | _ => false end &&
      (negb (default false (joining t)) || bool_decide (adders t = []))
  | ABegin e => forallb (fun a => value_ok a.2) (e_args e)
  | ALog | AAdd _ _ => true
  end.
Fixpoint trace_run (acts : list trace_act) : M Tracing unit :=
  match acts with
  | [] => mret tt
  | a :: acts => t ← get; _ ← (if trace_act_ok t a then do_trace_act a else mret tt); trace_run acts
  end.
End tracer.
