(* ===== verification/EventTracerInv.v ===== *)
(** * The file of a session holds its events, once and in order

    The steps of EventTracer.v in any order: what the writing thread has put into
    the file, what it has still to write and what waits in the queue are together
    the events of the session; the copies of strings live until they are written. *)

From stdpp Require Import list gmap pretty.
From S2P Require Import Prelude EventTracer.
#[local] Open Scope Z_scope.
#[local] Open Scope xrtc_scope.

(** ** Text *)

Definition escape_char (c : byte) : list byte := if bool_decide (c = quote) || bool_decide (c = backslash) then [backslash; c] else [c].
Definition escape (s : list byte) : list byte := concat (map escape_char s).
Lemma escape_loop_ok s : s <> [] -> x00 ∉ s -> escape_loop (s ++ [x00]) = Ret (escape s).
Proof.
  induction s as [|c s IH]; [done|]. intros _ Hn. apply not_elem_of_cons in Hn as [_ Hs]. cbn [app escape_loop]. fold (escape_char c).
  destruct s as [|d s]; [cbn; by rewrite app_nil_r|]. cbn [app]. rewrite decide_False; [|intros ->; apply Hs; by left].
  change (d :: s ++ [x00]) with ((d :: s) ++ [x00]). by rewrite IH.
Qed.
(** Of an empty string the loop reads beyond the terminator. *)
Lemma escape_empty : escape_loop ([] ++ [x00]) = Ub OutOfBounds.
Proof. done. Qed.

(** A reader of the text gets the string back. *)
Fixpoint unescape_text (s : list byte) : list byte :=
  match s with
  | c :: ((d :: s) as rest) => if decide (c = backslash) then d :: unescape_text s else c :: unescape_text rest
  | _ => s
  end.
Lemma unescape_char c s : unescape_text (escape_char c ++ s) = c :: unescape_text s.
Proof.
  unfold escape_char. destruct (decide (c = backslash)) as [->|Hb].
  - rewrite orb_comm, bool_decide_eq_true_2 by done. done.
  - rewrite (bool_decide_eq_false_2 (c = backslash)) by done. rewrite orb_false_r. destruct (bool_decide_reflect (c = quote)) as [->|]; [done|].
    destruct s; cbn; [done|]. by rewrite decide_False.
Qed.
Lemma unescape_escape s : unescape_text (escape s) = s.
Proof. induction s as [|c s IH]; [done|]. unfold escape in *. cbn [map concat]. by rewrite unescape_char, IH. Qed.

Section tracer.
Context (print_double print_pointer : Z -> list byte).
Notation stored := (TraceEvent loc).
Notation given := (TraceEvent (list byte)).
Notation args_text := (args_text print_double print_pointer).
Notation event_text := (event_text print_double print_pointer).
Notation given_text := (given_text print_double print_pointer).

Lemma value_text_ok v : value_ok v = true -> exists t, TraceArgValueAsString print_double print_pointer (fun s => Some (s ++ [x00])) v = Ret t.
Proof.
  destruct v; cbn; try by eexists.
  all: intros [H1 H2]%andb_prop; rewrite negb_true_iff, bool_decide_eq_false in H1, H2; rewrite escape_loop_ok by done; by eexists.
Qed.
Definition args_ok (args : list (list byte * TraceArgValue (list byte))) : Prop := forallb (fun a => value_ok a.2) args = true.
Lemma args_text_ok first args : args_ok args -> exists t, args_text (fun s => Some (s ++ [x00])) first args = Ret t.
Proof.
  revert first. induction args as [|[name v] args IH]; intros first; [by eexists|]. intros [Hv Ha]%andb_prop. cbn [snd] in Hv.
  destruct (value_text_ok _ Hv) as [t Ht], (IH false Ha) as [r Hr]. cbn. rewrite Ht. cbn. rewrite Hr. by eexists.
Qed.
Lemma given_text_ok e : args_ok (e_args e) -> exists t, given_text e = Ret t.
Proof.
  intros He. unfold EventTracer.given_text, EventTracer.event_text. destruct (e_args e) as [|a args]; [by eexists|].
  destruct (args_text_ok true _ He) as [t ->]. by eexists.
Qed.

(** The text depends on the copies alone. *)
Definition arg_copies (args : list (list byte * TraceArgValue loc)) : list loc :=
  omap (fun a => match a.2 with as_copy p => Some p | _ => None end) args.
Definition in_blocks (m : gmap loc (list byte)) (p : loc) : option (list byte) := m !! p.
Lemma args_text_ext (m m' : gmap loc (list byte)) first args : (forall p, p ∈ arg_copies args -> m !! p = m' !! p) ->
  args_text (in_blocks m) first args = args_text (in_blocks m') first args.
Proof.
  revert first. induction args as [|[name v] args IH]; intros first Hm; [done|]. cbn.
  assert (TraceArgValueAsString print_double print_pointer (in_blocks m) v = TraceArgValueAsString print_double print_pointer (in_blocks m') v) as ->.
  { destruct v as [| | | | | |c]; try done. unfold TraceArgValueAsString, in_blocks. rewrite Hm; [done|]. cbn. by left. }
  rewrite IH; [done|]. intros p Hp. apply Hm. unfold arg_copies. cbn. destruct v; cbn; try done. by right.
Qed.
Lemma event_text_ext (m m' : gmap loc (list byte)) e : (forall p, p ∈ copies e -> m !! p = m' !! p) ->
  event_text (in_blocks m) e = event_text (in_blocks m') e.
Proof. intros Hm. unfold EventTracer.event_text. destruct (e_args e) as [|a args] eqn:He; [done|]. rewrite (args_text_ext m m'); [done|]. by rewrite <- He. Qed.

(** ** Copies are made and freed *)

(** New blocks [l] were allocated. *)
Definition extends (t t' : Tracing) (l : list loc) : Prop :=
  exists m, t' = set_blocks m (leaked t) t /\ NoDup l /\ (forall p, p ∈ l -> blocks t !! p = None) /\
    (forall p, p ∉ l -> m !! p = blocks t !! p) /\ (forall p, is_Some (m !! p) <-> p ∈ l \/ is_Some (blocks t !! p)).
Lemma set_blocks_same (t : Tracing) : set_blocks (blocks t) (leaked t) t = t.
Proof. by destruct t. Qed.
Lemma extends_nil t : extends t t [].
Proof. exists (blocks t). rewrite set_blocks_same. split_and!; try done; [constructor|by intros p ?%elem_of_nil|]. intros p. rewrite elem_of_nil. tauto. Qed.
Lemma new_block_ok t b : twp (new_block b) t (fun p t' => extends t t' [p] /\ blocks t' !! p = Some b).
Proof.
  apply twp_bind, twp_get, twp_bind, twp_modify, twp_ret. set (p := fresh _). assert (blocks t !! p = None) as Hp by apply not_elem_of_dom, is_fresh.
  split; [|apply lookup_insert_eq]. eexists. split; [done|]. split; [apply NoDup_singleton|]. split_and!.
  - by intros q ->%list_elem_of_singleton.
  - intros q Hq. rewrite lookup_insert_ne; [done|]. intros ->. by apply Hq, list_elem_of_singleton.
  - intros q. rewrite list_elem_of_singleton, lookup_insert_is_Some. split; [intros [?|[_ ?]]; auto|]. intros [->|?]; [by left|].
    destruct (decide (p = q)); auto.
Qed.
Lemma extends_trans t1 t2 t3 l l' : extends t1 t2 l -> extends t2 t3 l' -> extends t1 t3 (l ++ l').
Proof.
  intros (m & -> & H1 & H2 & H3 & H4) (m' & -> & H1' & H2' & H3' & H4'). exists m'. cbn in *. split; [done|]. split_and!.
  - apply NoDup_app. split; [done|]. split; [|done]. intros p Hp Hp'. apply H2' in Hp'. assert (is_Some (m !! p)) as [? Hs] by (apply H4; auto). congruence.
  - intros p [Hp|Hp]%elem_of_app; [auto|]. destruct (blocks t1 !! p) eqn:E; [|done]. apply H2' in Hp. assert (is_Some (m !! p)) as [? Hs] by (apply H4; rewrite E; eauto). congruence.
  - intros p [Hp Hp']%not_elem_of_app. by rewrite H3', H3.
  - intros p. rewrite H4', H4, elem_of_app. tauto.
Qed.

Lemma keep_args_ok args t first s : args_text (fun s => Some (s ++ [x00])) first args = Ret s ->
  twp (keep_args args) t (fun args' t' => extends t t' (arg_copies args') /\
    args_text (in_blocks (blocks t')) first args' = Ret s /\ length args' = length args).
Proof.
  revert t first s. induction args as [|[name v] args IH]; intros t first s Hs; [apply twp_ret; split; [apply extends_nil|done]|].
  cbn in Hs. apply res_bind_ret in Hs as (value & Hv & Hs). apply res_bind_ret in Hs as (rest & Hr & [= <-]).
  cbn [keep_args]. apply twp_bind, (twp_mono _ _ (fun v' t' => exists l, extends t t' l /\ l = arg_copies [(name, v')] /\
    TraceArgValueAsString print_double print_pointer (in_blocks (blocks t')) v' = Ret value)).
  - destruct v as [b|n|n|n|n|str|str]; cbn [keep_value]; try by (apply twp_ret; exists []; split; [apply extends_nil|]).
    eapply twp_bind, twp_mono; [apply new_block_ok|]. intros p t' [H1 H2]. apply twp_ret. exists [p]. split; [done|]. split; [done|].
    cbn in *. unfold in_blocks. by rewrite H2.
  - intros v' t1 (l & H1 & -> & H2). eapply twp_bind, twp_mono; [by eapply IH|]. intros args' t2 (H3 & H4 & H5'). apply twp_ret. split_and!; [| |by cbn; rewrite H5'].
    + change (arg_copies ((name, v') :: args')) with (omap (fun a : list byte * TraceArgValue loc => match a.2 with as_copy p => Some p | _ => None end) ([(name, v')] ++ args')).
      rewrite omap_app. by eapply extends_trans.
    + cbn. destruct H3 as (m & -> & H3 & H5 & H6 & H7). cbn in *.
      assert (TraceArgValueAsString print_double print_pointer (in_blocks m) v' = Ret value) as ->.
      { rewrite <- H2. destruct v' as [| | | | | |c]; try done. unfold TraceArgValueAsString, in_blocks. rewrite H6; [done|].
        intros Hc. apply H5 in Hc. cbn in H2. unfold in_blocks in H2. by rewrite Hc in H2. }
      cbn. by rewrite H4.
Qed.

(** Freeing the copies of an event. *)
Definition without (m : gmap loc (list byte)) (l : list loc) : gmap loc (list byte) := foldr (fun p m => delete p m) m l.
Lemma without_out m l p : p ∉ l -> without m l !! p = m !! p.
Proof. induction l as [|q l IH]; [done|]. intros [Hq Hl]%not_elem_of_cons. cbn. rewrite lookup_delete_ne by done. by apply IH. Qed.
Lemma without_in m l p : p ∈ l -> without m l !! p = None.
Proof.
  induction l as [|q l IH]; [by intros ?%elem_of_nil|]. cbn. intros Hp. destruct (decide (p = q)) as [->|]; [apply lookup_delete_eq|].
  rewrite lookup_delete_ne by done. apply IH. by apply elem_of_cons in Hp as [|].
Qed.
Lemma without_delete m p l : without (delete p m) l = delete p (without m l).
Proof. induction l as [|q l IH]; [done|]. change (delete q (without (delete p m) l) = delete p (delete q (without m l))). by rewrite IH, delete_delete. Qed.

Lemma print_args_ok args t first s : NoDup (arg_copies args) -> args_text (in_blocks (blocks t)) first args = Ret s ->
  print_args print_double print_pointer first args t = Ret (s, set_blocks (without (blocks t) (arg_copies args)) (leaked t) t).
Proof.
  revert t first s. induction args as [|[name v] args IH]; intros t first s Hd Hs; cbn in Hs.
  { injection Hs as <-. cbn. by rewrite set_blocks_same. }
  apply res_bind_ret in Hs as (value & Hv & Hs). apply res_bind_ret in Hs as (rest & Hr & [= <-]).
  cbn [print_args]. rewrite M_bind_get. erewrite M_bind_lift; [|exact Hv]. destruct v as [b|n|n|n|n|str|c];
    try (unfold free_copy; rewrite M_bind_mret; erewrite M_bind_eq; [|by apply IH]; done).
  unfold free_copy. rewrite M_bind_modify. cbn in Hd. apply NoDup_cons in Hd as [Hc Hd]. erewrite M_bind_eq; [|apply IH; [done|]].
  - cbn. by rewrite without_delete.
  - cbn. rewrite <- Hr. apply args_text_ext. intros p Hp. apply lookup_delete_ne. by intros ->.
Qed.
Lemma print_event_ok e t logged s : NoDup (copies e) -> event_text (in_blocks (blocks t)) e = Ret s ->
  print_event print_double print_pointer logged e t = Ret (separator logged ++ s, set_blocks (without (blocks t) (copies e)) (leaked t) t).
Proof.
  intros Hd Hs. unfold print_event, EventTracer.event_text in *. change (copies e) with (arg_copies (e_args e)) in *. destruct (e_args e) as [|a args] eqn:He.
  - injection Hs as <-. rewrite M_bind_mret. cbn. by rewrite set_blocks_same.
  - apply res_bind_ret in Hs as (r & Hr & [= <-]). erewrite M_bind_eq; [|erewrite M_bind_eq; [done|by apply print_args_ok]]. done.
Qed.

(** ** The invariant *)

(** The events of the session, and how many there were when it was told to stop. *)
Definition next_mark (g : list (list byte) * option nat) (m : trace_mark) : list (list byte) * option nat :=
  match m with
  | Began => ([], None)
  | Queued text => (g.1 ++ [text], g.2)
  | Stopping => (g.1, Some (length g.1))
  end.
Definition session (ms : list trace_mark) : list (list byte) * option nat := foldl next_mark ([], None) ms.
Lemma session_snoc ms m : session (ms ++ [m]) = next_mark (session ms) m.
Proof. unfold session. by rewrite foldl_app. Qed.
Lemma stop_le ms c : (session ms).2 = Some c -> (c <= length (session ms).1)%nat.
Proof.
  revert c. induction ms as [|m ms IH] using rev_ind; [done|]. intros c. rewrite session_snoc. destruct m as [|text|]; cbn; [done| |by intros [= <-]].
  intros Hc. apply IH in Hc. rewrite length_app. lia.
Qed.
#[local] Arguments session : simpl never.
#[local] Arguments file_begin : simpl never.
#[local] Arguments file_end : simpl never.
#[local] Arguments separator : simpl never.

Definition trace_lines (lines : list (list byte)) : list byte :=
  match lines with [] => [] | l :: ls => separator false ++ l ++ concat (map (fun l => separator true ++ l) ls) end.
Lemma render_snoc ls l : trace_lines (ls ++ [l]) = trace_lines ls ++ separator (negb (bool_decide (ls = []))) ++ l.
Proof. destruct ls as [|x ls]; cbn [trace_lines app]; [cbn; by rewrite app_nil_r|]. rewrite map_app, concat_app. cbn [map concat]. by rewrite app_nil_r, <- !app_assoc. Qed.

Definition printing (t : Tracing) : list stored := match logging_thread_ t with Some (LogPrint es _ _) => es | _ => [] end.
Definition all_copies (t : Tracing) : list loc := concat (map copies (printing t)) ++ concat (map copies (trace_events_ t)) ++ leaked t.

(** What is in the file, with the lines that are written. *)
Definition so_far (written : list (list byte)) (t : Tracing) (logged : bool) : Prop :=
  logged = negb (bool_decide (written = [])) /\ output_file_ t = Some (file_begin ++ trace_lines written).
Definition thread_at (written : list (list byte)) (t : Tracing) (p : option log_phase) : Prop :=
  match p with
  | None => True
  | Some LogBegin => written = [] /\ output_file_ t = Some []
  | Some (LogWait logged) => so_far written t logged
  | Some (LogSwap logged shutting_down) => so_far written t logged /\ (shutting_down = true -> is_Some (session (marks t)).2)
  | Some (LogPrint es logged shutting_down) => so_far written t logged /\
      (shutting_down = true -> exists c, (session (marks t)).2 = Some c /\ (c <= length written + length es)%nat)
  | Some LogDone => exists c closed, (session (marks t)).2 = Some c /\ (c <= length written)%nat /\
      last (files t) = Some (file_begin ++ trace_lines written ++ file_end, closed)
  end.
Definition running (t : Tracing) : Prop := match logging_thread_ t with None | Some LogDone => False | _ => True end.
Definition stops (p : option log_phase) : bool := match p with None | Some LogDone | Some (LogSwap _ true) | Some (LogPrint _ _ true) => true | _ => false end.
Definition has_text (m : gmap loc (list byte)) (e : stored) (s : list byte) : Prop := event_text (in_blocks m) e = Ret s.

Record control (t : Tracing) : Prop := {
  v_active : g_event_logging_active t = true -> running t /\ joining t = None;
  v_inactive : g_event_logging_active t = false -> joining t = None -> ~ running t;
  v_join : joining t <> None -> is_Some (logging_thread_ t);
  v_shutdown : shutdown_event_ t = true -> stops (logging_thread_ t) = false /\ is_Some (session (marks t)).2;
  v_logger : g_event_logging_active t = true \/ joining t <> None \/ adders t <> [] -> g_event_logger t = true;
  v_stopped : g_event_logging_active t = true -> (session (marks t)).2 = None;
  v_adders : Forall (fun e : given => args_ok (e_args e)) (adders t);
}.
Record file_ok (t : Tracing) : Prop := {
  v_file : exists written waiting, (session (marks t)).1 = written ++ waiting /\
    Forall2 (has_text (blocks t)) (printing t ++ trace_events_ t) waiting /\ thread_at written t (logging_thread_ t);
  v_nodup : NoDup (all_copies t);
  v_blocks p : is_Some (blocks t !! p) <-> p ∈ all_copies t;
}.

(** ** Adding an event *)

Definition same_control (t t' : Tracing) : Prop :=
  logging_thread_ t' = logging_thread_ t /\ g_event_logging_active t' = g_event_logging_active t /\ joining t' = joining t /\
  shutdown_event_ t' = shutdown_event_ t /\ g_event_logger t' = g_event_logger t /\ adders t' = adders t /\
  (session (marks t')).2 = (session (marks t)).2.
Lemma control_same t t' : control t -> same_control t t' -> control t'.
Proof.
  intros [] (E1 & E2 & E3 & E4 & E5 & E6 & E7). unfold running in *. split; unfold running; by rewrite ?E1, ?E2, ?E3, ?E4, ?E5, ?E6, ?E7.
Qed.

Lemma thread_at_same written t t' : logging_thread_ t' = logging_thread_ t -> output_file_ t' = output_file_ t -> files t' = files t ->
  (session (marks t')).2 = (session (marks t)).2 -> thread_at written t (logging_thread_ t) -> thread_at written t' (logging_thread_ t').
Proof. intros -> E1 E2 E3. unfold thread_at, so_far. by rewrite E1, E2, E3. Qed.

Lemma copies_in t e p : e ∈ printing t ++ trace_events_ t -> p ∈ copies e -> p ∈ all_copies t.
Proof.
  intros He Hp. unfold all_copies. rewrite app_assoc, <- concat_app, <- map_app. apply elem_of_app. left. apply list_elem_of_In, in_concat.
  exists (copies e). split; [apply in_map|]; by apply list_elem_of_In.
Qed.
Lemma events_ext (m m' : gmap loc (list byte)) es waiting : (forall e p, e ∈ es -> p ∈ copies e -> m !! p = m' !! p) ->
  Forall2 (has_text m) es waiting -> Forall2 (has_text m') es waiting.
Proof.
  intros Hm Hw. induction Hw as [|e s es ws Hs Hws IH]; constructor.
  - unfold has_text in *. rewrite <- Hs. symmetry. apply event_text_ext. intros p. apply Hm. by left.
  - apply IH. intros e' p He. apply Hm. by right.
Qed.
Lemma texts_ext t m waiting : (forall p, p ∈ all_copies t -> blocks t !! p = m !! p) ->
  Forall2 (has_text (blocks t)) (printing t ++ trace_events_ t) waiting -> Forall2 (has_text m) (printing t ++ trace_events_ t) waiting.
Proof. intros Hm. apply events_ext. intros e p He Hp. apply Hm. by eapply copies_in. Qed.

Lemma AddTraceEvent_ok t e : file_ok t -> args_ok (e_args e) -> twp (AddTraceEvent print_double print_pointer e) t (fun _ t' => file_ok t' /\ same_control t t').
Proof.
  intros [(written & waiting & F1 & F2 & F3) V1 V2] He. destruct (given_text_ok e He) as [s Hs]. unfold AddTraceEvent, mark_queued.
  destruct (args_text_ok true _ He) as [a Hargs].
  eapply twp_bind, twp_mono; [by apply keep_args_ok|]. intros args t1 ((m & -> & H1 & H2 & H3 & H4) & Ht & Hlen). cbn in Ht.
  apply twp_bind, twp_modify. rewrite Hs. apply twp_modify. set (e' := MkEvent _ _ _ args _ _ _). cbn.
  assert (has_text m e' s) as Hnew.
  { unfold has_text. rewrite <- Hs. unfold EventTracer.given_text, EventTracer.event_text. cbn [e_args e'].
    destruct (e_args e) as [|x xs], args as [|y ys]; try done. by rewrite Ht, Hargs. }
  assert (forall p, p ∈ arg_copies args -> p ∉ all_copies t) as Hfresh.
  { intros p Hp Hin. apply V2 in Hin as [b Hb]. apply H2 in Hp. congruence. }
  split; [|split_and!; try done; cbn; by rewrite session_snoc].
  assert (all_copies (mark (Queued s) (set_queue (trace_events_ t ++ [e']) (set_blocks m (leaked t) t))) ≡ₚ arg_copies args ++ all_copies t) as Hall.
  { unfold all_copies, printing. cbn. rewrite map_app, concat_app. cbn. change (copies e') with (arg_copies args). solve_Permutation. }
  split.
  - exists written, (waiting ++ [s]). split; [cbn; rewrite session_snoc; cbn; by rewrite F1, app_assoc|]. split.
    + unfold printing. cbn. fold (printing t). rewrite app_assoc. apply Forall2_app; [|by repeat constructor].
      apply (texts_ext t); [|done]. intros p Hp. symmetry. apply H3. intros Hp'. by apply (Hfresh p).
    + apply (thread_at_same written t); [done..|cbn; by rewrite session_snoc|exact F3].
  - rewrite Hall. apply NoDup_app. split; [done|]. split; [|done]. intros p Hp. by apply Hfresh.
  - intros p. cbn. rewrite H4, Hall, elem_of_app, V2. done.
Qed.

(** ** The thread that writes *)

(** Nothing changes but the thread, its event and its file. *)
Lemma thread_moves t p sh out written waiting :
  file_ok t -> (session (marks t)).1 = written ++ waiting -> Forall2 (has_text (blocks t)) (printing t ++ trace_events_ t) waiting ->
  (match p with LogPrint es _ _ => es | _ => [] end) = printing t ->
  thread_at written (set_thread (Some p) (set_output out (output_file_owned_ t) (set_shutdown sh t))) (Some p) ->
  file_ok (set_thread (Some p) (set_output out (output_file_owned_ t) (set_shutdown sh t))).
Proof.
  intros [_ V1 V2] F1 F2 Hp F3. set (t' := set_thread _ _) in *.
  assert (printing t' = printing t) as Ep by done. assert (all_copies t' = all_copies t) as Ea by (unfold all_copies; by rewrite Ep).
  split; [exists written, waiting; by rewrite Ep|by rewrite Ea|intros q; by rewrite Ea].
Qed.
Lemma set_output_same (t : Tracing) : set_output (output_file_ t) (output_file_owned_ t) (set_shutdown (shutdown_event_ t) t) = t.
Proof. by destruct t. Qed.

(** A running thread goes on. *)
Lemma control_moves t p sh out : control t -> running t -> p <> LogDone -> (sh = true -> shutdown_event_ t = true /\ stops (Some p) = false) ->
  control (set_thread (Some p) (set_output out (output_file_owned_ t) (set_shutdown sh t))).
Proof.
  intros [V1 V2 V3 V4 V5 V6 V7] Hr Hp Hs. assert (running (set_thread (Some p) (set_output out (output_file_owned_ t) (set_shutdown sh t)))) as Hr' by by destruct p.
  split; cbn; try done; try by auto.
  - intros H. split; [done|by apply V1].
  - intros H1 H2. by destruct (V2 H1 H2).
  - intros H. destruct (Hs H) as [H1 H2]. split; [done|by apply V4].
Qed.

Lemma write_file_ok t f text (Q : unit -> Tracing -> Prop) : output_file_ t = Some f ->
  Q tt (set_output (Some (f ++ text)) (output_file_owned_ t) t) -> twp (write_file text) t Q.
Proof. intros Hf HQ. unfold write_file. apply twp_bind, twp_get. rewrite Hf. by apply twp_modify. Qed.

Definition tracing_ok (t : Tracing) : Prop := control t /\ file_ok t.

Lemma print_step t e events logged sd written s waiting :
  tracing_ok t -> logging_thread_ t = Some (LogPrint (e :: events) logged sd) -> (session (marks t)).1 = written ++ s :: waiting ->
  Forall2 (has_text (blocks t)) (printing t ++ trace_events_ t) (s :: waiting) -> thread_at written t (logging_thread_ t) ->
  tracing_ok (set_thread (Some (LogPrint events true sd)) (set_output (Some (file_begin ++ trace_lines (written ++ [s]))) (output_file_owned_ t)
    (set_blocks (without (blocks t) (copies e)) (leaked t) t))).
Proof.
  intros [Hc [_ V1 V2]] Ht F1 F2 F3. set (t' := set_thread _ _). rewrite Ht in F3. destruct F3 as [[F3 F4] F5].
  assert (all_copies t = copies e ++ all_copies t') as Ea by (unfold all_copies, printing; rewrite Ht; cbn; by rewrite <- !app_assoc).
  rewrite Ea in V1. apply NoDup_app in V1 as (V1 & V1' & V1'').
  assert (forall p, p ∈ all_copies t' -> without (blocks t) (copies e) !! p = blocks t !! p) as Hout.
  { intros p Hp. apply without_out. intros Hp'. by apply (V1' p). }
  split.
  - destruct Hc as [W1 W2 W3 W4 W5 W6 W7]. unfold running in *. rewrite Ht in *. by split.
  - split; [|done|].
    + exists (written ++ [s]), waiting. split; [cbn; by rewrite F1, <- app_assoc|]. split.
      * unfold printing in F2. rewrite Ht in F2. apply Forall2_cons in F2 as [_ F2]. change (printing t') with events.
        eapply events_ext; [|exact F2]. intros e' p He Hp. symmetry. apply Hout. by apply (copies_in t' e').
      * cbn. split; [split; [|done]|].
        -- rewrite bool_decide_eq_false_2; [done|]. by destruct written.
        -- intros H. destruct (F5 H) as (c & H1 & H2). exists c. split; [done|]. rewrite length_app. cbn in *. lia.
    + intros p. destruct (decide (p ∈ all_copies t')) as [Hp|Hp].
      * cbn. rewrite Hout by done. rewrite V2, Ea, elem_of_app. tauto.
      * cbn. split; [|done]. intros Hs. destruct (decide (p ∈ copies e)) as [He|He]; [rewrite without_in in Hs by done; by destruct Hs|].
        rewrite without_out in Hs by done. apply V2 in Hs. rewrite Ea, elem_of_app in Hs. tauto.
Qed.

Lemma finish_step t logged written waiting :
  tracing_ok t -> logging_thread_ t = Some (LogPrint [] logged true) -> (session (marks t)).1 = written ++ waiting ->
  Forall2 (has_text (blocks t)) (printing t ++ trace_events_ t) waiting -> thread_at written t (logging_thread_ t) ->
  tracing_ok (set_thread (Some LogDone) (set_output None (output_file_owned_ t)
    (finish_file ((file_begin ++ trace_lines written) ++ file_end) (output_file_owned_ t)
      (set_output (Some ((file_begin ++ trace_lines written) ++ file_end)) (output_file_owned_ t) t)))).
Proof.
  intros [[W1 W2 W3 W4 W5 W6 W7] [_ V1 V2]] Ht F1 F2 F3. rewrite Ht in F3. destruct F3 as [_ F5]. destruct (F5 eq_refl) as (c & H1 & H2).
  unfold all_copies, printing, running in *. rewrite Ht in *. split; split; unfold all_copies, printing, running; cbn; try done.
  - intros Ha. apply W6 in Ha. congruence.
  - by intros _ _ [].
  - exists written, waiting. split; [done|]. split; [done|]. exists c, (output_file_owned_ t). split; [done|]. cbn in H2. split; [lia|]. by rewrite last_snoc, <- app_assoc.
Qed.

Lemma Log_step_ok t : tracing_ok t -> twp (Log_step print_double print_pointer) t (fun _ t' => tracing_ok t').
Proof.
  intros [Hc Hf]. pose proof Hf as [(written & waiting & F1 & F2 & F3) V1 V2]. unfold Log_step. apply twp_bind, twp_get.
  destruct (logging_thread_ t) as [[|logged|logged sd|[|e events] logged sd|]|] eqn:Ht; [| | | | |by apply twp_ret..].
  - destruct F3 as [-> F3]. eapply twp_bind, write_file_ok; [done|]. apply twp_modify.
    change (set_output (Some ([] ++ file_begin)) (output_file_owned_ t) t) with
      (set_output (Some file_begin) (output_file_owned_ t) (set_shutdown (shutdown_event_ t) t)).
    assert (running t) as Hr by (unfold running; by rewrite Ht).
    split; [apply control_moves; try done; intros H; by destruct (v_shutdown _ Hc H)|].
    eapply thread_moves; [done..| |]; [unfold printing; by rewrite Ht|]. done.
  - apply twp_bind, twp_modify, twp_modify. assert (running t) as Hr by (unfold running; by rewrite Ht).
    change (set_shutdown false t) with (set_output (output_file_ t) (output_file_owned_ t) (set_shutdown false t)).
    split; [by apply control_moves|]. eapply thread_moves; [done..| |]; [unfold printing; by rewrite Ht|]. split; [done|].
    intros Hs. cbn. by apply (v_shutdown _ Hc).
  - apply twp_bind, twp_modify, twp_modify. destruct F3 as [F3 F4]. split.
    + destruct Hc as [W1 W2 W3 W4 W5 W6 W7]. unfold running in *. rewrite Ht in *. by split.
    + unfold all_copies, printing in *. rewrite Ht in *. split; unfold all_copies, printing; cbn in *; [|done|done].
      exists written, waiting. split; [done|]. rewrite app_nil_r. split; [done|]. split; [done|]. intros ->. destruct (F4 eq_refl) as [c Hstop].
      exists c. split; [done|]. pose proof (stop_le _ _ Hstop) as Hle. rewrite F1, length_app, <- (Forall2_length _ _ _ F2) in Hle. done.
  - destruct sd.
    + destruct F3 as [[F3 F4] F5]. eapply twp_bind, write_file_ok; [done|]. apply twp_bind, twp_get, twp_bind, twp_modify, twp_bind, twp_modify, twp_modify.
      apply (finish_step t logged written waiting); [done..|]. rewrite Ht. by split.
    + apply twp_modify. assert (running t) as Hr by (unfold running; by rewrite Ht). rewrite <- (set_output_same t).
      destruct F3 as [F3 _]. split; [apply control_moves; try done; intros H; by destruct (v_shutdown _ Hc H)|].
      eapply thread_moves; [done..| |]; [unfold printing; by rewrite Ht|]. done.
  - inversion F2 as [|? s ? ws Hs Hws Eq1 Eq2]; [unfold printing in *; rewrite Ht in *; done|]. subst waiting.
    assert (has_text (blocks t) e s /\ NoDup (copies e)) as [Hes Hnd].
    { unfold printing in *. rewrite Ht in *. cbn in Eq1. injection Eq1 as -> ->. split; [done|]. unfold all_copies, printing in V1. rewrite Ht in V1. cbn in V1.
      rewrite <- !app_assoc in V1. by apply NoDup_app in V1 as [V1 _]. }
    apply twp_bind. eexists _, _. split; [by apply print_event_ok|]. destruct F3 as [[F3 F4] F5].
    eapply twp_bind, write_file_ok; [done|]. apply twp_modify. cbn [output_file_owned_ set_blocks].
    rewrite <- app_assoc, F3, <- render_snoc. apply (print_step t e events logged sd written s ws); [done|done|done|done|]. rewrite Ht. by split; [split|].
Qed.

(** ** Sessions *)

Lemma add_ok t e ts : tracing_ok t -> g_event_logger t = true -> args_ok (e_args e) ->
  twp (InternalAddTraceEvent_add print_double print_pointer e ts) t (fun _ t' => tracing_ok t' /\ same_control t t').
Proof.
  intros [Hc Hf] Hl He. unfold InternalAddTraceEvent_add. apply twp_bind, twp_get. rewrite Hl.
  eapply twp_mono; [by apply AddTraceEvent_ok|]. intros _x t' [H1 H2]. split; [|done]. split; [by eapply control_same|done].
Qed.
Lemma same_control_refl t : same_control t t.
Proof. by split_and!. Qed.
Lemma trace_instant_ok t name ts tid : tracing_ok t ->
  twp (trace_instant print_double print_pointer name ts tid) t (fun _ t' => tracing_ok t' /\ same_control t t').
Proof.
  intros Ht. unfold trace_instant, GetCategoryEnabled, InternalAddTraceEvent_check.
  apply twp_bind, twp_bind, twp_get, twp_ret, twp_bind, twp_bind, twp_get, twp_ret.
  destruct (g_event_logging_active t) eqn:Ha; rewrite ?andb_false_r; [|by apply twp_ret; split; [|apply same_control_refl]].
  destruct (_ && _); [|by apply twp_ret; split; [|apply same_control_refl]]. apply add_ok; [done| |done].
  apply (v_logger _ (proj1 Ht)). by left.
Qed.

(** No thread is running. *)
Definition rests (t : Tracing) : Prop := g_event_logging_active t = false /\ joining t = None.
Lemma rests_thread t : control t -> rests t -> printing t = [] /\ shutdown_event_ t = false.
Proof.
  intros [V1 V2 V3 V4 V5 V6 V7] [H1 H2]. pose proof (V2 H1 H2) as Hr. unfold running, printing in *.
  destruct (logging_thread_ t) as [[]|]; try (by destruct Hr); split; try done; (destruct (shutdown_event_ t); [by destruct (V4 eq_refl)|done]).
Qed.

(** The queue is dropped between two sessions; the thread is then [p]. *)
Lemma dropped_ok t out owned active p ms h l : tracing_ok t -> rests t -> (p = None \/ p = Some LogBegin /\ out = Some [] /\ ms = marks t ++ [Began] /\ active = true) ->
  (p = None -> ms = marks t /\ active = false) -> l = true \/ active = false /\ adders t = [] ->
  tracing_ok (MkTracing h active l [] p (shutdown_event_ t) out owned (blocks t) (leaked t ++ concat (map copies (trace_events_ t))) (adders t) (joining t) (files t) ms).
Proof.
  intros [Hc [(written & waiting & F1 & F2 & F3) V1 V2]] Hr Hp Hn Hl. destruct (rests_thread _ Hc Hr) as [Hprint Hsh]. destruct Hr as [Ha Hj].
  assert (forall t', printing t' = [] -> trace_events_ t' = [] -> leaked t' = leaked t ++ concat (map copies (trace_events_ t)) -> all_copies t' ≡ₚ all_copies t) as Hall.
  { intros t' E1 E2 E3. unfold all_copies. rewrite E1, E2, E3, Hprint. cbn. apply Permutation_app_comm. }
  split.
  - destruct Hc as [W1 W2 W3 W4 W5 W6 W7]. rewrite Hsh, Hj in *.
    destruct Hp as [-> |(-> & -> & -> & ->)].
    + destruct (Hn eq_refl) as [-> ->]. split; unfold running; cbn; try done; [by intros _ _ []|]. intros H. destruct Hl as [|[_ Hl]]; [done|]. rewrite Hl in H. by destruct H as [|[|]].
    + destruct Hl as [-> |[[=] _]]. split; unfold running; cbn; try done. by rewrite session_snoc.
  - set (t' := MkTracing _ _ _ _ _ _ _ _ _ _ _ _ _ _). assert (printing t' = []) as E by by destruct Hp as [-> |(-> & _)]. split.
    + destruct Hp as [-> |(-> & -> & -> & ->)].
      * exists (session ms).1, []. rewrite app_nil_r. split_and!; [done|by rewrite E; constructor|done].
      * exists [], []. rewrite E. cbn. rewrite session_snoc. split_and!; [done|constructor|done|done].
    + by rewrite Hall.
    + intros q. cbn. by rewrite Hall.
Qed.

Lemma Start_ok t owned ts tid : tracing_ok t -> rests t -> g_event_logger t = true -> twp (Start print_double print_pointer owned ts tid) t (fun _ => tracing_ok).
Proof.
  intros Ht Hr Hl. unfold Start, drop_queue. apply twp_bind, twp_modify, twp_bind, twp_bind, twp_get, twp_bind, twp_modify, twp_modify, twp_bind, twp_get.
  cbn [g_event_logging_active set_queue set_blocks set_output]. rewrite (proj1 Hr). do 3 apply twp_bind, twp_modify.
  eapply twp_mono; [apply trace_instant_ok|by intros _x t' [H _]].
  eapply (dropped_ok t (Some []) owned true (Some LogBegin)); [done|done|by right|done|by left].
Qed.
Lemma delete_logger_ok t : tracing_ok t -> rests t -> adders t = [] -> twp delete_logger t (fun _ => tracing_ok).
Proof.
  intros Ht Hr Ha. unfold delete_logger, drop_queue. apply twp_bind, twp_get, twp_bind.
  assert (tracing_ok (MkTracing false (g_event_logging_active t) false [] None (shutdown_event_ t) (output_file_ t) (output_file_owned_ t) (blocks t)
    (leaked t ++ concat (map copies (trace_events_ t))) (adders t) (joining t) (files t) (marks t))) as Hd.
  { rewrite (proj1 Hr). eapply dropped_ok; [done|done|by left|done|by right]. }
  destruct (g_event_logger t) eqn:Hl.
  - apply twp_bind, twp_get, twp_bind, twp_modify, twp_modify, twp_bind, twp_modify, twp_modify. exact Hd.
  - apply twp_ret, twp_bind, twp_modify, twp_modify. destruct Ht as [[W1 W2 W3 W4 W5 W6 W7] [(written & waiting & F1 & F2 & F3) V1 V2]].
    destruct (rests_thread t ltac:(by split) Hr) as [Hp Hsh]. destruct Hr as [Hi Hj].
    split; split; unfold running, all_copies, printing in *; cbn; rewrite ?Hp in *; rewrite ?Hi, ?Hsh, ?Hj, ?Ha in *; try done; try (by intros _ _ []); try by intros [|[|]].
    exists written, waiting. by rewrite F1.
Qed.

(** A session that stops has a thread that has not been told before. *)
Lemma stopping_ok t b : tracing_ok t -> g_event_logging_active t = true ->
  tracing_ok (set_joining (Some b) (mark Stopping (set_shutdown true (set_active false t)))).
Proof.
  intros [[W1 W2 W3 W4 W5 W6 W7] [(written & waiting & F1 & F2 & F3) V1 V2]] Ha. destruct (W1 Ha) as [Hr Hj]. pose proof (W6 Ha) as Hstop.
  assert (stops (logging_thread_ t) = false) as Hs.
  { unfold running in Hr. destruct (logging_thread_ t) as [[| |? []|? ? []|]|]; try done; destruct F3 as [_ F5]; rewrite Hstop in F5.
    - by destruct (F5 eq_refl).
    - by destruct (F5 eq_refl) as (? & [=] & _). }
  assert (g_event_logger t = true) as Hl by (apply W5; by left).
  split; split; unfold running, all_copies, printing in *; cbn; rewrite ?session_snoc; cbn; try done.
  - intros _. destruct (logging_thread_ t); [by eexists|done].
  - exists written, waiting. split; [done|]. split; [done|]. destruct (logging_thread_ t) as [[| |? []|? ? []|]|]; cbn in *; try done; rewrite ?session_snoc; by split; [apply F3|].
Qed.

Lemma do_trace_act_ok t a : tracing_ok t -> trace_act_ok t a = true -> twp (do_trace_act print_double print_pointer a) t (fun _ => tracing_ok).
Proof.
  intros Ht Ho. pose proof Ht as [[W1 W2 W3 W4 W5 W6 W7] Hf]. destruct a as [|opened owned ts tid|ts tid sd| | |e|i ts]; cbn [trace_act_ok do_trace_act] in *.
  - apply andb_prop in Ho as [Hj%bool_decide_eq_true Hl]. apply twp_bind, twp_get. destruct (g_event_logger t); [done|]. apply twp_modify.
    split; [split; try done; by cbn|]. destruct Hf. by split.
  - apply andb_prop in Ho as [Hj%bool_decide_eq_true Ha%negb_true_iff]. apply twp_bind, (twp_mono _ _ (fun _ => tracing_ok)); [|by intros _x t' H; apply twp_ret].
    unfold StartInternalCapture. apply twp_bind, twp_get. destruct (g_event_logger t) eqn:Hl; [|by apply twp_ret]. destruct opened; [|by apply twp_ret].
    eapply twp_bind, twp_mono; [by apply Start_ok|]. intros _x t' H. by apply twp_ret.
  - apply andb_prop in Ho as [Hj%bool_decide_eq_true Ho]. unfold StopInternalCapture, Stop. apply twp_bind, twp_bind, twp_get.
    assert (forall t', tracing_ok t' -> same_control t t' -> g_event_logging_active t' = false ->
      twp (if sd then delete_logger else mret tt) t' (fun _ => tracing_ok)) as Hend.
    { intros t' H1 (_ & E1 & E2 & _ & _ & E3 & _) H3. destruct sd; [|by apply twp_ret]. apply delete_logger_ok; [done|split; [done|congruence]|].
      rewrite E3. rewrite <- E1, H3 in Ho. cbn in Ho. by apply bool_decide_eq_true in Ho. }
    destruct (g_event_logger t) eqn:Hl.
    + eapply twp_bind, twp_mono; [by apply trace_instant_ok|]. intros _x t1 [H1 H2]. apply twp_bind, twp_get.
      destruct (g_event_logging_active t1) eqn:Ha; [|by apply twp_ret, Hend].
      do 3 apply twp_bind, twp_modify. apply twp_ret, twp_modify. by apply stopping_ok.
    + apply twp_ret, Hend; [done|apply same_control_refl|]. destruct (g_event_logging_active t) eqn:Ha; [|done]. specialize (W5 (or_introl eq_refl)). congruence.
  - apply andb_prop in Ho as [[Hj%bool_decide_eq_true Hd]%andb_prop Ho]. destruct Hj as [b Hj]. apply twp_bind, twp_get, twp_bind, twp_modify. rewrite Hj in *. cbn in Ho.
    assert (g_event_logging_active t = false) as Ha by (destruct (g_event_logging_active t); [by destruct (W1 eq_refl)|done]).
    assert (tracing_ok (set_joining None t)) as H1.
    { split; [|destruct Hf; by split]. destruct (logging_thread_ t) as [[]|] eqn:Et; try done. unfold running in *. split; unfold running; cbn; rewrite ?Et in *; try done; try by rewrite Ha.
      - by intros _ _ [].
      - intros [H|[H|H]]; [congruence|done|]. apply W5. auto. }
    destruct b; [|by apply twp_ret]. apply delete_logger_ok; [done|by split|]. by apply bool_decide_eq_true in Ho.
  - by apply Log_step_ok.
  - unfold InternalAddTraceEvent_check. apply twp_bind, twp_bind, twp_get, twp_ret. destruct (_ && _) eqn:Ha; [|by apply twp_ret].
    apply andb_prop in Ha as [_ Ha]. apply twp_modify. split; [|destruct Hf; by split]. split; try done; cbn; [by auto|]. apply Forall_app. split; [done|by apply Forall_singleton].
  - apply twp_bind, twp_get. destruct (adders t !! i) as [e|] eqn:Hi; [|by apply twp_ret]. apply twp_bind, twp_modify.
    assert (g_event_logger t = true) as Hl by (apply W5; right; right; by intros Hn; rewrite Hn in Hi).
    eapply twp_mono; [apply add_ok; [|done|exact (Forall_lookup_1 _ _ _ _ W7 Hi)]|by intros _x t' [H _]].
    split; [|destruct Hf; by split]. split; try done. cbn. by apply Forall_delete.
Qed.

Lemma trace_run_ok t acts : tracing_ok t -> twp (trace_run print_double print_pointer acts) t (fun _ => tracing_ok).
Proof.
  revert t. induction acts as [|a acts IH]; intros t Ht; [by apply twp_ret|]. cbn [trace_run]. apply twp_bind, twp_get, twp_bind.
  apply (twp_mono _ _ (fun _ => tracing_ok)); [|by intros _x t' H; apply IH]. destruct (trace_act_ok t a) eqn:Ho; [by apply do_trace_act_ok|by apply twp_ret].
Qed.
Lemma no_tracing_ok : tracing_ok no_tracing.
Proof. split; split; cbn; try done; try (by intros [|[|]]); try by intros _ _ []. - by exists [], []; split_and!. - constructor. - intros p. rewrite lookup_empty, elem_of_nil. by split; [intros []|]. Qed.

(** C40: Whatever the threads do, in any order, within [trace_act_ok], while one of
    them starts and stops sessions: nothing is read that was freed, and every copy of a string
    is still to be written or one of those that a dropped queue left behind.  The
    file of a running session is a beginning of the trace of its events, in the
    order in which they were queued; that of a session that has ended is a
    complete trace with at least the events queued before it was told to stop.
    [trace_act_ok] leaves out (and the run skips): the deletion of the logger
    while a thread is between its test of the flag and its use of the logger
    ([add_after_shutdown]: the pointer is null or dangling), events with an
    empty string ([empty_string]: it is read past its end), a session that is
    started in a session, a set-up while there is a logger, and calls of the
    controlling thread while it waits for the logging thread. *)
Theorem trace_file acts : twp (trace_run print_double print_pointer acts) no_tracing (fun _ t =>
  (forall p, is_Some (blocks t !! p) <-> p ∈ all_copies t) /\
  (running t -> exists n, output_file_ t = Some [] \/ output_file_ t = Some (file_begin ++ trace_lines (take n (session (marks t)).1))) /\
  (logging_thread_ t = Some LogDone -> exists n c closed, (session (marks t)).2 = Some c /\ (c <= n <= length (session (marks t)).1)%nat /\
    last (files t) = Some (file_begin ++ trace_lines (take n (session (marks t)).1) ++ file_end, closed))).
Proof.
  eapply twp_mono; [apply trace_run_ok, no_tracing_ok|]. intros _x t [_ [(written & waiting & F1 & F2 & F3) V1 V2]]. split; [done|].
  assert (take (length written) (session (marks t)).1 = written) as Ht by by rewrite F1, take_app_length. split.
  - intros Hr. exists (length written). rewrite Ht. unfold running in Hr.
    destruct (logging_thread_ t) as [[| | | |]|]; try done; destruct F3 as [F3 F4]; [by left|by right|by destruct F3; right|by destruct F3; right].
  - intros Hd. rewrite Hd in F3. destruct F3 as (c & closed & H1 & H2 & H3). exists (length written), c, closed. rewrite Ht, F1, length_app. split_and!; [done|lia|lia|done].
Qed.
End tracer.

(** ** Runs *)

Definition sim_double (_ : Z) : list byte := string_bytes "0.500000".
Definition sim_pointer (_ : Z) : list byte := string_bytes "0x1234".
Definition tracing_sim (acts : list trace_act) : res (unit * Tracing) := trace_run sim_double sim_pointer acts no_tracing.
(** An event with a number and a string that is copied. *)
Definition sample (text : list byte) : TraceEvent (list byte) :=
  MkEvent (string_bytes "read") (string_bytes "webrtc") x49 [(string_bytes "n", as_int (-5)); (string_bytes "s", as_copy text)] 0 1 7.
Definition instant (name : string) (ts : Z) : list byte := event_line (MkEvent (C := loc) (string_bytes name) (string_bytes "webrtc") x49 [] ts 1 7) [].

Example one_session : exists t,
  tracing_sim [ASetup; AStart true true 10 7; ABegin (sample [x61; quote]); AAdd 0 20; ALog; ALog; ALog; ALog; ALog;
               AStop 30 7 false; ALog; ALog; ALog; ALog; ALog; ALog; AJoin] = Ret (tt, t) /\
  files t = [(file_begin ++ trace_lines [instant "EventLogger::Start" 10;
      event_line (MkEvent (C := loc) (string_bytes "read") (string_bytes "webrtc") x49 [] 20 1 7)
        (wrap_args (arg_text true (string_bytes "n") (string_bytes "-5") ++ arg_text false (string_bytes "s") [quote; x61; backslash; quote; quote]));
      instant "EventLogger::Stop" 30] ++ file_end, true)] /\
  blocks t = ∅ /\ logging_thread_ t = Some LogDone.
Proof. eexists. split; [vm_compute; reflexivity|]. vm_compute. by repeat split. Qed.

(** An event that is added when its session has ended is not written, and the
    copies of its strings are lost when the next session begins. *)
Example stale_leak : exists t p,
  tracing_sim [ASetup; AStart true true 10 7; ABegin (sample [x61]); AStop 30 7 false; ALog; ALog; ALog; ALog; ALog; ALog; AJoin;
               AAdd 0 40; AStart true true 50 7] = Ret (tt, t) /\
  leaked t = [p] /\ blocks t !! p = Some [x61; x00] /\ length (trace_events_ t) = 1%nat.
Proof. eexists _, _. split; [vm_compute; reflexivity|]. vm_compute. by repeat split. Qed.

(** The loop looks for the terminator only behind the first character. *)
Example empty_string : TraceArgValueAsString sim_double sim_pointer (C := loc) (fun _ => None) (as_string []) = Ub OutOfBounds.
Proof. reflexivity. Qed.

(** A thread that has seen the flag uses the logger after it was deleted. *)
Example add_after_shutdown :
  trace_act_ok (set_adders [sample [x61]] no_tracing) (AStop 0 7 true) = false /\
  do_trace_act sim_double sim_pointer (AAdd 0 40) (set_adders [sample [x61]] no_tracing) = Ub NullDeref.
Proof. by vm_compute. Qed.
