(* ===== verification/Numerics.v ===== *)
(** * [rtc_base/numerics/]: comparisons, conversions and bounds across integer types

    The templates on integer types: a type is its signedness and width, and the
    overload that the compiler selects is computed.  The comparisons and casts of
    the language (promotion, usual arithmetic conversions, wrap-around) are
    modelled; the targets have pointers of 8 bytes.  The results are those of
    mathematical integers. *)

From stdpp Require Import list.
From S2P Require Import Prelude.
#[local] Open Scope Z_scope.
#[local] Open Scope xrtc_scope.

(** ** Integer types *)

Record int_type := IntType { is_signed : bool; sizeof : Z }.
Definition int8_t := IntType true 1.
Definition int16_t := IntType true 2.
Definition int32_t := IntType true 4.
Definition int64_t := IntType true 8.
Definition uint8_t := IntType false 1.
Definition uint16_t := IntType false 2.
Definition uint32_t := IntType false 4.
Definition uint64_t := IntType false 8.
Definition int_types : list int_type := [int8_t; int16_t; int32_t; int64_t; uint8_t; uint16_t; uint32_t; uint64_t].

Definition lowest (t : int_type) : Z := if is_signed t then - 2 ^ (sizeof t * 8 - 1) else 0.
Definition max_of (t : int_type) : Z := if is_signed t then 2 ^ (sizeof t * 8 - 1) - 1 else 2 ^ (sizeof t * 8) - 1.
Definition in_range (t : int_type) (z : Z) : Prop := lowest t <= z <= max_of t.
Definition static_cast (t : int_type) (z : Z) : Z := if is_signed t then wrapS (sizeof t * 8) z else wrapU (sizeof t * 8) z.

(** Integral promotion (unary plus), and the usual arithmetic conversions. *)
Definition promote (t : int_type) : int_type := if sizeof t <? 4 then int32_t else t.
Definition arith_type (t1 t2 : int_type) : int_type :=
  let p1 := promote t1 in let p2 := promote t2 in
  if Bool.eqb (is_signed p1) (is_signed p2) then if sizeof p1 <? sizeof p2 then p2 else p1
  else let u := if is_signed p1 then p2 else p1 in let s := if is_signed p1 then p1 else p2 in
    if sizeof u <? sizeof s then s else u.

Inductive cmp_op := EqOp | NeOp | LtOp | LeOp | GtOp | GeOp.
Definition eval_op (op : cmp_op) (a b : Z) : bool :=
  match op with EqOp => a =? b | NeOp => negb (a =? b) | LtOp => a <? b | LeOp => a <=? b | GtOp => b <? a | GeOp => b <=? a end.
(** [a op b] of the language. *)
Definition Op (op : cmp_op) (t1 : int_type) (a : Z) (t2 : int_type) (b : Z) : bool :=
  eval_op op (static_cast (arith_type t1 t2) a) (static_cast (arith_type t1 t2) b).

(** ** safe_compare.h *)

Definition LargerIntImpl (n : Z) : option int_type :=
  if n =? 1 then Some int16_t else if n =? 2 then Some int32_t else if n =? 4 then Some int64_t else None.
Definition LargerInt (t1 t2 : int_type) : option int_type :=
  LargerIntImpl (if (sizeof t1 <? sizeof t2) || (sizeof t1 <? 8) then sizeof t1 else 0).
Definition make_unsigned (t : int_type) : int_type := IntType false (sizeof t).
Definition MakeUnsigned (t : int_type) (a : Z) : Z := static_cast (make_unsigned t) a.

(** The five overloads. *)
Definition Cmp (op : cmp_op) (t1 : int_type) (a : Z) (t2 : int_type) (b : Z) : bool :=
  if Bool.eqb (is_signed t1) (is_signed t2) then Op op t1 a t2 b
  else if is_signed t1 then
    match LargerInt t2 t1 with
    | Some t => Op op t1 a t (static_cast t b)
    | None => if a <? 0 then Op op int32_t (-1) int32_t 0 else Op op (make_unsigned t1) (MakeUnsigned t1 a) t2 b
    end
  else
    match LargerInt t1 t2 with
    | Some t => Op op t (static_cast t a) t2 b
    | None => if b <? 0 then Op op int32_t 0 int32_t (-1) else Op op t1 a (make_unsigned t2) (MakeUnsigned t2 b)
    end.
Definition Safe (op : cmp_op) (t1 : int_type) (a : Z) (t2 : int_type) (b : Z) : bool :=
  Cmp op (promote t1) (static_cast (promote t1) a) (promote t2) (static_cast (promote t2) b).

(** ** safe_conversions.h, safe_conversions_impl.h *)

Inductive RangeCheckResult := TYPE_VALID | TYPE_UNDERFLOW | TYPE_OVERFLOW | TYPE_INVALID.
Definition RANGE_CHECK_RESULT (is_in_upper_bound is_in_lower_bound : bool) : RangeCheckResult :=
  match is_in_upper_bound, is_in_lower_bound with
  | true, true => TYPE_VALID | true, false => TYPE_UNDERFLOW | false, true => TYPE_OVERFLOW | false, false => TYPE_INVALID
  end.
(** [max_exponent]: the bits of the type but its sign. *)
Definition max_exponent (t : int_type) : Z := if is_signed t then sizeof t * 8 - 1 else sizeof t * 8.
(** Whether the range of [src] is contained in that of [dst]. *)
Definition StaticRangeCheck (dst src : int_type) : bool :=
  match is_signed dst, is_signed src with
  | true, true => max_exponent src <=? max_exponent dst
  | false, false => sizeof src <=? sizeof dst
  | true, false => max_exponent src <=? max_exponent dst
  | false, true => false
  end.
Definition RangeCheck (dst src : int_type) (value : Z) : RangeCheckResult :=
  let le (a b : Z) := Op LeOp src a src b in
  if StaticRangeCheck dst src then TYPE_VALID
  else
    match is_signed dst, is_signed src with
    | true, true => RANGE_CHECK_RESULT (le value (static_cast src (max_of dst))) (le (static_cast src (lowest dst)) value)
    | false, false => RANGE_CHECK_RESULT (le value (static_cast src (max_of dst))) true
    | true, false => if sizeof src <? sizeof dst then TYPE_VALID else RANGE_CHECK_RESULT (le value (static_cast src (max_of dst))) true
    | false, true =>
        if max_exponent src <=? max_exponent dst then RANGE_CHECK_RESULT true (le (static_cast src 0) value)
        else RANGE_CHECK_RESULT (le value (static_cast src (max_of dst))) (le (static_cast src 0) value)
    end.

Definition IsValueInRangeForNumericType (dst src : int_type) (value : Z) : bool :=
  match RangeCheck dst src value with TYPE_VALID => true | _ => false end.
Definition checked_cast (dst src : int_type) (value : Z) : res Z :=
  if IsValueInRangeForNumericType dst src value then Ret (static_cast dst value) else Abort.
Definition saturated_cast (dst src : int_type) (value : Z) : res Z :=
  match RangeCheck dst src value with
  | TYPE_VALID => Ret (static_cast dst value)
  | TYPE_UNDERFLOW => Ret (lowest dst)
  | TYPE_OVERFLOW => Ret (max_of dst)
  | TYPE_INVALID => Abort
  end.

(** ** safe_minmax.h *)

(** The types of the smaller and of the larger of two values. *)
Definition min_t (t1 t2 : int_type) : int_type :=
  if Safe LtOp t1 (lowest t1) t2 (lowest t2) then t1
  else if Safe GtOp t1 (lowest t1) t2 (lowest t2) then t2
  else if Safe LeOp t1 (max_of t1) t2 (max_of t2) then t1 else t2.
Definition max_t (t1 t2 : int_type) : int_type := if Safe GeOp t1 (max_of t1) t2 (max_of t2) then t1 else t2.
(** [TypeOr]: the result type, and its static assertion. *)
Definition TypeOr_type (r : option int_type) (b : int_type) : int_type := default b r.
Definition TypeOr (r : option int_type) (b : int_type) : bool :=
  let t := TypeOr_type r b in Safe LeOp t (lowest t) b (lowest b) && Safe GeOp t (max_of t) b (max_of b).
Definition SafeMin (r : option int_type) (t1 : int_type) (a : Z) (t2 : int_type) (b : Z) : Z :=
  let r2 := TypeOr_type r (min_t t1 t2) in if Safe LtOp t1 a t2 b then static_cast r2 a else static_cast r2 b.
Definition SafeMax (r : option int_type) (t1 : int_type) (a : Z) (t2 : int_type) (b : Z) : Z :=
  let r2 := TypeOr_type r (max_t t1 t2) in if Safe GtOp t1 a t2 b then static_cast r2 a else static_cast r2 b.

(** [ClampType]: the range of the result and the type chosen for it.  The types
    of the bounds themselves are those that [SafeMin] and [SafeMax] give. *)
Definition r_min (t l h : int_type) : int_type * Z :=
  let m := min_t h t in
  (max_t l m, SafeMax None l (lowest l) m (SafeMin None h (lowest h) t (lowest t))).
Definition r_max (t l h : int_type) : int_type * Z :=
  let m := max_t l t in
  (min_t h m, SafeMin None h (max_of h) m (SafeMax None l (max_of l) t (max_of t))).
(** [lo] and [hi] are [r_min] and [r_max]. *)
Definition AcceptableType (t l h : int_type) (lo hi : int_type * Z) (a : int_type) : bool :=
  ((sizeof a <=? sizeof l) || (sizeof a <=? sizeof h) || (sizeof a <=? sizeof t)) &&
  (Safe LeOp a (lowest a) lo.1 lo.2 && Safe LeOp hi.1 hi.2 a (max_of a)).
Definition best_signed_type (acceptable : int_type -> bool) : int_type :=
  if acceptable int8_t then int8_t else if acceptable int16_t then int16_t else if acceptable int32_t then int32_t else int64_t.
Definition best_unsigned_type (acceptable : int_type -> bool) : int_type :=
  if acceptable uint8_t then uint8_t else if acceptable uint16_t then uint16_t else if acceptable uint32_t then uint32_t else uint64_t.
(** The best type, of the signedness of [t] if possible. *)
Definition clamp_type (t : int_type) (acceptable : int_type -> bool) : int_type :=
  let s := best_signed_type acceptable in let u := best_unsigned_type acceptable in
  if is_signed t then if acceptable s then s else u else if acceptable u then u else s.
Definition ClampType (t l h : int_type) : int_type := clamp_type t (AcceptableType t l h (r_min t l h) (r_max t l h)).
(** [RTC_DCHECK_LE(min, max)] is compiled out. *)
Definition SafeClamp (r : option int_type) (t : int_type) (x : Z) (l : int_type) (min : Z) (h : int_type) (max : Z) : Z :=
  let r2 := TypeOr_type r (ClampType t l h) in
  if Safe LeOp t x l min then static_cast r2 min else if Safe GeOp t x h max then static_cast r2 max else static_cast r2 x.

(** ** Proofs *)

Lemma static_cast_id t z : 0 < sizeof t -> in_range t z -> static_cast t z = z.
Proof.
  unfold in_range, lowest, max_of, static_cast. intros Ht. destruct (is_signed t); intros Hz; [apply wrapS_small|apply wrapU_small]; lia.
Qed.

Definition is_type (t : int_type) : Prop := t ∈ int_types.
(** The types that the comparisons are made in. *)
Definition is_promoted (t : int_type) : Prop := t = int32_t \/ t = int64_t \/ t = uint32_t \/ t = uint64_t.
Ltac each_type H := unfold is_type, int_types in H; repeat (apply elem_of_cons in H as [-> | H]); [..|by apply elem_of_nil in H].
(** The limits of concrete types, as numerals. *)
Ltac limits :=
  unfold in_range in *;
  repeat match goal with
  | |- context [lowest ?t] => let r := eval vm_compute in (lowest t) in change (lowest t) with r
  | |- context [max_of ?t] => let r := eval vm_compute in (max_of t) in change (max_of t) with r
  | H : context [lowest ?t] |- _ => let r := eval vm_compute in (lowest t) in change (lowest t) with r in H
  | H : context [max_of ?t] |- _ => let r := eval vm_compute in (max_of t) in change (max_of t) with r in H
  end.

Lemma promote_type t z : is_type t -> is_promoted (promote t) /\ (in_range t z -> in_range (promote t) z).
Proof. unfold is_promoted. intros Ht. each_type Ht; (split; [cbv; tauto|intros; limits; lia]). Qed.
Lemma promoted_type t : is_promoted t -> is_type t.
Proof. unfold is_type, int_types. intros [-> | [-> | [-> | ->]]]; set_solver. Qed.

(** The language compares the values when the common type holds both. *)
Lemma Op_exact op t1 a t2 b : 0 < sizeof (arith_type t1 t2) -> in_range (arith_type t1 t2) a -> in_range (arith_type t1 t2) b ->
  Op op t1 a t2 b = eval_op op a b.
Proof. intros Ht Ha Hb. unfold Op. by rewrite !static_cast_id. Qed.

Ltac overload :=
  unfold Cmp, MakeUnsigned;
  repeat match goal with
  | |- context [LargerInt ?x ?y] => let r := eval vm_compute in (LargerInt x y) in change (LargerInt x y) with r; cbv iota beta
  | |- context [Bool.eqb (is_signed ?x) (is_signed ?y)] =>
      let r := eval vm_compute in (Bool.eqb (is_signed x) (is_signed y)) in change (Bool.eqb (is_signed x) (is_signed y)) with r; cbv iota beta
  | |- context [if is_signed ?x then _ else _] => let r := eval vm_compute in (is_signed x) in change (is_signed x) with r; cbv iota beta
  end.
Ltac by_limits := first [reflexivity|limits; lia].
Lemma Cmp_exact op t1 a t2 b : is_promoted t1 -> is_promoted t2 -> in_range t1 a -> in_range t2 b -> Cmp op t1 a t2 b = eval_op op a b.
Proof.
  intros H1 H2 Ha Hb. destruct H1 as [-> | [-> | [-> | ->]]], H2 as [-> | [-> | [-> | ->]]]; overload;
    try (match goal with |- context [if ?x <? 0 then _ else _] => destruct (Z.ltb_spec x 0) end);
    try (rewrite static_cast_id; [|by_limits|by_limits]); try (rewrite Op_exact; [reflexivity|by_limits|by_limits|by_limits]);
    rewrite Op_exact by by_limits; limits; destruct op; cbn [eval_op]; lia.
Qed.

(** The comparisons of any two of the types are those of the integers. *)
Lemma safe_exact op t1 a t2 b : is_type t1 -> is_type t2 -> in_range t1 a -> in_range t2 b -> Safe op t1 a t2 b = eval_op op a b.
Proof.
  intros H1 H2 Ha Hb. destruct (promote_type t1 a H1) as [P1 R1], (promote_type t2 b H2) as [P2 R2].
  assert (Hs : forall t, is_promoted t -> 0 < sizeof t) by (by intros t [-> | [-> | [-> | ->]]]).
  unfold Safe. rewrite !static_cast_id by auto. by apply Cmp_exact; auto.
Qed.

(** *** Conversions *)

Lemma range_check_exact dst src v : is_type dst -> is_type src -> in_range src v ->
  RangeCheck dst src v = if v <? lowest dst then TYPE_UNDERFLOW else if max_of dst <? v then TYPE_OVERFLOW else TYPE_VALID.
Proof.
  intros H1 H2 Hv. each_type H1; each_type H2; unfold RangeCheck;
    cbn [is_signed sizeof int8_t int16_t int32_t int64_t uint8_t uint16_t uint32_t uint64_t];
    repeat match goal with
    | |- context [StaticRangeCheck ?x ?y] => let r := eval vm_compute in (StaticRangeCheck x y) in change (StaticRangeCheck x y) with r; cbv iota
    | |- context [max_exponent ?x <=? max_exponent ?y] =>
        let r := eval vm_compute in (max_exponent x <=? max_exponent y) in change (max_exponent x <=? max_exponent y) with r; cbv iota
    | |- context [if ?x <? ?y then TYPE_VALID else RANGE_CHECK_RESULT _ _] => let r := eval vm_compute in (x <? y) in change (x <? y) with r; cbv iota
    end;
    repeat match goal with |- context [static_cast ?t ?z] => let r := eval vm_compute in (static_cast t z) in change (static_cast t z) with r end;
    rewrite ?Op_exact by by_limits; limits; cbn [eval_op];
    repeat match goal with
    | |- context [?x <? ?y] => destruct (Z.ltb_spec x y)
    | |- context [?x <=? ?y] => destruct (Z.leb_spec x y)
    end; try reflexivity; lia.
Qed.

(** A [checked_cast] keeps the value or ends the program; a [saturated_cast] clamps it. *)
Lemma checked_cast_exact dst src v : is_type dst -> is_type src -> in_range src v ->
  checked_cast dst src v = if decide (in_range dst v) then Ret v else Abort.
Proof.
  intros H1 H2 Hv. assert (Hs : 0 < sizeof dst) by (each_type H1; done).
  assert (Hl : lowest dst <= max_of dst) by (each_type H1; by_limits).
  unfold checked_cast, IsValueInRangeForNumericType. rewrite range_check_exact by done. unfold in_range.
  destruct (Z.ltb_spec v (lowest dst)), (Z.ltb_spec (max_of dst) v), (decide _); try lia; try done. by rewrite static_cast_id.
Qed.
Lemma saturated_cast_exact dst src v : is_type dst -> is_type src -> in_range src v ->
  saturated_cast dst src v = Ret (Z.max (lowest dst) (Z.min v (max_of dst))).
Proof.
  intros H1 H2 Hv. assert (Hs : 0 < sizeof dst) by (each_type H1; done).
  assert (Hl : lowest dst <= max_of dst) by (each_type H1; by_limits).
  unfold saturated_cast. rewrite range_check_exact by done.
  destruct (Z.ltb_spec v (lowest dst)), (Z.ltb_spec (max_of dst) v); try (f_equal; lia).
  rewrite static_cast_id by (done || (unfold in_range; lia)). f_equal. lia.
Qed.

(** *** Bounds *)

Lemma is_type_size t : is_type t -> 0 < sizeof t /\ in_range t (lowest t) /\ in_range t (max_of t).
Proof. intros H. each_type H; (split; [done|limits; lia]). Qed.
(** A result type that the static assertion allows holds what the default type holds. *)
Lemma type_or_holds r b z : (forall t, r = Some t -> is_type t) -> is_type b -> TypeOr r b = true -> in_range b z ->
  static_cast (TypeOr_type r b) z = z.
Proof.
  intros Hr Hb Ht Hz. assert (Hy : is_type (TypeOr_type r b)) by (destruct r; [by apply Hr|done]).
  destruct (is_type_size _ Hy) as (Hs & Hl & Hm), (is_type_size _ Hb) as (_ & Hl' & Hm').
  apply andb_true_iff in Ht as [T1 T2]. rewrite safe_exact in T1, T2 by done. cbn [eval_op] in T1, T2.
  apply static_cast_id; [done|]. unfold in_range in *. lia.
Qed.
Lemma type_or_none b : is_type b -> TypeOr None b = true.
Proof. intros H. destruct (is_type_size _ H) as (_ & ? & ?). unfold TypeOr. rewrite !safe_exact by done. cbn. rewrite !Z.leb_refl. done. Qed.

Lemma min_t_holds t1 t2 : is_type t1 -> is_type t2 ->
  is_type (min_t t1 t2) /\ lowest (min_t t1 t2) = Z.min (lowest t1) (lowest t2) /\ Z.min (max_of t1) (max_of t2) <= max_of (min_t t1 t2).
Proof.
  intros H1 H2. assert (Hi : min_t t1 t2 = t1 \/ min_t t1 t2 = t2) by (unfold min_t; repeat case_match; auto).
  split; [by destruct Hi as [-> | ->]|]. clear Hi. each_type H1; each_type H2; limits; lia.
Qed.
Lemma max_t_holds t1 t2 : is_type t1 -> is_type t2 ->
  is_type (max_t t1 t2) /\ max_of (max_t t1 t2) = Z.max (max_of t1) (max_of t2) /\ lowest (max_t t1 t2) <= Z.max (lowest t1) (lowest t2).
Proof.
  intros H1 H2. assert (Hi : max_t t1 t2 = t1 \/ max_t t1 t2 = t2) by (unfold max_t; case_match; auto).
  split; [by destruct Hi as [-> | ->]|]. clear Hi. each_type H1; each_type H2; limits; lia.
Qed.

Section bounds.
Context (r : option int_type) (Hr : forall t, r = Some t -> is_type t).

Lemma SafeMin_exact t1 a t2 b : is_type t1 -> is_type t2 -> in_range t1 a -> in_range t2 b -> TypeOr r (min_t t1 t2) = true ->
  SafeMin r t1 a t2 b = Z.min a b.
Proof using Hr.
  intros H1 H2 Ha Hb Ht. destruct (min_t_holds t1 t2 H1 H2) as (Hm & Hl & Hx). unfold SafeMin. rewrite safe_exact by done. cbn [eval_op].
  unfold in_range in *. destruct (Z.ltb_spec a b); rewrite type_or_holds; try done; unfold in_range; lia.
Qed.
Lemma SafeMax_exact t1 a t2 b : is_type t1 -> is_type t2 -> in_range t1 a -> in_range t2 b -> TypeOr r (max_t t1 t2) = true ->
  SafeMax r t1 a t2 b = Z.max a b.
Proof using Hr.
  intros H1 H2 Ha Hb Ht. destruct (max_t_holds t1 t2 H1 H2) as (Hm & Hl & Hx). unfold SafeMax. rewrite safe_exact by done. cbn [eval_op].
  unfold in_range in *. destruct (Z.ltb_spec b a); rewrite type_or_holds; try done; unfold in_range; lia.
Qed.
End bounds.

#[export] Instance int_type_eq_dec : EqDecision int_type.
Proof. solve_decision. Defined.
(** The acceptable types, by comparisons of integers. *)
Definition clamp_lo (t l h : int_type) : Z := Z.max (lowest l) (Z.min (lowest h) (lowest t)).
Definition clamp_hi (t l h : int_type) : Z := Z.min (max_of h) (Z.max (max_of l) (max_of t)).
Definition acceptable_ref (t l h a : int_type) : bool :=
  ((sizeof a <=? sizeof l) || (sizeof a <=? sizeof h) || (sizeof a <=? sizeof t)) && ((lowest a <=? clamp_lo t l h) && (clamp_hi t l h <=? max_of a)).

Lemma r_min_exact t l h : is_type t -> is_type l -> is_type h ->
  is_type (r_min t l h).1 /\ (r_min t l h).2 = clamp_lo t l h /\ in_range (r_min t l h).1 (clamp_lo t l h).
Proof.
  intros Ht Hl Hh. destruct (min_t_holds h t Hh Ht) as (Hm & Hlo & Hhi). destruct (max_t_holds l _ Hl Hm) as (Hx & Hxh & Hxl).
  destruct (is_type_size _ Ht) as (_ & ? & ?), (is_type_size _ Hl) as (_ & ? & ?), (is_type_size _ Hh) as (_ & ? & ?), (is_type_size _ Hm) as (_ & ? & ?).
  assert (Hn : forall t r, @None int_type = Some r -> is_type t) by done.
  unfold r_min, clamp_lo, in_range in *. cbn [fst snd]. rewrite (SafeMin_exact None) by (try apply type_or_none; unfold in_range; done || lia).
  rewrite (SafeMax_exact None) by (try apply type_or_none; unfold in_range; done || lia). split; [done|]. lia.
Qed.
Lemma r_max_exact t l h : is_type t -> is_type l -> is_type h ->
  is_type (r_max t l h).1 /\ (r_max t l h).2 = clamp_hi t l h /\ in_range (r_max t l h).1 (clamp_hi t l h).
Proof.
  intros Ht Hl Hh. destruct (max_t_holds l t Hl Ht) as (Hm & Hlo & Hhi). destruct (min_t_holds h _ Hh Hm) as (Hx & Hxh & Hxl).
  destruct (is_type_size _ Ht) as (_ & ? & ?), (is_type_size _ Hl) as (_ & ? & ?), (is_type_size _ Hh) as (_ & ? & ?), (is_type_size _ Hm) as (_ & ? & ?).
  unfold r_max, clamp_hi, in_range in *. cbn [fst snd]. rewrite (SafeMax_exact None) by (try apply type_or_none; unfold in_range; done || lia).
  rewrite (SafeMin_exact None) by (try apply type_or_none; unfold in_range; done || lia). split; [done|]. lia.
Qed.
Lemma acceptable_exact t l h a : is_type t -> is_type l -> is_type h -> is_type a ->
  AcceptableType t l h (r_min t l h) (r_max t l h) a = acceptable_ref t l h a.
Proof.
  intros Ht Hl Hh Ha. destruct (r_min_exact t l h Ht Hl Hh) as (M1 & M2 & M3), (r_max_exact t l h Ht Hl Hh) as (X1 & X2 & X3).
  destruct (is_type_size _ Ha) as (_ & ? & ?). unfold AcceptableType, acceptable_ref. rewrite M2, X2, !safe_exact by done. done.
Qed.
Lemma clamp_type_ext t f g : (forall a, is_type a -> f a = g a) -> clamp_type t f = clamp_type t g.
Proof.
  intros Hf. assert (Hs : best_signed_type f = best_signed_type g) by (unfold best_signed_type; by rewrite !Hf by (unfold is_type, int_types; set_solver)).
  assert (Hu : best_unsigned_type f = best_unsigned_type g) by (unfold best_unsigned_type; by rewrite !Hf by (unfold is_type, int_types; set_solver)).
  unfold clamp_type. rewrite Hs, Hu, !Hf; [done|unfold is_type, best_unsigned_type..]; unfold best_signed_type; repeat case_match; unfold int_types; set_solver.
Qed.

(** For every three types there is a result type: it passes the static
    assertion and holds every result of a clamp. *)
Definition clamp_type_ok (t l h : int_type) : bool :=
  let c := clamp_type t (acceptable_ref t l h) in acceptable_ref t l h c && bool_decide (c ∈ int_types).
Lemma clamp_types_ok : forallb (fun t => forallb (fun l => forallb (clamp_type_ok t l) int_types) int_types) int_types = true.
Proof. vm_compute. reflexivity. Qed.
Lemma clamp_type_holds t l h : is_type t -> is_type l -> is_type h ->
  is_type (ClampType t l h) /\ AcceptableType t l h (r_min t l h) (r_max t l h) (ClampType t l h) = true /\
  lowest (ClampType t l h) <= clamp_lo t l h /\ clamp_hi t l h <= max_of (ClampType t l h).
Proof.
  intros Ht Hl Hh. pose proof clamp_types_ok as H. rewrite forallb_forall in H. specialize (H t). rewrite forallb_forall in H.
  specialize (H (proj1 (list_elem_of_In _ _) Ht) l (proj1 (list_elem_of_In _ _) Hl)). rewrite forallb_forall in H.
  specialize (H h (proj1 (list_elem_of_In _ _) Hh)). unfold clamp_type_ok in H. cbv zeta in H.
  rewrite <- (clamp_type_ext t (AcceptableType t l h (r_min t l h) (r_max t l h))) in H by (intros; by apply acceptable_exact).
  fold (ClampType t l h) in H. apply andb_true_iff in H as [Ha Hc]. apply bool_decide_eq_true in Hc.
  split; [done|]. rewrite acceptable_exact by done. split; [done|]. unfold acceptable_ref in Ha. rewrite !andb_true_iff, !Z.leb_le in Ha. tauto.
Qed.
Lemma SafeClamp_exact r t x l min h max : (forall t, r = Some t -> is_type t) -> is_type t -> is_type l -> is_type h ->
  in_range t x -> in_range l min -> in_range h max -> min <= max -> TypeOr r (ClampType t l h) = true ->
  SafeClamp r t x l min h max = Z.max min (Z.min x max).
Proof.
  intros Hr Ht Hl Hh Hx Hmin Hmax Hle Hty. destruct (clamp_type_holds t l h Ht Hl Hh) as (Hc & _ & H1 & H2).
  unfold SafeClamp. rewrite !safe_exact by done. cbn [eval_op]. unfold in_range, clamp_lo, clamp_hi in *.
  destruct (Z.leb_spec x min), (Z.leb_spec max x); rewrite type_or_holds; try done; unfold in_range; lia.
Qed.

(** With the check compiled out, bounds in the wrong order wrap. *)
Example clamp_wrong_order : ClampType uint8_t int32_t uint8_t = uint8_t /\ SafeClamp None uint8_t 5 int32_t 1000 uint8_t 10 = 232.
Proof. vm_compute. auto. Qed.
