(* ===== verification/Units.v ===== *)
(** * [rtc_base/units/unit_base.h], [api/units/]: lengths of time and points in time

    A value of a unit is its [value_] : an [int64_t], whose two ends stand for the
    infinities.  The checks of debug builds are compiled out, so that a result can
    leave the type, or turn into an infinity.  Also the timestamps of 32 bits of
    [rtc_base/time_utils.cc] and their wrap-around. *)

From stdpp Require Import list.
From S2P Require Import Prelude CLib Numerics.
#[local] Open Scope Z_scope.
#[local] Open Scope xrtc_scope.

(** ** The language *)

(** [a * b] and [a / b] after the usual arithmetic conversions. *)
Definition c_mul (t1 : int_type) (a : Z) (t2 : int_type) (b : Z) : res Z :=
  let t := arith_type t1 t2 in let z := static_cast t a * static_cast t b in
  if is_signed t then if decide (lowest t <= z <= max_of t) then Ret z else Ub SignedOverflow else Ret (static_cast t z).
Definition c_div (t1 : int_type) (a : Z) (t2 : int_type) (b : Z) : res Z :=
  let t := arith_type t1 t2 in let z := Z.quot (static_cast t a) (static_cast t b) in
  if static_cast t b =? 0 then Ub DivByZero else if decide (lowest t <= z <= max_of t) then Ret z else Ub SignedOverflow.
(** The conversion of an integer to [double], of 53 bits: to the nearest, ties to
    even; and back. *)
Definition to_double (z : Z) : Z :=
  let k := Z.max 0 (Z.log2 (Z.abs z) - 52) in
  let q := Z.abs z / 2 ^ k in let r := Z.abs z mod 2 ^ k in
  Z.sgn z * 2 ^ k * (if 2 * r <? 2 ^ k then q else if 2 ^ k <? 2 * r then q + 1 else if k =? 0 then q else q + q mod 2).
Definition of_double (t : int_type) (z : Z) : res Z := if decide (lowest t <= z <= max_of t) then Ret z else Ub SignedOverflow.

(** ** UnitBase *)

Definition PlusInfinityVal : Z := max_of int64_t.
Definition MinusInfinityVal : Z := lowest int64_t.
Definition IsPlusInfinity (v : Z) : bool := v =? PlusInfinityVal.
Definition IsMinusInfinity (v : Z) : bool := v =? MinusInfinityVal.
Definition IsInfinite (v : Z) : bool := (v =? PlusInfinityVal) || (v =? MinusInfinityVal).
Definition IsFinite (v : Z) : bool := negb (IsInfinite v).
Definition IsZero (v : Z) : bool := v =? 0.
Definition unit_op (op : cmp_op) (v other : Z) : bool := Op op int64_t v int64_t other.

Definition FromValue (value : Z) : Z := static_cast int64_t value.
Definition FromFraction (denominator : Z) (t : int_type) (value : Z) : res Z := z ← c_mul t value int64_t denominator; Ret (static_cast int64_t z).
Definition ToValue (t : int_type) (v : Z) : Z := static_cast t v.
Definition ToValueOr (t : int_type) (v fallback_value : Z) : Z := if IsFinite v then static_cast t v else fallback_value.

Definition DivRoundPositiveToNearest (n d : Z) : res Z := s ← long (n + Z.quot d 2); c_div int64_t s int64_t d.
Definition DivRoundToNearest (n d : Z) : res Z := s ← long (n + (if 0 <=? n then Z.quot d 2 else Z.quot (- d) 2)); c_div int64_t s int64_t d.
Definition ToFraction (one_sided : bool) (denominator : Z) (t : int_type) (v : Z) : res Z :=
  q ← (if one_sided then DivRoundPositiveToNearest v denominator else DivRoundToNearest v denominator); Ret (static_cast t q).
Definition ToFractionOr (one_sided : bool) (denominator v fallback_value : Z) : res Z :=
  if IsFinite v then if one_sided then DivRoundPositiveToNearest v denominator else DivRoundToNearest v denominator else Ret fallback_value.
Definition ToMultiple (factor : Z) (t : int_type) (v : Z) : res Z := z ← long (ToValue int64_t v * factor); Ret (static_cast t z).

(** ** RelativeUnit *)

Definition mul_int64 (v scalar : Z) : res Z := z ← long (ToValue int64_t v * scalar); Ret (FromValue z).
Definition mul_int32 (v scalar : Z) : res Z := z ← c_mul int64_t (ToValue int64_t v) int32_t scalar; Ret (FromValue z).
(** [operator/] by an integer; [std::round] is of type [double]. *)
Definition div_scalar (t : int_type) (v scalar : Z) : res Z :=
  q ← c_div int64_t (ToValue int64_t v) t scalar; of_double int64_t (to_double q).
Definition plus (v other : Z) : res Z :=
  if IsPlusInfinity v || IsPlusInfinity other then Ret PlusInfinityVal
  else if IsMinusInfinity v || IsMinusInfinity other then Ret MinusInfinityVal
  else z ← long (ToValue int64_t v + ToValue int64_t other); Ret (FromValue z).
Definition minus (v other : Z) : res Z :=
  if IsPlusInfinity v || IsMinusInfinity other then Ret PlusInfinityVal
  else if IsMinusInfinity v || IsPlusInfinity other then Ret MinusInfinityVal
  else z ← long (ToValue int64_t v - ToValue int64_t other); Ret (FromValue z).
(** [std::max(min_value, std::min(v, max_value))] *)
Definition Clamped (v min_value max_value : Z) : Z :=
  let m := if unit_op LtOp max_value v then max_value else v in if unit_op LtOp min_value m then m else min_value.

Definition RoundTo (v resolution : Z) : res Z :=
  s ← long (v + Z.quot resolution 2); q ← c_div int64_t s int64_t resolution; mul_int64 q resolution.
Definition RoundUpTo (v resolution : Z) : res Z :=
  s ← long (v + resolution); s1 ← long (s - 1); q ← c_div int64_t s1 int64_t resolution; mul_int64 q resolution.
Definition RoundDownTo (v resolution : Z) : res Z := q ← c_div int64_t v int64_t resolution; mul_int64 q resolution.

(** ** TimeDelta *)

Definition TimeDelta_Seconds (t : int_type) (value : Z) : res Z := FromFraction 1000000 t value.
Definition TimeDelta_Millis (t : int_type) (value : Z) : res Z := FromFraction 1000 t value.
Definition TimeDelta_Micros (value : Z) : Z := FromValue value.
Definition TimeDelta_seconds (t : int_type) (v : Z) : res Z := ToFraction false 1000000 t v.
Definition TimeDelta_ms (t : int_type) (v : Z) : res Z := ToFraction false 1000 t v.
Definition TimeDelta_us (t : int_type) (v : Z) : Z := ToValue t v.
Definition TimeDelta_ns (t : int_type) (v : Z) : res Z := ToMultiple 1000 t v.
Definition TimeDelta_seconds_or (v fallback_value : Z) : res Z := ToFractionOr false 1000000 v fallback_value.
Definition TimeDelta_ms_or (v fallback_value : Z) : res Z := ToFractionOr false 1000 v fallback_value.
Definition TimeDelta_us_or (v fallback_value : Z) : Z := ToValueOr int64_t v fallback_value.
Definition Abs (v : Z) : res Z :=
  if TimeDelta_us int64_t v <? 0 then n ← long (- TimeDelta_us int64_t v); Ret (TimeDelta_Micros n) else Ret v.

(** ** Timestamp *)

Definition Timestamp_Seconds (t : int_type) (value : Z) : res Z := FromFraction 1000000 t value.
Definition Timestamp_Millis (t : int_type) (value : Z) : res Z := FromFraction 1000 t value.
Definition Timestamp_Micros (value : Z) : Z := FromValue value.
Definition Timestamp_seconds (t : int_type) (v : Z) : res Z := ToFraction true 1000000 t v.
Definition Timestamp_ms (t : int_type) (v : Z) : res Z := ToFraction true 1000 t v.
Definition Timestamp_us (t : int_type) (v : Z) : Z := ToValue t v.
Definition Timestamp_seconds_or (v fallback_value : Z) : res Z := ToFractionOr true 1000000 v fallback_value.
Definition Timestamp_ms_or (v fallback_value : Z) : res Z := ToFractionOr true 1000 v fallback_value.
Definition Timestamp_us_or (v fallback_value : Z) : Z := ToValueOr int64_t v fallback_value.
Definition Timestamp_plus (v delta : Z) : res Z :=
  if IsPlusInfinity v || IsPlusInfinity delta then Ret PlusInfinityVal
  else if IsMinusInfinity v || IsMinusInfinity delta then Ret MinusInfinityVal
  else z ← long (Timestamp_us int64_t v + TimeDelta_us int64_t delta); Ret (Timestamp_Micros z).
Definition Timestamp_minus (v delta : Z) : res Z :=
  if IsPlusInfinity v || IsMinusInfinity delta then Ret PlusInfinityVal
  else if IsMinusInfinity v || IsPlusInfinity delta then Ret MinusInfinityVal
  else z ← long (Timestamp_us int64_t v - TimeDelta_us int64_t delta); Ret (Timestamp_Micros z).
Definition Timestamp_diff (v other : Z) : res Z :=
  if IsPlusInfinity v || IsMinusInfinity other then Ret PlusInfinityVal
  else if IsMinusInfinity v || IsPlusInfinity other then Ret MinusInfinityVal
  else z ← long (Timestamp_us int64_t v - Timestamp_us int64_t other); Ret (TimeDelta_Micros z).

(** ** Timestamps of 32 bits *)

Record TimestampWrapAroundHandler := WrapHandler { last_ts_ : Z; num_wrap_ : Z }.
Definition new_TimestampWrapAroundHandler : TimestampWrapAroundHandler := WrapHandler 0 (-1).
(** [num_wrap_ << 32]: of C++14, defined while the result fits the unsigned type. *)
Definition shl32 (n : Z) : res Z := if decide (0 <= n < 2 ^ 32) then Ret (wrapS 64 (n * 2 ^ 32)) else Ub SignedOverflow.
Definition Unwrap (ts : Z) : M TimestampWrapAroundHandler Z :=
  h ← get;
  if num_wrap_ h =? -1 then _ ← put (WrapHandler ts 0); mret ts
  else if ts <? last_ts_ h then
    n ← (if (0xf0000000 <=? last_ts_ h) && (ts <? 0x0fffffff) then lift (long (num_wrap_ h + 1)) else mret (num_wrap_ h));
    _ ← put (WrapHandler ts n); lift (z ← shl32 n; long (ts + z))
  else if 0xf0000000 <? u32 (ts - last_ts_ h) then lift (n ← long (num_wrap_ h - 1); z ← long (n * 2 ^ 32); long (ts + z))
  else _ ← put (WrapHandler ts (num_wrap_ h)); lift (z ← shl32 (num_wrap_ h); long (ts + z)).

Definition TimeDiff32 (later earlier : Z) : Z := i32 (later - earlier).
Definition TimeDiff (later earlier : Z) : res Z := long (later - earlier).

(** ** Proofs: the arithmetic is that of the integers with two infinities *)

Inductive ext := MinusInf | Finite (z : Z) | PlusInf.
(** What a value stands for. *)
Definition denote (v : Z) : ext := if v =? PlusInfinityVal then PlusInf else if v =? MinusInfinityVal then MinusInf else Finite v.
Definition ext_neg (e : ext) : ext := match e with MinusInf => PlusInf | Finite z => Finite (- z) | PlusInf => MinusInf end.
(** The sum; of opposite infinities there is none. *)
Definition ext_add (a b : ext) : option ext :=
  match a, b with
  | Finite x, Finite y => Some (Finite (x + y))
  | PlusInf, MinusInf | MinusInf, PlusInf => None
  | PlusInf, _ | _, PlusInf => Some PlusInf
  | MinusInf, _ | _, MinusInf => Some MinusInf
  end.
Definition ext_lt (a b : ext) : Prop :=
  match a, b with
  | Finite x, Finite y => x < y
  | MinusInf, Finite _ | MinusInf, PlusInf | Finite _, PlusInf => True
  | _, _ => False
  end.
Definition int64_value (v : Z) : Prop := in_range int64_t v.
(** A finite result is between the two infinities. *)
Definition fits (e : ext) : Prop := match e with Finite z => MinusInfinityVal < z < PlusInfinityVal | _ => True end.

Lemma long_ret z : int64_value z -> long z = Ret z.
Proof. unfold int64_value, long. limits. intros H. by rewrite decide_True by lia. Qed.
Lemma long_over z : ~ int64_value z -> long z = Ub SignedOverflow.
Proof. unfold int64_value, long. limits. intros H. by rewrite decide_False by lia. Qed.
Lemma cast64 z : int64_value z -> static_cast int64_t z = z.
Proof. by apply static_cast_id. Qed.
Ltac ends := change PlusInfinityVal with 9223372036854775807 in *; change MinusInfinityVal with (-9223372036854775808) in *; unfold int64_value in *; limits.

Ltac by_ends := ends; lia.

Ltac sum_cases :=
  unfold ext_add, ext_neg, denote, fits; ends;
  repeat match goal with |- context [?x =? ?y] => destruct (Z.eqb_spec x y) end; subst; try lia; intros [= <-] Hf; cbn [fits] in Hf;
  try (eexists; split; [reflexivity|]; by vm_compute);
  rewrite ?cast64 by by_ends; cbn [orb]; cbv iota; rewrite long_ret by by_ends; unfold mbind, res_bind; cbv iota beta; eexists; (split; [rewrite cast64 by by_ends; reflexivity|]);
  repeat match goal with |- context [?x =? ?y] => destruct (Z.eqb_spec x y) end; try lia; try done.
(** Sums and differences of lengths and of points in time. *)
Lemma plus_exact a b e : int64_value a -> int64_value b -> ext_add (denote a) (denote b) = Some e -> fits e ->
  exists v, plus a b = Ret v /\ denote v = e.
Proof. intros Ha Hb. unfold plus, IsPlusInfinity, IsMinusInfinity, ToValue, FromValue. sum_cases. Qed.
Lemma minus_exact a b e : int64_value a -> int64_value b -> ext_add (denote a) (ext_neg (denote b)) = Some e -> fits e ->
  exists v, minus a b = Ret v /\ denote v = e.
Proof. intros Ha Hb. unfold minus, IsPlusInfinity, IsMinusInfinity, ToValue, FromValue. sum_cases. Qed.
Lemma Timestamp_same a b : Timestamp_plus a b = plus a b /\ Timestamp_minus a b = minus a b /\ Timestamp_diff a b = minus a b.
Proof. done. Qed.

(** The order of the values is that of what they stand for. *)
Lemma unit_lt_exact a b : int64_value a -> int64_value b -> unit_op LtOp a b = true <-> ext_lt (denote a) (denote b).
Proof.
  intros Ha Hb. unfold unit_op. rewrite Op_exact by (done || by_ends). cbn [eval_op]. rewrite Z.ltb_lt. unfold denote, ext_lt. ends.
  repeat match goal with |- context [?x =? ?y] => destruct (Z.eqb_spec x y) end; (split; [|]); intros; try done; lia.
Qed.
Lemma Clamped_exact v lo hi : int64_value v -> int64_value lo -> int64_value hi -> lo <= hi -> Clamped v lo hi = Z.max lo (Z.min v hi).
Proof.
  intros Hv Hl Hh Hle. unfold Clamped, unit_op. rewrite (Op_exact _ _ hi) by (done || by_ends). cbn [eval_op].
  destruct (Z.ltb_spec hi v); rewrite Op_exact by (done || by_ends); cbn [eval_op];
    [destruct (Z.ltb_spec lo hi)|destruct (Z.ltb_spec lo v)]; lia.
Qed.

(** Adding a length to a point in time and taking it off again. *)
Lemma Timestamp_there_and_back t d : MinusInfinityVal < t < PlusInfinityVal -> MinusInfinityVal < d < PlusInfinityVal ->
  MinusInfinityVal < t + d < PlusInfinityVal ->
  Timestamp_plus t d = Ret (t + d) /\ Timestamp_minus (t + d) d = Ret t /\ Timestamp_diff (t + d) t = Ret d.
Proof.
  intros Ht Hd Hs. unfold Timestamp_plus, Timestamp_minus, Timestamp_diff, IsPlusInfinity, IsMinusInfinity, Timestamp_us, TimeDelta_us, Timestamp_Micros,
    TimeDelta_Micros, ToValue, FromValue. ends.
  repeat match goal with |- context [?x =? ?y] => destruct (Z.eqb_spec x y); [lia|] end. cbn [orb].
  rewrite !cast64 by by_ends. cbv iota. rewrite !long_ret by by_ends. unfold mbind, res_bind. rewrite !cast64 by by_ends. split_and!; f_equal; lia.
Qed.

(** A sum outside the type is undefined; a sum that meets its end becomes infinite. *)
Lemma plus_overflow a b : MinusInfinityVal < a < PlusInfinityVal -> MinusInfinityVal < b < PlusInfinityVal -> ~ int64_value (a + b) -> plus a b = Ub SignedOverflow.
Proof.
  intros Ha Hb Hs. unfold plus, IsPlusInfinity, IsMinusInfinity, ToValue. ends.
  repeat match goal with |- context [?x =? ?y] => destruct (Z.eqb_spec x y); [lia|] end. cbn [orb]. rewrite !cast64 by by_ends. by rewrite long_over by by_ends.
Qed.
Example finite_becomes_infinite : plus (2 ^ 62) (2 ^ 62 - 1) = Ret PlusInfinityVal /\ plus PlusInfinityVal MinusInfinityVal = Ret PlusInfinityVal.
Proof. vm_compute. auto. Qed.

(** *** Division to the nearest *)

Lemma c_div_pos n d : int64_value n -> 0 < d -> int64_value d -> c_div int64_t n int64_t d = Ret (Z.quot n d).
Proof.
  intros Hn Hd Hd'. unfold c_div. change (arith_type int64_t int64_t) with int64_t. rewrite !cast64 by done.
  destruct (Z.eqb_spec d 0); [lia|]. rewrite decide_True; [done|]. ends.
  destruct (Z.le_ge_cases 0 n).
  - rewrite Z.quot_div_nonneg by lia. pose proof (Z.div_pos n d ltac:(lia) Hd). pose proof (Z.div_le_upper_bound n d n Hd ltac:(nia)). lia.
  - rewrite <- (Z.opp_involutive n), Z.quot_opp_l, Z.quot_div_nonneg by lia.
    pose proof (Z.div_pos (- n) d ltac:(lia) Hd). pose proof (Z.div_le_upper_bound (- n) d (- n) Hd ltac:(nia)). lia.
Qed.

(** [q] is [n / d] to the nearest, halves away from zero. *)
Definition nearest (n d q : Z) : Prop := if 0 <=? n then 2 * q * d <= 2 * n + d < 2 * (q + 1) * d else 2 * (- q) * d <= - (2 * n) + d < 2 * (- q + 1) * d.
Lemma div_half n d : 0 <= n -> 0 < d -> 2 * ((n + d / 2) / d) * d <= 2 * n + d < 2 * ((n + d / 2) / d + 1) * d.
Proof.
  intros Hn Hd. pose proof (Z.mul_div_le (n + d / 2) d Hd). pose proof (Z.mul_succ_div_gt (n + d / 2) d Hd).
  pose proof (Z.mul_div_le d 2 ltac:(lia)). pose proof (Z.mul_succ_div_gt d 2 ltac:(lia)). nia.
Qed.
(** The conversions to coarser units round to the nearest; those of a point in
    time leave the type when half a unit does not fit above it. *)
Lemma DivRoundPositive_exact n d : 0 <= n -> 0 < d -> int64_value n -> int64_value d ->
  if decide (int64_value (n + d / 2)) then exists q, DivRoundPositiveToNearest n d = Ret q /\ nearest n d q else DivRoundPositiveToNearest n d = Ub SignedOverflow.
Proof.
  intros Hn Hd Hn' Hd'. unfold DivRoundPositiveToNearest. rewrite (Z.quot_div_nonneg d 2) by lia. destruct (decide _) as [Hs|Hs].
  - rewrite long_ret by done. unfold mbind, res_bind. rewrite c_div_pos by done. eexists. split; [done|].
    pose proof (Z.div_pos d 2 ltac:(lia) ltac:(lia)). unfold nearest. rewrite (proj2 (Z.leb_le 0 n)) by done. rewrite Z.quot_div_nonneg by lia. by apply div_half.
  - by rewrite long_over by done.
Qed.
Lemma DivRound_exact n d : 0 < d -> int64_value n -> int64_value (Z.abs n + d / 2) -> int64_value d ->
  exists q, DivRoundToNearest n d = Ret q /\ nearest n d q.
Proof.
  intros Hd Hn Hs Hd'. pose proof (Z.div_pos d 2 ltac:(lia) ltac:(lia)) as H2. unfold DivRoundToNearest, nearest.
  destruct (Z.leb_spec 0 n).
  - rewrite (Z.quot_div_nonneg d 2), long_ret by (lia || (ends; lia)). unfold mbind, res_bind. rewrite c_div_pos by (done || (ends; lia)).
    eexists. split; [done|]. rewrite Z.quot_div_nonneg by lia. by apply div_half.
  - rewrite Z.quot_opp_l, (Z.quot_div_nonneg d 2), long_ret by (lia || (ends; lia)). unfold mbind, res_bind. rewrite c_div_pos by (done || (ends; lia)).
    eexists. split; [done|]. replace (n + - (d / 2)) with (- (- n + d / 2)) by lia. rewrite Z.quot_opp_l, Z.opp_involutive, Z.quot_div_nonneg by lia.
    pose proof (div_half (- n) d ltac:(lia) Hd). lia.
Qed.

(** Seconds and milliseconds come back. *)
Lemma fraction_roundtrip d v : 1 < d <= 1000000 -> MinusInfinityVal < d * v + d -> d * v + d < PlusInfinityVal -> MinusInfinityVal < d * v - d ->
  FromFraction d int64_t v = Ret (d * v) /\ ToFraction false d int64_t (d * v) = Ret v /\ (0 <= v -> ToFraction true d int64_t (d * v) = Ret v).
Proof.
  intros Hd H1 H2 H3. ends. assert (Hv : int64_value v) by (ends; nia). assert (Hq : d / 2 <= d) by (apply Z.div_le_upper_bound; lia).
  pose proof (Z.div_pos d 2 ltac:(lia) ltac:(lia)).
  assert (Hn : forall q, nearest (d * v) d q -> q = v) by (intros q; unfold nearest; destruct (Z.leb_spec 0 (d * v)); nia).
  split_and!; [|unfold ToFraction|intros H0; unfold ToFraction].
  - unfold FromFraction, c_mul. change (arith_type int64_t int64_t) with int64_t. change (is_signed int64_t) with true. rewrite !cast64 by by_ends.
    rewrite decide_True by (ends; lia). unfold mbind, res_bind. rewrite cast64 by by_ends. f_equal. lia.
  - destruct (DivRound_exact (d * v) d) as (q & -> & Hx); [lia|by_ends|by_ends|by_ends|]. rewrite (Hn q Hx). unfold mbind, res_bind. by rewrite cast64.
  - pose proof (DivRoundPositive_exact (d * v) d ltac:(nia) ltac:(lia) ltac:(by_ends) ltac:(by_ends)) as Hx.
    rewrite decide_True in Hx by by_ends. destruct Hx as (q & -> & Hx). rewrite (Hn q Hx). unfold mbind, res_bind. by rewrite cast64.
Qed.
Example latest_timestamp : Timestamp_ms int64_t (PlusInfinityVal - 1) = Ub SignedOverflow /\ TimeDelta_ms int64_t (PlusInfinityVal - 1) = Ub SignedOverflow.
Proof. vm_compute. auto. Qed.

(** *** Rounding to a resolution *)

Lemma mul_int64_ret q r : int64_value q -> int64_value (q * r) -> mul_int64 q r = Ret (q * r).
Proof. intros Hq Hr. unfold mul_int64, ToValue, FromValue. rewrite cast64, long_ret by done. unfold mbind, res_bind. by rewrite cast64. Qed.
(** From zero on, to the multiple of the resolution below, above and nearest. *)
Lemma rounding_exact v r : 0 <= v -> 0 < r -> v + r < PlusInfinityVal ->
  RoundDownTo v r = Ret (v / r * r) /\ RoundUpTo v r = Ret ((v + r - 1) / r * r) /\ RoundTo v r = Ret ((v + r / 2) / r * r).
Proof.
  intros Hv Hr Hs. ends. pose proof (Z.div_pos r 2 ltac:(lia) ltac:(lia)). assert (r / 2 <= r) by (apply Z.div_le_upper_bound; lia).
  assert (Hd : forall n, 0 <= n < 9223372036854775807 -> c_div int64_t n int64_t r = Ret (n / r) /\ mul_int64 (n / r) r = Ret (n / r * r)).
  { intros n Hn. pose proof (Z.div_pos n r ltac:(lia) Hr). pose proof (Z.mul_div_le n r Hr). rewrite c_div_pos by (done || by_ends).
    rewrite Z.quot_div_nonneg by lia. split; [done|]. apply mul_int64_ret; ends; nia. }
  unfold RoundDownTo, RoundUpTo, RoundTo. rewrite (Z.quot_div_nonneg r 2) by lia.
  split_and!; repeat (rewrite long_ret by by_ends; unfold mbind at 1, res_bind at 1; cbv beta iota).
  - destruct (Hd v ltac:(lia)) as [-> E]. exact E.
  - destruct (Hd (v + r - 1) ltac:(lia)) as [-> E]. exact E.
  - destruct (Hd (v + r / 2) ltac:(lia)) as [-> E]. exact E.
Qed.
(** Below zero the division truncates: none of the three is right. *)
Example rounding_negative : RoundDownTo (-7) 5 = Ret (-5) /\ RoundUpTo (-2) 5 = Ret 0 /\ RoundUpTo (-7) 5 = Ret 0 /\ RoundTo (-9) 5 = Ret (-5).
Proof. vm_compute. auto. Qed.
(** The quotient by an integer goes through a [double]; an unsigned divisor makes a negative length huge. *)
Example quotient_rounded : div_scalar int32_t (2 ^ 53 + 1) 1 = Ret (2 ^ 53) /\ div_scalar uint64_t (-10) 2 = Ub SignedOverflow /\
  div_scalar int64_t (-10) 4 = Ret (-2).
Proof. vm_compute. auto. Qed.

(** *** Wrap-around *)

(** The handler has followed the true time up to [last]. *)
Definition follows (h : TimestampWrapAroundHandler) (last : Z) : Prop := 0 <= last /\ last_ts_ h = last mod 2 ^ 32 /\ num_wrap_ h = last / 2 ^ 32.
(** Going back over a wrap does not move it. *)
Definition next_last (last t : Z) : Z := if t / 2 ^ 32 <? last / 2 ^ 32 then last else t.
(** Each time is near the last that was followed. *)
Fixpoint steps_near (last : Z) (ts : list Z) : Prop :=
  match ts with [] => True | t :: l => Z.abs (t - last) < 0x0fffffff /\ t < 2 ^ 62 /\ steps_near (next_last last t) l end.
Fixpoint Unwrap_all (ts : list Z) : M TimestampWrapAroundHandler (list Z) :=
  match ts with [] => mret [] | t :: l => x ← Unwrap (u32 t); xs ← Unwrap_all l; mret (x :: xs) end.

Lemma shl32_ret n : 0 <= n < 2 ^ 31 -> shl32 n = Ret (n * 2 ^ 32).
Proof. intros Hn. unfold shl32. rewrite decide_True, wrapS_small by lia. done. Qed.
Lemma unwrap_step h last t : follows h last -> last < 2 ^ 62 -> Z.abs (t - last) < 0x0fffffff -> t < 2 ^ 62 ->
  exists h', Unwrap (u32 t) h = Ret (t, h') /\ follows h' (next_last last t).
Proof.
  intros (Hp & Hl & Hw) Hb Hd Ht. unfold follows, next_last, Unwrap, get, put, wrapU in *. unfold mbind at 1, M_bind at 1. rewrite Hl, Hw.
  pose proof (Z.div_mod last (2 ^ 32) ltac:(lia)) as E1. pose proof (Z.mod_pos_bound last (2 ^ 32) ltac:(lia)) as B1.
  pose proof (Z.div_mod t (2 ^ 32) ltac:(lia)) as E2. pose proof (Z.mod_pos_bound t (2 ^ 32) ltac:(lia)) as B2.
  set (a := last mod 2 ^ 32) in *. set (w := last / 2 ^ 32) in *. set (b := t mod 2 ^ 32) in *. set (x := t / 2 ^ 32) in *.
  assert (Hw0 : 0 <= w < 2 ^ 30) by lia. destruct (Z.eqb_spec w (-1)); [lia|].
  destruct (Z.ltb_spec b a).
  - destruct (Z.leb_spec 0xf0000000 a), (Z.ltb_spec b 0x0fffffff); cbn [andb]; unfold mbind, M_bind, lift, mret, M_ret, res_bind;
      rewrite ?(long_ret (w + 1)) by (ends; lia); rewrite shl32_ret by lia; rewrite long_ret by (ends; lia); eexists;
      (split; [f_equal; f_equal; lia|]); destruct (Z.ltb_spec x w); cbn [last_ts_ num_wrap_]; lia.
  - replace ((b - a) mod 2 ^ 32) with (b - a) by (rewrite Z.mod_small; lia). destruct (Z.ltb_spec 0xf0000000 (b - a)).
    + unfold mbind, M_bind, lift, res_bind. rewrite (long_ret (w - 1)), (long_ret ((w - 1) * 2 ^ 32)), long_ret by (ends; lia). eexists.
      split; [f_equal; f_equal; lia|]. destruct (Z.ltb_spec x w); lia.
    + unfold mbind, M_bind, lift, mret, M_ret, res_bind. rewrite shl32_ret, long_ret by (ends; lia). eexists.
      split; [f_equal; f_equal; lia|]. destruct (Z.ltb_spec x w); cbn [last_ts_ num_wrap_]; lia.
Qed.
(** Timestamps of 32 bits whose true times move by less than 2^28 are told
    apart: the true times come out, in whatever order they go over the wraps. *)
Lemma unwrap_true_times h last ts : follows h last -> last < 2 ^ 62 -> steps_near last ts -> exists h', Unwrap_all ts h = Ret (ts, h').
Proof.
  revert h last. induction ts as [|t l IH]; intros h last Hf Hb Hs; [by eexists|]. destruct Hs as (Hd & Ht & Hs).
  destruct (unwrap_step h last t Hf Hb Hd Ht) as (h1 & E & Hf1).
  destruct (IH h1 (next_last last t) Hf1 ltac:(unfold next_last; case_match; lia) Hs) as (h2 & E2).
  exists h2. cbn [Unwrap_all]. rewrite (M_bind_eq _ _ _ _ _ E), (M_bind_eq _ _ _ _ _ E2). done.
Qed.
Lemma unwrap_first ts : 0 <= ts < 2 ^ 32 -> exists h, Unwrap ts new_TimestampWrapAroundHandler = Ret (ts, h) /\ follows h ts.
Proof. intros Ht. eexists. split; [reflexivity|]. unfold follows. cbn [last_ts_ num_wrap_]. rewrite Z.mod_small, Z.div_small by lia. lia. Qed.
Example over_the_wrap : exists h, Unwrap_all [2 ^ 32 - 5; 2 ^ 32 + 3; 2 ^ 32 - 1; 2 ^ 32 + 4] new_TimestampWrapAroundHandler = Ret ([2 ^ 32 - 5; 2 ^ 32 + 3; 2 ^ 32 - 1; 2 ^ 32 + 4], h).
Proof. eexists. vm_compute. reflexivity. Qed.
(** A step a little longer can be taken for one without a wrap. *)
Example wrap_missed : exists h, Unwrap_all [0xefffffff; 0xefffffff + 0x10000001] new_TimestampWrapAroundHandler = Ret ([0xefffffff; 0], h).
Proof. eexists. vm_compute. reflexivity. Qed.
